(* ===== verification/_CoqProject ===== *)
-Q . S2P
Prelude.v
CLib.v
Mem.v
Md5.v
Crc.v
Chains.v
Dlist.v
Rbcfg.v
Nvram.v
IpPool.v
Radius.v
RadiusQueue.v
Owipcalc.v
Garden.v
Pkt.v
Session.v
Conns.v
Dhcp.v
Lease.v
Reply.v
Answers.v
Dns.v
LogScan.v
LogTrigger.v
