(* ===== verification/Prelude.v ===== *)
(** * Verification of the firmware's own tools

    The repository is an OpenWrt-based router firmware: most of it packages other
    projects. This library verifies programs in C that are its own or that carry
    its core logic: the boot configuration tool, the configuration store in flash,
    the address pool, the walled garden, the packets, the DNS handling, the RADIUS
    client, the sessions and the DHCP leases of the hotspot daemon, the address
    calculator, and the log watcher that blocks hosts.

    ** Parts

    - [Prelude.v] (this file): the outcome of a C function ([Done], [Fail] with the
      error it reports, [Fault] for undefined behaviour and for fuel that ran out),
      machine words, byte order, byte buffers, and the lemmas and tactics shared by
      the other files.
    - [CLib.v]: what the sources use of the C library (character classes, strtoul,
      atoi, strchr, sscanf on /proc/mtd, number output).
    - [Mem.v]: buffers that C code reads and writes at offsets, with 16-bit fields in
      network order; used by the files on packets.
    - [Crc.v]: [package/boot/rbcfg/src/cyg_crc32.c] and
      [package/utils/nvram/src/crc.c], with their tables.
    - [Chains.v]: singly and doubly linked lists threaded through an array, as
      lists of indices; used by the pool, the tables, the queue and the ban lists.
    - [Dlist.v]: cells that are on one of two doubly linked lists, in use and free, with
      the four changes of these lists that [chilli.c] and [dhcp.c] both write out. The
      class [Linked] gives access to the links of a cell, [LinkedLaws] its laws;
      the connections of both files are instances.
    - [Rbcfg.v]: [package/boot/rbcfg/src/main.c]. The tool reads the configuration
      block from its partition, or from a staging file, changes one setting,
      recomputes the CRC ([Crc]) and writes the staging file back. Functions keep
      their names; [world] is the file system and the printed text, [sys] the
      outcome of the kernel's calls.
    - [Nvram.v]: [package/utils/nvram/src/nvram.c]: a hash table of variables over a
      mapped flash area, committed with [hndcrc8] ([Crc]). The interface it offers
      is the class [KVStore].
    - [IpPool.v]: [package/coova-chilli/src/src/ippool.c] with [sfhash.c], [lookup.c]
      and [option_aton] of [options.c]; the hash function is the class [AddrHash].
    - [Garden.v]: the pass-through lists of [garden.c] and their use in
      [dhcp_garden_check] ([dhcp.c]); it calls [option_aton] of [IpPool].
    - [Pkt.v]: [chksum.c] (IPv4 and IPv6 checksums), [pkt.c] (limits on TCP windows and
      segment sizes) and the header sizes of [pkt.h]. [datagram] is an IPv4 datagram
      cut at its checksum fields, [dg_valid] what a receiver checks.
    - [Dns.v]: names and records of [dns.c], and [dhcp_dns], [dhcp_nakDNS],
      [dhcp_dnsDNAT] and [dhcp_dnsunDNAT] of [dhcp.c]: local names are answered here,
      and the addresses of allowed domains go into the [Garden]; packets are built and
      checked with [Pkt]. [name_at] is RFC 1035's notion of a name in a packet.
    - [Md5.v]: [package/coova-chilli/src/src/md5.c] on a machine of either byte
      order, and the digest of RFC 1321 with its constants from the sine. The class
      [Digest] is what hashing in pieces promises; [md5_digest] is the instance.
    - [Radius.v]: the packets of [radius.c]: attributes, hidden passwords and keys,
      message authenticator and packet authenticators, proved against [Digest].
      A packet is its memory of 1600 bytes; [packet] says which attributes it holds.
    - [RadiusQueue.v]: the requests of [radius.c] that wait for a reply: slots of an
      array on a doubly linked list ([Chains]), sending, retransmission and
      timeouts, identifiers, and what is done with received datagrams. Packets
      sent and callbacks into the daemon are events.
    - [Session.v]: the sessions of [chilli.c]: [app_conn] is [struct app_conn_t] with its
      [session_params] and [session_state]; traffic shaping ([leaky_bucket]), counters
      ([chilli_acct_fromsub], [chilli_acct_tosub]), accounting requests ([acct_req],
      [chilli_req_attrs]), logins ([dnprot_accept]), limits ([session_interval]) and
      ends ([terminate_appconn]); [check_user] and [check_mac] of [redir.c]. Requests
      and scripts are events; [acct_pack] makes the packet of a request with
      [RadiusQueue] and [Radius]. [history] is any sequence of these steps.
    - [Conns.v]: the connections of [chilli.c], cells of a heap on two doubly linked
      lists ([chilli_new_conn], [freeconn], [chilli_getconn]) of [Dlist], and the walks
      over the ones in use ([checkconn], [killconn]), which call [Session]. [rep] relates
      the heap to the two lists.
    - [Dhcp.v]: the connections of [dhcp.c], one for each client, on the lists of [Dlist]
      and the chains of a hash table ([dhcp_hashadd], [dhcp_hashdel], [dhcp_hashget],
      [dhcp_lnkconn]). [table] relates them to the connections in use.
    - [Lease.v]: the life of a lease across [dhcp.c] and [chilli.c]. Its [world] puts
      [Conns], [Dhcp] and [IpPool] together with the pointers between them ([link], the
      peers): a client appears ([dhcp_getconn], [cb_dhcp_connect]), gets an address
      ([cb_dhcp_request], [upprot_getip]), logs in ([auth_radius], [accept],
      [dnprot_reject]), and leaves ([dhcp_freeconn], [session_disconnect]) by its
      message ([dhcp_getreq]), the periodic check ([dhcp_timeout]) or a command
      ([dhcp_release_mac]). [ties] says how the pointers belong together, [happen]
      is any of these events.
    - [Reply.v]: what [chilli.c] takes from RADIUS packets, on the world of [Lease] and
      the packets of [Radius]: the limits of a session ([config_radius_session]), replies
      ([cb_radius_auth_conf], [cb_radius_acct_conf]), requests of the server
      ([cb_radius_coa_ind]). [granted] says what attributes give.
    - [Answers.v]: what these do to clients in a consistent state of [Lease]; [moved] is a
      step in which only one session changes, and does not log in, [admitted] one that gives
      a client an address and logs it in.
    - [Owipcalc.v]: [package/network/utils/owipcalc/src/owipcalc.c].
    - [LogScan.v]: the pattern matching of [package/tlt-logtrigger/src/scan.c], on
      pointers into memory that may be read past a terminator.
    - [LogTrigger.v]: [list.c], the rest of [scan.c] and [processMsg] of
      [trigger.c]: each rule matches a message with [LogScan], counts failures in a
      linked list on the heap and starts its script (the event [Script]).

    ** Properties

    - Round trips: a value stored by [rbcfg set] is the one [rbcfg get] prints, other
      settings unchanged; variables survive [nvram_commit] and [nvram_open]; hidden
      passwords and keys are recovered with the secret; a redirected DNS request is
      undone in its response ([dhcp_dnsDNAT_roundtrip]); the usage of a session is read
      back from the packet of its report ([accounting_report]).
    - Refinement: the pool implements an allocator over sets of addresses
      ([ippool_newip_refines], [ippool_freeip_refines]), the pass-through array a
      list ([changes_refine]), the ban list a map of counters
      ([on_match_refines]), the connections an allocator over two lists
      ([connections_refine]), the request queue a list in the order of the timeouts
      ([radius_timeout_refines]), a packet a list of attributes
      ([radius_addattr_getattr]).
    - Histories: the script of a rule runs at every [maxfail]-th failure in a row
      ([history_runs]); what is counted is shown by [match_string_fields].
    - Packets: what [chksum] and [chksum6] leave sums to 0 as RFC 1071 has it; TCP
      options are rewritten as their list is ([pkt_shape_tcpmss_clamps]).
    - DNS: names are decoded ([dns_fullname_decodes]), on any packet in the end and
      within the buffer ([dns_fullname_total]); what a response to an allowed domain
      makes reachable ([dns_response_opens]) and what becomes of every response of known
      records ([dhcp_dns_response]); the bytes of local answers and of refusals.
    - Sessions: what the bucket lets through is bounded by its size and the bandwidth
      ([session_traffic_bound]), so that a limit on octets is exceeded by no more than
      that ([session_limit_overshoot]); a session ends at a check exactly when it is
      over a limit ([session_interval_spec]), and a check reaches all of them
      ([checkconn_spec]), as the end of the daemon does ([killconn_spec]); the
      accounting server sees one stop at most for each start, and a session that is
      open if and only if its subscriber is authenticated ([accounting_balanced]).
    - Leases: in every state that the events lead to, no two clients have the same
      address, and exactly the addresses that clients have are in use in the pool
      ([leases_consistent]); an address is only promised to the client that has it
      ([dhcp_getreq_promises]); the check ends the leases that have expired and no
      others ([dhcp_timeout_spec]); the table finds every client ([dhcp_getconn_spec]).
    - RADIUS packets: a session gets what the attributes grant, in whatever order they
      come ([config_radius_session_grants]); an accept in time gives the client it is
      about an address and logs it in, other replies log nobody in
      ([cb_radius_auth_conf_decides]); a request of the server
      reaches the sessions it names and no others ([cb_radius_coa_ind_spec]).
    - Liveness: a request that is never answered is sent as often as configured and
      then reported once ([radius_timeouts_drain]).
    - Equivalence: [md5.c] is the digest of RFC 1321; the table-driven CRCs are the
      polynomial remainders.
    - Invariants and types: the pool's lists and chains ([inv]), the request queue
      in every state that requests, datagrams and timeouts lead to
      ([reachable_consistent]), the calculator's stack.
    - Safety and bounds: the tag search stays in its block, a commit in its area,
      no address is given out twice, 128-bit address arithmetic reports overflow, only an
      authenticated reply ends a request ([radius_decaps_safe]).
    - Errors: a changed byte in a configuration block is rejected; a DNS request that
      looks like a tunnel is refused ([dhcp_dns_paranoid]).

    ** Conventions

    Integers are [Z], reduced to their width where the source wraps: [int] and
    [unsigned long] have 32 bits, [char] is signed, as on the MIPS targets. Byte
    order is an argument. Strings are lists of bytes without their terminator,
    except where the source walks memory. A shift that the standard leaves
    undefined is a [Fault], except [1 << 31]. An access outside an object is a
    [Fault], so a theorem that a result is [Done] or [Fail] also says that memory
    is not overrun. Allocation, the kernel, host name and address conversion are
    arguments. Text on stderr and debug logs are left out.

    Fuel: walks along linked lists get the number of cells, those over the connections
    and the chains of the DHCP table too; the search for a DHCP option gets the
    length of the message plus one, the size of the DHCP table 32 turns; loops over a string or
    a command line, over the blocks of a password or over the attributes of a packet
    get its length plus one; [log_up] gets 32 turns; the search for a free slot has
    the source's own count; DNS names get the length of the packet at each of the
    source's 15 levels of pointers, TCP options their number of bytes. The theorems
    that establish [Done] results show that these are enough.

    ** Not modelled

    Vendored projects (net-snmp, U-Boot, axTLS, shellinabox, libraries), kernel
    packages and drivers, build scripts, the web interface; of the hotspot daemon
    the reception of packets (ARP, EAPOL, what DHCP replies contain, address
    translation), redirection, the tunnel and the commands of its control socket; of
    RADIUS replies the configuration file of the administrative session; theorems on
    replies exclude attributes of WISPr and ChilliSpot with a wrong length
    ([short_vendor_attribute]), names too long for their arrays ([server_name_overrun]), EAP,
    the keys of access points, start points, addresses that move a client and the command
    [admin-reset] ([reset_while_walking], [second_connection]); theorems on leases are about daemons without
    [uamanyip], with which two clients can share a member of the pool
    ([shared_address]), DHCP options are not copied into RADIUS requests and no
    entries are made in the ARP table of the kernel; of its RADIUS client
    the sockets, the settings and the proxy (the configuration built is that of
    [config.h]: change-of-authority requests are served, limits are not enlarged,
    MD5 is its own, VLANs, traffic shaping and the end of accounting are in, accounting
    of the garden, locations, modules and layer 3 are not); system-call
    wrappers of [nvram] (staging file, device lookup); of the log watcher its
    configuration, the syslog pipe and the start of the script. *)

From stdpp Require Export base list option numbers strings gmap.
From Stdlib Require Export ZArith Lia.

#[global] Open Scope Z_scope.
#[export] Set Default Goal Selector "!".

(** * Outcomes of C code *)

(** A computation either produces a value ([Done]), takes one of the error
    exits of the source ([Fail], with the error the source reports), or
    performs an access the C language gives no meaning to ([Fault]: an index
    outside an object, a null dereference, a shift by the width). *)
Inductive outcome (E A : Type) : Type :=
| Done (a : A)
| Fail (e : E)
| Fault.
Arguments Done {E A} a.
Arguments Fail {E A} e.
Arguments Fault {E A}.

#[export] Instance outcome_ret {E} : MRet (outcome E) := fun A a => Done a.
#[export] Instance outcome_bind {E} : MBind (outcome E) := fun A B f m =>
  match m with
  | Done a => f a
  | Fail e => Fail e
  | Fault => Fault
  end.

#[export] Instance Done_inj {E A} : Inj eq eq (@Done E A).
Proof. by intros a b [= ->]. Qed.

(** A memory access that must be in range. *)
Definition access {E A} (o : option A) : outcome E A :=
  match o with Some a => Done a | None => Fault end.

(** One step of a computation whose first part is known. *)
Ltac obind := cbn [mbind outcome_bind mret outcome_ret access].

(** The parts of a computation that went well. *)
Lemma bind_inv {E A B} (m : outcome E A) (f : A -> outcome E B) y :
  (x ← m; f x) = Done y -> exists x, m = Done x /\ f x = Done y.
Proof. destruct m as [x| |]; obind; intros H; [by exists x|done..]. Qed.

(** * Machine integers, kept as [Z] in the range of their C type *)

Definition u8 (x : Z) : Z := x mod 2 ^ 8.
Definition u16 (x : Z) : Z := x mod 2 ^ 16.
Definition u32 (x : Z) : Z := x mod 2 ^ 32.

(** The signed reading of a [w]-bit pattern. *)
Definition signed (w x : Z) : Z :=
  let y := x mod 2 ^ w in if y <? 2 ^ (w - 1) then y else y - 2 ^ w.
Definition s8 (x : Z) : Z := signed 8 x.
Definition s32 (x : Z) : Z := signed 32 x.

Declare Scope cint_scope.
Delimit Scope cint_scope with cint.
Notation "x +₃₂ y" := (u32 (x + y)) (at level 50, left associativity) : cint_scope.
Notation "x -₃₂ y" := (u32 (x - y)) (at level 50, left associativity) : cint_scope.
Notation "x &ᵤ y" := (Z.land x y) (at level 48, left associativity) : cint_scope.
Notation "x |ᵤ y" := (Z.lor x y) (at level 49, left associativity) : cint_scope.
Notation "x ^ᵤ y" := (Z.lxor x y) (at level 49, left associativity) : cint_scope.
Notation "x <<ᵤ y" := (Z.shiftl x y) (at level 47, left associativity) : cint_scope.
Notation "x >>ᵤ y" := (Z.shiftr x y) (at level 47, left associativity) : cint_scope.
Notation "~₃₂ x" := (u32 (Z.lnot x)) (at level 35, right associativity) : cint_scope.
#[global] Open Scope cint_scope.

(** Values of an unsigned [w]-bit type. *)
Definition in_w (w x : Z) : Prop := 0 <= x < 2 ^ w.
Definition is_u8 (x : Z) : Prop := in_w 8 x.
Definition is_u16 (x : Z) : Prop := in_w 16 x.
Definition is_u32 (x : Z) : Prop := in_w 32 x.

(** Byte order of the machine the program is compiled for. *)
Inductive endian := LE | BE.
#[export] Instance endian_eq_dec : EqDecision endian.
Proof. solve_decision. Defined.

Definition bswap32 (x : Z) : Z :=
  ((x &ᵤ 255) <<ᵤ 24) |ᵤ (((x >>ᵤ 8) &ᵤ 255) <<ᵤ 16)
  |ᵤ (((x >>ᵤ 16) &ᵤ 255) <<ᵤ 8) |ᵤ ((x >>ᵤ 24) &ᵤ 255).
Definition htonl (e : endian) (x : Z) : Z :=
  match e with BE => u32 x | LE => bswap32 (u32 x) end.
Definition ntohl (e : endian) (x : Z) : Z := htonl e x.
Definition htons (e : endian) (x : Z) : Z :=
  match e with
  | BE => u16 x
  | LE => ((x &ᵤ 255) <<ᵤ 8) |ᵤ ((x >>ᵤ 8) &ᵤ 255)
  end.
Definition ntohs (e : endian) (x : Z) : Z := htons e x.

(** * Byte buffers *)

Abbreviation bytes := (list Z).
Definition is_bytes (l : bytes) : Prop := Forall is_u8 l.

(** [l] with the elements of [vs] stored from offset [off] on, when they fit. *)
Definition splice (off : nat) (vs l : bytes) : option bytes :=
  if decide (off + length vs <= length l)%nat
  then Some (take off l ++ vs ++ drop (off + length vs) l)
  else None.

(** [n] bytes read from offset [off], when they are all in range. *)
Definition slice (off n : nat) (l : bytes) : option bytes :=
  if decide (off + n <= length l)%nat then Some (take n (drop off l)) else None.

Lemma is_bytes_check l : forallb (fun b => (0 <=? b) && (b <? 2 ^ 8)) l = true -> is_bytes l.
Proof.
  intros H. apply Forall_forall. intros b Hb. rewrite forallb_forall in H.
  specialize (H b). rewrite <- list_elem_of_In in H. specialize (H Hb). unfold is_u8, in_w. lia.
Qed.
(** Concrete byte lists and values are in range. *)
Ltac solve_bytes :=
  match goal with
  | |- is_bytes _ => apply is_bytes_check; vm_compute; reflexivity
  | _ => unfold is_u8, is_u16, is_u32, in_w; lia
  end.

(** Byte lists are closed under the list operations. *)
Lemma is_bytes_app l k : is_bytes l -> is_bytes k -> is_bytes (l ++ k).
Proof. apply Forall_app_2. Qed.
Lemma is_bytes_cons b l : is_u8 b -> is_bytes l -> is_bytes (b :: l).
Proof. by constructor. Qed.
Lemma is_bytes_take n l : is_bytes l -> is_bytes (take n l).
Proof. apply Forall_take. Qed.
Lemma is_bytes_drop n l : is_bytes l -> is_bytes (drop n l).
Proof. apply Forall_drop. Qed.
Lemma is_bytes_replicate n b : is_u8 b -> is_bytes (replicate n b).
Proof. intros. by apply Forall_replicate. Qed.

(** Big-endian value of a byte list. *)
Fixpoint be_val (l : bytes) : Z :=
  match l with
  | [] => 0
  | b :: l' => b * 2 ^ (8 * Z.of_nat (length l')) + be_val l'
  end.
(** The [n] bytes of [x], most significant first. *)
Fixpoint be_bytes (n : nat) (x : Z) : bytes :=
  match n with
  | O => []
  | S n' => (x >>ᵤ (8 * Z.of_nat n')) mod 256 :: be_bytes n' x
  end.
(** A native word as it lies in memory. *)
Definition word_bytes (e : endian) (x : Z) : bytes :=
  match e with BE => be_bytes 4 x | LE => reverse (be_bytes 4 x) end.
Definition word_val (e : endian) (l : bytes) : Z :=
  match e with BE => be_val l | LE => be_val (reverse l) end.

(** * Arithmetic automation *)

(** [lia] after turning divisions and remainders into equations. *)
Ltac zdm := Z.div_mod_to_equations; lia.
(** Unfold the word types and solve by arithmetic. *)
Ltac words := unfold is_u8, is_u16, is_u32, in_w, u8, u16, u32 in *; zdm.

Create HintDb cint discriminated.
Create Rewrite HintDb cint.

Lemma u8_range x : is_u8 (u8 x).
Proof. words. Qed.
Lemma u16_range x : is_u16 (u16 x).
Proof. words. Qed.
Lemma u32_range x : is_u32 (u32 x).
Proof. words. Qed.
#[export] Hint Resolve u8_range u16_range u32_range : cint.
#[export] Hint Resolve is_bytes_app is_bytes_cons is_bytes_take is_bytes_drop is_bytes_replicate : cint.

Lemma u8_small x : is_u8 x -> u8 x = x.
Proof. intros. apply Z.mod_small. exact H. Qed.
Lemma u16_small x : is_u16 x -> u16 x = x.
Proof. intros. apply Z.mod_small. exact H. Qed.
Lemma u32_small x : is_u32 x -> u32 x = x.
Proof. intros. apply Z.mod_small. exact H. Qed.
Lemma u32_u32 x : u32 (u32 x) = u32 x.
Proof. apply u32_small, u32_range. Qed.
#[export] Hint Rewrite u32_u32 : cint.

(** Bitwise reasoning on values in range. *)
Lemma in_w_testbit w x :
  0 <= w -> in_w w x -> forall i, w <= i -> Z.testbit x i = false.
Proof.
  intros Hw Hx i Hi. rewrite <- (Z.mod_small x (2 ^ w)) by exact Hx.
  apply Z.mod_pow2_bits_high. lia.
Qed.
Lemma in_w_of_testbit w x :
  0 <= w -> 0 <= x -> (forall i, w <= i -> Z.testbit x i = false) -> in_w w x.
Proof.
  intros Hw Hx Hb. split; [done|].
  destruct (decide (x = 0)) as [->|Hne]; [apply Z.pow_pos_nonneg; lia|].
  apply Z.log2_lt_pow2; [lia|].
  destruct (decide (Z.log2 x < w)) as [|Hge]; [done|].
  specialize (Hb (Z.log2 x) ltac:(lia)).
  rewrite Z.bit_log2 in Hb by lia. done.
Qed.
Lemma land_in_w w x y : 0 <= w -> in_w w x -> 0 <= y -> in_w w (x &ᵤ y).
Proof.
  intros Hw Hx Hy. apply in_w_of_testbit; [done|apply Z.land_nonneg; left; apply Hx|].
  intros i Hi. rewrite Z.land_spec, (in_w_testbit w x) by done. done.
Qed.
Lemma lor_in_w w x y : 0 <= w -> in_w w x -> in_w w y -> in_w w (x |ᵤ y).
Proof.
  intros Hw Hx Hy. apply in_w_of_testbit; [done|apply Z.lor_nonneg; split; [apply Hx|apply Hy]|].
  intros i Hi. by rewrite Z.lor_spec, (in_w_testbit w x), (in_w_testbit w y).
Qed.
Lemma lxor_in_w w x y : 0 <= w -> in_w w x -> in_w w y -> in_w w (x ^ᵤ y).
Proof.
  intros Hw Hx Hy. apply in_w_of_testbit; [done| |].
  - rewrite Z.lxor_nonneg. destruct Hx, Hy; split; done.
  - intros i Hi. by rewrite Z.lxor_spec, (in_w_testbit w x), (in_w_testbit w y).
Qed.
Lemma shiftr_in_w w x n : 0 <= n -> in_w w x -> in_w w (x >>ᵤ n).
Proof.
  unfold in_w. intros Hn Hx. rewrite Z.shiftr_div_pow2 by lia.
  pose proof (Z.pow_pos_nonneg 2 n ltac:(lia) Hn). split; [apply Z.div_pos; lia|].
  apply Z.div_lt_upper_bound; nia.
Qed.

(** * Byte order *)

Lemma length_be_bytes n x : length (be_bytes n x) = n.
Proof. induction n; simpl; auto. Qed.
Lemma is_bytes_be_bytes n x : is_bytes (be_bytes n x).
Proof. induction n; simpl; constructor; [words|done]. Qed.
#[export] Hint Resolve is_bytes_be_bytes : cint.

Lemma be_val_bytes n x : be_val (be_bytes n x) = x mod 2 ^ (8 * Z.of_nat n).
Proof.
  induction n as [|n IH]; simpl be_val.
  - simpl. by rewrite Z.mod_1_r.
  - rewrite IH, length_be_bytes, Z.shiftr_div_pow2 by lia.
    replace (8 * Z.of_nat (S n)) with (8 * Z.of_nat n + 8) by lia.
    rewrite Z.pow_add_r by lia.
    assert (0 < 2 ^ (8 * Z.of_nat n)) by (apply Z.pow_pos_nonneg; lia).
    rewrite Z.rem_mul_r by lia. change (2 ^ 8) with 256. lia.
Qed.

Lemma be_val_bytes4 x : be_val (be_bytes 4 x) = u32 x.
Proof. apply be_val_bytes. Qed.

Lemma be_val_range l : is_bytes l -> 0 <= be_val l < 2 ^ (8 * Z.of_nat (length l)).
Proof.
  induction 1 as [|b l Hb _ IH]; cbn [be_val length]; [lia|].
  rewrite Nat2Z.inj_succ, Z.mul_succ_r, Z.pow_add_r by lia.
  unfold is_u8, in_w in Hb. change (2 ^ 8) with 256 in *. nia.
Qed.

(** Only the low [8 * n] bits of a value reach its [n] bytes. *)
Lemma be_bytes_add n k x a :
  (n <= k)%nat -> be_bytes n (x + a * 2 ^ (8 * Z.of_nat k)) = be_bytes n x.
Proof.
  intros Hnk. induction n as [|n IH]; cbn [be_bytes]; [done|].
  f_equal; [|apply IH; lia].
  rewrite !Z.shiftr_div_pow2 by lia.
  replace (2 ^ (8 * Z.of_nat k))
    with (2 ^ (8 * Z.of_nat (k - S n)) * 256 * 2 ^ (8 * Z.of_nat n)).
  2: { change 256 with (2 ^ 8). rewrite <- !Z.pow_add_r by lia. f_equal. lia. }
  rewrite !Z.mul_assoc, Z.div_add by (apply Z.pow_nonzero; lia).
  by rewrite Z.mod_add.
Qed.

Lemma be_bytes_val l : is_bytes l -> be_bytes (length l) (be_val l) = l.
Proof.
  induction 1 as [|b l Hb Hl IH]; cbn [be_val length be_bytes]; [done|].
  pose proof (be_val_range l Hl) as Hr.
  assert (Hp : 0 < 2 ^ (8 * Z.of_nat (length l))) by (apply Z.pow_pos_nonneg; lia).
  f_equal.
  - rewrite Z.shiftr_div_pow2, Z.div_add_l, Z.div_small, Z.add_0_r by lia.
    by apply u8_small.
  - by rewrite Z.add_comm, be_bytes_add, IH.
Qed.

Lemma length_word_bytes e x : length (word_bytes e x) = 4%nat.
Proof. destruct e; simpl; rewrite ?length_reverse; done. Qed.
Lemma is_bytes_word_bytes e x : is_bytes (word_bytes e x).
Proof. destruct e; [apply Forall_reverse|]; apply is_bytes_be_bytes. Qed.
Lemma word_val_bytes e x : word_val e (word_bytes e x) = u32 x.
Proof.
  destruct e; unfold word_val, word_bytes; rewrite ?reverse_involutive; apply be_val_bytes.
Qed.
Lemma word_bytes_val e l : length l = 4%nat -> is_bytes l -> word_bytes e (word_val e l) = l.
Proof.
  intros Hl Hb. destruct e; unfold word_val, word_bytes.
  - rewrite <- (length_reverse l) in Hl. rewrite <- Hl, be_bytes_val, reverse_involutive; [done|].
    by apply Forall_reverse.
  - rewrite <- Hl. by apply be_bytes_val.
Qed.
#[export] Hint Resolve is_bytes_word_bytes : cint.
#[export] Hint Rewrite length_be_bytes length_word_bytes word_val_bytes : cint.

(** * Buffers: reading after writing *)

Lemma splice_Some off vs l :
  (off + length vs <= length l)%nat ->
  splice off vs l = Some (take off l ++ vs ++ drop (off + length vs) l).
Proof. intros H. unfold splice. by rewrite decide_True. Qed.

Lemma splice_inv off vs l l' :
  splice off vs l = Some l' ->
  (off + length vs <= length l)%nat /\ l' = take off l ++ vs ++ drop (off + length vs) l.
Proof. unfold splice. case_decide; intros [= <-]; done. Qed.

Lemma splice_length off vs l l' : splice off vs l = Some l' -> length l' = length l.
Proof.
  intros [Hle ->]%splice_inv. rewrite !length_app, length_take, length_drop. lia.
Qed.

Lemma splice_lookup off vs l l' i :
  splice off vs l = Some l' ->
  l' !! i = if decide (off <= i < off + length vs)%nat then vs !! (i - off)%nat else l !! i.
Proof.
  intros [Hle ->]%splice_inv. case_decide as Hi.
  - rewrite lookup_app_r by (rewrite length_take; lia).
    rewrite length_take, Nat.min_l by lia. rewrite lookup_app_l by lia. done.
  - destruct (decide (i < off)%nat).
    + rewrite lookup_app_l by (rewrite length_take; lia). apply lookup_take_lt. lia.
    + rewrite lookup_app_r by (rewrite length_take; lia).
      rewrite length_take, Nat.min_l by lia. rewrite lookup_app_r by lia.
      rewrite lookup_drop. f_equal. lia.
Qed.

Lemma splice_is_bytes off vs l l' :
  splice off vs l = Some l' -> is_bytes vs -> is_bytes l -> is_bytes l'.
Proof.
  intros [_ ->]%splice_inv Hv Hl.
  repeat apply Forall_app_2; auto using Forall_take, Forall_drop.
Qed.

Lemma slice_Some off n l :
  (off + n <= length l)%nat -> slice off n l = Some (take n (drop off l)).
Proof. intros H. unfold slice. by rewrite decide_True. Qed.

Lemma slice_inv off n l s :
  slice off n l = Some s ->
  (off + n <= length l)%nat /\ s = take n (drop off l) /\ length s = n.
Proof.
  unfold slice. case_decide; intros [= <-].
  rewrite length_take, length_drop. split; [done|]. split; [done|lia].
Qed.

Lemma slice_is_bytes off n l s : slice off n l = Some s -> is_bytes l -> is_bytes s.
Proof. intros (_ & -> & _)%slice_inv Hl. by apply Forall_take, Forall_drop. Qed.

Lemma slice_agree off n (l l' : bytes) :
  length l = length l' ->
  (forall i, (off <= i < off + n)%nat -> l !! i = l' !! i) ->
  slice off n l = slice off n l'.
Proof.
  intros Hlen Hag. unfold slice. rewrite Hlen. case_decide; [|done]. f_equal.
  apply list_eq. intros i. destruct (decide (i < n)%nat).
  - rewrite !lookup_take_lt, !lookup_drop by lia. apply Hag. lia.
  - rewrite !lookup_take_ge by lia. done.
Qed.

Lemma slice_splice off vs l l' :
  splice off vs l = Some l' -> slice off (length vs) l' = Some vs.
Proof.
  intros H. pose proof (splice_length _ _ _ _ H) as Hl. apply splice_inv in H as [Hle ->].
  rewrite slice_Some by lia. f_equal.
  rewrite drop_app_length' by (rewrite length_take; lia). apply take_app_length.
Qed.

Lemma slice_splice_disjoint off vs l l' off' n :
  splice off vs l = Some l' ->
  (off' + n <= off \/ off + length vs <= off')%nat ->
  slice off' n l' = slice off' n l.
Proof.
  intros H Hd. apply slice_agree; [by eapply splice_length|].
  intros i Hi. rewrite (splice_lookup _ _ _ _ _ H). rewrite decide_False by lia. done.
Qed.

(** * Lists *)

(** A position found by a left-to-right scan is the first one that satisfies
    the predicate. *)
Fixpoint find_from {A} (f : A -> bool) (l : list A) : option (nat * A) :=
  match l with
  | [] => None
  | x :: l' =>
    if f x then Some (O, x)
    else match find_from f l' with Some (i, y) => Some (S i, y) | None => None end
  end.

Lemma find_from_Some {A} (f : A -> bool) l i x :
  find_from f l = Some (i, x) <->
  l !! i = Some x /\ f x = true /\ (forall j y, (j < i)%nat -> l !! j = Some y -> f y = false).
Proof.
  revert i. induction l as [|y l IH]; intros i; simpl.
  { split; [done|]. intros [H _]. by rewrite lookup_nil in H. }
  destruct (f y) eqn:Hy.
  - split.
    + intros [= <- <-]. split; [done|]. split; [done|]. intros; lia.
    + intros (Hl & Hf & Hb). destruct i as [|i]; simpl in Hl; [congruence|].
      specialize (Hb O y ltac:(lia) eq_refl). congruence.
  - split.
    + destruct (find_from f l) as [[j z]|]; [|done]. intros [= <- <-].
      destruct (proj1 (IH j) eq_refl) as (Hl & Hf & Hb). split; [done|]. split; [done|].
      intros [|k] w Hk Hw; simpl in Hw; [congruence|]. eapply Hb; [|done]. lia.
    + intros (Hl & Hf & Hb). destruct i as [|i]; simpl in Hl; [congruence|].
      assert (find_from f l = Some (i, x)) as ->; [|done].
      apply IH. split; [done|]. split; [done|]. intros j w Hj Hw. apply (Hb (S j) w); [lia|done].
Qed.

Lemma find_from_None {A} (f : A -> bool) l :
  find_from f l = None <-> Forall (fun x => f x = false) l.
Proof.
  induction l as [|y l IH]; simpl; [done|]. rewrite Forall_cons.
  destruct (f y) eqn:Hy; [split; [done|intros [? _]; congruence]|].
  rewrite <- IH. clear. destruct (find_from f l) as [[? ?]|]; intuition discriminate.
Qed.

(** Two adjacent stores are one store. *)
Lemma splice_splice_app off a b l l1 :
  splice off a l = Some l1 -> splice (off + length a) b l1 = splice off (a ++ b) l.
Proof.
  intros H. pose proof (splice_length _ _ _ _ H) as Hl. apply splice_inv in H as [Hle ->].
  unfold splice at 1. rewrite Hl. unfold splice. rewrite length_app.
  repeat case_decide; try lia; [|done]. f_equal.
  assert (Ht : length (take off l) = off) by (rewrite length_take; lia).
  rewrite take_app_ge by lia. rewrite Ht.
  replace (off + length a - off)%nat with (length a) by lia. rewrite take_app_length.
  rewrite drop_app_ge by lia. rewrite Ht, drop_app_ge by lia.
  replace (off + length a + length b - off - length a)%nat with (length b) by lia.
  rewrite drop_drop, <- !app_assoc. do 4 f_equal. lia.
Qed.

Lemma splice_nil off l : (off <= length l)%nat -> splice off [] l = Some l.
Proof.
  intros H. rewrite splice_Some by (simpl; lia). simpl. by rewrite Nat.add_0_r, take_drop.
Qed.

(** What lies behind a store that ends a buffer's used part. *)
Lemma splice_drop off vs l l' : splice off vs l = Some l' -> exists post, drop off l' = vs ++ post.
Proof.
  intros [Hle ->]%splice_inv. rewrite drop_app_length' by (rewrite length_take; lia). by eexists.
Qed.

(** [l'] differs from [l] at most at the positions [lo <= i < hi]. *)
Definition frame (lo hi : nat) (l l' : bytes) : Prop :=
  length l' = length l /\ forall i, (i < lo \/ hi <= i)%nat -> l' !! i = l !! i.

Lemma frame_refl lo hi l : frame lo hi l l.
Proof. done. Qed.
Lemma frame_trans lo hi l1 l2 l3 : frame lo hi l1 l2 -> frame lo hi l2 l3 -> frame lo hi l1 l3.
Proof. intros [? H1] [? H2]. split; [congruence|]. intros i Hi. by rewrite H2, H1. Qed.
Lemma frame_weaken lo hi lo' hi' l l' :
  frame lo hi l l' -> (lo' <= lo)%nat -> (hi <= hi')%nat -> frame lo' hi' l l'.
Proof. intros [? H] Hlo Hhi. split; [done|]. intros i Hi. apply H. lia. Qed.
Lemma splice_frame off vs l l' : splice off vs l = Some l' -> frame off (off + length vs) l l'.
Proof.
  intros H. split; [by eapply splice_length|].
  intros i Hi. rewrite (splice_lookup _ _ _ _ i H). by rewrite decide_False by lia.
Qed.
Lemma frame_slice lo hi l l' off n :
  frame lo hi l l' -> (off + n <= lo \/ hi <= off)%nat -> slice off n l' = slice off n l.
Proof. intros [Hl H] Hd. apply slice_agree; [done|]. intros i Hi. apply H. lia. Qed.
Lemma slice_drop off n l s : slice off n l = Some s -> exists post, drop off l = s ++ post.
Proof. intros (_ & -> & _)%slice_inv. eexists. symmetry. apply take_drop. Qed.

Lemma s32_small x : 0 <= x < 2 ^ 31 -> s32 x = x.
Proof.
  intros H. unfold s32, signed. rewrite Z.mod_small by lia.
  destruct (Z.ltb_spec x (2 ^ (32 - 1))); lia.
Qed.
Lemma slice_app off n k l a b :
  slice off n l = Some a -> slice (off + n) k l = Some b -> slice off (n + k) l = Some (a ++ b).
Proof.
  intros (H1 & -> & _)%slice_inv (H2 & -> & _)%slice_inv. rewrite slice_Some by lia. f_equal.
  rewrite <- (take_take_drop (drop off l) n k), drop_drop. done.
Qed.
Lemma slice_app_r off n k l a b :
  slice off (n + k) l = Some (a ++ b) -> length a = n -> slice (off + n) k l = Some b.
Proof.
  intros (H1 & H2 & H3)%slice_inv Ha. rewrite slice_Some by lia. f_equal.
  rewrite length_app in H3. rewrite <- drop_drop.
  rewrite <- (take_drop (n + k) (drop off l)), <- H2, <- Ha, <- app_assoc, drop_app_length.
  apply take_app_length'. lia.
Qed.

(** A field joined below a shifted value. *)
Lemma lor_low n a c : 0 <= n -> 0 <= c < 2 ^ n -> (a <<ᵤ n) |ᵤ c = a * 2 ^ n + c.
Proof.
  intros Hn Hc. rewrite <- Z.shiftl_mul_pow2 by done.
  assert (Hd : Z.land (a <<ᵤ n) c = 0).
  { apply Z.bits_inj'. intros i Hi. rewrite Z.land_spec, Z.bits_0.
    destruct (decide (i < n)); [by rewrite Z.shiftl_spec_low|].
    rewrite (in_w_testbit n c) by (done || lia). apply andb_false_r. }
  rewrite <- Z.lxor_lor by done. symmetry. by apply Z.add_nocarry_lxor.
Qed.
Lemma land_255 x : x &ᵤ 255 = x mod 256.
Proof. change 255 with (Z.ones 8). by rewrite Z.land_ones. Qed.
Lemma shiftl_in_w w x n : 0 <= n <= w -> in_w (w - n) x -> in_w w (x <<ᵤ n).
Proof.
  unfold in_w. intros Hn Hx. rewrite Z.shiftl_mul_pow2 by lia.
  replace (2 ^ w) with (2 ^ (w - n) * 2 ^ n) by (rewrite <- Z.pow_add_r by lia; f_equal; lia).
  pose proof (Z.pow_pos_nonneg 2 n). nia.
Qed.

(** * Byte order conversions *)

Lemma lor_bytes a b c d :
  is_u8 b -> is_u8 c -> is_u8 d ->
  (a <<ᵤ 24) |ᵤ (b <<ᵤ 16) |ᵤ (c <<ᵤ 8) |ᵤ d = be_val [a; b; c; d].
Proof.
  intros Hb Hc Hd. unfold is_u8, in_w in *.
  assert ((a <<ᵤ 24) |ᵤ (b <<ᵤ 16) |ᵤ (c <<ᵤ 8) = ((((a <<ᵤ 8) |ᵤ b) <<ᵤ 8) |ᵤ c) <<ᵤ 8) as ->
    by (rewrite !Z.shiftl_lor, !Z.shiftl_shiftl by lia; done).
  rewrite !lor_low by lia. cbn [be_val length]. lia.
Qed.

Lemma byte_of_u32 x k : 0 <= k <= 24 -> ((u32 x >>ᵤ k) &ᵤ 255) = (x >>ᵤ k) mod 256.
Proof.
  intros Hk. change 255 with (Z.ones 8). rewrite Z.land_ones by lia.
  rewrite !Z.shiftr_div_pow2 by lia. unfold u32. change 256 with (2 ^ 8).
  rewrite <- !Z.land_ones, <- !Z.shiftr_div_pow2 by lia. apply Z.bits_inj'. intros i Hi.
  rewrite !Z.land_spec. destruct (decide (i < 8)).
  - f_equal. rewrite !Z.shiftr_spec, Z.land_spec by lia. rewrite Z.ones_spec_low by lia. apply andb_true_r.
  - by rewrite Z.ones_spec_high, !andb_false_r by lia.
Qed.

Lemma bswap32_bytes x : bswap32 (u32 x) = be_val (reverse (be_bytes 4 x)).
Proof.
  unfold bswap32. rewrite <- (Z.shiftr_0_r (u32 x)) at 1. rewrite !byte_of_u32 by lia.
  rewrite lor_bytes by words. done.
Qed.

Lemma bswap32_range x : is_u32 (bswap32 (u32 x)).
Proof.
  rewrite bswap32_bytes. apply (be_val_range (reverse (be_bytes 4 x))). apply Forall_reverse, is_bytes_be_bytes.
Qed.
Lemma bswap32_swap x : is_u32 x -> bswap32 (bswap32 x) = x.
Proof.
  intros Hx. rewrite <- (u32_small x Hx), <- (u32_small _ (bswap32_range x)).
  rewrite bswap32_bytes, (bswap32_bytes x).
  pose proof (be_bytes_val (reverse (be_bytes 4 x)) ltac:(apply Forall_reverse, is_bytes_be_bytes)) as He.
  rewrite length_reverse, length_be_bytes in He. rewrite He, reverse_involutive.
  apply be_val_bytes4.
Qed.

Lemma htonl_range e x : is_u32 (htonl e x).
Proof. destruct e; [apply bswap32_range|apply u32_range]. Qed.
Lemma ntohl_htonl e x : ntohl e (htonl e x) = u32 x.
Proof.
  unfold ntohl. destruct e; cbn [htonl]; [|apply u32_u32].
  rewrite (u32_small (bswap32 _)) by apply bswap32_range. apply bswap32_swap, u32_range.
Qed.
Lemma htonl_ntohl e x : is_u32 x -> htonl e (ntohl e x) = x.
Proof. intros Hx. change (htonl e (ntohl e x)) with (ntohl e (htonl e x)). rewrite ntohl_htonl. by apply u32_small. Qed.
Lemma htonl_inj e x y : htonl e x = htonl e y -> u32 x = u32 y.
Proof. intros H. by rewrite <- (ntohl_htonl e x), H, ntohl_htonl. Qed.
#[export] Hint Resolve htonl_range : cint.
#[export] Hint Rewrite ntohl_htonl : cint.

(** Bits of a swapped word, and bitwise operations across the conversions. *)
Lemma field_testbit x sh t i :
  0 <= sh -> 0 <= t -> 0 <= i ->
  Z.testbit (((x >>ᵤ sh) &ᵤ 255) <<ᵤ t) i = (t <=? i) && (i <? t + 8) && Z.testbit x (i - t + sh).
Proof.
  intros Hs Ht Hi. rewrite Z.shiftl_spec by lia.
  destruct (Z.leb_spec t i); cbn [andb]; [|by rewrite Z.testbit_neg_r by lia].
  change 255 with (Z.ones 8). rewrite Z.land_spec, Z.shiftr_spec by lia.
  destruct (Z.ltb_spec i (t + 8)); [by rewrite Z.ones_spec_low, andb_true_r by lia|].
  by rewrite Z.ones_spec_high, andb_false_r by lia.
Qed.
Lemma bswap32_testbit x i :
  0 <= i < 32 -> Z.testbit (bswap32 x) i = Z.testbit x (24 - 8 * (i / 8) + i mod 8).
Proof.
  intros Hi. unfold bswap32. rewrite <- (Z.shiftr_0_r x) at 1.
  rewrite <- (Z.shiftl_0_r ((x >>ᵤ 24) &ᵤ 255)). rewrite !Z.lor_spec, !field_testbit by lia.
  assert (Hq : i / 8 = 0 \/ i / 8 = 1 \/ i / 8 = 2 \/ i / 8 = 3) by zdm.
  assert (Hdiv : i = 8 * (i / 8) + i mod 8) by (apply Z.div_mod; lia).
  assert (Hr := Z.mod_pos_bound i 8 ltac:(lia)).
  set (q := i / 8) in *. set (r := i mod 8) in *. clearbody q r. subst i.
  destruct Hq as [-> |[-> |[-> | ->]]];
    repeat match goal with
    | |- context [?a <=? ?b] => destruct (Z.leb_spec a b); try lia
    | |- context [?a <? ?b] => destruct (Z.ltb_spec a b); try lia
    end; cbn [andb orb]; rewrite ?orb_false_r; f_equal; lia.
Qed.
Lemma bswap32_high x i : 32 <= i -> Z.testbit (bswap32 x) i = false.
Proof.
  intros Hi. unfold bswap32. rewrite <- (Z.shiftr_0_r x) at 1.
  rewrite <- (Z.shiftl_0_r ((x >>ᵤ 24) &ᵤ 255)). rewrite !Z.lor_spec, !field_testbit by lia.
  repeat match goal with
    | |- context [?a <? ?b] => destruct (Z.ltb_spec a b); try lia
    end.
Qed.

Lemma u32_land x y : u32 (x &ᵤ y) = u32 x &ᵤ u32 y.
Proof.
  unfold u32. rewrite <- !Z.land_ones by lia. apply Z.bits_inj'. intros i Hi. rewrite !Z.land_spec.
  destruct (Z.testbit x i), (Z.testbit y i), (Z.testbit (Z.ones 32) i); done.
Qed.
Lemma u32_lor x y : u32 (x |ᵤ y) = u32 x |ᵤ u32 y.
Proof.
  unfold u32. rewrite <- !Z.land_ones by lia. apply Z.bits_inj'. intros i Hi.
  rewrite !Z.lor_spec, !Z.land_spec, !Z.lor_spec.
  destruct (Z.testbit x i), (Z.testbit y i), (Z.testbit (Z.ones 32) i); done.
Qed.
Lemma bswap32_land x y : bswap32 (x &ᵤ y) = bswap32 x &ᵤ bswap32 y.
Proof.
  apply Z.bits_inj'. intros i Hi. rewrite Z.land_spec. destruct (decide (i < 32)).
  - by rewrite !bswap32_testbit, Z.land_spec by lia.
  - by rewrite !bswap32_high by lia.
Qed.
Lemma bswap32_lor x y : bswap32 (x |ᵤ y) = bswap32 x |ᵤ bswap32 y.
Proof.
  apply Z.bits_inj'. intros i Hi. rewrite Z.lor_spec. destruct (decide (i < 32)).
  - by rewrite !bswap32_testbit, Z.lor_spec by lia.
  - by rewrite !bswap32_high by lia.
Qed.
Lemma ntohl_land e x y : ntohl e (x &ᵤ y) = ntohl e x &ᵤ ntohl e y.
Proof. destruct e; unfold ntohl, htonl; rewrite u32_land; [apply bswap32_land|done]. Qed.
Lemma ntohl_lor e x y : ntohl e (x |ᵤ y) = ntohl e x |ᵤ ntohl e y.
Proof. destruct e; unfold ntohl, htonl; rewrite u32_lor; [apply bswap32_lor|done]. Qed.

(** * Masks of low bits *)

Lemma land_u32_r x y : is_u32 x -> x &ᵤ u32 y = x &ᵤ y.
Proof.
  intros Hx. rewrite <- (u32_small x Hx) at 2. unfold u32. rewrite <- !Z.land_ones by lia.
  by rewrite (Z.land_comm y), Z.land_assoc.
Qed.
Lemma land_clear_low x n : 0 <= n -> is_u32 x -> x &ᵤ ~₃₂ (2 ^ n - 1) = x / 2 ^ n * 2 ^ n.
Proof.
  intros Hn Hx. rewrite land_u32_r by done. replace (2 ^ n - 1) with (Z.ones n) by (rewrite Z.ones_equiv; lia).
  change (Z.land x (Z.lnot (Z.ones n))) with (Z.ldiff x (Z.ones n)) || rewrite <- Z.ldiff_land.
  by rewrite Z.ldiff_ones_r, Z.shiftr_div_pow2, Z.shiftl_mul_pow2 by lia.
Qed.
Lemma lor_fill_low x n : 0 <= n -> x |ᵤ (2 ^ n - 1) = x / 2 ^ n * 2 ^ n + (2 ^ n - 1).
Proof.
  intros Hn. pose proof (Z.pow_pos_nonneg 2 n ltac:(lia) Hn). rewrite <- (lor_low n) by lia.
  replace (2 ^ n - 1) with (Z.ones n) by (rewrite Z.ones_equiv; lia). rewrite <- Z.shiftr_div_pow2 by lia.
  apply Z.bits_inj'. intros i Hi. rewrite !Z.lor_spec. destruct (decide (i < n)).
  - rewrite Z.ones_spec_low by lia. by rewrite !orb_true_r.
  - rewrite Z.ones_spec_high, !orb_false_r by lia. rewrite Z.shiftl_spec, Z.shiftr_spec by lia. f_equal. lia.
Qed.

(** * Big-endian numbers of several bytes *)

Lemma be_val_app l k : be_val (l ++ k) = be_val l * 2 ^ (8 * Z.of_nat (length k)) + be_val k.
Proof.
  induction l as [|b l IH]; cbn [be_val app]; [lia|].
  rewrite IH, length_app, Nat2Z.inj_add, Z.mul_add_distr_l, Z.pow_add_r by lia. lia.
Qed.
Lemma be_val_snoc l b : be_val (l ++ [b]) = be_val l * 256 + b.
Proof. rewrite be_val_app. cbn [be_val length]. change (2 ^ (8 * Z.of_nat 1)) with 256. lia. Qed.
Lemma be_val_split n l : be_val l = be_val (take n l) * 2 ^ (8 * Z.of_nat (length l - n)) + be_val (drop n l).
Proof. rewrite <- (take_drop n l) at 1. by rewrite be_val_app, length_drop. Qed.
Lemma be_val_inj l k : length l = length k -> is_bytes l -> is_bytes k -> be_val l = be_val k -> l = k.
Proof. intros Hl Hb Hk He. by rewrite <- (be_bytes_val l Hb), <- (be_bytes_val k Hk), Hl, He. Qed.
Lemma word_bytes_htonl e x : word_bytes e (htonl e x) = be_bytes 4 x.
Proof.
  apply be_val_inj; [by rewrite length_word_bytes, length_be_bytes|apply is_bytes_word_bytes|apply is_bytes_be_bytes|].
  rewrite be_val_bytes4. destruct e; cbn [word_bytes htonl].
  - rewrite <- bswap32_bytes, (u32_small (bswap32 _)) by apply bswap32_range. apply bswap32_swap, u32_range.
  - by rewrite be_val_bytes4, u32_u32.
Qed.
Lemma be_val_zeros n : be_val (replicate n 0) = 0.
Proof. induction n as [|n IH]; cbn [be_val replicate]; lia. Qed.

(** * Lists without duplicates *)

Lemma filter_all {A} (P : A -> Prop) `{forall x, Decision (P x)} l : Forall P l -> filter P l = l.
Proof. induction 1 as [|x l Hx Hl IH]; [done|]. rewrite filter_cons_True by done. by rewrite IH. Qed.
Lemma delete_filter `{EqDecision A} (l : list A) i x : NoDup l -> l !! i = Some x -> delete i l = filter (fun y => y <> x) l.
Proof.
  revert i. induction l as [|y l IH]; intros i Hnd Hi; [done|]. inversion Hnd as [|? ? Hy Hnd']; subst.
  destruct i as [|i]; cbn in Hi.
  - injection Hi as ->. rewrite filter_cons_False by tauto. cbn. symmetry.
    apply filter_all, Forall_forall. by intros z Hz ->.
  - rewrite filter_cons_True; [cbn; f_equal; by apply IH|]. intros ->. by apply list_elem_of_lookup_2 in Hi.
Qed.
