(* ===== verification/CLib.v ===== *)
(** * The C library functions the modelled sources call

    Characters are byte values, a C string is the list of its bytes without the
    terminating NUL.  [unsigned long] is 32 bits wide, as on the MIPS targets
    of the firmware, so [strtoul] saturates at [2^32 - 1]. *)

From Stdlib Require Export Ascii.
From S2P Require Export Prelude.

Definition chr (a : ascii) : Z := Z.of_N (N_of_ascii a).
Fixpoint str (s : string) : bytes :=
  match s with EmptyString => [] | String a s' => chr a :: str s' end.

Definition isspace (c : Z) : bool := (c =? 32) || ((9 <=? c) && (c <=? 13)).
Definition isdigit (c : Z) : bool := (48 <=? c) && (c <=? 57).
Definition islower (c : Z) : bool := (97 <=? c) && (c <=? 122).
Definition isupper (c : Z) : bool := (65 <=? c) && (c <=? 90).
Definition isxdigit (c : Z) : bool :=
  isdigit c || ((97 <=? c) && (c <=? 102)) || ((65 <=? c) && (c <=? 70)).

(** The value of a digit character, in any base up to 36. *)
Definition digit_value (c : Z) : option Z :=
  if isdigit c then Some (c - 48)
  else if islower c then Some (c - 87)
  else if isupper c then Some (c - 55)
  else None.

Fixpoint skip_spaces (s : bytes) : bytes :=
  match s with
  | c :: s' => if isspace c then skip_spaces s' else s
  | [] => []
  end.

(** Digits of [s] in base [b], most significant first: the accumulated value,
    the number of digits consumed, the rest. *)
Fixpoint scan_digits (b : Z) (s : bytes) (acc : Z) : Z * nat * bytes :=
  match s with
  | c :: s' =>
    match digit_value c with
    | Some d =>
      if d <? b
      then let '(v, n, r) := scan_digits b s' (acc * b + d) in (v, S n, r)
      else (acc, O, s)
    | None => (acc, O, s)
    end
  | [] => (acc, O, s)
  end.

(** Optional sign. *)
Definition scan_sign (s : bytes) : bool * bytes :=
  match s with
  | c :: s' => if c =? 45 then (true, s') else if c =? 43 then (false, s') else (false, s)
  | [] => (false, s)
  end.

(** "0x" counts as a prefix only when a hexadecimal digit follows it. *)
Definition hex_prefix (s : bytes) : option bytes :=
  match s with
  | z :: x :: h :: s' =>
    if (z =? 48) && ((x =? 120) || (x =? 88)) && isxdigit h then Some (h :: s') else None
  | _ => None
  end.

(** The base actually used and the text after the prefix. *)
Definition scan_base (b : Z) (s : bytes) : Z * bytes :=
  match hex_prefix s with
  | Some s' => if (b =? 0) || (b =? 16) then (16, s') else (b, s)
  | None =>
    if b =? 0
    then match s with c :: _ => if c =? 48 then (8, s) else (10, s) | [] => (10, s) end
    else (b, s)
  end.

(** The integer [strtol] and [strtoul] read, before it is fitted to their
    result type, and the text after it; [None] when there is no digit. *)
Definition scan_long (b : Z) (s : bytes) : option (Z * bytes) :=
  let '(neg, s1) := scan_sign (skip_spaces s) in
  let '(b', s2) := scan_base b s1 in
  match scan_digits b' s2 0 with
  | (_, O, _) => None
  | (v, _, r) => Some (if neg : bool then - v else v, r)
  end.

(** [strtoul (s, &end, b)]: the value and the text at [end]. *)
Definition strtoul (b : Z) (s : bytes) : Z * bytes :=
  match scan_long b s with
  | None => (0, s)
  | Some (v, r) => ((if 2 ^ 32 <=? Z.abs v then 2 ^ 32 - 1 else u32 v), r)
  end.

Definition atoi (s : bytes) : Z :=
  match scan_long 10 s with
  | None => 0
  | Some (v, _) => Z.max (- 2 ^ 31) (Z.min (2 ^ 31 - 1) v)
  end.

(** The C string at [off]: its bytes up to the first NUL, which must exist. *)
Definition cstring {E} (m : bytes) (off : nat) : outcome E bytes :=
  match find_from (fun c => c =? 0) (drop off m) with
  | Some (n, _) => Done (take n (drop off m))
  | None => Fault
  end.

(** Index of the first occurrence of [c] (not the terminator). *)
Definition strchr (s : bytes) (c : Z) : option nat :=
  match find_from (fun x => x =? c) s with Some (i, _) => Some i | None => None end.

Fixpoint is_prefix (p s : bytes) : bool :=
  match p, s with
  | [], _ => true
  | a :: p', b :: s' => (a =? b) && is_prefix p' s'
  | _ :: _, [] => false
  end.
(** Whether [needle] occurs in [s]. *)
Fixpoint strstr (s needle : bytes) : bool :=
  is_prefix needle s || match s with [] => false | _ :: s' => strstr s' needle end.

Definition strcmp_eq (a b : bytes) : bool := bool_decide (a = b).

(** ** Number output *)

Definition digit_char (upper : bool) (d : Z) : Z :=
  if d <? 10 then d + 48 else if upper then d + 55 else d + 87.

Fixpoint print_digits (fuel : nat) (upper : bool) (b n : Z) (acc : bytes) : bytes :=
  match fuel with
  | O => acc
  | S f =>
    let acc' := digit_char upper (n mod b) :: acc in
    if n <? b then acc' else print_digits f upper b (n / b) acc'
  end.
(** A non-negative number in base [b >= 2]: one digit per bit is enough fuel. *)
Definition print_nat (upper : bool) (b n : Z) : bytes :=
  print_digits (S (Z.to_nat (Z.log2 n))) upper b n [].
(** [%0<w>X] and [%d]. *)
Definition print_hex (upper : bool) (w : nat) (n : Z) : bytes :=
  let d := print_nat upper 16 n in replicate (w - length d) 48 ++ d.
Definition print_dec (n : Z) : bytes :=
  if n <? 0 then 45 :: print_nat false 10 (- n) else print_nat false 10 n.

(** ** [sscanf (s, "mtd%d: %08x", &n, &size)] *)

Inductive scan_res (A : Type) := ScanEOF | ScanMismatch | ScanOk (a : A) (rest : bytes).
Arguments ScanEOF {A}.
Arguments ScanMismatch {A}.
Arguments ScanOk {A} a rest.

Fixpoint scan_literal (lit s : bytes) : scan_res unit :=
  match lit, s with
  | [], _ => ScanOk tt s
  | _ :: _, [] => ScanEOF
  | c :: lit', x :: s' => if x =? c then scan_literal lit' s' else ScanMismatch
  end.
(** One integer conversion in base [b], at most [w] characters. *)
Definition scan_int (b : Z) (w : nat) (s : bytes) : scan_res Z :=
  match skip_spaces s with
  | [] => ScanEOF
  | s1 =>
    match scan_long b (take w s1) with
    | None => ScanMismatch
    | Some (v, r) => ScanOk v (r ++ drop w s1)
    end
  end.
(** The value [sscanf] returns and what it stored. *)
Definition sscanf_mtd (s : bytes) : Z * option Z * option Z :=
  match scan_literal (str "mtd") s with
  | ScanEOF => (-1, None, None)
  | ScanMismatch => (0, None, None)
  | ScanOk _ r0 =>
    match scan_int 10 (length r0) r0 with
    | ScanEOF => (-1, None, None)
    | ScanMismatch => (0, None, None)
    | ScanOk n r1 =>
      match scan_literal (str ":") r1 with
      | ScanOk _ r2 =>
        match scan_int 16 8 r2 with
        | ScanOk sz _ => (2, Some n, Some (u32 sz))
        | _ => (1, Some n, None)
        end
      | _ => (1, Some n, None)
      end
    end
  end.

Example strtoul_hex : strtoul 0 (str " 0x1Fz") = (31, str "z").
Proof. reflexivity. Qed.
Example sscanf_mtd_line :
  sscanf_mtd (str "mtd4: 00001000 00001000 ") = (2, Some 4, Some 4096).
Proof. reflexivity. Qed.

(** ** Facts about number text *)

Lemma digit_value_char upper d : 0 <= d < 36 -> digit_value (digit_char upper d) = Some d.
Proof.
  intros Hd. unfold digit_char, digit_value, isdigit, islower, isupper.
  destruct (Z.ltb_spec d 10), upper;
    repeat (match goal with
            | |- context [?a <=? ?b] => destruct (Z.leb_spec a b); try lia
            end; simpl); f_equal; lia.
Qed.

(** ** Lengths of printed numbers *)

Lemma length_print_digits fuel up b n acc :
  (length (print_digits fuel up b n acc) <= fuel + length acc)%nat.
Proof.
  revert n acc. induction fuel as [|f IH]; intros n acc; cbn [print_digits]; [lia|].
  destruct (n <? b); [cbn; lia|]. etransitivity; [apply IH|]. cbn. lia.
Qed.
Lemma length_print_hex up w n :
  is_u32 n -> (w <= 33)%nat -> (length (print_hex up w n) <= 33)%nat.
Proof.
  intros Hn Hw. unfold print_hex, print_nat. set (d := print_digits _ _ _ _ _).
  assert (Hd : (length d <= 33)%nat).
  { etransitivity; [apply length_print_digits|]. cbn [length].
    destruct (decide (n = 0)) as [->|]; [cbn; lia|].
    assert (Z.log2 n < 32) by (apply Z.log2_lt_pow2; unfold is_u32, in_w in Hn; lia). lia. }
  rewrite length_app, length_replicate. lia.
Qed.

Lemma cstring_app {E} m off s rest :
  drop off m = s ++ 0 :: rest -> (0 ∉ s) -> @cstring E m off = Done s.
Proof.
  intros Hd Hs. unfold cstring. rewrite Hd.
  assert (Hf : find_from (fun c => c =? 0) (s ++ 0 :: rest) = Some (length s, 0)).
  { apply find_from_Some. split; [by rewrite list_lookup_middle|]. split; [done|].
    intros j y Hj Hy. rewrite lookup_app_l in Hy by done. apply Z.eqb_neq. intros ->.
    apply Hs, list_elem_of_lookup. by exists j. }
  by rewrite Hf, take_app_length.
Qed.
