(* ===== verification/Mem.v ===== *)
(** * Byte buffers that C code reads and writes at offsets

    A pointer into a buffer is an offset; what lies outside is a fault. *)

From S2P Require Export Prelude.

Module Mem.

Notation "'result' A" := (outcome unit A) (at level 10, A at level 9).

Definition byte_at (b : bytes) (i : nat) : result Z := access (b !! i).
Definition memcpy (b : bytes) (off : nat) (vs : bytes) : result bytes := access (splice off vs b).
Definition read (b : bytes) (off n : nat) : result bytes := access (slice off n b).
(** 16-bit fields in network order. *)
Definition get16 (b : bytes) (i : nat) : result Z := w ← read b i 2; Done (be_val w).
Definition put16 (b : bytes) (i : nat) (v : Z) : result bytes := memcpy b i (be_bytes 2 v).

Lemma read_ok b off n : (off + n <= length b)%nat -> read b off n = Done (take n (drop off b)).
Proof. intros. unfold read. by rewrite slice_Some. Qed.
Lemma read_app p w r off n : length p = off -> length w = n -> read (p ++ w ++ r) off n = Done w.
Proof.
  intros Hp Hw. rewrite read_ok by (rewrite !length_app; lia).
  by rewrite drop_app_length', take_app_length' by done.
Qed.
Lemma memcpy_app p w r vs off : length p = off -> length vs = length w -> memcpy (p ++ w ++ r) off vs = Done (p ++ vs ++ r).
Proof.
  intros Hp Hv. unfold memcpy. rewrite splice_Some by (rewrite !length_app; lia). obind.
  rewrite take_app_length' by done. by rewrite <- drop_drop, drop_app_length', drop_app_length' by done.
Qed.
Lemma read_head w r n : length w = n -> read (w ++ r) 0 n = Done w.
Proof. by apply (read_app []). Qed.
Lemma memcpy_head w r vs : length vs = length w -> memcpy (w ++ r) 0 vs = Done (vs ++ r).
Proof. by apply (memcpy_app []). Qed.
Lemma byte_at_ok b i x : b !! i = Some x -> byte_at b i = Done x.
Proof. intros H1. unfold byte_at. by rewrite H1. Qed.
Lemma byte_at_app (p w r : bytes) i x : w !! i = Some x -> byte_at (p ++ w ++ r) (length p + i) = Done x.
Proof.
  intros Hx. apply byte_at_ok. rewrite lookup_app_r, lookup_app_l by (apply lookup_lt_Some in Hx; lia).
  by rewrite Nat.add_comm, Nat.add_sub.
Qed.
Lemma memcpy_over (p r vs : bytes) off : off = length p -> (length vs <= length r)%nat ->
  memcpy (p ++ r) off vs = Done (p ++ vs ++ drop (length vs) r).
Proof.
  intros -> Hv. unfold memcpy. rewrite splice_Some by (rewrite length_app; lia). obind.
  by rewrite take_app_length, <- drop_drop, drop_app_length.
Qed.
Lemma get16_app (p w r : bytes) i : (i + 2 <= length w)%nat -> get16 (p ++ w ++ r) (length p + i) = Done (be_val (take 2 (drop i w))).
Proof.
  intros Hi. unfold get16. rewrite read_ok by (rewrite !length_app; lia). obind.
  rewrite <- drop_drop, drop_app_length, drop_app_le, take_app_le by (rewrite ?length_drop; lia). done.
Qed.
Lemma be_val2 n : 0 <= n < 65536 -> be_val (be_bytes 2 n) = n.
Proof. intros Hn. rewrite be_val_bytes. change (2 ^ (8 * Z.of_nat 2)) with 65536. by apply Z.mod_small. Qed.
End Mem.
