(* ===== verification/Md5.v ===== *)
(** * MD5 ([package/coova-chilli/src/src/md5.c])

    The streaming implementation the hotspot daemon uses for RADIUS, on the byte
    order of the machine, and the algorithm of RFC 1321 as its reference.  The
    interface the clients use is the class [Digest]. *)

From S2P Require Import Prelude CLib.

Module Md5.

(** [struct MD5Context] *)
Record MD5Context := Ctx { buf : list Z; bits0 : Z; bits1 : Z; in_ : bytes }.

Section Code.
Context (e : endian) {E : Type}.

(** Every four bytes become the word they stand for in little-endian order, stored
    in the order of the machine. *)
Fixpoint byteReverse (longs : nat) (b : bytes) : outcome E bytes :=
  match longs with
  | O => Done b
  | S n =>
    match b with
    | b0 :: b1 :: b2 :: b3 :: r =>
      let t := u32 (u16 ((b3 <<ᵤ 8) |ᵤ b2) <<ᵤ 16) |ᵤ u16 ((b1 <<ᵤ 8) |ᵤ b0) in
      r ← byteReverse n r;
      Done (word_bytes e t ++ r)
    | _ => Fault
    end
  end.

(** The context is not initialised before: [in_] holds anything. *)
Definition MD5Init (ctx : MD5Context) : MD5Context :=
  Ctx [0x67452301; 0xefcdab89; 0x98badcfe; 0x10325476] 0 0 (in_ ctx).

Definition F1 (x y z : Z) : Z := z ^ᵤ (x &ᵤ (y ^ᵤ z)).
Definition F2 (x y z : Z) : Z := F1 z x y.
Definition F3 (x y z : Z) : Z := x ^ᵤ y ^ᵤ z.
Definition F4 (x y z : Z) : Z := y ^ᵤ (x |ᵤ ~₃₂ z).

(** The new value of [w]. *)
Definition MD5STEP (f : Z -> Z -> Z -> Z) (w x y z data s : Z) : Z :=
  let w := w +₃₂ (f x y z +₃₂ data) in
  let w := u32 (w <<ᵤ s) |ᵤ (w >>ᵤ (32 - s)) in
  w +₃₂ x.

(** The steps of [MD5Transform]: function, index into [in], constant, shift.  From
    step to step the four registers change places: a, b, c, d, then d, a, b, c, and
    so on. *)
Definition transform_steps : list ((Z -> Z -> Z -> Z) * nat * Z * Z) := [
  (F1, 0%nat, 0xd76aa478, 7); (F1, 1%nat, 0xe8c7b756, 12); (F1, 2%nat, 0x242070db, 17); (F1, 3%nat, 0xc1bdceee, 22);
  (F1, 4%nat, 0xf57c0faf, 7); (F1, 5%nat, 0x4787c62a, 12); (F1, 6%nat, 0xa8304613, 17); (F1, 7%nat, 0xfd469501, 22);
  (F1, 8%nat, 0x698098d8, 7); (F1, 9%nat, 0x8b44f7af, 12); (F1, 10%nat, 0xffff5bb1, 17); (F1, 11%nat, 0x895cd7be, 22);
  (F1, 12%nat, 0x6b901122, 7); (F1, 13%nat, 0xfd987193, 12); (F1, 14%nat, 0xa679438e, 17); (F1, 15%nat, 0x49b40821, 22);
  (F2, 1%nat, 0xf61e2562, 5); (F2, 6%nat, 0xc040b340, 9); (F2, 11%nat, 0x265e5a51, 14); (F2, 0%nat, 0xe9b6c7aa, 20);
  (F2, 5%nat, 0xd62f105d, 5); (F2, 10%nat, 0x02441453, 9); (F2, 15%nat, 0xd8a1e681, 14); (F2, 4%nat, 0xe7d3fbc8, 20);
  (F2, 9%nat, 0x21e1cde6, 5); (F2, 14%nat, 0xc33707d6, 9); (F2, 3%nat, 0xf4d50d87, 14); (F2, 8%nat, 0x455a14ed, 20);
  (F2, 13%nat, 0xa9e3e905, 5); (F2, 2%nat, 0xfcefa3f8, 9); (F2, 7%nat, 0x676f02d9, 14); (F2, 12%nat, 0x8d2a4c8a, 20);
  (F3, 5%nat, 0xfffa3942, 4); (F3, 8%nat, 0x8771f681, 11); (F3, 11%nat, 0x6d9d6122, 16); (F3, 14%nat, 0xfde5380c, 23);
  (F3, 1%nat, 0xa4beea44, 4); (F3, 4%nat, 0x4bdecfa9, 11); (F3, 7%nat, 0xf6bb4b60, 16); (F3, 10%nat, 0xbebfbc70, 23);
  (F3, 13%nat, 0x289b7ec6, 4); (F3, 0%nat, 0xeaa127fa, 11); (F3, 3%nat, 0xd4ef3085, 16); (F3, 6%nat, 0x04881d05, 23);
  (F3, 9%nat, 0xd9d4d039, 4); (F3, 12%nat, 0xe6db99e5, 11); (F3, 15%nat, 0x1fa27cf8, 16); (F3, 2%nat, 0xc4ac5665, 23);
  (F4, 0%nat, 0xf4292244, 6); (F4, 7%nat, 0x432aff97, 10); (F4, 14%nat, 0xab9423a7, 15); (F4, 5%nat, 0xfc93a039, 21);
  (F4, 12%nat, 0x655b59c3, 6); (F4, 3%nat, 0x8f0ccc92, 10); (F4, 10%nat, 0xffeff47d, 15); (F4, 1%nat, 0x85845dd1, 21);
  (F4, 8%nat, 0x6fa87e4f, 6); (F4, 15%nat, 0xfe2ce6e0, 10); (F4, 6%nat, 0xa3014314, 15); (F4, 13%nat, 0x4e0811a1, 21);
  (F4, 4%nat, 0xf7537e82, 6); (F4, 11%nat, 0xbd3af235, 10); (F4, 2%nat, 0x2ad7d2bb, 15); (F4, 9%nat, 0xeb86d391, 21)].

(** [in[i]], a word of the machine *)
Definition in_word (b : bytes) (i : nat) : outcome E Z :=
  s ← access (slice (4 * i) 4 b); Done (word_val e s).

Fixpoint run_steps (steps : list ((Z -> Z -> Z -> Z) * nat * Z * Z)) (b : bytes) (r : Z * Z * Z * Z)
    : outcome E (Z * Z * Z * Z) :=
  match steps with
  | [] => Done r
  | (f, i, k, s) :: steps =>
    let '(w, x, y, z) := r in
    data ← in_word b i;
    run_steps steps b (z, MD5STEP f w x y z (data +₃₂ k) s, x, y)
  end.

Definition MD5Transform (h : list Z) (b : bytes) : outcome E (list Z) :=
  match h with
  | [h0; h1; h2; h3] =>
    '(x0, x1, x2, x3) ← run_steps transform_steps b (h0, h1, h2, h3);
    Done [h0 +₃₂ x0; h1 +₃₂ x1; h2 +₃₂ x2; h3 +₃₂ x3]
  | _ => Fault
  end.

(** [memcpy] into [in] *)
Definition put (off : nat) (vs b : bytes) : outcome E bytes := access (splice off vs b).

(** [while (len >= 64)] and the bytes that remain. *)
Fixpoint update_blocks (fuel : nat) (h : list Z) (b data : bytes) : outcome E (list Z * bytes) :=
  match fuel with
  | O => Fault
  | S n =>
    if decide (64 <= length data)%nat then
      b ← put 0 (take 64 data) b;
      b ← byteReverse 16 b;
      h ← MD5Transform h b;
      update_blocks n h b (drop 64 data)
    else b ← put 0 data b; Done (h, b)
  end.

Definition MD5Update (ctx : MD5Context) (data : bytes) : outcome E MD5Context :=
  let len := Z.of_nat (length data) in
  let t := bits0 ctx in
  let lo := t +₃₂ u32 (u32 len <<ᵤ 3) in
  let hi := if lo <? t then bits1 ctx +₃₂ 1 else bits1 ctx in
  let hi := hi +₃₂ (len >>ᵤ 29) in
  let t := (t >>ᵤ 3) &ᵤ 0x3f in
  if negb (t =? 0) then
    let room := 64 - t in
    if len <? room then
      b ← put (Z.to_nat t) data (in_ ctx);
      Done (Ctx (buf ctx) lo hi b)
    else
      b ← put (Z.to_nat t) (take (Z.to_nat room) data) (in_ ctx);
      b ← byteReverse 16 b;
      h ← MD5Transform (buf ctx) b;
      '(h, b) ← update_blocks (S (length data)) h b (drop (Z.to_nat room) data);
      Done (Ctx h lo hi b)
  else
    '(h, b) ← update_blocks (S (length data)) (buf ctx) (in_ ctx) data;
    Done (Ctx h lo hi b).

(** The digest; the context is of no use afterwards. *)
Definition MD5Final (ctx : MD5Context) : outcome E bytes :=
  let count := (bits0 ctx >>ᵤ 3) &ᵤ 0x3F in
  b ← put (Z.to_nat count) [0x80] (in_ ctx);
  let p := S (Z.to_nat count) in
  let count := 64 - 1 - count in
  '(h, b) ← (if count <? 8 then
               b ← put p (replicate (Z.to_nat count) 0) b;
               b ← byteReverse 16 b;
               h ← MD5Transform (buf ctx) b;
               b ← put 0 (replicate 56 0) b;
               Done (h, b)
             else
               b ← put p (replicate (Z.to_nat (count - 8)) 0) b;
               Done (buf ctx, b));
  b ← byteReverse 14 b;
  b ← put 56 (word_bytes e (bits0 ctx)) b;
  b ← put 60 (word_bytes e (bits1 ctx)) b;
  h ← MD5Transform h b;
  byteReverse 4 (concat (map (word_bytes e) h)).

(** [MD5Init], an [MD5Update] for each piece, [MD5Final]. *)
Fixpoint updates (ctx : MD5Context) (pieces : list bytes) : outcome E MD5Context :=
  match pieces with
  | [] => Done ctx
  | p :: ps => ctx ← MD5Update ctx p; updates ctx ps
  end.
Definition MD5 (ctx : MD5Context) (pieces : list bytes) : outcome E bytes :=
  ctx ← updates (MD5Init ctx) pieces; MD5Final ctx.
End Code.

(** ** RFC 1321 *)

Section Reference.

(** The integer part of 2^32 |sin i|, by the series of the sine in fixed point. *)
Fixpoint sine_terms (n : nat) (x2 k term sum : Z) : Z :=
  match n with
  | O => sum
  | S n' => let term := - (term * x2 / ((k + 1) * (k + 2))) in sine_terms n' x2 (k + 2) term (sum + term)
  end.
Definition sine_constant (i : nat) : Z :=
  let x := Z.of_nat i * 2 ^ 192 in
  Z.abs (sine_terms 128 (Z.of_nat i * Z.of_nat i) 1 x x) / 2 ^ 160.

Definition rotl (w s : Z) : Z := u32 (w <<ᵤ s) |ᵤ (w >>ᵤ (32 - s)).
Definition RF (x y z : Z) : Z := (x &ᵤ y) |ᵤ (~₃₂ x &ᵤ z).
Definition RG (x y z : Z) : Z := (x &ᵤ z) |ᵤ (y &ᵤ ~₃₂ z).
Definition RH (x y z : Z) : Z := x ^ᵤ y ^ᵤ z.
Definition RI (x y z : Z) : Z := y ^ᵤ (x |ᵤ ~₃₂ z).

(** Round [r], step [j] of the round. *)
Definition ref_fun (r : nat) : Z -> Z -> Z -> Z :=
  match r with 0%nat => RF | 1%nat => RG | 2%nat => RH | _ => RI end.
Definition ref_index (r j : nat) : nat :=
  match r with 0%nat => j | 1%nat => 5 * j + 1 | 2%nat => 3 * j + 5 | _ => 7 * j end mod 16.
Definition ref_shift (r j : nat) : Z :=
  nth (j mod 4) (nth r [[7; 12; 17; 22]; [5; 9; 14; 20]; [4; 11; 16; 23]; [6; 10; 15; 21]] []) 0.

Definition ref_step (ws : nat -> Z) (r : Z * Z * Z * Z) (i : nat) : Z * Z * Z * Z :=
  let '(a, b, c, d) := r in
  let rd := (i / 16)%nat in
  let j := (i mod 16)%nat in
  let w := u32 (a + ref_fun rd b c d + ws (ref_index rd j) + sine_constant (S i)) in
  (d, u32 (b + rotl w (ref_shift rd j)), b, c).

Definition le_word (b : bytes) (i : nat) : Z := word_val LE (take 4 (drop (4 * i) b)).
Definition compress (h : list Z) (block : bytes) : list Z :=
  match h with
  | [a; b; c; d] =>
    let '(a', b', c', d') := fold_left (ref_step (le_word block)) (seq 0 64) (a, b, c, d) in
    [u32 (a + a'); u32 (b + b'); u32 (c + c'); u32 (d + d')]
  | _ => h
  end.

Definition iv : list Z := [0x67452301; 0xefcdab89; 0x98badcfe; 0x10325476].

(** The first [n] blocks. *)
Fixpoint absorb (n : nat) (h : list Z) (msg : bytes) : list Z :=
  match n with
  | O => h
  | S n' => absorb n' (compress h (take 64 msg)) (drop 64 msg)
  end.

(** One bit, zeros up to 56 bytes modulo 64, and the length in bits. *)
Definition pad (msg : bytes) : bytes :=
  let n := length msg in
  msg ++ 0x80 :: replicate ((55 + 64 - n mod 64) mod 64) 0 ++ reverse (be_bytes 8 (8 * Z.of_nat n)).
Definition md5 (msg : bytes) : bytes :=
  concat (map (word_bytes LE) (absorb (length (pad msg) / 64) iv (pad msg))).
End Reference.

(** ** The step functions *)

Lemma u32_lnot_testbit x n : Z.testbit (~₃₂ x) n = (0 <=? n) && (n <? 32) && negb (Z.testbit x n).
Proof.
  unfold u32. destruct (Z.leb_spec 0 n), (Z.ltb_spec n 32); cbn [andb].
  - rewrite Z.mod_pow2_bits_low, Z.lnot_spec by lia. done.
  - by rewrite Z.mod_pow2_bits_high by lia.
  - by rewrite Z.testbit_neg_r by lia.
  - by rewrite Z.testbit_neg_r by lia.
Qed.
Definition is_regs (r : Z * Z * Z * Z) : Prop :=
  let '(a, b, c, d) := r in is_u32 a /\ is_u32 b /\ is_u32 c /\ is_u32 d.

Lemma F1_ref x y z : is_u32 x -> is_u32 y -> is_u32 z -> F1 x y z = RF x y z.
Proof.
  intros Hx Hy Hz. unfold F1, RF. apply Z.bits_inj'. intros n Hn.
  rewrite Z.lxor_spec, Z.lor_spec, !Z.land_spec, Z.lxor_spec, u32_lnot_testbit, (proj2 (Z.leb_le 0 n)) by lia.
  destruct (Z.ltb_spec n 32).
  - by destruct (Z.testbit x n), (Z.testbit y n), (Z.testbit z n).
  - by rewrite !(in_w_testbit 32) by (done || lia).
Qed.
Lemma F2_ref x y z : is_u32 x -> is_u32 y -> is_u32 z -> F2 x y z = RG x y z.
Proof.
  intros Hx Hy Hz. unfold F2. rewrite F1_ref by done. unfold RF, RG.
  by rewrite (Z.land_comm z x), (Z.land_comm _ y).
Qed.
(** The row of step [i]. *)
Definition code_fun (r : nat) : Z -> Z -> Z -> Z :=
  match r with 0%nat => F1 | 1%nat => F2 | 2%nat => F3 | _ => F4 end.
Definition code_row (i : nat) : (Z -> Z -> Z -> Z) * nat * Z * Z :=
  let rd := (i / 16)%nat in
  let j := (i mod 16)%nat in
  (code_fun rd, ref_index rd j, sine_constant (S i), ref_shift rd j).
Lemma transform_steps_rows : transform_steps = map code_row (seq 0 64).
Proof.
  unfold transform_steps, code_row, code_fun. generalize F1, F2, F3, F4. intros f1 f2 f3 f4.
  vm_compute. reflexivity.
Qed.

Lemma code_fun_ref r x y z : is_u32 x -> is_u32 y -> is_u32 z -> code_fun r x y z = ref_fun r x y z.
Proof.
  intros. destruct r as [|[|[|r]]]; cbn [code_fun ref_fun]; [by apply F1_ref|by apply F2_ref|done|done].
Qed.
Lemma MD5STEP_ref r w x y z m k s :
  is_u32 x -> is_u32 y -> is_u32 z ->
  MD5STEP (code_fun r) w x y z (m +₃₂ k) s = u32 (x + rotl (u32 (w + ref_fun r x y z + m + k)) s).
Proof.
  intros Hx Hy Hz. unfold MD5STEP, rotl. rewrite code_fun_ref by done.
  assert (w +₃₂ (ref_fun r x y z +₃₂ (m +₃₂ k)) = u32 (w + ref_fun r x y z + m + k)) as ->.
  { unfold u32. zdm. }
  f_equal. lia.
Qed.

(** The words of a block as the machine reads them from [in]. *)
Definition holds (e : endian) (b block : bytes) : Prop :=
  forall i, (i < 16)%nat -> slice (4 * i) 4 b = Some (word_bytes e (le_word block i)).

Lemma ref_index_lt r j : (j < 16)%nat -> (ref_index r j < 16)%nat.
Proof. intros Hj. destruct r as [|[|[|r]]]; cbn [ref_index]; apply Nat.mod_upper_bound; lia. Qed.

Lemma run_steps_ref e {E} (l : list nat) b block r :
  holds e b block -> is_regs r -> (forall i, le_word block i = u32 (le_word block i)) ->
  @run_steps e E (map code_row l) b r = Done (fold_left (ref_step (le_word block)) l r) /\
  is_regs (fold_left (ref_step (le_word block)) l r).
Proof.
  intros Hb Hr Hu. revert r Hr. induction l as [|i l IH]; intros [[[w x] y] z] Hr; cbn [map run_steps fold_left]; [done|].
  destruct Hr as (Hw & Hx & Hy & Hz). unfold code_row at 1. cbv zeta. unfold in_word.
  rewrite Hb by (apply ref_index_lt, Nat.mod_upper_bound; lia). obind. rewrite word_val_bytes, <- Hu.
  rewrite MD5STEP_ref by done. unfold ref_step at 2 4. apply IH. unfold is_regs. auto with cint.
Qed.

(** ** The hash value *)

Definition is_hash (h : list Z) : Prop := exists a b c d, h = [a; b; c; d] /\ is_regs (a, b, c, d).
Lemma is_hash_iv : is_hash iv.
Proof. unfold iv. do 4 eexists. split; [done|]. unfold is_regs, is_u32, in_w. lia. Qed.

Lemma le_word_u32 block i : is_bytes block -> le_word block i = u32 (le_word block i).
Proof.
  intros Hb. unfold le_word, word_val. symmetry. apply u32_small.
  pose proof (be_val_range (reverse (take 4 (drop (4 * i) block))) ltac:(by apply Forall_reverse, Forall_take, Forall_drop)) as Hr.
  rewrite length_reverse, length_take in Hr. unfold is_u32, in_w. split; [lia|].
  eapply Z.lt_le_trans; [apply Hr|]. apply Z.pow_le_mono_r; lia.
Qed.

Lemma MD5Transform_ref e {E} h b block :
  is_hash h -> is_bytes block -> holds e b block ->
  @MD5Transform e E h b = Done (compress h block) /\ is_hash (compress h block).
Proof.
  intros (a & b' & c & d & -> & Hr) Hb Hh. unfold MD5Transform, compress. rewrite transform_steps_rows.
  destruct (@run_steps_ref e E (seq 0 64) b block _ Hh Hr ltac:(intros; by apply le_word_u32)) as [-> Hr'].
  destruct (fold_left _ _ _) as [[[a1 b1] c1] d1]. obind. split; [done|].
  do 4 eexists. split; [done|]. unfold is_regs. auto with cint.
Qed.

(** ** Words in the order of the machine *)

Lemma pair_u16 a b : is_u8 a -> is_u8 b -> u16 ((a <<ᵤ 8) |ᵤ b) = a * 256 + b.
Proof. intros Ha Hb. rewrite lor_low by (unfold is_u8, in_w in *; lia). apply u16_small. words. Qed.

Lemma pair_u32 a b : is_u16 a -> is_u16 b -> u32 (a <<ᵤ 16) |ᵤ b = a * 65536 + b.
Proof.
  intros Ha Hb. rewrite u32_small by (rewrite Z.shiftl_mul_pow2 by lia; words).
  by rewrite lor_low by (unfold is_u16, in_w in *; lia).
Qed.

(** One word. *)
Lemma byteReverse_word e {E} n w r :
  is_bytes w -> length w = 4%nat ->
  @byteReverse e E (S n) (w ++ r) = (r ← @byteReverse e E n r; Done (word_bytes e (word_val LE w) ++ r)).
Proof.
  intros Hb Hl. destruct w as [|b0 [|b1 [|b2 [|b3 [|? ?]]]]]; try discriminate Hl.
  unfold is_bytes in Hb. rewrite !Forall_cons in Hb. destruct Hb as (H0 & H1 & H2 & H3 & _).
  cbn [byteReverse app]. rewrite !pair_u16 by done. rewrite pair_u32 by words.
  assert ((b3 * 256 + b2) * 65536 + (b1 * 256 + b0) = word_val LE [b0; b1; b2; b3]) as ->; [|done].
  transitivity (be_val [b3; b2; b1; b0]); [|done]. cbn [be_val length]. lia.
Qed.
Lemma byteReverse_ok e {E} n b :
  is_bytes (take (4 * n) b) -> (4 * n <= length b)%nat ->
  exists b', @byteReverse e E n b = Done b' /\ length b' = length b /\
    (forall i, (i < n)%nat -> slice (4 * i) 4 b' = Some (word_bytes e (le_word b i))).
Proof.
  revert b. induction n as [|n IH]; intros b Hb Hl.
  { exists b. split; [done|]. split; [done|]. lia. }
  replace (4 * S n)%nat with (4 + 4 * n)%nat in Hb by lia. rewrite <- (take_drop 4 b) in Hb.
  rewrite take_app_add' in Hb by (rewrite length_take; lia). apply Forall_app in Hb as [Hw Hr].
  destruct (IH (drop 4 b) Hr) as (r' & Hrev & Hl' & Hs); [rewrite length_drop; lia|].
  pose proof (@byteReverse_word e E n (take 4 b) (drop 4 b) Hw ltac:(rewrite length_take; lia)) as Hst.
  rewrite take_drop in Hst. rewrite Hst, Hrev. obind. eexists. split; [reflexivity|].
  split; [rewrite length_app, length_word_bytes, Hl', length_drop; lia|].
  intros [|i] Hi.
  - rewrite slice_Some by (rewrite length_app, length_word_bytes; lia). f_equal.
    change (drop (4 * 0) ?l) with l. by rewrite take_app_length' by (by rewrite length_word_bytes).
  - replace (4 * S i)%nat with (4 + 4 * i)%nat by lia. specialize (Hs i ltac:(lia)).
    apply slice_inv in Hs as (Hle & Hs & _).
    rewrite slice_Some by (rewrite length_app, length_word_bytes; lia). f_equal.
    rewrite <- drop_drop, drop_app_length' by (by rewrite length_word_bytes). rewrite <- Hs. f_equal.
    unfold le_word. rewrite drop_drop. do 4 f_equal. lia.
Qed.

(** A full block in [in]. *)
Lemma block_ok e {E} h block :
  is_hash h -> is_bytes block -> length block = 64%nat ->
  exists b, @byteReverse e E 16 block = Done b /\ length b = 64%nat /\
    @MD5Transform e E h b = Done (compress h block) /\ is_hash (compress h block).
Proof.
  intros Hh Hb Hl. destruct (@byteReverse_ok e E 16 block ltac:(auto with cint) ltac:(lia)) as (b & -> & Hlb & Hs).
  exists b. split; [done|]. split; [by rewrite Hlb|]. by apply MD5Transform_ref.
Qed.

(** ** The stream *)

Lemma absorb_app n h l r : (64 * n <= length l)%nat -> absorb n h (l ++ r) = absorb n h l.
Proof.
  revert h l. induction n as [|n IH]; intros h l Hl; cbn [absorb]; [done|].
  rewrite take_app_le, drop_app_le by lia. apply IH. rewrite length_drop. lia.
Qed.
Lemma absorb_add n m h l : absorb (n + m) h l = absorb m (absorb n h l) (drop (64 * n) l).
Proof.
  revert h l. induction n as [|n IH]; intros h l; cbn [absorb Nat.add]; [done|].
  rewrite IH, drop_drop. do 2 f_equal. lia.
Qed.

(** The bytes behind the last full block. *)
Definition tail_of (msg : bytes) : bytes := drop (64 * (length msg / 64)) msg.
Definition absorbed (h : list Z) (msg : bytes) : list Z := absorb (length msg / 64) h msg.

Lemma length_tail msg : length (tail_of msg) = (length msg mod 64)%nat.
Proof. unfold tail_of. rewrite length_drop. pose proof (Nat.div_mod_eq (length msg) 64). lia. Qed.
Lemma tail_short msg : (length msg < 64)%nat -> tail_of msg = msg.
Proof. intros H. unfold tail_of. by rewrite Nat.div_small. Qed.
Lemma absorbed_short h msg : (length msg < 64)%nat -> absorbed h msg = h.
Proof. intros H. unfold absorbed. by rewrite Nat.div_small. Qed.

(** What follows a message is absorbed behind its tail. *)
Lemma absorbed_app h msg data :
  absorbed h (msg ++ data) = absorbed (absorbed h msg) (tail_of msg ++ data) /\
  tail_of (msg ++ data) = tail_of (tail_of msg ++ data).
Proof.
  pose proof (Nat.div_mod_eq (length msg) 64) as Hd.
  assert (Hq : (length (msg ++ data) / 64 = length msg / 64 + length (tail_of msg ++ data) / 64)%nat).
  { rewrite !length_app, length_tail, <- Nat.div_add_l by lia. f_equal. lia. }
  assert (Hs : drop (64 * (length msg / 64)) (msg ++ data) = tail_of msg ++ data).
  { rewrite drop_app_le by lia. done. }
  split.
  - unfold absorbed at 1. rewrite Hq, absorb_add, Hs, (absorb_app _ h msg) by lia. done.
  - unfold tail_of at 1. rewrite Hq, Nat.mul_add_distr_l, <- drop_drop, Hs. done.
Qed.
Lemma absorbed_block h block data :
  length block = 64%nat ->
  absorbed h (block ++ data) = absorbed (compress h block) data /\ tail_of (block ++ data) = tail_of data.
Proof.
  intros Hl. destruct (absorbed_app h block data) as [-> ->].
  assert (tail_of block = []) as -> by (unfold tail_of; rewrite Hl; apply drop_ge; cbn; lia).
  assert (absorbed h block = compress h block) as ->; [|done].
  unfold absorbed. rewrite Hl. change (64 / 64)%nat with 1%nat. cbn [absorb]. by rewrite take_ge by lia.
Qed.

Lemma put_ok {E} off vs b :
  (off + length vs <= length b)%nat ->
  @put E off vs b = Done (take off b ++ vs ++ drop (off + length vs) b).
Proof. intros H. unfold put. by rewrite splice_Some. Qed.

Lemma put_app {E} off vs p r :
  length p = off -> (length vs <= length r)%nat -> @put E off vs (p ++ r) = Done (p ++ vs ++ drop (length vs) r).
Proof.
  intros Hp Hv. rewrite put_ok by (rewrite length_app; lia). rewrite take_app_length' by done.
  by rewrite <- drop_drop, drop_app_length' by done.
Qed.

Lemma update_blocks_ok e {E} fuel h b data :
  (length data < fuel)%nat -> is_hash h -> is_bytes data -> length b = 64%nat ->
  exists b', @update_blocks e E fuel h b data = Done (absorbed h data, b') /\ is_hash (absorbed h data) /\
    length b' = 64%nat /\ take (length data mod 64) b' = tail_of data.
Proof.
  revert h b data. induction fuel as [|fuel IH]; intros h b data Hf Hh Hd Hb; [lia|]. cbn [update_blocks].
  case_decide as Hlen.
  - rewrite put_ok by (rewrite length_take; lia). obind.
    rewrite (drop_ge b), app_nil_r by (rewrite length_take; lia). change (take 0 b ++ ?x) with x.
    destruct (@block_ok e E h (take 64 data) Hh ltac:(auto with cint) ltac:(rewrite length_take; lia)) as
      (b1 & -> & Hb1 & Ht & Hh1). obind. rewrite Ht. obind.
    destruct (IH (compress h (take 64 data)) b1 (drop 64 data)) as (b' & Hu & Hh' & Hb' & Htl);
      [rewrite length_drop; lia|done|auto with cint|done|].
    destruct (absorbed_block h (take 64 data) (drop 64 data)) as [Ha Htl']; [rewrite length_take; lia|].
    rewrite take_drop in Ha, Htl'. exists b'. rewrite Ha, Htl'. split; [done|]. split; [done|]. split; [done|].
    rewrite <- Htl. f_equal. rewrite length_drop.
    replace (length data) with (length data - 64 + 1 * 64)%nat at 1 by lia. by rewrite Nat.Div0.mod_add.
  - rewrite put_ok by lia. obind. change (take 0 b ++ ?x) with x. rewrite absorbed_short, tail_short by lia.
    eexists. split; [reflexivity|]. split; [done|]. split; [rewrite length_app, length_drop; lia|].
    rewrite Nat.mod_small by lia. by rewrite take_app_length.
Qed.

(** The context after the bytes [msg]. *)
Record rep (ctx : MD5Context) (msg : bytes) : Prop := {
  rep_buf : buf ctx = absorbed iv msg;
  rep_hash : is_hash (buf ctx);
  rep_bits0 : bits0 ctx = u32 (8 * Z.of_nat (length msg));
  rep_bits1 : bits1 ctx = u32 (8 * Z.of_nat (length msg) / 2 ^ 32);
  rep_in : length (in_ ctx) = 64%nat;
  rep_tail : take (length msg mod 64) (in_ ctx) = tail_of msg;
}.

Lemma rep_start ctx : length (in_ ctx) = 64%nat -> rep (MD5Init ctx) [].
Proof. intros H. constructor; cbn [buf in_ MD5Init bits0 bits1 length]; try done. apply is_hash_iv. Qed.

Lemma count_ok n : (u32 (8 * Z.of_nat n) >>ᵤ 3) &ᵤ 0x3f = Z.of_nat (n mod 64).
Proof.
  change 63 with (Z.ones 6). rewrite Z.land_ones, Z.shiftr_div_pow2 by lia. rewrite Nat2Z.inj_mod. words.
Qed.

Lemma MD5Update_ok e {E} ctx msg data :
  rep ctx msg -> is_bytes msg -> is_bytes data -> Z.of_nat (length data) < 2 ^ 32 ->
  exists ctx', @MD5Update e E ctx data = Done ctx' /\ rep ctx' (msg ++ data).
Proof.
  intros [Hbuf Hhash H0 H1 Hin Htail] Hmsg Hdata Hlen. unfold MD5Update.
  set (hi := (if _ <? _ then _ else _) +₃₂ _). set (lo := bits0 ctx +₃₂ _).
  assert (Hlo : lo = u32 (8 * Z.of_nat (length (msg ++ data)))).
  { unfold lo. rewrite H0, length_app, Nat2Z.inj_add. rewrite Z.shiftl_mul_pow2 by lia. words. }
  assert (Hhi : hi = u32 (8 * Z.of_nat (length (msg ++ data)) / 2 ^ 32)).
  { unfold hi. fold lo. rewrite Hlo, H0, H1, length_app, Nat2Z.inj_add. rewrite Z.shiftr_div_pow2 by lia.
    destruct (Z.ltb_spec (u32 (8 * (Z.of_nat (length msg) + Z.of_nat (length data)))) (u32 (8 * Z.of_nat (length msg))));
      words. }
  clearbody hi lo. rewrite H0, count_ok.
  destruct (absorbed_app iv msg data) as [Ha Ht]. rewrite <- Hbuf in Ha.
  pose proof (Nat.mod_upper_bound (length msg) 64 ltac:(lia)) as Hm.
  pose proof (length_tail msg) as Hlt. set (t := (length msg mod 64)%nat) in *.
  assert (Hfin : forall h b, h = absorbed (buf ctx) (tail_of msg ++ data) -> is_hash h -> length b = 64%nat ->
            take (length (msg ++ data) mod 64) b = tail_of (tail_of msg ++ data) -> rep (Ctx h lo hi b) (msg ++ data)).
  { intros h b -> Hh Hb Htl. constructor; cbn [buf in_ bits0 bits1]; try done. by rewrite Htl. }
  assert (Hmod : (length (msg ++ data) mod 64 = length (tail_of msg ++ data) mod 64)%nat).
  { rewrite !length_app, Hlt. unfold t. by rewrite Nat.Div0.add_mod_idemp_l. }
  destruct (Z.eqb_spec (Z.of_nat t) 0) as [Hz|Hz]; cbn [negb].
  - assert (tail_of msg = []) as Hnil by (apply nil_length_inv; lia). rewrite Hnil in *. cbn [app] in *.
    destruct (@update_blocks_ok e E (S (length data)) (buf ctx) (in_ ctx) data) as (b' & -> & Hh' & Hb' & Htl);
      [lia|done|done|done|].
    obind. eexists. split; [reflexivity|]. apply Hfin; [done|done|done|]. by rewrite Hmod.
  - rewrite Nat2Z.id. destruct (Z.ltb_spec (Z.of_nat (length data)) (64 - Z.of_nat t)).
    + rewrite put_ok by lia. obind. rewrite Htail. eexists. split; [reflexivity|].
      assert (length (tail_of msg ++ data) < 64)%nat by (rewrite length_app; lia).
      apply Hfin; [by rewrite absorbed_short|done|rewrite !length_app, length_drop; lia|].
      rewrite Hmod, Nat.mod_small, (tail_short (_ ++ _)) by done. rewrite app_assoc. by rewrite take_app_length.
    + replace (Z.to_nat (64 - Z.of_nat t)) with (64 - t)%nat by lia.
      rewrite put_ok by (rewrite length_take; lia). obind.
      rewrite Htail, (drop_ge (in_ ctx)), app_nil_r by (rewrite length_take; lia).
      set (block := tail_of msg ++ take (64 - t) data).
      assert (Hbl : length block = 64%nat) by (unfold block; rewrite length_app, length_take; lia).
      destruct (@block_ok e E (buf ctx) block Hhash) as (b1 & -> & Hb1 & Htr & Hh1); [|done|].
      { apply is_bytes_app; [by apply Forall_drop|auto with cint]. }
      obind. rewrite Htr. obind.
      destruct (@update_blocks_ok e E (S (length data)) (compress (buf ctx) block) b1 (drop (64 - t) data)) as
        (b' & -> & Hh' & Hb' & Htl); [rewrite length_drop; lia|done|auto with cint|done|].
      obind. eexists. split; [reflexivity|].
      assert (tail_of msg ++ data = block ++ drop (64 - t) data) as Heq by (unfold block; by rewrite <- app_assoc, take_drop).
      destruct (absorbed_block (buf ctx) block (drop (64 - t) data) Hbl) as [Hab Htb].
      apply Hfin; [by rewrite Heq, Hab|done|done|]. rewrite Hmod, Heq, Htb, length_app, Hbl, <- Htl.
      f_equal. rewrite <- Nat.Div0.add_mod_idemp_l. done.
Qed.

(** ** The end of the message *)

Lemma length_words x : reverse (be_bytes 8 x) = word_bytes LE (u32 x) ++ word_bytes LE (u32 (x / 2 ^ 32)).
Proof.
  unfold word_bytes. rewrite <- reverse_app. f_equal.
  assert (Hb : forall y k, 0 <= k <= 24 -> (u32 y >>ᵤ k) mod 256 = (y >>ᵤ k) mod 256).
  { intros y k Hk. rewrite <- land_255. by apply byte_of_u32. }
  cbn [be_bytes app]. rewrite !Hb by (cbn; lia).
  rewrite !Z.shiftr_div_pow2, !Z.div_div by (cbn; lia). done.
Qed.

Lemma window_take k n m (l r : bytes) :
  (k + n <= m)%nat -> (m <= length l)%nat -> take n (drop k (take m l ++ r)) = take n (drop k l).
Proof.
  intros Hk Hm. rewrite drop_app_le by (rewrite length_take; lia).
  rewrite take_app_le by (rewrite length_drop, length_take; lia).
  rewrite <- (take_drop m l) at 2. rewrite drop_app_le by (rewrite length_take; lia).
  by rewrite take_app_le by (rewrite length_drop, length_take; lia).
Qed.
(** The last block: 56 bytes that are in place and the length. *)
Lemma last_block_ok e {E} h b pre w0 w1 :
  is_hash h -> is_bytes pre -> length pre = 56%nat -> length b = 64%nat -> take 56 b = pre ->
  is_u32 w0 -> is_u32 w1 ->
  (b ← @byteReverse e E 14 b;
   b ← put 56 (word_bytes e w0) b;
   b ← put 60 (word_bytes e w1) b;
   MD5Transform e h b) = Done (compress h (pre ++ word_bytes LE w0 ++ word_bytes LE w1)) /\
  is_hash (compress h (pre ++ word_bytes LE w0 ++ word_bytes LE w1)).
Proof.
  intros Hh Hpre Hlp Hb Htk H0 H1. set (block := pre ++ _).
  destruct (@byteReverse_ok e E 14 b) as (b1 & -> & Hl1 & Hs1);
    [change (4 * 14)%nat with 56%nat; by rewrite Htk|lia|]. obind.
  rewrite put_ok by (rewrite length_word_bytes; lia). obind. rewrite length_word_bytes.
  rewrite put_ok by (rewrite !length_app, length_drop, length_take, !length_word_bytes; lia). obind.
  apply MD5Transform_ref; [done|..].
  { apply is_bytes_app; [done|]. apply is_bytes_app; auto with cint. }
  assert (take 60 (take 56 b1 ++ word_bytes e w0 ++ drop (56 + 4) b1) ++ word_bytes e w1 ++
          drop (60 + length (word_bytes e w1)) (take 56 b1 ++ word_bytes e w0 ++ drop (56 + 4) b1) =
          take 56 b1 ++ word_bytes e w0 ++ word_bytes e w1) as ->.
  { rewrite length_word_bytes, (drop_ge (_ ++ _)), app_nil_r
      by (rewrite !length_app, length_drop, length_take, length_word_bytes; lia).
    rewrite (app_assoc (take 56 b1) _ (drop _ _)), take_app_length'
      by (rewrite length_app, length_take, length_word_bytes; lia). by rewrite <- app_assoc. }
  intros i Hi.
  rewrite slice_Some by (rewrite !length_app, length_take, !length_word_bytes; lia). f_equal.
  unfold le_word, block. destruct (decide (i < 14)%nat); [|destruct (decide (i = 14)%nat) as [->|]].
  - rewrite <- Htk, !window_take by lia. specialize (Hs1 i ltac:(done)). by apply slice_inv in Hs1 as (_ & <- & _).
  - change (4 * 14)%nat with 56%nat. rewrite !drop_app_length' by (rewrite ?length_take; lia).
    rewrite !take_app_length' by (by rewrite length_word_bytes). by rewrite word_val_bytes, u32_small.
  - assert (i = 15)%nat as -> by lia. change (4 * 15)%nat with (56 + 4)%nat.
    rewrite <- !drop_drop, !drop_app_length' by (rewrite ?length_take, ?length_word_bytes; lia).
    rewrite !take_ge by (rewrite length_word_bytes; lia). by rewrite word_val_bytes, u32_small.
Qed.

Lemma digest_ok e {E} h :
  is_hash h -> @byteReverse e E 4 (concat (map (word_bytes e) h)) = Done (concat (map (word_bytes LE) h)).
Proof.
  intros (a & b & c & d & -> & _). cbn [map concat].
  rewrite !byteReverse_word by (auto with cint; apply length_word_bytes). cbn [byteReverse]. obind.
  assert (Hw : forall x, word_bytes e (word_val LE (word_bytes e x)) = word_bytes LE x).
  { intros x. destruct e; [apply word_bytes_val; [apply length_word_bytes|auto with cint]|].
    unfold word_bytes, word_val. rewrite <- (length_reverse (be_bytes 4 x)) at 1 || idtac.
    pose proof (be_bytes_val (reverse (be_bytes 4 x)) ltac:(apply Forall_reverse, is_bytes_be_bytes)) as H.
    by rewrite length_reverse, length_be_bytes in H. }
  by rewrite !Hw.
Qed.

Lemma bind_fourth {E A B C D F} (m : outcome E A) (f : A -> outcome E B) (g : B -> outcome E C)
    (k : C -> outcome E D) (x : D) (j : D -> outcome E F) :
  (a ← m; b ← f a; c ← g b; k c) = Done x -> (a ← m; b ← f a; c ← g b; d ← k c; j d) = j x.
Proof.
  destruct m as [a|?|]; [obind|discriminate|discriminate]. destruct (f a) as [b|?|]; [obind|discriminate|discriminate].
  destruct (g b) as [c|?|]; [obind|discriminate|discriminate]. by intros ->.
Qed.

Lemma MD5Final_ok e {E} ctx msg :
  rep ctx msg -> is_bytes msg -> @MD5Final e E ctx = Done (md5 msg).
Proof.
  intros [Hbuf Hhash H0 H1 Hin Htail] Hmsg. unfold MD5Final. rewrite H0, H1, count_ok, Nat2Z.id.
  pose proof (Nat.mod_upper_bound (length msg) 64 ltac:(lia)) as Hm. pose proof (length_tail msg) as Hlt.
  unfold md5. change (absorb _ iv (pad msg)) with (absorbed iv (pad msg)).
  unfold pad. rewrite (proj1 (absorbed_app iv msg _)), <- Hbuf, length_words.
  set (w0 := u32 (8 * _)). set (w1 := u32 (_ / _)). set (t := (length msg mod 64)%nat) in *.
  assert (Hw0 : is_u32 w0) by apply u32_range. assert (Hw1 : is_u32 w1) by apply u32_range.
  assert (Htb : is_bytes (tail_of msg)) by (by apply Forall_drop).
  assert (Hend : forall h b pre, is_hash h -> is_bytes pre -> length pre = 56%nat -> length b = 64%nat -> take 56 b = pre ->
            (b ← @byteReverse e E 14 b; b ← put 56 (word_bytes e w0) b; b ← put 60 (word_bytes e w1) b;
             h ← MD5Transform e h b; byteReverse e 4 (concat (map (word_bytes e) h))) =
            Done (concat (map (word_bytes LE) (absorbed h (pre ++ word_bytes LE w0 ++ word_bytes LE w1))))).
  { intros h b pre Hh Hp Hl Hb Ht. destruct (@last_block_ok e E h b pre w0 w1 Hh Hp Hl Hb Ht Hw0 Hw1) as [He Hh'].
    rewrite (bind_fourth _ _ _ _ _ _ He), digest_ok by done.
    pose proof (absorbed_block h (pre ++ word_bytes LE w0 ++ word_bytes LE w1) []
      ltac:(rewrite !length_app, !length_word_bytes; lia)) as [Ha _].
    rewrite app_nil_r, (absorbed_short (compress _ _) []) in Ha by (cbn; lia). by rewrite Ha. }
  set (D := drop (S t) (in_ ctx)). assert (HD : length D = (63 - t)%nat) by (unfold D; rewrite length_drop; lia).
  assert (put t [0x80] (in_ ctx) = @Done E _ ((tail_of msg ++ [0x80]) ++ D)) as ->.
  { rewrite put_ok by (cbn; lia). rewrite Htail, <- app_assoc. cbn [length]. by rewrite Nat.add_1_r. }
  obind. set (p := tail_of msg ++ [0x80]).
  assert (Hp : length p = S t) by (unfold p; rewrite length_app, Hlt; cbn; lia).
  assert (Hpb : is_bytes p) by (apply is_bytes_app; [done|solve_bytes]).
  destruct (Z.ltb_spec (64 - 1 - Z.of_nat t) 8).
  - replace (Z.to_nat (64 - 1 - Z.of_nat t)) with (63 - t)%nat by lia.
    rewrite put_app by (done || rewrite length_replicate; lia). obind.
    rewrite length_replicate, drop_ge, app_nil_r by lia. set (block := p ++ replicate (63 - t) 0).
    assert (Hbl : length block = 64%nat) by (unfold block; rewrite length_app, length_replicate; lia).
    destruct (@block_ok e E (buf ctx) block Hhash) as (b1 & -> & Hb1 & Htr & Hh1); [|done|].
    { apply is_bytes_app; [done|]. apply is_bytes_replicate. solve_bytes. }
    obind. rewrite Htr. obind. rewrite put_ok by (rewrite length_replicate; lia). obind.
    rewrite (Hend _ _ (replicate 56 0));
      [|done|apply is_bytes_replicate; solve_bytes|done|rewrite !length_app, length_drop, length_replicate, length_take; lia|done].
    do 3 f_equal. rewrite <- (proj1 (absorbed_block (buf ctx) block _ Hbl)). f_equal. unfold block, p.
    rewrite <- !app_assoc. f_equal. cbn [app]. f_equal. rewrite !app_assoc. do 2 f_equal.
    rewrite <- replicate_add. f_equal. rewrite <- (Nat.mod_small (63 - t + 56) 64) by lia. f_equal. lia.
  - replace (Z.to_nat (64 - 1 - Z.of_nat t - 8)) with (55 - t)%nat by lia.
    rewrite put_app by (done || rewrite length_replicate; lia). obind.
    rewrite (Hend _ _ (p ++ replicate (55 - t) 0)).
    + do 3 f_equal. f_equal. unfold p. rewrite <- !app_assoc. f_equal. cbn [app]. f_equal. f_equal. f_equal.
      replace (55 + 64 - t)%nat with (55 - t + 1 * 64)%nat by lia. rewrite Nat.Div0.mod_add. symmetry.
      apply Nat.mod_small. lia.
    + done.
    + apply is_bytes_app; [done|]. apply is_bytes_replicate. solve_bytes.
    + rewrite length_app, length_replicate. lia.
    + rewrite !length_app, length_replicate, length_drop. lia.
    + rewrite app_assoc. apply take_app_length'. rewrite length_app, length_replicate. lia.
Qed.

Lemma updates_ok e {E} c msg pieces :
  rep c msg -> is_bytes msg -> Forall (fun p => is_bytes p /\ Z.of_nat (length p) < 2 ^ 32) pieces ->
  exists c', @updates e E c pieces = Done c' /\ rep c' (msg ++ concat pieces) /\ is_bytes (msg ++ concat pieces).
Proof.
  intros Hr Hm Hp. revert c msg Hr Hm. induction Hp as [|p ps [Hb Hl] _ IH]; intros c msg Hr Hm; cbn [updates concat].
  - exists c. by rewrite app_nil_r.
  - destruct (@MD5Update_ok e E c msg p Hr Hm Hb Hl) as (c1 & -> & Hr1). obind. rewrite app_assoc.
    apply IH; [done|by apply is_bytes_app].
Qed.
Lemma MD5_ok e {E} ctx pieces :
  length (in_ ctx) = 64%nat ->
  Forall (fun p => is_bytes p /\ Z.of_nat (length p) < 2 ^ 32) pieces ->
  @MD5 e E ctx pieces = Done (md5 (concat pieces)).
Proof.
  intros Hin Hp. unfold MD5.
  destruct (@updates_ok e E (MD5Init ctx) [] pieces (rep_start ctx Hin) ltac:(constructor) Hp) as (c & -> & Hr & Hb).
  obind. by apply MD5Final_ok.
Qed.

(** C22: hashing in pieces, on a machine of either byte order and in a context with
    any contents, gives the digest of RFC 1321 of the pieces put together. *)
Theorem MD5_rfc1321 e {E} ctx pieces :
  length (in_ ctx) = 64%nat ->
  Forall (fun p => is_bytes p /\ Z.of_nat (length p) < 2 ^ 32) pieces ->
  @MD5 e E ctx pieces = Done (md5 (concat pieces)).
Proof. intros Hin Hp. exact (MD5_ok e ctx pieces Hin Hp). Qed.

Lemma absorb_hash n h msg : is_hash h -> is_bytes msg -> is_hash (absorb n h msg).
Proof.
  revert h msg. induction n as [|n IH]; intros h msg Hh Hm; cbn [absorb]; [done|]. apply IH; [|auto with cint].
  destruct Hh as (a & b & c & d & -> & Hr). unfold compress. destruct (fold_left _ _ _) as [[[a' b'] c'] d'].
  do 4 eexists. split; [done|]. unfold is_regs. auto with cint.
Qed.
Lemma is_bytes_pad msg : is_bytes msg -> is_bytes (pad msg).
Proof.
  intros Hm. unfold pad. apply is_bytes_app; [done|]. apply is_bytes_cons; [solve_bytes|].
  apply is_bytes_app; [apply is_bytes_replicate; solve_bytes|]. apply Forall_reverse, is_bytes_be_bytes.
Qed.
Lemma length_md5 msg : is_bytes msg -> length (md5 msg) = 16%nat.
Proof.
  intros Hm. unfold md5. destruct (absorb_hash (length (pad msg) / 64) iv (pad msg)) as (a & b & c & d & -> & _);
    [apply is_hash_iv|by apply is_bytes_pad|]. cbn [map concat]. by rewrite !length_app, !length_word_bytes.
Qed.
Lemma is_bytes_md5 msg : is_bytes (md5 msg).
Proof. apply Forall_concat, Forall_map, Forall_forall. intros w _. apply is_bytes_word_bytes. Qed.

(** The suite of RFC 1321, in a context that holds garbage. *)
Definition garbage : MD5Context := Ctx [] 77 99 (replicate 64 0xAA).
Example rfc1321_suite :
  map (@MD5 LE unit garbage) [[]; [str "a"; str "bc"]; [str "message "; str "digest"]] =
  map Done [[0xd4; 0x1d; 0x8c; 0xd9; 0x8f; 0x00; 0xb2; 0x04; 0xe9; 0x80; 0x09; 0x98; 0xec; 0xf8; 0x42; 0x7e];
            [0x90; 0x01; 0x50; 0x98; 0x3c; 0xd2; 0x4f; 0xb0; 0xd6; 0x96; 0x3f; 0x7d; 0x28; 0xe1; 0x7f; 0x72];
            [0xf9; 0x6b; 0x69; 0x7d; 0x7c; 0xb7; 0x93; 0x8d; 0x52; 0x5a; 0x2f; 0x31; 0xaa; 0xf1; 0x61; 0xd0]].
Proof. vm_compute. reflexivity. Qed.

Lemma MD5_rfc1321_witness :
  @MD5 BE unit garbage [str "12345678901234567890123456789012345678901234567890123456"; str "789012345678901234567890"] =
  Done (md5 (str "12345678901234567890123456789012345678901234567890123456789012345678901234567890")).
Proof.
  refine (MD5_rfc1321 BE garbage [str "12345678901234567890123456789012345678901234567890123456";
    str "789012345678901234567890"] eq_refl _).
  repeat constructor; try discriminate; solve_bytes.
Defined.
End Md5.

(** * The interface: a digest of sixteen bytes of what has been fed to it *)

Definition piece (p : bytes) : Prop := is_bytes p /\ Z.of_nat (length p) < 2 ^ 32.
Class Digest := {
  hash : bytes -> bytes;
  digest : forall {E}, list bytes -> outcome E bytes;
  length_hash : forall m, is_bytes m -> length (hash m) = 16%nat;
  is_bytes_hash : forall m, is_bytes (hash m);
  digest_hash : forall {E} ps, Forall piece ps -> @digest E ps = Done (hash (concat ps));
}.

#[export] Program Instance md5_digest (e : endian) (ctx : Md5.MD5Context) (H : length (Md5.in_ ctx) = 64%nat) : Digest := {
  hash := Md5.md5;
  digest E ps := Md5.MD5 e ctx ps;
}.
Next Obligation. intros. by apply Md5.length_md5. Qed.
Next Obligation. intros. apply Md5.is_bytes_md5. Qed.
Next Obligation. intros e ctx H E ps Hp. by apply Md5.MD5_ok. Qed.
