(* ===== verification/Crc.v ===== *)
(** * Cyclic redundancy checks

    The table-driven CRC-32 of [package/boot/rbcfg/src/cyg_crc32.c] (RouterBOOT
    configuration block) and CRC-8 of [package/utils/nvram/src/crc.c] (NVRAM
    header and data).  Both are reflected CRCs: each is proved equal to a
    bit-at-a-time division by its polynomial, and to detect every change
    confined to one byte. *)

From S2P Require Import Prelude.

(** ** Tables, as the sources list them *)

Definition crc32_tab : list Z :=
  [
   0x00000000; 0x77073096; 0xee0e612c; 0x990951ba; 0x076dc419; 0x706af48f;
   0xe963a535; 0x9e6495a3; 0x0edb8832; 0x79dcb8a4; 0xe0d5e91e; 0x97d2d988;
   0x09b64c2b; 0x7eb17cbd; 0xe7b82d07; 0x90bf1d91; 0x1db71064; 0x6ab020f2;
   0xf3b97148; 0x84be41de; 0x1adad47d; 0x6ddde4eb; 0xf4d4b551; 0x83d385c7;
   0x136c9856; 0x646ba8c0; 0xfd62f97a; 0x8a65c9ec; 0x14015c4f; 0x63066cd9;
   0xfa0f3d63; 0x8d080df5; 0x3b6e20c8; 0x4c69105e; 0xd56041e4; 0xa2677172;
   0x3c03e4d1; 0x4b04d447; 0xd20d85fd; 0xa50ab56b; 0x35b5a8fa; 0x42b2986c;
   0xdbbbc9d6; 0xacbcf940; 0x32d86ce3; 0x45df5c75; 0xdcd60dcf; 0xabd13d59;
   0x26d930ac; 0x51de003a; 0xc8d75180; 0xbfd06116; 0x21b4f4b5; 0x56b3c423;
   0xcfba9599; 0xb8bda50f; 0x2802b89e; 0x5f058808; 0xc60cd9b2; 0xb10be924;
   0x2f6f7c87; 0x58684c11; 0xc1611dab; 0xb6662d3d; 0x76dc4190; 0x01db7106;
   0x98d220bc; 0xefd5102a; 0x71b18589; 0x06b6b51f; 0x9fbfe4a5; 0xe8b8d433;
   0x7807c9a2; 0x0f00f934; 0x9609a88e; 0xe10e9818; 0x7f6a0dbb; 0x086d3d2d;
   0x91646c97; 0xe6635c01; 0x6b6b51f4; 0x1c6c6162; 0x856530d8; 0xf262004e;
   0x6c0695ed; 0x1b01a57b; 0x8208f4c1; 0xf50fc457; 0x65b0d9c6; 0x12b7e950;
   0x8bbeb8ea; 0xfcb9887c; 0x62dd1ddf; 0x15da2d49; 0x8cd37cf3; 0xfbd44c65;
   0x4db26158; 0x3ab551ce; 0xa3bc0074; 0xd4bb30e2; 0x4adfa541; 0x3dd895d7;
   0xa4d1c46d; 0xd3d6f4fb; 0x4369e96a; 0x346ed9fc; 0xad678846; 0xda60b8d0;
   0x44042d73; 0x33031de5; 0xaa0a4c5f; 0xdd0d7cc9; 0x5005713c; 0x270241aa;
   0xbe0b1010; 0xc90c2086; 0x5768b525; 0x206f85b3; 0xb966d409; 0xce61e49f;
   0x5edef90e; 0x29d9c998; 0xb0d09822; 0xc7d7a8b4; 0x59b33d17; 0x2eb40d81;
   0xb7bd5c3b; 0xc0ba6cad; 0xedb88320; 0x9abfb3b6; 0x03b6e20c; 0x74b1d29a;
   0xead54739; 0x9dd277af; 0x04db2615; 0x73dc1683; 0xe3630b12; 0x94643b84;
   0x0d6d6a3e; 0x7a6a5aa8; 0xe40ecf0b; 0x9309ff9d; 0x0a00ae27; 0x7d079eb1;
   0xf00f9344; 0x8708a3d2; 0x1e01f268; 0x6906c2fe; 0xf762575d; 0x806567cb;
   0x196c3671; 0x6e6b06e7; 0xfed41b76; 0x89d32be0; 0x10da7a5a; 0x67dd4acc;
   0xf9b9df6f; 0x8ebeeff9; 0x17b7be43; 0x60b08ed5; 0xd6d6a3e8; 0xa1d1937e;
   0x38d8c2c4; 0x4fdff252; 0xd1bb67f1; 0xa6bc5767; 0x3fb506dd; 0x48b2364b;
   0xd80d2bda; 0xaf0a1b4c; 0x36034af6; 0x41047a60; 0xdf60efc3; 0xa867df55;
   0x316e8eef; 0x4669be79; 0xcb61b38c; 0xbc66831a; 0x256fd2a0; 0x5268e236;
   0xcc0c7795; 0xbb0b4703; 0x220216b9; 0x5505262f; 0xc5ba3bbe; 0xb2bd0b28;
   0x2bb45a92; 0x5cb36a04; 0xc2d7ffa7; 0xb5d0cf31; 0x2cd99e8b; 0x5bdeae1d;
   0x9b64c2b0; 0xec63f226; 0x756aa39c; 0x026d930a; 0x9c0906a9; 0xeb0e363f;
   0x72076785; 0x05005713; 0x95bf4a82; 0xe2b87a14; 0x7bb12bae; 0x0cb61b38;
   0x92d28e9b; 0xe5d5be0d; 0x7cdcefb7; 0x0bdbdf21; 0x86d3d2d4; 0xf1d4e242;
   0x68ddb3f8; 0x1fda836e; 0x81be16cd; 0xf6b9265b; 0x6fb077e1; 0x18b74777;
   0x88085ae6; 0xff0f6a70; 0x66063bca; 0x11010b5c; 0x8f659eff; 0xf862ae69;
   0x616bffd3; 0x166ccf45; 0xa00ae278; 0xd70dd2ee; 0x4e048354; 0x3903b3c2;
   0xa7672661; 0xd06016f7; 0x4969474d; 0x3e6e77db; 0xaed16a4a; 0xd9d65adc;
   0x40df0b66; 0x37d83bf0; 0xa9bcae53; 0xdebb9ec5; 0x47b2cf7f; 0x30b5ffe9;
   0xbdbdf21c; 0xcabac28a; 0x53b39330; 0x24b4a3a6; 0xbad03605; 0xcdd70693;
   0x54de5729; 0x23d967bf; 0xb3667a2e; 0xc4614ab8; 0x5d681b02; 0x2a6f2b94;
   0xb40bbe37; 0xc30c8ea1; 0x5a05df1b; 0x2d02ef8d
  ].

Definition crc8_table : list Z :=
  [
   0x00; 0xF7; 0xB9; 0x4E; 0x25; 0xD2; 0x9C; 0x6B;
   0x4A; 0xBD; 0xF3; 0x04; 0x6F; 0x98; 0xD6; 0x21;
   0x94; 0x63; 0x2D; 0xDA; 0xB1; 0x46; 0x08; 0xFF;
   0xDE; 0x29; 0x67; 0x90; 0xFB; 0x0C; 0x42; 0xB5;
   0x7F; 0x88; 0xC6; 0x31; 0x5A; 0xAD; 0xE3; 0x14;
   0x35; 0xC2; 0x8C; 0x7B; 0x10; 0xE7; 0xA9; 0x5E;
   0xEB; 0x1C; 0x52; 0xA5; 0xCE; 0x39; 0x77; 0x80;
   0xA1; 0x56; 0x18; 0xEF; 0x84; 0x73; 0x3D; 0xCA;
   0xFE; 0x09; 0x47; 0xB0; 0xDB; 0x2C; 0x62; 0x95;
   0xB4; 0x43; 0x0D; 0xFA; 0x91; 0x66; 0x28; 0xDF;
   0x6A; 0x9D; 0xD3; 0x24; 0x4F; 0xB8; 0xF6; 0x01;
   0x20; 0xD7; 0x99; 0x6E; 0x05; 0xF2; 0xBC; 0x4B;
   0x81; 0x76; 0x38; 0xCF; 0xA4; 0x53; 0x1D; 0xEA;
   0xCB; 0x3C; 0x72; 0x85; 0xEE; 0x19; 0x57; 0xA0;
   0x15; 0xE2; 0xAC; 0x5B; 0x30; 0xC7; 0x89; 0x7E;
   0x5F; 0xA8; 0xE6; 0x11; 0x7A; 0x8D; 0xC3; 0x34;
   0xAB; 0x5C; 0x12; 0xE5; 0x8E; 0x79; 0x37; 0xC0;
   0xE1; 0x16; 0x58; 0xAF; 0xC4; 0x33; 0x7D; 0x8A;
   0x3F; 0xC8; 0x86; 0x71; 0x1A; 0xED; 0xA3; 0x54;
   0x75; 0x82; 0xCC; 0x3B; 0x50; 0xA7; 0xE9; 0x1E;
   0xD4; 0x23; 0x6D; 0x9A; 0xF1; 0x06; 0x48; 0xBF;
   0x9E; 0x69; 0x27; 0xD0; 0xBB; 0x4C; 0x02; 0xF5;
   0x40; 0xB7; 0xF9; 0x0E; 0x65; 0x92; 0xDC; 0x2B;
   0x0A; 0xFD; 0xB3; 0x44; 0x2F; 0xD8; 0x96; 0x61;
   0x55; 0xA2; 0xEC; 0x1B; 0x70; 0x87; 0xC9; 0x3E;
   0x1F; 0xE8; 0xA6; 0x51; 0x3A; 0xCD; 0x83; 0x74;
   0xC1; 0x36; 0x78; 0x8F; 0xE4; 0x13; 0x5D; 0xAA;
   0x8B; 0x7C; 0x32; 0xC5; 0xAE; 0x59; 0x17; 0xE0;
   0x2A; 0xDD; 0x93; 0x64; 0x0F; 0xF8; 0xB6; 0x41;
   0x60; 0x97; 0xD9; 0x2E; 0x45; 0xB2; 0xFC; 0x0B;
   0xBE; 0x49; 0x07; 0xF0; 0x9B; 0x6C; 0x22; 0xD5;
   0xF4; 0x03; 0x4D; 0xBA; 0xD1; 0x26; 0x68; 0x9F
  ].

Definition tab_get (tab : list Z) (i : Z) : Z := default 0 (tab !! Z.to_nat i).

(** ** The loops of the sources *)

(** One iteration of [cyg_crc32_accumulate] and [cyg_ether_crc32_accumulate]. *)
Definition crc32_step (crc b : Z) : Z :=
  tab_get crc32_tab ((crc ^ᵤ b) &ᵤ 0xff) ^ᵤ (crc >>ᵤ 8).

(** [cyg_crc32_accumulate], over the bytes of the buffer. *)
Definition cyg_crc32_accumulate (crc32val : Z) (s : bytes) : Z :=
  fold_left crc32_step s crc32val.
Definition cyg_crc32 (s : bytes) : Z := cyg_crc32_accumulate 0 s.

(** [cyg_ether_crc32_accumulate] (for a non-null buffer) and [cyg_ether_crc32]. *)
Definition cyg_ether_crc32_accumulate (crc32val : Z) (s : bytes) : Z :=
  fold_left crc32_step s (crc32val ^ᵤ 0xffffffff) ^ᵤ 0xffffffff.
Definition cyg_ether_crc32 (s : bytes) : Z := cyg_ether_crc32_accumulate 0 s.

(** [hndcrc8 (pdata, nbytes, crc)]. *)
Definition hndcrc8 (pdata : bytes) (crc : Z) : Z :=
  fold_left (fun crc b => tab_get crc8_table ((crc ^ᵤ b) &ᵤ 0xff)) pdata crc.

(** ** Reference: division by a reflected polynomial, one bit at a time *)

Definition crc_bit (poly x : Z) : Z :=
  if Z.testbit x 0 then (x >>ᵤ 1) ^ᵤ poly else x >>ᵤ 1.
Definition crc_byte (poly x : Z) : Z := Nat.iter 8 (crc_bit poly) x.
Definition crc_ref (poly : Z) (init : Z) (s : bytes) : Z :=
  fold_left (fun crc b => crc_byte poly (crc ^ᵤ b)) s init.

(** Bit-reversed polynomials: CRC-32 (IEEE 802.3), and
    [x^8 + x^7 + x^6 + x^4 + x^2 + 1]. *)
Definition poly32 : Z := 0xedb88320.
Definition poly8 : Z := 0xab.

(** ** Linearity of the division *)

Lemma crc_bit_lxor poly x y : crc_bit poly (x ^ᵤ y) = crc_bit poly x ^ᵤ crc_bit poly y.
Proof.
  unfold crc_bit. rewrite Z.lxor_spec, Z.shiftr_lxor.
  destruct (Z.testbit x 0), (Z.testbit y 0); simpl; apply Z.bits_inj'; intros i _;
    rewrite ?Z.lxor_spec;
    destruct (Z.testbit (x >>ᵤ 1) i), (Z.testbit (y >>ᵤ 1) i), (Z.testbit poly i); done.
Qed.

Lemma crc_byte_lxor poly x y : crc_byte poly (x ^ᵤ y) = crc_byte poly x ^ᵤ crc_byte poly y.
Proof.
  unfold crc_byte. generalize 8%nat. induction n as [|n IH]; simpl; [done|].
  by rewrite IH, crc_bit_lxor.
Qed.

Lemma crc_byte_shift poly x : crc_byte poly (x <<ᵤ 8) = x.
Proof.
  unfold crc_byte.
  assert (H : forall n k, (n <= k)%nat ->
    Nat.iter n (crc_bit poly) (x <<ᵤ Z.of_nat k) = x <<ᵤ Z.of_nat (k - n)).
  { induction n as [|n IH]; intros k Hk; simpl.
    - by rewrite Nat.sub_0_r.
    - rewrite IH by lia. unfold crc_bit.
      rewrite Z.shiftl_spec_low by lia.
      rewrite Z.shiftr_shiftl_l by lia. f_equal. lia. }
  change 8 with (Z.of_nat 8). rewrite H by lia. by rewrite Z.shiftl_0_r.
Qed.

Lemma split_low8 x : x = ((x >>ᵤ 8) <<ᵤ 8) ^ᵤ (x &ᵤ 0xff).
Proof.
  apply Z.bits_inj'. intros i Hi. rewrite Z.lxor_spec, Z.land_spec, Z.shiftl_spec by lia.
  change 0xff with (Z.ones 8). destruct (decide (i < 8)).
  - rewrite (Z.testbit_neg_r _ (i - 8)), Z.ones_spec_low by lia. by rewrite andb_true_r.
  - rewrite Z.shiftr_spec, Z.ones_spec_high by lia.
    rewrite andb_false_r, xorb_false_r. f_equal. lia.
Qed.

(** A table that holds the remainders of all bytes replaces eight bit steps. *)
Definition table_for (poly : Z) (tab : list Z) : Prop :=
  forall i, is_u8 i -> tab_get tab i = crc_byte poly i.

Lemma table_step poly tab x :
  table_for poly tab -> crc_byte poly x = tab_get tab (x &ᵤ 0xff) ^ᵤ (x >>ᵤ 8).
Proof.
  intros Ht. rewrite (split_low8 x) at 1.
  rewrite crc_byte_lxor, crc_byte_shift, Z.lxor_comm, Ht; [done|].
  change 0xff with (Z.ones 8). rewrite Z.land_ones by lia. words.
Qed.

(** Deciding [table_for] by computation. *)
Definition table_check (poly : Z) (tab : list Z) : bool :=
  forallb (fun i => tab_get tab (Z.of_nat i) =? crc_byte poly (Z.of_nat i)) (seq 0 256).
Lemma table_check_sound poly tab : table_check poly tab = true -> table_for poly tab.
Proof.
  intros H i Hi. unfold table_check in H. rewrite forallb_forall in H.
  specialize (H (Z.to_nat i)). rewrite Z2Nat.id in H by apply Hi.
  apply Z.eqb_eq, H, in_seq. words.
Qed.

Lemma crc32_tab_ok : table_for poly32 crc32_tab.
Proof. apply table_check_sound. by vm_compute. Qed.
Lemma crc8_table_ok : table_for poly8 crc8_table.
Proof. apply table_check_sound. by vm_compute. Qed.

(** ** The division is a bijection on remainders *)

Section Reflected.
Context (w poly : Z).
Hypothesis (Hw : 8 <= w) (Hpoly : in_w w poly) (Htop : Z.testbit poly (w - 1) = true).

Lemma crc_bit_in_w x : in_w w x -> in_w w (crc_bit poly x).
Proof.
  intros Hx. unfold crc_bit.
  destruct (Z.testbit x 0); [apply lxor_in_w; auto; [lia|]|]; apply shiftr_in_w; auto; lia.
Qed.

Lemma crc_bit_top x : in_w w x -> Z.testbit (crc_bit poly x) (w - 1) = Z.testbit x 0.
Proof.
  intros Hx. unfold crc_bit.
  assert (Z.testbit (x >>ᵤ 1) (w - 1) = false) as Hs.
  { rewrite Z.shiftr_spec by lia. apply (in_w_testbit w); [lia|done|lia]. }
  destruct (Z.testbit x 0); rewrite ?Z.lxor_spec, ?Hs, ?Htop; done.
Qed.

Lemma crc_bit_inj x y : in_w w x -> in_w w y -> crc_bit poly x = crc_bit poly y -> x = y.
Proof.
  intros Hx Hy Heq.
  assert (H0 : Z.testbit x 0 = Z.testbit y 0)
    by (rewrite <- (crc_bit_top x), <- (crc_bit_top y), Heq; done).
  assert (H1 : x >>ᵤ 1 = y >>ᵤ 1).
  { unfold crc_bit in Heq. rewrite H0 in Heq. destruct (Z.testbit y 0); [|done].
    apply (f_equal (fun z => z ^ᵤ poly)) in Heq.
    by rewrite !Z.lxor_assoc, Z.lxor_nilpotent, !Z.lxor_0_r in Heq. }
  apply Z.bits_inj'. intros i Hi. destruct (decide (i = 0)) as [->|Hne]; [done|].
  replace i with ((i - 1) + 1) by lia.
  by rewrite <- !Z.shiftr_spec, H1 by lia.
Qed.

Lemma crc_byte_in_w x : in_w w x -> in_w w (crc_byte poly x).
Proof.
  intros Hx. unfold crc_byte. generalize 8%nat.
  induction n as [|n IH]; simpl; auto using crc_bit_in_w.
Qed.
Lemma crc_byte_inj x y : in_w w x -> in_w w y -> crc_byte poly x = crc_byte poly y -> x = y.
Proof.
  intros Hx Hy. unfold crc_byte.
  assert (Hr : forall n z, in_w w z -> in_w w (Nat.iter n (crc_bit poly) z))
    by (induction n as [|n IH]; simpl; auto using crc_bit_in_w).
  generalize 8%nat. induction n as [|n IH]; simpl; [done|].
  intros Heq. apply IH, crc_bit_inj; auto.
Qed.

Lemma byte_in_w b : is_u8 b -> in_w w b.
Proof.
  intros [H1 H2]. split; [done|]. eapply Z.lt_le_trans; [done|].
  apply Z.pow_le_mono_r; lia.
Qed.

Lemma crc_ref_in_w s init : in_w w init -> is_bytes s -> in_w w (crc_ref poly init s).
Proof.
  intros Hi Hs. revert init Hi. induction Hs as [|b s Hb _ IH]; intros init Hi; simpl; [done|].
  apply IH, crc_byte_in_w, lxor_in_w; auto using byte_in_w; lia.
Qed.

Lemma crc_ref_inj s x y :
  is_bytes s -> in_w w x -> in_w w y -> crc_ref poly x s = crc_ref poly y s -> x = y.
Proof.
  intros Hs. revert x y. induction Hs as [|b s Hb _ IH]; intros x y Hx Hy; simpl; [done|].
  assert (Hbw : in_w w b) by auto using byte_in_w.
  intros Heq. apply IH in Heq; [|apply crc_byte_in_w, lxor_in_w; auto; lia..].
  apply crc_byte_inj in Heq; [|apply lxor_in_w; auto; lia..].
  apply (f_equal (fun z => z ^ᵤ b)) in Heq.
  by rewrite !Z.lxor_assoc, Z.lxor_nilpotent, !Z.lxor_0_r in Heq.
Qed.

(** Two buffers that differ in exactly one byte have different remainders. *)
Lemma crc_ref_detects pre post b c init :
  is_bytes pre -> is_bytes post -> is_u8 b -> is_u8 c -> in_w w init -> b <> c ->
  crc_ref poly init (pre ++ b :: post) <> crc_ref poly init (pre ++ c :: post).
Proof.
  intros Hpre Hpost Hb Hc Hi Hne Heq. unfold crc_ref in Heq.
  rewrite !fold_left_app in Heq. simpl in Heq.
  fold (crc_ref poly init pre) in Heq.
  pose proof (crc_ref_in_w pre init Hi Hpre) as Hp. apply Hne.
  apply (crc_ref_inj post) in Heq; auto; [|apply crc_byte_in_w, lxor_in_w; auto using byte_in_w; lia..].
  apply crc_byte_inj in Heq; [|apply lxor_in_w; auto using byte_in_w; lia..].
  apply (f_equal (fun z => crc_ref poly init pre ^ᵤ z)) in Heq.
  by rewrite <- !Z.lxor_assoc, Z.lxor_nilpotent, !Z.lxor_0_l in Heq.
Qed.
End Reflected.

(** ** The source routines compute the reference division *)

Lemma byte_shiftr8 b : is_u8 b -> b >>ᵤ 8 = 0.
Proof. intros Hb. rewrite Z.shiftr_div_pow2 by lia. by apply Z.div_small. Qed.

Lemma crc32_loop_ref s init :
  is_bytes s -> fold_left crc32_step s init = crc_ref poly32 init s.
Proof.
  intros Hs. revert init. induction Hs as [|b s Hb _ IH]; intros init; simpl; [done|].
  rewrite IH. f_equal. rewrite (table_step poly32 crc32_tab) by apply crc32_tab_ok.
  unfold crc32_step. by rewrite Z.shiftr_lxor, (byte_shiftr8 b), Z.lxor_0_r.
Qed.

Lemma poly32_range : in_w 32 poly32.
Proof. by unfold in_w, poly32. Qed.
Lemma poly8_range : in_w 8 poly8.
Proof. by unfold in_w, poly8. Qed.

Lemma cyg_ether_crc32_range s : is_bytes s -> is_u32 (cyg_ether_crc32 s).
Proof.
  intros Hs. unfold cyg_ether_crc32, cyg_ether_crc32_accumulate.
  rewrite crc32_loop_ref by done. apply lxor_in_w; [lia| |done].
  by apply (crc_ref_in_w 32 poly32 ltac:(lia) poly32_range).
Qed.
#[export] Hint Resolve cyg_ether_crc32_range : cint.

Lemma hndcrc8_ref_gen s init :
  is_u8 init -> is_bytes s -> hndcrc8 s init = crc_ref poly8 init s.
Proof.
  intros Hi Hs. revert init Hi. induction Hs as [|b s Hb _ IH]; intros init Hi; simpl; [done|].
  assert (Hx : is_u8 (init ^ᵤ b)) by (apply lxor_in_w; auto; lia).
  assert (Heq : tab_get crc8_table ((init ^ᵤ b) &ᵤ 0xff) = crc_byte poly8 (init ^ᵤ b)).
  { rewrite (table_step poly8 crc8_table (init ^ᵤ b)) by apply crc8_table_ok.
    by rewrite (byte_shiftr8 (init ^ᵤ b)), Z.lxor_0_r. }
  unfold hndcrc8 in *. simpl. rewrite Heq. by apply IH, (crc_byte_in_w 8 poly8 ltac:(lia) poly8_range).
Qed.

Lemma hndcrc8_range s init : is_u8 init -> is_u8 (hndcrc8 s init).
Proof.
  assert (Ht : is_bytes crc8_table) by solve_bytes.
  revert init. induction s as [|b s IH]; intros init Hi; [done|]. apply IH.
  unfold tab_get. destruct (crc8_table !! _) as [x|] eqn:Hx; [|unfold is_u8, in_w; cbn; lia].
  exact (Forall_lookup_1 _ _ _ _ Ht Hx).
Qed.

(** Changing one byte changes the CRC. *)
Lemma cyg_ether_crc32_byte_inj pre post b c :
  is_bytes pre -> is_bytes post -> is_u8 b -> is_u8 c ->
  cyg_ether_crc32 (pre ++ b :: post) = cyg_ether_crc32 (pre ++ c :: post) -> b = c.
Proof.
  intros Hpre Hpost Hb Hc Heq. destruct (decide (b = c)) as [|Hne]; [done|]. exfalso. revert Heq.
  unfold cyg_ether_crc32, cyg_ether_crc32_accumulate. intros Heq.
  apply (f_equal (fun z => z ^ᵤ 0xffffffff)) in Heq.
  rewrite !Z.lxor_assoc, Z.lxor_nilpotent, !Z.lxor_0_r in Heq.
  rewrite !crc32_loop_ref in Heq by (apply Forall_app_2; auto).
  revert Heq. by apply (crc_ref_detects 32 poly32 ltac:(lia) poly32_range).
Qed.

(** ** Properties *)

(** The table-driven [cyg_ether_crc32] is the Ethernet CRC-32: the
    bit-at-a-time division of the buffer by the polynomial 0xedb88320, started
    from all ones and complemented at the end. *)
Theorem cyg_ether_crc32_ref (s : bytes) (Hs : is_bytes s) :
  cyg_ether_crc32 s = crc_ref poly32 0xffffffff s ^ᵤ 0xffffffff.
Proof.
  unfold cyg_ether_crc32, cyg_ether_crc32_accumulate. by rewrite crc32_loop_ref.
Qed.

(** [hndcrc8] computes, from any 8-bit start value, the remainder by the
    polynomial x^8 + x^7 + x^6 + x^4 + x^2 + 1 that its comment names, and can be
    continued over discontiguous blocks. *)
Theorem hndcrc8_ref (s t : bytes) (crc : Z) (Hs : is_bytes s) (Ht : is_bytes t)
    (Hc : is_u8 crc) :
  hndcrc8 s crc = crc_ref poly8 crc s /\ hndcrc8 t (hndcrc8 s crc) = hndcrc8 (s ++ t) crc.
Proof.
  split; [by apply hndcrc8_ref_gen|]. unfold hndcrc8. by rewrite fold_left_app.
Qed.

(** Corrupting one byte of a configuration block, whatever the byte and
    wherever it is, changes its [cyg_ether_crc32]. *)
Theorem cyg_ether_crc32_detects (pre post : bytes) (b c : Z)
    (Hpre : is_bytes pre) (Hpost : is_bytes post) (Hb : is_u8 b) (Hc : is_u8 c)
    (Hne : b <> c) :
  cyg_ether_crc32 (pre ++ b :: post) <> cyg_ether_crc32 (pre ++ c :: post).
Proof. intros Heq. by apply Hne, (cyg_ether_crc32_byte_inj pre post). Qed.

(** ** Instances *)

Example cyg_ether_crc32_check : cyg_ether_crc32 (map Z.of_nat (seq 49 9)) = 0xcbf43926.
Proof. by vm_compute. Qed.

Lemma cyg_ether_crc32_ref_witness :
  is_bytes [1; 2; 3] /\ cyg_ether_crc32 [1; 2; 3] = crc_ref poly32 0xffffffff [1; 2; 3] ^ᵤ 0xffffffff.
Proof.
  assert (H : is_bytes [1; 2; 3]) by solve_bytes.
  split; [exact H|]. apply (cyg_ether_crc32_ref [1; 2; 3] H).
Defined.
Lemma hndcrc8_ref_witness :
  hndcrc8 [1; 2] 0xff = crc_ref poly8 0xff [1; 2] /\
  hndcrc8 [3] (hndcrc8 [1; 2] 0xff) = hndcrc8 ([1; 2] ++ [3]) 0xff.
Proof. apply (hndcrc8_ref [1; 2] [3] 0xff); solve_bytes. Defined.
Lemma cyg_ether_crc32_detects_witness :
  cyg_ether_crc32 ([7] ++ 1 :: [9]) ≠ cyg_ether_crc32 ([7] ++ 2 :: [9]).
Proof. apply (cyg_ether_crc32_detects [7] [9] 1 2); solve_bytes. Defined.
