(* ===== verification/Chains.v ===== *)
(** * Linked lists threaded through an array

    The members of a table are cells of one array; a pointer to a member is the
    index of its cell and [None] the null pointer.  A singly linked chain (the
    [nexthash] lists) and a doubly linked list with head and tail pointers (the
    free lists) are described by the list of the indices they run through. *)

From S2P Require Import Prelude.

(** The walk [for (p = head; p; p = nx (p))] for a cell satisfying [f]: [Fault]
    only when it does not end within [fuel] turns. *)
Fixpoint walk {E} (fuel : nat) (nx : nat -> option nat) (f : nat -> bool) (p : option nat)
    : outcome E (option nat) :=
  match p with
  | None => Done None
  | Some i =>
    match fuel with
    | O => Fault
    | S n => if f i then Done (Some i) else walk n nx f (nx i)
    end
  end.

(** The same walk, keeping the cell before the one it stops at ([p_prev]). *)
Fixpoint walk_prev {E} (fuel : nat) (nx : nat -> option nat) (f : nat -> bool)
    (prev p : option nat) : outcome E (option nat * option nat) :=
  match p with
  | None => Done (prev, None)
  | Some i =>
    match fuel with
    | O => Fault
    | S n => if f i then Done (prev, Some i) else walk_prev n nx f (Some i) (nx i)
    end
  end.

(** ** Singly linked chains *)

Fixpoint chain (nx : nat -> option nat) (p : option nat) (l : list nat) : Prop :=
  match l with
  | [] => p = None
  | i :: l' => p = Some i /\ chain nx (nx i) l'
  end.

Lemma chain_lookup nx p l :
  chain nx p l <-> p = head l /\ forall k i, l !! k = Some i -> nx i = l !! S k.
Proof.
  revert p. induction l as [|i l IH]; intros p; cbn [chain].
  - split; [intros ->; split; [done|]; intros k i H; by rewrite lookup_nil in H|by intros [-> _]].
  - rewrite IH. split.
    + intros (-> & Hn & Hk). split; [done|]. intros [|k] j Hj.
      * injection Hj as <-. rewrite Hn. by destruct l.
      * by apply Hk.
    + intros (-> & Hk). split; [done|]. split; [|intros k j Hj; by apply (Hk (S k))].
      rewrite (Hk O i eq_refl). by destruct l.
Qed.

Lemma chain_ext nx nx' p l : (forall i, i ∈ l -> nx' i = nx i) -> chain nx p l -> chain nx' p l.
Proof.
  rewrite !chain_lookup. intros He [-> Hk]. split; [done|]. intros k i Hi.
  rewrite He; [by apply Hk|]. by eapply list_elem_of_lookup_2.
Qed.

Lemma chain_fun nx p l l' : chain nx p l -> chain nx p l' -> l = l'.
Proof.
  revert p l'. induction l as [|i l IH]; intros p [|j l']; cbn [chain].
  - done.
  - by intros -> [? _].
  - by intros [-> _].
  - intros [-> H] [[= <-] H']. f_equal. by eapply IH.
Qed.

(** Adding behind the last cell [j] of a chain, and in front of an empty one. *)
Lemma chain_snoc nx nx' p l i :
  chain nx p l -> NoDup (l ++ [i]) -> nx' i = None ->
  (forall j, j ∈ l -> nx' j = if decide (last l = Some j) then Some i else nx j) ->
  chain nx' (if decide (l = []) then Some i else p) (l ++ [i]).
Proof.
  rewrite !chain_lookup. intros [-> Hk] Hd Hi Hj. split.
  { destruct l; [done|]. by rewrite decide_False. }
  intros k j Hkj. destruct (decide (k < length l)%nat) as [Hlt|Hge].
  - rewrite lookup_app_l in Hkj by done.
    rewrite Hj by (by eapply list_elem_of_lookup_2). rewrite last_lookup. case_decide as Hl.
    + assert (k = pred (length l)) as ->.
      { apply NoDup_app in Hd as [Hd _]. by eapply NoDup_lookup. }
      rewrite lookup_app_r by lia. by replace (S (pred (length l)) - length l)%nat with 0%nat by lia.
    + rewrite (Hk k j Hkj). destruct (decide (S k < length l)%nat); [by rewrite lookup_app_l|].
      exfalso. apply Hl. rewrite <- Hkj. f_equal. lia.
  - pose proof (lookup_lt_Some _ _ _ Hkj) as Hb. rewrite length_app in Hb. cbn in Hb.
    rewrite lookup_app_r in Hkj by lia. replace (k - length l)%nat with 0%nat in Hkj by lia.
    injection Hkj as <-. rewrite Hi, lookup_ge_None_2; [done|]. rewrite length_app. cbn. lia.
Qed.

(** Taking cell number [k] out. *)
Lemma chain_delete nx nx' p l k i :
  chain nx p l -> NoDup l -> l !! k = Some i ->
  (forall j, j ∈ l -> j <> i ->
    nx' j = if decide (k <> O /\ l !! pred k = Some j) then nx i else nx j) ->
  chain nx' (if decide (k = O) then nx i else p) (delete k l).
Proof.
  rewrite !chain_lookup. intros [-> Hk] Hd Hki Hj. split.
  { case_decide as H0; [subst k|]; destruct l as [|x l]; try done.
    - injection Hki as ->. rewrite (Hk O i eq_refl). by destruct l.
    - by destruct k. }
  intros m j Hm.
  assert (Hpos : exists m', l !! m' = Some j /\ m' <> k /\
            ((m' < k)%nat /\ m = m' \/ (k < m')%nat /\ S m = m')).
  { destruct (decide (m < k)%nat) as [Hlt|Hge].
    - rewrite list_lookup_delete_lt in Hm by done. exists m. split; [done|]. split; [lia|]. left. lia.
    - rewrite list_lookup_delete_ge in Hm by lia. exists (S m). split; [done|]. split; [lia|]. right. lia. }
  destruct Hpos as (m' & Hl & Hne & Hcase).
  assert (Hji : j <> i) by (intros ->; apply Hne; by eapply NoDup_lookup).
  rewrite Hj by (done || by eapply list_elem_of_lookup_2).
  destruct (decide (k <> O /\ l !! pred k = Some j)) as [Hpk|Hpk].
  - destruct Hpk as [H0 Hpk]. assert (m' = pred k) by (by eapply NoDup_lookup). subst m'.
    rewrite (Hk k i Hki). rewrite list_lookup_delete_ge by lia. f_equal. lia.
  - rewrite (Hk m' j Hl). destruct Hcase as [[Hlt ->]|[Hlt <-]].
    + destruct (decide (S m' < k)%nat); [by rewrite list_lookup_delete_lt|].
      exfalso. apply Hpk. split; [lia|]. rewrite <- Hl. f_equal. lia.
    + by rewrite list_lookup_delete_ge by lia.
Qed.

(** ** Walks along a chain *)

Lemma walk_chain {E} fuel nx f p l :
  chain nx p l -> (length l <= fuel)%nat -> @walk E fuel nx f p = Done (snd <$> find_from f l).
Proof.
  revert fuel p. induction l as [|i l IH]; intros fuel p Hc Hf; cbn in Hc, Hf.
  - subst p. by destruct fuel.
  - destruct Hc as [-> Hc]. destruct fuel as [|fuel]; [lia|]. cbn.
    destruct (f i); [done|]. rewrite (IH fuel) by (done || lia). by destruct (find_from f l) as [[? ?]|].
Qed.

Lemma walk_prev_chain {E} fuel nx f prev p l :
  chain nx p l -> (length l <= fuel)%nat ->
  @walk_prev E fuel nx f prev p =
    Done match find_from f l with
         | Some (k, i) => (if decide (k = O) then prev else l !! pred k, Some i)
         | None => (if decide (l = []) then prev else last l, None)
         end.
Proof.
  revert fuel prev p. induction l as [|i l IH]; intros fuel prev p Hc Hf; cbn in Hc, Hf.
  - subst p. by destruct fuel.
  - destruct Hc as [-> Hc]. destruct fuel as [|fuel]; [lia|]. cbn [walk_prev find_from].
    destruct (f i); [done|]. rewrite (IH fuel) by (done || lia).
    destruct (find_from f l) as [[k j]|] eqn:Hff.
    + by destruct k.
    + by destruct l.
Qed.

(** ** Doubly linked lists with head and tail *)

Record dchain (nx pv : nat -> option nat) (first lst : option nat) (l : list nat) : Prop := {
  dc_next : chain nx first l;
  dc_last : lst = last l;
  dc_prev : forall k i, l !! k = Some i -> pv i = match k with O => None | S k' => l !! k' end;
}.

Lemma dchain_ext nx nx' pv pv' first lst l :
  (forall i, i ∈ l -> nx' i = nx i /\ pv' i = pv i) ->
  dchain nx pv first lst l -> dchain nx' pv' first lst l.
Proof.
  intros He [Hn Hl Hp]. constructor; [|done|].
  - eapply chain_ext; [|exact Hn]. intros i Hi. by apply He.
  - intros k i Hi. rewrite <- (Hp k i Hi). apply He. by eapply list_elem_of_lookup_2.
Qed.

Lemma dchain_head nx pv first lst l : dchain nx pv first lst l -> first = head l.
Proof. intros [Hn _ _]. by apply chain_lookup in Hn as [? _]. Qed.
Lemma dchain_nx nx pv first lst l k i : dchain nx pv first lst l -> l !! k = Some i -> nx i = l !! S k.
Proof. intros [Hn _ _]. apply chain_lookup in Hn as [_ H]. apply H. Qed.

(** The head has no predecessor, the tail no successor, and no other cell lacks one. *)
Lemma dchain_prev_None nx pv first lst l i :
  dchain nx pv first lst l -> i ∈ l -> pv i = None -> first = Some i.
Proof.
  intros Hd [k Hk]%list_elem_of_lookup Hp. rewrite (dchain_head _ _ _ _ _ Hd).
  rewrite (dc_prev _ _ _ _ _ Hd k i Hk) in Hp. destruct k as [|k].
  - destruct l; [done|]. by injection Hk as ->.
  - apply lookup_ge_None in Hp. apply lookup_lt_Some in Hk. lia.
Qed.
Lemma dchain_next_None nx pv first lst l i :
  dchain nx pv first lst l -> i ∈ l -> nx i = None -> lst = Some i.
Proof.
  intros Hd [k Hk]%list_elem_of_lookup Hn. rewrite (dc_last _ _ _ _ _ Hd), last_lookup.
  rewrite (dchain_nx _ _ _ _ _ _ _ Hd Hk) in Hn. apply lookup_ge_None in Hn.
  pose proof (lookup_lt_Some _ _ _ Hk). rewrite <- Hk. f_equal. lia.
Qed.

Lemma dchain_snoc nx nx' pv pv' first lst l i :
  dchain nx pv first lst l -> NoDup (l ++ [i]) -> nx' i = None -> pv' i = lst ->
  (forall j, j ∈ l -> nx' j = if decide (lst = Some j) then Some i else nx j) ->
  (forall j, j ∈ l -> pv' j = pv j) ->
  dchain nx' pv' (if decide (lst = None) then Some i else first) (Some i) (l ++ [i]).
Proof.
  intros [Hn -> Hp] Hd Hi Hpi Hj Hpj. constructor.
  - pose proof (chain_snoc nx nx' first l i Hn Hd Hi Hj) as H.
    destruct l as [|x l]; cbn in *; [done|]. by rewrite last_cons in *; destruct (last l).
  - by rewrite last_snoc.
  - intros k j Hkj. destruct (decide (k < length l)%nat) as [Hlt|Hge].
    + rewrite lookup_app_l in Hkj by done. rewrite Hpj by (by eapply list_elem_of_lookup_2).
      rewrite (Hp k j Hkj). destruct k; [done|]. by rewrite lookup_app_l by lia.
    + pose proof (lookup_lt_Some _ _ _ Hkj) as Hb. rewrite length_app in Hb. cbn in Hb.
      rewrite lookup_app_r in Hkj by lia. replace (k - length l)%nat with 0%nat in Hkj by lia.
      injection Hkj as <-. rewrite Hpi, last_lookup.
      destruct k as [|k]; [destruct l; [done|cbn in Hge; lia]|]. rewrite lookup_app_l by lia. f_equal. lia.
Qed.

(** Putting a cell in front of the others. *)
Lemma dchain_cons nx nx' pv pv' first lst l i :
  dchain nx pv first lst l -> NoDup (i :: l) -> nx' i = first -> pv' i = None ->
  (forall j, j ∈ l -> nx' j = nx j) ->
  (forall j, j ∈ l -> pv' j = if decide (first = Some j) then Some i else pv j) ->
  dchain nx' pv' (Some i) (if decide (first = None) then Some i else lst) (i :: l).
Proof.
  intros Hdc [Hi Hd]%NoDup_cons Hni Hpi Hj Hpj. pose proof (dchain_head _ _ _ _ _ Hdc) as Hh.
  destruct Hdc as [Hn Hl Hp]. constructor.
  - cbn. split; [done|]. rewrite Hni. by eapply chain_ext.
  - rewrite last_cons, Hh, Hl. by destruct l as [|x l]; [|destruct (last (x :: l)) eqn:E; [|by rewrite last_None in E]].
  - intros [|k] j Hk; [by injection Hk as <-|]. cbn [lookup list_lookup] in Hk. rewrite Hpj by (by eapply list_elem_of_lookup_2).
    rewrite (Hp k j Hk), Hh. destruct k as [|k].
    + destruct l as [|x l]; [done|]. injection Hk as <-. by rewrite decide_True.
    + rewrite decide_False; [done|]. intros He. rewrite head_lookup in He.
      assert (S k = 0%nat) by (by eapply NoDup_lookup). lia.
Qed.

Lemma dchain_delete nx nx' pv pv' first lst l k i :
  dchain nx pv first lst l -> NoDup l -> l !! k = Some i ->
  (forall j, j ∈ l -> j <> i -> nx' j = if decide (pv i = Some j) then nx i else nx j) ->
  (forall j, j ∈ l -> j <> i -> pv' j = if decide (nx i = Some j) then pv i else pv j) ->
  dchain nx' pv' (if decide (pv i = None) then nx i else first)
    (if decide (nx i = None) then pv i else lst) (delete k l).
Proof.
  intros Hdc Hd Hk Hn Hp. pose proof (dc_prev _ _ _ _ _ Hdc k i Hk) as Hpi.
  pose proof (dchain_nx _ _ _ _ _ _ _ Hdc Hk) as Hni. pose proof (lookup_lt_Some _ _ _ Hk) as Hlt.
  constructor.
  - assert (Hc := chain_delete nx nx' first l k i (dc_next _ _ _ _ _ Hdc) Hd Hk).
    destruct k as [|k]; cbn in Hpi.
    + rewrite Hpi in *. rewrite decide_True by done. apply Hc. intros j Hj Hne. rewrite Hn by done.
      by rewrite !decide_False by (congruence || tauto).
    + rewrite decide_False.
      2: { rewrite Hpi. intros He. apply lookup_ge_None in He. lia. }
      apply Hc. intros j Hj Hne. rewrite Hn by done. rewrite Hpi. cbn.
      destruct (decide (l !! k = Some j)); [by rewrite decide_True by done|].
      by rewrite decide_False by tauto.
  - rewrite last_lookup, length_delete by done. rewrite (dc_last _ _ _ _ _ Hdc), last_lookup.
    case_decide as He.
    + rewrite Hni in He. apply lookup_ge_None in He. rewrite Hpi.
      destruct k as [|k]; [by rewrite lookup_ge_None_2 by (rewrite length_delete by done; lia)|].
      rewrite list_lookup_delete_lt by lia. f_equal. lia.
    + rewrite Hni in He. assert (~ (length l <= S k)%nat) by (by rewrite <- lookup_ge_None).
      rewrite list_lookup_delete_ge by lia. f_equal. lia.
  - intros m j Hm. destruct (decide (m < k)%nat) as [Hmk|Hmk].
    + rewrite list_lookup_delete_lt in Hm by done.
      assert (j <> i) by (intros ->; assert (m = k) by (by eapply NoDup_lookup); lia).
      rewrite Hp by (done || by eapply list_elem_of_lookup_2).
      rewrite decide_False.
      2: { rewrite Hni. intros He. assert (m = S k) by (by eapply NoDup_lookup). lia. }
      rewrite (dc_prev _ _ _ _ _ Hdc m j Hm). destruct m as [|m]; [done|].
      by rewrite list_lookup_delete_lt by lia.
    + rewrite list_lookup_delete_ge in Hm by lia.
      assert (j <> i) by (intros ->; assert (S m = k) by (by eapply NoDup_lookup); lia).
      rewrite Hp by (done || by eapply list_elem_of_lookup_2). rewrite Hni.
      destruct (decide (l !! S k = Some j)) as [He|He].
      * assert (m = k) by (enough (S m = S k) by lia; by eapply NoDup_lookup). subst m. rewrite Hpi.
        destruct k as [|k]; [done|]. by rewrite list_lookup_delete_lt by lia.
      * rewrite (dc_prev _ _ _ _ _ Hdc (S m) j Hm). destruct m as [|m].
        { assert (k = 0%nat) by lia. subst k. congruence. }
        assert (S m <> k) by congruence. by rewrite list_lookup_delete_ge by lia.
Qed.

Lemma elem_of_delete_NoDup (l : list nat) k i j :
  NoDup l -> l !! k = Some i -> j ∈ delete k l <-> j ∈ l /\ j <> i.
Proof.
  intros Hd Hk. rewrite <- (take_drop_middle l k i Hk) in Hd |- * at 2.
  rewrite delete_take_drop. rewrite !elem_of_app, elem_of_cons.
  apply NoDup_app in Hd as (_ & Ht & [Hi _]%NoDup_cons).
  split; [|tauto]. intros [Hj|Hj].
  - split; [tauto|]. intros ->. apply (Ht i Hj). by left.
  - split; [tauto|]. by intros ->.
Qed.
Lemma NoDup_delete (l : list nat) k : NoDup l -> NoDup (delete k l).
Proof. intros H. eapply sublist_NoDup; [exact H|apply sublist_delete]. Qed.
