(* ===== verification/Dlist.v ===== *)
(** * Cells on two doubly linked lists

    The daemon keeps its connections in cells that are never given back to the system:
    each is on the list of those in use or on the list of those free, and both lists
    run through two members of the cells.  [chilli.c] and [dhcp.c] write out the same
    four changes of these lists; they are here once, for any type of cells with links
    ([Linked], [LinkedLaws]), together with what they do to the lists ([held]). *)

From S2P Require Import Prelude Mem Chains.

Module Dlist.
Import Mem.

(** ** Cells with links *)

Class Linked (C : Type) := {
  lnext : C -> option nat;
  lprev : C -> option nat;
  set_lnext : option nat -> C -> C;
  set_lprev : option nat -> C -> C;
}.
Class LinkedLaws (C : Type) `{Linked C} := {
  lnext_set_lnext v c : lnext (set_lnext v c) = v;
  lprev_set_lnext v c : lprev (set_lnext v c) = lprev c;
  lnext_set_lprev v c : lnext (set_lprev v c) = lnext c;
  lprev_set_lprev v c : lprev (set_lprev v c) = v;
  set_lnext_twice v v' c : set_lnext v (set_lnext v' c) = set_lnext v c;
  set_lprev_twice v v' c : set_lprev v (set_lprev v' c) = set_lprev v c;
  set_lnext_self c : lnext c = None -> set_lnext None c = c;
  set_lnext_lprev v v' c : set_lnext v (set_lprev v' c) = set_lprev v' (set_lnext v c);
}.

(** The pointers to the first and the last cell of a list, and the cells with the
    ends of both lists. *)
Record ends := Ends { e_first : option nat; e_last : option nat }.
Record arena (C : Type) := Arena { cells : list C; used_ends : ends; free_ends : ends }.
Arguments Arena {C} _ _ _.
Arguments cells {C} _.
Arguments used_ends {C} _.
Arguments free_ends {C} _.

Section Operations.
Context {C : Type} `{Linked C}.

Definition set_cells (h : list C) (a : arena C) : arena C := Arena h (used_ends a) (free_ends a).
Definition set_used_ends (e : ends) (a : arena C) : arena C := Arena (cells a) e (free_ends a).
Definition set_free_ends (e : ends) (a : arena C) : arena C := Arena (cells a) (used_ends a) e.
Definition cell (a : arena C) (i : nat) : result C := access (cells a !! i).
Definition update (a : arena C) (i : nat) (f : C -> C) : result (arena C) :=
  c ← cell a i; Done (set_cells (<[i := f c]> (cells a)) a).

(** A new cell that is on no list. *)
Definition grow (c : C) (a : arena C) : arena C := set_cells (cells a ++ [c]) a.

(** "Remove from link of free", for the first one. *)
Definition pop_free (a : arena C) (i : nat) : result (arena C) :=
  c ← cell a i;
  match lnext c with
  | Some k => a ← update a k (set_lprev None); Done (set_free_ends (Ends (Some k) (e_last (free_ends a))) a)
  | None => Done (set_free_ends (Ends None None) a)
  end.
(** "Insert into link of used". *)
Definition push_used (a : arena C) (i : nat) : result (arena C) :=
  a ← match e_first (used_ends a) with
      | Some f => a ← update a f (set_lprev (Some i)); update a i (set_lnext (Some f))
      | None => Done (set_used_ends (Ends None (Some i)) a)
      end;
  Done (set_used_ends (Ends (Some i) (e_last (used_ends a))) a).
(** "Remove from link of used". *)
Definition unlink_used (a : arena C) (i : nat) : result (arena C) :=
  c ← cell a i;
  match lnext c, lprev c with
  | Some n, Some p => a ← update a n (set_lprev (Some p)); update a p (set_lnext (Some n))
  | Some n, None =>
    a ← update a n (set_lprev None); Done (set_used_ends (Ends (Some n) (e_last (used_ends a))) a)
  | None, Some p =>
    a ← update a p (set_lnext None); Done (set_used_ends (Ends (e_first (used_ends a)) (Some p)) a)
  | None, None => Done (set_used_ends (Ends None None) a)
  end.
(** "Insert into link of free". *)
Definition push_free (a : arena C) (i : nat) : result (arena C) :=
  a ← match e_first (free_ends a) with
      | Some f => update a f (set_lprev (Some i))
      | None => Done (set_free_ends (Ends None (Some i)) a)
      end;
  a ← update a i (set_lnext (e_first (free_ends a)));
  Done (set_free_ends (Ends (Some i) (e_last (free_ends a))) a).
End Operations.

(** ** Lists of cells *)

Section Lists.
Context {C : Type} `{LinkedLaws C}.
Implicit Types (h : list C) (a : arena C) (c : C).

Create HintDb links discriminated.
Create Rewrite HintDb links.

Definition nx (h : list C) (i : nat) : option nat := h !! i ≫= lnext.
Definition pv (h : list C) (i : nat) : option nat := h !! i ≫= lprev.
(** A cell but for its links. *)
Definition data (c : C) : C := set_lnext None (set_lprev None c).

Lemma data_set_lnext v c : data (set_lnext v c) = data c.
Proof. unfold data. by rewrite set_lnext_lprev, set_lnext_twice, <- set_lnext_lprev. Qed.
Lemma data_set_lprev v c : data (set_lprev v c) = data c.
Proof. unfold data. by rewrite set_lprev_twice. Qed.

(** What does not depend on links is the same where all but links is. *)
Lemma data_field {A} (g : C -> A) h h' i : data <$> h' !! i = data <$> h !! i -> (forall c, g (data c) = g c) ->
  g <$> h' !! i = g <$> h !! i.
Proof.
  intros E Hg. destruct (h' !! i) as [x|], (h !! i) as [y|]; try done. apply (inj Some) in E. cbn. by rewrite <- (Hg x), E, Hg.
Qed.

(** A doubly linked list of cells. *)
Record dl (h : list C) (e : ends) (l : list nat) : Prop := {
  dl_chain : dchain (nx h) (pv h) (e_first e) (e_last e) l;
  dl_nodup : NoDup l;
  dl_bound : forall i, i ∈ l -> (i < length h)%nat;
}.
Lemma dl_head h e l : dl h e l -> e_first e = head l.
Proof. intros [Hc _ _]. by eapply dchain_head. Qed.
Lemma dl_first h e l i : dl h e l -> e_first e = Some i -> i ∈ l /\ (i < length h)%nat.
Proof.
  intros Hd Hf. rewrite (dl_head _ _ _ Hd) in Hf. destruct l as [|x l]; [done|]. injection Hf as ->.
  assert (i ∈ i :: l) by (by left). split; [done|]. by apply (dl_bound _ _ _ Hd).
Qed.

Lemma alter_insert f i h c : h !! i = Some c -> <[i := f c]> h = alter f i h.
Proof.
  intros Hc. apply list_eq. intros j. destruct (decide (i = j)) as [<-|].
  - rewrite list_lookup_alter_eq, list_lookup_insert_eq by (by eapply lookup_lt_Some). by rewrite Hc.
  - by rewrite list_lookup_alter_ne, list_lookup_insert_ne by done.
Qed.
Lemma cell_ok a i c : cells a !! i = Some c -> cell a i = Done c.
Proof. unfold cell. by intros ->. Qed.
Lemma update_ok a i f : (i < length (cells a))%nat -> update a i f = Done (set_cells (alter f i (cells a)) a).
Proof. intros [c Hc]%lookup_lt_is_Some. unfold update. rewrite (cell_ok _ _ _ Hc). obind. by rewrite (alter_insert f i _ c). Qed.

Lemma nx_alter f i h j : nx (alter f i h) j = if decide (i = j) then h !! j ≫= (fun c => lnext (f c)) else nx h j.
Proof.
  unfold nx. case_decide as E; [subst j; rewrite list_lookup_alter_eq; by destruct (h !! i)|by rewrite list_lookup_alter_ne].
Qed.
Lemma pv_alter f i h j : pv (alter f i h) j = if decide (i = j) then h !! j ≫= (fun c => lprev (f c)) else pv h j.
Proof.
  unfold pv. case_decide as E; [subst j; rewrite list_lookup_alter_eq; by destruct (h !! i)|by rewrite list_lookup_alter_ne].
Qed.
Lemma nx_alter_keep f i h j : (forall c, lnext (f c) = lnext c) -> nx (alter f i h) j = nx h j.
Proof. intros Hf. rewrite nx_alter. case_decide; [|done]. subst j. unfold nx. destruct (h !! i); [apply Hf|done]. Qed.
Lemma pv_alter_keep f i h j : (forall c, lprev (f c) = lprev c) -> pv (alter f i h) j = pv h j.
Proof. intros Hf. rewrite pv_alter. case_decide; [|done]. subst j. unfold pv. destruct (h !! i); [apply Hf|done]. Qed.
Lemma cell_nx_set_lprev v i h j : nx (alter (set_lprev v) i h) j = nx h j.
Proof. apply nx_alter_keep, lnext_set_lprev. Qed.
Lemma cell_pv_set_lnext v i h j : pv (alter (set_lnext v) i h) j = pv h j.
Proof. apply pv_alter_keep, lprev_set_lnext. Qed.
Lemma cell_nx_set_lnext v i h j : (i < length h)%nat -> nx (alter (set_lnext v) i h) j = if decide (i = j) then v else nx h j.
Proof. intros [c Hc]%lookup_lt_is_Some. rewrite nx_alter. case_decide; [|done]. subst j. rewrite Hc. apply lnext_set_lnext. Qed.
Lemma cell_pv_set_lprev v i h j : (i < length h)%nat -> pv (alter (set_lprev v) i h) j = if decide (i = j) then v else pv h j.
Proof. intros [c Hc]%lookup_lt_is_Some. rewrite pv_alter. case_decide; [|done]. subst j. rewrite Hc. apply lprev_set_lprev. Qed.
#[local] Hint Rewrite cell_nx_set_lprev cell_pv_set_lnext : links.

(** Changes that only concern links and, at [skip], more. *)
Definition relinked (skip : list nat) (h h' : list C) : Prop :=
  length h' = length h /\ forall j, j ∉ skip -> data <$> h' !! j = data <$> h !! j.
Lemma relinked_refl skip h : relinked skip h h.
Proof. done. Qed.
Lemma relinked_trans skip h h1 h2 : relinked skip h h1 -> relinked skip h1 h2 -> relinked skip h h2.
Proof. intros [H1 H2] [H3 H4]. split; [congruence|]. intros j Hj. rewrite H4, H2 by done. done. Qed.
Lemma relinked_weaken skip h h' : relinked [] h h' -> relinked skip h h'.
Proof. intros [H1 H2]. split; [done|]. intros j _. apply H2. by intros ?%elem_of_nil. Qed.
Lemma relinked_data f i h : (forall c, data (f c) = data c) -> relinked [] h (alter f i h).
Proof.
  intros Hf. split; [apply length_alter|]. intros j _. destruct (decide (i = j)) as [<-|]; [|by rewrite list_lookup_alter_ne].
  rewrite list_lookup_alter_eq. destruct (h !! i); [|done]. cbn. by rewrite Hf.
Qed.
Lemma relinked_prev v i h : relinked [] h (alter (set_lprev v) i h).
Proof. apply relinked_data, data_set_lprev. Qed.
Lemma relinked_next v i h : relinked [] h (alter (set_lnext v) i h).
Proof. apply relinked_data, data_set_lnext. Qed.
Lemma relinked_at f i h : relinked [i] h (alter f i h).
Proof. split; [apply length_alter|]. intros j Hj. rewrite list_lookup_alter_ne; [done|]. intros ->. apply Hj. by left. Qed.
Lemma relinked_back skip h h' j c' : relinked skip h h' -> j ∉ skip -> h' !! j = Some c' ->
  exists c, h !! j = Some c /\ data c' = data c.
Proof.
  intros [_ Hr] Hj Hc. specialize (Hr j Hj). rewrite Hc in Hr. destruct (h !! j) as [c|]; [|done]. exists c. split; [done|].
  by apply (inj Some) in Hr.
Qed.
Lemma relinked_fwd skip h h' j c : relinked skip h h' -> j ∉ skip -> h !! j = Some c ->
  exists c', h' !! j = Some c' /\ data c' = data c.
Proof.
  intros [_ Hr] Hj Hc. specialize (Hr j Hj). rewrite Hc in Hr. destruct (h' !! j) as [c'|]; [|done]. exists c'. split; [done|].
  by apply (inj Some) in Hr.
Qed.
#[local] Hint Resolve relinked_refl relinked_prev relinked_next relinked_at relinked_weaken : links.

(** A list does not see changes of cells outside it. *)
Lemma dl_frame h h' e l :
  dl h e l -> length h = length h' -> (forall j, j ∈ l -> nx h' j = nx h j /\ pv h' j = pv h j) -> dl h' e l.
Proof.
  intros [Hc Hn Hb] Hlen He. constructor; [|done|by rewrite <- Hlen]. eapply dchain_ext; [|exact Hc]. done.
Qed.
Lemma dl_grow h c e l : dl h e l -> dl (h ++ [c]) e l.
Proof.
  intros [Hc Hn Hb]. constructor; [|done|intros i Hi; rewrite length_app; apply Hb in Hi; lia].
  eapply dchain_ext; [|exact Hc]. intros i Hi%Hb. unfold nx, pv. by rewrite lookup_app_l.
Qed.
Lemma dl_nil h : dl h (Ends None None) [].
Proof. constructor; [by constructor|constructor|by intros i ?%elem_of_nil]. Qed.

(** *** Putting a cell in front *)

Definition push_heap (first : option nat) (i : nat) (h : list C) : list C :=
  alter (set_lnext first) i (match first with Some f => alter (set_lprev (Some i)) f h | None => h end).
Definition push_ends (e : ends) (i : nat) : ends := Ends (Some i) (if decide (e_first e = None) then Some i else e_last e).
Lemma push_ok h e l i :
  dl h e l -> i ∉ l -> (i < length h)%nat -> pv h i = None ->
  dl (push_heap (e_first e) i h) (push_ends e i) (i :: l) /\
  relinked [] h (push_heap (e_first e) i h) /\
  forall j, j ∉ i :: l -> nx (push_heap (e_first e) i h) j = nx h j /\ pv (push_heap (e_first e) i h) j = pv h j.
Proof.
  intros Hd Hi Hlt Hp. pose proof Hd as [Hc Hn Hb]. unfold push_heap. set (first := e_first e) in *.
  set (h1 := match first with Some f => _ | None => h end).
  assert (Hlen : length h1 = length h) by (unfold h1; destruct first; by rewrite ?length_alter).
  assert (Hf : forall f, first = Some f -> f ∈ l /\ (f < length h)%nat /\ f <> i).
  { intros f Hf. destruct (dl_first _ _ _ _ Hd Hf). split; [done|]. split; [done|]. by intros ->. }
  assert (Hnx1 : forall j, nx h1 j = nx h j) by (intros j; unfold h1; destruct first; by autorewrite with links).
  assert (Hpv1 : forall j, pv h1 j = if decide (first = Some j) then Some i else pv h j).
  { intros j. unfold h1. destruct first as [f|]; [|done]. rewrite cell_pv_set_lprev by (by apply Hf).
    destruct (decide (f = j)) as [->|Hne]; [by rewrite decide_True|]. rewrite decide_False by congruence. done. }
  assert (Hnx : forall j, nx (alter (set_lnext first) i h1) j = if decide (i = j) then first else nx h j)
    by (intros j; rewrite cell_nx_set_lnext, Hnx1 by lia; done).
  assert (Hpv : forall j, pv (alter (set_lnext first) i h1) j = if decide (first = Some j) then Some i else pv h j)
    by (intros j; by rewrite cell_pv_set_lnext, Hpv1).
  split; [|split].
  - constructor; cbn [e_first e_last push_ends].
    + eapply dchain_cons; [exact Hc|by constructor| | | |].
      * by rewrite Hnx, decide_True.
      * rewrite Hpv, decide_False; [done|]. intros He. by destruct (Hf i He) as (_ & _ & ?).
      * intros j Hj. rewrite Hnx, decide_False; [done|]. by intros ->.
      * intros j Hj. by rewrite Hpv.
    + by constructor.
    + rewrite length_alter, Hlen. intros j [->|Hj]%elem_of_cons; [done|by apply Hb].
  - eapply relinked_trans; [|apply relinked_next]. unfold h1. destruct first; auto with links.
  - intros j Hj. rewrite Hnx, Hpv. rewrite !decide_False; [done| |].
    + intros He. apply Hj. right. by apply Hf.
    + intros ->. apply Hj. by left.
Qed.

(** *** Taking a cell out *)

Definition unlink_heap (c : C) (h : list C) : list C :=
  let h1 := match lnext c with Some n => alter (set_lprev (lprev c)) n h | None => h end in
  match lprev c with Some p => alter (set_lnext (lnext c)) p h1 | None => h1 end.
Definition unlink_ends (c : C) (e : ends) : ends :=
  Ends (if decide (lprev c = None) then lnext c else e_first e) (if decide (lnext c = None) then lprev c else e_last e).
Lemma cell_unlink_ok h e l k i c :
  dl h e l -> l !! k = Some i -> h !! i = Some c ->
  dl (unlink_heap c h) (unlink_ends c e) (delete k l) /\
  relinked [] h (unlink_heap c h) /\
  (forall j, j ∉ l -> nx (unlink_heap c h) j = nx h j /\ pv (unlink_heap c h) j = pv h j) /\
  (forall n, lnext c = Some n -> (n < length h)%nat) /\ (forall p, lprev c = Some p -> (p < length h)%nat).
Proof.
  intros [Hc Hn Hb] Hk Hi. assert (Hnxi : nx h i = lnext c) by (unfold nx; by rewrite Hi).
  assert (Hpvi : pv h i = lprev c) by (unfold pv; by rewrite Hi).
  assert (Hnl : forall n, lnext c = Some n -> n ∈ l).
  { intros n Hnn. rewrite <- Hnxi, (dchain_nx _ _ _ _ _ _ _ Hc Hk) in Hnn. by eapply list_elem_of_lookup_2. }
  assert (Hpl : forall p, lprev c = Some p -> p ∈ l).
  { intros p Hp. rewrite <- Hpvi, (dc_prev _ _ _ _ _ Hc k i Hk) in Hp. destruct k; [done|]. by eapply list_elem_of_lookup_2. }
  unfold unlink_heap. set (h1 := match lnext c with Some n => _ | None => h end).
  assert (Hlen1 : length h1 = length h) by (unfold h1; destruct (lnext c); by rewrite ?length_alter).
  assert (Hnx1 : forall j, nx h1 j = nx h j) by (intros j; unfold h1; destruct (lnext c); by autorewrite with links).
  assert (Hpv1 : forall j, pv h1 j = if decide (lnext c = Some j) then lprev c else pv h j).
  { intros j. unfold h1. destruct (lnext c) as [n|] eqn:En; [|done]. rewrite cell_pv_set_lprev by (apply Hb, Hnl; done).
    destruct (decide (n = j)) as [->|]; [by rewrite decide_True|]. by rewrite decide_False by congruence. }
  set (h2 := match lprev c with Some p => _ | None => h1 end).
  assert (Hlen2 : length h2 = length h) by (unfold h2; destruct (lprev c); by rewrite ?length_alter).
  assert (Hpv2 : forall j, pv h2 j = if decide (lnext c = Some j) then lprev c else pv h j)
    by (intros j; rewrite <- Hpv1; unfold h2; destruct (lprev c); by autorewrite with links).
  assert (Hnx2 : forall j, nx h2 j = if decide (lprev c = Some j) then lnext c else nx h j).
  { intros j. rewrite <- Hnx1. unfold h2. destruct (lprev c) as [p|] eqn:Ep; [|done].
    rewrite cell_nx_set_lnext by (rewrite Hlen1; apply Hb, Hpl; done).
    destruct (decide (p = j)) as [->|]; [by rewrite decide_True|]. by rewrite decide_False by congruence. }
  split; [constructor|split; [|split; [|split; intros; apply Hb; auto]]]; cbn [e_first e_last unlink_ends].
  - pose proof (dchain_delete (nx h) (nx h2) (pv h) (pv h2) _ _ l k i Hc Hn Hk) as Hd. rewrite Hnxi, Hpvi in Hd.
    apply Hd; intros j Hj Hne; [apply Hnx2|apply Hpv2].
  - by apply NoDup_delete.
  - rewrite Hlen2. intros j Hj. apply (elem_of_delete_NoDup l k i j Hn Hk) in Hj as [Hj _]. by apply Hb.
  - eapply relinked_trans with (h1 := h1).
    + unfold h1. destruct (lnext c); auto with links.
    + unfold h2. destruct (lprev c); auto with links.
  - intros j Hj. rewrite Hnx2, Hpv2. rewrite !decide_False; [done| |].
    + intros He. by apply Hj, Hnl.
    + intros He. by apply Hj, Hpl.
Qed.

(** *** All cells *)

(** The cells in use, in their order, those free, and those on neither list. *)
Record held (a : arena C) (used free out : list nat) : Prop := {
  he_used : dl (cells a) (used_ends a) used;
  he_free : dl (cells a) (free_ends a) free;
  he_all : used ++ free ++ out ≡ₚ seq 0 (length (cells a));
}.

Lemma held_nodup a u f x : held a u f x -> NoDup (u ++ f ++ x).
Proof. intros [_ _ Hp]. rewrite Hp. apply NoDup_seq. Qed.
Lemma held_elem a u f x i : held a u f x -> i ∈ u \/ i ∈ f \/ i ∈ x <-> (i < length (cells a))%nat.
Proof. intros [_ _ Hp]. rewrite <- !elem_of_app, Hp, elem_of_seq. lia. Qed.
Lemma held_length a u f x : held a u f x -> (length u + length f + length x)%nat = length (cells a).
Proof. intros [_ _ Hp]. apply Permutation_length in Hp. rewrite !length_app, length_seq in Hp. lia. Qed.
Lemma held_cell a u f x i : held a u f x -> i ∈ u \/ i ∈ f \/ i ∈ x -> exists c, cells a !! i = Some c.
Proof. intros Hh Hi. apply lookup_lt_is_Some. by apply (held_elem _ _ _ _ _ Hh). Qed.
Lemma held_out a u f i : held a u f [i] -> (i ∉ u) /\ (i ∉ f) /\ (i < length (cells a))%nat.
Proof.
  intros Hh. pose proof (held_nodup _ _ _ _ Hh) as (_ & Hu & (_ & Hf & _)%NoDup_app)%NoDup_app.
  split; [intros H1; apply (Hu i H1); rewrite elem_of_app; right; by left|].
  split; [intros H1; apply (Hf i H1); by left|]. apply (held_elem _ _ _ _ _ Hh). right. right. by left.
Qed.
Lemma held_disjoint a u f x i : held a u f x -> i ∈ u -> i ∉ f.
Proof.
  intros Hh Hu Hf. pose proof (held_nodup _ _ _ _ Hh) as (_ & H1 & _)%NoDup_app. apply (H1 i Hu). apply elem_of_app. by left.
Qed.
Lemma held_nil : held (Arena [] (Ends None None) (Ends None None)) [] [] [].
Proof. constructor; [apply dl_nil..|done]. Qed.

(** Cells outside the lists can be changed, and so can anything but the links. *)
Lemma held_reset a u f i g : held a u f [i] -> held (set_cells (alter g i (cells a)) a) u f [i].
Proof.
  intros Hh. pose proof (held_out _ _ _ _ Hh) as (Hu & Hf & _). destruct Hh as [H1 H2 H3].
  assert (Hout : forall j, j <> i -> nx (alter g i (cells a)) j = nx (cells a) j /\ pv (alter g i (cells a)) j = pv (cells a) j).
  { intros j Hj. unfold nx, pv. by rewrite list_lookup_alter_ne by done. }
  constructor; cbn [cells used_ends free_ends set_cells]; rewrite ?length_alter; [| |done];
    (eapply dl_frame; [eassumption|by rewrite length_alter|]); intros j Hj; apply Hout; by intros ->.
Qed.
Lemma held_same a a' u f x : held a u f x -> used_ends a' = used_ends a -> free_ends a' = free_ends a ->
  length (cells a') = length (cells a) -> (forall j, nx (cells a') j = nx (cells a) j /\ pv (cells a') j = pv (cells a) j) ->
  held a' u f x.
Proof.
  intros [H1 H2 H3] Hu Hf Hl He. constructor; [rewrite Hu|rewrite Hf|by rewrite Hl]; (eapply dl_frame; [eassumption|done|]); auto.
Qed.
Lemma held_alter a u f x g i : held a u f x -> (forall c, lnext (g c) = lnext c) -> (forall c, lprev (g c) = lprev c) ->
  held (set_cells (alter g i (cells a)) a) u f x.
Proof.
  intros Hh Hn Hp. eapply held_same; [exact Hh|done|done|apply length_alter|]. intros j. cbn [cells set_cells].
  by rewrite nx_alter_keep, pv_alter_keep.
Qed.
Lemma held_grow a u f c : held a u f [] -> held (grow c a) u f [length (cells a)].
Proof.
  intros [H1 H2 H3]. constructor; cbn [cells used_ends free_ends grow set_cells]; [by apply dl_grow..|].
  rewrite length_app. cbn [length]. rewrite seq_app, <- H3, app_nil_r, app_assoc. done.
Qed.

(** *** The four changes *)

Lemma pop_free_ok a u f i : held a u (i :: f) [] ->
  exists a', pop_free a i = Done a' /\ held a' u f [i] /\ relinked [] (cells a) (cells a').
Proof.
  intros Hh. pose proof Hh as [Hu Hf Ha]. destruct (held_cell _ _ _ _ i Hh) as [c Hc]; [right; left; by left|].
  destruct (cell_unlink_ok _ _ _ 0 i c Hf eq_refl Hc) as (Hf1 & Hrel & Hout & Hn & _).
  assert (Hp : lprev c = None).
  { pose proof (dc_prev _ _ _ _ _ (dl_chain _ _ _ Hf) 0%nat i eq_refl) as Hp. unfold pv in Hp. by rewrite Hc in Hp. }
  unfold pop_free. rewrite (cell_ok _ _ _ Hc). obind. unfold unlink_heap, unlink_ends in *. rewrite Hp in *.
  rewrite decide_True in Hf1 by done. cbn [delete list_delete] in Hf1.
  set (h := match lnext c with Some n => _ | None => _ end) in *. set (e := Ends (lnext c) _) in *.
  exists (set_free_ends e (set_cells h a)). split; [|split; [|done]].
  - unfold h, e. destruct (lnext c) as [k|] eqn:En; [|by destruct a]. rewrite update_ok by (by apply Hn). by destruct a.
  - constructor; cbn [cells used_ends free_ends set_free_ends set_cells].
    + eapply dl_frame; [exact Hu|symmetry; apply Hrel|]. intros j Hj. apply Hout. by apply (held_disjoint _ _ _ _ _ Hh).
    + exact Hf1.
    + destruct Hrel as [-> _]. rewrite <- Ha, app_nil_r. f_equiv. by rewrite <- Permutation_cons_append.
Qed.

Lemma push_used_ok a u f i c : held a u f [i] -> cells a !! i = Some c -> lnext c = None -> lprev c = None ->
  exists a', push_used a i = Done a' /\ held a' (i :: u) f [] /\ relinked [] (cells a) (cells a').
Proof.
  intros Hh Hc Hn Hp. pose proof (held_out _ _ _ _ Hh) as (Hiu & Hif & Hlt). pose proof Hh as [Hu Hf Ha].
  destruct (push_ok _ _ _ i Hu Hiu Hlt) as (Hu1 & Hrel & Hout); [unfold pv; by rewrite Hc|].
  exists (set_used_ends (push_ends (used_ends a) i) (set_cells (push_heap (e_first (used_ends a)) i (cells a)) a)).
  split; [|split; [|done]].
  - unfold push_used, push_heap, push_ends. destruct (e_first (used_ends a)) as [k|] eqn:Ek.
    + destruct (dl_first _ _ _ _ Hu Ek) as [_ Hk]. rewrite update_ok by done. obind.
      rewrite update_ok by (cbn; by rewrite length_alter). by destruct a.
    + obind. assert (E : alter (set_lnext None) i (cells a) = cells a).
      { apply list_eq. intros j. destruct (decide (i = j)) as [<-|]; [|by rewrite list_lookup_alter_ne].
        rewrite list_lookup_alter_eq, Hc. cbn. by rewrite set_lnext_self. }
      rewrite E. by destruct a.
  - constructor; cbn [cells used_ends free_ends set_used_ends set_cells].
    + exact Hu1.
    + eapply dl_frame; [exact Hf|symmetry; apply Hrel|]. intros j Hj. apply Hout. intros [->|H1]%elem_of_cons; [done|].
      by apply (held_disjoint _ _ _ _ _ Hh) in H1.
    + destruct Hrel as [-> _]. rewrite <- Ha, app_nil_r. cbn. rewrite app_assoc. apply Permutation_cons_append.
Qed.

Lemma unlink_used_ok a u f k i : held a u f [] -> u !! k = Some i ->
  exists a', unlink_used a i = Done a' /\ held a' (delete k u) f [i] /\ relinked [] (cells a) (cells a').
Proof.
  intros Hh Hk. pose proof Hh as [Hu Hf Ha]. assert (Hiu : i ∈ u) by (by eapply list_elem_of_lookup_2).
  destruct (held_cell _ _ _ _ i Hh) as [c Hc]; [by left|].
  destruct (cell_unlink_ok _ _ _ k i c Hu Hk Hc) as (Hu1 & Hrel & Hout & Hn & Hp).
  exists (set_used_ends (unlink_ends c (used_ends a)) (set_cells (unlink_heap c (cells a)) a)). split; [|split; [|done]].
  - unfold unlink_used. rewrite (cell_ok _ _ _ Hc). obind. unfold unlink_heap, unlink_ends.
    destruct (lnext c) as [n|] eqn:En, (lprev c) as [p|] eqn:Ep; cbn [decide].
    all: try (rewrite update_ok by auto; obind). all: try (rewrite update_ok by (cbn; rewrite length_alter; auto)).
    all: by destruct a as [h [uf ul] fe].
  - constructor; cbn [cells used_ends free_ends set_used_ends set_cells].
    + exact Hu1.
    + eapply dl_frame; [exact Hf|symmetry; apply Hrel|]. intros j Hj. apply Hout. intros H1. by apply (held_disjoint _ _ _ _ _ Hh) in H1.
    + destruct Hrel as [-> _]. rewrite <- Ha, app_nil_r. rewrite (delete_Permutation u k i Hk) at 2. cbn.
      rewrite app_assoc. symmetry. apply Permutation_cons_append.
Qed.

Lemma push_free_ok a u f i c : held a u f [i] -> cells a !! i = Some c -> lprev c = None ->
  exists a', push_free a i = Done a' /\ held a' u (i :: f) [] /\ relinked [] (cells a) (cells a').
Proof.
  intros Hh Hc Hp. pose proof (held_out _ _ _ _ Hh) as (Hiu & Hif & Hlt). pose proof Hh as [Hu Hf Ha].
  destruct (push_ok _ _ _ i Hf Hif Hlt) as (Hf1 & Hrel & Hout); [unfold pv; by rewrite Hc|].
  exists (set_free_ends (push_ends (free_ends a) i) (set_cells (push_heap (e_first (free_ends a)) i (cells a)) a)).
  split; [|split; [|done]].
  - unfold push_free, push_heap, push_ends. destruct (e_first (free_ends a)) as [k|] eqn:Ek.
    + destruct (dl_first _ _ _ _ Hf Ek) as [_ Hk]. rewrite update_ok by done. obind. cbn [free_ends set_cells]. rewrite Ek.
      rewrite update_ok by (cbn; by rewrite length_alter). by destruct a.
    + obind. cbn [free_ends set_free_ends e_first]. rewrite update_ok by done. by destruct a.
  - constructor; cbn [cells used_ends free_ends set_free_ends set_cells].
    + eapply dl_frame; [exact Hu|symmetry; apply Hrel|]. intros j Hj. apply Hout. intros [->|H1]%elem_of_cons; [done|].
      by apply (held_disjoint _ _ _ _ _ Hh) in H1.
    + exact Hf1.
    + destruct Hrel as [-> _]. rewrite <- Ha, app_nil_r. f_equiv. apply Permutation_cons_append.
Qed.
End Lists.
End Dlist.
