(* ===== verification/Rbcfg.v ===== *)
(** * RouterBOOT configuration utility ([package/boot/rbcfg/src/main.c])

    The [soft_config] block is a magic word, a CRC and a list of tags, all
    big-endian; [rbcfg] reads it from the flash partition, or from the staging
    file that an earlier [rbcfg set] left, changes one 32-bit tag and writes it
    back.  The block is the byte list [buf]; offsets into it are the pointers of
    the source, an access outside it is a [Fault].  Files are a map from names to
    contents; the kernel's freedom (permissions, short transfers) is a [sys]
    argument.  Diagnostics on stderr are not modelled. *)

From S2P Require Import Prelude CLib Crc.

Module Rbcfg.

(** ** Constants (rbcfg.h) and errors *)

Definition RB_MAGIC_SOFT : Z := 0x74666f53.
Definition RB_ID_TERMINATOR : Z := 0.
Definition RB_ID_UART_SPEED : Z := 1.
Definition RB_ID_BOOT_DELAY : Z := 2.
Definition RB_ID_BOOT_DEVICE : Z := 3.
Definition RB_ID_BOOT_KEY : Z := 4.
Definition RB_ID_CPU_MODE : Z := 5.
Definition RB_ID_BOOT_PROTOCOL : Z := 9.
Definition RB_ID_BOOTER : Z := 13.

Inductive rb_err := RB_ERR_NOTFOUND | RB_ERR_INVALID | RB_ERR_NOMEM | RB_ERR_IO.
#[export] Instance rb_err_eq_dec : EqDecision rb_err.
Proof. solve_decision. Defined.
Definition rb_code (e : rb_err) : Z :=
  match e with
  | RB_ERR_NOTFOUND => 1 | RB_ERR_INVALID => 2 | RB_ERR_NOMEM => 3 | RB_ERR_IO => 4
  end.

Definition RBCFG_TMP_FILE : bytes := str "/tmp/.rbcfg".
Definition RBCFG_MTD_NAME : bytes := str "soft_config".

(** ** Data *)

Record rbcfg_ctx := Ctx {
  mtd_device : bytes;
  tmp_file : bytes;
  buf : bytes;
  buflen : Z;
}.
Definition set_buf (c : rbcfg_ctx) (b : bytes) : rbcfg_ctx :=
  Ctx (mtd_device c) (tmp_file c) b (buflen c).

(** The [desc] field only feeds the usage text and is left out. *)
Record rbcfg_value := Value { v_name : bytes; v_u32 : Z }.
(** Every entry of the table has type [RBCFG_ENV_TYPE_U32]. *)
Definition RBCFG_ENV_TYPE_U32 : Z := 0.
Record rbcfg_env := Env { e_name : bytes; e_id : Z; e_type : Z; e_values : list rbcfg_value }.

Definition CFG_U32 (name : string) (val : Z) : rbcfg_value := Value (str name) val.

Definition rbcfg_boot_delay : list rbcfg_value :=
  [CFG_U32 "1" 1; CFG_U32 "2" 2; CFG_U32 "3" 3; CFG_U32 "4" 4; CFG_U32 "5" 5;
   CFG_U32 "6" 6; CFG_U32 "7" 7; CFG_U32 "8" 8; CFG_U32 "9" 9].
Definition rbcfg_boot_device : list rbcfg_value :=
  [CFG_U32 "eth" 0; CFG_U32 "nandeth" 1; CFG_U32 "ethnand" 3; CFG_U32 "nand" 5].
Definition rbcfg_boot_key : list rbcfg_value := [CFG_U32 "any" 0; CFG_U32 "del" 1].
Definition rbcfg_boot_protocol : list rbcfg_value := [CFG_U32 "bootp" 0; CFG_U32 "dhcp" 1].
Definition rbcfg_uart_speed : list rbcfg_value :=
  [CFG_U32 "115200" 0; CFG_U32 "57600" 1; CFG_U32 "38400" 2; CFG_U32 "19200" 3;
   CFG_U32 "9600" 4; CFG_U32 "4800" 5; CFG_U32 "2400" 6; CFG_U32 "1200" 7; CFG_U32 "off" 8].
Definition rbcfg_cpu_mode : list rbcfg_value := [CFG_U32 "powersave" 0; CFG_U32 "regular" 1].
Definition rbcfg_booter : list rbcfg_value := [CFG_U32 "regular" 0; CFG_U32 "backup" 1].

Definition rbcfg_envs : list rbcfg_env :=
  [Env (str "boot_delay") RB_ID_BOOT_DELAY RBCFG_ENV_TYPE_U32 rbcfg_boot_delay;
   Env (str "boot_device") RB_ID_BOOT_DEVICE RBCFG_ENV_TYPE_U32 rbcfg_boot_device;
   Env (str "boot_key") RB_ID_BOOT_KEY RBCFG_ENV_TYPE_U32 rbcfg_boot_key;
   Env (str "boot_protocol") RB_ID_BOOT_PROTOCOL RBCFG_ENV_TYPE_U32 rbcfg_boot_protocol;
   Env (str "booter") RB_ID_BOOTER RBCFG_ENV_TYPE_U32 rbcfg_booter;
   Env (str "cpu_mode") RB_ID_CPU_MODE RBCFG_ENV_TYPE_U32 rbcfg_cpu_mode;
   Env (str "uart_speed") RB_ID_UART_SPEED RBCFG_ENV_TYPE_U32 rbcfg_uart_speed].

(** ** Accessors of big-endian fields *)

Definition get_u16 {E} (b : bytes) (off : nat) : outcome E Z :=
  p1 ← access (b !! (off + 1)%nat);
  p0 ← access (b !! off);
  Done (u16 (p1 + (p0 <<ᵤ 8))).

Definition get_u32 {E} (b : bytes) (off : nat) : outcome E Z :=
  p3 ← access (b !! (off + 3)%nat);
  p2 ← access (b !! (off + 2)%nat);
  p1 ← access (b !! (off + 1)%nat);
  p0 ← access (b !! off);
  Done (u32 (p3 + (p2 <<ᵤ 8) + (p1 <<ᵤ 16) + (p0 <<ᵤ 24))).

Definition put_u32 {E} (b : bytes) (off : nat) (val : Z) : outcome E bytes :=
  access (splice off
    [(val >>ᵤ 24) &ᵤ 0xff; (val >>ᵤ 16) &ᵤ 0xff; (val >>ᵤ 8) &ᵤ 0xff; val &ᵤ 0xff] b).

(** ** Tag search *)

(** The loop of [rbcfg_find_tag]: [off] is the pointer [buf], [buflen] the
    unsigned count of bytes left, the fuel bounds the iterations (each moves at
    least four bytes on). *)
Fixpoint rbcfg_find_tag_loop (fuel : nat) (b : bytes) (off : nat) (buflen : Z) (tag_id : Z)
    : outcome rb_err (Z * nat) :=
  match fuel with
  | O => Fault
  | S f =>
    if 2 <? buflen then
      len ← get_u16 b off;
      let off := (off + 2)%nat in
      let buflen := buflen -₃₂ 2 in
      if buflen <? 2 then Fail RB_ERR_NOTFOUND
      else
        id ← get_u16 b off;
        let off := (off + 2)%nat in
        let buflen := buflen -₃₂ 2 in
        if id =? RB_ID_TERMINATOR then Fail RB_ERR_NOTFOUND
        else if buflen <? len then Fail RB_ERR_NOTFOUND
        else if id =? tag_id then Done (len, off)
        else rbcfg_find_tag_loop f b (off + Z.to_nat len) (buflen -₃₂ len) tag_id
    else Fail RB_ERR_NOTFOUND
  end.

(** [*tag_len] and the offset of [*tag_data]; magic and CRC are skipped. *)
Definition rbcfg_find_tag (c : rbcfg_ctx) (tag_id : Z) : outcome rb_err (Z * nat) :=
  rbcfg_find_tag_loop (S (length (buf c))) (buf c) 8 (buflen c -₃₂ 8) tag_id.

Definition rbcfg_get_u32 (c : rbcfg_ctx) (id : Z) : outcome rb_err Z :=
  '(_, tag_data) ← rbcfg_find_tag c id;
  get_u32 (buf c) tag_data.

Definition rbcfg_set_u32 (c : rbcfg_ctx) (id val : Z) : outcome rb_err rbcfg_ctx :=
  '(_, tag_data) ← rbcfg_find_tag c id;
  b ← put_u32 (buf c) tag_data val;
  Done (set_buf c b).

(** ** Files *)

Definition S_IFREG : Z := 0x8000.
Definition S_IFBLK : Z := 0x6000.

Record file := File { st_mode : Z; content : bytes }.
(** What [rbcfg] can see: the files by name, the lines of [/proc/mtd] when it can
    be opened, the text written to stdout. *)
Record world := World {
  files : gmap bytes file;
  proc_mtd : option (list bytes);
  stdout : bytes;
}.
(** The choices of the kernel and of malloc: which names open for reading and for
    writing, the most bytes one [read] or [write] transfers (negative: an error),
    the mode of a file [open] creates. *)
Record sys := Sys {
  may_read : bytes -> bool;
  may_write : bytes -> bool;
  rd_limit : bytes -> Z;
  wr_limit : bytes -> Z;
  new_perm : Z;
  malloc_ok : bool;
}.

(** [read (fd, dst, n)] on a file just opened: what it returns and what [dst]
    (of at least [n] bytes) holds after it. *)
Definition sys_read (s : sys) (name : bytes) (f : file) (n : Z) (dst : bytes) : Z * bytes :=
  if rd_limit s name <? 0 then (-1, dst)
  else
    let r := Z.min n (Z.min (rd_limit s name) (Z.of_nat (length (content f)))) in
    (r, take (Z.to_nat r) (content f) ++ drop (Z.to_nat r) dst).

(** [open (name, O_WRONLY | O_CREAT)] creates a missing file and keeps the
    contents of an existing one. *)
Definition sys_open_w (s : sys) (w : world) (name : bytes) : option file :=
  if may_write s name
  then Some (default (File (Z.lor S_IFREG (Z.land (new_perm s) 0xfff)) []) (files w !! name))
  else None.

(** [write (fd, src, n)] at the start of the file. *)
Definition sys_write (s : sys) (name : bytes) (f : file) (src : bytes) (n : Z) : Z * file :=
  if wr_limit s name <? 0 then (-1, f)
  else
    let r := Z.min n (wr_limit s name) in
    (r, File (st_mode f) (take (Z.to_nat r) src ++ drop (Z.to_nat r) (content f))).

Definition put_file (w : world) (name : bytes) (f : file) : world :=
  World (<[name := f]> (files w)) (proc_mtd w) (stdout w).
Definition print (w : world) (s : bytes) : world :=
  World (files w) (proc_mtd w) (stdout w ++ s).

(** ** Finding, loading and writing the block *)

(** The lines of /proc/mtd are scanned for one that contains [name]; the first
    such line decides.  [fgets] returns whole lines: none is longer than
    PATH_MAX.  The result is the device name and [*erase_size]. *)
Fixpoint rbcfg_find_mtd_lines (w : world) (lines : list bytes) (name : bytes)
    : option (bytes * Z) :=
  match lines with
  | [] => None
  | dev :: lines' =>
    if strstr dev name then
      match sscanf_mtd dev with
      | (2, Some mtd_num, Some erase_size) =>
        let dev := str "/dev/mtdblock" ++ print_dec mtd_num in
        match files w !! dev with
        | None => None
        | Some s => if Z.land (st_mode s) S_IFBLK =? 0 then None else Some (dev, erase_size)
        end
      | _ => None
      end
    else rbcfg_find_mtd_lines w lines' name
  end.
Definition rbcfg_find_mtd (s : sys) (w : world) (name : bytes) : option (bytes * Z) :=
  match proc_mtd w with
  | None => None
  | Some lines =>
    match rbcfg_find_mtd_lines w lines name with
    | Some r => if malloc_ok s then Some r else None
    | None => None
    end
  end.

Definition rbcfg_check_tmp (w : world) (c : rbcfg_ctx) : bool :=
  match files w !! tmp_file c with
  | None => false
  | Some f =>
    if Z.land (st_mode f) S_IFREG =? 0 then false
    else Z.of_nat (length (content f)) =? buflen c
  end.

(** The checks [rbcfg_load] makes on the bytes it read; it leaves the CRC field
    zeroed. *)
Definition rbcfg_check_block (b : bytes) : outcome rb_err bytes :=
  magic ← get_u32 b 0;
  if negb (magic =? RB_MAGIC_SOFT) then Fail RB_ERR_INVALID
  else
    crc_orig ← get_u32 b 4;
    b ← put_u32 b 4 0;
    if negb (cyg_ether_crc32 b =? crc_orig) then Fail RB_ERR_INVALID
    else Done b.

Definition rbcfg_load (s : sys) (w : world) (c : rbcfg_ctx) : outcome rb_err rbcfg_ctx :=
  let name := if rbcfg_check_tmp w c then tmp_file c else mtd_device c in
  match (if may_read s name then files w !! name else None) with
  | None => Fail RB_ERR_IO
  | Some f =>
    let '(err, b) := sys_read s name f (buflen c) (buf c) in
    if negb (u32 err =? buflen c) then Fail RB_ERR_IO
    else
      b ← rbcfg_check_block b;
      Done (set_buf c b)
  end.

(** The heap block of [malloc] holds arbitrary bytes; every one of them is read
    from the file before it is used. *)
Definition rbcfg_open (s : sys) (w : world) (heap : Z -> bytes) : outcome rb_err rbcfg_ctx :=
  match rbcfg_find_mtd s w RBCFG_MTD_NAME with
  | None => Fail RB_ERR_NOTFOUND
  | Some (mtd, len) =>
    if malloc_ok s
    then rbcfg_load s w (Ctx mtd RBCFG_TMP_FILE (heap len) len)
    else Fail RB_ERR_NOMEM
  end.

(** The block with its magic and CRC brought up to date. *)
Definition rbcfg_seal (b : bytes) : outcome rb_err bytes :=
  b ← put_u32 b 0 RB_MAGIC_SOFT;
  b ← put_u32 b 4 0;
  put_u32 b 4 (cyg_ether_crc32 b).

(** [rbcfg_update]: the error exits leave what was written so far. *)
Definition rbcfg_update (s : sys) (w : world) (c : rbcfg_ctx) (tmp : bool)
    : outcome (rb_err * world) (rbcfg_ctx * world) :=
  match rbcfg_seal (buf c) with
  | Done b =>
    let c := set_buf c b in
    let name := if tmp then tmp_file c else mtd_device c in
    match sys_open_w s w name with
    | None => Fail (RB_ERR_IO, w)
    | Some f =>
      let '(err, f) := sys_write s name f b (buflen c) in
      let w := put_file w name f in
      if negb (u32 err =? buflen c) then Fail (RB_ERR_IO, w) else Done (c, w)
    end
  | Fail e => Fail (e, w)
  | Fault => Fault
  end.

(** ** Named settings *)

Definition rbcfg_env_find (env : rbcfg_env) (name : bytes) : option rbcfg_value :=
  snd <$> find_from (fun v => strcmp_eq (v_name v) name) (e_values env).
Definition rbcfg_env_find_u32 (env : rbcfg_env) (val : Z) : option rbcfg_value :=
  snd <$> find_from (fun v => v_u32 v =? val) (e_values env).

(** The name of the current value, [None] for the null pointer. *)
Definition rbcfg_env_get_u32 (c : rbcfg_ctx) (env : rbcfg_env) : outcome rb_err (option bytes) :=
  match rbcfg_get_u32 c (e_id env) with
  | Fault => Fault
  | Fail _ => Done None
  | Done val => Done (v_name <$> rbcfg_env_find_u32 env val)
  end.

Definition rbcfg_env_set_u32 (c : rbcfg_ctx) (env : rbcfg_env) (data : bytes)
    : outcome rb_err rbcfg_ctx :=
  match rbcfg_env_find env data with
  | None => Fail RB_ERR_INVALID
  | Some v => rbcfg_set_u32 c (e_id env) (v_u32 v)
  end.

Definition rbcfg_env_get (c : rbcfg_ctx) (env : rbcfg_env) : outcome rb_err (option bytes) :=
  if e_type env =? RBCFG_ENV_TYPE_U32 then rbcfg_env_get_u32 c env else Done None.
Definition rbcfg_env_set (c : rbcfg_ctx) (env : rbcfg_env) (data : bytes)
    : outcome rb_err rbcfg_ctx :=
  if e_type env =? RBCFG_ENV_TYPE_U32 then rbcfg_env_set_u32 c env data else Done c.

(** ** Commands: the value returned and the world after it *)

Definition res := outcome rb_err (Z * world).

(** An error of [rbcfg_update] as a return value. *)
Definition updated (o : outcome (rb_err * world) (rbcfg_ctx * world)) : res :=
  match o with
  | Done (_, w) => Done (0, w)
  | Fail (e, w) => Done (rb_code e, w)
  | Fault => Fault
  end.

Definition rbcfg_cmd_apply (s : sys) (w : world) (c : rbcfg_ctx) (argv : list bytes) : res :=
  updated (rbcfg_update s w c false).

Definition rbcfg_cmd_get (s : sys) (w : world) (c : rbcfg_ctx) (argv : list bytes) : res :=
  match argv with
  | [name] =>
    match find_from (fun env => strcmp_eq (e_name env) name) rbcfg_envs with
    | None => Done (rb_code RB_ERR_NOTFOUND, w)
    | Some (_, env) =>
      value ← rbcfg_env_get c env;
      match value with
      | Some v => Done (0, print w (v ++ [10]))
      | None => Done (rb_code RB_ERR_NOTFOUND, w)
      end
    end
  | _ => Done (rb_code RB_ERR_INVALID, w)
  end.

Definition rbcfg_cmd_set (s : sys) (w : world) (c : rbcfg_ctx) (argv : list bytes) : res :=
  match argv with
  | [name; data] =>
    match find_from (fun env => strcmp_eq (e_name env) name) rbcfg_envs with
    | None => Done (rb_code RB_ERR_INVALID, w)
    | Some (_, env) =>
      match rbcfg_env_set c env data with
      | Done c => updated (rbcfg_update s w c true)
      | Fail e => Done (rb_code e, w)
      | Fault => Fault
      end
    end
  | _ => Done (rb_code RB_ERR_INVALID, w)
  end.

Fixpoint rbcfg_show_envs (w : world) (c : rbcfg_ctx) (envs : list rbcfg_env) : res :=
  match envs with
  | [] => Done (0, w)
  | env :: envs' =>
    value ← rbcfg_env_get c env;
    rbcfg_show_envs
      (match value with Some v => print w (e_name env ++ [61] ++ v ++ [10]) | None => w end)
      c envs'
  end.
Definition rbcfg_cmd_show (s : sys) (w : world) (c : rbcfg_ctx) (argv : list bytes) : res :=
  match argv with
  | [] => rbcfg_show_envs w c rbcfg_envs
  | _ => Done (rb_code RB_ERR_INVALID, w)
  end.

(** The command table: name, and the handler of the commands that use the
    configuration ([CMD_FLAG_USES_CFG]); [help] only prints to stderr. *)
Definition rbcfg_commands
    : list (bytes * option (sys -> world -> rbcfg_ctx -> list bytes -> res)) :=
  [(str "apply", Some rbcfg_cmd_apply);
   (str "help", None);
   (str "get", Some rbcfg_cmd_get);
   (str "set", Some rbcfg_cmd_set);
   (str "show", Some rbcfg_cmd_show)].

Definition EXIT_SUCCESS : Z := 0.
Definition EXIT_FAILURE : Z := 1.

(** [main], with [argv] the arguments after the program name. *)
Definition rbcfg_main (s : sys) (w : world) (heap : Z -> bytes) (argv : list bytes) : res :=
  match argv with
  | [] => Done (EXIT_FAILURE, w)
  | command :: argv =>
    match find_from (fun cmd => strcmp_eq (fst cmd) command) rbcfg_commands with
    | None => Done (EXIT_FAILURE, w)
    | Some (_, (_, None)) => Done (EXIT_SUCCESS, w)
    | Some (_, (_, Some exec)) =>
      match rbcfg_open s w heap with
      | Fault => Fault
      | Fail _ => Done (EXIT_FAILURE, w)
      | Done c =>
        '(ret, w) ← exec s w c argv;
        Done (if ret =? 0 then EXIT_SUCCESS else EXIT_FAILURE, w)
      end
    end
  end.

(** ** A concrete device for the examples: a 48-byte block with two tags *)

Definition demo_tags : bytes :=
  be_bytes 2 4 ++ be_bytes 2 2 ++ be_bytes 4 5 ++      (* boot_delay = 5 *)
  be_bytes 2 4 ++ be_bytes 2 13 ++ be_bytes 4 0 ++     (* booter = regular *)
  replicate 24 0.
Definition demo_block : bytes :=
  match rbcfg_seal (replicate 8 0 ++ demo_tags) with Done b => b | _ => [] end.
Definition demo_sys : sys := Sys (fun _ => true) (fun _ => true) (fun _ => 4096) (fun _ => 4096) 0 true.
Definition demo_world : world :=
  World {[str "/dev/mtdblock3" := File S_IFBLK demo_block]}
        (Some [str "dev:    size   erasesize  name"; str "mtd3: 00000030 00001000 "++[34]++ str "soft_config" ++[34]])
        [].
Definition demo_heap (n : Z) : bytes := replicate (Z.to_nat n) 170.

(** ** Field accessors *)

Lemma access_lookup {E} (b : bytes) i x : b !! i = Some x -> @access E Z (b !! i) = Done x.
Proof. by intros ->. Qed.

Lemma get_u16_be {E} b off s :
  slice off 2 b = Some s -> is_bytes b -> @get_u16 E b off = Done (be_val s).
Proof.
  intros Hs Hb. pose proof (slice_is_bytes _ _ _ _ Hs Hb) as Hsb.
  apply slice_inv in Hs as (Hle & -> & Hlen).
  destruct (take 2 (drop off b)) as [|x0 [|x1 [|]]] eqn:Et; try done.
  assert (b !! off = Some x0 /\ b !! (off + 1)%nat = Some x1) as [H0 H1].
  { split; [rewrite <- (Nat.add_0_r off)|]; rewrite <- lookup_drop, <- (lookup_take_lt _ 2), Et by lia; done. }
  unfold get_u16. rewrite H1, H0. simpl. f_equal.
  unfold is_bytes in Hsb. rewrite Forall_cons, Forall_singleton in Hsb. destruct Hsb as [Hx0 Hx1].
  rewrite Z.shiftl_mul_pow2 by lia. change (2 ^ (8 * Z.of_nat 1)) with (2 ^ 8).
  rewrite Z.mul_1_r, Z.add_0_r. rewrite u16_small; words.
Qed.

Lemma get_u32_be {E} b off s :
  slice off 4 b = Some s -> is_bytes b -> @get_u32 E b off = Done (be_val s).
Proof.
  intros Hs Hb. pose proof (slice_is_bytes _ _ _ _ Hs Hb) as Hsb.
  apply slice_inv in Hs as (Hle & -> & Hlen).
  destruct (take 4 (drop off b)) as [|x0 [|x1 [|x2 [|x3 [|]]]]] eqn:Et; try done.
  assert (Hx : forall i x, [x0; x1; x2; x3] !! i = Some x -> b !! (off + i)%nat = Some x).
  { intros i x Hi. rewrite <- lookup_drop, <- (lookup_take_lt _ 4), Et; [done|].
    apply lookup_lt_Some in Hi. done. }
  unfold get_u32. rewrite (Hx 3%nat x3), (Hx 2%nat x2), (Hx 1%nat x1) by done.
  rewrite <- (Nat.add_0_r off), (Hx 0%nat x0) by done. simpl. f_equal.
  unfold is_bytes in Hsb. rewrite !Forall_cons in Hsb. destruct Hsb as (H0 & H1 & H2 & H3 & _).
  rewrite !Z.shiftl_mul_pow2 by lia.
  change (2 ^ (8 * Z.of_nat 3)) with (2 ^ 24). change (2 ^ (8 * Z.of_nat 2)) with (2 ^ 16).
  change (2 ^ (8 * Z.of_nat 1)) with (2 ^ 8). rewrite u32_small; words.
Qed.

Lemma put_u32_be {E} b off v : @put_u32 E b off v = access (splice off (be_bytes 4 v) b).
Proof.
  unfold put_u32. do 2 f_equal. simpl.
  change 0xff with (Z.ones 8). rewrite !Z.land_ones by lia. change (2 ^ 8) with 256.
  by rewrite Z.shiftr_0_r.
Qed.

Lemma get_u16_agree {E} (b b' : bytes) off :
  (forall i, (off <= i < off + 2)%nat -> b !! i = b' !! i) -> @get_u16 E b off = get_u16 b' off.
Proof. intros H. unfold get_u16. rewrite !H by lia. done. Qed.
Lemma get_u32_agree {E} (b b' : bytes) off :
  (forall i, (off <= i < off + 4)%nat -> b !! i = b' !! i) -> @get_u32 E b off = get_u32 b' off.
Proof. intros H. unfold get_u32. rewrite !H by lia. done. Qed.

Lemma get_put_u32 {E} b off v b' :
  is_bytes b -> @put_u32 E b off v = Done b' -> @get_u32 E b' off = Done (u32 v).
Proof.
  intros Hb. rewrite put_u32_be. destruct (splice _ _ _) as [b1|] eqn:Hs; [|done].
  intros [= <-]. rewrite (get_u32_be b1 off (be_bytes 4 v)); [by rewrite be_val_bytes| |].
  - apply slice_splice in Hs. by rewrite length_be_bytes in Hs.
  - apply (splice_is_bytes _ _ _ _ Hs); auto with cint.
Qed.

(** ** Tag search *)

(** The block a context holds: [buflen] bytes, at least the magic and the CRC. *)
Record wf (c : rbcfg_ctx) : Prop := {
  wf_len : Z.of_nat (length (buf c)) = buflen c;
  wf_bounds : 8 <= buflen c < 2 ^ 32;
  wf_bytes : is_bytes (buf c);
}.

(** A found tag lies inside the block, behind its own header. *)
Definition tag_at (b : bytes) (id len : Z) (off : nat) : Prop :=
  is_u16 len /\ (12 <= off)%nat /\ Z.of_nat off + len <= Z.of_nat (length b) /\
  slice (off - 4) 2 b = Some (be_bytes 2 len) /\ slice (off - 2) 2 b = Some (be_bytes 2 id).

Lemma get_u16_in {E} b off :
  is_bytes b -> (off + 2 <= length b)%nat ->
  exists v, @get_u16 E b off = Done v /\ is_u16 v /\ slice off 2 b = Some (be_bytes 2 v).
Proof.
  intros Hb Hle. pose proof (slice_Some off 2 b Hle) as Hs.
  exists (be_val (take 2 (drop off b))). split; [by apply get_u16_be|].
  pose proof (slice_is_bytes _ _ _ _ Hs Hb) as Hsb. apply slice_inv in Hs as Hs'.
  destruct Hs' as (_ & _ & Hlen). split.
  - pose proof (be_val_range _ Hsb) as Hr. rewrite Hlen in Hr. exact Hr.
  - pose proof (be_bytes_val _ Hsb) as Hv. rewrite Hlen in Hv. by rewrite Hs, Hv.
Qed.

Lemma find_tag_loop_safe fuel b off n id :
  is_bytes b -> (8 <= off)%nat -> 0 <= n < 2 ^ 32 -> Z.of_nat (length b) = Z.of_nat off + n ->
  (Z.to_nat n < fuel)%nat ->
  match rbcfg_find_tag_loop fuel b off n id with
  | Done (len, o) => tag_at b id len o
  | Fail e => e = RB_ERR_NOTFOUND
  | Fault => False
  end.
Proof.
  intros Hb. revert off n. induction fuel as [|f IH]; intros off n Hoff Hn Hlen Hf; [lia|].
  simpl. destruct (Z.ltb_spec 2 n); [|done].
  destruct (get_u16_in (E := rb_err) b off Hb ltac:(lia)) as (len & -> & Hl16 & Hls). simpl.
  rewrite (u32_small (n - 2)) by words.
  destruct (Z.ltb_spec (n - 2) 2); [done|].
  destruct (get_u16_in (E := rb_err) b (off + 2) Hb ltac:(lia)) as (i & -> & Hi16 & His). simpl.
  rewrite (u32_small (n - 2 - 2)) by words.
  destruct (Z.eqb_spec i RB_ID_TERMINATOR); [done|].
  destruct (Z.ltb_spec (n - 2 - 2) len); [done|].
  destruct (Z.eqb_spec i id) as [->|Hne].
  - replace (off + 2 + 2)%nat with (off + 4)%nat by lia. split; [done|]. split; [lia|].
    split; [lia|]. replace (off + 4 - 4)%nat with off by lia.
    replace (off + 4 - 2)%nat with (off + 2)%nat by lia. done.
  - rewrite u32_small by words. apply IH; words.
Qed.

Lemma find_tag_safe c id :
  wf c ->
  match rbcfg_find_tag c id with
  | Done (len, o) => tag_at (buf c) id len o
  | Fail e => e = RB_ERR_NOTFOUND
  | Fault => False
  end.
Proof.
  intros [Hlen Hb Hby]. unfold rbcfg_find_tag. rewrite u32_small by words.
  apply find_tag_loop_safe; auto; lia.
Qed.

(** The search only reads bytes at or after its pointer. *)
Lemma find_tag_loop_agree fuel b b' off n id :
  (forall i, (off <= i)%nat -> b !! i = b' !! i) ->
  rbcfg_find_tag_loop fuel b off n id = rbcfg_find_tag_loop fuel b' off n id.
Proof.
  revert off n. induction fuel as [|f IH]; intros off n Hag; simpl; [done|].
  destruct (2 <? n); [|done].
  rewrite (get_u16_agree b b' off), (get_u16_agree b b' (off + 2)) by (intros; apply Hag; lia).
  destruct (get_u16 b' off) as [len| |]; simpl; [|done..].
  destruct (_ <? 2); [done|].
  destruct (get_u16 b' (off + 2)) as [i| |]; simpl; [|done..].
  rewrite IH; [done|]. intros j Hj. apply Hag. lia.
Qed.

(** Storing into the data of the tag it found does not change any search. *)
Lemma find_tag_loop_stable fuel b b' off n id id' len o :
  rbcfg_find_tag_loop fuel b off n id = Done (len, o) -> 4 <= len ->
  (forall i, (i < o \/ o + 4 <= i)%nat -> b !! i = b' !! i) ->
  (off + 4 <= o)%nat /\
  rbcfg_find_tag_loop fuel b' off n id' = rbcfg_find_tag_loop fuel b off n id'.
Proof.
  revert off n. induction fuel as [|f IH]; intros off n Hfind Hlen Hag; simpl in *; [done|].
  destruct (2 <? n) eqn:E2; [|done].
  destruct (get_u16 b off) as [l| |] eqn:El; simpl in *; [|done..].
  destruct (_ <? 2) eqn:E3; [done|].
  destruct (get_u16 b (off + 2)) as [i| |] eqn:Ei; simpl in *; [|done..].
  destruct (i =? RB_ID_TERMINATOR) eqn:Et; [done|].
  destruct (_ <? l) eqn:Elen; [done|].
  destruct (Z.eqb_spec i id) as [->|Hne].
  - injection Hfind as -> <-.
    rewrite (get_u16_agree b' b off), (get_u16_agree b' b (off + 2)), El, Ei
      by (intros; symmetry; apply Hag; lia). simpl.
    rewrite ?E3, ?Et, ?Elen. destruct (id =? id'); (split; [lia|]); [done|].
    symmetry. apply find_tag_loop_agree. intros j Hj. apply Hag. lia.
  - specialize (IH _ _ Hfind Hlen Hag) as [Ho Heq].
    rewrite (get_u16_agree b' b off), (get_u16_agree b' b (off + 2)), El, Ei
      by (intros; symmetry; apply Hag; lia). simpl.
    rewrite ?E3, ?Et, ?Elen. split; [lia|]. by destruct (i =? id').
Qed.

(** ** The block as a list of tags *)

Definition enc_tag (t : Z * bytes) : bytes :=
  be_bytes 2 (Z.of_nat (length t.2)) ++ be_bytes 2 t.1 ++ t.2.
Definition enc_tags (ts : list (Z * bytes)) : bytes := concat (enc_tag <$> ts).
Definition tag_ok (t : Z * bytes) : Prop :=
  0 < t.1 < 2 ^ 16 /\ Z.of_nat (length t.2) < 2 ^ 16 /\ is_bytes t.2.
(** The terminator has id 0; its length field and what follows are ignored. *)
Definition enc_end (l : Z) (post : bytes) : bytes := be_bytes 2 l ++ be_bytes 2 RB_ID_TERMINATOR ++ post.

Lemma get_u16_app {E} (b pre post : bytes) off v :
  b = pre ++ be_bytes 2 v ++ post -> off = length pre -> is_u16 v -> @get_u16 E b off = Done v.
Proof.
  intros -> -> Hv.
  assert (Hx : forall i, (pre ++ be_bytes 2 v ++ post) !! (length pre + i)%nat =
                    (be_bytes 2 v ++ post) !! i).
  { intros i. rewrite lookup_app_r by lia. f_equal. lia. }
  pose proof (Hx O) as H0. rewrite Nat.add_0_r in H0.
  unfold get_u16. rewrite Hx, H0. simpl. f_equal.
  rewrite Z.shiftr_0_r, Z.shiftr_div_pow2, Z.shiftl_mul_pow2 by lia.
  change (8 * Z.of_nat 1) with 8. change (2 ^ 8) with 256. words.
Qed.

Lemma length_enc_tag t : length (enc_tag t) = (4 + length t.2)%nat.
Proof. unfold enc_tag. rewrite !length_app, !length_be_bytes. lia. Qed.

Lemma find_tag_loop_enc ts fuel b pre l post id :
  b = pre ++ enc_tags ts ++ enc_end l post -> Forall tag_ok ts -> is_u16 l ->
  Z.of_nat (length b) < 2 ^ 32 -> (length b - length pre < fuel)%nat ->
  rbcfg_find_tag_loop fuel b (length pre) (Z.of_nat (length b) - Z.of_nat (length pre)) id =
  match find_from (fun t => t.1 =? id) ts with
  | Some (i, (_, d)) => Done (Z.of_nat (length d), (length pre + length (enc_tags (take i ts)) + 4)%nat)
  | None => Fail RB_ERR_NOTFOUND
  end.
Proof.
  intros Hb Hts Hl Hlen. revert pre fuel Hb.
  induction Hts as [|[i d] ts (Hi & Hd & Hdb) Hts IH]; intros pre fuel Hb Hf.
  - destruct fuel as [|f]; [lia|]. simpl.
    assert (Hlb : length b = (length pre + 4 + length post)%nat).
    { subst b. unfold enc_end. rewrite !length_app, !length_be_bytes. simpl. lia. }
    destruct (Z.ltb_spec 2 (Z.of_nat (length b) - Z.of_nat (length pre))); [|lia].
    rewrite (get_u16_app b pre (be_bytes 2 RB_ID_TERMINATOR ++ post) _ l Hb eq_refl Hl). simpl.
    destruct (Z.ltb_spec (Z.of_nat (length b) - Z.of_nat (length pre) -₃₂ 2) 2) as [Hx|];
      [rewrite u32_small in Hx by words; lia|].
    rewrite (get_u16_app b (pre ++ be_bytes 2 l) post _ RB_ID_TERMINATOR); [done| |by rewrite length_app|done].
    subst b. unfold enc_end. by rewrite <- !app_assoc.
  - destruct fuel as [|f]; [lia|]. simpl in Hi, Hd, Hdb |- *.
    set (rest := enc_tags ts ++ enc_end l post).
    assert (Hbe : b = pre ++ be_bytes 2 (Z.of_nat (length d)) ++ be_bytes 2 i ++ d ++ rest).
    { subst b rest. unfold enc_tags, enc_tag. cbn [fmap list_fmap concat fst snd].
      by rewrite <- !app_assoc. }
    assert (Hlb : length b = (length pre + 4 + length d + length rest)%nat).
    { rewrite Hbe, !length_app, !length_be_bytes. lia. }
    destruct (Z.ltb_spec 2 (Z.of_nat (length b) - Z.of_nat (length pre))); [|lia].
    rewrite (get_u16_app b pre _ _ _ Hbe eq_refl) by words. simpl.
    rewrite (u32_small (_ - 2)) by words.
    destruct (Z.ltb_spec (Z.of_nat (length b) - Z.of_nat (length pre) - 2) 2); [lia|].
    rewrite (get_u16_app b (pre ++ be_bytes 2 (Z.of_nat (length d))) (d ++ rest) _ i);
      [|by rewrite Hbe, <- !app_assoc|by rewrite length_app|words]. simpl.
    destruct (Z.eqb_spec i RB_ID_TERMINATOR); [unfold RB_ID_TERMINATOR in *; lia|].
    rewrite (u32_small (_ - 2)) by words.
    destruct (Z.ltb_spec (Z.of_nat (length b) - Z.of_nat (length pre) - 2 - 2) (Z.of_nat (length d))); [lia|].
    destruct (i =? id) eqn:Eid.
    { do 2 f_equal. simpl. lia. }
    rewrite u32_small by words.
    specialize (IH (pre ++ enc_tag (i, d)) f).
    rewrite length_app, length_enc_tag in IH. cbn [fst snd] in IH.
    replace (length pre + 2 + 2 + Z.to_nat (Z.of_nat (length d)))%nat
      with (length pre + (4 + length d))%nat by lia.
    replace (Z.of_nat (length b) - Z.of_nat (length pre) - 2 - 2 - Z.of_nat (length d))
      with (Z.of_nat (length b) - Z.of_nat (length pre + (4 + length d))) by lia.
    rewrite IH; [|rewrite Hbe; unfold enc_tag; by rewrite <- !app_assoc|lia].
    destruct (find_from _ ts) as [[j [? d']]|]; [|done].
    do 2 f_equal. change (enc_tags (take (S j) ((i, d) :: ts))) with (enc_tag (i, d) ++ enc_tags (take j ts)).
    rewrite length_app, length_enc_tag. simpl. lia.
Qed.

(** ** Sealed blocks *)

Definition block (crc : Z) (t : bytes) : bytes := be_bytes 4 RB_MAGIC_SOFT ++ be_bytes 4 crc ++ t.
(** The block with payload [t] and the CRC [rbcfg] gives it. *)
Definition sealed (t : bytes) : bytes := block (cyg_ether_crc32 (block 0 t)) t.

Lemma length_block crc t : length (block crc t) = (8 + length t)%nat.
Proof. unfold block. by rewrite !length_app, !length_be_bytes. Qed.
Lemma block_is_bytes crc t : is_bytes t -> is_bytes (block crc t).
Proof. unfold block. auto with cint. Qed.
#[local] Hint Resolve block_is_bytes : cint.

Lemma put_u32_0 {E} b v :
  (4 <= length b)%nat -> @put_u32 E b 0 v = Done (be_bytes 4 v ++ drop 4 b).
Proof. intros Hl. rewrite put_u32_be, splice_Some by (rewrite length_be_bytes; lia). done. Qed.
Lemma put_u32_4 {E} m b v :
  length m = 4%nat -> (4 <= length b)%nat ->
  @put_u32 E (m ++ b) 4 v = Done (m ++ be_bytes 4 v ++ drop 4 b).
Proof.
  intros Hm Hl. rewrite put_u32_be, splice_Some by (rewrite length_app, length_be_bytes; lia).
  rewrite take_app_length' by done.
  replace (4 + length (be_bytes 4 v))%nat with (length m + 4)%nat by (rewrite length_be_bytes; lia).
  by rewrite drop_app_add.
Qed.

Lemma seal_Done b : (8 <= length b)%nat -> rbcfg_seal b = Done (sealed (drop 8 b)).
Proof.
  intros Hl. unfold rbcfg_seal. rewrite put_u32_0 by lia. obind.
  rewrite put_u32_4 by (rewrite ?length_be_bytes, ?length_drop; lia). obind.
  rewrite drop_drop. change (4 + 4)%nat with 8%nat.
  rewrite (put_u32_4 (be_bytes 4 RB_MAGIC_SOFT))
    by (rewrite ?length_app, ?length_be_bytes; lia).
  rewrite (drop_app_length' (be_bytes 4 0)) by done. done.
Qed.

Lemma block_split b :
  is_bytes b -> (8 <= length b)%nat -> exists m k t,
    b = be_bytes 4 m ++ be_bytes 4 k ++ t /\ is_u32 m /\ is_u32 k /\ t = drop 8 b /\ is_bytes t.
Proof.
  intros Hb Hl. exists (be_val (take 4 b)), (be_val (take 4 (drop 4 b))), (drop 8 b).
  assert (H4 : forall i, (i + 4 <= length b)%nat ->
    is_bytes (take 4 (drop i b)) /\ length (take 4 (drop i b)) = 4%nat).
  { intros i Hi. split; [auto with cint|]. rewrite length_take, length_drop. lia. }
  destruct (H4 O ltac:(lia)) as [Hb0 Hl0], (H4 4%nat ltac:(lia)) as [Hb4 Hl4]. rewrite drop_0 in *.
  pose proof (be_val_range _ Hb0) as R0. pose proof (be_val_range _ Hb4) as R4.
  rewrite Hl0 in R0. rewrite Hl4 in R4.
  split; [|repeat split; try lia; auto with cint].
  pose proof (be_bytes_val _ Hb0) as V0. rewrite Hl0 in V0.
  pose proof (be_bytes_val _ Hb4) as V4. rewrite Hl4 in V4. rewrite V0, V4.
  change 8%nat with (4 + 4)%nat. by rewrite <- drop_drop, !take_drop.
Qed.

Lemma check_block_eq m k t :
  is_u32 m -> is_u32 k -> is_bytes t ->
  rbcfg_check_block (be_bytes 4 m ++ be_bytes 4 k ++ t) =
  if (m =? RB_MAGIC_SOFT) && (cyg_ether_crc32 (block 0 t) =? k) then Done (block 0 t)
  else Fail RB_ERR_INVALID.
Proof.
  intros Hm Hk Ht. set (b := _ ++ _).
  assert (Hb : is_bytes b) by (unfold b; auto with cint).
  assert (Hl : length b = (8 + length t)%nat) by (unfold b; by rewrite !length_app, !length_be_bytes).
  unfold rbcfg_check_block.
  rewrite (get_u32_be b 0 (be_bytes 4 m)); [|by rewrite slice_Some by lia|done].
  rewrite (get_u32_be b 4 (be_bytes 4 k)); [|by rewrite slice_Some by lia|done].
  rewrite !be_val_bytes4, (u32_small m), (u32_small k) by done. obind.
  destruct (Z.eqb_spec m RB_MAGIC_SOFT) as [->|]; cbn [negb andb]; [|done].
  unfold b. rewrite put_u32_4 by (rewrite ?length_app, ?length_be_bytes; lia). obind.
  rewrite (drop_app_length' (be_bytes 4 k)) by done. fold (block 0 t). by destruct (cyg_ether_crc32 (block 0 t) =? k).
Qed.

Lemma check_block_sealed t : is_bytes t -> rbcfg_check_block (sealed t) = Done (block 0 t).
Proof.
  intros Ht. unfold sealed, block at 1. rewrite check_block_eq; auto with cint; [|done].
  by rewrite !Z.eqb_refl.
Qed.

(** ** Changing a tag *)

Lemma find_tag_loop_disjoint fuel b off n i1 i2 l1 o1 l2 o2 :
  rbcfg_find_tag_loop fuel b off n i1 = Done (l1, o1) ->
  rbcfg_find_tag_loop fuel b off n i2 = Done (l2, o2) -> i1 <> i2 ->
  (off + 4 <= o1 /\ off + 4 <= o2)%nat /\
  (o1 + Z.to_nat l1 + 4 <= o2 \/ o2 + Z.to_nat l2 + 4 <= o1)%nat.
Proof.
  assert (Hmono : forall f off n i l o,
    rbcfg_find_tag_loop f b off n i = Done (l, o) -> (off + 4 <= o)%nat).
  { clear. induction f as [|f IH]; intros off n i l o; simpl; [done|].
    destruct (2 <? n); [|done]. destruct (get_u16 b off) as [len| |]; simpl; [|done..].
    destruct (_ <? 2); [done|]. destruct (get_u16 b (off + 2)) as [id| |]; simpl; [|done..].
    destruct (id =? _); [done|]. destruct (_ <? len); [done|]. destruct (id =? i).
    - intros [= _ <-]. lia.
    - intros H%IH. lia. }
  revert off n. induction fuel as [|f IH]; intros off n H1 H2 Hne; simpl in *; [done|].
  destruct (2 <? n); [|done]. destruct (get_u16 b off) as [len| |]; simpl in *; [|done..].
  destruct (_ <? 2); [done|]. destruct (get_u16 b (off + 2)) as [id| |]; simpl in *; [|done..].
  destruct (id =? _); [done|]. destruct (_ <? len); [done|].
  destruct (Z.eqb_spec id i1), (Z.eqb_spec id i2); [congruence|..].
  - injection H1 as <- <-. apply Hmono in H2. lia.
  - injection H2 as <- <-. apply Hmono in H1. lia.
  - specialize (IH _ _ H1 H2 Hne). lia.
Qed.

Lemma set_u32_find c id v len o c' :
  wf c -> rbcfg_find_tag c id = Done (len, o) -> 4 <= len -> rbcfg_set_u32 c id v = Done c' ->
  c' = set_buf c (buf c') /\ put_u32 (E := rb_err) (buf c) o v = Done (buf c') /\ wf c' /\
  (forall id', rbcfg_find_tag c' id' = rbcfg_find_tag c id').
Proof.
  intros Hwf Hfind Hlen. unfold rbcfg_set_u32. rewrite Hfind. obind.
  destruct (put_u32 (buf c) o v) as [b'| |] eqn:Hput; obind; [|done..]. intros [= <-].
  split; [done|]. split; [done|].
  rewrite put_u32_be in Hput. destruct (splice _ _ _) as [b1|] eqn:Hsp; [|done].
  injection Hput as <-. pose proof (splice_length _ _ _ _ Hsp) as Hl. destruct Hwf as [W1 W2 W3].
  split.
  - constructor; simpl; [by rewrite Hl|done|].
    apply (splice_is_bytes _ _ _ _ Hsp); auto with cint.
  - intros id'. unfold rbcfg_find_tag in *. cbn [buf buflen set_buf]. rewrite Hl.
    refine (proj2 (find_tag_loop_stable _ _ _ _ _ _ _ _ _ Hfind Hlen _)).
    intros i Hi. rewrite (splice_lookup _ _ _ _ i Hsp), decide_False; [done|].
    rewrite length_be_bytes. lia.
Qed.

Lemma get_u32_after_set c id v len o c' :
  wf c -> rbcfg_find_tag c id = Done (len, o) -> 4 <= len -> rbcfg_set_u32 c id v = Done c' ->
  rbcfg_get_u32 c' id = Done (u32 v) /\
  (forall id', id' <> id -> rbcfg_get_u32 c' id' = rbcfg_get_u32 c id').
Proof.
  intros Hwf Hfind Hlen Hset.
  destruct (set_u32_find _ _ _ _ _ _ Hwf Hfind Hlen Hset) as (_ & Hput & Hwf' & Hsame).
  split.
  - unfold rbcfg_get_u32. rewrite Hsame, Hfind. obind.
    apply (get_put_u32 (buf c)); [apply Hwf|done].
  - intros id' Hne. unfold rbcfg_get_u32. rewrite Hsame.
    destruct (rbcfg_find_tag c id') as [[l2 o2]| |] eqn:Hf2; obind; [|done..].
    rewrite put_u32_be in Hput. destruct (splice _ _ _) as [b1|] eqn:Hsp; [|done].
    injection Hput as Hb1. rewrite <- Hb1. apply get_u32_agree. intros i Hi.
    rewrite (splice_lookup _ _ _ _ i Hsp), decide_False; [done|].
    pose proof (find_tag_safe c id' Hwf) as Hsafe. rewrite Hf2 in Hsafe.
    destruct Hsafe as (Hl2 & _).
    unfold rbcfg_find_tag in Hfind, Hf2.
    destruct (find_tag_loop_disjoint _ _ _ _ _ _ _ _ _ _ Hfind Hf2 ltac:(congruence)).
    rewrite length_be_bytes. lia.
Qed.

Lemma set_u32_succeeds c id v len o :
  wf c -> rbcfg_find_tag c id = Done (len, o) -> 4 <= len -> exists c', rbcfg_set_u32 c id v = Done c'.
Proof.
  intros Hwf Hfind Hlen. pose proof (find_tag_safe c id Hwf) as Hs. rewrite Hfind in Hs.
  destruct Hs as (_ & _ & Hin & _). unfold rbcfg_set_u32. rewrite Hfind. obind.
  rewrite put_u32_be, splice_Some by (rewrite length_be_bytes; lia). by eexists.
Qed.

(** ** Loading what was written *)

(** The file [f] that [rbcfg_load] picks can be opened and read in one go. *)
Definition readable (s : sys) (w : world) (c : rbcfg_ctx) (f : file) : Prop :=
  let name := if rbcfg_check_tmp w c then tmp_file c else mtd_device c in
  files w !! name = Some f /\ may_read s name = true /\
  buflen c <= rd_limit s name /\ buflen c <= Z.of_nat (length (content f)).

Lemma load_readable s w c f :
  wf c -> readable s w c f ->
  rbcfg_load s w c =
  (b ← rbcfg_check_block (take (Z.to_nat (buflen c)) (content f)); Done (set_buf c b)).
Proof.
  intros [W1 W2 W3] (Hf & Hr & Hlim & Hlen). unfold rbcfg_load. rewrite Hr, Hf.
  unfold sys_read. destruct (Z.ltb_spec (rd_limit s (if rbcfg_check_tmp w c then tmp_file c else mtd_device c)) 0); [lia|].
  rewrite !Z.min_l by lia. rewrite u32_small by words. rewrite Z.eqb_refl. cbn [negb].
  rewrite drop_ge by lia. by rewrite app_nil_r.
Qed.

(** A context with the same payload answers every search and read alike. *)
Lemma find_tag_payload c b' id :
  length (buf c) = length b' -> drop 8 (buf c) = drop 8 b' ->
  rbcfg_find_tag (set_buf c b') id = rbcfg_find_tag c id.
Proof.
  intros Hl Hd. unfold rbcfg_find_tag. cbn [buf buflen set_buf]. rewrite <- Hl. symmetry. apply find_tag_loop_agree.
  intros i Hi. replace i with (8 + (i - 8))%nat by lia. by rewrite <- !lookup_drop, Hd.
Qed.
Lemma get_u32_payload c b' id :
  wf c -> length (buf c) = length b' -> drop 8 (buf c) = drop 8 b' ->
  rbcfg_get_u32 (set_buf c b') id = rbcfg_get_u32 c id.
Proof.
  intros Hwf Hl Hd. unfold rbcfg_get_u32. rewrite find_tag_payload by done.
  pose proof (find_tag_safe c id Hwf) as Hs.
  destruct (rbcfg_find_tag c id) as [[len o]| |]; obind; [|done..].
  apply get_u32_agree. intros i Hi. destruct Hs as (_ & Ho & _). simpl.
  replace i with (8 + (i - 8))%nat by lia. by rewrite <- !lookup_drop, Hd.
Qed.

(** ** The whole command line *)

Definition files_ok (w : world) : Prop := map_Forall (fun _ f => is_bytes (content f)) (files w).
Definition heap_ok (heap : Z -> bytes) : Prop :=
  forall n, 0 <= n -> Z.of_nat (length (heap n)) = n /\ is_bytes (heap n).

Lemma check_block_inv b b' :
  is_bytes b -> rbcfg_check_block b = Done b' -> (8 <= length b)%nat /\ b = sealed (drop 8 b) /\ b' = block 0 (drop 8 b).
Proof.
  intros Hb Hc. assert (Hl : (8 <= length b)%nat).
  { unfold rbcfg_check_block in Hc. destruct (get_u32 b 0) as [m| |]; simpl in Hc; [|done..].
    destruct (negb _); [done|]. destruct (get_u32 b 4) as [k| |]; simpl in Hc; [|done..].
    rewrite put_u32_be in Hc. unfold splice in Hc. rewrite length_be_bytes in Hc.
    case_decide; [lia|done]. }
  split; [done|]. destruct (block_split b Hb Hl) as (m & k & t & Hbe & Hm & Hk & <- & Ht).
  rewrite Hbe in Hc. rewrite check_block_eq in Hc by done.
  destruct (Z.eqb_spec m RB_MAGIC_SOFT) as [->|]; [|done].
  destruct (Z.eqb_spec (cyg_ether_crc32 (block 0 t)) k) as [<-|]; [|done].
  by injection Hc as <-.
Qed.

Lemma sys_read_length s name f n dst r b :
  0 <= n < 2 ^ 32 -> Z.of_nat (length dst) = n -> sys_read s name f n dst = (r, b) -> u32 r = n ->
  length b = length dst.
Proof.
  intros Hn Hd. unfold sys_read. destruct (Z.ltb_spec (rd_limit s name) 0); intros [= <- <-]; [done|].
  rewrite u32_small by words. intros Hr. rewrite length_app, length_take, length_drop. lia.
Qed.
Lemma sys_read_bytes s name f n dst r b :
  is_bytes dst -> is_bytes (content f) -> sys_read s name f n dst = (r, b) -> is_bytes b.
Proof.
  intros Hd Hf. unfold sys_read. destruct (_ <? 0); intros [= _ <-]; auto with cint.
Qed.

Lemma load_wf s w c c' :
  files_ok w -> Z.of_nat (length (buf c)) = buflen c -> 0 <= buflen c < 2 ^ 32 -> is_bytes (buf c) ->
  rbcfg_load s w c = Done c' -> wf c' /\ c' = set_buf c (buf c').
Proof.
  intros Hf Hl Hb Hby. unfold rbcfg_load.
  set (name := if rbcfg_check_tmp w c then tmp_file c else mtd_device c).
  destruct (may_read s name); [|done]. destruct (files w !! name) as [f|] eqn:Hfile; [|done].
  destruct (sys_read _ _ _ _ _) as [r b] eqn:Hrd.
  destruct (Z.eqb_spec (u32 r) (buflen c)) as [Hr|]; [|done]. cbn [negb].
  destruct (rbcfg_check_block b) as [b'| |] eqn:Hc; obind; [|done..]. intros [= <-].
  pose proof (sys_read_length _ _ _ _ _ _ _ Hb Hl Hrd Hr) as Hlb.
  assert (Hbb : is_bytes b) by (eapply sys_read_bytes; [exact Hby|apply (Hf _ _ Hfile)|exact Hrd]).
  destruct (check_block_inv b b' Hbb Hc) as (H8 & _ & ->).
  split; [|done]. constructor; cbn [buf buflen set_buf]; [rewrite length_block, length_drop; lia|lia|auto with cint].
Qed.

Lemma find_mtd_lines_range w lines name dev n :
  rbcfg_find_mtd_lines w lines name = Some (dev, n) ->
  0 <= n < 2 ^ 32 /\ exists k, dev = str "/dev/mtdblock" ++ print_dec k.
Proof.
  induction lines as [|l lines IH]; simpl; [done|]. destruct (strstr l name); [|done].
  unfold sscanf_mtd. destruct (scan_literal (str "mtd") l) as [| |? r0]; [done..|].
  destruct (scan_int 10 _ r0) as [| |k r1]; [done..|].
  destruct (scan_literal (str ":") r1) as [| |? r2]; [done..|].
  destruct (scan_int 16 8 r2) as [| |sz r3]; [done..|].
  destruct (files w !! _) as [f|]; [|done]. destruct (_ =? 0); [done|].
  intros [= <- <-]. split; [apply u32_range|by eexists].
Qed.

Lemma find_mtd_range s w name dev n :
  rbcfg_find_mtd s w name = Some (dev, n) ->
  0 <= n < 2 ^ 32 /\ dev <> RBCFG_TMP_FILE /\ malloc_ok s = true.
Proof.
  unfold rbcfg_find_mtd. destruct (proc_mtd w) as [lines|]; [|done].
  destruct (rbcfg_find_mtd_lines w lines name) as [[? ?]|] eqn:E; [|done].
  destruct (malloc_ok s); [|done]. intros [= -> ->].
  apply find_mtd_lines_range in E as [Hn [k ->]]. done.
Qed.

(** The staging file does not take part in finding the partition. *)
Lemma find_mtd_put s w f name :
  rbcfg_find_mtd s (put_file w RBCFG_TMP_FILE f) name = rbcfg_find_mtd s w name.
Proof.
  unfold rbcfg_find_mtd. simpl. destruct (proc_mtd w) as [lines|]; [|done].
  assert (rbcfg_find_mtd_lines (put_file w RBCFG_TMP_FILE f) lines name =
          rbcfg_find_mtd_lines w lines name) as ->; [|done].
  induction lines as [|l lines IH]; simpl; [done|]. rewrite IH.
  destruct (strstr l name); [|done]. destruct (sscanf_mtd l) as [[r [k|]] [n|]]; [|done..].
  by rewrite lookup_insert_ne.
Qed.

Lemma open_inv s w heap c :
  files_ok w -> heap_ok heap -> rbcfg_open s w heap = Done c ->
  exists mtd n, rbcfg_find_mtd s w RBCFG_MTD_NAME = Some (mtd, n) /\ 0 <= n < 2 ^ 32 /\
    mtd <> RBCFG_TMP_FILE /\ wf c /\ c = Ctx mtd RBCFG_TMP_FILE (buf c) n /\
    forall w' , rbcfg_find_mtd s w' RBCFG_MTD_NAME = Some (mtd, n) ->
      rbcfg_open s w' heap = rbcfg_load s w' (Ctx mtd RBCFG_TMP_FILE (heap n) n).
Proof.
  intros Hf Hh. unfold rbcfg_open.
  destruct (rbcfg_find_mtd s w RBCFG_MTD_NAME) as [[mtd n]|] eqn:Hm; [|done].
  destruct (find_mtd_range _ _ _ _ _ Hm) as (Hn & Hne & Hmal). rewrite Hmal. intros Hl.
  destruct (Hh n) as [Hhl Hhb]; [lia|].
  destruct (load_wf s w (Ctx mtd RBCFG_TMP_FILE (heap n) n) c Hf Hhl Hn Hhb Hl) as [Hwf Hc].
  exists mtd, n. do 5 (split; [done|]). by intros w' ->.
Qed.

(** The staging file can be written, read back, and is not longer than the
    block. *)
Record staging_ok (s : sys) (w : world) (n : Z) : Prop := {
  st_read : may_read s RBCFG_TMP_FILE = true;
  st_write : may_write s RBCFG_TMP_FILE = true;
  st_rd : n <= rd_limit s RBCFG_TMP_FILE;
  st_wr : n <= wr_limit s RBCFG_TMP_FILE;
  st_old : match files w !! RBCFG_TMP_FILE with
           | None => True
           | Some f => Z.land (st_mode f) S_IFREG <> 0 /\ Z.of_nat (length (content f)) <= n
           end;
}.

Lemma new_file_regular p : Z.land (Z.lor S_IFREG (Z.land p 0xfff)) S_IFREG <> 0.
Proof.
  intros H. apply (f_equal (fun z => Z.testbit z 15)) in H.
  rewrite Z.land_spec, Z.lor_spec in H. by destruct (Z.testbit (Z.land p 0xfff) 15).
Qed.

Lemma update_tmp_load s w c heap :
  wf c -> tmp_file c = RBCFG_TMP_FILE -> heap_ok heap -> staging_ok s w (buflen c) ->
  exists c' w', rbcfg_update s w c true = Done (c', w') /\ stdout w' = stdout w /\
    (exists f, w' = put_file w RBCFG_TMP_FILE f) /\
    rbcfg_load s w' (set_buf c (heap (buflen c))) = Done (set_buf c (block 0 (drop 8 (buf c)))).
Proof.
  intros [W1 W2 W3] Htmp Hh [Hrd Hwr Hrl Hwl Hold].
  destruct (Hh (buflen c) ltac:(lia)) as [Hhl Hhb].
  pose proof (length_block (cyg_ether_crc32 (block 0 (drop 8 (buf c)))) (drop 8 (buf c))) as Hls.
  fold (sealed (drop 8 (buf c))) in Hls. rewrite length_drop in Hls.
  unfold rbcfg_update. rewrite seal_Done by lia. cbn [set_buf buf buflen tmp_file mtd_device].
  rewrite Htmp. unfold sys_open_w. rewrite Hwr. unfold sys_write.
  destruct (Z.ltb_spec (wr_limit s RBCFG_TMP_FILE) 0); [lia|].
  rewrite Z.min_l by lia. rewrite u32_small by words. rewrite Z.eqb_refl. cbn [negb].
  eexists _, _. split; [done|]. split; [done|]. split; [by eexists|].
  set (f := File _ _).
  assert (Hcf : content f = sealed (drop 8 (buf c))).
  { unfold f. simpl. rewrite take_ge by lia. rewrite (drop_ge _ (Z.to_nat (buflen c))); [by rewrite app_nil_r|].
    destruct (files w !! RBCFG_TMP_FILE); simpl; lia. }
  assert (Hreg : Z.land (st_mode f) S_IFREG <> 0).
  { unfold f. simpl. destruct (files w !! RBCFG_TMP_FILE); simpl; [apply Hold|apply new_file_regular]. }
  assert (Hwf : wf (set_buf c (heap (buflen c)))) by (constructor; cbn [buf buflen set_buf]; done).
  assert (Hck : rbcfg_check_tmp (put_file w RBCFG_TMP_FILE f) (set_buf c (heap (buflen c))) = true).
  { unfold rbcfg_check_tmp. cbn [tmp_file set_buf put_file files]. rewrite Htmp, lookup_insert_eq.
    destruct (Z.eqb_spec (Z.land (st_mode f) S_IFREG) 0); [done|].
    rewrite Hcf. apply Z.eqb_eq. cbn [buflen set_buf]. lia. }
  rewrite (load_readable _ _ _ f Hwf).
  - cbn [buflen set_buf]. rewrite Hcf, take_ge by lia.
    by rewrite check_block_sealed by auto with cint.
  - unfold readable. rewrite Hck. cbn [tmp_file set_buf buflen put_file files].
    rewrite Htmp, lookup_insert_eq, Hcf. split; [done|]. split; [done|]. lia.
Qed.

(** The tables hold distinct 32-bit values and only U32 settings. *)
Definition tables_check : bool :=
  forallb (fun env => (e_type env =? RBCFG_ENV_TYPE_U32) &&
    forallb (fun v => (0 <=? v_u32 v) && (v_u32 v <? 2 ^ 32) &&
      match rbcfg_env_find_u32 env (v_u32 v) with
      | Some v' => strcmp_eq (v_name v') (v_name v)
      | None => false
      end) (e_values env)) rbcfg_envs.
Lemma tables_checked : tables_check = true.
Proof. by vm_compute. Qed.

Lemma tables_ok i env name v :
  rbcfg_envs !! i = Some env -> rbcfg_env_find env name = Some v ->
  e_type env = RBCFG_ENV_TYPE_U32 /\ v_name v = name /\ u32 (v_u32 v) = v_u32 v /\
  v_name <$> rbcfg_env_find_u32 env (v_u32 v) = Some name.
Proof.
  intros Henv Hv. pose proof tables_checked as Ht. unfold tables_check in Ht.
  rewrite forallb_forall in Ht. specialize (Ht env).
  rewrite <- list_elem_of_In, andb_true_iff, forallb_forall, Z.eqb_eq in Ht.
  destruct Ht as [Hty Hvs]; [by eapply list_elem_of_lookup_2|].
  unfold rbcfg_env_find in Hv. destruct (find_from _ (e_values env)) as [[j v']|] eqn:Hf; [|done].
  injection Hv as <-. apply find_from_Some in Hf as (Hj & Hn & _).
  unfold strcmp_eq in Hn. apply bool_decide_eq_true in Hn.
  specialize (Hvs v'). rewrite <- list_elem_of_In in Hvs.
  specialize (Hvs ltac:(by eapply list_elem_of_lookup_2)).
  rewrite !andb_true_iff, Z.leb_le, Z.ltb_lt in Hvs. destruct Hvs as [Hr Hs].
  split; [done|]. split; [done|]. split; [by apply u32_small|].
  destruct (rbcfg_env_find_u32 env (v_u32 v')) as [v''|]; [|done].
  unfold strcmp_eq in Hs. apply bool_decide_eq_true in Hs. simpl. congruence.
Qed.

(** Two sealed blocks that differ at most in one byte are equal. *)
Lemma sealed_byte_eq pre x y post :
  is_bytes pre -> is_bytes post -> is_u8 x -> is_u8 y -> (8 <= length (pre ++ x :: post))%nat ->
  pre ++ x :: post = sealed (drop 8 (pre ++ x :: post)) ->
  pre ++ y :: post = sealed (drop 8 (pre ++ y :: post)) -> x = y.
Proof.
  intros Hpre Hpost Hx Hy Hl Ex Ey. destruct (decide (length pre < 8)%nat) as [Hs|Hs].
  - assert (Hd : forall z, drop 8 (pre ++ z :: post) = drop (8 - length pre - 1) post).
    { intros z. rewrite drop_app, drop_ge by lia.
      destruct (8 - length pre)%nat as [|k] eqn:Ek; [lia|]. by rewrite Nat.sub_1_r. }
    rewrite Hd in Ex. rewrite Hd, <- Ex in Ey. by simplify_eq.
  - assert (Hd : forall z, drop 8 (pre ++ z :: post) = drop 8 pre ++ z :: post).
    { intros z. by rewrite drop_app_le by lia. }
    assert (Ht : forall z, take 8 (pre ++ z :: post) = take 8 pre).
    { intros z. by rewrite take_app_le by lia. }
    assert (Hcrc : forall z, is_u8 z -> pre ++ z :: post = sealed (drop 8 (pre ++ z :: post)) ->
      be_val (drop 4 (take 8 pre)) = cyg_ether_crc32 (block 0 (drop 8 pre) ++ z :: post)).
    { intros z Hz E. rewrite <- (Ht z), E, Hd. unfold sealed, block at 1.
      rewrite take_app_ge by (rewrite length_be_bytes; lia). rewrite length_be_bytes.
      rewrite (take_app_length' (be_bytes 4 _)) by done.
      rewrite (drop_app_length' (be_bytes 4 RB_MAGIC_SOFT)) by done.
      rewrite be_val_bytes4, u32_small by (apply cyg_ether_crc32_range; auto 8 with cint).
      unfold block. by rewrite <- !app_assoc. }
    apply (cyg_ether_crc32_byte_inj (block 0 (drop 8 pre)) post); auto with cint.
    rewrite <- (Hcrc x), <- (Hcrc y); done.
Qed.

Lemma env_get_u32_by_value c env id : e_id env = id ->
  rbcfg_env_get_u32 c env =
  match rbcfg_get_u32 c id with
  | Fault => Fault
  | Fail _ => Done None
  | Done val => Done (v_name <$> rbcfg_env_find_u32 env val)
  end.
Proof. by intros <-. Qed.

Lemma main_exec s w heap c cmd k exec argv :
  find_from (fun x => strcmp_eq (fst x) cmd) rbcfg_commands = Some (k, (cmd, Some exec)) ->
  rbcfg_open s w heap = Done c ->
  rbcfg_main s w heap (cmd :: argv) =
  ('(ret, w) ← exec s w c argv; Done (if ret =? 0 then EXIT_SUCCESS else EXIT_FAILURE, w)).
Proof. intros Hf Ho. unfold rbcfg_main. rewrite Hf. cbv beta iota. by rewrite Ho. Qed.

Lemma cmd_get_env s w c name i env :
  find_from (fun env => strcmp_eq (e_name env) name) rbcfg_envs = Some (i, env) ->
  rbcfg_cmd_get s w c [name] =
  (value ← rbcfg_env_get c env;
   match value with
   | Some v => Done (0, print w (v ++ [10]))
   | None => Done (rb_code RB_ERR_NOTFOUND, w)
   end).
Proof. intros Hf. unfold rbcfg_cmd_get. by rewrite Hf. Qed.

(** ** Properties *)

(** On any block of at least eight bytes, of any contents, the tag
    search terminates without reading outside the block; the tag it returns has
    the requested id and lies entirely inside the block. *)
Theorem rbcfg_find_tag_in_bounds (c : rbcfg_ctx) (id : Z) (Hwf : wf c) :
  (exists len o, rbcfg_find_tag c id = Done (len, o) /\ tag_at (buf c) id len o) \/
  rbcfg_find_tag c id = Fail RB_ERR_NOTFOUND.
Proof.
  pose proof (find_tag_safe c id Hwf) as H.
  destruct (rbcfg_find_tag c id) as [[len o]|e|]; [left; eauto|right; by subst|done].
Qed.

(** On a block that is a header, a list of tags and a terminator,
    the search returns the length and the place of the first tag with the
    requested id, and RB_ERR_NOTFOUND when there is none. *)
Theorem rbcfg_find_tag_first (c : rbcfg_ctx) (hdr post : bytes) (ts : list (Z * bytes)) (l id : Z)
    (Hbuf : buf c = hdr ++ enc_tags ts ++ enc_end l post) (Hhdr : length hdr = 8%nat)
    (Hlen : Z.of_nat (length (buf c)) = buflen c) (Hmax : buflen c < 2 ^ 32)
    (Hts : Forall tag_ok ts) (Hl : is_u16 l) :
  rbcfg_find_tag c id =
  match find_from (fun t => t.1 =? id) ts with
  | Some (i, (_, d)) => Done (Z.of_nat (length d), (8 + length (enc_tags (take i ts)) + 4)%nat)
  | None => Fail RB_ERR_NOTFOUND
  end.
Proof.
  unfold rbcfg_find_tag. assert (8 <= length (buf c))%nat by (rewrite Hbuf, length_app; lia).
  rewrite u32_small by words. rewrite <- Hhdr, <- Hlen.
  replace 8 with (Z.of_nat (length hdr)) at 1 by lia.
  eapply find_tag_loop_enc; eauto; lia.
Qed.

(** Storing a 32-bit setting succeeds whenever its tag has room for
    four bytes; reading it back gives the value, and every other setting reads
    as before. *)
Theorem rbcfg_set_u32_get (c : rbcfg_ctx) (id v len : Z) (o : nat)
    (Hwf : wf c) (Hfind : rbcfg_find_tag c id = Done (len, o)) (Hlen : 4 <= len) :
  exists c', rbcfg_set_u32 c id v = Done c' /\ wf c' /\
    rbcfg_get_u32 c' id = Done (u32 v) /\
    (forall id', id' <> id -> rbcfg_get_u32 c' id' = rbcfg_get_u32 c id').
Proof.
  destruct (set_u32_succeeds c id v len o Hwf Hfind Hlen) as [c' Hset]. exists c'.
  destruct (set_u32_find _ _ _ _ _ _ Hwf Hfind Hlen Hset) as (_ & _ & Hwf' & _).
  split; [done|]. split; [done|]. by eapply get_u32_after_set.
Qed.

(** Neither the read nor the write of a setting checks the length of
    its tag: a tag shorter than four bytes at the end of the block makes both run
    past the buffer. *)
Theorem rbcfg_short_tag_overrun (c : rbcfg_ctx) (id v len : Z) (o : nat)
    (Hwf : wf c) (Hfind : rbcfg_find_tag c id = Done (len, o)) (Hshort : len < 4)
    (Hend : Z.of_nat o + len = buflen c) :
  rbcfg_get_u32 c id = Fault /\ rbcfg_set_u32 c id v = Fault.
Proof.
  destruct Hwf as [W1 _ _]. unfold rbcfg_get_u32, rbcfg_set_u32. rewrite Hfind. obind. split.
  - unfold get_u32. by rewrite (lookup_ge_None_2 (buf c) (o + 3)) by lia.
  - rewrite put_u32_be. unfold splice. rewrite length_be_bytes, decide_False by lia. done.
Qed.

(** C39: the block read from the device is accepted exactly when it carries the
    magic and the CRC of its payload; with any single byte of an accepted block
    changed, loading fails with RB_ERR_INVALID. *)
Theorem rbcfg_load_checks (s : sys) (w : world) (c : rbcfg_ctx) (f : file)
    (Hwf : wf c) (Hf : is_bytes (content f)) (Hrd : readable s w c f) :
  let b := take (Z.to_nat (buflen c)) (content f) in
  (b = sealed (drop 8 b) -> rbcfg_load s w c = Done (set_buf c (block 0 (drop 8 b)))) /\
  (b <> sealed (drop 8 b) -> rbcfg_load s w c = Fail RB_ERR_INVALID) /\
  (forall pre x y post, b = pre ++ x :: post -> is_u8 y -> x <> y ->
     pre ++ y :: post = sealed (drop 8 (pre ++ y :: post)) -> rbcfg_load s w c = Fail RB_ERR_INVALID).
Proof.
  intros b. rewrite (load_readable s w c f Hwf Hrd). fold b.
  assert (Hb : is_bytes b) by (unfold b; auto with cint).
  assert (Hbl : (8 <= length b)%nat)
    by (destruct Hwf, Hrd as (_ & _ & _ & ?); unfold b; rewrite length_take; lia).
  assert (Hbad : b <> sealed (drop 8 b) -> rbcfg_check_block b = Fail RB_ERR_INVALID).
  { intros Hne. destruct (block_split b Hb Hbl) as (m & k & t & Hbe & Hm & Hk & Ht & Htb).
    rewrite Hbe, check_block_eq by done.
    destruct (Z.eqb_spec m RB_MAGIC_SOFT) as [->|]; [|done].
    destruct (Z.eqb_spec (cyg_ether_crc32 (block 0 t)) k) as [<-|]; [|done].
    destruct Hne. by rewrite <- Ht, Hbe. }
  split; [|split].
  - intros Heq. rewrite Heq, check_block_sealed by auto with cint. done.
  - intros Hne. by rewrite Hbad.
  - intros pre x y post Hbe Hy Hxy Hsealed. rewrite Hbad; [done|]. intros Heq.
    rewrite Hbe in Heq, Hb, Hbl. apply Forall_app in Hb as [Hpre Hpost].
    apply Forall_cons in Hpost as [Hx Hpost].
    by apply Hxy, (sealed_byte_eq pre x y post).
Qed.

(** C1: setting and reading back. Take a device whose configuration can be opened and
    holds a tag of at least four bytes for the setting [name], a value [val] the tool
    knows for [name], and a staging file that can be written and read and, if there
    already is one, is a regular file no longer than the block (a longer one keeps its
    tail and is then ignored: see [rbcfg_set_stale_staging]). Then [rbcfg set name val]
    exits with success and prints nothing, a following [rbcfg get name] prints [val],
    and [rbcfg get] of any setting with another tag prints what it printed before. *)
Theorem rbcfg_set_then_get (s : sys) (w : world) (heap : Z -> bytes) (c : rbcfg_ctx)
    (name val : bytes) (i : nat) (env : rbcfg_env) (v : rbcfg_value) (len : Z) (o : nat)
    (Hfiles : files_ok w) (Hheap : heap_ok heap)
    (Hopen : rbcfg_open s w heap = Done c)
    (Henv : find_from (fun env => strcmp_eq (e_name env) name) rbcfg_envs = Some (i, env))
    (Hval : rbcfg_env_find env val = Some v)
    (Htag : rbcfg_find_tag c (e_id env) = Done (len, o)) (Hlen : 4 <= len)
    (Hst : staging_ok s w (buflen c)) :
  exists w1, rbcfg_main s w heap [str "set"; name; val] = Done (EXIT_SUCCESS, w1) /\
    stdout w1 = stdout w /\
    rbcfg_main s w1 heap [str "get"; name] = Done (EXIT_SUCCESS, print w1 (val ++ [10])) /\
    (forall name' i' env' r w', name' <> name -> e_id env' <> e_id env ->
       find_from (fun env => strcmp_eq (e_name env) name') rbcfg_envs = Some (i', env') ->
       rbcfg_main s w heap [str "get"; name'] = Done (r, w') ->
       exists w1', rbcfg_main s w1 heap [str "get"; name'] = Done (r, w1') /\ stdout w1' = stdout w').
Proof.
  destruct (open_inv s w heap c Hfiles Hheap Hopen) as (mtd & n & Hm & Hn & Hmt & Hwf & Hc & Hre).
  destruct (tables_ok i env val v) as (Hty & Hvn & Hu & Hback);
    [by apply find_from_Some in Henv as [? _]|done|].
  destruct (set_u32_succeeds c (e_id env) (v_u32 v) len o Hwf Htag Hlen) as [c1 Hset].
  destruct (set_u32_find _ _ _ _ _ _ Hwf Htag Hlen Hset) as (Hc1 & _ & Hwf1 & _).
  destruct (get_u32_after_set _ _ _ _ _ _ Hwf Htag Hlen Hset) as [Hget Hother].
  assert (Hn1 : buflen c1 = n /\ tmp_file c1 = RBCFG_TMP_FILE /\ mtd_device c1 = mtd)
    by (rewrite Hc1, Hc; done). destruct Hn1 as (Hn1 & Ht1 & Hd1).
  assert (Hn0 : buflen c = n) by (by rewrite Hc).
  destruct (update_tmp_load s w c1 heap Hwf1 Ht1 Hheap) as (c2 & w1 & Hup & Hout & [f Hw1] & Hload);
    [by rewrite Hn1, <- Hn0|].
  assert (Hopen1 : rbcfg_open s w1 heap = Done (set_buf c1 (block 0 (drop 8 (buf c1))))).
  { rewrite Hre by (by rewrite Hw1, find_mtd_put). rewrite <- Hload. f_equal.
    unfold set_buf. by rewrite Hn1, Ht1, Hd1. }
  assert (Hsame : forall id, rbcfg_get_u32 (set_buf c1 (block 0 (drop 8 (buf c1)))) id = rbcfg_get_u32 c1 id).
  { intros id. destruct Hwf1 as [L1 L2 L3]. apply get_u32_payload; [done| |].
    - rewrite length_block, length_drop. lia.
    - unfold block. by rewrite app_assoc, (drop_app_length' (_ ++ _)). }
  exists w1. split; [|split; [done|split]].
  - rewrite (main_exec s w heap c _ 3 rbcfg_cmd_set) by done. cbn [rbcfg_cmd_set].
    rewrite Henv. unfold rbcfg_env_set. rewrite Hty, Z.eqb_refl. unfold rbcfg_env_set_u32.
    by rewrite Hval, Hset, Hup.
  - rewrite (main_exec s w1 heap _ _ 2 rbcfg_cmd_get) by done.
    rewrite (cmd_get_env _ _ _ _ i env) by done. unfold rbcfg_env_get. rewrite Hty, Z.eqb_refl.
    unfold rbcfg_env_get_u32. by rewrite Hsame, Hget, Hu, Hback.
  - intros name' i' env' r w' Hne Hid Henv'.
    rewrite (main_exec s w heap c _ 2 rbcfg_cmd_get), (main_exec s w1 heap _ _ 2 rbcfg_cmd_get) by done.
    rewrite !(cmd_get_env _ _ _ _ i' env') by done. unfold rbcfg_env_get.
    destruct (e_type env' =? RBCFG_ENV_TYPE_U32); [|intros [= <- <-]; by eexists].
    unfold rbcfg_env_get_u32. rewrite Hsame, Hother by done.
    destruct (rbcfg_get_u32 c (e_id env')) as [x|e|]; obind; [|obind; intros [= <- <-]; by eexists|done].
    destruct (v_name <$> rbcfg_env_find_u32 env' x); obind; intros [= <- <-];
      eexists; (split; [reflexivity|]); cbn [print stdout]; by rewrite ?Hout.
Qed.

(** [rbcfg_update] does not truncate the staging file.  When an older,
    longer one is there, [set] reports success but the next command does not
    read the staging file: it loads the partition, which was not changed. *)
Theorem rbcfg_set_stale_staging (s : sys) (w : world) (c c' : rbcfg_ctx) (w' : world) (f : file)
    (Hwf : wf c) (Hold : files w !! tmp_file c = Some f)
    (Hlong : buflen c < Z.of_nat (length (content f))) (Hne : mtd_device c <> tmp_file c)
    (Hup : rbcfg_update s w c true = Done (c', w')) :
  rbcfg_check_tmp w' c' = false /\ files w' !! mtd_device c = files w !! mtd_device c.
Proof.
  destruct Hwf as [W1 W2 W3]. unfold rbcfg_update in Hup. rewrite seal_Done in Hup by lia.
  cbn [set_buf buf buflen tmp_file mtd_device] in Hup. unfold sys_open_w in Hup.
  destruct (may_write s (tmp_file c)); [|done]. rewrite Hold in Hup. unfold default, id in Hup. unfold sys_write in Hup.
  assert (Hlb : Z.of_nat (length (sealed (drop 8 (buf c)))) = buflen c).
  { unfold sealed. rewrite length_block, length_drop. lia. }
  destruct (Z.ltb_spec (wr_limit s (tmp_file c)) 0).
  - destruct (negb _); [done|]. injection Hup as <- <-.
    cbn [put_file files set_buf buflen]. split; [|by rewrite lookup_insert_ne].
    unfold rbcfg_check_tmp. cbn [put_file files tmp_file set_buf buflen content st_mode]. rewrite lookup_insert_eq. destruct (_ =? 0); [done|].
    apply Z.eqb_neq. lia.
  - destruct (negb _); [done|]. injection Hup as <- <-.
    cbn [put_file files set_buf buflen]. split; [|by rewrite lookup_insert_ne].
    unfold rbcfg_check_tmp. cbn [put_file files tmp_file set_buf buflen content st_mode]. rewrite lookup_insert_eq. destruct (_ =? 0); [done|].
    apply Z.eqb_neq. cbn [content]. rewrite length_app, length_take, length_drop. lia.
Qed.

(** ** Instances of the properties on the demo device *)

Definition demo_ctx : rbcfg_ctx :=
  Ctx (str "/dev/mtdblock3") RBCFG_TMP_FILE (block 0 demo_tags) 48.

Lemma demo_tags_bytes : is_bytes demo_tags.
Proof. solve_bytes. Qed.
Lemma demo_wf : wf demo_ctx.
Proof.
  constructor; [done|unfold demo_ctx; simpl; lia|]. apply block_is_bytes, demo_tags_bytes.
Qed.
Lemma demo_open : rbcfg_open demo_sys demo_world demo_heap = Done demo_ctx.
Proof. by vm_compute. Qed.
Lemma demo_files : files_ok demo_world.
Proof. apply map_Forall_singleton. cbn [content]. solve_bytes. Qed.
Lemma demo_heap_ok : heap_ok demo_heap.
Proof.
  intros n Hn. unfold demo_heap. rewrite length_replicate. split; [lia|].
  apply is_bytes_replicate. words.
Qed.
Lemma demo_staging : staging_ok demo_sys demo_world 48.
Proof. constructor; done. Qed.

Lemma rbcfg_find_tag_in_bounds_witness :
  (exists len o, rbcfg_find_tag demo_ctx 2 = Done (len, o) /\ tag_at (buf demo_ctx) 2 len o) \/
  rbcfg_find_tag demo_ctx 2 = Fail RB_ERR_NOTFOUND.
Proof. apply (rbcfg_find_tag_in_bounds demo_ctx 2 demo_wf). Defined.

Definition demo_list : list (Z * bytes) := [(2, be_bytes 4 5); (13, be_bytes 4 0)].
Lemma demo_list_ok : Forall tag_ok demo_list.
Proof.
  repeat apply Forall_cons_2; [| |apply Forall_nil_2];
    (split; [simpl; lia|]); (split; [simpl; lia|]); cbn [snd]; solve_bytes.
Qed.
Lemma rbcfg_find_tag_first_witness : rbcfg_find_tag demo_ctx 13 = Done (4, 20%nat).
Proof.
  rewrite (rbcfg_find_tag_first demo_ctx (take 8 (buf demo_ctx)) (replicate 20 0) demo_list 0 13);
    [reflexivity|vm_compute; reflexivity|done|done|done|apply demo_list_ok|words].
Defined.

Lemma rbcfg_set_u32_get_witness :
  exists c', rbcfg_set_u32 demo_ctx 2 9 = Done c' /\ wf c' /\ rbcfg_get_u32 c' 2 = Done (u32 9) /\
    (forall id', id' <> 2 -> rbcfg_get_u32 c' id' = rbcfg_get_u32 demo_ctx id').
Proof. apply (rbcfg_set_u32_get demo_ctx 2 9 4 12 demo_wf); [by vm_compute|lia]. Defined.

Definition short_ctx : rbcfg_ctx :=
  Ctx (str "/dev/mtdblock3") RBCFG_TMP_FILE (block 0 (be_bytes 2 1 ++ be_bytes 2 2 ++ [5])) 13.
Lemma short_wf : wf short_ctx.
Proof. constructor; [done|unfold short_ctx; simpl; lia|]. apply block_is_bytes. solve_bytes. Qed.
Lemma rbcfg_short_tag_overrun_witness :
  rbcfg_get_u32 short_ctx 2 = Fault /\ rbcfg_set_u32 short_ctx 2 9 = Fault.
Proof. apply (rbcfg_short_tag_overrun short_ctx 2 9 1 12 short_wf); [by vm_compute|lia|done]. Defined.

Lemma rbcfg_load_checks_witness :
  let f := File S_IFBLK demo_block in
  rbcfg_load demo_sys demo_world demo_ctx = Done (set_buf demo_ctx (block 0 (drop 8 demo_block))).
Proof.
  apply (rbcfg_load_checks demo_sys demo_world demo_ctx (File S_IFBLK demo_block) demo_wf).
  - cbn [content]. solve_bytes.
  - split; [by vm_compute|]. split; [done|]. split; [by vm_compute|by vm_compute].
  - by vm_compute.
Defined.

Lemma rbcfg_set_then_get_witness :
  exists w1, rbcfg_main demo_sys demo_world demo_heap [str "set"; str "boot_delay"; str "7"] =
               Done (EXIT_SUCCESS, w1) /\
    rbcfg_main demo_sys w1 demo_heap [str "get"; str "boot_delay"] =
      Done (EXIT_SUCCESS, print w1 (str "7" ++ [10])).
Proof.
  destruct (rbcfg_set_then_get demo_sys demo_world demo_heap demo_ctx (str "boot_delay") (str "7")
    0 (Env (str "boot_delay") RB_ID_BOOT_DELAY RBCFG_ENV_TYPE_U32 rbcfg_boot_delay)
    (CFG_U32 "7" 7) 4 12 demo_files demo_heap_ok demo_open) as (w1 & H1 & _ & H2 & _);
    [by vm_compute|by vm_compute|by vm_compute|lia|apply demo_staging|].
  exists w1. split; [exact H1|exact H2].
Defined.

Definition stale_world : world :=
  put_file demo_world RBCFG_TMP_FILE (File S_IFREG (replicate 60 1)).
Lemma rbcfg_set_stale_staging_witness :
  exists c' w', rbcfg_update demo_sys stale_world demo_ctx true = Done (c', w') /\
    rbcfg_check_tmp w' c' = false /\
    files w' !! mtd_device demo_ctx = files stale_world !! mtd_device demo_ctx.
Proof.
  destruct (rbcfg_update demo_sys stale_world demo_ctx true) as [[c' w']| |] eqn:H;
    [|vm_compute in H; discriminate H..].
  exists c', w'. split; [reflexivity|].
  apply (rbcfg_set_stale_staging demo_sys stale_world demo_ctx c' w' (File S_IFREG (replicate 60 1)) demo_wf);
    [by vm_compute|by vm_compute|done|exact H].
Defined.

End Rbcfg.
