(* ===== verification/Nvram.v ===== *)
(** * NVRAM variables ([package/utils/nvram/src/nvram.c])

    Name/value pairs kept in a chained hash table and in a flash area of the form
    header, "name=value" strings, each ended by a NUL, and an empty string.  A
    chain of tuples is the list of its tuples; the mapped device is the byte list
    [mmap], and an access outside it is a [Fault].  Words of the header are in the
    byte order [e] of the machine.  [malloc n] says whether an allocation of [n]
    bytes succeeds; pointers are 32 bits wide. *)

From S2P Require Import Prelude CLib Crc.

(** A store of named values: what the flash image reader expects of the table it
    fills, whatever the representation. *)
Class KVStore (St : Type) := {
  kv_ok : St -> Prop;
  kv_get : St -> bytes -> option bytes;
  kv_set : St -> bytes -> bytes -> St;
  kv_fits : bytes -> Prop;
  kv_set_ok : forall s n v, kv_ok s -> kv_ok (kv_set s n v);
  kv_get_set_eq : forall s n v, kv_ok s -> kv_fits v -> kv_get (kv_set s n v) n = Some v;
  kv_get_set_ne : forall s n n' v, kv_ok s -> n <> n' -> kv_get (kv_set s n v) n' = kv_get s n';
}.

(** A store filled from a list with distinct names holds exactly its values. *)
Section Load.
Context {St : Type} {K : KVStore St}.
Definition kv_load (l : list (bytes * bytes)) (s : St) : St :=
  fold_left (fun s x => kv_set s x.1 x.2) l s.

Lemma kv_load_ok l s : kv_ok s -> kv_ok (kv_load l s).
Proof. revert s. induction l as [|x l IH]; intros s Hs; [done|]. apply IH. by apply kv_set_ok. Qed.
Lemma kv_load_other l s n :
  kv_ok s -> (n ∉ l.*1) -> kv_get (kv_load l s) n = kv_get s n.
Proof.
  revert s. induction l as [|x l IH]; intros s Hs Hn; [done|]. cbn in Hn.
  apply not_elem_of_cons in Hn as [Hx Hn]. cbn. etransitivity; [apply IH; [by apply kv_set_ok|done]|].
  by apply kv_get_set_ne.
Qed.
Lemma kv_load_get l s n v :
  kv_ok s -> NoDup (l.*1) -> Forall (fun x => kv_fits x.2) l -> (n, v) ∈ l ->
  kv_get (kv_load l s) n = Some v.
Proof.
  revert s. induction l as [|[n' v'] l IH]; intros s Hs Hd Hf Hin.
  { by apply not_elem_of_nil in Hin. }
  apply NoDup_cons in Hd as [Hx Hd]. apply Forall_cons in Hf as [Hv Hf].
  apply elem_of_cons in Hin as [[= -> ->]|Hin].
  - etransitivity; [apply (kv_load_other l (kv_set s n' v')); [by apply kv_set_ok|done]|].
    by apply kv_get_set_eq.
  - apply (IH (kv_set s n' v')); [by apply kv_set_ok|done..].
Qed.
End Load.

Module Nvram.

Definition NVRAM_SPACE : Z := 0x8000.
Definition NVRAM_MAGIC : Z := 0x48534C46.
Definition NVRAM_VERSION : Z := 1.
Definition NVRAM_CRC_START_POSITION : nat := 9.
Definition SDRAM_INIT : Z := 0x419.
Definition SDRAM_CONFIG : Z := 0.
Definition SDRAM_REFRESH : Z := Z.lor (Z.land 0x40 0xff) 0x8000.
Definition HEADER_SIZE : nat := 20.
Definition NVRAM_ROUNDUP (x y : Z) : Z := (x + (y - 1)) / y * y.

(** The value is a null pointer after a failed reallocation. *)
Record nvram_tuple := Tuple { t_name : bytes; t_value : option bytes }.

Record nvram_handle := Handle {
  mmap : bytes;
  mmap_addr : Z;
  offset : nat;
  nvram_hash : list (list nvram_tuple);
  nvram_dead : list nvram_tuple;
}.
Definition set_mmap (h : nvram_handle) (m : bytes) : nvram_handle :=
  Handle m (mmap_addr h) (offset h) (nvram_hash h) (nvram_dead h).
Definition set_table (h : nvram_handle) (t : list (list nvram_tuple)) (d : list nvram_tuple)
    : nvram_handle :=
  Handle (mmap h) (mmap_addr h) (offset h) t d.

(** ** The hash table *)

(** [hash = 31 * hash + *s++], with [char] signed. *)
Definition hash (s : bytes) : Z := fold_left (fun h c => u32 (31 * h + s8 c)) s 0.

(** [hash (name) % NVRAM_ARRAYSIZE (h->nvram_hash)]: the macro expands to
    [sizeof (a) / sizeof (a[0])] without parentheses, so the remainder is taken
    by the size of the array in bytes. *)
Definition bucket (name : bytes) : nat := Z.to_nat (hash name mod (257 * 4) / 4).

Definition empty_table : list (list nvram_tuple) := replicate 257 [].
Definition chain (h : nvram_handle) (name : bytes) : list nvram_tuple :=
  default [] (nvram_hash h !! bucket name).

Definition nvram_free (h : nvram_handle) : nvram_handle := set_table h empty_table [].

(** First tuple of a chain with the given name. *)
Definition find_tuple (name : bytes) (l : list nvram_tuple) : option (nat * nvram_tuple) :=
  find_from (fun t => strcmp_eq (t_name t) name) l.

Definition nvram_get (h : nvram_handle) (name : bytes) : option bytes :=
  match find_tuple name (chain h name) with
  | Some (_, t) => t_value t
  | None => None
  end.

Section Alloc.
Context (malloc : Z -> bool).

(** [_nvram_realloc (h, t, name, value)]: the tuple returned ([None] for NULL), and
    what it left of [t]. *)
Definition nvram_realloc (t : option nvram_tuple) (name value : bytes)
    : option nvram_tuple * option nvram_tuple :=
  if NVRAM_SPACE <? Z.of_nat (length value) + 1 then (None, t)
  else
    let t1 :=
      match t with
      | Some t => Some t
      | None =>
        if malloc (12 + Z.of_nat (length name) + 1) then Some (Tuple name None) else None
      end in
    match t1 with
    | None => (None, t)
    | Some t1 =>
      if (match t_value t1 with Some v => strcmp_eq v value | None => false end)
      then (Some t1, Some t1)
      else if malloc (Z.of_nat (length value) + 1)
        then let t2 := Tuple (t_name t1) (Some value) in (Some t2, Some t2)
        else (None, match t with Some _ => Some (Tuple (t_name t1) None) | None => None end)
    end.

(** Tuples are reallocated in place: a tuple that was found is the one
    [nvram_realloc] returns, so the source's move of the old tuple to the dead
    list never happens. *)
Definition nvram_set (h : nvram_handle) (name value : bytes) : Z * nvram_handle :=
  let i := bucket name in
  let l := chain h name in
  match find_tuple name l with
  | Some (k, t) =>
    let '(u, t') := nvram_realloc (Some t) name value in
    let h' := set_table h (<[i := <[k := default t t']> l]> (nvram_hash h)) (nvram_dead h) in
    match u with None => (-12, h') | Some _ => (0, h') end
  | None =>
    match fst (nvram_realloc None name value) with
    | None => (-12, h)
    | Some u => (0, set_table h (<[i := u :: l]> (nvram_hash h)) (nvram_dead h))
    end
  end.

Definition nvram_unset (h : nvram_handle) (name : bytes) : nvram_handle :=
  let i := bucket name in
  let l := chain h name in
  match find_tuple name l with
  | Some (k, t) => set_table h (<[i := delete k l]> (nvram_hash h)) (t :: nvram_dead h)
  | None => h
  end.

(** Copies are pushed in front, so the last chain comes first; a failed
    allocation ends the chain it happens in. *)
Definition nvram_getall (h : nvram_handle) : list nvram_tuple :=
  fold_left (fun acc l => fold_left (fun acc t => if malloc 12 then t :: acc else acc) l acc)
    (nvram_hash h) [].

(** ** The flash image *)

Context (e : endian).

Definition load32 {E} (m : bytes) (off : nat) : outcome E Z :=
  w ← access (slice off 4 m); Done (word_val e w).
Definition store {E} (m : bytes) (off : nat) (bs : bytes) : outcome E bytes :=
  access (splice off bs m).
Definition store32 {E} (m : bytes) (off : nat) (v : Z) : outcome E bytes :=
  store m off (word_bytes e v).

(** The parse loop of [_nvram_rehash]: [name] is its pointer. Each turn moves it
    past a NUL, so the length of the area is enough fuel. *)
Fixpoint rehash_loop {E} (fuel : nat) (h : nvram_handle) (name : nat) : outcome E nvram_handle :=
  match fuel with
  | O => Fault
  | S f =>
    s ← cstring (mmap h) name;
    match s with
    | [] => Done h
    | _ =>
      match strchr s 61 with
      | None => Done h
      | Some eq =>
        let value := drop (S eq) s in
        rehash_loop f (snd (nvram_set h (take eq s) value)) (name + S (length s))
      end
    end
  end.

Definition set_default (h : nvram_handle) (name : string) (val : bytes) : nvram_handle :=
  match nvram_get h (str name) with
  | Some _ => h
  | None => snd (nvram_set h (str name) val)
  end.

Definition nvram_rehash {E} (h : nvram_handle) : outcome E nvram_handle :=
  let hdr := offset h in
  h1 ← rehash_loop (S (length (mmap h))) (nvram_free h) (hdr + HEADER_SIZE);
  crc_ver_init ← load32 (mmap h1) (hdr + 8);
  config_refresh ← load32 (mmap h1) (hdr + 12);
  config_ncdl ← load32 (mmap h1) (hdr + 16);
  let hex w x := str "0x" ++ print_hex true w x in
  let h2 := set_default h1 "sdram_init" (hex 4%nat (u16 (crc_ver_init >>ᵤ 16))) in
  let h3 := set_default h2 "sdram_config" (hex 4%nat (u16 (config_refresh &ᵤ 0xffff))) in
  let h4 := set_default h3 "sdram_refresh" (hex 4%nat (u16 ((config_refresh >>ᵤ 16) &ᵤ 0xffff))) in
  Done (set_default h4 "sdram_ncdl" (hex 8%nat config_ncdl)).

(** One tuple as it is printed. *)
Definition tuple_text (t : nvram_tuple) (value : bytes) : bytes := t_name t ++ [61] ++ value ++ [0].

(** The writing loop over one chain: a tuple that does not fit before [end_] ends
    the chain (but not the loop over the chains). *)
Fixpoint commit_chain {E} (m : bytes) (ptr end_ : nat) (l : list nvram_tuple)
    : outcome E (bytes * nat) :=
  match l with
  | [] => Done (m, ptr)
  | t :: l' =>
    value ← access (t_value t);
    if decide (end_ < ptr + length (t_name t) + 1 + length value + 1)%nat then Done (m, ptr)
    else
      m ← store m ptr (tuple_text t value);
      commit_chain m (ptr + length (tuple_text t value)) end_ l'
  end.
Fixpoint commit_chains {E} (m : bytes) (ptr end_ : nat) (ls : list (list nvram_tuple))
    : outcome E (bytes * nat) :=
  match ls with
  | [] => Done (m, ptr)
  | l :: ls' => '(m, ptr) ← commit_chain m ptr end_ l; commit_chains m ptr end_ ls'
  end.

(** The header words [crc_ver_init] (without CRC), [config_refresh] and
    [config_ncdl] regenerated from the variables. *)
Definition commit_header (h : nvram_handle) : Z * Z * Z :=
  let ver := NVRAM_VERSION <<ᵤ 8 in
  match nvram_get h (str "sdram_init"), nvram_get h (str "sdram_config"),
        nvram_get h (str "sdram_refresh"), nvram_get h (str "sdram_ncdl") with
  | Some init, Some config, Some refresh, Some ncdl =>
    (ver |ᵤ (((strtoul 0 init).1 &ᵤ 0xffff) <<ᵤ 16),
     ((strtoul 0 config).1 &ᵤ 0xffff) |ᵤ (((strtoul 0 refresh).1 &ᵤ 0xffff) <<ᵤ 16),
     (strtoul 0 ncdl).1)
  | _, _, _, _ => (ver |ᵤ (SDRAM_INIT <<ᵤ 16), SDRAM_CONFIG |ᵤ (SDRAM_REFRESH <<ᵤ 16), 0)
  end.

(** The image [nvram_commit] leaves in the mapped area, before it is read back. *)
Definition commit_image {E} (h : nvram_handle) : outcome E bytes :=
  let hdr := offset h in
  let '(cvi, cr, cn) := commit_header h in
  m ← store32 (mmap h) hdr NVRAM_MAGIC;
  m ← store32 m (hdr + 8) cvi;
  m ← store32 m (hdr + 12) cr;
  m ← store32 m (hdr + 16) cn;
  let ptr := (hdr + HEADER_SIZE)%nat in
  m ← store m ptr (replicate (Z.to_nat NVRAM_SPACE - HEADER_SIZE) 0xff);
  let end_ := (hdr + Z.to_nat NVRAM_SPACE - 2)%nat in
  '(m, ptr) ← commit_chains m ptr end_ (nvram_hash h);
  m ← store m ptr [0];
  let ptr := S ptr in
  let r := Z.rem (s32 (mmap_addr h + Z.of_nat ptr)) 4 in
  m ← (if r =? 0 then Done m else store m ptr (replicate (Z.to_nat (4 - r)) 0));
  let ptr := S ptr in
  let len := NVRAM_ROUNDUP (Z.of_nat ptr - Z.of_nat hdr) 4 in
  m ← store32 m (hdr + 4) len;
  let tmp := replicate 8 0 ++ word_bytes e cvi ++ word_bytes e cr ++ word_bytes e cn in
  let crc := hndcrc8 (drop NVRAM_CRC_START_POSITION tmp) 0xff in
  data ← access (slice (hdr + HEADER_SIZE) (Z.to_nat (len - Z.of_nat HEADER_SIZE)) m);
  let crc := hndcrc8 data crc in
  store32 m (hdr + 8) (cvi |ᵤ crc).

Definition nvram_commit {E} (h : nvram_handle) : outcome E nvram_handle :=
  m ← commit_image h;
  nvram_rehash (set_mmap h m).

(** The search [nvram_open] makes for the magic word in the mapped device, one
    word at a time up to the last place where the area still fits ([n] words
    are left to look at). *)
Fixpoint nvram_scan {E} (m : bytes) (i n : nat) : outcome E (option nat) :=
  match n with
  | O => Done None
  | S n' =>
    w ← load32 m (4 * i);
    if w =? NVRAM_MAGIC then Done (Some (4 * i)%nat) else nvram_scan m (S i) n'
  end.
(** [nvram_open] once the device is mapped: [erase_size] bytes at [addr].
    [None] is the null pointer. *)
Definition nvram_open {E} (m : bytes) (addr erase_size : Z) : outcome E (option nvram_handle) :=
  o ← nvram_scan m 0 (Z.to_nat (u32 (erase_size - NVRAM_SPACE) / 4 + 1));
  match o with
  | None => Done None
  | Some off =>
    if malloc (257 * 4 + 20) then
      h ← nvram_rehash (Handle m addr off empty_table []);
      Done (Some h)
    else Done None
  end.
End Alloc.

(** ** Chains as association lists *)

Fixpoint assoc (name : bytes) (l : list nvram_tuple) : option nvram_tuple :=
  match l with
  | [] => None
  | t :: l' => if decide (t_name t = name) then Some t else assoc name l'
  end.

Lemma find_tuple_assoc name l : snd <$> find_tuple name l = assoc name l.
Proof.
  unfold find_tuple. induction l as [|t l IH]; simpl; [done|].
  unfold strcmp_eq. case_decide as Hd.
  - by rewrite bool_decide_eq_true_2.
  - rewrite bool_decide_eq_false_2 by done. rewrite <- IH. by destruct (find_from _ l) as [[? ?]|].
Qed.

Lemma find_tuple_Some name l k t :
  find_tuple name l = Some (k, t) -> l !! k = Some t /\ t_name t = name.
Proof.
  intros (Hk & Hn & _)%find_from_Some. unfold strcmp_eq in Hn.
  by apply bool_decide_eq_true in Hn.
Qed.

Lemma assoc_insert name l k t u :
  l !! k = Some t -> t_name t = t_name u -> NoDup (t_name <$> l) ->
  assoc name (<[k := u]> l) = if decide (t_name u = name) then Some u else assoc name l.
Proof.
  revert k. induction l as [|x l IH]; intros [|k] Hk Hn Hd; simpl in *; try done.
  - injection Hk as ->. rewrite Hn. by case_decide.
  - apply NoDup_cons in Hd as [Hx Hd]. rewrite (IH k) by done.
    destruct (decide (t_name x = name)), (decide (t_name u = name)); try done.
    destruct Hx. apply list_elem_of_lookup. exists k.
    rewrite list_lookup_fmap, Hk. simpl. congruence.
Qed.

Lemma assoc_delete name l k t :
  l !! k = Some t -> NoDup (t_name <$> l) ->
  assoc name (delete k l) = if decide (t_name t = name) then None else assoc name l.
Proof.
  revert k. induction l as [|x l IH]; intros [|k] Hk Hd; simpl in *; try done.
  - injection Hk as ->. apply NoDup_cons in Hd as [Hx Hd]. case_decide as Hn; [|done].
    clear IH. induction l as [|y l IH]; simpl in *; [done|].
    apply not_elem_of_cons in Hx as [Hy Hx]. apply NoDup_cons in Hd as [_ Hd].
    rewrite decide_False by congruence. by apply IH.
  - apply NoDup_cons in Hd as [Hx Hd]. rewrite (IH k) by done.
    destruct (decide (t_name x = name)), (decide (t_name t = name)); try done.
    destruct Hx. apply list_elem_of_lookup. exists k. rewrite list_lookup_fmap, Hk. simpl. congruence.
Qed.

Lemma assoc_None name l : assoc name l = None <-> (name ∉ (t_name <$> l)).
Proof.
  induction l as [|t l IH]; simpl; [split; [intros _; apply not_elem_of_nil|done]|].
  rewrite not_elem_of_cons. case_decide as Hd; [split; [done|intros [? _]; congruence]|].
  rewrite IH. intuition congruence.
Qed.
Lemma assoc_Some name l t : assoc name l = Some t -> t_name t = name /\ t ∈ l.
Proof.
  induction l as [|x l IH]; simpl; [done|]. case_decide as Hd.
  - intros [= <-]. split; [done|]. by left.
  - intros [? ?]%IH. split; [done|]. by right.
Qed.

(** ** Well-formed tables *)

Record wf (h : nvram_handle) : Prop := {
  wf_size : length (nvram_hash h) = 257%nat;
  wf_names : forall i l, nvram_hash h !! i = Some l ->
    NoDup (t_name <$> l) /\ Forall (fun t => bucket (t_name t) = i) l;
}.

Lemma bucket_lt name : (bucket name < 257)%nat.
Proof.
  unfold bucket. pose proof (Z.mod_pos_bound (hash name) (257 * 4) ltac:(lia)).
  assert (hash name mod (257 * 4) / 4 < 257) by (apply Z.div_lt_upper_bound; lia).
  assert (0 <= hash name mod (257 * 4) / 4) by (apply Z.div_pos; lia). lia.
Qed.

Lemma wf_chain h name : wf h -> nvram_hash h !! bucket name = Some (chain h name).
Proof.
  intros [Hs _]. unfold chain.
  destruct (lookup_lt_is_Some_2 (nvram_hash h) (bucket name)) as [l Hl].
  { rewrite Hs. apply bucket_lt. }
  by rewrite Hl.
Qed.

(** The table as a function from names to tuples. *)
Definition tuple_of (h : nvram_handle) (name : bytes) : option nvram_tuple :=
  assoc name (chain h name).
Lemma nvram_get_tuple h name : nvram_get h name = tuple_of h name ≫= t_value.
Proof.
  unfold nvram_get, tuple_of. rewrite <- find_tuple_assoc.
  by destruct (find_tuple _ _) as [[? ?]|].
Qed.

(** Replacing the chain of [name] by one that differs only at [name]. *)
Lemma set_chain_wf h name l d :
  wf h -> NoDup (t_name <$> l) -> Forall (fun t => bucket (t_name t) = bucket name) l ->
  wf (set_table h (<[bucket name := l]> (nvram_hash h)) d).
Proof.
  intros [Hs Hn] Hl Hb. constructor; simpl; [by rewrite length_insert|].
  intros i l' Hi. destruct (decide (i = bucket name)) as [->|Hne].
  - rewrite list_lookup_insert_eq in Hi by (rewrite Hs; apply bucket_lt).
    by injection Hi as <-.
  - rewrite list_lookup_insert_ne in Hi by done. by apply Hn.
Qed.
Lemma set_chain_tuple h name l d o :
  wf h ->
  (forall n, assoc n l = if decide (n = name) then o else assoc n (chain h name)) ->
  forall n, tuple_of (set_table h (<[bucket name := l]> (nvram_hash h)) d) n =
       if decide (n = name) then o else tuple_of h n.
Proof.
  intros Hwf Hl n. unfold tuple_of, chain. simpl.
  destruct (decide (bucket n = bucket name)) as [Hb|Hb].
  - rewrite Hb, list_lookup_insert_eq by (rewrite wf_size by done; apply bucket_lt). simpl.
    rewrite Hl. by case_decide.
  - rewrite list_lookup_insert_ne by done. rewrite decide_False; [done|]. congruence.
Qed.

Lemma wf_chain_ok h name :
  wf h -> NoDup (t_name <$> chain h name) /\
  Forall (fun t => bucket (t_name t) = bucket name) (chain h name).
Proof. intros Hwf. apply (wf_names h Hwf). by apply wf_chain. Qed.

(** ** The operations on tables *)

Section Laws.
Context (malloc : Z -> bool) (e : endian).

Definition fits (value : bytes) : Prop := Z.of_nat (length value) < NVRAM_SPACE.

Lemma realloc_name t name value u t' :
  nvram_realloc malloc t name value = (u, t') ->
  match u with Some u => t_value u = Some value /\ fits value /\
                 t_name u = match t with Some t => t_name t | None => name end | None => True end /\
  match t, t' with Some t, Some t' => t_name t' = t_name t | None, Some t' => t_name t' = name
                 | Some _, None => False | None, None => True end /\
  match t, u with Some _, Some u => t' = Some u | _, _ => True end.
Proof.
  unfold nvram_realloc, fits. destruct (Z.ltb_spec NVRAM_SPACE (Z.of_nat (length value) + 1)).
  { intros [= <- <-]. by destruct t. }
  destruct t as [t|].
  - destruct (t_value t) as [v|] eqn:Hv.
    + unfold strcmp_eq. case_bool_decide as Hd.
      * intros [= <- <-]. subst. repeat split; try done. lia.
      * destruct (malloc _); intros [= <- <-]; repeat split; try done; simpl; lia.
    + destruct (malloc _); intros [= <- <-]; repeat split; try done; simpl; lia.
  - destruct (malloc _); [|by intros [= <- <-]].
    simpl. destruct (malloc _); intros [= <- <-]; repeat split; try done; simpl; lia.
Qed.

Lemma nvram_set_spec h name value r h' :
  wf h -> nvram_set malloc h name value = (r, h') ->
  wf h' /\ mmap h' = mmap h /\ offset h' = offset h /\ mmap_addr h' = mmap_addr h /\
  (forall n, n <> name -> tuple_of h' n = tuple_of h n) /\
  (r = 0 -> nvram_get h' name = Some value) /\
  (r <> 0 -> r = -12 /\ (nvram_get h' name = nvram_get h name \/ nvram_get h' name = None)).
Proof.
  intros Hwf. unfold nvram_set. destruct (wf_chain_ok h name Hwf) as [Hnd Hbk].
  destruct (find_tuple name (chain h name)) as [[k t]|] eqn:Hf.
  - destruct (find_tuple_Some _ _ _ _ Hf) as [Hk Hn].
    destruct (nvram_realloc malloc (Some t) name value) as [u t'] eqn:Hr.
    destruct (realloc_name _ _ _ _ _ Hr) as (Hu & Ht' & Hut). destruct t' as [t'|]; [|done]. simpl.
    assert (Hwf' : wf (set_table h (<[bucket name := <[k := t']> (chain h name)]> (nvram_hash h)) (nvram_dead h))).
    { apply set_chain_wf; [done| |].
      - rewrite list_fmap_insert, list_insert_id; [done|]. rewrite list_lookup_fmap, Hk. simpl. congruence.
      - apply Forall_insert; [done|]. congruence. }
    assert (Htup : forall n, tuple_of (set_table h (<[bucket name := <[k := t']> (chain h name)]> (nvram_hash h)) (nvram_dead h)) n
              = if decide (n = name) then Some t' else tuple_of h n).
    { apply set_chain_tuple; [done|]. intros n. rewrite (assoc_insert n _ k t t'); try done.
      repeat case_decide; congruence. }
    assert (Hres : forall u', u = Some u' -> t' = u' /\ t_value u' = Some value).
    { intros u' ->. destruct Hu as [? _]. by injection Hut as ->. }
    destruct u as [u|]; intros [= <- <-]; (do 4 (split; [done|])).
    + split; [intros n Hne; rewrite Htup, decide_False by done; done|].
      destruct (Hres u eq_refl) as [-> Hv].
      split; [|done]. intros _. by rewrite nvram_get_tuple, Htup, decide_True.
    + split; [intros n Hne; rewrite Htup, decide_False by done; done|].
      split; [done|]. intros _. split; [done|].
      rewrite !nvram_get_tuple, Htup, decide_True by done. simpl.
      unfold tuple_of. rewrite <- find_tuple_assoc, Hf. simpl.
      unfold nvram_realloc in Hr. destruct (_ <? _); [injection Hr as <-; by left|].
      destruct (match t_value t with Some v => _ | None => _ end); [done|].
      destruct (malloc _); [done|]. injection Hr as <-. by right.
  - destruct (nvram_realloc malloc None name value) as [[u|] t'] eqn:Hr; simpl; intros [= <- <-].
    + destruct (realloc_name _ _ _ _ _ Hr) as ((Hv & _ & Hn) & _).
      assert (Hnone : name ∉ (t_name <$> chain h name))
        by (apply assoc_None; by rewrite <- find_tuple_assoc, Hf).
      assert (Htup : forall n, tuple_of (set_table h (<[bucket name := u :: chain h name]> (nvram_hash h)) (nvram_dead h)) n
                = if decide (n = name) then Some u else tuple_of h n).
      { apply set_chain_tuple; [done|]. intros n. simpl. repeat case_decide; congruence. }
      split; [apply set_chain_wf; [done|constructor; [by rewrite Hn|done]|constructor; [by rewrite Hn|done]]|].
      do 3 (split; [done|]). split; [intros n Hne; rewrite Htup, decide_False by done; done|].
      split; [|done]. intros _. by rewrite nvram_get_tuple, Htup, decide_True.
    + do 5 (split; [done|]). split; [done|]. intros _. split; [done|]. by left.
Qed.

Lemma nvram_set_ok h name value :
  wf h -> (forall n, malloc n = true) -> fits value -> (nvram_set malloc h name value).1 = 0.
Proof.
  intros Hwf Hm Hfit. unfold nvram_set, nvram_realloc, fits in *. rewrite !Hm.
  destruct (Z.ltb_spec NVRAM_SPACE (Z.of_nat (length value) + 1)); [lia|].
  destruct (find_tuple _ _) as [[k t]|]; [|done]. by destruct (match t_value t with Some v => _ | None => _ end).
Qed.

Lemma nvram_unset_spec h name :
  wf h ->
  wf (nvram_unset h name) /\ nvram_get (nvram_unset h name) name = None /\
  (forall n, n <> name -> nvram_get (nvram_unset h name) n = nvram_get h n).
Proof.
  intros Hwf. unfold nvram_unset. destruct (wf_chain_ok h name Hwf) as [Hnd Hbk].
  destruct (find_tuple name (chain h name)) as [[k t]|] eqn:Hf.
  - destruct (find_tuple_Some _ _ _ _ Hf) as [Hk Hn].
    assert (Htup : forall n, tuple_of (set_table h (<[bucket name := delete k (chain h name)]> (nvram_hash h)) (t :: nvram_dead h)) n
              = if decide (n = name) then None else tuple_of h n).
    { apply set_chain_tuple; [done|]. intros n. rewrite (assoc_delete n _ k t) by done.
      repeat case_decide; congruence. }
    split; [|split].
    + apply set_chain_wf; [done| |].
      * rewrite list_fmap_delete. eapply sublist_NoDup; [exact Hnd|apply sublist_delete].
      * by apply Forall_delete.
    + by rewrite nvram_get_tuple, Htup, decide_True.
    + intros n Hne. by rewrite !nvram_get_tuple, Htup, decide_False.
  - split; [done|]. split; [|done].
    rewrite nvram_get_tuple. unfold tuple_of. by rewrite <- find_tuple_assoc, Hf.
Qed.

(** ** Reading the text of the area back *)

Definition entry := (bytes * bytes)%type.
Definition entry_text (x : entry) : bytes := x.1 ++ [61] ++ x.2 ++ [0].
Definition text_of (l : list entry) : bytes := concat (entry_text <$> l).
(** Names hold no '=' and no NUL, values no NUL, and fit. *)
Definition entry_ok (x : entry) : Prop :=
  (61 ∉ x.1) /\ (0 ∉ x.1) /\ (0 ∉ x.2) /\ fits x.2.

Definition set_entry (h : nvram_handle) (x : entry) : nvram_handle :=
  (nvram_set malloc h x.1 x.2).2.

Lemma strchr_app n c v : (c ∉ n) -> strchr (n ++ c :: v) c = Some (length n).
Proof.
  intros Hn. unfold strchr.
  assert (find_from (fun x => x =? c) (n ++ c :: v) = Some (length n, c)) as ->; [|done].
  apply find_from_Some. split; [by rewrite list_lookup_middle|]. split; [apply Z.eqb_refl|].
  intros j y Hj Hy. rewrite lookup_app_l in Hy by done. apply Z.eqb_neq. intros ->.
  apply Hn, list_elem_of_lookup. by exists j.
Qed.

Lemma set_entry_mmap h x : mmap (set_entry h x) = mmap h /\ offset (set_entry h x) = offset h.
Proof.
  unfold set_entry, nvram_set. destruct (find_tuple _ _) as [[k t]|].
  - destruct (nvram_realloc _ _ _ _) as [[u|] t']; done.
  - by destruct (fst _).
Qed.

Lemma rehash_loop_text {E} l rest fuel h name :
  drop name (mmap h) = text_of l ++ 0 :: rest -> Forall entry_ok l -> (length l < fuel)%nat ->
  @rehash_loop malloc E fuel h name = Done (fold_left set_entry l h).
Proof.
  intros Hd Hok. revert fuel h name Hd. induction Hok as [|[n v] l (Hn1 & Hn2 & Hv & _) Hok IH];
    (intros [|fuel] h name Hd Hf; [simpl in Hf; lia|]).
  - cbn [rehash_loop]. by rewrite (cstring_app (mmap h) name [] rest Hd (not_elem_of_nil 0)).
  - cbn [rehash_loop fst snd] in *.
    assert (Hd' : drop name (mmap h) = (n ++ 61 :: v) ++ 0 :: (text_of l ++ 0 :: rest)).
    { rewrite Hd. unfold text_of, entry_text. cbn [fmap list_fmap concat fst snd]. rewrite <- !app_assoc. done. }
    rewrite (cstring_app _ _ _ _ Hd').
    2: { rewrite not_elem_of_app, not_elem_of_cons. done. }
    obind. rewrite strchr_app by done.
    assert (Hsp : take (length n) (n ++ 61 :: v) = n /\ drop (S (length n)) (n ++ 61 :: v) = v).
    { split; [apply take_app_length|]. replace (S (length n)) with (length n + 1)%nat by lia.
      by rewrite drop_app_add. }
    destruct Hsp as [-> ->]. change ((nvram_set malloc h n v).2) with (set_entry h (n, v)).
    destruct (n ++ 61 :: v) as [|c s] eqn:Es; [by destruct n|]. rewrite <- Es in *.
    rewrite IH; [done| |simpl in Hf; lia].
    rewrite (proj1 (set_entry_mmap h (n, v))). rewrite <- drop_drop, Hd'.
    rewrite <- Nat.add_1_r. by rewrite drop_app_add.
Qed.

(** ** Writing the text of the table *)

Definition entry_of (t : nvram_tuple) : entry := (t_name t, default [] (t_value t)).
Definition has_value (t : nvram_tuple) : Prop := is_Some (t_value t).
(** Everything in the table, in the order it is written out. *)
Definition entries (h : nvram_handle) : list entry := entry_of <$> concat (nvram_hash h).

Lemma length_text_app l k : length (text_of (l ++ k)) = (length (text_of l) + length (text_of k))%nat.
Proof. unfold text_of. by rewrite fmap_app, concat_app, length_app. Qed.
Lemma text_of_app l k : text_of (l ++ k) = text_of l ++ text_of k.
Proof. unfold text_of. by rewrite fmap_app, concat_app. Qed.
Lemma length_tuple_text t v :
  length (tuple_text t v) = (length (t_name t) + 1 + length v + 1)%nat.
Proof. unfold tuple_text. rewrite !length_app. simpl. lia. Qed.
Lemma text_of_cons t v l :
  t_value t = Some v -> text_of (entry_of t :: l) = tuple_text t v ++ text_of l.
Proof. intros Hv. unfold text_of, entry_of, tuple_text, entry_text. simpl. by rewrite Hv. Qed.

(** What a writing loop over tuples [l] does to [m] at [ptr]. *)
Definition written (m : bytes) (ptr end_ : nat) (l : list entry) (r : outcome unit (bytes * nat)) : Prop :=
  exists es m', r = Done (m', (ptr + length (text_of es))%nat) /\
    splice ptr (text_of es) m = Some m' /\ (ptr + length (text_of es) <= end_)%nat /\
    sublist es l /\ ((ptr + length (text_of l) <= end_)%nat -> es = l).

Lemma commit_chain_written m ptr end_ l :
  Forall has_value l -> (ptr <= end_)%nat -> (end_ <= length m)%nat ->
  written m ptr end_ (entry_of <$> l) (commit_chain m ptr end_ l).
Proof.
  intros Hl. revert m ptr. induction Hl as [|t l [v Hv] Hl IH]; intros m ptr Hp Hm; cbn [commit_chain].
  - exists [], m. cbn. rewrite Nat.add_0_r, splice_nil by lia. by repeat split.
  - rewrite Hv. obind. case_decide as Hd.
    + exists [], m. change (text_of []) with (@nil Z).
      cbn [length]. rewrite Nat.add_0_r, splice_nil by lia.
      repeat split; try done; [apply sublist_nil_l|].
      rewrite fmap_cons, (text_of_cons t v) by done. rewrite length_app, length_tuple_text. lia.
    + unfold store. rewrite splice_Some by (rewrite length_tuple_text; lia). obind.
      pose proof (splice_Some ptr (tuple_text t v) m ltac:(rewrite length_tuple_text; lia)) as H1.
      set (m1 := take ptr m ++ _) in *. pose proof (splice_length _ _ _ _ H1) as Hl1.
      destruct (IH m1 (ptr + length (tuple_text t v))%nat) as (es & m' & Hr & Hsp & Hle & Hsub & Hall).
      { rewrite length_tuple_text; lia. } { lia. }
      exists (entry_of t :: es), m'. rewrite (text_of_cons t v) by done. rewrite length_app.
      rewrite Hr. rewrite (splice_splice_app _ _ _ _ _ H1) in Hsp.
      split; [do 2 f_equal; lia|]. split; [done|]. split; [lia|].
      split; [by apply sublist_skip|].
      rewrite fmap_cons, (text_of_cons t v) by done. rewrite length_app. intros Hfit. f_equal. apply Hall. lia.
Qed.

Lemma commit_chains_written m ptr end_ ls :
  Forall has_value (concat ls) -> (ptr <= end_)%nat -> (end_ <= length m)%nat ->
  written m ptr end_ (entry_of <$> concat ls) (commit_chains m ptr end_ ls).
Proof.
  revert m ptr. induction ls as [|l ls IH]; intros m ptr Hl Hp Hm; cbn [commit_chains concat] in *.
  - exists [], m. cbn. rewrite Nat.add_0_r, splice_nil by lia. by repeat split.
  - apply Forall_app in Hl as [Hl Hls].
    destruct (commit_chain_written m ptr end_ l Hl Hp Hm) as (es & m1 & -> & H1 & Hle & Hsub & Hall).
    pose proof (splice_length _ _ _ _ H1) as Hl1. obind.
    destruct (IH m1 _ Hls Hle ltac:(lia)) as (es2 & m' & -> & H2 & Hle2 & Hsub2 & Hall2).
    rewrite (splice_splice_app _ _ _ _ _ H1) in H2.
    exists (es ++ es2), m'. rewrite text_of_app, length_app. split; [do 2 f_equal; lia|].
    split; [done|]. split; [lia|]. rewrite fmap_app. split; [by apply sublist_app|].
    rewrite text_of_app, length_app. intros Hfit.
    assert (es = entry_of <$> l) as -> by (apply Hall; lia). f_equal. apply Hall2. lia.
Qed.

(** ** The image *)

Lemma store_ok {E} m off bs :
  (off + length bs <= length m)%nat ->
  exists m', @store E m off bs = Done m' /\ splice off bs m = Some m' /\ length m' = length m.
Proof.
  intros H. unfold store. rewrite splice_Some by done. eexists. split; [done|]. split; [done|].
  eapply splice_length. by apply splice_Some.
Qed.

(** Padding with zeros up to the next multiple of four. *)
Lemma pad_ok {E} m ptr addr end_ :
  (ptr < end_)%nat -> (end_ <= length m)%nat -> 0 <= addr -> addr + Z.of_nat end_ < 2 ^ 31 ->
  (addr + Z.of_nat end_) mod 4 = 0 ->
  let r := Z.rem (s32 (addr + Z.of_nat ptr)) 4 in
  exists m', (if r =? 0 then Done m else @store E m ptr (replicate (Z.to_nat (4 - r)) 0)) = Done m' /\
    frame ptr end_ m m'.
Proof.
  intros Hp Hm Ha Hb Hal r. unfold r. rewrite s32_small, Z.rem_mod_nonneg by lia. clear r.
  pose proof (Z.mod_pos_bound (addr + Z.of_nat ptr) 4 ltac:(lia)) as Hr.
  destruct (Z.eqb_spec ((addr + Z.of_nat ptr) mod 4) 0) as [H0|H0].
  { exists m. split; [done|]. apply frame_refl. }
  assert (Hend : (ptr + Z.to_nat (4 - (addr + Z.of_nat ptr) mod 4) <= end_)%nat) by zdm.
  destruct (@store_ok E m ptr (replicate (Z.to_nat (4 - (addr + Z.of_nat ptr) mod 4)) 0))
    as (m' & -> & Hs & _); [rewrite length_replicate; lia|].
  exists m'. split; [done|]. eapply frame_weaken; [by apply splice_frame|done|].
  by rewrite length_replicate.
Qed.

(** The mapped area is inside the device and at a word boundary of the lower
    half of the address space. *)
Definition mapped (h : nvram_handle) : Prop :=
  (offset h + Z.to_nat NVRAM_SPACE <= length (mmap h))%nat /\ 0 <= mmap_addr h /\
  mmap_addr h + Z.of_nat (offset h) + NVRAM_SPACE < 2 ^ 31 /\
  (mmap_addr h + Z.of_nat (offset h)) mod 4 = 0.

(** What a complete image at [hdr] of [m] looks like: [es] is the text, [len] the
    length word, and the CRC covers the header from byte 9 on, without the CRC
    itself, and the data. *)
Record image (m : bytes) (hdr : nat) (ws : Z * Z * Z) (len : Z) (es : list entry) : Prop := {
  img_magic : slice hdr 4 m = Some (word_bytes e NVRAM_MAGIC);
  img_len : slice (hdr + 4) 4 m = Some (word_bytes e len);
  img_len_range : 24 <= len <= NVRAM_SPACE /\ len mod 4 = 0;
  img_words : slice (hdr + 12) 8 m = Some (word_bytes e ws.1.2 ++ word_bytes e ws.2);
  img_text : exists rest, drop (hdr + 20) m = text_of es ++ 0 :: rest;
  img_text_len : Z.of_nat (length (text_of es)) + 22 <= len;
  img_crc : exists data, slice (hdr + 20) (Z.to_nat len - 20) m = Some data /\
    slice (hdr + 8) 4 m = Some (word_bytes e (ws.1.1 |ᵤ
      hndcrc8 data (hndcrc8 (drop 1 (word_bytes e ws.1.1) ++ word_bytes e ws.1.2 ++ word_bytes e ws.2)
        0xff)));
}.

(** A store during the construction of the image. *)
Ltac stored m Hs Hl :=
  match goal with |- context [@store ?E ?m0 ?o ?b] =>
    let H := fresh in
    destruct (@store_ok E m0 o b) as (m & H & Hs & Hl);
    [rewrite ?length_word_bytes, ?length_replicate; cbn [length]; lia|rewrite H; clear H; obind]
  end.
(** Sends a slice back through the stores it does not meet. *)
Ltac unframe :=
  match goal with F : frame ?lo ?hi ?a ?b |- context [slice ?o ?n ?b] =>
    rewrite (frame_slice lo hi a b o n F) by lia
  end.
Ltac framed H :=
  apply splice_frame in H; rewrite ?length_word_bytes, ?length_replicate in H; cbn [length] in H.

Lemma drop_tmp (a b c : Z) :
  drop NVRAM_CRC_START_POSITION (replicate 8 0 ++ word_bytes e a ++ word_bytes e b ++ word_bytes e c)
  = drop 1 (word_bytes e a) ++ word_bytes e b ++ word_bytes e c.
Proof. by destruct e. Qed.

Lemma commit_image_spec h :
  mapped h -> Forall has_value (concat (nvram_hash h)) ->
  exists m es len, commit_image e h = @Done unit _ m /\
    frame (offset h) (offset h + Z.to_nat NVRAM_SPACE) (mmap h) m /\
    image m (offset h) (commit_header h) len es /\ sublist es (entries h) /\
    (Z.of_nat (length (text_of (entries h))) + 22 <= NVRAM_SPACE -> es = entries h).
Proof.
  intros (Hin & Ha & Hb & Hal) Hv. unfold commit_image, HEADER_SIZE.
  assert (HN : Z.of_nat (Z.to_nat NVRAM_SPACE) = NVRAM_SPACE) by done.
  set (N := Z.to_nat NVRAM_SPACE) in *. set (hdr := offset h) in *. unfold NVRAM_SPACE in *.
  destruct (commit_header h) as [[cvi cr] cn]. unfold store32.
  stored m1 H1 L1. stored m2 H2 L2. stored m3 H3 L3. stored m4 H4 L4. stored m5 H5 L5.
  destruct (commit_chains_written m5 (hdr + 20) (hdr + N - 2) (nvram_hash h) Hv) as
    (es & m6 & -> & H6 & Hle & Hsub & Hall); [lia|lia|].
  pose proof (splice_length _ _ _ _ H6) as L6. obind.
  set (p := (hdr + 20 + length (text_of es))%nat) in *.
  stored m7 H7 L7.
  destruct (@pad_ok unit m7 (S p) (mmap_addr h) (hdr + N)) as (m8 & -> & F8);
    [lia|lia|lia|lia|zdm|]. obind.
  pose proof (proj1 F8) as L8.
  set (len := NVRAM_ROUNDUP (Z.of_nat (S (S p)) - Z.of_nat hdr) 4).
  assert (Hlen : Z.of_nat (length (text_of es)) + 22 <= len /\ 24 <= len <= 32768 /\ len mod 4 = 0)
    by (unfold len, NVRAM_ROUNDUP; zdm).
  stored m9 H9 L9.
  rewrite slice_Some by lia. obind.
  assert (Hdat := slice_Some (hdr + 20) (Z.to_nat (len - Z.of_nat 20)) m9 ltac:(lia)).
  set (data := take _ _) in *. rewrite drop_tmp.
  set (crc := hndcrc8 data _). stored m10 H10 L10.
  exists m10, es, len. split; [done|].
  pose proof (slice_splice _ _ _ _ H1) as S1. pose proof (slice_splice _ _ _ _ H3) as S3.
  pose proof (slice_splice _ _ _ _ H4) as S4. pose proof (slice_splice _ _ _ _ H9) as S9.
  pose proof (slice_splice _ _ _ _ H10) as S10. pose proof (splice_splice_app _ _ [0] _ _ H6) as S7.
  fold p in S7. rewrite H7 in S7. symmetry in S7. apply slice_splice in S7.
  rewrite ?length_word_bytes, ?length_app in *. cbn [length] in S7.
  framed H1. framed H2. framed H3. framed H4. framed H5. framed H6. framed H7. framed H9. framed H10.
  split.
  { repeat (eapply frame_trans; [eapply frame_weaken; [eassumption|lia|lia]|]). apply frame_refl. }
  split; [|split; [done|intros Hfit; apply Hall; unfold entries in Hfit; lia]].
  constructor.
  - by repeat unframe.
  - by repeat unframe.
  - unfold NVRAM_SPACE. lia.
  - apply (slice_app _ 4 4); [by repeat unframe|].
    replace (hdr + 12 + 4)%nat with (hdr + 16)%nat by lia. by repeat unframe.
  - destruct (slice_drop (hdr + 20) (length (text_of es) + 1) m10 (text_of es ++ [0])) as [post Hp].
    { by repeat unframe. }
    exists post. by rewrite Hp, <- app_assoc.
  - lia.
  - exists data. split; [|done]. unframe. rewrite <- Hdat. f_equal. lia.
Qed.

(** ** Entries of a well-formed table *)

Lemma wf_tuples h l t :
  wf h -> l ∈ nvram_hash h -> t ∈ l -> l = chain h (t_name t) /\ tuple_of h (t_name t) = Some t.
Proof.
  intros Hwf [i Hi]%list_elem_of_lookup Ht. destruct (wf_names h Hwf i l Hi) as [Hd Hb].
  rewrite Forall_forall in Hb. specialize (Hb t Ht). subst i.
  rewrite (wf_chain h (t_name t) Hwf) in Hi. injection Hi as <-. split; [done|].
  unfold tuple_of. clear Hwf. induction (chain h (t_name t)) as [|x l IH]; [by apply not_elem_of_nil in Ht|].
  cbn in *. apply NoDup_cons in Hd as [Hx Hd]. apply elem_of_cons in Ht as [->|Ht]; [by rewrite decide_True|].
  rewrite decide_False; [by apply IH|]. intros Hn. apply Hx. rewrite Hn. by apply list_elem_of_fmap_2.
Qed.

Lemma wf_concat_names h : wf h -> NoDup (t_name <$> concat (nvram_hash h)).
Proof.
  intros Hwf. pose proof (wf_names h Hwf) as Hn. clear Hwf.
  assert (Hg : forall k ls, (forall i l, ls !! i = Some l ->
            NoDup (t_name <$> l) /\ Forall (fun t => bucket (t_name t) = (k + i)%nat) l) ->
            NoDup (t_name <$> concat ls) /\ Forall (fun t => (k <= bucket (t_name t))%nat) (concat ls)).
  { intros k ls. revert k. induction ls as [|l ls IH]; intros k Hl; cbn.
    { split; constructor. }
    destruct (Hl O l eq_refl) as [Hd Hb]. rewrite Nat.add_0_r in Hb.
    destruct (IH (S k)) as [Hd' Hb'].
    { intros i l' Hi. destruct (Hl (S i) l' Hi) as [? Hf]. split; [done|].
      eapply Forall_impl; [exact Hf|]. cbn. intros. lia. }
    split.
    - rewrite fmap_app. apply NoDup_app. split; [done|]. split; [|done].
      intros n (t & -> & Ht)%list_elem_of_fmap (t' & Hn' & Ht')%list_elem_of_fmap.
      rewrite Forall_forall in Hb, Hb'. specialize (Hb t Ht). specialize (Hb' t' Ht').
      rewrite <- Hn' in Hb'. lia.
    - apply Forall_app. split; [|eapply Forall_impl; [exact Hb'|cbn; intros; lia]].
      eapply Forall_impl; [exact Hb|]. cbn. intros. lia. }
  by apply (Hg O).
Qed.

Lemma concat_tuple h t : wf h -> t ∈ concat (nvram_hash h) <-> tuple_of h (t_name t) = Some t.
Proof.
  intros Hwf. rewrite list_elem_of_In, in_concat. split.
  - intros (l & Hl%list_elem_of_In & Ht%list_elem_of_In). by eapply wf_tuples.
  - intros Ht. exists (chain h (t_name t)). rewrite <- !list_elem_of_In. split.
    + apply list_elem_of_lookup. exists (bucket (t_name t)). by apply wf_chain.
    + by apply assoc_Some in Ht as [_ ?].
Qed.
Lemma tuple_of_name h n t : tuple_of h n = Some t -> t_name t = n.
Proof. by intros [? _]%assoc_Some. Qed.

Lemma entries_names h : (entries h).*1 = t_name <$> concat (nvram_hash h).
Proof. unfold entries. by rewrite <- list_fmap_compose. Qed.
Lemma entries_get h n v : wf h -> nvram_get h n = Some v -> (n, v) ∈ entries h.
Proof.
  intros Hwf. rewrite nvram_get_tuple. destruct (tuple_of h n) as [t|] eqn:Ht; [|done].
  cbn. intros Hv. pose proof (tuple_of_name _ _ _ Ht) as <-. apply concat_tuple in Ht; [|done].
  apply list_elem_of_fmap. exists t. split; [|done]. unfold entry_of. by rewrite Hv.
Qed.
Lemma entries_none h n :
  wf h -> Forall has_value (concat (nvram_hash h)) -> nvram_get h n = None -> (n ∉ (entries h).*1).
Proof.
  intros Hwf Hv Hg. rewrite entries_names. intros (t & -> & Ht)%list_elem_of_fmap.
  rewrite Forall_forall in Hv. destruct (Hv t Ht) as [v Htv].
  apply concat_tuple in Ht; [|done]. by rewrite nvram_get_tuple, Ht in Hg; cbn in Hg; rewrite Htv in Hg.
Qed.

(** ** Reading an image back *)

Section Reading.
Context (malloc_ok : forall n, malloc n = true).

(** With memory to spare, the table is a store of named values. *)
#[local] Instance nvram_store : KVStore nvram_handle.
Proof.
  refine {| kv_ok := wf; kv_get := nvram_get; kv_fits := fits;
            kv_set := fun h n v => (nvram_set malloc h n v).2 |}.
  - intros h n v Hwf. destruct (nvram_set malloc h n v) as [r h'] eqn:Hs.
    by apply nvram_set_spec in Hs as [? _].
  - intros h n v Hwf Hv. pose proof (nvram_set_ok h n v Hwf malloc_ok Hv) as Hr.
    destruct (nvram_set malloc h n v) as [r h'] eqn:Hs. cbn in *.
    apply nvram_set_spec in Hs as (_ & _ & _ & _ & _ & Hg & _); [|done]. by apply Hg.
  - intros h n n' v Hwf Hne. destruct (nvram_set malloc h n v) as [r h'] eqn:Hs. cbn.
    apply nvram_set_spec in Hs as (_ & _ & _ & _ & Ho & _); [|done].
    rewrite !nvram_get_tuple. by rewrite Ho.
Defined.

Definition sdram_names : list bytes :=
  [str "sdram_init"; str "sdram_config"; str "sdram_refresh"; str "sdram_ncdl"].

Lemma set_default_spec h s v :
  wf h -> fits v ->
  wf (set_default malloc h s v) /\ is_Some (nvram_get (set_default malloc h s v) (str s)) /\
  (forall n, is_Some (nvram_get h n) -> nvram_get (set_default malloc h s v) n = nvram_get h n) /\
  (forall n, n <> str s -> nvram_get (set_default malloc h s v) n = nvram_get h n) /\
  mmap (set_default malloc h s v) = mmap h /\ offset (set_default malloc h s v) = offset h.
Proof.
  intros Hwf Hv. unfold set_default. destruct (nvram_get h (str s)) as [w|] eqn:Hg.
  - split; [done|]. rewrite Hg. by split.
  - pose proof (kv_get_set_ne (KVStore:=nvram_store) h (str s)) as Hne.
    split; [by apply (kv_set_ok (KVStore:=nvram_store))|].
    pose proof (kv_get_set_eq (KVStore:=nvram_store) h (str s) v Hwf Hv) as He. cbn in He, Hne.
    split; [by rewrite He|].
    split; [intros n Hn|split; [intros n Hn|apply (set_entry_mmap h (str s, v))]].
    + apply Hne; [done|]. intros <-. rewrite Hg in Hn. by destruct Hn.
    + by apply Hne.
Qed.

Lemma fold_set_mmap l h :
  mmap (fold_left set_entry l h) = mmap h /\ offset (fold_left set_entry l h) = offset h.
Proof.
  revert h. induction l as [|x l IH]; intros h; [done|]. cbn.
  destruct (IH (set_entry h x)) as [-> ->]. apply set_entry_mmap.
Qed.

Lemma length_text l : (length l <= length (text_of l))%nat.
Proof.
  induction l as [|[n v] l IH]; [done|]. unfold text_of in *. cbn. rewrite !length_app. cbn.
  rewrite length_app. cbn. lia.
Qed.
Lemma nvram_free_wf h : wf (nvram_free h).
Proof.
  constructor; [done|]. intros i l [-> _]%lookup_replicate. split; constructor.
Qed.
Lemma nvram_free_get h n : nvram_get (nvram_free h) n = None.
Proof.
  rewrite nvram_get_tuple. unfold tuple_of, chain, nvram_free. cbn [nvram_hash set_table].
  unfold empty_table. rewrite lookup_replicate_2 by apply bucket_lt. done.
Qed.
Lemma fits_hex w x : is_u32 x -> (w <= 33)%nat -> fits (str "0x" ++ print_hex true w x).
Proof.
  intros Hx Hw. pose proof (length_print_hex true w x Hx Hw). unfold fits, NVRAM_SPACE.
  rewrite length_app. change (length (str "0x")) with 2%nat. lia.
Qed.
Lemma u16_u32 x : is_u32 (u16 x).
Proof. words. Qed.

(** What is known of the handle once the area has been parsed. *)
Record loaded (h h' : nvram_handle) (es : list entry) : Prop := {
  ld_wf : wf h';
  ld_area : mmap h' = mmap h /\ offset h' = offset h;
  ld_get : forall n v, (n, v) ∈ es -> nvram_get h' n = Some v;
  ld_none : forall n, (n ∉ es.*1) -> (n ∉ sdram_names) -> nvram_get h' n = None;
  ld_sdram : forall n, n ∈ sdram_names -> is_Some (nvram_get h' n);
}.

Lemma load32_image {E} m hdr ws len es k :
  image m hdr ws len es -> (k <= 16)%nat ->
  exists w, @load32 e E m (hdr + k) = Done (word_val e w) /\ length w = 4%nat /\ slice (hdr + k) 4 m = Some w.
Proof.
  intros Hi Hk. destruct (img_text _ _ _ _ _ Hi) as [rest Hr].
  assert ((hdr + 20 < length m)%nat).
  { destruct (decide (hdr + 20 < length m)%nat); [done|]. rewrite drop_ge in Hr by lia.
    by destruct (text_of es). }
  unfold load32. rewrite slice_Some by lia. eexists. split; [done|]. split; [|done].
  rewrite length_take, length_drop. lia.
Qed.
Lemma defaults_loaded h h1 es v1 v2 v3 v4 :
  wf h1 -> mmap h1 = mmap h /\ offset h1 = offset h ->
  (forall n v, (n, v) ∈ es -> nvram_get h1 n = Some v) ->
  (forall n, (n ∉ es.*1) -> nvram_get h1 n = None) -> fits v1 -> fits v2 -> fits v3 -> fits v4 ->
  loaded h (set_default malloc (set_default malloc (set_default malloc
    (set_default malloc h1 "sdram_init" v1) "sdram_config" v2) "sdram_refresh" v3) "sdram_ncdl" v4) es.
Proof.
  intros Hwf [Hm Ho] Hg Hn F1 F2 F3 F4.
  destruct (set_default_spec h1 "sdram_init" v1 Hwf F1) as (W2 & I2 & P2 & O2 & M2 & Q2).
  set (h2 := set_default malloc h1 _ v1) in *.
  destruct (set_default_spec h2 "sdram_config" v2 W2 F2) as (W3 & I3 & P3 & O3 & M3 & Q3).
  set (h3 := set_default malloc h2 _ v2) in *.
  destruct (set_default_spec h3 "sdram_refresh" v3 W3 F3) as (W4 & I4 & P4 & O4 & M4 & Q4).
  set (h4 := set_default malloc h3 _ v3) in *.
  destruct (set_default_spec h4 "sdram_ncdl" v4 W4 F4) as (W5 & I5 & P5 & O5 & M5 & Q5).
  set (h5 := set_default malloc h4 _ v4) in *. clearbody h2 h3 h4 h5.
  constructor; [done|split; congruence| | |].
  - intros n v Hin%Hg.
    assert (H2 : nvram_get h2 n = Some v) by (by rewrite P2, Hin).
    assert (H3 : nvram_get h3 n = Some v) by (by rewrite P3, H2).
    assert (H4 : nvram_get h4 n = Some v) by (by rewrite P4, H3).
    by rewrite P5, H4.
  - intros n Hin Hs. unfold sdram_names in Hs. rewrite !not_elem_of_cons in Hs.
    destruct Hs as (? & ? & ? & ? & _). rewrite O5, O4, O3, O2 by done. by apply Hn.
  - intros n Hs. unfold sdram_names in Hs. rewrite !elem_of_cons in Hs.
    assert (Hup : forall m, is_Some (nvram_get h2 m) -> is_Some (nvram_get h5 m))
      by (intros m H2; assert (H3 := H2); rewrite <- P3 in H3 by done; assert (H4 := H3);
          rewrite <- P4 in H4 by done; by rewrite P5).
    assert (Hup3 : forall m, is_Some (nvram_get h3 m) -> is_Some (nvram_get h5 m))
      by (intros m H3; assert (H4 := H3); rewrite <- P4 in H4 by done; by rewrite P5).
    destruct Hs as [->|[->|[->|[->|Hs]]]]; auto; [by rewrite P5|by apply not_elem_of_nil in Hs].
Qed.

Lemma rehash_image {E} h ws len es :
  image (mmap h) (offset h) ws len es -> Forall entry_ok es -> NoDup es.*1 ->
  exists h', @nvram_rehash malloc e E h = Done h' /\ loaded h h' es.
Proof.
  intros Hi Hok Hnd. unfold nvram_rehash. destruct (img_text _ _ _ _ _ Hi) as [rest Hr].
  rewrite (rehash_loop_text es rest) by
    (done || (apply (f_equal length) in Hr; rewrite length_app, length_drop in Hr;
              pose proof (length_text es); lia)).
  obind. destruct (fold_set_mmap es (nvram_free h)) as [-> _]. change (mmap (nvram_free h)) with (mmap h).
  destruct (@load32_image E _ _ _ _ _ 8 Hi ltac:(lia)) as (w1 & -> & _).
  destruct (@load32_image E _ _ _ _ _ 12 Hi ltac:(lia)) as (w2 & -> & _).
  destruct (@load32_image E _ _ _ _ _ 16 Hi ltac:(lia)) as (w3 & -> & Hl3 & Hs3).
  obind. pose proof (slice_app_r _ 4 4 _ _ _ (img_words _ _ _ _ _ Hi) (length_word_bytes _ _)) as Hw.
  replace (offset h + 12 + 4)%nat with (offset h + 16)%nat in Hw by lia.
  assert (Hw3 : is_u32 (word_val e w3)).
  { rewrite Hs3 in Hw. injection Hw as ->. rewrite word_val_bytes. apply u32_range. }
  eexists. split; [reflexivity|].
  change (fold_left set_entry es (nvram_free h)) with (kv_load (K:=nvram_store) es (nvram_free h)).
  set (h1 := kv_load (K:=nvram_store) es (nvram_free h)).
  assert (Hwf1 : wf h1) by apply (kv_load_ok (K:=nvram_store)), nvram_free_wf.
  assert (Hg1 : forall n v, (n, v) ∈ es -> nvram_get h1 n = Some v).
  { intros n v Hin. apply (kv_load_get (K:=nvram_store) es (nvram_free h)); try done.
    - apply nvram_free_wf.
    - eapply Forall_impl; [exact Hok|]. by intros ? (_ & _ & _ & ?). }
  assert (Hn1 : forall n, (n ∉ es.*1) -> nvram_get h1 n = None).
  { intros n Hin. rewrite <- (nvram_free_get h n). apply (kv_load_other (K:=nvram_store)); [|done].
    apply nvram_free_wf. }
  assert (Ha1 : mmap h1 = mmap h /\ offset h1 = offset h) by apply (fold_set_mmap es (nvram_free h)).
  clearbody h1.
  apply defaults_loaded; try done; apply fits_hex; (lia || auto using u16_u32).
Qed.

(** [h'] has the variables of [h]; a variable [h] does not have can only be one of
    the four the header words stand for, which are always there. *)
Record same_vars (h h' : nvram_handle) : Prop := {
  sv_wf : wf h';
  sv_get : forall n v, nvram_get h n = Some v -> nvram_get h' n = Some v;
  sv_none : forall n, nvram_get h n = None -> (n ∉ sdram_names) -> nvram_get h' n = None;
  sv_sdram : forall n, n ∈ sdram_names -> is_Some (nvram_get h' n);
}.

(** A table that can be written out: in memory, printable, and not too large. *)
Record committable (h : nvram_handle) : Prop := {
  cm_wf : wf h;
  cm_mapped : mapped h;
  cm_values : Forall has_value (concat (nvram_hash h));
  cm_ok : Forall entry_ok (entries h);
  cm_room : Z.of_nat (length (text_of (entries h))) + 22 <= NVRAM_SPACE;
}.

Lemma loaded_same_vars h h0 h' :
  wf h -> Forall has_value (concat (nvram_hash h)) -> loaded h0 h' (entries h) -> same_vars h h'.
Proof.
  intros Hwf Hv [? _ Hg Hn Hs]. constructor; [done| | |done].
  - intros n v Hnv. by apply Hg, entries_get.
  - intros n Hnv. by apply Hn, entries_none.
Qed.

Lemma commit_rehash {E} h :
  committable h -> exists m len, commit_image e h = @Done unit _ m /\
    frame (offset h) (offset h + Z.to_nat NVRAM_SPACE) (mmap h) m /\
    image m (offset h) (commit_header h) len (entries h) /\
    forall h0, mmap h0 = m -> offset h0 = offset h ->
    exists h', @nvram_rehash malloc e E h0 = Done h' /\ loaded h0 h' (entries h).
Proof.
  intros [Hwf Hm Hv Hok Hr].
  destruct (commit_image_spec h Hm Hv) as (m & es & len & Hc & Hf & Hi & _ & Hall).
  rewrite (Hall Hr) in Hi. exists m, len. do 3 (split; [done|]). intros h0 Hm0 Ho0.
  apply (rehash_image h0 (commit_header h) len); [by rewrite Hm0, Ho0|done|].
  rewrite entries_names. by apply wf_concat_names.
Qed.

Lemma nvram_scan_first {E} m i n k :
  (i <= k < i + n)%nat -> (4 * (i + n) <= length m)%nat ->
  (forall j, (i <= j < k)%nat -> @load32 e unit m (4 * j) <> Done NVRAM_MAGIC) ->
  @load32 e unit m (4 * k) = Done NVRAM_MAGIC ->
  @nvram_scan e E m i n = Done (Some (4 * k)%nat).
Proof.
  revert i. induction n as [|n IH]; intros i Hik Hm Hno Hk; [lia|]. cbn [nvram_scan].
  unfold load32 at 1. rewrite slice_Some by lia. cbv [mbind outcome_bind access].
  destruct (decide (i = k)) as [->|Hne].
  - unfold load32 in Hk. rewrite slice_Some in Hk by lia.
    apply (inj Done) in Hk. by rewrite Hk.
  - specialize (Hno i ltac:(lia)) as Hi. unfold load32 in Hi. rewrite slice_Some in Hi by lia.
    destruct (Z.eqb_spec (word_val e (take 4 (drop (4 * i) m))) NVRAM_MAGIC) as [He|Hne'].
    { exfalso. apply Hi. exact (f_equal Done He). }
    apply IH; [lia|lia| |done]. intros j Hj. apply Hno. lia.
Qed.

(** C2: writing the variables to flash and reading them back: for a table
    that fits, [nvram_commit] succeeds, and in the table it rebuilds from the
    image every variable has the value it had; a variable that did not exist
    still does not, apart from the four SDRAM defaults the header stands for. *)
Theorem nvram_commit_roundtrip h :
  committable h -> exists h', @nvram_commit malloc e unit h = Done h' /\ same_vars h h'.
Proof.
  intros Hc. destruct (@commit_rehash unit h Hc) as (m & len & Hi & _ & _ & Hr).
  unfold nvram_commit. destruct Hc. rewrite Hi. obind.
  destruct (Hr (set_mmap h m) eq_refl eq_refl) as (h' & -> & Hl).
  exists h'. split; [done|]. by apply (loaded_same_vars h (set_mmap h m)).
Qed.

(** C19: variables survive a reboot: when no word before the area holds the
    magic number, [nvram_open] on the device as [nvram_commit] left it finds the
    area again and yields a handle with the same variables. *)
Theorem nvram_commit_reopen h k :
  committable h -> offset h = (4 * k)%nat -> Z.of_nat (length (mmap h)) < 2 ^ 32 ->
  (forall j, (j < k)%nat -> @load32 e unit (mmap h) (4 * j) <> Done NVRAM_MAGIC) ->
  exists m h', @commit_image e unit h = Done m /\
    @nvram_open malloc e unit m (mmap_addr h) (Z.of_nat (length m)) = Done (Some h') /\
    offset h' = offset h /\ same_vars h h'.
Proof.
  intros Hc Ho Hlen Hno.
  destruct (@commit_rehash unit h Hc) as (m & len & Hi & [Hl Hf] & Himg & Hr).
  destruct Hc as [Hwf (Hin & _) Hv _ _].
  destruct (Hr (Handle m (mmap_addr h) (4 * k) empty_table []) eq_refl) as (h' & Hre & Hld); [by rewrite Ho|].
  exists m, h'. split; [done|]. unfold nvram_open.
  assert (HN : Z.of_nat (Z.to_nat NVRAM_SPACE) = 32768) by done.
  rewrite u32_small by (unfold is_u32, in_w, NVRAM_SPACE; lia).
  set (n := Z.to_nat _).
  assert (Hn : Z.of_nat n = (Z.of_nat (length m) - 32768) / 4 + 1) by (unfold n, NVRAM_SPACE; zdm).
  rewrite (nvram_scan_first m 0 n k).
  - obind. rewrite malloc_ok, Hre. obind. split; [done|]. split; [by rewrite (proj2 (ld_area _ _ _ Hld)), Ho|].
    by eapply loaded_same_vars.
  - zdm.
  - zdm.
  - intros j Hj. specialize (Hno j ltac:(lia)). unfold load32 in *.
    rewrite (slice_agree (4 * j) 4 m (mmap h) Hl); [exact Hno|]. intros i Hi'. apply Hf. lia.
  - unfold load32. pose proof (img_magic _ _ _ _ _ Himg) as Hmg. rewrite Ho in Hmg. rewrite Hmg. obind.
    by rewrite word_val_bytes.
Qed.

Lemma getall_fold ls acc :
  fold_left (fun acc l => fold_left (fun acc (t : nvram_tuple) => if malloc 12 then t :: acc else acc) l acc)
    ls acc = reverse (concat ls) ++ acc.
Proof.
  rewrite malloc_ok.
  assert (Hin : forall l acc, fold_left (fun acc (t : nvram_tuple) => t :: acc) l acc = reverse l ++ acc).
  { induction l as [|t l IH]; intros a; cbn [fold_left]; [done|].
    rewrite reverse_cons, <- app_assoc. apply IH. }
  revert acc. induction ls as [|l ls IH]; intros acc; cbn [fold_left concat]; [done|].
  rewrite Hin, reverse_app, <- app_assoc. apply IH.
Qed.

(** [nvram_getall] lists every variable of the table, each once and with
    its value, and nothing else. *)
Theorem nvram_getall_complete h :
  wf h -> NoDup (t_name <$> nvram_getall malloc h) /\
  (forall n v, Tuple n (Some v) ∈ nvram_getall malloc h <-> nvram_get h n = Some v).
Proof.
  intros Hwf. unfold nvram_getall. rewrite getall_fold, app_nil_r. split.
  - rewrite (reverse_Permutation (concat _)). by apply wf_concat_names.
  - intros n v. rewrite elem_of_reverse, concat_tuple, nvram_get_tuple by done. cbn.
    destruct (tuple_of h n) as [t|] eqn:Ht; cbn; [|done].
    split; [by intros [= ->]|]. intros Hv. f_equal. apply tuple_of_name in Ht. subst n.
    destruct t as [n w]. cbn in *. by rewrite Hv.
Qed.
End Reading.

(** [nvram_set] stores the value and leaves every other variable alone;
    it returns [-12] exactly by failing for memory or for a value of [NVRAM_SPACE]
    bytes or more, and then the variable keeps its value, or loses it when it was
    its reallocation that failed. *)
Theorem nvram_set_get h name value r h' :
  wf h -> nvram_set malloc h name value = (r, h') ->
  wf h' /\ (forall n, n <> name -> nvram_get h' n = nvram_get h n) /\
  (r = 0 -> nvram_get h' name = Some value) /\
  (r <> 0 -> r = -12 /\ (nvram_get h' name = nvram_get h name \/ nvram_get h' name = None)) /\
  ((forall n, malloc n = true) -> Z.of_nat (length value) < NVRAM_SPACE -> r = 0).
Proof.
  intros Hwf Hs. pose proof (nvram_set_spec _ _ _ _ _ Hwf Hs) as (Hw & _ & _ & _ & Ho & Hr & Hf).
  split; [done|]. split; [intros n Hn; rewrite !nvram_get_tuple; by rewrite Ho|]. do 2 (split; [done|]).
  intros Hm Hv. pose proof (nvram_set_ok h name value Hwf Hm Hv) as Hr'. by rewrite Hs in Hr'.
Qed.

(** [nvram_unset] removes the variable and leaves every other alone. *)
Theorem nvram_unset_get h name :
  wf h -> wf (nvram_unset h name) /\
  forall n, nvram_get (nvram_unset h name) n = if decide (n = name) then None else nvram_get h n.
Proof.
  intros Hwf. destruct (nvram_unset_spec h name Hwf) as (Hw & Hn & Ho). split; [done|].
  intros n. case_decide; [congruence|by apply Ho].
Qed.

(** Whatever the table holds, [nvram_commit] writes to the mapped device
    only inside the [NVRAM_SPACE] bytes of the area, the length it records
    included, and never touches memory outside the device. *)
Theorem nvram_commit_area h :
  mapped h -> Forall has_value (concat (nvram_hash h)) ->
  exists m, @commit_image e unit h = Done m /\ length m = length (mmap h) /\
    (forall i, (i < offset h \/ offset h + Z.to_nat NVRAM_SPACE <= i)%nat -> m !! i = mmap h !! i) /\
    exists len, @load32 e unit m (offset h + 4) = Done len /\ 24 <= len <= NVRAM_SPACE.
Proof.
  intros Hm Hv. destruct (commit_image_spec h Hm Hv) as (m & es & len & Hc & [Hl Hf] & Hi & _).
  exists m. do 3 (split; [done|]). exists len. destruct (img_len_range _ _ _ _ _ Hi) as [Hr _].
  split; [|done]. unfold load32. rewrite (img_len _ _ _ _ _ Hi). obind.
  by rewrite word_val_bytes, u32_small by (unfold is_u32, in_w, NVRAM_SPACE in *; lia).
Qed.

(** The check a boot loader makes of an area: magic word, length, and the CRC of
    the header behind byte 8 (the CRC byte of [w] taken as zero) and the data. *)
Definition image_valid (m : bytes) (hdr : nat) : Prop :=
  exists len w rest data,
    @load32 e unit m hdr = Done NVRAM_MAGIC /\ @load32 e unit m (hdr + 4) = Done len /\
    @load32 e unit m (hdr + 8) = Done w /\ slice (hdr + 12) 8 m = Some rest /\
    slice (hdr + 20) (Z.to_nat len - 20) m = Some data /\
    w &ᵤ 255 = hndcrc8 data (hndcrc8 (drop 1 (word_bytes e (w - w &ᵤ 255)) ++ rest) 0xff).

Lemma commit_header_high h : exists q, (commit_header h).1.1 = q <<ᵤ 8 /\ in_w 24 q.
Proof.
  assert (Hq : forall x, exists q, (NVRAM_VERSION <<ᵤ 8) |ᵤ ((x &ᵤ 0xffff) <<ᵤ 16) = q <<ᵤ 8 /\ in_w 24 q).
  { intros x. exists (NVRAM_VERSION |ᵤ ((x &ᵤ 0xffff) <<ᵤ 8)).
    rewrite Z.shiftl_lor, Z.shiftl_shiftl by lia. split; [done|].
    apply lor_in_w; [lia|unfold NVRAM_VERSION, in_w; lia|]. apply shiftl_in_w; [lia|].
    change 0xffff with (Z.ones 16). rewrite Z.land_ones by lia.
    apply Z.mod_pos_bound. lia. }
  assert (Hd : exists q, (NVRAM_VERSION <<ᵤ 8) |ᵤ (SDRAM_INIT <<ᵤ 16) = q <<ᵤ 8 /\ in_w 24 q)
    by exact (Hq SDRAM_INIT).
  unfold commit_header. generalize (strtoul 0). intros f.
  destruct (nvram_get h (str "sdram_init")) as [i|]; [|exact Hd].
  destruct (nvram_get h (str "sdram_config")) as [c|]; [|exact Hd].
  destruct (nvram_get h (str "sdram_refresh")) as [r|]; [|exact Hd].
  destruct (nvram_get h (str "sdram_ncdl")) as [n|]; [|exact Hd].
  apply Hq.
Qed.

(** The image [nvram_commit] writes is one a boot loader accepts: the
    magic word is there, the recorded length covers the text and stays in the area,
    and the recorded CRC is the CRC of the header and the data. *)
Theorem nvram_commit_valid h :
  mapped h -> Forall has_value (concat (nvram_hash h)) ->
  exists m, @commit_image e unit h = Done m /\ image_valid m (offset h).
Proof.
  intros Hm Hv. destruct (commit_image_spec h Hm Hv) as (m & es & len & Hc & _ & Hi & _).
  exists m. split; [done|]. destruct (img_crc _ _ _ _ _ Hi) as (data & Hd & Hw).
  destruct (img_len_range _ _ _ _ _ Hi) as [Hr _].
  destruct (commit_header_high h) as (q & Hq & Hqr). rewrite Hq in Hw.
  set (crc := hndcrc8 _ _) in Hw.
  assert (Hcrc : 0 <= crc < 2 ^ 8) by (repeat apply hndcrc8_range; unfold is_u8, in_w; lia).
  rewrite (lor_low 8) in Hw by (done || lia).
  exists len, (q * 2 ^ 8 + crc), (word_bytes e (commit_header h).1.2 ++ word_bytes e (commit_header h).2), data.
  unfold load32. rewrite (img_magic _ _ _ _ _ Hi), (img_len _ _ _ _ _ Hi), Hw. obind.
  rewrite !word_val_bytes. unfold in_w in Hqr.
  rewrite (u32_small len), (u32_small (q * 2 ^ 8 + crc)) by (unfold is_u32, in_w, NVRAM_SPACE in *; lia).
  do 3 (split; [done|]). split; [apply (img_words _ _ _ _ _ Hi)|]. split; [done|].
  rewrite land_255. replace ((q * 2 ^ 8 + crc) mod 256) with crc by zdm.
  replace (q * 2 ^ 8 + crc - crc) with (q <<ᵤ 8) by (rewrite Z.shiftl_mul_pow2; lia).
  done.
Qed.
End Laws.

(** ** Concrete tables *)

Definition yes (n : Z) : bool := true.
Definition blank : nvram_handle := Handle (replicate (Z.to_nat 0x8004) 0xff) 0x1000 0 empty_table [].
Definition two : nvram_handle :=
  set_entry yes (set_entry yes blank (str "lan_proto", str "dhcp")) (str "sdram_init", str "0x0009").

Lemma blank_wf : wf blank.
Proof. apply (nvram_free_wf blank). Qed.
Lemma two_wf : wf two.
Proof.
  unfold two, set_entry.
  destruct (nvram_set yes blank _ _) as [r h1] eqn:H1. apply nvram_set_spec in H1 as [H1 _]; [|apply blank_wf].
  cbn [snd]. destruct (nvram_set yes h1 _ _) as [r2 h2] eqn:H2. by apply nvram_set_spec in H2 as [H2 _].
Qed.
Lemma two_mmap : mmap two = mmap blank /\ offset two = 0%nat /\ mmap_addr two = 0x1000.
Proof. done. Qed.
Lemma two_mapped : mapped two.
Proof.
  destruct two_mmap as (Hm & Ho & Ha). unfold mapped. rewrite Hm, Ho, Ha. cbn [mmap blank].
  rewrite length_replicate. unfold NVRAM_SPACE. repeat split; lia.
Qed.
Lemma two_values : Forall has_value (concat (nvram_hash two)).
Proof.
  assert (concat (nvram_hash two) = [Tuple (str "sdram_init") (Some (str "0x0009"));
            Tuple (str "lan_proto") (Some (str "dhcp"))]
          \/ concat (nvram_hash two) = [Tuple (str "lan_proto") (Some (str "dhcp"));
            Tuple (str "sdram_init") (Some (str "0x0009"))]) as [->| ->]
    by (vm_compute; auto); repeat constructor; by eexists.
Qed.
Lemma two_committable : committable two.
Proof.
  constructor; [apply two_wf|apply two_mapped|apply two_values| |].
  - apply Forall_forall. intros [n v] Hx.
    assert (Hall : forallb (fun x : entry => negb (bool_decide (61 ∈ x.1)) && negb (bool_decide (0 ∈ x.1))
              && negb (bool_decide (0 ∈ x.2)) && (Z.of_nat (length x.2) <? NVRAM_SPACE)) (entries two) = true)
      by (vm_compute; reflexivity).
    rewrite forallb_forall in Hall. specialize (Hall (n, v) (proj1 (list_elem_of_In _ _) Hx)).
    rewrite !andb_true_iff, !negb_true_iff, !bool_decide_eq_false, Z.ltb_lt in Hall.
    by destruct Hall as [[[? ?] ?] ?].
  - vm_compute. done.
Qed.

Lemma nvram_commit_roundtrip_witness : exists h', @nvram_commit yes BE unit two = Done h' /\ same_vars two h'.
Proof. apply nvram_commit_roundtrip; [done|apply two_committable]. Defined.
Lemma nvram_commit_reopen_witness : exists m h', @commit_image BE unit two = Done m /\
  @nvram_open yes BE unit m (mmap_addr two) (Z.of_nat (length m)) = Done (Some h') /\
  offset h' = offset two /\ same_vars two h'.
Proof.
  apply (nvram_commit_reopen yes BE (fun n => eq_refl) two 0); [apply two_committable|done| |lia].
  rewrite (proj1 two_mmap). cbn [mmap blank]. rewrite length_replicate. lia.
Defined.
Lemma nvram_getall_complete_witness : NoDup (t_name <$> nvram_getall yes two) /\
  (forall n v, Tuple n (Some v) ∈ nvram_getall yes two <-> nvram_get two n = Some v).
Proof. apply nvram_getall_complete; [done|apply two_wf]. Defined.
Definition one : nvram_handle := set_entry yes (Handle [] 0 0 empty_table []) (str "lan_proto", str "dhcp").
Lemma one_wf : wf one.
Proof.
  unfold one, set_entry. destruct (nvram_set yes _ _ _) as [r h1] eqn:H1.
  by apply nvram_set_spec in H1 as [H1 _]; [|apply (nvram_free_wf (Handle [] 0 0 [] []))].
Qed.
Lemma nvram_set_get_witness :
  nvram_get (nvram_set yes one (str "lan_proto") (str "static")).2 (str "lan_proto") = Some (str "static").
Proof.
  apply (nvram_set_get yes one (str "lan_proto") (str "static") 0 _ one_wf); [|done].
  vm_compute. reflexivity.
Defined.
Lemma nvram_unset_get_witness :
  nvram_get one (str "lan_proto") = Some (str "dhcp") /\
  nvram_get (nvram_unset one (str "lan_proto")) (str "lan_proto") = None.
Proof.
  split; [vm_compute; reflexivity|].
  rewrite (proj2 (nvram_unset_get one (str "lan_proto") one_wf)). by rewrite decide_True.
Defined.
Lemma nvram_commit_area_witness : exists m, @commit_image BE unit two = Done m /\
  length m = length (mmap two) /\
  (forall i, (i < offset two \/ offset two + Z.to_nat NVRAM_SPACE <= i)%nat -> m !! i = mmap two !! i) /\
  exists len, @load32 BE unit m (offset two + 4) = Done len /\ 24 <= len <= NVRAM_SPACE.
Proof. apply (nvram_commit_area yes); [apply two_mapped|apply two_values]. Defined.
Lemma nvram_commit_valid_witness : exists m, @commit_image BE unit two = Done m /\ image_valid BE m (offset two).
Proof. apply (nvram_commit_valid yes); [apply two_mapped|apply two_values]. Defined.

End Nvram.
