(* ===== verification/IpPool.v ===== *)
(** * The address pool of CoovaChilli ([src/ippool.c], [src/sfhash.c])

    A pool is an array of members.  Free members are kept in two doubly linked
    lists, one for the dynamic range and one for static addresses; members that
    carry an address are in a chained hash table.  Addresses are in network byte
    order, as the source keeps them.  The configuration is the one the package is
    built with: [HAVE_SFHASH], [ENABLE_UAMANYIP], [IPPOOL_NOIP6]. *)

From Stdlib Require Import Sorted.
From S2P Require Import Prelude CLib Chains.

(** ** Hash functions of addresses *)

(** What the pool and its clients expect of [lookup]: a 32-bit value. *)
Class AddrHash := {
  hash4 : Z -> Z;
  hash4_range : forall a, is_u32 (hash4 a);
}.

Module Sfhash.

Definition get16bits (d : bytes) : Z :=
  match d with d0 :: d1 :: _ => (d1 <<ᵤ 8) + d0 | _ => 0 end.

Definition add_shifted (h n : Z) : Z := h +₃₂ (h >>ᵤ n).
Definition xor_shifted (h n : Z) : Z := h ^ᵤ u32 (h <<ᵤ n).

(** The main loop, four bytes a turn, and the switch on what is left. *)
Fixpoint sf_loop (data : bytes) (hash : Z) : Z :=
  match data with
  | d0 :: d1 :: d2 :: d3 :: rest =>
    let hash := hash +₃₂ get16bits [d0; d1] in
    let tmp := u32 (get16bits [d2; d3] <<ᵤ 11) ^ᵤ hash in
    let hash := u32 (hash <<ᵤ 16) ^ᵤ tmp in
    sf_loop rest (add_shifted hash 11)
  | [d0; d1; d2] =>
    let hash := xor_shifted (hash +₃₂ get16bits [d0; d1]) 16 in
    let hash := hash ^ᵤ u32 (s8 d2 <<ᵤ 18) in
    add_shifted hash 11
  | [d0; d1] => add_shifted (xor_shifted (hash +₃₂ get16bits [d0; d1]) 11) 17
  | [d0] => add_shifted (xor_shifted (hash +₃₂ s8 d0) 10) 1
  | [] => hash
  end.

(** The final avalanche. *)
Definition sf_final (hash : Z) : Z :=
  let hash := add_shifted (xor_shifted hash 3) 5 in
  let hash := add_shifted (xor_shifted hash 4) 17 in
  add_shifted (xor_shifted hash 25) 6.

Definition SuperFastHash (data : bytes) (hash : Z) : Z :=
  match data with [] => 0 | _ => sf_final (sf_loop data hash) end.

Definition lookup (k : bytes) (initval : Z) : Z := SuperFastHash k initval.

(** [ippool_hash4]: the hash of the four bytes of [s_addr]. *)
Definition ippool_hash4 (e : endian) (addr : Z) : Z := lookup (word_bytes e addr) 0.

Lemma sf_final_range h : is_u32 (sf_final h).
Proof. apply u32_range. Qed.
Lemma SuperFastHash_range d h : is_u32 (SuperFastHash d h).
Proof. destruct d; [unfold is_u32, in_w; cbn; lia|apply sf_final_range]. Qed.

#[export] Instance sf_hash (e : endian) : AddrHash :=
  {| hash4 := ippool_hash4 e; hash4_range := fun a => SuperFastHash_range _ _ |}.
End Sfhash.

Module IpPool.

(** ** Data *)

Record ippoolm_t := Member {
  addr : Z;
  in_use : bool;
  is_static : bool;
  nexthash : option nat;
  prev : option nat;
  next : option nat;
  peer : option Z;
}.
Definition set_nexthash (v : option nat) (m : ippoolm_t) : ippoolm_t :=
  Member (addr m) (in_use m) (is_static m) v (prev m) (next m) (peer m).
Definition set_prev (v : option nat) (m : ippoolm_t) : ippoolm_t :=
  Member (addr m) (in_use m) (is_static m) (nexthash m) v (next m) (peer m).
Definition set_next (v : option nat) (m : ippoolm_t) : ippoolm_t :=
  Member (addr m) (in_use m) (is_static m) (nexthash m) (prev m) v (peer m).

Record ippool_t := Pool {
  dynsize : Z;
  statsize : Z;
  listsize : Z;
  allowdyn : bool;
  allowstat : bool;
  stataddr : Z;
  statmask : Z;
  member : list ippoolm_t;
  hashsize : Z;
  hashlog : Z;
  hashmask : Z;
  hash : list (option nat);
  firstdyn : option nat;
  lastdyn : option nat;
  firststat : option nat;
  laststat : option nat;
}.
Definition set_member (p : ippool_t) (ms : list ippoolm_t) : ippool_t :=
  Pool (dynsize p) (statsize p) (listsize p) (allowdyn p) (allowstat p) (stataddr p) (statmask p)
    ms (hashsize p) (hashlog p) (hashmask p) (hash p) (firstdyn p) (lastdyn p) (firststat p) (laststat p).
Definition set_hash (p : ippool_t) (h : list (option nat)) : ippool_t :=
  Pool (dynsize p) (statsize p) (listsize p) (allowdyn p) (allowstat p) (stataddr p) (statmask p)
    (member p) (hashsize p) (hashlog p) (hashmask p) h (firstdyn p) (lastdyn p) (firststat p) (laststat p).

(** The two free lists, selected by [is_static]. *)
Definition first (st : bool) (p : ippool_t) : option nat := if st then firststat p else firstdyn p.
Definition last (st : bool) (p : ippool_t) : option nat := if st then laststat p else lastdyn p.
Definition set_ends (st : bool) (p : ippool_t) (f l : option nat) : ippool_t :=
  Pool (dynsize p) (statsize p) (listsize p) (allowdyn p) (allowstat p) (stataddr p) (statmask p)
    (member p) (hashsize p) (hashlog p) (hashmask p) (hash p)
    (if st then firstdyn p else f) (if st then lastdyn p else l)
    (if st then f else firststat p) (if st then l else laststat p).

(** The error exits, by the message the source logs. *)
Inductive pool_err :=
| DynParse | BadStart | BadEnd | BadRange | TooMany | StatParse | NoMem
| StaticNotAllowed | StaticOutOfRange | DynamicNotAllowed | NoMoreDynamic | InUse
| ShouldNotHappen | NoMoreStatic | NoAddress | NotInUse | NotInHash.

Notation "'result' A" := (outcome pool_err A) (at level 10, A at level 9).

Definition deref (p : ippool_t) (i : nat) : result ippoolm_t := access (member p !! i).
Definition modify (p : ippool_t) (i : nat) (f : ippoolm_t -> ippoolm_t) : result ippool_t :=
  m ← deref p i; Done (set_member p (<[i := f m]> (member p))).

Definition nx (p : ippool_t) (i : nat) : option nat := member p !! i ≫= next.
Definition pv (p : ippool_t) (i : nat) : option nat := member p !! i ≫= prev.
Definition nh (p : ippool_t) (i : nat) : option nat := member p !! i ≫= nexthash.
Definition fuel (p : ippool_t) : nat := length (member p).

(** ** Parsing "a.b.c.d", "a.b.c.d/n" and "a.b.c.d/m.m.m.m" ([options.c]) *)

(** The [%u] conversions of a format that separates them by the characters
    [seps]: the values converted before the first mismatch. *)
Fixpoint scan_uints (seps : bytes) (s : bytes) : list Z :=
  match scan_int 10 (length s) s with
  | ScanOk v r =>
    (if 2 ^ 32 <=? Z.abs v then 2 ^ 32 - 1 else u32 v) ::
    match seps, r with
    | c :: seps', x :: r' => if x =? c then scan_uints seps' r' else []
    | _, _ => []
    end
  | _ => []
  end.

(** [for (k = 0; (1 << k) < x; k++);] with [x] unsigned. *)
Fixpoint log_loop {E} (n : nat) (k x : Z) : outcome E Z :=
  match n with
  | O => Fault
  | S n' => if (1 <<ᵤ k) <? x then log_loop n' (k + 1) x else Done k
  end.
Definition log_up {E} (x : Z) : outcome E Z := log_loop 32 0 x.

Section Pool.
Context (e : endian).

(** Address and mask, in network order; [Fail] is the return value [-1]. *)
Definition option_aton (pool : bytes) : outcome unit (Z * Z) :=
  let vs := scan_uints (str "..." ++ str "/" ++ str "...") pool in
  mask ← match vs with
    | [_; _; _; _] => Done (htonl e 0xffffff00)
    | [_; _; _; _; m1] =>
      if 32 <? m1 then Fail tt
      else Done (if 0 <? m1 then htonl e (u32 (0xffffffff <<ᵤ (32 - m1))) else 0)
    | [_; _; _; _; m1; m2; m3; m4] =>
      if (256 <=? m1) || (256 <=? m2) || (256 <=? m3) || (256 <=? m4) then Fail tt
      else
        let m := u32 (m1 * 0x1000000 + m2 * 0x10000 + m3 * 0x100 + m4) in
        let size := u32 (~₃₂ m + 1) in
        masklog ← log_up size;
        if size =? u32 (1 <<ᵤ masklog) then Done (htonl e m) else Fail tt
    | _ => Fail tt
    end;
  match vs with
  | a1 :: a2 :: a3 :: a4 :: _ =>
    if (256 <=? a1) || (256 <=? a2) || (256 <=? a3) || (256 <=? a4) then Fail tt
    else Done (htonl e (u32 (a1 * 0x1000000 + a2 * 0x10000 + a3 * 0x100 + a4)), mask)
  | _ => Fail tt
  end.

Context `{AddrHash}.

(** ** The hash table *)

Definition bucket (p : ippool_t) (a : Z) : nat := Z.to_nat (hash4 a &ᵤ hashmask p).

Definition ippool_hashadd (p : ippool_t) (i : nat) : result ippool_t :=
  m ← deref p i;
  let h := bucket p (addr m) in
  head ← access (hash p !! h);
  '(p_prev, _) ← walk_prev (fuel p) (nh p) (fun _ => false) None head;
  match p_prev with
  | None => Done (set_hash p (<[h := Some i]> (hash p)))
  | Some j => modify p j (set_nexthash (Some i))
  end.

Definition ippool_hashdel (p : ippool_t) (i : nat) : result ippool_t :=
  m ← deref p i;
  let h := bucket p (addr m) in
  head ← access (hash p !! h);
  '(p_prev, q) ← walk_prev (fuel p) (nh p) (fun j => bool_decide (j = i)) None head;
  match q with
  | None => Fail NotInHash
  | Some q =>
    mq ← deref p q;
    match p_prev with
    | None => Done (set_hash p (<[h := nexthash mq]> (hash p)))
    | Some j => modify p j (set_nexthash (nexthash mq))
    end
  end.

Definition has_addr (p : ippool_t) (a : Z) (i : nat) : bool :=
  match member p !! i with Some m => addr m =? a | None => false end.
Definition used (p : ippool_t) (i : nat) : bool :=
  match member p !! i with Some m => in_use m | None => false end.

Definition ippool_getip (p : ippool_t) (a : Z) : result (option nat) :=
  head ← access (hash p !! bucket p a);
  walk (fuel p) (nh p) (fun i => has_addr p a i && used p i) head.

(** ** The free lists *)

(** Remove [p2] from its list of free members. *)
Definition unlink (st : bool) (p : ippool_t) (i : nat) : result ippool_t :=
  m ← deref p i;
  p ← match prev m with
      | Some j => modify p j (set_next (next m))
      | None => Done (set_ends st p (next m) (last st p))
      end;
  m ← deref p i;
  match next m with
  | Some j => modify p j (set_prev (prev m))
  | None => Done (set_ends st p (first st p) (prev m))
  end.

(** Append a member to its list of free members. *)
Definition append (st : bool) (p : ippool_t) (i : nat) : result ippool_t :=
  p ← modify p i (set_prev (last st p));
  p ← match last st p with
      | Some j => modify p j (set_next (Some i))
      | None => Done (set_ends st p (Some i) (last st p))
      end;
  Done (set_ends st p (first st p) (Some i)).

Definition claim (m : ippoolm_t) : ippoolm_t :=
  Member (addr m) true (is_static m) (nexthash m) None None (peer m).
Definition claim_static (a : Z) (m : ippoolm_t) : ippoolm_t :=
  Member a true (is_static m) (nexthash m) None None (peer m).

(** ** Allocation and release *)

Context (uamanyip : bool).

(** The member found under an address, with its fields. *)
Definition find_member (p : ippool_t) (a : Z) : result (option (nat * ippoolm_t)) :=
  head ← access (hash p !! bucket p a);
  q ← walk (fuel p) (nh p) (has_addr p a) head;
  match q with
  | None => Done None
  | Some i => m ← deref p i; Done (Some (i, m))
  end.

(** "First, check to see if this type of address is allowed". *)
Definition newip_check (p : ippool_t) (given : bool) (a : Z) (statip : bool) : result unit :=
  if given && statip then
    if uamanyip then Done tt
    else if negb (allowstat p) then Fail StaticNotAllowed
    else if negb ((a &ᵤ statmask p) =? stataddr p) then Fail StaticOutOfRange
    else Done tt
  else if negb (allowdyn p) then Fail DynamicNotAllowed
  else Done tt.

(** "Was allocated from dynamic address pool". *)
Definition newip_dynamic (p : ippool_t) (i : nat) (m : ippoolm_t) : result (nat * ippool_t) :=
  if in_use m then Fail InUse
  else if is_static m then Fail ShouldNotHappen
  else
    p ← (p1 ← unlink false p i; modify p1 i claim);
    Done (i, p).

(** "Try to allocate from static address space". *)
Definition newip_static (p : ippool_t) (a : Z) : result (nat * ippool_t) :=
  match firststat p with
  | None => Fail NoMoreStatic
  | Some i =>
    m ← deref p i;
    if in_use m then Fail InUse
    else if negb (is_static m) then Fail ShouldNotHappen
    else
      p ← (p1 ← unlink true p i; p2 ← modify p1 i (claim_static a); ippool_hashadd p2 i);
      Done (i, p)
  end.

(** [addr] is the pointer argument, [None] for NULL. *)
Definition ippool_newip (p : ippool_t) (addr : option Z) (statip : bool)
    : result (nat * ippool_t) :=
  let a := default 0 addr in
  let given := negb (a =? 0) in
  _ ← newip_check p given a statip;
  p2 ← (if given then find_member p a else Done None);
  let shared := match p2 with Some (_, m) => is_static m | None => false end in
  if statip && uamanyip && shared
  then match p2 with Some (i, _) => Done (i, p) | None => Fault end
  else
    let p2 := match p2 with Some (_, m) => if negb statip && in_use m then None else p2 | None => None end in
    p2 ← match p2 with
      | None =>
        if statip then Done None
        else match firstdyn p with
          | None => Fail NoMoreDynamic
          | Some i => m ← deref p i; Done (Some (i, m))
          end
      | Some _ => Done p2
      end;
    match p2 with
    | Some (i, m) => newip_dynamic p i m
    | None => if given && (statip || uamanyip) then newip_static p a else Fail NoAddress
    end.

Definition release_static (m : ippoolm_t) : ippoolm_t :=
  Member 0 false (is_static m) None (prev m) (next m) None.
Definition release_dynamic (m : ippoolm_t) : ippoolm_t :=
  Member (addr m) false (is_static m) (nexthash m) (prev m) (next m) None.

Definition ippool_freeip (p : ippool_t) (i : nat) : result ippool_t :=
  m ← deref p i;
  if negb (in_use m) then Fail NotInUse
  else if is_static m then
    p ← ippool_hashdel p i;
    p ← append true p i;
    modify p i release_static
  else
    p ← append false p i;
    modify p i release_dynamic.

(** ** Creation *)

Section New.
Context (calloc : Z -> Z -> bool) (uamlisten dhcplisten : Z).

Definition IPPOOL_STATSIZE : Z := 0x10000.

(** Size of the dynamic part, from the range and the arguments [dhcpstart] and
    [dhcpend]; also the [start] to use and the network address. *)
Definition dyn_layout (dyn : bytes) (start end_ : Z) : result (Z * Z * Z) :=
  match option_aton dyn with
  | Fault => Fault
  | Fail _ => Fail DynParse
  | Done (addr, mask) =>
    let start := if start =? 0 then s32 (ntohl e (addr &ᵤ ~₃₂ mask)) else start in
    let addr := addr &ᵤ mask in
    let m := ntohl e mask in
    let size := ~₃₂ m +₃₂ 1 in
    if negb (((ntohl e addr +₃₂ start) &ᵤ m) =? (ntohl e addr &ᵤ m)) then Fail BadStart
    else if negb (((ntohl e addr +₃₂ end_) &ᵤ m) =? (ntohl e addr &ᵤ m)) then Fail BadEnd
    else if (0 <? start) && (0 <? end_) then
      if end_ <? start then Fail BadRange
      else if size <? u32 (end_ - start) then Fail TooMany
      else Done (u32 (end_ - start), start, addr)
    else
      let size :=
        if 0 <? start then size -₃₂ start -₃₂ 1
        else if 0 <? end_ then (if end_ <? size then end_ else size) -₃₂ 1
        else size -₃₂ 2 in
      Done (size -₃₂ 1, start, addr)
  end.

Definition stat_layout (stat : bytes) : result (Z * Z * Z) :=
  match option_aton stat with
  | Fault => Fault
  | Fail _ => Fail StatParse
  | Done (stataddr, statmask) =>
    let size := ~₃₂ (ntohl e statmask) +₃₂ 1 in
    Done (if IPPOOL_STATSIZE <? size then IPPOOL_STATSIZE else size, stataddr &ᵤ statmask, statmask)
  end.

(** The address of member [i] and the [start] for the next one: the addresses of
    the gateway itself are skipped. *)
Definition member_addr (addr : Z) (i start : Z) : Z * Z :=
  let naddr := htonl e (ntohl e addr + i + start) in
  if (naddr =? uamlisten) || (naddr =? dhcplisten)
  then (htonl e (ntohl e addr + i + (start + 1)), start + 1)
  else (naddr, start).

Definition fresh_member (a : Z) (st : bool) : ippoolm_t := Member a false st None None None None.

Definition init_member (a : Z) (st : bool) (m : ippoolm_t) : ippoolm_t :=
  Member a false st (nexthash m) (prev m) (next m) (peer m).

(** The two filling loops, for [n] members from index [i] on. *)
Fixpoint fill_dynamic (n i : nat) (addr start : Z) (p : ippool_t) : result ippool_t :=
  match n with
  | O => Done p
  | S n' =>
    let '(naddr, start) := member_addr addr (Z.of_nat i) start in
    p ← modify p i (init_member naddr false);
    p ← append false p i;
    p ← modify p i (set_next None);
    p ← ippool_hashadd p i;
    fill_dynamic n' (S i) addr start p
  end.
Fixpoint fill_static (n i : nat) (p : ippool_t) : result ippool_t :=
  match n with
  | O => Done p
  | S n' =>
    p ← modify p i (init_member 0 true);
    p ← append true p i;
    p ← modify p i (set_next None);
    fill_static n' (S i) p
  end.

Definition ippool_new (dyn : bytes) (start end_ : Z) (stat : bytes) (allowdyn allowstat : bool)
    : result ippool_t :=
  '(dynsize, start, addr) ← (if allowdyn then dyn_layout dyn start end_ else Done (0, start, 0));
  '(statsize, stataddr, statmask) ← (if allowstat then stat_layout stat else Done (0, 0, 0));
  let listsize := dynsize +₃₂ statsize in
  if negb (calloc 64 1) then Fail NoMem
  else if negb (calloc 24 listsize) then Fail NoMem
  else
    hashlog ← log_up listsize;
    let hashsize := 1 <<ᵤ hashlog in
    if negb (calloc 4 hashsize) then Fail NoMem
    else
      let start := if start <=? 0 then 1 else start in
      let p := Pool dynsize statsize listsize allowdyn allowstat stataddr statmask
        (replicate (Z.to_nat listsize) (fresh_member 0 false)) hashsize hashlog (hashsize - 1)
        (replicate (Z.to_nat hashsize) None) None None None None in
      p ← fill_dynamic (Z.to_nat dynsize) 0 addr start p;
      fill_static (Z.to_nat listsize - Z.to_nat dynsize) (Z.to_nat dynsize) p.

End New.

(** ** The counters of [ippool_print] *)

Inductive unit_state := ERR | USED | FREE.
#[local] Instance unit_state_eq_dec : EqDecision unit_state.
Proof. solve_decision. Defined.

Definition classify (p : ippool_t) (n : nat) (m : ippoolm_t) : unit_state :=
  if in_use m then
    if bool_decide (next m = None) && bool_decide (prev m = None) then USED else ERR
  else if bool_decide (next m = None) && negb (bool_decide (last (is_static m) p = Some n)) then ERR
  else if bool_decide (prev m = None) && negb (bool_decide (first (is_static m) p = Some n)) then ERR
  else FREE.

(** Member [n] counts as [s] in the static or the dynamic half. *)
Definition in_class (s : unit_state) (p : ippool_t) (static : bool) (n : nat) : bool :=
  match member p !! n with
  | Some m => bool_decide (classify p n m = s) && eqb static (dynsize p <=? Z.of_nat n)
  | None => false
  end.
Definition count (s : unit_state) (p : ippool_t) (static : bool) : nat :=
  length (List.filter (in_class s p static) (seq 0 (Z.to_nat (listsize p)))).

(** The walk that counts the members of a free list. *)
Fixpoint list_count (fuel : nat) (p : ippool_t) (o : option nat) (c : nat) : result nat :=
  match o with
  | None => Done c
  | Some i => match fuel with O => Fault | S f => m ← deref p i; list_count f p (next m) (S c) end
  end.

Record summary := Summary { s_free : nat; s_avail : nat; s_used : nat; s_err : nat; s_problem : bool }.
Definition ippool_print (p : ippool_t) : result (summary * summary) :=
  dl ← list_count (fuel p) p (firstdyn p) 0;
  sl ← list_count (fuel p) p (firststat p) 0;
  let sum st avail := Summary (count FREE p st) avail (count USED p st) (count ERR p st)
    (negb (bool_decide (count FREE p st = avail))) in
  Done (sum false dl, sum true sl).

(** ** Invariants

    [fl st] is the list of the free members of kind [st] and [cs b] the chain of
    bucket [b]. The free lists and the hash chains use different link fields, so
    each part has its own invariant and the operations on one leave the other
    alone. *)

Record lists_ok (p : ippool_t) (fl : bool -> list nat) : Prop := {
  l_chain : forall st, dchain (nx p) (pv p) (first st p) (last st p) (fl st);
  l_nodup : forall st, NoDup (fl st);
  l_range : forall st i, i ∈ fl st -> is_Some (member p !! i);
  l_disj : forall i, i ∈ fl true -> (i ∉ fl false);
}.

(** [S] is the set of the members that are in the table. *)
Record hash_ok (p : ippool_t) (S : nat -> Prop) (cs : nat -> list nat) : Prop := {
  h_size : 0 <= hashlog p /\ hashmask p = 2 ^ hashlog p - 1 /\
    length (hash p) = Z.to_nat (2 ^ hashlog p);
  h_chain : forall b, (b < length (hash p))%nat ->
    exists o, hash p !! b = Some o /\ chain (nh p) o (cs b);
  h_nodup : forall b, NoDup (cs b);
  h_cs : forall b i, i ∈ cs b <-> exists m, member p !! i = Some m /\ S i /\ bucket p (addr m) = b;
}.

Definition linked (m : ippoolm_t) : bool := negb (is_static m) || in_use m.
Definition linked_at (p : ippool_t) (i : nat) : Prop :=
  exists m, member p !! i = Some m /\ linked m = true.

Record inv (p : ippool_t) (fl : bool -> list nat) (cs : nat -> list nat) : Prop := {
  i_lists : lists_ok p fl;
  i_hash : hash_ok p (linked_at p) cs;
  i_size : Z.of_nat (length (member p)) = listsize p /\ listsize p = dynsize p + statsize p /\
    0 <= dynsize p /\ 0 <= statsize p;
  i_kind : forall i m, member p !! i = Some m -> is_static m = (dynsize p <=? Z.of_nat i);
  i_free : forall st i, i ∈ fl st <->
    exists m, member p !! i = Some m /\ is_static m = st /\ in_use m = false;
  i_out : forall i m, member p !! i = Some m -> linked m = false -> nexthash m = None;
  i_used : forall i m, member p !! i = Some m -> in_use m = true -> next m = None /\ prev m = None;
  i_addr : forall i j m m', member p !! i = Some m -> member p !! j = Some m' ->
    linked m = true -> linked m' = true -> addr m = addr m' -> i = j;
}.

(** The fields outside the members, the hash heads and the list ends. *)
Definition cfg (p : ippool_t) :=
  (dynsize p, statsize p, listsize p, allowdyn p, allowstat p, stataddr p, statmask p,
   hashsize p, hashlog p, hashmask p).
(** A member without its list links, and without its hash link. *)
Definition no_links (m : ippoolm_t) : ippoolm_t := set_prev None (set_next None m).
Definition no_hash (m : ippoolm_t) : ippoolm_t := set_nexthash None m.

Lemma fmap_field {A} (g : ippoolm_t -> ippoolm_t) (f : ippoolm_t -> A) (ms ms' : list ippoolm_t) :
  (forall m, f (g m) = f m) -> g <$> ms' = g <$> ms ->
  forall i, f <$> ms' !! i = f <$> ms !! i.
Proof.
  intros Hf Hms i. apply (f_equal (fun l => f <$> l !! i)) in Hms.
  rewrite !list_lookup_fmap, <- !option_fmap_compose in Hms.
  rewrite (option_fmap_ext (f ∘ g) f) in Hms by (intros; apply Hf).
  by rewrite (option_fmap_ext (f ∘ g) f) in Hms by (intros; apply Hf).
Qed.
Lemma fmap_length {A} (g : ippoolm_t -> A) (ms ms' : list ippoolm_t) : g <$> ms' = g <$> ms -> length ms' = length ms.
Proof. intros Hms. apply (f_equal length) in Hms. by rewrite !length_fmap in Hms. Qed.

Lemma fmap_lookup (g : ippoolm_t -> ippoolm_t) (ms ms' : list ippoolm_t) i m :
  g <$> ms' = g <$> ms -> ms !! i = Some m -> exists m', ms' !! i = Some m' /\ g m' = g m.
Proof.
  intros Hms Hi. apply (f_equal (fun l => l !! i)) in Hms. rewrite !list_lookup_fmap, Hi in Hms.
  cbn in Hms. destruct (ms' !! i) as [m'|]; [|done]. injection Hms as Hm. by exists m'.
Qed.

Lemma bucket_in_table p S cs a : hash_ok p S cs -> (bucket p a < length (hash p))%nat.
Proof.
  intros [(Hl & Hm & Hs) _ _ _]. unfold bucket. rewrite Hs, Hm.
  replace (2 ^ hashlog p - 1) with (Z.ones (hashlog p)) by (rewrite Z.ones_equiv; lia).
  rewrite Z.land_ones by done. pose proof (Z.mod_pos_bound (hash4 a) (2 ^ hashlog p)).
  pose proof (Z.pow_pos_nonneg 2 (hashlog p)). lia.
Qed.

Lemma bucket_cfg p p' a : cfg p' = cfg p -> bucket p' a = bucket p a.
Proof. unfold cfg, bucket. congruence. Qed.

(** The link functions of an updated array. *)
Lemma upd_lookup {B} (g : ippoolm_t -> option B) (ms : list ippoolm_t) i (m : ippoolm_t) j :
  is_Some (ms !! i) -> <[i := m]> ms !! j ≫= g = if decide (j = i) then g m else ms !! j ≫= g.
Proof.
  intros [x Hx]. case_decide as Hj.
  - subst j. rewrite list_lookup_insert_eq; [done|]. by eapply lookup_lt_Some.
  - by rewrite list_lookup_insert_ne.
Qed.

(** A walk never runs out of fuel. *)
Lemma cs_length p S cs b : hash_ok p S cs -> (length (cs b) <= fuel p)%nat.
Proof.
  intros Hh. unfold fuel. rewrite <- (length_seq (length (member p)) 0).
  apply submseteq_length, NoDup_submseteq; [apply (h_nodup _ _ _ Hh)|].
  intros i Hi. apply elem_of_seq. apply (h_cs _ _ _ Hh) in Hi as (m & Hm & _).
  apply lookup_lt_Some in Hm. lia.
Qed.

(** ** The hash table *)

Definition ends (p : ippool_t) := (firstdyn p, lastdyn p, firststat p, laststat p).
(** Only hash links and heads differ. *)
Record hash_step (p p' : ippool_t) : Prop := {
  hs_cfg : cfg p' = cfg p;
  hs_ends : ends p' = ends p;
  hs_member : no_hash <$> member p' = no_hash <$> member p;
}.

Lemma no_hash_addr m m' : no_hash m = no_hash m' -> addr m = addr m'.
Proof. by intros [= ? _ _ _ _ _]. Qed.

Lemma set_nexthash_same p i m v :
  member p !! i = Some m -> no_hash <$> <[i := set_nexthash v m]> (member p) = no_hash <$> member p.
Proof.
  intros Hi. rewrite list_fmap_insert. apply list_insert_id. by rewrite list_lookup_fmap, Hi.
Qed.

Lemma nh_upd p i m v j :
  member p !! i = Some m ->
  nh (set_member p (<[i := set_nexthash v m]> (member p))) j = if decide (j = i) then v else nh p j.
Proof. intros Hi. unfold nh. cbn [member set_member]. by rewrite upd_lookup by (by eexists). Qed.

(** The members of different chains are different. *)
Lemma cs_bucket p S cs b b' i : hash_ok p S cs -> i ∈ cs b -> i ∈ cs b' -> b = b'.
Proof.
  intros Hh (m & Hm & _ & <-)%(h_cs _ _ _ Hh) (m' & Hm' & _ & <-)%(h_cs _ _ _ Hh). congruence.
Qed.

Lemma hash_ok_members p p' S S' cs cs' :
  hash_ok p S cs -> cfg p' = cfg p -> no_hash <$> member p' = no_hash <$> member p ->
  length (hash p') = length (hash p) ->
  (forall b, (b < length (hash p))%nat -> exists o, hash p' !! b = Some o /\ chain (nh p') o (cs' b)) ->
  (forall b, NoDup (cs' b)) ->
  (forall b i, i ∈ cs' b <-> exists m, member p !! i = Some m /\ S' i /\ bucket p (addr m) = b) ->
  hash_ok p' S' cs'.
Proof.
  intros [(Hl & Hm & Hs) _ _ _] Hc Hms Hlen Hch Hnd Hin. constructor; [|by rewrite Hlen|done|].
  - unfold cfg in Hc. rewrite Hlen. replace (hashlog p') with (hashlog p) by congruence.
    replace (hashmask p') with (hashmask p) by congruence. done.
  - intros b i. rewrite Hin. split; intros (m & Hi & HS & Hb).
    + destruct (fmap_lookup _ _ _ _ _ Hms Hi) as (m' & Hi' & Hm'). exists m'. split; [done|]. split; [done|].
      by rewrite (bucket_cfg p), (no_hash_addr _ _ Hm').
    + destruct (fmap_lookup _ _ _ _ _ (eq_sym Hms) Hi) as (m' & Hi' & Hm'). exists m'. split; [done|].
      split; [done|]. by rewrite <- (bucket_cfg p p'), (no_hash_addr _ _ Hm').
Qed.

Lemma hashadd_ok p S cs i m :
  hash_ok p S cs -> member p !! i = Some m -> ~ S i -> nexthash m = None ->
  exists p', ippool_hashadd p i = Done p' /\ hash_step p p' /\
    (forall x, ~ S x -> member p' !! x = member p !! x) /\
    hash_ok p' (fun j => S j \/ j = i)
      (fun b => if decide (b = bucket p (addr m)) then cs b ++ [i] else cs b).
Proof.
  intros Hh Hi HS Hnil. unfold ippool_hashadd, deref. rewrite Hi. obind.
  set (h := bucket p (addr m)). pose proof (bucket_in_table p S cs (addr m) Hh) as Hb. fold h in Hb.
  destruct (h_chain _ _ _ Hh h Hb) as (o & Ho & Hc). rewrite Ho. obind.
  rewrite (walk_prev_chain _ _ _ _ _ (cs h)) by (done || by eapply cs_length).
  rewrite (proj2 (find_from_None _ (cs h))) by (by apply Forall_forall). obind.
  assert (Hcs : forall j b, j ∈ cs b -> j <> i).
  { intros j b (mj & _ & HSj & _)%(h_cs _ _ _ Hh). congruence. }
  assert (Hnd : forall b, NoDup (if decide (b = h) then cs b ++ [i] else cs b)).
  { intros b. case_decide; [|apply (h_nodup _ _ _ Hh)]. apply NoDup_app.
    split; [apply (h_nodup _ _ _ Hh)|]. split; [|apply NoDup_singleton].
    intros j Hj ->%list_elem_of_singleton. by eapply Hcs. }
  assert (Hin : forall b j, j ∈ (if decide (b = h) then cs b ++ [i] else cs b) <->
            exists mj, member p !! j = Some mj /\ (S j \/ j = i) /\ bucket p (addr mj) = b).
  { intros b j. assert (Heq : j ∈ (if decide (b = h) then cs b ++ [i] else cs b) <-> j ∈ cs b \/ b = h /\ j = i).
    { case_decide; [rewrite elem_of_app, list_elem_of_singleton|]; tauto. }
    rewrite Heq, (h_cs _ _ _ Hh). split.
    - intros [(mj & ? & ? & ?)|[-> ->]]; [exists mj; tauto|by exists m; auto].
    - intros (mj & Hj & [HSj| ->] & Hbj); [left; by exists mj|]. right. split; [|done].
      replace mj with m in Hbj by congruence. done. }
  assert (Hnext : nh p i = None) by (unfold nh; by rewrite Hi).
  destruct (list.last (cs h)) as [j|] eqn:Hlast.
  - assert (Hj : j ∈ cs h) by (rewrite last_lookup in Hlast; by eapply list_elem_of_lookup_2).
    destruct (proj1 (h_cs _ _ _ Hh _ _) Hj) as (mj & Hmj & HSj & Hbj).
    assert (cs h <> []) by (by intros He; rewrite He in Hlast).
    rewrite decide_False by done. unfold modify, deref. rewrite Hmj. obind.
    eexists. split; [reflexivity|].
    assert (Hms := set_nexthash_same p j mj (Some i) Hmj).
    split; [by constructor|]. split.
    { intros x Hx. cbn [member set_member]. rewrite list_lookup_insert_ne; [done|]. by intros ->. }
    apply (hash_ok_members p _ S _ cs); try done.
    intros b Hbl. destruct (h_chain _ _ _ Hh b Hbl) as (ob & Hob & Hcb). exists ob. split; [done|].
    case_decide as Hbh.
    + subst b. rewrite Ho in Hob. injection Hob as <-.
      assert (H1 := chain_snoc (nh p) (nh (set_member p (<[j := set_nexthash (Some i) mj]> (member p))))
                o (cs h) i Hcb). rewrite decide_False in H1 by done. apply H1.
      { specialize (Hnd h). by rewrite decide_True in Hnd. }
      { rewrite nh_upd by done. rewrite decide_False; [done|]. intros ->. by eapply Hcs. }
      intros x Hx. rewrite nh_upd, Hlast by done. repeat case_decide; congruence.
    + eapply chain_ext; [|exact Hcb]. intros x Hx. rewrite nh_upd by done. rewrite decide_False; [done|].
      intros ->. apply Hbh. by eapply cs_bucket.
  - assert (Hcs0 : cs h = []) by (by apply last_None). rewrite Hcs0, decide_True by done. cbn [mbind].
    eexists. split; [reflexivity|]. split; [by constructor|]. split; [done|].
    apply (hash_ok_members p _ S _ cs); try done.
    + cbn [hash set_hash]. by rewrite length_insert.
    + intros b Hbl. cbn [hash set_hash]. destruct (h_chain _ _ _ Hh b Hbl) as (ob & Hob & Hcb).
      case_decide as Hbh.
      * subst b. rewrite list_lookup_insert_eq by done. eexists. split; [done|]. rewrite Hcs0. done.
      * rewrite list_lookup_insert_ne by done. by exists ob.
Qed.

Lemma hashdel_ok p S cs i m k :
  hash_ok p S cs -> member p !! i = Some m -> S i -> cs (bucket p (addr m)) !! k = Some i ->
  exists p', ippool_hashdel p i = Done p' /\ hash_step p p' /\
    (forall x, ~ S x -> member p' !! x = member p !! x) /\
    hash_ok p' (fun j => S j /\ j <> i)
      (fun b => if decide (b = bucket p (addr m)) then delete k (cs b) else cs b).
Proof.
  intros Hh Hi HS Hk. unfold ippool_hashdel, deref. rewrite Hi. obind.
  set (h := bucket p (addr m)) in *. pose proof (bucket_in_table p S cs (addr m) Hh) as Hb. fold h in Hb.
  destruct (h_chain _ _ _ Hh h Hb) as (o & Ho & Hc). rewrite Ho. obind.
  rewrite (walk_prev_chain _ _ _ _ _ (cs h)) by (done || by eapply cs_length).
  assert (Hfind : find_from (fun j => bool_decide (j = i)) (cs h) = Some (k, i)).
  { apply find_from_Some. split; [done|]. split; [by apply bool_decide_eq_true|].
    intros j y Hj Hy. apply bool_decide_eq_false. intros ->.
    assert (j = k) by (eapply NoDup_lookup; [apply (h_nodup _ _ _ Hh h)|done|done]). lia. }
  rewrite Hfind. obind. rewrite Hi. obind.
  assert (Hnd : forall b, NoDup (if decide (b = h) then delete k (cs b) else cs b)).
  { intros b. case_decide; [apply NoDup_delete|]; apply (h_nodup _ _ _ Hh). }
  assert (Hin : forall b j, j ∈ (if decide (b = h) then delete k (cs b) else cs b) <->
            exists mj, member p !! j = Some mj /\ (S j /\ j <> i) /\ bucket p (addr mj) = b).
  { intros b j. assert (Heq : j ∈ (if decide (b = h) then delete k (cs b) else cs b) <-> j ∈ cs b /\ j <> i).
    { case_decide as Hbh; [subst b; by apply elem_of_delete_NoDup; [apply (h_nodup _ _ _ Hh)|]|].
      split; [|tauto]. intros Hj. split; [done|]. intros ->. apply Hbh.
      eapply cs_bucket; [done|exact Hj|by eapply list_elem_of_lookup_2]. }
    rewrite Heq, (h_cs _ _ _ Hh). split.
    - intros [(mj & ? & ? & ?) ?]. by exists mj.
    - intros (mj & ? & [? ?] & ?). split; [by exists mj|done]. }
  assert (Hnext : nh p i = nexthash m) by (unfold nh; by rewrite Hi).
  assert (Hdel := fun nx' => chain_delete (nh p) nx' o (cs h) k i Hc (h_nodup _ _ _ Hh h) Hk).
  destruct (decide (k = 0%nat)) as [->|Hk0]; cbn [mbind outcome_bind].
  - eexists. split; [reflexivity|]. split; [by constructor|]. split; [done|].
    apply (hash_ok_members p _ S _ cs); try done.
    + cbn [hash set_hash]. by rewrite length_insert.
    + intros b Hbl. cbn [hash set_hash]. destruct (h_chain _ _ _ Hh b Hbl) as (ob & Hob & Hcb).
      destruct (decide (b = h)) as [Hbh|Hbh].
      * subst b. rewrite list_lookup_insert_eq by done. eexists. split; [done|].
        rewrite <- Hnext. apply Hdel. intros x Hx Hne. rewrite decide_False by tauto. done.
      * rewrite list_lookup_insert_ne by done. by exists ob.
  - destruct (cs h !! pred k) as [j|] eqn:Hj.
    2: { apply lookup_ge_None in Hj. apply lookup_lt_Some in Hk. lia. }
    destruct (proj1 (h_cs _ _ _ Hh h j)) as (mj & Hmj & HSj & Hbj); [by eapply list_elem_of_lookup_2|].
    unfold modify, deref. rewrite Hmj. obind. eexists. split; [reflexivity|].
    assert (Hms := set_nexthash_same p j mj (nexthash m) Hmj).
    split; [by constructor|]. split.
    { intros x Hx. cbn [member set_member]. rewrite list_lookup_insert_ne; [done|]. by intros ->. }
    apply (hash_ok_members p _ S _ cs); try done.
    intros b Hbl. destruct (h_chain _ _ _ Hh b Hbl) as (ob & Hob & Hcb). exists ob. split; [done|].
    destruct (decide (b = h)) as [Hbh|Hbh].
    + subst b. rewrite Ho in Hob. injection Hob as <-. apply Hdel.
      intros x Hx Hne. rewrite nh_upd, Hnext by done.
      destruct (decide (x = j)) as [->|Hxj]; [by rewrite decide_True|].
      rewrite decide_False; [done|]. intros [_ [= ->]]. done.
    + eapply chain_ext; [|exact Hcb]. intros x Hx. rewrite nh_upd by done. rewrite decide_False; [done|].
      intros ->. apply Hbh. eapply cs_bucket; [done|exact Hx|by eapply list_elem_of_lookup_2].
Qed.

Lemma find_member_ok p S cs a :
  hash_ok p S cs ->
  (exists i m, find_member p a = Done (Some (i, m)) /\ member p !! i = Some m /\ S i /\ addr m = a) \/
  (find_member p a = Done None /\ forall i m, member p !! i = Some m -> S i -> addr m <> a).
Proof.
  intros Hh. unfold find_member. set (h := bucket p a).
  destruct (h_chain _ _ _ Hh h (bucket_in_table p S cs a Hh)) as (o & Ho & Hc). rewrite Ho. obind.
  rewrite (walk_chain _ _ _ _ (cs h)) by (done || by eapply cs_length). obind.
  destruct (find_from (has_addr p a) (cs h)) as [[k i]|] eqn:Hf; cbn.
  - apply find_from_Some in Hf as (Hk & Ha & _). left.
    destruct (proj1 (h_cs _ _ _ Hh h i)) as (m & Hm & HS & _); [by eapply list_elem_of_lookup_2|].
    exists i, m. unfold deref. rewrite Hm. obind. unfold has_addr in Ha. rewrite Hm in Ha.
    do 3 (split; [done|]). by apply Z.eqb_eq.
  - right. split; [done|]. intros i m Hm HS Ha. apply find_from_None in Hf. rewrite Forall_forall in Hf.
    assert (Hin : i ∈ cs h) by (apply (h_cs _ _ _ Hh); exists m; by rewrite Ha).
    specialize (Hf i Hin). unfold has_addr in Hf. by rewrite Hm, Ha, Z.eqb_refl in Hf.
Qed.

Lemma getip_ok p S cs a :
  hash_ok p S cs ->
  (exists i m, ippool_getip p a = Done (Some i) /\ member p !! i = Some m /\ S i /\ in_use m = true /\ addr m = a) \/
  (ippool_getip p a = Done None /\
   forall i m, member p !! i = Some m -> S i -> in_use m = true -> addr m <> a).
Proof.
  intros Hh. unfold ippool_getip. set (h := bucket p a).
  destruct (h_chain _ _ _ Hh h (bucket_in_table p S cs a Hh)) as (o & Ho & Hc). rewrite Ho. obind.
  rewrite (walk_chain _ _ _ _ (cs h)) by (done || by eapply cs_length).
  destruct (find_from (fun i => has_addr p a i && used p i) (cs h)) as [[k i]|] eqn:Hf; cbn.
  - apply find_from_Some in Hf as (Hk & [Ha Hu]%andb_true_iff & _). left.
    destruct (proj1 (h_cs _ _ _ Hh h i)) as (m & Hm & HS & _); [by eapply list_elem_of_lookup_2|].
    exists i, m. unfold has_addr in Ha. unfold used in Hu. rewrite Hm in Ha, Hu.
    do 4 (split; [done|]). by apply Z.eqb_eq.
  - right. split; [done|]. intros i m Hm HS Hu Ha. apply find_from_None in Hf. rewrite Forall_forall in Hf.
    assert (Hin : i ∈ cs h) by (apply (h_cs _ _ _ Hh); exists m; by rewrite Ha).
    specialize (Hf i Hin). unfold has_addr, used in Hf. by rewrite Hm, Ha, Hu, Z.eqb_refl in Hf.
Qed.

(** ** The free lists *)

(** Only list links and ends differ. *)
Record list_step (p p' : ippool_t) : Prop := {
  ls_cfg : cfg p' = cfg p;
  ls_hash : hash p' = hash p;
  ls_member : no_links <$> member p' = no_links <$> member p;
}.

(** What a list update writes into member [j]. *)
Definition relink (fn fp : nat -> option (option nat)) (j : nat) (m : ippoolm_t) : ippoolm_t :=
  Member (addr m) (in_use m) (is_static m) (nexthash m)
    (default (prev m) (fp j)) (default (next m) (fn j)) (peer m).

Lemma relink_links fn fp ms : no_links <$> imap (relink fn fp) ms = no_links <$> ms.
Proof.
  apply list_eq. intros i. rewrite !list_lookup_fmap, list_lookup_imap. by destruct (ms !! i).
Qed.
Lemma relink_nx p fn fp j :
  imap (relink fn fp) (member p) !! j ≫= next =
  if decide (is_Some (member p !! j)) then default (nx p j) (fn j) else None.
Proof.
  unfold nx. rewrite list_lookup_imap. destruct (member p !! j) as [m|]; cbn.
  - rewrite decide_True by (by eexists). done.
  - rewrite decide_False; [done|]. by intros [? ?].
Qed.
Lemma relink_pv p fn fp j :
  imap (relink fn fp) (member p) !! j ≫= prev =
  if decide (is_Some (member p !! j)) then default (pv p j) (fp j) else None.
Proof.
  unfold pv. rewrite list_lookup_imap. destruct (member p !! j) as [m|]; cbn.
  - rewrite decide_True by (by eexists). done.
  - rewrite decide_False; [done|]. by intros [? ?].
Qed.

Definition put {A} (o : option nat) (v : A) (j : nat) : option A := if decide (o = Some j) then Some v else None.

(** Equality of pools, field by field. *)
Lemma pool_eq p p' :
  cfg p = cfg p' -> hash p = hash p' -> ends p = ends p' -> (forall j, member p !! j = member p' !! j) -> p = p'.
Proof.
  intros Hc Hh He Hm. apply list_eq in Hm. unfold cfg, ends in *. destruct p, p'. cbn in *.
  injection Hc as -> -> -> -> -> -> -> -> -> ->. injection He as -> -> -> ->. by subst.
Qed.
Lemma lookup_upd (ms : list ippoolm_t) i m0 m j :
  ms !! i = Some m0 -> <[i := m]> ms !! j = if decide (j = i) then Some m else ms !! j.
Proof.
  intros Hi. case_decide as Hj; [subst; apply list_lookup_insert_eq; by eapply lookup_lt_Some|].
  by apply list_lookup_insert_ne.
Qed.

(** Case analysis on which member is looked at. *)
Ltac link_cases :=
  unfold relink, put;
  repeat match goal with |- context [decide (?a = ?b)] => destruct (decide (a = b)); simplify_eq end;
  repeat match goal with H : member ?p !! ?i = Some _ |- context [member ?p !! ?i] => rewrite H end;
  try done.

Lemma unlink_eq st p i m :
  member p !! i = Some m -> prev m <> Some i -> next m <> Some i ->
  (forall j, prev m = Some j -> is_Some (member p !! j) /\ next m <> Some j) ->
  (forall j, next m = Some j -> is_Some (member p !! j)) ->
  unlink st p i = Done (set_ends st
    (set_member p (imap (relink (put (prev m) (next m)) (put (next m) (prev m))) (member p)))
    (if decide (prev m = None) then next m else first st p)
    (if decide (next m = None) then prev m else last st p)).
Proof.
  intros Hi Hp Hn Hpr Hnr. unfold unlink, modify, deref. rewrite Hi. obind.
  destruct (prev m) as [j|] eqn:Epm; [destruct (Hpr j eq_refl) as [[mj Hmj] Hnj]; rewrite Hmj|]; obind.
  - cbn [member set_member]. rewrite (lookup_upd _ _ _ _ _ Hmj), decide_False by congruence. rewrite Hi. obind.
    destruct (next m) as [j'|] eqn:Enm.
    + destruct (Hnr j' eq_refl) as [mj' Hmj'].
      assert (Hx : <[j := set_next (Some j') mj]> (member p) !! j' = Some mj')
        by (rewrite (lookup_upd _ _ _ _ _ Hmj), decide_False; [done|congruence]).
      rewrite Hx. obind. f_equal. apply pool_eq; [done|done|by destruct st|].
      intros k. cbn [member set_member set_ends].
      rewrite list_lookup_imap, (lookup_upd _ j' mj' _ _ Hx), (lookup_upd _ _ _ _ _ Hmj), Epm. link_cases.
      by destruct (member p !! k) as [[]|].
    + f_equal. apply pool_eq; [done|done|by destruct st; rewrite Epm|].
      intros k. cbn [member set_member set_ends].
      rewrite list_lookup_imap, (lookup_upd _ _ _ _ _ Hmj). link_cases. by destruct (member p !! k) as [[]|].
  - cbn [member set_member set_ends]. rewrite Hi. obind. rewrite Epm.
    destruct (next m) as [j'|] eqn:Enm.
    + destruct (Hnr j' eq_refl) as [mj' Hmj']. rewrite Hmj'. obind.
      f_equal. apply pool_eq; [done|done|by destruct st|].
      intros k. cbn [member set_member set_ends].
      rewrite list_lookup_imap, (lookup_upd _ _ _ _ _ Hmj'). link_cases. by destruct (member p !! k) as [[]|].
    + f_equal. apply pool_eq; [done|done|by destruct st|].
      intros k. cbn [member set_member set_ends]. rewrite list_lookup_imap. link_cases.
      by destruct (member p !! k) as [[]|].
Qed.

Lemma append_eq st p i m :
  member p !! i = Some m -> last st p <> Some i ->
  (forall j, last st p = Some j -> is_Some (member p !! j)) ->
  append st p i = Done (set_ends st
    (set_member p (imap (relink (put (last st p) (Some i)) (put (Some i) (last st p))) (member p)))
    (if decide (last st p = None) then Some i else first st p) (Some i)).
Proof.
  intros Hi Hne Hl. unfold append, modify, deref. rewrite Hi. obind.
  change (last st (set_member p (<[i := set_prev (last st p) m]> (member p)))) with (last st p).
  destruct (last st p) as [j|] eqn:El.
  - destruct (Hl j eq_refl) as [mj Hmj].
    assert (Hx : <[i := set_prev (Some j) m]> (member p) !! j = Some mj)
      by (rewrite (lookup_upd _ _ _ _ _ Hi), decide_False; [done|congruence]).
    cbn [member set_member]. rewrite Hx. obind. f_equal. apply pool_eq; [done|done|by destruct st|].
    intros k. cbn [member set_member set_ends].
    rewrite list_lookup_imap, (lookup_upd _ _ _ _ _ Hx), (lookup_upd _ _ _ _ _ Hi). link_cases.
    by destruct (member p !! k) as [[]|].
  - obind. f_equal. apply pool_eq; [done|done|by destruct st|].
    intros k. cbn [member set_member set_ends].
    rewrite list_lookup_imap, (lookup_upd _ _ _ _ _ Hi). link_cases. by destruct (member p !! k) as [[]|].
Qed.

Definition fl_set (fl : bool -> list nat) (st : bool) (l : list nat) (s : bool) : list nat :=
  if eqb s st then l else fl s.

Lemma first_set_ends st s p f l :
  first s (set_ends st p f l) = if eqb s st then f else first s p.
Proof. by destruct st, s. Qed.
Lemma last_set_ends st s p f l :
  last s (set_ends st p f l) = if eqb s st then l else last s p.
Proof. by destruct st, s. Qed.
Lemma default_put {A} (o : option nat) (v d : A) j :
  default d (put o v j) = if decide (o = Some j) then v else d.
Proof. unfold put. by case_decide. Qed.

Lemma fl_disj p fl s st i : lists_ok p fl -> i ∈ fl s -> i ∈ fl st -> s = st.
Proof.
  intros Hl H1 H2. destruct s, st; try done.
  - by destruct (l_disj _ _ Hl i H1).
  - by destruct (l_disj _ _ Hl i H2).
Qed.

(** The neighbours of a free member are free members of its kind. *)
Lemma neighbours p fl st k i m :
  lists_ok p fl -> fl st !! k = Some i -> member p !! i = Some m ->
  prev m = match k with O => None | S k' => fl st !! k' end /\ next m = fl st !! S k.
Proof.
  intros Hl Hk Hm. split.
  - rewrite <- (dc_prev _ _ _ _ _ (l_chain _ _ Hl st) k i Hk). unfold pv. by rewrite Hm.
  - rewrite <- (dchain_nx _ _ _ _ _ _ _ (l_chain _ _ Hl st) Hk). unfold nx. by rewrite Hm.
Qed.

Lemma unlink_ok p fl st k i m :
  lists_ok p fl -> fl st !! k = Some i -> member p !! i = Some m ->
  exists p', unlink st p i = Done p' /\ list_step p p' /\
    lists_ok p' (fl_set fl st (delete k (fl st))) /\ member p' !! i = Some m /\
    (forall j, (forall s, j ∉ fl s) -> member p' !! j = member p !! j).
Proof.
  intros Hl Hk Hm. destruct (neighbours p fl st k i m Hl Hk Hm) as [Hp Hn].
  assert (Hpos : forall k' j, fl st !! k' = Some j -> j = i -> k' = k).
  { intros k' j Hj ->. eapply NoDup_lookup; [apply (l_nodup _ _ Hl st)|done|done]. }
  assert (Hpm : forall j, prev m = Some j -> exists k', k = S k' /\ fl st !! k' = Some j).
  { intros j. rewrite Hp. destruct k as [|k']; [done|]. intros Hj. by exists k'. }
  assert (Hpi : prev m <> Some i) by (intros (k' & -> & Hj)%Hpm; specialize (Hpos _ _ Hj eq_refl); lia).
  assert (Hni : next m <> Some i) by (rewrite Hn; intros Hj; specialize (Hpos _ _ Hj eq_refl); lia).
  assert (Hpf : forall j, prev m = Some j -> j ∈ fl st)
    by (intros j (k' & _ & Hj)%Hpm; by eapply list_elem_of_lookup_2).
  assert (Hnf : forall j, next m = Some j -> j ∈ fl st)
    by (intros j Hj; rewrite Hn in Hj; by eapply list_elem_of_lookup_2).
  eexists. split.
  { apply unlink_eq; [done|done|done| |].
    - intros j Hj. split; [apply (l_range _ _ Hl st); by apply Hpf|].
      rewrite Hn. intros Hj'. destruct (Hpm j Hj) as (k' & -> & Hk').
      assert (S (S k') = k') by (eapply NoDup_lookup; [apply (l_nodup _ _ Hl st)|done|done]). lia.
    - intros j Hj. apply (l_range _ _ Hl st). by apply Hnf. }
  split; [constructor; [done|done|apply relink_links]|]. split.
  - constructor.
    + intros s. rewrite first_set_ends, last_set_ends. unfold fl_set.
      assert (Hpv : pv p i = prev m) by (unfold pv; by rewrite Hm).
      assert (Hnx : nx p i = next m) by (unfold nx; by rewrite Hm).
      destruct (eqb s st) eqn:Es.
      * apply eqb_prop in Es. subst s. rewrite <- Hpv, <- Hnx.
        apply dchain_delete with (nx := nx p) (pv := pv p); [apply (l_chain _ _ Hl st)|apply (l_nodup _ _ Hl st)|done| |].
        -- intros j Hj _. unfold nx at 1. cbn [member set_ends set_member]. rewrite relink_nx, default_put.
           rewrite decide_True by (by apply (l_range _ _ Hl st)). done.
        -- intros j Hj _. unfold pv at 1. cbn [member set_ends set_member]. rewrite relink_pv, default_put.
           rewrite decide_True by (by apply (l_range _ _ Hl st)). done.
      * apply eqb_false_iff in Es. eapply dchain_ext; [|apply (l_chain _ _ Hl s)].
        intros j Hj. unfold nx at 1, pv at 1. cbn [member set_ends set_member].
        assert (Hs := l_range _ _ Hl s j Hj).
        rewrite relink_nx, relink_pv, !default_put.
        destruct (decide (is_Some (member p !! j))); [|done].
        split; (case_decide as Hx; [|done]); exfalso; apply Es; eapply fl_disj; eauto.
    + intros s. unfold fl_set. destruct (eqb s st); [apply NoDup_delete|]; apply (l_nodup _ _ Hl).
    + intros s j Hj. cbn [member set_ends set_member]. rewrite list_lookup_imap, fmap_is_Some.
      apply (l_range _ _ Hl s). unfold fl_set in Hj. destruct (eqb s st) eqn:Es; [|done].
      apply eqb_prop in Es. subst s. by apply (elem_of_delete_NoDup _ _ i) in Hj as [? _]; [|apply (l_nodup _ _ Hl)|].
    + intros j Hj Hj'. assert (Hsub : forall s, j ∈ fl_set fl st (delete k (fl st)) s -> j ∈ fl s).
      { intros s. unfold fl_set. destruct (eqb s st) eqn:Es; [|done]. apply eqb_prop in Es. subst s.
        intros Hd. by apply (elem_of_delete_NoDup _ _ i) in Hd as [? _]; [|apply (l_nodup _ _ Hl)|]. }
      by apply (l_disj _ _ Hl j); apply Hsub.
  - split; [cbn [member set_ends set_member]; rewrite list_lookup_imap, Hm; cbn; f_equal;
      unfold relink, put; rewrite !decide_False by done; by destruct m|].
    intros j Hj. cbn [member set_ends set_member]. rewrite list_lookup_imap. unfold relink, put.
    rewrite !decide_False; [by destruct (member p !! j) as [[]|]| |]; intros Hx.
    + destruct (Hj st). first [by apply Hnf|by apply Hpf].
    + destruct (Hj st). first [by apply Hnf|by apply Hpf].
Qed.

Lemma append_ok p fl st i m :
  lists_ok p fl -> member p !! i = Some m -> next m = None -> (forall s, i ∉ fl s) ->
  exists p', append st p i = Done p' /\ list_step p p' /\
    lists_ok p' (fl_set fl st (fl st ++ [i])) /\ member p' !! i = Some (set_prev (last st p) m) /\
    (forall j, j <> i -> (forall s, j ∉ fl s) -> member p' !! j = member p !! j).
Proof.
  intros Hl Hm Hn Hout.
  assert (Hlf : forall s j, last s p = Some j -> j ∈ fl s).
  { intros s j Hj. rewrite (dc_last _ _ _ _ _ (l_chain _ _ Hl s)), last_lookup in Hj.
    by eapply list_elem_of_lookup_2. }
  assert (Hli : last st p <> Some i) by (intros Hx%Hlf; by destruct (Hout st)).
  eexists. split.
  { apply (append_eq st p i m); [done|done|]. intros j Hj%Hlf. by apply (l_range _ _ Hl st). }
  split; [constructor; [done|done|apply relink_links]|].
  assert (Hnd : NoDup (fl st ++ [i])).
  { apply NoDup_app. split; [apply (l_nodup _ _ Hl)|]. split; [|apply NoDup_singleton].
    intros j Hj ->%list_elem_of_singleton. by destruct (Hout st). }
  split.
  - constructor.
    + intros s. rewrite first_set_ends, last_set_ends. unfold fl_set. destruct (eqb s st) eqn:Es.
      * apply eqb_prop in Es. subst s.
        apply (dchain_snoc (nx p) _ (pv p) _ (first st p) (last st p)); [apply (l_chain _ _ Hl st)|done| | | |].
        -- unfold nx. cbn [member set_ends set_member]. rewrite relink_nx, default_put.
           destruct (decide (last st p = Some i)); [done|]. unfold nx. rewrite Hm. by case_decide.
        -- unfold pv. cbn [member set_ends set_member]. rewrite relink_pv, default_put.
           rewrite !decide_True by (done || by eexists). done.
        -- intros j Hj. unfold nx at 1. cbn [member set_ends set_member]. rewrite relink_nx, default_put.
           by rewrite decide_True by (by apply (l_range _ _ Hl st)).
        -- intros j Hj. unfold pv at 1. cbn [member set_ends set_member]. rewrite relink_pv, default_put.
           rewrite decide_True by (by apply (l_range _ _ Hl st)).
           rewrite decide_False; [done|]. intros [= <-]. by destruct (Hout st).
      * apply eqb_false_iff in Es. eapply dchain_ext; [|apply (l_chain _ _ Hl s)].
        intros j Hj. assert (Hs := l_range _ _ Hl s j Hj).
        unfold nx at 1, pv at 1. cbn [member set_ends set_member]. rewrite relink_nx, relink_pv, !default_put.
        destruct (decide (is_Some (member p !! j))); [|done].
        split; (case_decide as Hx; [|done]); exfalso.
        -- apply Es. eapply fl_disj; eauto.
        -- injection Hx as <-. by destruct (Hout s).
    + intros s. unfold fl_set. destruct (eqb s st) eqn:Es; [done|apply (l_nodup _ _ Hl)].
    + intros s j Hj. cbn [member set_ends set_member]. rewrite list_lookup_imap, fmap_is_Some.
      unfold fl_set in Hj. destruct (eqb s st) eqn:Es; [|by apply (l_range _ _ Hl s)].
      apply elem_of_app in Hj as [Hj| ->%list_elem_of_singleton]; [by apply (l_range _ _ Hl st)|by eexists].
    + intros j Hj Hj'.
      assert (Hsub : forall s, j ∈ fl_set fl st (fl st ++ [i]) s -> j ∈ fl s \/ j = i /\ s = st).
      { intros s. unfold fl_set. destruct (eqb s st) eqn:Es; [|tauto]. apply eqb_prop in Es. subst s.
        rewrite elem_of_app, list_elem_of_singleton. tauto. }
      apply Hsub in Hj as [Hj|[-> Et]], Hj' as [Hj'|[E Ef]].
      * by apply (l_disj _ _ Hl j).
      * subst j. by destruct (Hout true).
      * by destruct (Hout false).
      * congruence.
  - split; [cbn [member set_ends set_member]; rewrite list_lookup_imap, Hm; cbn; f_equal;
      unfold relink, put; destruct (decide (last st p = Some i)); [done|]; rewrite decide_True by done;
      by destruct m|].
    intros j Hji Hj. cbn [member set_ends set_member]. rewrite list_lookup_imap. unfold relink, put.
    rewrite !decide_False; [by destruct (member p !! j) as [[]|]| |]; intros Hx;
      first [congruence|destruct (Hj st); by apply Hlf].
Qed.

(** Writing a member that is in no free list. *)
Lemma lists_ok_upd p fl i m :
  lists_ok p fl -> is_Some (member p !! i) -> (forall s, i ∉ fl s) ->
  lists_ok (set_member p (<[i := m]> (member p))) fl.
Proof.
  intros Hl Hi Hout. constructor; [|apply (l_nodup _ _ Hl)| |apply (l_disj _ _ Hl)].
  - intros s. eapply dchain_ext; [|apply (l_chain _ _ Hl s)]. intros j Hj.
    unfold nx at 1, pv at 1. cbn [member set_member]. rewrite !upd_lookup by done.
    rewrite !decide_False by (intros ->; by destruct (Hout s)). done.
  - intros s j Hj. cbn [member set_member]. destruct (l_range _ _ Hl s j Hj) as [x Hx].
    destruct Hi as [y Hy]. rewrite (lookup_upd _ _ _ _ _ Hy). case_decide; by eexists.
Qed.

(** The hash part depends only on the addresses and hash links of the members in
    the table. *)
Lemma hash_ok_ext p p' S cs :
  hash_ok p S cs -> cfg p' = cfg p -> hash p' = hash p ->
  (forall i m, member p !! i = Some m -> S i ->
     exists m', member p' !! i = Some m' /\ addr m' = addr m /\ nexthash m' = nexthash m) ->
  (forall i m', member p' !! i = Some m' -> S i -> exists m, member p !! i = Some m /\ addr m' = addr m) ->
  hash_ok p' S cs.
Proof.
  intros Hh Hc Hhash Hf Hb. constructor.
  - destruct (h_size _ _ _ Hh) as (H1 & H2 & H3). unfold cfg in Hc. rewrite Hhash.
    replace (hashlog p') with (hashlog p) by congruence. by replace (hashmask p') with (hashmask p) by congruence.
  - intros b. rewrite Hhash. intros (o & Ho & Hch)%(h_chain _ _ _ Hh). exists o. split; [done|].
    eapply chain_ext; [|exact Hch]. intros i (m & Hm & HS & _)%(h_cs _ _ _ Hh).
    destruct (Hf i m Hm HS) as (m' & Hm' & _ & Hnh). unfold nh. rewrite Hm, Hm'. done.
  - apply (h_nodup _ _ _ Hh).
  - intros b i. rewrite (h_cs _ _ _ Hh). split; intros (m & Hm & HS & Hbk).
    + destruct (Hf i m Hm HS) as (m' & Hm' & Ha & _). exists m'. split; [done|]. split; [done|].
      by rewrite (bucket_cfg p), Ha.
    + destruct (Hb i m Hm HS) as (m0 & Hm0 & Ha). exists m0. split; [done|]. split; [done|].
      by rewrite <- (bucket_cfg p p'), <- Ha.
Qed.
Lemma hash_ok_S p S S' cs : hash_ok p S cs -> (forall i, S i <-> S' i) -> hash_ok p S' cs.
Proof.
  intros Hh HS. constructor; [apply (h_size _ _ _ Hh)|apply (h_chain _ _ _ Hh)|apply (h_nodup _ _ _ Hh)|].
  intros b i. rewrite (h_cs _ _ _ Hh). by setoid_rewrite HS.
Qed.

(** ** The invariant after a change of one member *)

Definition core (m : ippoolm_t) : Z * bool * bool := (addr m, in_use m, is_static m).

Lemma core_lookup p p' j x :
  core <$> member p' !! j = core <$> member p !! j -> member p' !! j = Some x ->
  exists y, member p !! j = Some y /\ core y = core x.
Proof. intros He Hx. rewrite Hx in He. destruct (member p !! j) as [y|]; [|done]. injection He as ? ? ?. exists y. unfold core. split; congruence. Qed.
Lemma core_linked x y : core x = core y -> linked x = linked y.
Proof. unfold core, linked. congruence. Qed.

(** [p'] differs from [p], links apart, at most in member [i], which is now [m']. *)
Record changed (p p' : ippool_t) (i : nat) (m m' : ippoolm_t) : Prop := {
  ch_cfg : cfg p' = cfg p;
  ch_len : length (member p') = length (member p);
  ch_old : member p !! i = Some m;
  ch_new : member p' !! i = Some m';
  ch_kind : is_static m' = is_static m;
  ch_core : forall j, j <> i -> core <$> member p' !! j = core <$> member p !! j;
}.

Lemma inv_update p p' fl fl' cs cs' i m m' :
  inv p fl cs -> changed p p' i m m' ->
  (forall j x, j <> i -> member p' !! j = Some x -> in_use x = true -> next x = None /\ prev x = None) ->
  (in_use m' = true -> next m' = None /\ prev m' = None) ->
  (forall j x, member p' !! j = Some x -> linked x = false -> nexthash x = None) ->
  lists_ok p' fl' -> (forall s j, j <> i -> j ∈ fl' s <-> j ∈ fl s) ->
  (forall s, i ∈ fl' s <-> is_static m' = s /\ in_use m' = false) ->
  hash_ok p' (linked_at p') cs' ->
  (forall j x, j <> i -> member p !! j = Some x -> linked x = true -> linked m' = true -> addr x <> addr m') ->
  inv p' fl' cs'.
Proof.
  intros Hi [Hc Hlen Hold Hnew Hk Hcore] Hu Hu' Ho Hl Hfl Hfl' Hh Ha.
  assert (Hds : dynsize p' = dynsize p /\ statsize p' = statsize p /\ listsize p' = listsize p)
    by (unfold cfg in Hc; repeat split; congruence). destruct Hds as (Hd & Hs & Hls).
  constructor; [done|done| | | |done| |].
  - rewrite Hlen, Hd, Hs, Hls. apply (i_size _ _ _ Hi).
  - intros j x Hx. rewrite Hd. destruct (decide (j = i)) as [->|Hne].
    + replace x with m' by congruence. rewrite Hk. by apply (i_kind _ _ _ Hi).
    + destruct (core_lookup _ _ _ _ (Hcore j Hne) Hx) as (y & Hy & Hxy). injection Hxy as _ _ <-.
      by apply (i_kind _ _ _ Hi).
  - intros s j. destruct (decide (j = i)) as [->|Hne].
    + rewrite Hfl'. split; [intros [? ?]; by exists m'|]. intros (x & Hx & ? & ?). by replace m' with x by congruence.
    + rewrite Hfl, (i_free _ _ _ Hi) by done. specialize (Hcore j Hne). split.
      * intros (y & Hy & ? & ?). destruct (core_lookup p' p j y) as (x & Hx & Hxy); [done|done|].
        injection Hxy as _ E1 E2. exists x. split; [done|]. split; congruence.
      * intros (x & Hx & ? & ?). destruct (core_lookup p p' j x) as (y & Hy & Hxy); [done|done|].
        injection Hxy as _ E1 E2. exists y. split; [done|]. split; congruence.
  - intros j x Hx. destruct (decide (j = i)) as [->|Hne]; [|exact (Hu j x Hne Hx)].
    by replace x with m' by congruence.
  - assert (Hown : forall j x, j <> i -> member p' !! j = Some x -> linked x = true -> linked m' = true ->
              addr x <> addr m').
    { intros j x Hne Hx Hlx Hlm. destruct (core_lookup p p' j x) as (y & Hy & Hxy); [by apply Hcore|done|].
      rewrite <- (core_linked _ _ Hxy) in Hlx. injection Hxy as <- _ _. by eapply Ha. }
    intros j j' x x' Hx Hx' Hlx Hlx' Hxx.
    destruct (decide (j = i)) as [->|Hne], (decide (j' = i)) as [->|Hne']; [done| | |].
    + exfalso. assert (x = m') as -> by congruence. by apply (Hown j' x').
    + exfalso. assert (x' = m') as -> by congruence. by apply (Hown j x).
    + destruct (core_lookup p p' j x) as (y & Hy & Hxy); [by apply Hcore|done|].
      destruct (core_lookup p p' j' x') as (y' & Hy' & Hxy'); [by apply Hcore|done|].
      rewrite <- (core_linked _ _ Hxy) in Hlx. rewrite <- (core_linked _ _ Hxy') in Hlx'.
      injection Hxy as E _ _. injection Hxy' as E' _ _. apply (i_addr _ _ _ Hi j j' y y'); congruence.
Qed.

(** ** Allocation and release keep the invariant *)

Lemma modify_eq p i m f :
  member p !! i = Some m -> modify p i f = Done (set_member p (<[i := f m]> (member p))).
Proof. intros Hm. unfold modify, deref. by rewrite Hm. Qed.

Lemma free_member p fl cs st k i m :
  inv p fl cs -> fl st !! k = Some i -> member p !! i = Some m -> is_static m = st /\ in_use m = false.
Proof.
  intros Hi Hk Hm. destruct (proj1 (i_free _ _ _ Hi st i)) as (x & Hx & ? & ?); [by eapply list_elem_of_lookup_2|].
  assert (x = m) as -> by congruence. done.
Qed.
(** A member in use is in no free list. *)
Lemma used_not_free p fl cs i m s : inv p fl cs -> member p !! i = Some m -> in_use m = true -> (i ∉ fl s).
Proof. intros Hi Hm Hu (x & Hx & _ & ?)%(i_free _ _ _ Hi). congruence. Qed.

Lemma links_core p p' j : list_step p p' -> core <$> member p' !! j = core <$> member p !! j.
Proof. intros Hs. by apply (fmap_field no_links core _ _ (fun m => eq_refl) (ls_member _ _ Hs)). Qed.
Lemma links_nexthash p p' j : list_step p p' -> nexthash <$> member p' !! j = nexthash <$> member p !! j.
Proof. intros Hs. by apply (fmap_field no_links nexthash _ _ (fun m => eq_refl) (ls_member _ _ Hs)). Qed.

(** Removing a free member and marking it: the part common to both kinds. *)
Lemma claim_lists p fl cs st k i m f :
  inv p fl cs -> fl st !! k = Some i -> member p !! i = Some m ->
  (forall x, next (f x) = None /\ prev (f x) = None /\ in_use (f x) = true /\
             is_static (f x) = is_static x /\ nexthash (f x) = nexthash x) ->
  exists p1 p', unlink st p i = Done p1 /\ modify p1 i f = Done p' /\ changed p p' i m (f m) /\
    hash p' = hash p /\
    lists_ok p' (fl_set fl st (delete k (fl st))) /\
    (forall s j, j <> i -> j ∈ fl_set fl st (delete k (fl st)) s <-> j ∈ fl s) /\
    (forall s, i ∉ fl_set fl st (delete k (fl st)) s) /\
    (forall j x, j <> i -> member p' !! j = Some x -> in_use x = true -> next x = None /\ prev x = None) /\
    (forall j, j <> i -> nexthash <$> member p' !! j = nexthash <$> member p !! j).
Proof.
  intros Hi Hk Hm Hf. assert (Hl := i_lists _ _ _ Hi).
  destruct (unlink_ok p fl st k i m Hl Hk Hm) as (p1 & Hu & Hs & Hl1 & Hm1 & Hother).
  exists p1. eexists. split; [done|]. split; [by apply modify_eq|].
  destruct (Hf m) as (Hn & Hp & Hu' & Hst & Hnh).
  assert (Hne : forall s j, j <> i -> j ∈ fl_set fl st (delete k (fl st)) s <-> j ∈ fl s).
  { intros s j Hj. unfold fl_set. destruct (eqb s st) eqn:Es; [|done]. apply eqb_prop in Es. subst s.
    rewrite (elem_of_delete_NoDup _ _ i) by (done || apply (l_nodup _ _ Hl)). tauto. }
  assert (Hni : forall s, i ∉ fl_set fl st (delete k (fl st)) s).
  { intros s. unfold fl_set. destruct (eqb s st) eqn:Es.
    - rewrite (elem_of_delete_NoDup _ _ i) by (done || apply (l_nodup _ _ Hl)). tauto.
    - intros Hin. apply eqb_false_iff in Es. apply Es.
      apply (fl_disj p fl s st i Hl Hin). by eapply list_elem_of_lookup_2. }
  assert (Hlk : forall j, j <> i -> member (set_member p1 (<[i := f m]> (member p1))) !! j = member p1 !! j).
  { intros j Hj. cbn [member set_member]. by rewrite (lookup_upd _ _ _ _ _ Hm1), decide_False. }
  split.
  { constructor; [apply (ls_cfg _ _ Hs)| |done| |done|].
    - cbn [member set_member]. rewrite length_insert. by apply (fmap_length no_links), (ls_member _ _ Hs).
    - cbn [member set_member]. by rewrite (lookup_upd _ _ _ _ _ Hm1), decide_True.
    - intros j Hj. rewrite Hlk by done. by apply links_core. }
  split; [apply (ls_hash _ _ Hs)|].
  split; [apply lists_ok_upd; [done|by eexists|done]|]. split; [done|]. split; [done|]. split.
  - intros j x Hj. rewrite Hlk by done. intros Hx Hxu.
    assert (Hjf : forall s, j ∉ fl s).
    { intros s Hin. destruct (proj1 (i_free _ _ _ Hi s j) Hin) as (y & Hy & _ & Hyu).
      destruct (core_lookup p p1 j x (links_core _ _ j Hs) Hx) as (y' & Hy' & Hc).
      injection Hc as _ Hc _. congruence. }
    rewrite (Hother j Hjf) in Hx. by eapply i_used.
  - intros j Hj. rewrite Hlk by done. by apply links_nexthash.
Qed.

(** Consequences of a change for the members that did not change. *)
Lemma changed_other p p' i m m' j x :
  changed p p' i m m' -> j <> i -> member p' !! j = Some x ->
  exists y, member p !! j = Some y /\ core y = core x.
Proof. intros Hch Hj. apply core_lookup. by apply (ch_core _ _ _ _ _ Hch). Qed.
Lemma changed_back p p' i m m' j y :
  changed p p' i m m' -> j <> i -> member p !! j = Some y ->
  exists x, member p' !! j = Some x /\ core x = core y.
Proof. intros Hch Hj. apply core_lookup. symmetry. by apply (ch_core _ _ _ _ _ Hch). Qed.
Lemma changed_linked p p' i m m' j :
  changed p p' i m m' -> j <> i -> linked_at p' j <-> linked_at p j.
Proof.
  intros Hch Hj. split; intros (x & Hx & Hlx).
  - destruct (changed_other _ _ _ _ _ _ _ Hch Hj Hx) as (y & Hy & Hc). exists y.
    split; [done|]. by rewrite (core_linked _ _ Hc).
  - destruct (changed_back _ _ _ _ _ _ _ Hch Hj Hx) as (y & Hy & Hc). exists y.
    split; [done|]. by rewrite (core_linked _ _ Hc).
Qed.
Lemma changed_linked_i p p' i m m' : changed p p' i m m' -> linked_at p' i <-> linked m' = true.
Proof.
  intros Hch. split; [intros (x & Hx & Hl)|intros Hl; exists m'; split; [apply (ch_new _ _ _ _ _ Hch)|done]].
  rewrite (ch_new _ _ _ _ _ Hch) in Hx. by injection Hx as <-.
Qed.
Lemma changed_hash p p' i m m' S cs :
  hash_ok p S cs -> changed p p' i m m' -> hash p' = hash p ->
  (forall j, j <> i -> nexthash <$> member p' !! j = nexthash <$> member p !! j) ->
  (S i -> addr m' = addr m /\ nexthash m' = nexthash m) -> hash_ok p' S cs.
Proof.
  intros Hh Hch Hhash Hnh HS. apply (hash_ok_ext p); [done|apply (ch_cfg _ _ _ _ _ Hch)|done| |].
  - intros j x Hx HSj. destruct (decide (j = i)) as [->|Hj].
    + exists m'. split; [apply (ch_new _ _ _ _ _ Hch)|]. assert (x = m) as -> by (pose proof (ch_old _ _ _ _ _ Hch); congruence).
      by apply HS.
    + specialize (Hnh j Hj). destruct (changed_back _ _ _ _ _ _ _ Hch Hj Hx) as (y & Hy & Hc).
      exists y. rewrite Hx, Hy in Hnh. split; [done|]. split; [by injection Hc|by injection Hnh].
  - intros j x Hx HSj. destruct (decide (j = i)) as [->|Hj].
    + exists m. split; [apply (ch_old _ _ _ _ _ Hch)|]. rewrite (ch_new _ _ _ _ _ Hch) in Hx. injection Hx as <-.
      by apply HS.
    + destruct (changed_other _ _ _ _ _ _ _ Hch Hj Hx) as (y & Hy & Hc). exists y. split; [done|]. by injection Hc.
Qed.
Lemma changed_out p p' fl cs i m m' :
  inv p fl cs -> changed p p' i m m' ->
  (forall j y, j <> i -> member p !! j = Some y -> linked y = false ->
     nexthash <$> member p' !! j = Some (nexthash y)) ->
  (linked m' = false -> nexthash m' = None) ->
  forall j x, member p' !! j = Some x -> linked x = false -> nexthash x = None.
Proof.
  intros Hi Hch Hnh Hm' j x Hx Hlx. destruct (decide (j = i)) as [->|Hj].
  - rewrite (ch_new _ _ _ _ _ Hch) in Hx. injection Hx as <-. by apply Hm'.
  - destruct (changed_other _ _ _ _ _ _ _ Hch Hj Hx) as (y & Hy & Hc). rewrite <- (core_linked _ _ Hc) in Hlx.
    specialize (Hnh j y Hj Hy Hlx). rewrite Hx in Hnh. injection Hnh as ->. by apply (i_out _ _ _ Hi j).
Qed.

Lemma claim_dynamic_ok p fl cs k i m :
  inv p fl cs -> fl false !! k = Some i -> member p !! i = Some m ->
  exists p', (p1 ← unlink false p i; modify p1 i claim) = Done p' /\ changed p p' i m (claim m) /\
    inv p' (fl_set fl false (delete k (fl false))) cs.
Proof.
  intros Hi Hk Hm. destruct (free_member _ _ _ _ _ _ _ Hi Hk Hm) as [Hst Hin].
  destruct (claim_lists p fl cs false k i m claim Hi Hk Hm) as
    (p1 & p' & H1 & H2 & Hch & Hhash & Hl & Hne & Hni & Hu & Hnh); [done|].
  exists p'. rewrite H1. obind. split; [done|]. split; [done|].
  assert (Hlm : linked m = true) by (unfold linked; by rewrite Hst).
  assert (Hlm' : linked (claim m) = true) by (unfold linked; apply orb_true_r).
  apply (inv_update p p' fl _ cs _ i m (claim m) Hi Hch Hu); try done.
  - apply (changed_out p p' fl cs i m (claim m) Hi Hch); [|congruence].
    intros j y Hj Hy _. rewrite Hnh by done. by rewrite Hy.
  - intros s. split; [by intros ?%Hni|by intros [_ ?]].
  - apply (hash_ok_S _ (linked_at p)); [by apply (changed_hash p p' i m (claim m) _ _ (i_hash _ _ _ Hi) Hch)|].
    intros j. destruct (decide (j = i)) as [->|Hj].
    + rewrite (changed_linked_i _ _ _ _ _ Hch). split; [done|]. intros _. by exists m.
    + by rewrite (changed_linked _ _ _ _ _ _ Hch).
  - intros j x Hj Hx Hlx _ Ha. apply Hj. by apply (i_addr _ _ _ Hi j i x m).
Qed.

(** Hash steps keep the free lists and everything but the hash links. *)
Lemma lists_ok_hash p p' fl : lists_ok p fl -> hash_step p p' -> lists_ok p' fl.
Proof.
  intros Hl [_ He Hm]. assert (Hf := fun {A} f Hf => fmap_field (A:=A) no_hash f _ _ Hf Hm).
  constructor; [|apply (l_nodup _ _ Hl)| |apply (l_disj _ _ Hl)].
  - intros s. assert (first s p' = first s p /\ last s p' = last s p) as [-> ->]
      by (unfold ends in He; unfold first, last; destruct s; split; congruence).
    eapply dchain_ext; [|apply (l_chain _ _ Hl s)]. intros j Hj.
    specialize (Hf _ (fun m => (next m, prev m)) (fun m => eq_refl) j). unfold nx, pv.
    destruct (member p' !! j), (member p !! j); try done. by injection Hf.
  - intros s j Hj. apply (l_range _ _ Hl) in Hj.
    specialize (Hf _ (fun m => addr m) (fun m => eq_refl) j). destruct (member p' !! j); [by eexists|].
    destruct Hj as [x Hx]. by rewrite Hx in Hf.
Qed.
Lemma hash_step_changed p p' p2 i m m' m2 :
  changed p p' i m m' -> hash_step p' p2 -> member p2 !! i = Some m2 -> changed p p2 i m m2.
Proof.
  intros Hch [Hc _ Hm] Hm2.
  assert (Hcore := fmap_field no_hash core _ _ (fun m => eq_refl) Hm).
  constructor; [by rewrite Hc, (ch_cfg _ _ _ _ _ Hch)| |apply (ch_old _ _ _ _ _ Hch)|done| |].
  - by rewrite (fmap_length no_hash _ _ Hm), (ch_len _ _ _ _ _ Hch).
  - specialize (Hcore i). rewrite Hm2, (ch_new _ _ _ _ _ Hch) in Hcore. injection Hcore as _ _ ->.
    apply (ch_kind _ _ _ _ _ Hch).
  - intros j Hj. by rewrite Hcore, (ch_core _ _ _ _ _ Hch).
Qed.

Lemma no_hash_links m m' : no_hash m = no_hash m' -> next m = next m' /\ prev m = prev m' /\ core m = core m'.
Proof. unfold core. intros [= ? ? ? ? ? ?]. repeat split; congruence. Qed.

(** The list links of used members after a hash step. *)
Lemma hash_step_used p p' i :
  hash_step p p' ->
  (forall j x, j <> i -> member p !! j = Some x -> in_use x = true -> next x = None /\ prev x = None) ->
  forall j x, j <> i -> member p' !! j = Some x -> in_use x = true -> next x = None /\ prev x = None.
Proof.
  intros Hs Hu j x Hj Hx Hxu. destruct (fmap_lookup _ _ _ _ _ (eq_sym (hs_member _ _ Hs)) Hx) as (y & Hy & Hxy).
  destruct (no_hash_links _ _ Hxy) as (<- & <- & Hc). apply (Hu j y Hj Hy). injection Hc. congruence.
Qed.

Lemma claim_static_ok p fl cs k i m a :
  inv p fl cs -> fl true !! k = Some i -> member p !! i = Some m ->
  (forall j x, member p !! j = Some x -> linked x = true -> addr x <> a) ->
  exists p' m' cs', (p1 ← unlink true p i; p2 ← modify p1 i (claim_static a); ippool_hashadd p2 i) = Done p' /\
    changed p p' i m m' /\ core m' = (a, true, true) /\
    inv p' (fl_set fl true (delete k (fl true))) cs'.
Proof.
  intros Hi Hk Hm Ha. destruct (free_member _ _ _ _ _ _ _ Hi Hk Hm) as [Hst Hin].
  destruct (claim_lists p fl cs true k i m (claim_static a) Hi Hk Hm) as
    (p1 & p2 & H1 & H2 & Hch & Hhash & Hl & Hne & Hni & Hu & Hnh); [done|].
  rewrite H1. obind. rewrite H2. obind.
  assert (Hlm : linked m = false) by (unfold linked; by rewrite Hst, Hin).
  assert (HnS : ~ linked_at p i) by (intros (x & Hx & ?); congruence).
  assert (Hh2 : hash_ok p2 (linked_at p) cs)
    by (apply (changed_hash p p2 i m (claim_static a m) _ _ (i_hash _ _ _ Hi) Hch); tauto).
  destruct (hashadd_ok p2 (linked_at p) cs i (claim_static a m) Hh2 (ch_new _ _ _ _ _ Hch) HnS) as
    (p' & Hadd & Hs & Hsame & Hh').
  { apply (i_out _ _ _ Hi i m Hm Hlm). }
  destruct (fmap_lookup _ _ _ _ _ (hs_member _ _ Hs) (ch_new _ _ _ _ _ Hch)) as (m' & Hm' & Hmm).
  destruct (no_hash_links _ _ Hmm) as (Hn' & Hp' & Hc').
  assert (Hch' := hash_step_changed _ _ _ _ _ _ _ Hch Hs Hm').
  assert (Hc'' : core m' = (a, true, true)) by (rewrite Hc'; unfold core; cbn; by rewrite Hst).
  exists p', m'. eexists. split; [done|]. split; [done|]. split; [done|].
  injection Hc'' as Ham Hum Hsm.
  assert (Hlm' : linked m' = true) by (unfold linked; rewrite Hum; apply orb_true_r).
  apply (inv_update p p' fl _ cs _ i m m' Hi Hch').
  - apply (hash_step_used p2 p' i Hs Hu).
  - intros _. by rewrite Hn', Hp'.
  - apply (changed_out p p' fl cs i m m' Hi Hch'); [|congruence].
    intros j y Hj Hy Hly. rewrite Hsame by (intros (x & Hx & ?); congruence). rewrite Hnh by done. by rewrite Hy.
  - by apply (lists_ok_hash p2).
  - done.
  - intros s. split; [by intros ?%Hni|by intros [_ ?]; congruence].
  - eapply hash_ok_S; [exact Hh'|]. intros j. cbn. destruct (decide (j = i)) as [->|Hj].
    + rewrite (changed_linked_i _ _ _ _ _ Hch'). tauto.
    + rewrite (changed_linked _ _ _ _ _ _ Hch') by done. tauto.
  - intros j x Hj Hx Hlx _. rewrite Ham. by eapply Ha.
Qed.

(** Writing a free member without touching its list links. *)
Lemma lists_ok_same p fl i m m0 :
  lists_ok p fl -> member p !! i = Some m0 -> next m = next m0 -> prev m = prev m0 ->
  lists_ok (set_member p (<[i := m]> (member p))) fl.
Proof.
  intros Hl Hi Hn Hp. constructor; [|apply (l_nodup _ _ Hl)| |apply (l_disj _ _ Hl)].
  - intros s. eapply dchain_ext; [|apply (l_chain _ _ Hl s)]. intros j Hj.
    unfold nx, pv. cbn [member set_member]. rewrite !upd_lookup by (by eexists).
    case_decide as Hji; [|done]. subst j. rewrite Hi. cbn. by rewrite Hn, Hp.
  - intros s j Hj. cbn [member set_member]. rewrite (lookup_upd _ _ _ _ _ Hi).
    case_decide; [by eexists|by apply (l_range _ _ Hl s)].
Qed.

(** Putting a used member back: the part common to both kinds. [p0] is the pool
    whose lists [p1] still has. *)
Lemma release_lists p p1 fl cs st i m m1 f :
  inv p fl cs -> changed p p1 i m m1 -> in_use m = true -> is_static m = st -> lists_ok p1 fl ->
  next m1 = None ->
  (forall j x, j <> i -> member p1 !! j = Some x -> in_use x = true -> next x = None /\ prev x = None) ->
  (forall x, next (f x) = next x /\ prev (f x) = prev x /\ in_use (f x) = false /\ is_static (f x) = is_static x) ->
  exists p2 p' m', append st p1 i = Done p2 /\ modify p2 i f = Done p' /\ changed p p' i m m' /\
    m' = f (set_prev (last st p1) m1) /\ hash p' = hash p1 /\
    lists_ok p' (fl_set fl st (fl st ++ [i])) /\
    (forall s j, j <> i -> j ∈ fl_set fl st (fl st ++ [i]) s <-> j ∈ fl s) /\
    (forall s, i ∈ fl_set fl st (fl st ++ [i]) s <-> s = st) /\
    (forall j x, j <> i -> member p' !! j = Some x -> in_use x = true -> next x = None /\ prev x = None) /\
    (forall j, j <> i -> nexthash <$> member p' !! j = nexthash <$> member p1 !! j).
Proof.
  intros Hi Hch Hum Hst Hl Hn1 Hu Hf.
  assert (Hout : forall s, i ∉ fl s) by (intros s; apply (used_not_free p fl cs i m s Hi (ch_old _ _ _ _ _ Hch) Hum)).
  destruct (append_ok p1 fl st i m1 Hl (ch_new _ _ _ _ _ Hch) Hn1 Hout) as (p2 & Ha & Hs & Hl2 & Hm2 & Hother).
  set (mp := set_prev (last st p1) m1) in *. destruct (Hf mp) as (Hfn & Hfp & Hfu & Hfs).
  exists p2. eexists. exists (f mp). split; [done|]. split; [by apply modify_eq|].
  assert (Hlk : forall j, j <> i -> member (set_member p2 (<[i := f mp]> (member p2))) !! j = member p2 !! j).
  { intros j Hj. cbn [member set_member]. by rewrite (lookup_upd _ _ _ _ _ Hm2), decide_False. }
  split; [|split; [done|]].
  { constructor; [by rewrite <- (ch_cfg _ _ _ _ _ Hch), <- (ls_cfg _ _ Hs)| |apply (ch_old _ _ _ _ _ Hch)| | |].
    - cbn [member set_member]. rewrite length_insert, (fmap_length no_links _ _ (ls_member _ _ Hs)).
      apply (ch_len _ _ _ _ _ Hch).
    - cbn [member set_member]. by rewrite (lookup_upd _ _ _ _ _ Hm2), decide_True.
    - rewrite Hfs. apply (ch_kind _ _ _ _ _ Hch).
    - intros j Hj. rewrite Hlk, (links_core p1) by done. by apply (ch_core _ _ _ _ _ Hch). }
  split; [apply (ls_hash _ _ Hs)|].
  split; [by apply (lists_ok_same _ _ _ _ mp)|].
  split.
  { intros s j Hj. unfold fl_set. destruct (eqb s st) eqn:Es; [|done]. apply eqb_prop in Es. subst s.
    rewrite elem_of_app, list_elem_of_singleton. tauto. }
  split.
  { intros s. unfold fl_set. destruct (eqb s st) eqn:Es.
    - apply eqb_prop in Es. subst s. rewrite elem_of_app, list_elem_of_singleton. tauto.
    - apply eqb_false_iff in Es. split; [by intros ?%Hout|done]. }
  split.
  - intros j x Hj. rewrite Hlk by done. intros Hx Hxu.
    assert (Hjf : forall s, j ∉ fl s).
    { intros s Hin. destruct (proj1 (i_free _ _ _ Hi s j) Hin) as (y & Hy & _ & Hyu).
      destruct (changed_back _ _ _ _ _ _ _ Hch Hj Hy) as (y1 & Hy1 & Hc1).
      destruct (core_lookup p1 p2 j x (links_core _ _ j Hs) Hx) as (y' & Hy' & Hc).
      injection Hc as _ Hc _. injection Hc1 as _ Hc1 _. congruence. }
    rewrite (Hother j Hj Hjf) in Hx. by eapply Hu.
  - intros j Hj. rewrite Hlk by done. by apply links_nexthash.
Qed.

Lemma changed_refl p i m : member p !! i = Some m -> changed p p i m m.
Proof. by constructor. Qed.
Lemma changed_from p p1 p' i m m1 m' :
  changed p p1 i m m1 -> changed p p' i m m' -> changed p1 p' i m1 m'.
Proof.
  intros H1 H2. constructor.
  - by rewrite (ch_cfg _ _ _ _ _ H1), (ch_cfg _ _ _ _ _ H2).
  - by rewrite (ch_len _ _ _ _ _ H1), (ch_len _ _ _ _ _ H2).
  - apply (ch_new _ _ _ _ _ H1).
  - apply (ch_new _ _ _ _ _ H2).
  - by rewrite (ch_kind _ _ _ _ _ H1), (ch_kind _ _ _ _ _ H2).
  - intros j Hj. by rewrite (ch_core _ _ _ _ _ H1 j Hj), (ch_core _ _ _ _ _ H2 j Hj).
Qed.

Lemma freeip_ok p fl cs i m :
  inv p fl cs -> member p !! i = Some m -> in_use m = true ->
  exists p' m' cs', ippool_freeip p i = Done p' /\ changed p p' i m m' /\
    core m' = (if is_static m then 0 else addr m, false, is_static m) /\
    inv p' (fl_set fl (is_static m) (fl (is_static m) ++ [i])) cs'.
Proof.
  intros Hi Hm Hu. assert (Hl := i_lists _ _ _ Hi). assert (Hh := i_hash _ _ _ Hi).
  destruct (i_used _ _ _ Hi i m Hm Hu) as [Hn _].
  assert (Hlm : linked m = true) by (unfold linked; rewrite Hu; apply orb_true_r).
  assert (HS : linked_at p i) by (by exists m).
  assert (Hused : forall j x, j <> i -> member p !! j = Some x -> in_use x = true -> next x = None /\ prev x = None)
    by (intros j x _; apply (i_used _ _ _ Hi)).
  unfold ippool_freeip, deref. rewrite Hm. obind. rewrite Hu. cbn [negb]. destruct (is_static m) eqn:Hst.
  - destruct (proj1 (list_elem_of_lookup _ _) (proj2 (h_cs _ _ _ Hh _ i) (ex_intro _ m (conj Hm (conj HS eq_refl)))))
      as [k Hk].
    destruct (hashdel_ok p _ cs i m k Hh Hm HS Hk) as (p1 & -> & Hs & Hsame & Hh1). obind.
    destruct (fmap_lookup _ _ _ _ _ (hs_member _ _ Hs) Hm) as (m1 & Hm1 & Hmm).
    destruct (no_hash_links _ _ Hmm) as (Hn1 & _ & Hc1).
    assert (Hch1 := hash_step_changed _ _ _ _ _ _ _ (changed_refl p i m Hm) Hs Hm1).
    destruct (release_lists p p1 fl cs true i m m1 release_static Hi Hch1 Hu Hst (lists_ok_hash _ _ _ Hl Hs))
      as (p2 & p' & m' & -> & Hmod & Hch & Hm' & Hhash & Hl' & Hne & Hin & Hu' & Hnh);
      [congruence|apply (hash_step_used p p1 i Hs Hused)|done|].
    obind. assert (Hc' : core m' = (0, false, true)).
    { rewrite Hm'. unfold core. cbn. unfold core in Hc1. congruence. }
    exists p', m'. eexists. split; [done|]. split; [done|]. split; [done|].
    injection Hc' as Ha' Hu2 Hs'.
    assert (Hlm' : linked m' = false) by (unfold linked; by rewrite Hu2, Hs').
    apply (inv_update p p' fl _ cs _ i m m' Hi Hch Hu'); [congruence| |done|done| | |congruence].
    + apply (changed_out p p' fl cs i m m' Hi Hch); [|by rewrite Hm'].
      intros j y Hj Hy Hly. rewrite Hnh, Hsame by (done || intros (x & Hx & ?); congruence). by rewrite Hy.
    + intros s. rewrite Hin, Hs'. intuition congruence.
    + eapply hash_ok_S.
      * apply (changed_hash p1 p' i m1 m' _ _ Hh1 (changed_from _ _ _ _ _ _ _ Hch1 Hch) Hhash Hnh). tauto.
      * intros j. cbn. destruct (decide (j = i)) as [->|Hj].
        -- rewrite (changed_linked_i _ _ _ _ _ Hch). intuition congruence.
        -- rewrite (changed_linked _ _ _ _ _ _ Hch) by done. tauto.
  - destruct (release_lists p p fl cs false i m m release_dynamic Hi (changed_refl p i m Hm) Hu Hst Hl Hn Hused)
      as (p2 & p' & m' & -> & Hmod & Hch & Hm' & Hhash & Hl' & Hne & Hin & Hu' & Hnh); [done|].
    obind. exists p', m', cs. split; [done|]. split; [done|].
    assert (Hc' : core m' = (addr m, false, false)) by (rewrite Hm'; unfold core; cbn; congruence).
    split; [done|]. injection Hc' as Ha' Hu2 Hs'.
    assert (Hlm' : linked m' = true) by (unfold linked; by rewrite Hs').
    apply (inv_update p p' fl _ cs _ i m m' Hi Hch Hu'); [congruence| |done|done| | |].
    + apply (changed_out p p' fl cs i m m' Hi Hch); [|congruence].
      intros j y Hj Hy _. rewrite Hnh by done. by rewrite Hy.
    + intros s. rewrite Hin, Hs'. intuition congruence.
    + apply (hash_ok_S _ (linked_at p)).
      * apply (changed_hash p p' i m m' _ _ Hh Hch Hhash Hnh). intros _. split; [done|]. by rewrite Hm'.
      * intros j. destruct (decide (j = i)) as [->|Hj].
        -- rewrite (changed_linked_i _ _ _ _ _ Hch). tauto.
        -- by rewrite (changed_linked _ _ _ _ _ _ Hch) by done.
    + intros j x Hj Hx Hlx _. rewrite Ha'. intros Ha. apply Hj. by apply (i_addr _ _ _ Hi j i x m).
Qed.

(** ** What the pool promises, without its pointers *)

(** The addresses that can be handed out in the order they are taken, the number
    of free static members, and the addresses in use of either kind. *)
Record apool := APool {
  a_free : list Z;
  a_slots : nat;
  a_dyn : gset Z;
  a_stat : gset Z;
}.
Definition a_used (a : apool) (st : bool) : gset Z := if st then a_stat a else a_dyn a.

Definition take_dyn (x : Z) (a : apool) : apool :=
  APool (filter (fun y => y <> x) (a_free a)) (a_slots a) ({[x]} ∪ a_dyn a) (a_stat a).
Definition take_stat (x : Z) (a : apool) : apool :=
  APool (a_free a) (pred (a_slots a)) (a_dyn a) ({[x]} ∪ a_stat a).
Definition give_back (x : Z) (st : bool) (a : apool) : apool :=
  if st then APool (a_free a) (S (a_slots a)) (a_dyn a) (a_stat a ∖ {[x]})
  else APool (a_free a ++ [x]) (a_slots a) (a_dyn a ∖ {[x]}) (a_stat a).

(** The answer to a request: the address, whether it is static, the new state. *)
Definition spec_newip (p : ippool_t) (a : apool) (addr : option Z) (statip : bool)
    : pool_err + (Z * bool * apool) :=
  let x := default 0 addr in
  if decide (x <> 0) then
    if statip then
      if negb uamanyip && negb (allowstat p) then inl StaticNotAllowed
      else if negb uamanyip && negb ((x &ᵤ statmask p) =? stataddr p) then inl StaticOutOfRange
      else if decide (x ∈ a_stat a) then (if uamanyip then inr (x, true, a) else inl InUse)
      else if decide (x ∈ a_dyn a) then inl InUse
      else if decide (x ∈ a_free a) then inr (x, false, take_dyn x a)
      else match a_slots a with O => inl NoMoreStatic | _ => inr (x, true, take_stat x a) end
    else if negb (allowdyn p) then inl DynamicNotAllowed
    else if decide (x ∈ a_free a) then inr (x, false, take_dyn x a)
    else match a_free a with [] => inl NoMoreDynamic | y :: _ => inr (y, false, take_dyn y a) end
  else if negb (allowdyn p) then inl DynamicNotAllowed
  else if statip then inl NoAddress
  else match a_free a with [] => inl NoMoreDynamic | y :: _ => inr (y, false, take_dyn y a) end.

Definition addr_at (p : ippool_t) (i : nat) : Z :=
  match member p !! i with Some m => addr m | None => 0 end.
Definition used_addr (p : ippool_t) (st : bool) (x : Z) : Prop :=
  exists i m, member p !! i = Some m /\ core m = (x, true, st).

Record absf (p : ippool_t) (a : apool) (fl : bool -> list nat) (cs : nat -> list nat) : Prop := {
  ab_inv : inv p fl cs;
  ab_free : a_free a = addr_at p <$> fl false;
  ab_slots : a_slots a = length (fl true);
  ab_used : forall st x, x ∈ a_used a st <-> used_addr p st x;
}.
(** The pool [p] implements the state [a]. *)
Definition Abs (p : ippool_t) (a : apool) : Prop := exists fl cs, absf p a fl cs.

Lemma filter_delete (f : nat -> Z) (l : list nat) k i :
  l !! k = Some i -> NoDup l -> (forall j, j ∈ l -> f j = f i -> j = i) ->
  filter (fun y => y <> f i) (f <$> l) = f <$> delete k l.
Proof.
  revert k. induction l as [|j l IH]; intros [|k] Hk Hd Hf; try done; cbn in Hk; apply NoDup_cons in Hd as [Hj Hd].
  - injection Hk as ->. cbn. rewrite decide_False by tauto.
    assert (Hall : Forall (fun y => y <> f i) (f <$> l)).
    { apply Forall_fmap, Forall_forall. cbn. intros x Hx He. apply Hj.
      rewrite <- (Hf x); [done|by right|done]. }
    clear -Hall. induction l as [|x l IHl]; [done|]. cbn in *. apply Forall_cons in Hall as [Hx Hall].
    rewrite decide_True by done. f_equal. by apply IHl.
  - cbn. rewrite decide_True.
    + f_equal. apply IH; [done|done|]. intros x Hx. apply Hf. by right.
    + intros He. assert (j = i) as -> by (apply Hf; [by left|done]).
      apply Hj. by eapply list_elem_of_lookup_2.
Qed.

Lemma fmap_addr_at p p' i m m' (l : list nat) :
  changed p p' i m m' -> (i ∉ l) -> addr_at p' <$> l = addr_at p <$> l.
Proof.
  intros Hch Hi. apply list_fmap_ext. intros k j Hj. unfold addr_at.
  assert (Hne : j <> i) by (intros ->; apply Hi; by eapply list_elem_of_lookup_2).
  pose proof (ch_core _ _ _ _ _ Hch j Hne) as Hc. destruct (member p' !! j), (member p !! j); try done.
  by injection Hc.
Qed.

Lemma used_changed p p' i m m' st x :
  changed p p' i m m' ->
  used_addr p' st x <-> core m' = (x, true, st) \/ exists j y, j <> i /\ member p !! j = Some y /\ core y = (x, true, st).
Proof.
  intros Hch. split.
  - intros (j & y & Hy & Hc). destruct (decide (j = i)) as [->|Hj].
    + left. rewrite (ch_new _ _ _ _ _ Hch) in Hy. by injection Hy as <-.
    + right. destruct (changed_other _ _ _ _ _ _ _ Hch Hj Hy) as (z & Hz & Hcz). exists j, z. split; [done|]. split; [done|congruence].
  - intros [Hc|(j & y & Hj & Hy & Hc)].
    + exists i, m'. split; [apply (ch_new _ _ _ _ _ Hch)|done].
    + destruct (changed_back _ _ _ _ _ _ _ Hch Hj Hy) as (z & Hz & Hcz). exists j, z. split; [done|congruence].
Qed.
Lemma used_split p i m st x :
  member p !! i = Some m ->
  used_addr p st x <-> core m = (x, true, st) \/ exists j y, j <> i /\ member p !! j = Some y /\ core y = (x, true, st).
Proof. intros Hm. apply (used_changed p p i m m), changed_refl. done. Qed.

Lemma core_used_linked m x st : core m = (x, true, st) -> linked m = true.
Proof. unfold core, linked. intros [= _ -> _]. apply orb_true_r. Qed.

Lemma free_inj p fl cs : inv p fl cs -> forall i j, i ∈ fl false -> j ∈ fl false -> addr_at p i = addr_at p j -> i = j.
Proof.
  intros Hi i j (m & Hm & Hs & _)%(i_free _ _ _ Hi) (m' & Hm' & Hs' & _)%(i_free _ _ _ Hi).
  unfold addr_at. rewrite Hm, Hm'. apply (i_addr _ _ _ Hi i j m m'); [done|done| |]; unfold linked; by rewrite ?Hs, ?Hs'.
Qed.

Lemma abs_take_dyn p a fl cs k i m :
  absf p a fl cs -> fl false !! k = Some i -> member p !! i = Some m ->
  exists p', (p1 ← unlink false p i; modify p1 i claim) = Done p' /\ cfg p' = cfg p /\
    member p' !! i = Some (claim m) /\ Abs p' (take_dyn (addr m) a).
Proof.
  intros Ha Hk Hm. assert (Hi := ab_inv _ _ _ _ Ha).
  destruct (claim_dynamic_ok p fl cs k i m Hi Hk Hm) as (p' & Hr & Hch & Hi').
  destruct (free_member _ _ _ _ _ _ _ Hi Hk Hm) as [Hst Hu].
  exists p'. split; [done|]. split; [apply (ch_cfg _ _ _ _ _ Hch)|]. split; [apply (ch_new _ _ _ _ _ Hch)|].
  assert (Hin : i ∈ fl false) by (by eapply list_elem_of_lookup_2).
  assert (Hnd := l_nodup _ _ (i_lists _ _ _ Hi)).
  assert (Hai : addr_at p i = addr m) by (unfold addr_at; by rewrite Hm).
  eexists _, cs. constructor; [exact Hi'| | |].
  - cbn [take_dyn a_free]. rewrite (ab_free _ _ _ _ Ha), <- Hai.
    rewrite (filter_delete _ _ k i Hk (Hnd false)).
    + symmetry. apply (fmap_addr_at _ _ _ _ _ _ Hch). change (fl_set _ _ _ false) with (delete k (fl false)).
      rewrite (elem_of_delete_NoDup _ _ i) by done. tauto.
    + intros j Hj Hji. by apply (free_inj p fl cs Hi).
  - cbn [take_dyn a_slots]. apply (ab_slots _ _ _ _ Ha).
  - intros st x. rewrite (used_changed _ _ _ _ _ st x Hch).
    assert (Hold : used_addr p st x <-> exists j y, j <> i /\ member p !! j = Some y /\ core y = (x, true, st)).
    { rewrite (used_split p i m st x Hm). split; [|by right]. intros [Hc|?]; [|done]. unfold core in Hc. congruence. }
    rewrite <- Hold, <- (ab_used _ _ _ _ Ha st x). unfold core. cbn. rewrite Hst.
    destruct st; cbn; [intuition congruence|]. rewrite elem_of_union, elem_of_singleton. intuition congruence.
Qed.

Lemma abs_take_stat p a fl cs k i m x :
  absf p a fl cs -> fl true !! k = Some i -> member p !! i = Some m ->
  (forall j y, member p !! j = Some y -> linked y = true -> addr y <> x) ->
  exists p' m', (p1 ← unlink true p i; p2 ← modify p1 i (claim_static x); ippool_hashadd p2 i) = Done p' /\
    cfg p' = cfg p /\ member p' !! i = Some m' /\ core m' = (x, true, true) /\ Abs p' (take_stat x a).
Proof.
  intros Ha Hk Hm Hx. assert (Hi := ab_inv _ _ _ _ Ha).
  destruct (claim_static_ok p fl cs k i m x Hi Hk Hm Hx) as (p' & m' & cs' & Hr & Hch & Hc & Hi').
  destruct (free_member _ _ _ _ _ _ _ Hi Hk Hm) as [Hst Hu].
  exists p', m'. split; [done|]. split; [apply (ch_cfg _ _ _ _ _ Hch)|]. split; [apply (ch_new _ _ _ _ _ Hch)|].
  split; [done|]. eexists _, cs'. constructor; [exact Hi'| | |].
  - cbn [take_stat a_free]. rewrite (ab_free _ _ _ _ Ha). symmetry. apply (fmap_addr_at _ _ _ _ _ _ Hch).
    intros (y & Hy & ? & _)%(i_free _ _ _ Hi). congruence.
  - cbn [take_stat a_slots]. rewrite (ab_slots _ _ _ _ Ha). change (fl_set _ _ _ true) with (delete k (fl true)).
    rewrite length_delete by done. lia.
  - intros st y. rewrite (used_changed _ _ _ _ _ st y Hch).
    assert (Hold : used_addr p st y <-> exists j z, j <> i /\ member p !! j = Some z /\ core z = (y, true, st)).
    { rewrite (used_split p i m st y Hm). split; [|by right]. intros [Hcm|?]; [|done]. unfold core in Hcm. congruence. }
    rewrite <- Hold, <- (ab_used _ _ _ _ Ha st y), Hc.
    destruct st; cbn; [|intuition congruence]. rewrite elem_of_union, elem_of_singleton. intuition congruence.
Qed.

Lemma abs_give_back p a fl cs i m :
  absf p a fl cs -> member p !! i = Some m -> in_use m = true ->
  exists p', ippool_freeip p i = Done p' /\ cfg p' = cfg p /\ Abs p' (give_back (addr m) (is_static m) a).
Proof.
  intros Ha Hm Hu. assert (Hi := ab_inv _ _ _ _ Ha).
  destruct (freeip_ok p fl cs i m Hi Hm Hu) as (p' & m' & cs' & Hr & Hch & Hc & Hi').
  exists p'. split; [done|]. split; [apply (ch_cfg _ _ _ _ _ Hch)|].
  assert (Hin : forall s, i ∉ fl s) by (intros s; by apply (used_not_free p fl cs i m)).
  assert (Hcm : core m = (addr m, true, is_static m)) by (unfold core; by rewrite Hu).
  eexists _, cs'. constructor; [exact Hi'| | |].
  - assert (Hfree := fmap_addr_at p p' i m m' (fl false) Hch (Hin false)).
    destruct (is_static m) eqn:Hst; cbn; [by rewrite Hfree, (ab_free _ _ _ _ Ha)|].
    rewrite fmap_app, Hfree, (ab_free _ _ _ _ Ha). cbn. do 2 f_equal. unfold addr_at.
    rewrite (ch_new _ _ _ _ _ Hch). injection Hc as Hc1 _ _. congruence.
  - destruct (is_static m) eqn:Hst; cbn; rewrite (ab_slots _ _ _ _ Ha); [|done].
    rewrite length_app. cbn. lia.
  - intros st x. rewrite (used_changed _ _ _ _ _ st x Hch).
    assert (Hold : used_addr p st x <-> (x = addr m /\ st = is_static m) \/
               exists j y, j <> i /\ member p !! j = Some y /\ core y = (x, true, st)).
    { rewrite (used_split p i m st x Hm), Hcm. intuition congruence. }
    assert (Hother : (exists j y, j <> i /\ member p !! j = Some y /\ core y = (x, true, st)) -> x <> addr m).
    { intros (j & y & Hj & Hy & Hcy) ->. apply Hj.
      apply (i_addr _ _ _ Hi j i y m Hy Hm); [by eapply core_used_linked|by eapply core_used_linked|].
      by injection Hcy. }
    rewrite Hc. assert (Hu' := ab_used _ _ _ _ Ha st x). rewrite Hold in Hu'.
    destruct (is_static m), st; cbn in *; rewrite ?elem_of_difference, ?elem_of_singleton; intuition congruence.
Qed.

(** Where an address is: what [find_member] finds. *)
Lemma find_abs p a fl cs x :
  absf p a fl cs ->
  match find_member p x with
  | Done (Some (i, m)) => member p !! i = Some m /\ addr m = x /\
      (if in_use m then x ∈ a_used a (is_static m) else is_static m = false /\ x ∈ a_free a)
  | Done None => forall i m, member p !! i = Some m -> linked m = true -> addr m <> x
  | _ => False
  end.
Proof.
  intros Ha. assert (Hi := ab_inv _ _ _ _ Ha).
  destruct (find_member_ok p _ cs x (i_hash _ _ _ Hi)) as [(i & m & -> & Hm & (m0 & Hm0 & Hl) & Hx)|[-> Hno]].
  - split; [done|]. split; [done|]. assert (m0 = m) as -> by congruence. destruct (in_use m) eqn:Hu.
    + apply (ab_used _ _ _ _ Ha). exists i, m. split; [done|]. unfold core. congruence.
    + assert (Hst : is_static m = false) by (unfold linked in Hl; rewrite Hu, orb_false_r in Hl; by apply negb_true_iff).
      split; [done|]. rewrite (ab_free _ _ _ _ Ha). apply list_elem_of_fmap. exists i.
      split; [unfold addr_at; by rewrite Hm|]. apply (i_free _ _ _ Hi). by exists m.
  - intros i m Hm Hl. apply (Hno i m Hm). by exists m.
Qed.

(** The three places an address can be are exclusive. *)
Lemma abs_disjoint p a fl cs x :
  absf p a fl cs -> (x ∈ a_free a -> (x ∉ a_dyn a) /\ (x ∉ a_stat a)) /\ (x ∈ a_dyn a -> (x ∉ a_stat a)).
Proof.
  intros Ha. assert (Hi := ab_inv _ _ _ _ Ha).
  assert (Hu : forall st, x ∈ a_used a st -> exists i m, member p !! i = Some m /\ linked m = true /\
            addr m = x /\ in_use m = true /\ is_static m = st).
  { intros st (i & m & Hm & Hc)%(ab_used _ _ _ _ Ha). exists i, m. split; [done|].
    split; [by eapply core_used_linked|]. unfold core in Hc. by injection Hc. }
  split.
  - rewrite (ab_free _ _ _ _ Ha). intros (i & -> & (m & Hm & Hs & Hf)%(i_free _ _ _ Hi))%list_elem_of_fmap.
    unfold addr_at in *. rewrite Hm in *.
    assert (Hno : forall st, addr m ∉ a_used a st).
    { intros st (j & y & Hy & Hl & Hay & Huy & _)%Hu.
      assert (j = i) as -> by (apply (i_addr _ _ _ Hi j i y m); try done; unfold linked; by rewrite Hs).
      congruence. }
    split; [apply (Hno false)|apply (Hno true)].
  - intros H1%(Hu false) H2%(Hu true). destruct H1 as (i & m & Hm & Hl & Hx & _ & Hs), H2 as (j & y & Hy & Hl' & Hx' & _ & Hs').
    assert (i = j) as -> by (apply (i_addr _ _ _ Hi i j m y); congruence). congruence.
Qed.

(** [o] is the answer [r] of the specification. *)
Definition answers (p : ippool_t) (r : pool_err + (Z * bool * apool)) (o : result (nat * ippool_t)) : Prop :=
  match r with
  | inl err => o = Fail err
  | inr (x, st, a') => exists i p' m', o = Done (i, p') /\ member p' !! i = Some m' /\
      core m' = (x, true, st) /\ cfg p' = cfg p /\ Abs p' a'
  end.

Lemma newip_dynamic_ok p a fl cs i m :
  absf p a fl cs -> member p !! i = Some m -> in_use m = false -> is_static m = false ->
  answers p (inr (addr m, false, take_dyn (addr m) a)) (newip_dynamic p i m).
Proof.
  intros Ha Hm Hu Hs. assert (Hin : i ∈ fl false) by (apply (i_free _ _ _ (ab_inv _ _ _ _ Ha)); by exists m).
  apply list_elem_of_lookup in Hin as [k Hk].
  destruct (abs_take_dyn p a fl cs k i m Ha Hk Hm) as (p' & Hr & Hc & Hm' & Ha').
  unfold newip_dynamic. rewrite Hu, Hs, Hr. obind. exists i, p', (claim m).
  split; [done|]. split; [done|]. split; [unfold core; cbn; by rewrite Hs|]. done.
Qed.

Lemma newip_head_ok p a fl cs z :
  absf p a fl cs ->
  answers p (match a_free a with [] => inl NoMoreDynamic | y :: _ => inr (y, false, take_dyn y a) end)
    (p2 ← match firstdyn p with
          | None => Fail NoMoreDynamic
          | Some i => m ← deref p i; Done (Some (i, m))
          end;
     match p2 with Some (i, m) => newip_dynamic p i m | None => z end).
Proof.
  intros Ha. assert (Hi := ab_inv _ _ _ _ Ha).
  pose proof (dchain_head _ _ _ _ _ (l_chain _ _ (i_lists _ _ _ Hi) false)) as Hf. cbn in Hf. rewrite Hf.
  rewrite (ab_free _ _ _ _ Ha). destruct (fl false) as [|i l] eqn:Hfl; cbn; [done|].
  destruct (proj1 (i_free _ _ _ Hi false i)) as (m & Hm & Hs & Hu); [rewrite Hfl; by left|].
  unfold deref, addr_at. rewrite Hm. obind. by apply (newip_dynamic_ok p a fl cs).
Qed.

Lemma newip_static_ok p a fl cs x :
  absf p a fl cs -> (forall j y, member p !! j = Some y -> linked y = true -> addr y <> x) ->
  answers p (match a_slots a with O => inl NoMoreStatic | _ => inr (x, true, take_stat x a) end)
    (newip_static p x).
Proof.
  intros Ha Hx. assert (Hi := ab_inv _ _ _ _ Ha).
  pose proof (dchain_head _ _ _ _ _ (l_chain _ _ (i_lists _ _ _ Hi) true)) as Hf. cbn in Hf.
  unfold newip_static. rewrite Hf, (ab_slots _ _ _ _ Ha). destruct (fl true) as [|i l] eqn:Hfl; cbn [head length]; [done|].
  destruct (proj1 (i_free _ _ _ Hi true i)) as (m & Hm & Hs & Hu); [rewrite Hfl; by left|].
  unfold deref. rewrite Hm. obind. rewrite Hu, Hs. cbn [negb].
  destruct (abs_take_stat p a fl cs 0 i m x Ha) as (p' & m' & Hr & Hc & Hm' & Hcm & Ha'); [by rewrite Hfl|done|done|].
  rewrite Hr. obind. by exists i, p', m'.
Qed.

(** An address no member carries is nowhere in the abstract state. *)
Lemma unknown_abs p a fl cs x :
  absf p a fl cs -> (forall i m, member p !! i = Some m -> linked m = true -> addr m <> x) ->
  (x ∉ a_free a) /\ forall st, x ∉ a_used a st.
Proof.
  intros Ha Hno. assert (Hi := ab_inv _ _ _ _ Ha). split.
  - rewrite (ab_free _ _ _ _ Ha). intros (i & -> & (m & Hm & Hs & _)%(i_free _ _ _ Hi))%list_elem_of_fmap.
    unfold addr_at in Hno. rewrite Hm in Hno. apply (Hno i m Hm); [unfold linked; by rewrite Hs|done].
  - intros st (i & m & Hm & Hc)%(ab_used _ _ _ _ Ha). apply (Hno i m Hm); [by eapply core_used_linked|].
    unfold core in Hc. by injection Hc.
Qed.

Lemma newip_ok p a fl cs addr statip :
  absf p a fl cs -> answers p (spec_newip p a addr statip) (ippool_newip p addr statip).
Proof.
  intros Ha. unfold spec_newip, ippool_newip, newip_check. set (x := default 0 addr).
  destruct (decide (x <> 0)) as [Hx|Hx].
  - assert (negb (x =? 0) = true) as -> by (apply negb_true_iff, Z.eqb_neq; done). cbn [andb].
    pose proof (find_abs p a fl cs x Ha) as Hf. destruct (abs_disjoint p a fl cs x Ha) as [Hd1 Hd2].
    destruct statip.
    + assert (Hrest : answers p
                (if decide (x ∈ a_stat a) then (if uamanyip then inr (x, true, a) else inl InUse)
                 else if decide (x ∈ a_dyn a) then inl InUse
                 else if decide (x ∈ a_free a) then inr (x, false, take_dyn x a)
                 else match a_slots a with O => inl NoMoreStatic | _ => inr (x, true, take_stat x a) end)
                (p2 ← find_member p x;
                 if true && uamanyip && match p2 with Some (_, m) => is_static m | None => false end
                 then match p2 with Some (i, _) => Done (i, p) | None => Fault end
                 else
                   p2 ← match (match p2 with Some (_, m) => if negb true && in_use m then None else p2 | None => None end) with
                        | Some x0 => Done (match p2 with Some (_, m) => if negb true && in_use m then None else p2 | None => None end)
                        | None => Done None end;
                   match p2 with Some (i, m) => newip_dynamic p i m | None => newip_static p x end)).
      { destruct (find_member p x) as [[[i m]|]| |] eqn:Hfm; try done; obind; cbn [andb orb negb].
        - destruct Hf as (Hm & Hax & Hu). destruct (in_use m) eqn:Hum.
          + destruct (is_static m) eqn:Hs; cbn in Hu.
            * rewrite decide_True by done. destruct uamanyip; cbn [andb]; obind.
              -- exists i, p, m. unfold core. rewrite Hax, Hum, Hs. do 4 (split; [done|]). by exists fl, cs.
              -- unfold newip_dynamic. by rewrite Hum.
            * rewrite decide_False, decide_True by (done || by apply Hd2). rewrite andb_false_r. obind.
              unfold newip_dynamic. by rewrite Hum.
          + destruct Hu as [Hs Hfree]. destruct (Hd1 Hfree). rewrite Hs, andb_false_r. obind.
            rewrite !decide_False, decide_True by done. rewrite <- Hax.
            by apply (newip_dynamic_ok p a fl cs).
        - destruct (unknown_abs p a fl cs x Ha Hf) as [Hnf Hnu]. rewrite andb_false_r. obind.
          rewrite !decide_False by (done || apply (Hnu true) || apply (Hnu false)).
          by apply (newip_static_ok p a fl cs). }
      destruct uamanyip; cbn [negb andb orb]; [exact Hrest|].
      destruct (allowstat p); cbn [negb]; [|done].
      destruct ((x &ᵤ statmask p) =? stataddr p); cbn [negb]; [exact Hrest|done].
    + destruct (allowdyn p); [|done]. cbn [negb]. obind.
      destruct (find_member p x) as [[[i m]|]| |] eqn:Hfm; try done; obind; cbn [andb orb negb].
      * destruct Hf as (Hm & Hax & Hu). destruct (in_use m) eqn:Hum.
        -- rewrite decide_False by (intros [? ?]%Hd1; by destruct (is_static m)).
           by apply (newip_head_ok p a fl cs).
        -- destruct Hu as [Hs Hfree]. rewrite decide_True by done. rewrite <- Hax.
           by apply (newip_dynamic_ok p a fl cs).
      * destruct (unknown_abs p a fl cs x Ha Hf) as [Hnf _]. rewrite decide_False by done.
        by apply (newip_head_ok p a fl cs).
  - assert (x = 0) as -> by (destruct (decide (x = 0)); tauto). cbn [Z.eqb negb andb].
    destruct (allowdyn p); [|done]. cbn [negb]. obind. destruct statip; cbn [andb orb negb]; obind; [|].
    + rewrite andb_false_r. done.
    + by apply (newip_head_ok p a fl cs).
Qed.

(** ** Who has a member *)

(** What allocation and release leave alone in the other members. *)
Definition tenant (m : ippoolm_t) : Z * bool * option Z := (addr m, in_use m, peer m).

Lemma modify_at p i f p' : modify p i f = Done p' -> exists m, member p !! i = Some m /\ member p' = <[i := f m]> (member p).
Proof. unfold modify, deref. destruct (member p !! i) as [m|]; [|done]. obind. intros [= <-]. by exists m. Qed.
Lemma modify_tenants p i f p' : modify p i f = Done p' -> (forall m, tenant (f m) = tenant m) -> tenant <$> member p' = tenant <$> member p.
Proof.
  intros (m & Hm & ->)%modify_at Hf. rewrite list_fmap_insert, Hf. apply list_insert_id. by rewrite list_lookup_fmap, Hm.
Qed.
Lemma unlink_tenants st p i p' : unlink st p i = Done p' -> tenant <$> member p' = tenant <$> member p.
Proof.
  unfold unlink. destruct (deref p i) as [m| |]; [|done..]. obind.
  set (r := match prev m with Some j => _ | None => _ end). assert (Hr : forall p1, r = Done p1 -> tenant <$> member p1 = tenant <$> member p).
  { intros p1. unfold r. destruct (prev m); [intros H1; by eapply modify_tenants|by intros [= <-]]. }
  destruct r as [p1| |]; [|done..]. specialize (Hr p1 eq_refl). obind. destruct (deref p1 i) as [m1| |]; [|done..]. obind. rewrite <- Hr.
  destruct (next m1); [intros H1; by eapply modify_tenants|by intros [= <-]].
Qed.
Lemma append_tenants st p i p' : append st p i = Done p' -> tenant <$> member p' = tenant <$> member p.
Proof.
  unfold append. destruct (modify p i _) as [p1| |] eqn:E; [|done..]. obind. apply modify_tenants in E; [|done]. rewrite <- E.
  destruct (last st p1); [|by intros [= <-]]. destruct (modify p1 _ _) as [p2| |] eqn:E2; [|done..]. obind.
  apply modify_tenants in E2; [|done]. intros [= <-]. exact E2.
Qed.
Lemma hashadd_tenants p i p' : ippool_hashadd p i = Done p' -> tenant <$> member p' = tenant <$> member p.
Proof.
  unfold ippool_hashadd. destruct (deref p i); [|done..]. obind. destruct (hash p !! _); [|done]. obind.
  destruct (walk_prev _ _ _ _ _) as [[[j|] q]| |]; [|by intros [= <-]|done..]. obind. intros H1. by eapply modify_tenants.
Qed.
Lemma hashdel_tenants p i p' : ippool_hashdel p i = Done p' -> tenant <$> member p' = tenant <$> member p.
Proof.
  unfold ippool_hashdel. destruct (deref p i); [|done..]. obind. destruct (hash p !! _); [|done]. obind.
  destruct (walk_prev _ _ _ _ _) as [[pp [q|]]| |]; [|done..]. obind. destruct (deref p q); [|done..]. obind.
  destruct pp; [intros H1; by eapply modify_tenants|by intros [= <-]].
Qed.

(** One member changes, with the bit [in_use] that it had and has now. *)
Record passes (p p' : ippool_t) (i : nat) (before after : bool) : Prop := {
  pa_old : exists m, member p !! i = Some m /\ in_use m = before;
  pa_new : exists m, member p' !! i = Some m /\ in_use m = after;
  pa_rest : forall j, j <> i -> tenant <$> member p' !! j = tenant <$> member p !! j;
}.
Lemma passes_at p p1 p2 p' i f m before after :
  tenant <$> member p1 = tenant <$> member p -> modify p1 i f = Done p2 -> tenant <$> member p' = tenant <$> member p2 ->
  member p !! i = Some m -> in_use m = before -> (forall x, in_use (f x) = after) -> passes p p' i before after.
Proof.
  intros H1 (m1 & Hm1 & H2)%modify_at H3 Hm Hb Ha. constructor; [by exists m| |].
  - pose proof (f_equal (fun l => l !! i) H3) as E. cbn in E. rewrite H2, !list_lookup_fmap, list_lookup_insert_eq in E by (by eapply lookup_lt_Some).
    destruct (member p' !! i) as [m'|]; [|done]. exists m'. split; [done|]. rewrite <- (Ha m1). by injection E.
  - intros j Hj. rewrite <- !list_lookup_fmap, H3, H2, list_fmap_insert, list_lookup_insert_ne by done. by rewrite H1.
Qed.
Lemma newip_passes p addr statip i p' : uamanyip = false -> ippool_newip p addr statip = Done (i, p') -> passes p p' i false true.
Proof.
  intros Hu. unfold ippool_newip. destruct (newip_check _ _ _ _); [|done..]. obind.
  set (q := if negb _ then _ else _). assert (Hq : forall j m, q = Done (Some (j, m)) -> member p !! j = Some m).
  { intros j m. unfold q, find_member. destruct (negb _); [|done]. destruct (hash p !! _); [|done]. obind.
    destruct (walk _ _ _ _) as [[k|]| |]; [|done..]. obind. unfold deref. destruct (member p !! k) eqn:E; [|done]. by intros [= <- <-]. }
  destruct q as [p2| |]; [|done..]. obind. rewrite Hu, andb_false_r. cbn [andb].
  set (p3 := match p2 with Some (_, m) => _ | None => _ end).
  assert (Hp3 : forall j m, p3 = Some (j, m) -> member p !! j = Some m).
  { intros j m. unfold p3. destruct p2 as [[j2 m2]|]; [|done]. destruct (_ && _); [done|]. intros [= -> ->]. by apply Hq. }
  clearbody p3. clear Hq. set (r := match p3 with Some _ => _ | None => _ end).
  assert (Hr : forall j m, r = Done (Some (j, m)) -> member p !! j = Some m).
  { intros j m. unfold r. destruct p3 as [[j2 m2]|]; [intros [= -> ->]; by apply Hp3|]. destruct statip; [done|].
    destruct (firstdyn p) as [k|]; [|done]. unfold deref. destruct (member p !! k) eqn:E; [|done]. by intros [= <- <-]. }
  destruct r as [[[j m]|]| |]; [| |done..]; obind.
  - specialize (Hr j m eq_refl). unfold newip_dynamic. destruct (in_use m) eqn:Em; [done|]. destruct (is_static m); [done|].
    destruct (unlink false p j) as [p1| |] eqn:E1; [|done..]. obind. destruct (modify p1 j claim) as [p4| |] eqn:E2; [|done..]. obind.
    intros [= <- <-]. eapply passes_at; [by eapply unlink_tenants|exact E2|done|done|done|done].
  - destruct (_ && _); [|done]. unfold newip_static. destruct (firststat p) as [k|]; [|done]. unfold deref.
    destruct (member p !! k) as [m|] eqn:Hm; [|done]. obind. destruct (in_use m) eqn:Em; [done|]. destruct (negb _); [done|].
    destruct (unlink true p k) as [p1| |] eqn:E1; [|done..]. obind. destruct (modify p1 k _) as [p4| |] eqn:E2; [|done..]. obind.
    destruct (ippool_hashadd p4 k) as [p5| |] eqn:E3; [|done..]. obind. intros [= <- <-].
    eapply passes_at; [by eapply unlink_tenants|exact E2|by eapply hashadd_tenants|done|done|done].
Qed.
Lemma freeip_passes p i p' : ippool_freeip p i = Done p' -> passes p p' i true false.
Proof.
  unfold ippool_freeip. unfold deref at 1. destruct (member p !! i) as [m|] eqn:Hm; [|done]. obind. destruct (in_use m) eqn:Em; [|done].
  cbn [negb]. destruct (is_static m).
  - destruct (ippool_hashdel p i) as [p1| |] eqn:E1; [|done..]. obind. destruct (append true p1 i) as [p2| |] eqn:E2; [|done..]. obind. intros E3.
    eapply passes_at; [|exact E3|done|done|done|done]. rewrite (append_tenants _ _ _ _ E2). by eapply hashdel_tenants.
  - destruct (append false p i) as [p2| |] eqn:E2; [|done..]. obind. intros E3.
    eapply passes_at; [|exact E3|done|done|done|done]. by eapply append_tenants.
Qed.

(** The pool does not look at who has a member. *)
Definition set_peer (v : option Z) (m : ippoolm_t) : ippoolm_t :=
  Member (addr m) (in_use m) (is_static m) (nexthash m) (prev m) (next m) v.
Lemma peer_changed p i m v : member p !! i = Some m -> changed p (set_member p (<[i := set_peer v m]> (member p))) i m (set_peer v m).
Proof.
  intros Hm. constructor; try done; cbn [member set_member].
  - apply length_insert.
  - rewrite list_lookup_insert_eq; [done|]. by eapply lookup_lt_Some.
  - intros j Hj. by rewrite list_lookup_insert_ne.
Qed.
Lemma abs_peer p a i m v : Abs p a -> member p !! i = Some m -> Abs (set_member p (<[i := set_peer v m]> (member p))) a.
Proof.
  intros (fl & cs & [Hi Hf Hs Hu]) Hm. set (p' := set_member p _). pose proof (peer_changed p i m v Hm) as Hc. fold p' in Hc.
  assert (Hlk : forall j x, member p' !! j = Some x -> exists y, member p !! j = Some y /\ x = if decide (j = i) then set_peer v y else y).
  { intros j x. unfold p'. cbn [member set_member]. rewrite (lookup_upd _ _ _ _ _ Hm). case_decide as E; [|by exists x].
    intros [= <-]. subst j. by exists m. }
  assert (Hadd : forall j, addr_at p' j = addr_at p j).
  { intros j. unfold addr_at, p'. cbn [member set_member]. rewrite (lookup_upd _ _ _ _ _ Hm). case_decide as E; [|done]. subst j. by rewrite Hm. }
  assert (Hlinked : forall j, linked_at p' j <-> linked_at p j).
  { intros j. unfold linked_at, p'. cbn [member set_member]. rewrite (lookup_upd _ _ _ _ _ Hm). case_decide as E; [|done]. subst j.
    rewrite Hm. split; intros (x & [= <-] & Hl); by eexists. }
  exists fl, cs. constructor; [|rewrite Hf; apply list_fmap_ext; intros; symmetry; apply Hadd|done|].
  - eapply (inv_update p p' fl fl cs cs); [done|exact Hc|..]; try done.
    + intros j x Hj Hx. destruct (Hlk j x Hx) as (y & Hy & ->). rewrite decide_False by done. by apply (i_used _ _ _ Hi j).
    + intros Hin. exact (i_used _ _ _ Hi i m Hm Hin).
    + intros j x Hx Hl. destruct (Hlk j x Hx) as (y & Hy & ->). case_decide; exact (i_out _ _ _ Hi j y Hy Hl).
    + eapply (lists_ok_same p fl i _ m); [apply Hi|done..].
    + intros s. rewrite (i_free _ _ _ Hi s i), Hm. split; [intros (x & [= <-] & ? & ?); done|intros [? ?]; by exists m].
    + apply (hash_ok_S _ (linked_at p)); [|by setoid_rewrite Hlinked]. apply (hash_ok_ext p); try done; [apply Hi| |].
      * intros j x Hx _. unfold p'. cbn [member set_member]. rewrite (lookup_upd _ _ _ _ _ Hm). case_decide; [|by exists x].
        subst j. exists (set_peer v m). assert (x = m) as -> by congruence. done.
      * intros j x Hx _. destruct (Hlk j x Hx) as (y & Hy & ->). exists y. split; [done|]. by case_decide.
    + intros j x Hj Hx Hlx Hl Ha. apply Hj. by apply (i_addr _ _ _ Hi j i x m).
  - intros st x. rewrite (Hu st x). split; intros (j & y & Hy & Hcy).
    + destruct (decide (j = i)) as [->|Hj]; [exists i, (set_peer v m)|exists j, y]; unfold p'; cbn [member set_member];
        rewrite (lookup_upd _ _ _ _ _ Hm); [rewrite decide_True|rewrite decide_False]; try done.
      split; [done|]. assert (y = m) as -> by congruence. done.
    + destruct (Hlk j y Hy) as (z & Hz & ->). exists j, z. split; [done|]. by case_decide.
Qed.

(** ** Creation: the filling loops *)

Section Creation.
Context (calloc : Z -> Z -> bool) (uamlisten dhcplisten : Z).

Lemma fill_one st p i fl a :
  lists_ok p fl -> member p !! i = Some (fresh_member 0 false) -> (forall s, i ∉ fl s) ->
  exists p1 p2 p3 m3, modify p i (init_member a st) = Done p1 /\ append st p1 i = Done p2 /\
    modify p2 i (set_next None) = Done p3 /\
    cfg p3 = cfg p /\ hash p3 = hash p /\ length (member p3) = length (member p) /\
    member p3 !! i = Some m3 /\ core m3 = (a, false, st) /\ nexthash m3 = None /\
    (forall j, j <> i -> no_links <$> member p3 !! j = no_links <$> member p !! j) /\
    (forall j, j <> i -> (forall s, j ∉ fl s) -> member p3 !! j = member p !! j) /\
    lists_ok p3 (fl_set fl st (fl st ++ [i])).
Proof.
  intros Hl Hm Hout. set (m1 := init_member a st (fresh_member 0 false)).
  set (p1 := set_member p (<[i := m1]> (member p))).
  assert (Hl1 : lists_ok p1 fl) by (apply lists_ok_upd; [done|by eexists|done]).
  assert (Hm1 : member p1 !! i = Some m1) by (cbn; by rewrite (lookup_upd _ _ _ _ _ Hm), decide_True).
  destruct (append_ok p1 fl st i m1 Hl1 Hm1 eq_refl Hout) as (p2 & Ha & Hs & Hl2 & Hm2 & Hother).
  set (m2 := set_prev (last st p1) m1) in *.
  exists p1, p2. eexists. exists (set_next None m2). split; [by apply modify_eq|]. split; [done|].
  split; [by apply modify_eq|]. split; [apply (ls_cfg _ _ Hs)|]. split; [apply (ls_hash _ _ Hs)|].
  split; [cbn [member set_member]; rewrite length_insert, (fmap_length no_links _ _ (ls_member _ _ Hs)); apply length_insert|].
  split; [cbn [member set_member]; by rewrite (lookup_upd _ _ _ _ _ Hm2), decide_True|].
  split; [done|]. split; [done|].
  assert (Hlk : forall j, j <> i -> member (set_member p2 (<[i := set_next None m2]> (member p2))) !! j = member p2 !! j)
    by (intros j Hj; cbn [member set_member]; by rewrite (lookup_upd _ _ _ _ _ Hm2), decide_False).
  assert (Hlk1 : forall j, j <> i -> member p1 !! j = member p !! j)
    by (intros j Hj; cbn [p1 member set_member]; by rewrite (lookup_upd _ _ _ _ _ Hm), decide_False).
  split.
  { intros j Hj. rewrite Hlk, <- (Hlk1 j) by done.
    apply (fmap_field no_links no_links _ _ (fun m => eq_refl) (ls_member _ _ Hs)). }
  split; [intros j Hj Hjs; by rewrite Hlk, Hother, Hlk1 by done|].
  by apply (lists_ok_same _ _ _ _ m2).
Qed.

(** The pool after members [0 .. i - 1] have been filled, [d] of them dynamic with
    the addresses [addrs]. *)
Record building (p0 p : ippool_t) (d i : nat) (addrs : list Z) (fl : bool -> list nat)
    (cs : nat -> list nat) : Prop := {
  b_lists : lists_ok p fl;
  b_fl : fl false = seq 0 (i `min` d) /\ fl true = seq d (i - d);
  b_hash : hash_ok p (fun j => (j < i `min` d)%nat) cs;
  b_cfg : cfg p = cfg p0;
  b_len : length (member p) = length (member p0);
  b_done : forall j, (j < i)%nat -> exists m, member p !! j = Some m /\
    (if decide (j < d)%nat then exists a, addrs !! j = Some a /\ core m = (a, false, false)
     else core m = (0, false, true) /\ nexthash m = None);
  b_rest : forall j, (i <= j < length (member p0))%nat -> member p !! j = Some (fresh_member 0 false);
}.

Lemma b_notin p0 p d i addrs fl cs j s : building p0 p d i addrs fl cs -> (i <= j)%nat -> (j ∉ fl s).
Proof.
  intros [_ [Hf Ht] _ _ _ _ _] Hj. destruct s; rewrite ?Hf, ?Ht; rewrite elem_of_seq; lia.
Qed.

(** The addresses [fill_dynamic] writes. *)
Fixpoint pool_addrs (n i : nat) (addr start : Z) : list Z :=
  match n with
  | O => []
  | S n' => let '(a, s) := member_addr uamlisten dhcplisten addr (Z.of_nat i) start in a :: pool_addrs n' (S i) addr s
  end.

Lemma links_hash p p' S cs i :
  hash_ok p S cs -> cfg p' = cfg p -> hash p' = hash p -> ~ S i ->
  (forall j, j <> i -> no_links <$> member p' !! j = no_links <$> member p !! j) -> hash_ok p' S cs.
Proof.
  intros Hh Hc Hhash Hi Hm.
  assert (Hlk : forall q q' j x, no_links <$> member q' !! j = no_links <$> member q !! j ->
            member q !! j = Some x -> exists y, member q' !! j = Some y /\ addr y = addr x /\ nexthash y = nexthash x).
  { intros q q' j x He Hx. rewrite Hx in He. destruct (member q' !! j) as [y|]; [|done].
    exists y. split; [done|]. by injection He. }
  apply (hash_ok_ext p); try done.
  - intros j x Hx HS. apply (Hlk p p' j x); [apply Hm; congruence|done].
  - intros j x Hx HS. destruct (Hlk p' p j x) as (y & Hy & Ha & _); [symmetry; apply Hm; congruence|done|]. by exists y.
Qed.

(** One turn of a filling loop, the hash table apart. *)
Lemma building_one p0 p d i addrs fl cs st a :
  building p0 p d i addrs fl cs -> (i < length (member p0))%nat -> st = bool_decide (d <= i)%nat ->
  exists p1 p2 p3 m3, modify p i (init_member a st) = Done p1 /\ append st p1 i = Done p2 /\
    modify p2 i (set_next None) = Done p3 /\ cfg p3 = cfg p0 /\ length (member p3) = length (member p0) /\
    member p3 !! i = Some m3 /\ core m3 = (a, false, st) /\ nexthash m3 = None /\
    hash_ok p3 (fun j => (j < i `min` d)%nat) cs /\
    (forall j, j <> i -> core <$> member p3 !! j = core <$> member p !! j /\
                         nexthash <$> member p3 !! j = nexthash <$> member p !! j) /\
    (forall j, (S i <= j < length (member p0))%nat -> member p3 !! j = Some (fresh_member 0 false)) /\
    lists_ok p3 (fl_set fl st (fl st ++ [i])) /\
    fl_set fl st (fl st ++ [i]) false = seq 0 (S i `min` d) /\
    fl_set fl st (fl st ++ [i]) true = seq d (S i - d).
Proof.
  intros Hb Hi Hst. assert (Hout := fun s => b_notin _ _ _ _ _ _ _ i s Hb (le_n i)).
  destruct (fill_one st p i fl a (b_lists _ _ _ _ _ _ _ Hb) (b_rest _ _ _ _ _ _ _ Hb i (conj (le_n i) Hi)) Hout)
    as (p1 & p2 & p3 & m3 & H1 & H2 & H3 & Hc & Hh & Hl & Hm3 & Hc3 & Hn3 & Hlk & Hsame & Hl3).
  exists p1, p2, p3, m3. do 3 (split; [done|]). split; [by rewrite Hc, (b_cfg _ _ _ _ _ _ _ Hb)|].
  split; [by rewrite Hl, (b_len _ _ _ _ _ _ _ Hb)|]. do 3 (split; [done|]).
  split; [apply (links_hash p p3 _ cs i (b_hash _ _ _ _ _ _ _ Hb) Hc Hh); [lia|done]|].
  split.
  { intros j Hj. specialize (Hlk j Hj).
    destruct (member p3 !! j), (member p !! j); try done. injection Hlk as ? ? ? ? ?. unfold core. cbn.
    split; congruence. }
  split.
  { intros j Hj. rewrite Hsame.
    - apply (b_rest _ _ _ _ _ _ _ Hb). lia.
    - lia.
    - intros s. apply (b_notin _ _ _ _ _ _ _ j s Hb). lia. }
  split; [done|]. destruct (b_fl _ _ _ _ _ _ _ Hb) as [Hf Ht]. unfold fl_set.
  destruct (decide (d <= i)%nat) as [Hd|Hd].
  - rewrite bool_decide_eq_true_2 in Hst by done. subst st. cbn [eqb]. rewrite Hf, Ht.
    split; [f_equal; lia|]. replace (S i - d)%nat with (S (i - d)) by lia. rewrite seq_S. do 2 f_equal. lia.
  - rewrite bool_decide_eq_false_2 in Hst by done. subst st. cbn [eqb]. rewrite Hf, Ht.
    split; [|f_equal; lia]. replace (S i `min` d)%nat with (S (i `min` d)) by lia. rewrite seq_S. do 2 f_equal. lia.
Qed.

Lemma fill_dynamic_ok p0 d addrs addr n i start p fl cs :
  building p0 p d i addrs fl cs -> (i + n = d)%nat -> (d <= length (member p0))%nat ->
  drop i addrs = pool_addrs n i addr start ->
  exists p' fl' cs', fill_dynamic uamlisten dhcplisten n i addr start p = Done p' /\ building p0 p' d d addrs fl' cs'.
Proof.
  revert i start p fl cs. induction n as [|n IH]; intros i start p fl cs Hb Hn Hd Hdr; cbn [fill_dynamic].
  { assert (i = d) as -> by lia. by exists p, fl, cs. }
  cbn [pool_addrs] in Hdr. destruct (member_addr uamlisten dhcplisten addr (Z.of_nat i) start) as [a s] eqn:Ea.
  destruct (building_one p0 p d i addrs fl cs false a Hb) as
    (p1 & p2 & p3 & m3 & H1 & H2 & H3 & Hc & Hl & Hm3 & Hc3 & Hn3 & Hh & Hlk & Hrest & Hl3 & Hf & Ht);
    [lia|symmetry; apply bool_decide_eq_false; lia|].
  rewrite H1. obind. rewrite H2. obind. rewrite H3. obind.
  destruct (hashadd_ok p3 _ cs i m3 Hh Hm3) as (p4 & Hadd & Hs & Hsame & Hh4); [lia|done|].
  rewrite Hadd. obind.
  assert (Hcore : forall j, core <$> member p4 !! j = core <$> member p3 !! j)
    by (apply (fmap_field no_hash core _ _ (fun m => eq_refl) (hs_member _ _ Hs))).
  eapply IH; [|lia|done|].
  - constructor.
    + apply (lists_ok_hash _ _ _ Hl3 Hs).
    + done.
    + eapply hash_ok_S; [exact Hh4|]. intros j. split; lia.
    + by rewrite (hs_cfg _ _ Hs).
    + by rewrite (fmap_length no_hash _ _ (hs_member _ _ Hs)).
    + intros j Hj. destruct (decide (j = i)) as [->|Hji].
      * specialize (Hcore i). rewrite Hm3 in Hcore. destruct (member p4 !! i) as [m4|]; [|done].
        exists m4. split; [done|]. rewrite decide_True by lia. exists a.
        split; [|cbn in Hcore; congruence]. rewrite <- (take_drop i addrs), Hdr.
        assert (i < length addrs)%nat by (apply (f_equal length) in Hdr; rewrite length_drop in Hdr; cbn in Hdr; lia).
        rewrite lookup_app_r by (rewrite length_take; lia). rewrite length_take, Nat.min_l by lia.
        by rewrite Nat.sub_diag.
      * destruct (b_done _ _ _ _ _ _ _ Hb j ltac:(lia)) as (m & Hm & Hcm). rewrite decide_True in Hcm by lia.
        destruct (Hlk j Hji) as [Hlk1 _]. specialize (Hcore j). rewrite Hlk1, Hm in Hcore.
        destruct (member p4 !! j) as [m4|]; [|done]. exists m4. split; [done|]. rewrite decide_True by lia.
        destruct Hcm as (aj & Haj & Hcm). exists aj. split; [done|]. cbn in Hcore. congruence.
    + intros j Hj. rewrite Hsame by lia. by apply Hrest.
  - replace (S i) with (i + 1)%nat by lia. rewrite <- drop_drop, Hdr. replace (i + 1)%nat with (S i) by lia. done.
Qed.

Lemma fill_static_ok p0 d addrs n i p fl cs :
  building p0 p d i addrs fl cs -> (d <= i)%nat -> (i + n = length (member p0))%nat ->
  exists p' fl' cs', fill_static n i p = Done p' /\ building p0 p' d (length (member p0)) addrs fl' cs'.
Proof.
  revert i p fl cs. induction n as [|n IH]; intros i p fl cs Hb Hd Hn; cbn [fill_static].
  { assert (i = length (member p0)) as <- by lia. by exists p, fl, cs. }
  destruct (building_one p0 p d i addrs fl cs true 0 Hb) as
    (p1 & p2 & p3 & m3 & H1 & H2 & H3 & Hc & Hl & Hm3 & Hc3 & Hn3 & Hh & Hlk & Hrest & Hl3 & Hf & Ht);
    [lia|symmetry; apply bool_decide_eq_true; lia|].
  rewrite H1. obind. rewrite H2. obind. rewrite H3. obind.
  eapply IH; [|lia|lia]. constructor.
  - exact Hl3.
  - done.
  - eapply hash_ok_S; [exact Hh|]. intros j. split; lia.
  - done.
  - done.
  - intros j Hj. destruct (decide (j = i)) as [->|Hji].
    + exists m3. split; [done|]. rewrite decide_False by lia. done.
    + destruct (b_done _ _ _ _ _ _ _ Hb j ltac:(lia)) as (m & Hm & Hcm). destruct (Hlk j Hji) as [Hlk1 Hlk2].
      rewrite Hm in Hlk1, Hlk2. destruct (member p3 !! j) as [m4|]; [|done]. exists m4. split; [done|].
      injection Hlk1 as E1 E2 E3. injection Hlk2 as E4. unfold core in *.
      case_decide; [destruct Hcm as (x & Hx & Hcm); exists x; split; [done|congruence]|].
      destruct Hcm. split; congruence.
  - intros j Hj. by apply Hrest.
Qed.

Lemma building_inv p0 p d addrs fl cs :
  building p0 p d (length (member p0)) addrs fl cs -> (d <= length (member p0))%nat ->
  Z.of_nat d = dynsize p0 -> Z.of_nat (length (member p0)) = listsize p0 ->
  listsize p0 = dynsize p0 + statsize p0 -> 0 <= statsize p0 ->
  length addrs = d -> NoDup addrs ->
  absf p (APool addrs (length (member p0) - d) ∅ ∅) fl cs.
Proof.
  intros Hb Hd Hds Hls Hsum Hss Hla Hnd.
  assert (Hc := b_cfg _ _ _ _ _ _ _ Hb). assert (Hl := b_len _ _ _ _ _ _ _ Hb).
  destruct (b_fl _ _ _ _ _ _ _ Hb) as [Hf Ht]. rewrite Nat.min_r in Hf by lia.
  assert (Hm : forall j m, member p !! j = Some m -> exists a, core m = (a, false, bool_decide (d <= j)%nat) /\
            (if decide (j < d)%nat then addrs !! j = Some a else a = 0 /\ nexthash m = None)).
  { intros j m Hj. pose proof (lookup_lt_Some _ _ _ Hj) as Hlt. rewrite Hl in Hlt.
    destruct (b_done _ _ _ _ _ _ _ Hb j Hlt) as (m' & Hm' & Hcm). assert (m' = m) as -> by congruence.
    destruct (decide (j < d)%nat).
    - destruct Hcm as (a & Ha & ->). exists a. by rewrite bool_decide_eq_false_2 by lia.
    - destruct Hcm as [-> Hn]. exists 0. by rewrite bool_decide_eq_true_2 by lia. }
  assert (Hlk : forall j m, member p !! j = Some m -> linked m = true <-> (j < d)%nat).
  { intros j m Hj. destruct (Hm j m Hj) as (a & Hcm & _). unfold core in Hcm. injection Hcm as _ Hu Hs.
    unfold linked. rewrite Hu, Hs, orb_false_r, negb_true_iff, bool_decide_eq_false. lia. }
  assert (Hfree : forall st j, j ∈ fl st <-> (j < length (member p0))%nat /\ bool_decide (d <= j)%nat = st).
  { intros st j. destruct st; rewrite ?Hf, ?Ht, elem_of_seq, ?bool_decide_eq_true, ?bool_decide_eq_false; lia. }
  constructor.
  - constructor.
    + apply (b_lists _ _ _ _ _ _ _ Hb).
    + eapply hash_ok_S; [apply (b_hash _ _ _ _ _ _ _ Hb)|]. intros j. split.
      * intros Hj. destruct (lookup_lt_is_Some_2 (member p) j) as [m Hjm]; [lia|]. exists m.
        split; [done|]. apply (Hlk j m Hjm). lia.
      * intros (m & Hjm & Hx%(Hlk j m Hjm)). lia.
    + unfold cfg in Hc. rewrite Hl. assert (dynsize p = dynsize p0 /\ statsize p = statsize p0 /\ listsize p = listsize p0)
        as (-> & -> & ->) by (repeat split; congruence). lia.
    + intros j m Hj. destruct (Hm j m Hj) as (a & Hcm & _). injection Hcm as _ _ ->.
      unfold cfg in Hc. assert (dynsize p = dynsize p0) as -> by congruence. rewrite <- Hds.
      destruct (decide (d <= j)%nat); [rewrite bool_decide_eq_true_2 by done|rewrite bool_decide_eq_false_2 by done]; lia.
    + intros st j. rewrite Hfree. split.
      * intros [Hj Hst]. destruct (lookup_lt_is_Some_2 (member p) j) as [m Hjm]; [lia|]. exists m.
        destruct (Hm j m Hjm) as (a & Hcm & _). injection Hcm as _ Hu Hs. split; [done|]. split; congruence.
      * intros (m & Hjm & Hs & _). destruct (Hm j m Hjm) as (a & Hcm & _). injection Hcm as _ _ Hs'.
        pose proof (lookup_lt_Some _ _ _ Hjm). split; [lia|congruence].
    + intros j m Hj Hlm. destruct (Hm j m Hj) as (a & _ & Ha). rewrite decide_False in Ha; [tauto|].
      intros Hx%(Hlk j m Hj). congruence.
    + intros j m Hj Hu. destruct (Hm j m Hj) as (a & Hcm & _). injection Hcm as _ Hu' _. congruence.
    + intros j k m m' Hj Hk Hlj%(Hlk j m Hj) Hlm%(Hlk k m' Hk) Ha.
      destruct (Hm j m Hj) as (a & Hcm & Haj), (Hm k m' Hk) as (b & Hcm' & Hbk).
      rewrite decide_True in Haj by done. rewrite decide_True in Hbk by done. injection Hcm as E _ _. injection Hcm' as E' _ _.
      eapply NoDup_lookup; [exact Hnd|exact Haj|]. congruence.
  - cbn [a_free]. rewrite Hf. apply list_eq. intros j. rewrite list_lookup_fmap.
    destruct (decide (j < d)%nat) as [Hj|Hj].
    + rewrite (proj2 (lookup_seq 0 d j j)) by lia. cbn. destruct (lookup_lt_is_Some_2 (member p) j) as [m Hjm]; [lia|].
      destruct (Hm j m Hjm) as (a & Hcm & Ha). rewrite decide_True in Ha by done. rewrite Ha.
      f_equal. unfold addr_at. rewrite Hjm. by injection Hcm.
    + rewrite !lookup_ge_None_2 by (rewrite ?length_seq; lia). done.
  - cbn [a_slots]. rewrite Ht, length_seq. done.
  - intros st x. split; [destruct st; cbn; intros Hx; by apply elem_of_empty in Hx|].
    intros (j & m & Hj & Hcm). destruct (Hm j m Hj) as (a & Hcm' & _). congruence.
Qed.

Definition offset_addr (addr o : Z) : Z := htonl e (ntohl e addr + o).

Lemma member_addr_offset addr i start :
  exists s, member_addr uamlisten dhcplisten addr i start = (offset_addr addr (i + s), s) /\ start <= s <= start + 1.
Proof.
  unfold member_addr, offset_addr.
  destruct ((htonl e (ntohl e addr + i + start) =? uamlisten) || (htonl e (ntohl e addr + i + start) =? dhcplisten)).
  - exists (start + 1). split; [|lia]. do 2 f_equal. lia.
  - exists start. split; [|lia]. do 2 f_equal. lia.
Qed.

Lemma pool_addrs_offsets n i addr start :
  exists os, pool_addrs n i addr start = offset_addr addr <$> os /\ length os = n /\
    Forall (fun o => Z.of_nat i + start <= o < Z.of_nat i + start + 2 * Z.of_nat n) os /\
    StronglySorted Z.lt os.
Proof.
  revert i start. induction n as [|n IH]; intros i start; cbn [pool_addrs].
  { exists []. repeat split; constructor. }
  destruct (member_addr_offset addr (Z.of_nat i) start) as (s & -> & Hs).
  destruct (IH (S i) s) as (os & -> & Hl & Hr & Hst). exists (Z.of_nat i + s :: os).
  split; [done|]. split; [cbn; lia|]. split.
  - constructor; [lia|]. eapply Forall_impl; [exact Hr|]. cbn. intros. lia.
  - constructor; [done|]. eapply Forall_impl; [exact Hr|]. cbn. intros. lia.
Qed.

Lemma offsets_NoDup addr lo os :
  Forall (fun o => lo <= o < lo + 2 ^ 32) os -> StronglySorted Z.lt os -> NoDup (offset_addr addr <$> os).
Proof.
  intros Hr Hs. induction Hs as [|o os Hs IH Ho]; [constructor|]. apply Forall_cons in Hr as [Hro Hr]. cbn.
  constructor; [|by apply IH]. intros (o' & He & Hin)%list_elem_of_fmap.
  rewrite Forall_forall in Ho, Hr. specialize (Ho o' Hin). specialize (Hr o' Hin).
  apply htonl_inj in He. unfold u32 in He.
  assert ((o' - o) mod 2 ^ 32 = 0).
  { replace (o' - o) with ((ntohl e addr + o') - (ntohl e addr + o)) by lia.
    rewrite Zminus_mod, He, Z.sub_diag. done. }
  rewrite Z.mod_small in * by lia. lia.
Qed.

(** The two addresses of the gateway do not follow each other. *)
Definition gateway_apart : Prop :=
  u32 (ntohl e uamlisten + 1) <> ntohl e dhcplisten /\ u32 (ntohl e dhcplisten + 1) <> ntohl e uamlisten.

Lemma member_addr_skips addr i start :
  gateway_apart -> (member_addr uamlisten dhcplisten addr i start).1 <> uamlisten /\ (member_addr uamlisten dhcplisten addr i start).1 <> dhcplisten.
Proof.
  intros [H1 H2]. unfold member_addr. set (x := ntohl e addr + i + start).
  replace (ntohl e addr + i + (start + 1)) with (x + 1) by lia.
  assert (Hsucc : forall l l', u32 (ntohl e l + 1) <> ntohl e l' -> htonl e x = l -> htonl e (x + 1) <> l').
  { intros l l' Hll <- <-. apply Hll. rewrite !ntohl_htonl. unfold u32. by rewrite Zplus_mod_idemp_l. }
  assert (Hself : forall l, u32 (ntohl e l + 1) <> ntohl e l).
  { intros l Hl. pose proof (htonl_range e l) as Hr. change (htonl e l) with (ntohl e l) in Hr. words. }
  destruct (Z.eqb_spec (htonl e x) uamlisten) as [E|E]; cbn [orb fst].
  { split; apply (Hsucc uamlisten); auto. }
  destruct (Z.eqb_spec (htonl e x) dhcplisten) as [E'|E']; cbn [fst]; [|done].
  split; apply (Hsucc dhcplisten); auto.
Qed.

Lemma pool_addrs_skip n i addr start :
  gateway_apart -> Forall (fun a => a <> uamlisten /\ a <> dhcplisten) (pool_addrs n i addr start).
Proof.
  intros Hg. revert i start. induction n as [|n IH]; intros i start; cbn [pool_addrs]; [constructor|].
  pose proof (member_addr_skips addr (Z.of_nat i) start Hg) as Hm.
  destruct (member_addr uamlisten dhcplisten addr (Z.of_nat i) start) as [a s]. constructor; [done|apply IH].
Qed.

Lemma log_loop_ok {E} n k x :
  0 <= k -> (0 < n)%nat -> x <= 2 ^ (k + Z.of_nat n - 1) -> exists k', @log_loop E n k x = Done k' /\ k <= k' /\ x <= 2 ^ k'.
Proof.
  revert k. induction n as [|n IH]; intros k Hk Hn Hx; [lia|]. cbn [log_loop].
  rewrite Z.shiftl_1_l. destruct (Z.ltb_spec (2 ^ k) x) as [Hlt|Hge].
  - destruct n as [|n]. { replace (k + Z.of_nat 1 - 1) with k in Hx by lia. lia. }
    destruct (IH (k + 1)) as (k' & Hr & ? & ?); [lia|lia| |exists k'; repeat split; [done|lia|lia]].
    by replace (k + 1 + Z.of_nat (S n) - 1) with (k + Z.of_nat (S (S n)) - 1) by lia.
  - exists k. repeat split; lia.
Qed.
Lemma log_up_ok {E} x : x <= 2 ^ 31 -> exists k, @log_up E x = Done k /\ 0 <= k /\ x <= 2 ^ k.
Proof. intros Hx. apply (log_loop_ok 32 0 x); lia. Qed.

Lemma new_ok (dyn : bytes) (start end_ : Z) (stat : bytes) (allowdyn allowstat : bool) ds st net ss sa sm :
  (forall n s : Z, calloc n s = true) ->
  (if allowdyn then dyn_layout dyn start end_ else Done (0, start, 0)) = Done (ds, st, net) ->
  (if allowstat then stat_layout stat else Done (0, 0, 0)) = Done (ss, sa, sm) ->
  0 <= ds -> 0 <= ss -> ds + ss <= 2 ^ 31 ->
  exists p os, ippool_new calloc uamlisten dhcplisten dyn start end_ stat allowdyn allowstat = Done p /\
    let addrs := offset_addr net <$> os in
    Abs p (APool addrs (Z.to_nat ss) ∅ ∅) /\ Z.of_nat (length os) = ds /\
    Forall (fun o => Z.max st 1 <= o < Z.max st 1 + 2 * ds) os /\ StronglySorted Z.lt os /\
    (gateway_apart -> Forall (fun a => a <> uamlisten /\ a <> dhcplisten) addrs).
Proof.
  intros Hcal Hdyn Hstat Hds Hss Hsum. unfold ippool_new. rewrite Hdyn. obind. rewrite Hstat. obind.
  rewrite !Hcal. cbn [negb]. rewrite (u32_small (ds + ss)) by (unfold is_u32, in_w; lia).
  destruct (@log_up_ok pool_err (ds + ss) Hsum) as (hl & -> & Hhl & _). obind. rewrite Hcal. cbn [negb].
  set (start' := if st <=? 0 then 1 else st).
  assert (Hst' : start' = Z.max st 1) by (unfold start'; destruct (Z.leb_spec st 0); lia).
  rewrite Z.shiftl_1_l. set (p0 := Pool _ _ _ _ _ _ _ _ _ _ _ _ _ _ _ _).
  destruct (pool_addrs_offsets (Z.to_nat ds) 0 net start') as (os & Hos & Hlen & Hrange & Hsorted).
  assert (Hlp : length (member p0) = Z.to_nat (ds + ss)) by (cbn; by rewrite length_replicate).
  assert (Hb : building p0 p0 (Z.to_nat ds) 0 (offset_addr net <$> os) (fun _ => []) (fun _ => [])).
  { pose proof (Z.pow_pos_nonneg 2 hl ltac:(lia) Hhl) as Hpow. constructor.
    - constructor; [|intros; constructor|intros s i Hi; by apply elem_of_nil in Hi|intros i Hi; by apply elem_of_nil in Hi].
      intros s. constructor; [by destruct s|by destruct s|done].
    - done.
    - constructor.
      + cbn. split; [done|]. split; [done|]. apply length_replicate.
      + intros b Hb. cbn in *. rewrite length_replicate in Hb. exists None. by rewrite lookup_replicate_2.
      + constructor.
      + intros b i. split; [intros Hi; by apply elem_of_nil in Hi|]. intros (m & _ & Hi & _). lia.
    - done.
    - done.
    - lia.
    - intros j Hj. cbn. apply lookup_replicate_2. cbn in Hj. rewrite length_replicate in Hj. lia. }
  destruct (fill_dynamic_ok p0 (Z.to_nat ds) _ net (Z.to_nat ds) 0 start' p0 _ _ Hb) as (p1 & fl1 & cs1 & -> & Hb1);
    [lia|lia|by rewrite drop_0|]. obind.
  destruct (fill_static_ok p0 (Z.to_nat ds) _ (Z.to_nat (ds + ss) - Z.to_nat ds) (Z.to_nat ds) p1 fl1 cs1 Hb1)
    as (p2 & fl2 & cs2 & -> & Hb2); [lia|lia|].
  exists p2, os. split; [done|]. cbv zeta. split.
  { exists fl2, cs2. replace (Z.to_nat ss) with (length (member p0) - Z.to_nat ds)%nat by lia.
    apply (building_inv p0); try done; cbn [p0 dynsize statsize listsize]; try lia.
    - by rewrite length_fmap.
    - apply (offsets_NoDup _ start'); [|done]. eapply Forall_impl; [exact Hrange|]. cbn. intros. lia. }
  split; [lia|]. rewrite <- Hst'. split; [eapply Forall_impl; [exact Hrange|]; cbn; intros; lia|].
  split; [done|]. intros Hg. rewrite <- Hos. by apply pool_addrs_skip.
Qed.

(** C30: [ippool_new] succeeds when its arguments describe a pool of at most
    2^31 addresses and there is memory; the new pool has nothing in use, the
    specified number of dynamic addresses, all different, increasing and above the
    network address, and the static slots; no address of the gateway itself is
    among them, unless its two addresses follow each other. *)
Theorem ippool_new_establishes (dyn : bytes) (start end_ : Z) (stat : bytes) (allowdyn allowstat : bool)
    ds st net ss sa sm :
  (forall n s : Z, calloc n s = true) ->
  (if allowdyn then dyn_layout dyn start end_ else Done (0, start, 0)) = Done (ds, st, net) ->
  (if allowstat then stat_layout stat else Done (0, 0, 0)) = Done (ss, sa, sm) ->
  0 <= ds -> 0 <= ss -> ds + ss <= 2 ^ 31 ->
  exists p os, ippool_new calloc uamlisten dhcplisten dyn start end_ stat allowdyn allowstat = Done p /\
    let addrs := offset_addr net <$> os in
    Abs p (APool addrs (Z.to_nat ss) ∅ ∅) /\ Z.of_nat (length os) = ds /\
    Forall (fun o => Z.max st 1 <= o < Z.max st 1 + 2 * ds) os /\ StronglySorted Z.lt os /\
    (gateway_apart -> Forall (fun a => a <> uamlisten /\ a <> dhcplisten) addrs).
Proof. apply new_ok. Qed.

End Creation.

(** ** The counters *)

Lemma classify_ok p fl cs n m :
  inv p fl cs -> member p !! n = Some m -> classify p n m = if in_use m then USED else FREE.
Proof.
  intros Hi Hm. unfold classify. destruct (in_use m) eqn:Hu.
  - destruct (i_used _ _ _ Hi n m Hm Hu) as [-> ->]. by rewrite !bool_decide_eq_true_2.
  - assert (Hin : n ∈ fl (is_static m)) by (apply (i_free _ _ _ Hi); by exists m).
    assert (Hd := l_chain _ _ (i_lists _ _ _ Hi) (is_static m)).
    assert (Hnx : nx p n = next m /\ pv p n = prev m) by (unfold nx, pv; by rewrite Hm).
    destruct Hnx as [Hnx Hpv].
    assert (next m = None -> last (is_static m) p = Some n)
      by (rewrite <- Hnx; by apply (dchain_next_None _ _ _ _ _ _ Hd Hin)).
    assert (prev m = None -> first (is_static m) p = Some n)
      by (rewrite <- Hpv; by apply (dchain_prev_None _ _ _ _ _ _ Hd Hin)).
    repeat case_bool_decide; cbn [negb andb]; tauto.
Qed.

Lemma list_count_chain p o l c f :
  chain (nx p) o l -> (forall i, i ∈ l -> is_Some (member p !! i)) -> (length l <= f)%nat ->
  list_count f p o c = Done (c + length l)%nat.
Proof.
  revert o c f. induction l as [|i l IH]; intros o c f Hc Hr Hf; cbn in Hc.
  - subst o. destruct f; cbn; f_equal; lia.
  - destruct Hc as [-> Hc]. destruct f as [|f]; cbn in Hf; [lia|]. cbn [list_count].
    destruct (Hr i) as [m Hm]; [by left|]. unfold deref. rewrite Hm. obind.
    assert (Hn : nx p i = next m) by (unfold nx; by rewrite Hm). rewrite Hn in Hc.
    rewrite (IH (next m)); [cbn; f_equal; lia|done| |lia].
    intros j Hj. apply Hr. by right.
Qed.

Lemma fl_length p fl cs st : inv p fl cs -> (length (fl st) <= fuel p)%nat.
Proof.
  intros Hi. unfold fuel. pose proof (length_seq (length (member p)) 0) as <-.
  apply submseteq_length, NoDup_submseteq; [apply (l_nodup _ _ (i_lists _ _ _ Hi))|].
  intros i Hin. apply elem_of_seq. destruct (l_range _ _ (i_lists _ _ _ Hi) st i Hin) as [m Hm].
  apply lookup_lt_Some in Hm. lia.
Qed.

(** Counting by a list of the indices that satisfy a predicate. *)
Lemma filter_count (f : nat -> bool) N (l : list nat) :
  NoDup l -> (forall n, n ∈ l <-> (n < N)%nat /\ f n = true) -> length (List.filter f (seq 0 N)) = length l.
Proof.
  intros Hnd Hin. apply Permutation_length, NoDup_Permutation.
  - apply NoDup_ListNoDup, List.NoDup_filter, NoDup_ListNoDup, NoDup_seq.
  - done.
  - intros n. rewrite list_elem_of_In, filter_In, <- list_elem_of_In, elem_of_seq, Hin. intuition lia.
Qed.
Lemma filter_split {A} (f g h : A -> bool) l :
  (forall x, x ∈ l -> h x = f x || g x /\ f x && g x = false) ->
  (length (List.filter f l) + length (List.filter g l) = length (List.filter h l))%nat.
Proof.
  induction l as [|x l IH]; intros Hx; [done|]. cbn.
  destruct (Hx x) as [-> Hd]; [by left|]. specialize (IH (fun y Hy => Hx y (list_elem_of_further y x l Hy))).
  destruct (f x), (g x); cbn in *; try done; lia.
Qed.

Lemma print_ok p fl cs :
  inv p fl cs -> exists ud us,
    ippool_print p = Done (Summary (length (fl false)) (length (fl false)) ud 0 false,
                           Summary (length (fl true)) (length (fl true)) us 0 false) /\
    Z.of_nat (length (fl false) + ud) = dynsize p /\ Z.of_nat (length (fl true) + us) = statsize p.
Proof.
  intros Hi. destruct (i_size _ _ _ Hi) as (Hlen & Hsum & Hd0 & Hs0).
  assert (Hl := i_lists _ _ _ Hi). set (N := Z.to_nat (listsize p)).
  assert (HN : N = length (member p)) by lia.
  assert (Hlist : forall st, list_count (fuel p) p (first st p) 0 = Done (length (fl st))).
  { intros st. rewrite (list_count_chain _ _ (fl st)); [done|apply (dc_next _ _ _ _ _ (l_chain _ _ Hl st))|
      apply (l_range _ _ Hl)|by eapply fl_length]. }
  assert (Hclass : forall s st n m, member p !! n = Some m ->
            in_class s p st n = bool_decide ((if in_use m then USED else FREE) = s) && eqb st (is_static m)).
  { intros s st n m Hm. unfold in_class. rewrite Hm, (classify_ok p fl cs n m Hi Hm). by rewrite (i_kind _ _ _ Hi n m Hm). }
  assert (Herr : forall st, count ERR p st = 0%nat).
  { intros st. unfold count. fold N. rewrite (filter_count _ N []); [done|constructor|].
    intros n. split; [intros Hn; by apply elem_of_nil in Hn|]. intros [Hn Hc].
    destruct (lookup_lt_is_Some_2 (member p) n) as [m Hm]; [lia|]. rewrite (Hclass _ _ _ m Hm) in Hc.
    by destruct (in_use m). }
  assert (Hfree : forall st, count FREE p st = length (fl st)).
  { intros st. unfold count. fold N. apply filter_count; [apply (l_nodup _ _ Hl)|]. intros n.
    rewrite (i_free _ _ _ Hi). split.
    - intros (m & Hm & Hs & Hu). split; [apply lookup_lt_Some in Hm; lia|]. rewrite (Hclass _ _ _ m Hm), Hs, Hu.
      by rewrite eqb_reflx.
    - intros [Hn Hc]. destruct (lookup_lt_is_Some_2 (member p) n) as [m Hm]; [lia|]. exists m. split; [done|].
      rewrite (Hclass _ _ _ m Hm) in Hc. apply andb_prop in Hc as [Hc Hs%eqb_prop]. by destruct (in_use m). }
  assert (Hsplit : forall st, (count FREE p st + count USED p st =
            length (List.filter (fun n => eqb st (dynsize p <=? Z.of_nat n)%Z) (seq 0 N)))%nat).
  { intros st. apply filter_split. intros n [_ Hn]%elem_of_seq.
    destruct (lookup_lt_is_Some_2 (member p) n) as [m Hm]; [lia|].
    rewrite !(Hclass _ _ _ m Hm), <- (i_kind _ _ _ Hi n m Hm). by destruct (in_use m), (eqb st (is_static m)). }
  assert (Hhalf : forall st lo k, (forall n, (lo <= n < lo + k)%nat <-> (n < N)%nat /\ eqb st (dynsize p <=? Z.of_nat n)%Z = true) ->
            (length (fl st) + count USED p st = k)%nat).
  { intros st lo k Hk. rewrite <- (Hfree st), Hsplit, (filter_count _ N (seq lo k)); [apply length_seq|apply NoDup_seq|].
    intros n. by rewrite elem_of_seq. }
  exists (count USED p false), (count USED p true).
  split; [|split].
  - unfold ippool_print. pose proof (Hlist false) as H1. pose proof (Hlist true) as H2. cbn [first] in H1, H2.
    rewrite H1. obind. rewrite H2. obind. rewrite !Hfree, !Herr. by rewrite !bool_decide_eq_true_2.
  - rewrite (Hhalf false 0%nat (Z.to_nat (dynsize p))); [lia|]. intros n. cbn.
    destruct (Z.leb_spec (dynsize p) (Z.of_nat n)); cbn; lia.
  - rewrite (Hhalf true (Z.to_nat (dynsize p)) (Z.to_nat (statsize p))); [lia|]. intros n. cbn.
    destruct (Z.leb_spec (dynsize p) (Z.of_nat n)); cbn; lia.
Qed.

(** ** The contract *)

(** C3: [ippool_newip] implements the allocation of the specification:
    from a pool in state [a] it fails with the specified error or hands out the
    specified address, as a member now in use, and leaves the pool in the
    specified state; no walk runs out of the array or fails to end. *)
Theorem ippool_newip_refines p a addr statip :
  Abs p a -> answers p (spec_newip p a addr statip) (ippool_newip p addr statip).
Proof. intros (fl & cs & Ha). by apply (newip_ok p a fl cs). Qed.

(** C31: [ippool_freeip] of a member in use gives its address back: a
    dynamic address to the end of the free list, a static one only its slot; of a
    member not in use it fails and changes nothing. *)
Theorem ippool_freeip_refines p a i m :
  Abs p a -> member p !! i = Some m ->
  if in_use m
  then exists p', ippool_freeip p i = Done p' /\ cfg p' = cfg p /\ Abs p' (give_back (addr m) (is_static m) a)
  else ippool_freeip p i = Fail NotInUse.
Proof.
  intros (fl & cs & Ha) Hm. destruct (in_use m) eqn:Hu; [by apply (abs_give_back p a fl cs)|].
  unfold ippool_freeip, deref. rewrite Hm. obind. by rewrite Hu.
Qed.

(** [ippool_getip] finds an address exactly when it is in use, and
    then the member that has it. *)
Theorem ippool_getip_correct p a x :
  Abs p a ->
  match ippool_getip p x with
  | Done (Some i) => exists st, core <$> member p !! i = Some (x, true, st) /\ x ∈ a_used a st
  | Done None => (x ∉ a_dyn a) /\ (x ∉ a_stat a)
  | _ => False
  end.
Proof.
  intros (fl & cs & Ha). assert (Hi := ab_inv _ _ _ _ Ha).
  destruct (getip_ok p _ cs x (i_hash _ _ _ Hi)) as [(i & m & -> & Hm & _ & Hu & Hx)|[-> Hno]].
  - assert (Hc : core m = (x, true, is_static m)) by (unfold core; congruence).
    exists (is_static m). split; [by rewrite Hm; cbn; rewrite Hc|].
    apply (ab_used _ _ _ _ Ha). by exists i, m.
  - assert (Hn : forall st, x ∉ a_used a st).
    { intros st (i & m & Hm & Hc)%(ab_used _ _ _ _ Ha). injection Hc as Hx Hu _.
      apply (Hno i m Hm); [|done|done]. exists m. split; [done|]. unfold linked. rewrite Hu. apply orb_true_r. }
    split; [apply (Hn false)|apply (Hn true)].
Qed.

(** C20: no address is handed out twice: an address [ippool_newip] returns
    was not in use, and is the only one that has become so; the exception is a
    static request with "uamanyip", which may share a static address in use. *)
Theorem ippool_newip_fresh p a addr statip i p' :
  Abs p a -> ippool_newip p addr statip = Done (i, p') ->
  exists x a', Abs p' a' /\ addr_at p' i = x /\
    ((x ∉ a_dyn a ∪ a_stat a) /\ a_dyn a' ∪ a_stat a' = {[x]} ∪ (a_dyn a ∪ a_stat a) \/
     uamanyip = true /\ statip = true /\ x ∈ a_stat a /\ a' = a).
Proof.
  intros (fl & cs & Ha) Hr. pose proof (newip_ok p a fl cs addr statip Ha) as H1.
  destruct (spec_newip p a addr statip) as [err|[[x st] a']] eqn:Hs; cbn in H1; [congruence|].
  destruct H1 as (i' & p1 & m' & Hr' & Hm & Hc & _ & Ha'). rewrite Hr in Hr'. injection Hr' as <- <-.
  exists x, a'. split; [done|]. split; [unfold addr_at; rewrite Hm; by injection Hc|].
  assert (Hdyn : forall y, y ∈ a_free a -> (y ∉ a_dyn a ∪ a_stat a) /\
            a_dyn (take_dyn y a) ∪ a_stat (take_dyn y a) = {[y]} ∪ (a_dyn a ∪ a_stat a)).
  { intros y Hy. destruct (proj1 (abs_disjoint p a fl cs y Ha) Hy). cbn.
    split; [rewrite elem_of_union; tauto|]. by rewrite <- (assoc_L union). }
  assert (Hsta : forall y, a_dyn (take_stat y a) ∪ a_stat (take_stat y a) = {[y]} ∪ (a_dyn a ∪ a_stat a))
    by (intros y; cbn; set_solver).
  unfold spec_newip in Hs.
  repeat case_match; simplify_eq;
    first [ left; apply Hdyn; first [done | by left]
          | right; done
          | left; split; [rewrite elem_of_union; intros [?|?]; done|apply Hsta] ].
Qed.

(** The self check of [ippool_print] never reports a problem on a pool
    the operations have built: no member is in the error class, the lists have as
    many members as are free, and free and used members add up to the sizes. *)
Theorem ippool_print_consistent p a :
  Abs p a -> exists fd ud fs us,
    ippool_print p = Done (Summary fd fd ud 0 false, Summary fs fs us 0 false) /\
    Z.of_nat (fd + ud) = dynsize p /\ Z.of_nat (fs + us) = statsize p /\
    fd = length (a_free a) /\ fs = a_slots a.
Proof.
  intros (fl & cs & Ha). destruct (print_ok p fl cs (ab_inv _ _ _ _ Ha)) as (ud & us & Hp & Hd & Hs).
  exists (length (fl false)), ud, (length (fl true)), us. do 3 (split; [done|]).
  rewrite (ab_free _ _ _ _ Ha), (ab_slots _ _ _ _ Ha), length_fmap. done.
Qed.
End Pool.

(** ** A concrete pool: 10.1.0.0/28 with two static addresses, gateway 10.1.0.1 *)

Definition ip4 (a b c d : Z) : Z := ((a * 256 + b) * 256 + c) * 256 + d.
Definition demo_hash : AddrHash := Sfhash.sf_hash BE.
Definition demo_new : result ippool_t :=
  ippool_new (H:=demo_hash) BE (fun _ _ => true) (ip4 10 1 0 1) (ip4 10 1 0 1)
    (str "10.1.0.0/28") 0 0 (str "10.2.0.0/31") true true.
Definition demo_pool : ippool_t :=
  match demo_new with Done p => p | _ => Pool 0 0 0 false false 0 0 [] 0 0 0 [] None None None None end.
(** The pool after one dynamic allocation. *)
Definition demo_taken : ippool_t :=
  match ippool_newip (H:=demo_hash) false demo_pool None false with Done (_, p) => p | _ => demo_pool end.

Lemma demo_layout : dyn_layout BE (str "10.1.0.0/28") 0 0 = Done (13, 0, ip4 10 1 0 0) /\
  stat_layout BE (str "10.2.0.0/31") = Done (2, ip4 10 2 0 0, ip4 255 255 255 254).
Proof. split; vm_compute; reflexivity. Qed.
Lemma demo_Abs : exists a, Abs (H:=demo_hash) demo_pool a /\ a_slots a = 2%nat /\ a_dyn a = ∅ /\ a_stat a = ∅ /\
  length (a_free a) = 13%nat.
Proof.
  destruct demo_layout as [H1 H2].
  destruct (new_ok (H:=demo_hash) BE (fun _ _ => true) (ip4 10 1 0 1) (ip4 10 1 0 1)
    (str "10.1.0.0/28") 0 0 (str "10.2.0.0/31") true true 13 0 (ip4 10 1 0 0) 2 (ip4 10 2 0 0) (ip4 255 255 255 254)
    (fun _ _ => eq_refl) H1 H2 ltac:(lia) ltac:(lia) ltac:(lia)) as (p & os & Hp & Ha & Hl & _).
  assert (Hd : demo_pool = p) by (unfold demo_pool, demo_new; by rewrite Hp).
  rewrite <- Hd in Ha. eexists. split; [exact Ha|]. do 3 (split; [done|]). cbn [a_free]. rewrite length_fmap. lia.
Qed.
Lemma taken_Abs : exists a, Abs (H:=demo_hash) demo_taken a.
Proof.
  destruct demo_Abs as (a & (fl & cs & Ha) & _). pose proof (newip_ok (H:=demo_hash) false demo_pool a fl cs None false Ha) as Hr.
  destruct (spec_newip false demo_pool a None false) as [err|[[x st] a']]; cbn [answers] in Hr.
  - exists a. exists fl, cs. unfold demo_taken. by rewrite Hr.
  - destruct Hr as (i & p' & m' & Hr & _ & _ & _ & Ha'). exists a'. unfold demo_taken. by rewrite Hr.
Qed.

Lemma ippool_newip_refines_witness : exists a, Abs (H:=demo_hash) demo_pool a /\
  answers (H:=demo_hash) demo_pool (spec_newip false demo_pool a (Some (ip4 10 1 0 5)) false)
    (ippool_newip (H:=demo_hash) false demo_pool (Some (ip4 10 1 0 5)) false).
Proof.
  destruct demo_Abs as (a & Ha & _). exists a. split; [exact Ha|]. exact (ippool_newip_refines (H:=demo_hash) false demo_pool a (Some (ip4 10 1 0 5)) false Ha).
Defined.
Lemma demo_member0 : exists m, member demo_taken !! 0%nat = Some m /\ in_use m = true /\ addr m = ip4 10 1 0 2 /\
  is_static m = false.
Proof. eexists. split; [vm_compute; reflexivity|]. vm_compute. done. Qed.
Lemma ippool_freeip_refines_witness : exists a p', Abs (H:=demo_hash) demo_taken a /\
  ippool_freeip (H:=demo_hash) demo_taken 0 = Done p' /\ Abs (H:=demo_hash) p' (give_back (ip4 10 1 0 2) false a).
Proof.
  destruct taken_Abs as (a & Ha). destruct demo_member0 as (m & Hm & Hu & Hx & Hs).
  pose proof (ippool_freeip_refines (H:=demo_hash) demo_taken a 0 m Ha Hm) as Hr.
  rewrite Hu, Hx, Hs in Hr. destruct Hr as (p' & Hr & _ & Ha'). exists a, p'. exact (conj Ha (conj Hr Ha')).
Defined.
Lemma ippool_getip_correct_witness : exists a, Abs (H:=demo_hash) demo_taken a /\
  ippool_getip (H:=demo_hash) demo_taken (ip4 10 1 0 2) = Done (Some 0%nat) /\
  match ippool_getip (H:=demo_hash) demo_taken (ip4 10 1 0 2) with
  | Done (Some i) => exists st, core <$> member demo_taken !! i = Some (ip4 10 1 0 2, true, st) /\
      ip4 10 1 0 2 ∈ a_used a st
  | Done None => (ip4 10 1 0 2 ∉ a_dyn a) /\ (ip4 10 1 0 2 ∉ a_stat a)
  | _ => False
  end.
Proof.
  destruct taken_Abs as (a & Ha). exists a. split; [exact Ha|]. split; [vm_compute; reflexivity|].
  exact (ippool_getip_correct (H:=demo_hash) demo_taken a (ip4 10 1 0 2) Ha).
Defined.
Lemma demo_second : match ippool_newip (H:=demo_hash) false demo_taken None false with Done _ => true | _ => false end = true.
Proof. vm_compute. reflexivity. Qed.
Lemma ippool_newip_fresh_witness : exists a i p', Abs (H:=demo_hash) demo_taken a /\
  ippool_newip (H:=demo_hash) false demo_taken None false = Done (i, p') /\
  exists x a', Abs (H:=demo_hash) p' a' /\ addr_at p' i = x /\
    ((x ∉ a_dyn a ∪ a_stat a) /\ a_dyn a' ∪ a_stat a' = {[x]} ∪ (a_dyn a ∪ a_stat a) \/
     false = true /\ false = true /\ x ∈ a_stat a /\ a' = a).
Proof.
  destruct taken_Abs as (a & Ha). pose proof demo_second as Hd.
  destruct (ippool_newip (H:=demo_hash) false demo_taken None false) as [[i p']|err|] eqn:Hr;
    [|discriminate Hd|discriminate Hd].
  exists a, i, p'. split; [exact Ha|]. split; [reflexivity|].
  exact (ippool_newip_fresh (H:=demo_hash) false demo_taken a None false i p' Ha Hr).
Defined.
Lemma ippool_new_establishes_witness : exists p os, demo_new = Done p /\
  let addrs := offset_addr BE (ip4 10 1 0 0) <$> os in
  Abs (H:=demo_hash) p (APool addrs (Z.to_nat 2) ∅ ∅) /\ Z.of_nat (length os) = 13 /\
  Forall (fun o => Z.max 0 1 <= o < Z.max 0 1 + 2 * 13) os /\ StronglySorted Z.lt os /\
  (gateway_apart BE (ip4 10 1 0 1) (ip4 10 1 0 1) ->
   Forall (fun a => a <> ip4 10 1 0 1 /\ a <> ip4 10 1 0 1) addrs).
Proof.
  unfold demo_new. destruct demo_layout as [H1 H2].
  apply (ippool_new_establishes (H:=demo_hash) BE (fun _ _ => true) (ip4 10 1 0 1) (ip4 10 1 0 1)
    (str "10.1.0.0/28") 0 0 (str "10.2.0.0/31") true true 13 0 (ip4 10 1 0 0) 2 (ip4 10 2 0 0) (ip4 255 255 255 254)
    (fun _ _ => eq_refl) H1 H2); lia.
Defined.
Lemma ippool_print_consistent_witness : exists a fd ud fs us,
  ippool_print demo_taken = Done (Summary fd fd ud 0 false, Summary fs fs us 0 false) /\
  Z.of_nat (fd + ud) = dynsize demo_taken /\ Z.of_nat (fs + us) = statsize demo_taken /\
  fd = length (a_free a) /\ fs = a_slots a.
Proof. destruct taken_Abs as (a & Ha). exists a. exact (ippool_print_consistent (H:=demo_hash) demo_taken a Ha). Defined.

(** When the two addresses of the gateway follow each other, the second is in the
    pool: only one is skipped. *)
Example gateway_in_pool :
  match ippool_new (H:=demo_hash) BE (fun _ _ => true) (ip4 10 1 0 1) (ip4 10 1 0 2)
    (str "10.1.0.0/29") 0 0 (str "") true false with
  | Done p => addr_at p 0 = ip4 10 1 0 2
  | _ => False
  end.
Proof. vm_compute. reflexivity. Qed.
(** A mask with the top bit clear: the loop for its size shifts by the width. *)
Example option_aton_low_mask : option_aton BE (str "10.0.0.0/64.0.0.0") = Fault.
Proof. vm_compute. reflexivity. Qed.
End IpPool.
