(* ===== verification/Radius.v ===== *)
(** * RADIUS packets ([package/coova-chilli/src/src/radius.c], [radius.h], [radius_pkt.h])

    Attributes, the hiding of passwords and keys, and authenticators.  A packet is
    the memory of a [struct radius_packet_t]; a pointer into it is an offset.  The
    numbers in packets are in network order, so they are read and written as bytes.
    The digest is the class [Digest], implemented in [Md5]. *)

From S2P Require Import Prelude CLib Mem Md5.

Module Radius.
Import Mem.

Definition RADIUS_MD5LEN : nat := 16.
Definition RADIUS_AUTHLEN : nat := 16.
Definition RADIUS_PWSIZE : Z := 128.
Definition RADIUS_ATTR_VLEN : Z := 253.
Definition RADIUS_HDRSIZE : nat := 20.
(** Without ENABLE_LARGELIMITS. *)
Definition RADIUS_PACKSIZE : Z := 1600.

Definition RADIUS_CODE_ACCESS_REQUEST : Z := 1.
Definition RADIUS_CODE_ACCOUNTING_REQUEST : Z := 4.
Definition RADIUS_ATTR_USER_PASSWORD : Z := 2.
Definition RADIUS_ATTR_VENDOR_SPECIFIC : Z := 26.
Definition RADIUS_ATTR_MESSAGE_AUTHENTICATOR : Z := 80.

(** [for (i = 0; i < RADIUS_MD5LEN; i++) dst[i + off] = src[i + off] ^ output[i];] *)
Definition xor16 (dst src : bytes) (off : nat) (output : bytes) : result bytes :=
  w ← read src off RADIUS_MD5LEN;
  memcpy dst off (zip_with Z.lxor w output).

(** *** [struct radius_packet_t] *)
Definition pk_code (p : bytes) : result Z := byte_at p 0.
Definition pk_id (p : bytes) : result Z := byte_at p 1.
(** [ntohs (pack->length)] *)
Definition pk_length (p : bytes) : result Z := w ← read p 2 2; Done (be_val w).
Definition set_length (p : bytes) (n : Z) : result bytes := memcpy p 2 (be_bytes 2 n).
Definition pk_authenticator (p : bytes) : result bytes := read p 4 RADIUS_AUTHLEN.

Section Digest.
Context `{Digest}.

(** ** Passwords and keys *)

(** The loop [for (n = RADIUS_MD5LEN; n < *dstlen; n += RADIUS_MD5LEN)]. *)
Fixpoint pwencode_loop (fuel : nat) (dst : bytes) (n dstlen : nat) (secret : bytes) : result bytes :=
  match fuel with
  | O => Fault
  | S f =>
    if decide (n < dstlen)%nat then
      prev ← read dst (n - RADIUS_MD5LEN) RADIUS_MD5LEN;
      output ← digest [secret; prev];
      dst ← xor16 dst dst n output;
      pwencode_loop f dst (n + RADIUS_MD5LEN) dstlen secret
    else Done dst
  end.

(** The return value, [dst] and [*dstlen]. *)
Definition radius_pwencode (dst : bytes) (dstsize : Z) (src : bytes) (srclen : Z) (authenticator secret : bytes)
    : result (Z * bytes * Z) :=
  dst ← memcpy dst 0 (replicate (Z.to_nat dstsize) 0);
  let dstlen := if negb (srclen &ᵤ 0x0f =? 0) then (srclen &ᵤ 0xf0) + 0x10 else srclen in
  if dstsize <? dstlen then Done (-1, dst, 0)
  else
    text ← read src 0 (Z.to_nat (if 128 <? srclen then 128 else srclen));
    dst ← memcpy dst 0 text;
    output ← digest [secret; authenticator];
    dst ← xor16 dst dst 0 output;
    dst ← pwencode_loop (S (Z.to_nat dstlen)) dst RADIUS_MD5LEN (Z.to_nat dstlen) secret;
    Done (0, dst, dstlen).

(** [for (n = RADIUS_MD5LEN; n < 128 && n < *dstlen; n += RADIUS_MD5LEN)] *)
Fixpoint pwdecode_loop (fuel : nat) (dst src : bytes) (n dstlen : nat) (secret : bytes) : result bytes :=
  match fuel with
  | O => Fault
  | S f =>
    if decide (n < 128 /\ n < dstlen)%nat then
      prev ← read src (n - RADIUS_MD5LEN) RADIUS_MD5LEN;
      output ← digest [secret; prev];
      dst ← xor16 dst src n output;
      pwdecode_loop f dst src (n + RADIUS_MD5LEN) dstlen secret
    else Done dst
  end.

Definition radius_pwdecode (dst : bytes) (dstsize : Z) (src : bytes) (srclen : Z) (authenticator secret : bytes)
    : result (Z * bytes * Z) :=
  if dstsize <? srclen then Done (-1, dst, 0)
  else if negb (srclen mod 16 =? 0) then Done (-1, dst, 0)
  else
    output ← digest [secret; authenticator];
    dst ← xor16 dst src 0 output;
    dst ← pwdecode_loop (S (Z.to_nat srclen)) dst src RADIUS_MD5LEN (Z.to_nat srclen) secret;
    Done (0, dst, srclen).

(** The bytes [i], [i + 1], ... of block [n], as [radius_keyencode] computes them. *)
Fixpoint keyencode_bytes (count i n : nat) (dst src : bytes) (srclen : Z) (b : bytes) : result bytes :=
  match count with
  | O => Done dst
  | S count =>
    x ← byte_at b i;
    x ← (if Z.of_nat i - 1 <? srclen then s ← byte_at src (i + n * RADIUS_MD5LEN - 1); Done (s ^ᵤ x) else Done x);
    dst ← memcpy dst (i + 2 + n * RADIUS_MD5LEN) [x];
    keyencode_bytes count (S i) n dst src srclen b
  end.
(** [for (n = 1; n < blocks; n++)] *)
Fixpoint keyencode_blocks (count n : nat) (dst src : bytes) (srclen : Z) (secret : bytes) : result bytes :=
  match count with
  | O => Done dst
  | S count =>
    prev ← read dst (2 + (n - 1) * RADIUS_MD5LEN) RADIUS_MD5LEN;
    b ← digest [secret; prev];
    dst ← keyencode_bytes RADIUS_MD5LEN 0 n dst src srclen b;
    keyencode_blocks count (S n) dst src srclen secret
  end.

(** [salt] is what [fread] reads from the random device. *)
Definition radius_keyencode (salt : option bytes) (dst : bytes) (dstsize : Z) (src : bytes) (srclen : Z)
    (authenticator secret : bytes) : result (Z * bytes * Z) :=
  let blocks := (srclen + 1) / 16 in
  let blocks := if blocks * 16 <? srclen + 1 then blocks + 1 else blocks in
  if dstsize <? blocks * 16 + 2 then Done (-1, dst, 0)
  else
    let dstlen := blocks * 16 + 2 in
    match salt with
    | None => Done (-1, dst, dstlen)
    | Some salt =>
      dst ← memcpy dst 0 (take 2 salt);
      salt ← read dst 0 2;
      b ← digest [secret; authenticator; salt];
      b0 ← byte_at b 0;
      dst ← memcpy dst 2 [u8 srclen ^ᵤ b0];
      dst ← keyencode_bytes (RADIUS_MD5LEN - 1) 1 0 dst src srclen b;
      dst ← keyencode_blocks (Z.to_nat blocks - 1) 1 dst src srclen secret;
      Done (0, dst, dstlen)
    end.

Fixpoint keydecode_bytes (count i n : nat) (dst src : bytes) (dstlen : Z) (b : bytes) : result bytes :=
  match count with
  | O => Done dst
  | S count =>
    dst ← (if Z.of_nat (i + n * RADIUS_MD5LEN) - 1 <? dstlen then
             x ← byte_at b i;
             s ← byte_at src (i + 2 + n * RADIUS_MD5LEN);
             memcpy dst (i + n * RADIUS_MD5LEN - 1) [s ^ᵤ x]
           else Done dst);
    keydecode_bytes count (S i) n dst src dstlen b
  end.
Fixpoint keydecode_blocks (count n : nat) (dst src : bytes) (dstlen : Z) (secret : bytes) : result bytes :=
  match count with
  | O => Done dst
  | S count =>
    prev ← read src (2 + (n - 1) * RADIUS_MD5LEN) RADIUS_MD5LEN;
    b ← digest [secret; prev];
    dst ← keydecode_bytes RADIUS_MD5LEN 0 n dst src dstlen b;
    keydecode_blocks count (S n) dst src dstlen secret
  end.

Definition radius_keydecode (dst : bytes) (dstsize : Z) (src : bytes) (srclen : Z) (authenticator secret : bytes)
    : result (Z * bytes * Z) :=
  if srclen <? 18 then Done (-1, dst, 0)
  else
    let blocks := (srclen - 2) / 16 in
    if negb (blocks * 16 + 2 =? srclen) then Done (-1, dst, 0)
    else
      salt ← read src 0 2;
      b ← digest [secret; authenticator; salt];
      s2 ← byte_at src 2;
      b0 ← byte_at b 0;
      let dstlen := s2 ^ᵤ b0 in
      if srclen - 3 <? dstlen then Done (-1, dst, dstlen)
      else if dstsize <? dstlen then Done (-1, dst, dstlen)
      else
        dst ← keydecode_bytes (RADIUS_MD5LEN - 1) 1 0 dst src dstlen b;
        dst ← keydecode_blocks (Z.to_nat blocks - 1) 1 dst src dstlen secret;
        Done (0, dst, dstlen).

(** ** Attributes *)

(** [data] is [None] for NULL.  The return value and the packet. *)
Definition addattr_plain (pack : bytes) (length type value : Z) (data : option bytes) (dlen : Z) : result (Z * bytes) :=
  let vlen := if negb (dlen =? 0) then dlen else 4 in
  let vlen := if RADIUS_ATTR_VLEN <? vlen then RADIUS_ATTR_VLEN else vlen in
  if RADIUS_PACKSIZE <? length + vlen + 2 then Done (-1, pack)
  else
    let a := Z.to_nat length in
    pack ← set_length pack (length + vlen + 2);
    pack ← memcpy pack a [type; u8 (vlen + 2)];
    pack ← match data with
           | Some d => d ← read d 0 (Z.to_nat vlen); memcpy pack (a + 2) d
           | None => if negb (dlen =? 0) then memcpy pack (a + 2) (replicate (Z.to_nat vlen) 0)
                     else memcpy pack (a + 2) (be_bytes 4 value)
           end;
    Done (0, pack).
Definition addattr_vendor (pack : bytes) (length type vendor_id vendor_type value : Z) (data : option bytes) (dlen : Z)
    : result (Z * bytes) :=
  let vlen := if negb (dlen =? 0) then dlen else 4 in
  let vlen := if RADIUS_ATTR_VLEN - 8 <? vlen then RADIUS_ATTR_VLEN - 8 else vlen in
  if RADIUS_PACKSIZE <? length + vlen + 2 then Done (-1, pack)
  else
    let a := Z.to_nat length in
    pack ← set_length pack (length + vlen + 8);
    pack ← memcpy pack a [type; u8 (vlen + 8)];
    pack ← memcpy pack (a + 2) (be_bytes 4 vendor_id);
    pack ← memcpy pack (a + 6) [vendor_type; u8 (vlen + 2)];
    pack ← match data with
           | Some d => d ← read d 0 (Z.to_nat dlen); memcpy pack (a + 8) d
           | None => if negb (dlen =? 0) then memcpy pack (a + 8) (replicate (Z.to_nat dlen) 0)
                     else memcpy pack (a + 8) (be_bytes 4 value)
           end;
    Done (0, pack).
Definition radius_addattr (secret : bytes) (pack : bytes) (type vendor_id vendor_type value : Z)
    (data : option bytes) (dlen : Z) : result (Z * bytes) :=
  length ← pk_length pack;
  '(data, dlen) ← (if type =? RADIUS_ATTR_USER_PASSWORD then
                     auth ← pk_authenticator pack;
                     '(_, passwd, pwlen) ← radius_pwencode (replicate (Z.to_nat RADIUS_PWSIZE) 0) RADIUS_PWSIZE
                                             (default [] data) dlen auth secret;
                     Done (Some passwd, u16 pwlen)
                   else Done (data, dlen));
  if negb (type =? RADIUS_ATTR_VENDOR_SPECIFIC) then addattr_plain pack length type value data dlen
  else addattr_vendor pack length type vendor_id vendor_type value data dlen.

(** [while (offset < len)]: where the attribute is in the packet, and the offset
    behind it. *)
Fixpoint getnextattr_loop (fuel : nat) (pack : bytes) (len offset : Z) (type vendor_id vendor_type : Z)
    (instance count : Z) : result (option (nat * Z)) :=
  match fuel with
  | O => Fault
  | S n =>
    if offset <? len then
      let t := (RADIUS_HDRSIZE + Z.to_nat offset)%nat in
      l ← byte_at pack (t + 1);
      let offset := offset + l in
      tt ← byte_at pack t;
      if (tt =? 0) || (l <? 2) then Done None
      else if negb (tt =? type) then getnextattr_loop n pack len offset type vendor_id vendor_type instance count
      else
        skip ← (if (tt =? RADIUS_ATTR_VENDOR_SPECIFIC) && negb (vendor_id =? 0) then
                  i ← read pack (t + 2) 4;
                  if negb (be_val i =? vendor_id) then Done true
                  else vt ← byte_at pack (t + 6); Done (negb (vt =? vendor_type))
                else Done false);
        if skip : bool then getnextattr_loop n pack len offset type vendor_id vendor_type instance count
        else if count =? instance then
          Done (Some (if (type =? RADIUS_ATTR_VENDOR_SPECIFIC) && negb (vendor_id =? 0) then (t + 6)%nat else t, offset))
        else getnextattr_loop n pack len offset type vendor_id vendor_type instance (count + 1)
    else Done None
  end.
Definition radius_getnextattr (pack : bytes) (type vendor_id vendor_type instance roffset : Z)
    : result (option (nat * Z)) :=
  length ← pk_length pack;
  let len := u32 (length - Z.of_nat RADIUS_HDRSIZE) in
  getnextattr_loop (S (Z.to_nat len)) pack len roffset type vendor_id vendor_type instance 0.
Definition radius_getattr (pack : bytes) (type vendor_id vendor_type instance : Z) : result (option nat) :=
  r ← radius_getnextattr pack type vendor_id vendor_type instance 0;
  Done (match r with Some (t, _) => Some t | None => None end).

(** [radius_cmpattr] of the attributes at two places. *)
Definition radius_cmpattr (p1 : bytes) (t1 : nat) (p2 : bytes) (t2 : nat) : result Z :=
  x1 ← byte_at p1 t1; x2 ← byte_at p2 t2;
  if negb (x1 =? x2) then Done (-1)
  else
    l1 ← byte_at p1 (t1 + 1); l2 ← byte_at p2 (t2 + 1);
    if negb (l1 =? l2) then Done (-1)
    else
      v1 ← read p1 (t1 + 2) (Z.to_nat l1);
      v2 ← read p2 (t2 + 2) (Z.to_nat l1);
      if bool_decide (v1 = v2) then Done 0 else Done (-1).

(** ** Authenticators *)

(** The pads, xored with the key. *)
Fixpoint hmac_pad (k key : bytes) : bytes :=
  match key, k with
  | x :: key, y :: k => Z.lxor y x :: hmac_pad k key
  | _, _ => k
  end.
Definition radius_hmac_md5 (pack secret : bytes) : result bytes :=
  key ← (if decide (64 < length secret)%nat then digest [secret] else Done secret);
  length ← pk_length pack;
  let k_ipad := hmac_pad (replicate 65 0x36) key in
  let k_opad := hmac_pad (replicate 65 0x5c) key in
  text ← read pack 0 (Z.to_nat length);
  inner ← digest [take 64 k_ipad; text];
  digest [take 64 k_opad; inner].

Definition radius_acctreq_authenticator (pack secret : bytes) : result bytes :=
  pack ← memcpy pack 4 (replicate RADIUS_AUTHLEN 0);
  length ← pk_length pack;
  text ← read pack 0 (Z.to_nat length);
  d ← digest [text; secret];
  memcpy pack 4 d.

Definition radius_authresp_authenticator (pack req_auth secret : bytes) : result bytes :=
  a ← read req_auth 0 RADIUS_AUTHLEN;
  pack ← memcpy pack 4 a;
  length ← pk_length pack;
  text ← read pack 0 (Z.to_nat length);
  d ← digest [text; secret];
  memcpy pack 4 d.

(** The number of bytes behind the header, as a [size_t]. *)
Definition payload_length (pack : bytes) : result nat :=
  length ← pk_length pack; Done (Z.to_nat (u32 (length - Z.of_nat RADIUS_HDRSIZE))).
(** Whether [memcmp] finds no difference. *)
Definition authenticated (pack a secret : bytes) : result bool :=
  head ← read pack 0 (RADIUS_HDRSIZE - RADIUS_AUTHLEN);
  n ← payload_length pack;
  rest ← read pack RADIUS_HDRSIZE n;
  auth ← digest [head; a; rest; secret];
  stored ← pk_authenticator pack;
  Done (bool_decide (stored = auth)).
Definition radius_authcheck (pack pack_req secret : bytes) : result bool :=
  a ← pk_authenticator pack_req; authenticated pack a secret.
Definition radius_acctcheck (pack secret : bytes) : result bool :=
  authenticated pack (replicate RADIUS_AUTHLEN 0) secret.

End Digest.

(** ** Digests of pieces *)

Lemma digest_pieces `{Digest} ps :
  Forall is_bytes ps -> Forall (fun p => (length p < 4096)%nat) ps -> @digest _ unit ps = Done (hash (concat ps)).
Proof.
  intros Hb Hl. apply digest_hash, Forall_forall. intros p Hp. rewrite Forall_forall in Hb, Hl.
  split; [by apply Hb|]. specialize (Hl p Hp). lia.
Qed.
(** The pieces of a digest are bytes, and shorter than a page. *)
Ltac pieces_ok :=
  rewrite ?Forall_cons, ?Forall_nil; repeat match goal with |- _ /\ _ => split end;
  try solve [done | assumption | auto with cint | rewrite ?length_take, ?length_drop; lia].
Ltac pieces := rewrite digest_pieces by pieces_ok; cbn [concat]; rewrite ?app_nil_r; obind.

Section Codecs.
Context `{Digest}.

(** ** Chained blocks *)

(** The cipher of both encodings: each block is xored with the digest of the secret
    and the block before it. *)
Fixpoint seal (secret : bytes) (n : nat) (prev p : bytes) : bytes :=
  match n with
  | O => []
  | S n => let c := zip_with Z.lxor (take 16 p) (hash (secret ++ prev)) in c ++ seal secret n c (drop 16 p)
  end.
Fixpoint unseal (secret : bytes) (n : nat) (prev c : bytes) : bytes :=
  match n with
  | O => []
  | S n => zip_with Z.lxor (take 16 c) (hash (secret ++ prev)) ++ unseal secret n (take 16 c) (drop 16 c)
  end.

Lemma xor_twice (p k : bytes) : length p = length k -> zip_with Z.lxor (zip_with Z.lxor p k) k = p.
Proof.
  revert k. induction p as [|x p IH]; intros [|y k] Hl; try done. cbn [zip_with]. rewrite IH by (injection Hl; done).
  by rewrite Z.lxor_assoc, Z.lxor_nilpotent, Z.lxor_0_r.
Qed.
Lemma is_bytes_xor p k : is_bytes p -> is_bytes k -> is_bytes (zip_with Z.lxor p k).
Proof.
  intros Hp. revert k. induction Hp as [|x p Hx _ IH]; intros k Hk; cbn [zip_with]; [constructor|].
  destruct Hk as [|y k Hy Hk]; constructor; [by apply lxor_in_w|by apply IH].
Qed.
Lemma length_xor_block p m : (16 <= length p)%nat -> is_bytes m -> length (zip_with Z.lxor (take 16 p) (hash m)) = 16%nat.
Proof. intros Hp Hm. rewrite length_zip_with, length_take, length_hash by done. lia. Qed.

Lemma seal_ok secret n prev p :
  is_bytes secret -> is_bytes prev -> is_bytes p -> length p = (16 * n)%nat ->
  length (seal secret n prev p) = (16 * n)%nat /\ is_bytes (seal secret n prev p) /\
  unseal secret n prev (seal secret n prev p) = p.
Proof.
  intros Hs. revert prev p. induction n as [|n IH]; intros prev p Hprev Hp Hl; cbn [seal unseal].
  { destruct p; [|discriminate]. split; [done|]. split; [constructor|done]. }
  assert (Hm : is_bytes (secret ++ prev)) by auto with cint.
  set (c := zip_with _ _ _). assert (Hc : length c = 16%nat) by (apply length_xor_block; [lia|done]).
  assert (Hcb : is_bytes c) by (apply is_bytes_xor; [auto with cint|apply is_bytes_hash]).
  destruct (IH c (drop 16 p) Hcb ltac:(auto with cint) ltac:(rewrite length_drop; lia)) as (H1 & H2 & H3).
  rewrite length_app, H1, Hc. split; [lia|]. split; [by apply is_bytes_app|].
  rewrite take_app_length', drop_app_length', H3 by done. unfold c.
  rewrite xor_twice by (rewrite length_take, length_hash by done; lia). apply take_drop.
Qed.

(** A secret that can be configured. *)
Definition good_secret (s : bytes) : Prop := is_bytes s /\ (length s <= 128)%nat.

(** ** Passwords *)

Lemma pwencode_loop_ok secret m fuel pre c p r :
  good_secret secret -> is_bytes c -> is_bytes p -> length c = 16%nat -> length p = (16 * m)%nat -> (m < fuel)%nat ->
  pwencode_loop fuel (pre ++ c ++ p ++ r) (length pre + 16) (length pre + 16 + 16 * m) secret =
  Done (pre ++ c ++ seal secret m c p ++ r).
Proof.
  intros [Hs Hls]. revert fuel pre c p. induction m as [|m IH]; intros fuel pre c p Hc Hp Hlc Hlp Hf;
    (destruct fuel as [|fuel]; [lia|]); cbn [pwencode_loop seal].
  { rewrite decide_False by lia. destruct p; [done|discriminate]. }
  rewrite decide_True by lia. unfold RADIUS_MD5LEN. replace (length pre + 16 - 16)%nat with (length pre) by lia.
  rewrite read_app by done. obind. pieces.
  assert (Hm : is_bytes (secret ++ c)) by auto with cint.
  set (c' := zip_with _ _ _). assert (Hc' : length c' = 16%nat) by (apply length_xor_block; [lia|done]).
  assert (Hcb : is_bytes c') by (apply is_bytes_xor; [auto with cint|apply is_bytes_hash]).
  assert (Hsplit : pre ++ c ++ p ++ r = (pre ++ c) ++ take 16 p ++ drop 16 p ++ r).
  { rewrite <- !app_assoc. do 2 f_equal. by rewrite app_assoc, take_drop. }
  rewrite Hsplit. unfold xor16, RADIUS_MD5LEN. rewrite read_app by (rewrite ?length_app, ?length_take; lia). obind.
  rewrite memcpy_app by (rewrite ?length_app, ?length_take; fold c'; lia). obind. fold c'.
  specialize (IH fuel (pre ++ c) c' (drop 16 p) Hcb ltac:(auto with cint) Hc' ltac:(rewrite length_drop; lia) ltac:(lia)).
  rewrite length_app, Hlc in IH.
  replace (length pre + 16 + 16 * S m)%nat with (length pre + 16 + 16 + 16 * m)%nat by lia. rewrite IH.
  by rewrite <- !app_assoc.
Qed.

(** The password filled up with zeros. *)
Definition padded (pw : bytes) : bytes := pw ++ replicate ((16 - length pw mod 16) mod 16) 0.
Lemma length_padded pw : length (padded pw) = (16 * ((length pw + 15) / 16))%nat.
Proof.
  unfold padded. rewrite length_app, length_replicate. pose proof (Nat.div_mod_eq (length pw) 16) as Hd.
  pose proof (Nat.mod_upper_bound (length pw) 16 ltac:(lia)).
  set (q := (length pw / 16)%nat) in *. set (m := (length pw mod 16)%nat) in *. rewrite Hd.
  destruct (decide (m = 0)%nat) as [->|Hne].
  - change ((16 - 0) mod 16)%nat with 0%nat. replace (16 * q + 0 + 15)%nat with (q * 16 + 15)%nat by lia.
    rewrite Nat.div_add_l by lia. change (15 / 16)%nat with 0%nat. lia.
  - rewrite (Nat.mod_small (16 - m)) by lia. replace (16 * q + m + 15)%nat with ((q + 1) * 16 + (m - 1))%nat by lia.
    rewrite Nat.div_add_l, (Nat.div_small (m - 1)) by lia. lia.
Qed.
Lemma is_bytes_padded pw : is_bytes pw -> is_bytes (padded pw).
Proof. intros Hp. apply is_bytes_app; [done|]. apply is_bytes_replicate. solve_bytes. Qed.

(** The size the source computes, for every length a password can have. *)
Definition code_dstlen (srclen : Z) : Z :=
  if negb (srclen &ᵤ 0x0f =? 0) then (srclen &ᵤ 0xf0) + 0x10 else srclen.
Lemma code_dstlen_ok n : (n <= 128)%nat -> code_dstlen (Z.of_nat n) = Z.of_nat (16 * ((n + 15) / 16)).
Proof.
  intros Hn. assert (H1 : forallb (fun n => code_dstlen (Z.of_nat n) =? Z.of_nat (16 * ((n + 15) / 16))) (seq 0 129) = true)
    by (vm_compute; reflexivity).
  rewrite forallb_forall in H1. apply Z.eqb_eq, H1, in_seq. lia.
Qed.

Lemma drop_replicate_app {A} n m (x : A) l : (n <= m)%nat -> drop n (replicate m x ++ l) = replicate (m - n) x ++ l.
Proof. intros H1. rewrite drop_app_le by (rewrite length_replicate; lia). by rewrite drop_replicate. Qed.

Lemma pwencode_ok dst dstsize pw auth secret :
  good_secret secret -> is_bytes pw -> is_bytes auth -> length auth = 16%nat ->
  (0 < length pw <= 128)%nat -> (length (padded pw) <= dstsize <= length dst)%nat ->
  radius_pwencode dst (Z.of_nat dstsize) pw (Z.of_nat (length pw)) auth secret =
  Done (0, seal secret ((length pw + 15) / 16) auth (padded pw) ++
           replicate (dstsize - length (padded pw)) 0 ++ drop dstsize dst, Z.of_nat (length (padded pw))).
Proof.
  intros Hs Hpw Ha Hla Hlen Hd. unfold radius_pwencode.
  change (if negb (_ &ᵤ 15 =? 0) then _ else _) with (code_dstlen (Z.of_nat (length pw))).
  rewrite code_dstlen_ok, <- length_padded by lia. rewrite !Nat2Z.id.
  assert (memcpy dst 0 (replicate dstsize 0) = Done (replicate dstsize 0 ++ drop dstsize dst)) as ->.
  { unfold memcpy. rewrite splice_Some by (rewrite length_replicate; lia). by rewrite length_replicate. }
  obind. rewrite (proj2 (Z.ltb_ge _ _)) by lia.
  rewrite (proj2 (Z.ltb_ge 128 _)), Nat2Z.id by lia. rewrite read_ok by (cbn; lia). obind.
  change (drop 0 pw) with pw. rewrite take_ge by lia. set (r := drop dstsize dst).
  assert (Hcopy : memcpy (replicate dstsize 0 ++ r) 0 pw =
    Done ([] ++ take 16 (padded pw) ++ drop 16 (padded pw) ++ replicate (dstsize - length (padded pw)) 0 ++ r)).
  { cbn [app]. rewrite (app_assoc (take 16 _)), take_drop. unfold memcpy.
    assert (length pw <= length (padded pw))%nat by (unfold padded; rewrite length_app; lia).
    rewrite splice_Some by (rewrite length_app, length_replicate; lia). obind. f_equal.
    change (take 0 ?l ++ ?x) with x. cbn [Nat.add]. rewrite drop_replicate_app by lia.
    unfold padded at 1. rewrite <- app_assoc. f_equal. rewrite app_assoc, <- replicate_add. do 2 f_equal.
    unfold padded in *. rewrite length_app, length_replicate in *. lia. }
  rewrite Hcopy. obind. destruct Hs as [Hs Hls]. pieces. unfold xor16, RADIUS_MD5LEN.
  pose proof (length_padded pw) as Hlp. set (m := ((length pw + 15) / 16)%nat) in *.
  assert (Hm : (0 < m)%nat) by (apply Nat.div_str_pos; lia).
  assert (Hpp : (16 <= length (padded pw))%nat) by lia.
  rewrite read_app by (done || rewrite length_take; lia). obind.
  assert (Hmb : is_bytes (secret ++ auth)) by auto with cint.
  destruct m as [|m]; [lia|]. cbn [seal]. set (c := zip_with _ _ _).
  assert (Hc : length c = 16%nat) by (apply length_xor_block; [lia|done]).
  rewrite memcpy_app by (done || rewrite length_take; lia). obind.
  assert (Hcb : is_bytes c).
  { apply is_bytes_xor; [apply is_bytes_take, is_bytes_padded, Hpw|apply is_bytes_hash]. }
  pose proof (pwencode_loop_ok secret m (S (length (padded pw))) [] c (drop 16 (padded pw))
    (replicate (dstsize - length (padded pw)) 0 ++ r) (conj Hs Hls) Hcb
    ltac:(apply is_bytes_drop, is_bytes_padded, Hpw) Hc ltac:(rewrite length_drop; lia) ltac:(lia)) as Hloop.
  cbn [app] in Hloop. change (length [] + 16)%nat with 16%nat in Hloop. replace (16 + 16 * m)%nat with (length (padded pw)) in Hloop by lia.
  cbn [app]. rewrite Hloop. obind. by rewrite <- app_assoc.
Qed.

Lemma pwdecode_loop_ok secret m fuel pre c p r pre' p' r' :
  good_secret secret -> is_bytes c -> is_bytes p -> length c = 16%nat -> length p = (16 * m)%nat -> (m < fuel)%nat ->
  (length pre + 16 + 16 * m <= 128)%nat -> length pre' = (length pre + 16)%nat -> length p' = length p ->
  pwdecode_loop fuel (pre' ++ p' ++ r') (pre ++ c ++ p ++ r) (length pre + 16) (length pre + 16 + 16 * m) secret =
  Done (pre' ++ unseal secret m c p ++ r').
Proof.
  intros [Hs Hls]. revert fuel pre c p pre' p'. induction m as [|m IH];
    intros fuel pre c p pre' p' Hc Hp Hlc Hlp Hf Hmax Hpre' Hp';
    (destruct fuel as [|fuel]; [lia|]); cbn [pwdecode_loop unseal].
  { rewrite decide_False by lia. destruct p' as [|? ?]; [done|]. rewrite Hlp in Hp'. discriminate Hp'. }
  rewrite decide_True by lia. unfold RADIUS_MD5LEN. replace (length pre + 16 - 16)%nat with (length pre) by lia.
  rewrite read_app by done. obind. pieces.
  assert (Hsplit : pre ++ c ++ p ++ r = (pre ++ c) ++ take 16 p ++ drop 16 p ++ r).
  { rewrite <- !app_assoc. do 2 f_equal. by rewrite app_assoc, take_drop. }
  assert (Hm : is_bytes (secret ++ c)) by auto with cint.
  rewrite Hsplit. unfold xor16, RADIUS_MD5LEN. rewrite read_app by (rewrite ?length_app, ?length_take; lia). obind.
  set (d := zip_with _ _ _). assert (Hd : length d = 16%nat) by (apply length_xor_block; [lia|done]).
  assert (Hsplit' : pre' ++ p' ++ r' = pre' ++ take 16 p' ++ drop 16 p' ++ r').
  { f_equal. by rewrite app_assoc, take_drop. }
  rewrite Hsplit', memcpy_app by (rewrite ?length_take; lia). obind. rewrite app_assoc.
  specialize (IH fuel (pre ++ c) (take 16 p) (drop 16 p) (pre' ++ d) (drop 16 p')). rewrite !length_app, Hlc in IH.
  replace (length pre + 16 + 16 * S m)%nat with (length pre + 16 + 16 + 16 * m)%nat by lia. rewrite IH.
  - by rewrite <- !app_assoc.
  - auto with cint.
  - auto with cint.
  - rewrite length_take. lia.
  - rewrite length_drop. lia.
  - lia.
  - lia.
  - lia.
  - rewrite !length_drop. lia.
Qed.

Lemma pwdecode_ok dst dstsize c r m auth secret :
  good_secret secret -> is_bytes c -> is_bytes auth -> length auth = 16%nat ->
  length c = (16 * m)%nat -> (0 < m <= 8)%nat -> (16 * m <= dstsize <= length dst)%nat ->
  radius_pwdecode dst (Z.of_nat dstsize) (c ++ r) (Z.of_nat (16 * m)) auth secret =
  Done (0, unseal secret m auth c ++ drop (16 * m) dst, Z.of_nat (16 * m)).
Proof.
  intros Hs Hc Ha Hla Hl Hm Hd. unfold radius_pwdecode. rewrite (proj2 (Z.ltb_ge _ _)) by lia.
  replace (Z.of_nat (16 * m) mod 16) with 0 by (rewrite Nat2Z.inj_mul, Z.mul_comm; symmetry; apply Z.mod_mul; lia).
  cbn [Z.eqb negb]. destruct Hs as [Hs Hls]. pieces. unfold xor16, RADIUS_MD5LEN.
  destruct m as [|m]; [lia|]. assert (Hcs : c ++ r = [] ++ take 16 c ++ drop 16 c ++ r).
  { cbn [app]. by rewrite app_assoc, take_drop. }
  rewrite Hcs, read_app by (done || rewrite length_take; lia). obind.
  assert (Hmb : is_bytes (secret ++ auth)) by auto with cint.
  set (d := zip_with _ _ _). assert (Hld : length d = 16%nat) by (apply length_xor_block; [lia|done]).
  assert (Hds : dst = [] ++ take 16 dst ++ take (16 * m) (drop 16 dst) ++ drop (16 * S m) dst).
  { cbn [app]. replace (16 * S m)%nat with (16 + 16 * m)%nat by lia. by rewrite <- drop_drop, take_drop, take_drop. }
  rewrite Hds at 1. rewrite memcpy_app by (done || rewrite length_take; lia). obind. rewrite Nat2Z.id. cbn [app].
  pose proof (pwdecode_loop_ok secret m (S (16 * S m)) [] (take 16 c) (drop 16 c) r d (take (16 * m) (drop 16 dst))
    (drop (16 * S m) dst) (conj Hs Hls)) as Hloop. cbn [app] in Hloop. change (length [] + 16)%nat with 16%nat in Hloop.
  replace (16 + 16 * m)%nat with (16 * S m)%nat in Hloop by lia. rewrite Hloop.
  - obind. cbn [unseal]. by rewrite <- app_assoc.
  - auto with cint.
  - auto with cint.
  - rewrite length_take. lia.
  - rewrite length_drop. lia.
  - lia.
  - lia.
  - done.
  - rewrite length_take, !length_drop. lia.
Qed.
(** ** Keys *)

(** What the source xors into the bytes from [i] of block [n]. *)
Definition plain_at (src : bytes) (srclen : Z) (i n : nat) (p : bytes) : Prop :=
  forall j x, p !! j = Some x ->
    if Z.of_nat (i + j) - 1 <? srclen then src !! (i + j + n * 16 - 1)%nat = Some x else x = 0.

Lemma keyencode_bytes_ok count i n pre w r src srclen b p :
  length b = 16%nat -> (i + count = 16)%nat -> length pre = (i + 2 + n * 16)%nat ->
  length w = count -> length p = count -> plain_at src srclen i n p ->
  keyencode_bytes count i n (pre ++ w ++ r) src srclen b = Done (pre ++ zip_with Z.lxor p (drop i b) ++ r).
Proof.
  intros Hb. revert i pre w p. induction count as [|count IH]; intros i pre w p Hi Hpre Hw Hp Hpl;
    cbn [keyencode_bytes].
  { destruct w, p; try discriminate. done. }
  destruct w as [|y w]; [discriminate|]. destruct p as [|x p]; [discriminate|]. injection Hw as Hw. injection Hp as Hp.
  destruct (lookup_lt_is_Some_2 b i ltac:(lia)) as [k Hk]. rewrite (byte_at_ok _ _ _ Hk). obind.
  assert ((if Z.of_nat i - 1 <? srclen then s ← byte_at src (i + n * RADIUS_MD5LEN - 1); Done (s ^ᵤ k) else Done k) =
          @Done unit _ (x ^ᵤ k)) as ->.
  { pose proof (Hpl 0%nat x eq_refl) as H0. rewrite Nat.add_0_r in H0. unfold RADIUS_MD5LEN.
    destruct (Z.of_nat i - 1 <? srclen); [by rewrite (byte_at_ok _ _ _ H0)|]. by subst x. }
  obind. change ((y :: w) ++ r) with ([y] ++ (w ++ r)).
  rewrite memcpy_app by (unfold RADIUS_MD5LEN; done || lia). obind.
  rewrite (app_assoc pre [_]), (IH (S i) _ w p); [| |rewrite length_app; cbn [length]|..].
  - rewrite (drop_S _ _ _ Hk). cbn [zip_with]. by rewrite <- app_assoc.
  - lia.
  - lia.
  - done.
  - done.
  - intros j z Hj. replace (S i + j)%nat with (i + S j)%nat by lia. by apply Hpl.
Qed.

Lemma keyencode_blocks_ok secret src srclen m n pre c w r p :
  good_secret secret -> is_bytes c -> is_bytes p -> length c = 16%nat -> 15 <= srclen ->
  (1 <= n)%nat -> length pre = (2 + (n - 1) * 16)%nat -> length w = (16 * m)%nat -> length p = (16 * m)%nat ->
  (forall j x, p !! j = Some x -> src !! (j + n * 16 - 1)%nat = Some x) ->
  keyencode_blocks m n (pre ++ c ++ w ++ r) src srclen secret = Done (pre ++ c ++ seal secret m c p ++ r).
Proof.
  intros [Hs Hls] Hc Hp Hlc Hlen. revert n pre c w p Hc Hp Hlc.
  induction m as [|m IH]; intros n pre c w p Hc Hp Hlc Hn Hpre Hw Hlp Hsrc; cbn [keyencode_blocks seal].
  { destruct w; [done|discriminate]. }
  unfold RADIUS_MD5LEN at 1 2. rewrite read_app by done. obind. pieces.
  assert (Hm : is_bytes (secret ++ c)) by auto with cint.
  pose proof (length_hash (secret ++ c) Hm) as Hh.
  rewrite (app_assoc pre c). rewrite <- (take_drop 16 w), <- (app_assoc (take 16 w)).
  rewrite (keyencode_bytes_ok 16 0 n _ _ _ _ _ _ (take 16 p));
    [|done|done|rewrite length_app; lia|rewrite length_take; lia|rewrite length_take; lia|].
  2: { intros j x Hj. apply lookup_take_Some in Hj as [Hj Hlt]. rewrite (proj2 (Z.ltb_lt _ _)) by lia. by apply Hsrc. }
  obind. cbn [drop]. set (c' := zip_with _ _ _). assert (Hc' : length c' = 16%nat) by (apply length_xor_block; [lia|done]).
  rewrite (IH (S n) (pre ++ c) c' (drop 16 w) (drop 16 p)).
  - by rewrite <- !app_assoc.
  - apply is_bytes_xor; [auto with cint|apply is_bytes_hash].
  - auto with cint.
  - done.
  - lia.
  - rewrite length_app. lia.
  - rewrite length_drop. lia.
  - rewrite length_drop. lia.
  - intros j x Hj. rewrite lookup_drop in Hj. rewrite <- (Hsrc (16 + j)%nat x Hj). f_equal. lia.
Qed.

(** The bytes the source encodes for a key: the length, the key, and, if the key has
    more than fifteen bytes, what lies behind it in memory. *)
Definition key_blocks (n : nat) : nat := ((n + 16) / 16)%nat.
Definition key_plain (src : bytes) (n : nat) : bytes :=
  Z.of_nat n :: if decide (n < 16)%nat then take n src ++ replicate (15 - n) 0
                else take (16 * key_blocks n - 1) src.

Lemma key_blocks_bounds n : (16 * key_blocks n - 16 <= n < 16 * key_blocks n)%nat.
Proof. unfold key_blocks. pose proof (Nat.div_mod_eq (n + 16) 16). pose proof (Nat.mod_upper_bound (n + 16) 16). lia. Qed.
Lemma code_blocks n :
  (let blocks := (Z.of_nat n + 1) / 16 in if blocks * 16 <? Z.of_nat n + 1 then blocks + 1 else blocks) =
  Z.of_nat (key_blocks n).
Proof.
  cbv zeta. pose proof (key_blocks_bounds n). destruct (Z.ltb_spec ((Z.of_nat n + 1) / 16 * 16) (Z.of_nat n + 1)); zdm.
Qed.

(** The memory of a key: the bytes behind a key of more than fifteen bytes are there. *)
Definition key_memory (src : bytes) (n : nat) : Prop :=
  is_bytes src /\ (n < 256)%nat /\ (n <= length src)%nat /\ (16 <= n -> 16 * key_blocks n - 1 <= length src)%nat.

Lemma key_plain_ok src n : key_memory src n -> length (key_plain src n) = (16 * key_blocks n)%nat /\ is_bytes (key_plain src n).
Proof.
  intros (Hb & Hn & Hl & Hbeh). pose proof (key_blocks_bounds n) as Hk. unfold key_plain. case_decide; cbn [length].
  - rewrite length_app, length_take, length_replicate. split; [lia|]. apply is_bytes_cons; [unfold is_u8, in_w; lia|].
    apply is_bytes_app; [auto with cint|apply is_bytes_replicate; solve_bytes].
  - rewrite length_take. split; [lia|]. apply is_bytes_cons; [unfold is_u8, in_w; lia|auto with cint].
Qed.
Lemma key_plain_first src n : (n <= length src)%nat -> plain_at src (Z.of_nat n) 1 0 (take 15 (drop 1 (key_plain src n))).
Proof.
  intros Hl j x Hj. unfold key_plain in Hj. rewrite skipn_cons, drop_0 in Hj. apply lookup_take_Some in Hj as [Hj Hlt].
  replace (1 + j + 0 * 16 - 1)%nat with j by lia. revert Hj. case_decide as Hn16; intros Hj.
  - destruct (Z.ltb_spec (Z.of_nat (1 + j) - 1) (Z.of_nat n)).
    + rewrite lookup_app_l in Hj by (rewrite length_take; lia). by apply lookup_take_Some in Hj as [? _].
    + rewrite lookup_app_r in Hj by (rewrite length_take; lia). by apply lookup_replicate in Hj as [? _].
  - rewrite (proj2 (Z.ltb_lt _ _)) by lia. by apply lookup_take_Some in Hj as [? _].
Qed.
Lemma key_plain_next src n j x :
  (16 <= n)%nat -> drop 16 (key_plain src n) !! j = Some x -> src !! (j + 1 * 16 - 1)%nat = Some x.
Proof.
  intros Hn Hj. rewrite lookup_drop in Hj. unfold key_plain in Hj. rewrite decide_False in Hj by lia.
  cbn [Nat.add lookup list_lookup] in Hj. apply lookup_take_Some in Hj as [Hj _]. rewrite <- Hj. f_equal. lia.
Qed.

(** The parts of the output buffer. *)
Lemma key_buffer (dst : bytes) m :
  (1 <= m)%nat -> (16 * m + 2 <= length dst)%nat ->
  exists s l w z, length s = 2%nat /\ length w = 15%nat /\ length z = (16 * (m - 1))%nat /\
    dst = s ++ [l] ++ w ++ z ++ drop (16 * m + 2) dst.
Proof.
  intros Hm Hl. destruct (lookup_lt_is_Some_2 dst 2 ltac:(lia)) as [l Hx].
  exists (take 2 dst), l, (take 15 (drop 3 dst)), (take (16 * (m - 1)) (drop 18 dst)).
  rewrite !length_take, !length_drop. split; [lia|]. split; [lia|]. split; [lia|].
  replace (16 * m + 2)%nat with (18 + 16 * (m - 1))%nat by lia. rewrite <- (drop_drop dst _ 18), take_drop.
  change 18%nat with (3 + 15)%nat. rewrite <- (drop_drop dst 15 3), take_drop. cbn [app].
  rewrite <- (drop_S _ _ _ Hx), take_drop. done.
Qed.

Lemma keyencode_ok salt dst dstsize src n auth secret :
  good_secret secret -> is_bytes auth -> length auth = 16%nat -> is_bytes salt -> length salt = 2%nat ->
  key_memory src n -> (16 * key_blocks n + 2 <= dstsize <= length dst)%nat ->
  radius_keyencode (Some salt) dst (Z.of_nat dstsize) src (Z.of_nat n) auth secret =
  Done (0, salt ++ seal secret (key_blocks n) (auth ++ salt) (key_plain src n) ++ drop (16 * key_blocks n + 2) dst,
        Z.of_nat (16 * key_blocks n + 2)).
Proof.
  intros Hsec Ha Hla Hsalt Hlsalt Hmem Hd. destruct (key_plain_ok _ _ Hmem) as [Hlp Hpb].
  pose proof Hmem as (_ & Hn & Hlsrc & _). pose proof Hsec as [Hs Hls]. unfold radius_keyencode.
  pose proof (code_blocks n) as Hcb. cbv zeta in Hcb. rewrite Hcb. pose proof (key_blocks_bounds n) as Hkb.
  destruct (key_buffer dst (key_blocks n)) as (s0 & l & w & z & Hl0 & Hlw & Hlz & Hds); [lia|lia|].
  set (m := key_blocks n) in *. rewrite (proj2 (Z.ltb_ge _ _)) by lia. set (r := drop _ dst) in *. clearbody r. subst dst.
  rewrite (take_ge salt), memcpy_head, ?app_nil_l by lia. obind. rewrite read_head by done. obind. pieces.
  assert (Hmb : is_bytes (secret ++ auth ++ salt)) by (repeat apply is_bytes_app; done).
  pose proof (length_hash _ Hmb) as Hh. pose proof (is_bytes_hash (secret ++ auth ++ salt)) as Hhb.
  destruct (hash (secret ++ auth ++ salt)) as [|b0 bs] eqn:Hb; [discriminate|]. apply Forall_cons in Hhb as [Hb0 Hbs].
  rewrite (byte_at_ok _ 0 b0) by done. obind. rewrite u8_small by (unfold is_u8, in_w; lia).
  rewrite memcpy_app by done. obind. rewrite (app_assoc salt).
  rewrite (keyencode_bytes_ok (RADIUS_MD5LEN - 1) 1 0 _ _ _ _ _ _ (take 15 (drop 1 (key_plain src n))));
    [|done|done|rewrite length_app, Hlsalt; done|done|rewrite length_take, length_drop; unfold RADIUS_MD5LEN; lia|by apply key_plain_first].
  obind. replace (Z.to_nat (Z.of_nat m) - 1)%nat with (m - 1)%nat by lia. rewrite <- app_assoc.
  destruct m as [|m'] eqn:Hm; [lia|]. replace (S m' - 1)%nat with m' in * by lia. cbn [seal].
  set (c := zip_with Z.lxor (take 16 (key_plain src n)) _).
  assert (Hc : c = [Z.of_nat n ^ᵤ b0] ++ zip_with Z.lxor (take 15 (drop 1 (key_plain src n))) (drop 1 (b0 :: bs))).
  { unfold c. rewrite Hb. done. }
  assert (Hlc : length c = 16%nat) by (apply length_xor_block; [lia|done]).
  assert (Hcb' : is_bytes c) by (apply is_bytes_xor; [auto with cint|apply is_bytes_hash]).
  rewrite (app_assoc [_]), <- Hc. destruct (decide (16 <= n)%nat).
  - rewrite (keyencode_blocks_ok secret src (Z.of_nat n) m' 1 salt c z r (drop 16 (key_plain src n)));
      [|done|done|auto with cint|done|lia|lia|lia|done|rewrite length_drop; lia|intros j x; by apply key_plain_next].
    obind. rewrite <- app_assoc. do 3 f_equal. lia.
  - assert (m' = 0%nat) as -> by lia. destruct z; [|discriminate]. cbn [keyencode_blocks seal]. obind.
    by rewrite app_nil_r.
Qed.

(** [dst'] is [dst] with the bytes of [d] from [lo] on, up to [hi]. *)
Definition written (lo hi : nat) (d : nat -> option Z) (dst dst' : bytes) : Prop :=
  length dst' = length dst /\
  forall q, dst' !! q = if decide (lo <= q < hi)%nat then d q else dst !! q.
Lemma written_trans lo mid hi d dst1 dst2 dst3 :
  (lo <= mid)%nat -> written lo (Nat.min mid hi) d dst1 dst2 -> written mid hi d dst2 dst3 -> written lo hi d dst1 dst3.
Proof.
  intros Hle [Hl2 H2] [Hl3 H3]. split; [congruence|]. intros q. rewrite H3, H2.
  repeat case_decide; done || lia.
Qed.
Lemma written_none lo hi d dst : (hi <= lo)%nat -> written lo hi d dst dst.
Proof. intros Hle. split; [done|]. intros q. case_decide; [lia|done]. Qed.
Lemma written_one lo d dst x : (lo < length dst)%nat -> d lo = Some x ->
  exists dst', memcpy dst lo [x] = Done dst' /\ written lo (S lo) d dst dst'.
Proof.
  intros Hl Hd. unfold memcpy. destruct (splice lo [x] dst) as [dst'|] eqn:Hs.
  - exists dst'. split; [done|]. split; [by eapply splice_length|]. intros q.
    rewrite (splice_lookup _ _ _ _ q Hs). cbn [length]. repeat case_decide; try done || lia.
    assert (q = lo) as -> by lia. by rewrite Nat.sub_diag.
  - rewrite splice_Some in Hs by (cbn; lia). discriminate.
Qed.

(** A block of the plain text, in the place of the output it goes to. *)
Definition block_at (n : nat) (d : bytes) (q : nat) : option Z := d !! (q + 1 - n * 16)%nat.

Lemma keydecode_bytes_ok count i n dst spre cb sr k b :
  length b = 16%nat -> length cb = 16%nat -> (i + count = 16)%nat -> (1 <= i + n * 16)%nat ->
  length spre = (2 + n * 16)%nat -> (k <= length dst)%nat ->
  exists dst', keydecode_bytes count i n dst (spre ++ cb ++ sr) (Z.of_nat k) b = Done dst' /\
    written (i + n * 16 - 1) (Nat.min (15 + n * 16) k) (block_at n (zip_with Z.lxor cb b)) dst dst'.
Proof.
  intros Hb Hcb. revert i dst. induction count as [|count IH]; intros i dst Hi H1 Hsp Hk; cbn [keydecode_bytes].
  { exists dst. split; [done|]. apply written_none. lia. }
  unfold RADIUS_MD5LEN. destruct (Z.ltb_spec (Z.of_nat (i + n * 16) - 1) (Z.of_nat k)).
  - destruct (lookup_lt_is_Some_2 b i ltac:(lia)) as [x Hx]. destruct (lookup_lt_is_Some_2 cb i ltac:(lia)) as [y Hy].
    rewrite (byte_at_ok _ _ _ Hx). obind. rewrite (byte_at_ok _ _ y).
    2: { rewrite lookup_app_r, lookup_app_l by lia. rewrite <- Hy. f_equal. lia. }
    obind. destruct (written_one (i + n * 16 - 1) (block_at n (zip_with Z.lxor cb b)) dst (y ^ᵤ x)) as (dst1 & -> & Hw).
    { lia. }
    { unfold block_at. replace (i + n * 16 - 1 + 1 - n * 16)%nat with i by lia. by rewrite lookup_zip_with, Hy, Hx. }
    obind. destruct (IH (S i) dst1) as (dst' & -> & Hw'); [lia|lia|done|by rewrite (proj1 Hw)|].
    exists dst'. split; [done|].
    eapply (written_trans _ (S i + n * 16 - 1)); [lia| |exact Hw'].
    replace (Nat.min _ _) with (S (i + n * 16 - 1)) by lia. exact Hw.
  - obind. destruct (IH (S i) dst) as (dst' & -> & Hw'); [lia|lia|done|done|].
    exists dst'. split; [done|]. destruct Hw' as [Hl Hq]. split; [done|]. intros q. rewrite Hq.
    repeat case_decide; done || lia.
Qed.

Lemma keydecode_blocks_ok secret m n dst spre prev c sr k :
  good_secret secret -> is_bytes prev -> is_bytes c -> length prev = 16%nat -> length c = (16 * m)%nat ->
  (1 <= n)%nat -> length spre = (2 + (n - 1) * 16)%nat -> (k <= length dst)%nat ->
  exists dst', keydecode_blocks m n dst (spre ++ prev ++ c ++ sr) (Z.of_nat k) secret = Done dst' /\
    written (n * 16 - 1) (Nat.min (n * 16 + 16 * m - 1) k) (block_at n (unseal secret m prev c)) dst dst'.
Proof.
  intros [Hs Hls]. revert n dst spre prev c. induction m as [|m IH];
    intros n dst spre prev c Hpb Hcb Hlp Hlc Hn Hsp Hk; cbn [keydecode_blocks unseal].
  { exists dst. split; [done|]. apply written_none. lia. }
  unfold RADIUS_MD5LEN at 1 2. rewrite read_app by done. obind. pieces.
  assert (Hm : is_bytes (secret ++ prev)) by auto with cint.
  assert (Hsplit : spre ++ prev ++ c ++ sr = (spre ++ prev) ++ take 16 c ++ drop 16 c ++ sr).
  { rewrite <- !app_assoc. do 2 f_equal. by rewrite app_assoc, take_drop. }
  rewrite Hsplit. destruct (keydecode_bytes_ok 16 0 n dst (spre ++ prev) (take 16 c) (drop 16 c ++ sr) k
    (hash (secret ++ prev))) as (dst1 & -> & Hw1); [by apply length_hash|rewrite length_take; lia|done|lia|
    rewrite length_app; lia|done|].
  obind. destruct (IH (S n) dst1 (spre ++ prev) (take 16 c) (drop 16 c)) as (dst2 & -> & Hw2);
    [auto with cint|auto with cint|rewrite length_take; lia|rewrite length_drop; lia|lia|rewrite length_app; lia|
     by rewrite (proj1 Hw1)|].
  exists dst2. split; [done|]. set (d := zip_with _ _ _) in *.
  assert (Hd : length d = 16%nat) by (apply length_xor_block; [lia|done]).
  destruct Hw1 as [Hl1 H1], Hw2 as [Hl2 H2]. split; [congruence|]. intros q. rewrite H2, H1.
  unfold block_at. repeat case_decide; try done || lia.
  - rewrite lookup_app_r by lia. f_equal. lia.
  - rewrite lookup_app_l by lia. done.
Qed.

Lemma length_unseal secret n prev c :
  is_bytes secret -> is_bytes prev -> is_bytes c -> length c = (16 * n)%nat -> length (unseal secret n prev c) = (16 * n)%nat.
Proof.
  intros Hs. revert prev c. induction n as [|n IH]; intros prev c Hp Hc Hl; cbn [unseal]; [done|].
  rewrite length_app, length_xor_block, IH by (try lia; auto with cint; rewrite length_drop; lia). lia.
Qed.
(** The output of the first block and of the others together. *)
Lemma key_output d u k m dst dst1 dst2 :
  length d = 16%nat -> length u = (16 * m)%nat -> (k < 16 * S m)%nat -> (k <= length dst)%nat ->
  written 0 (Nat.min 15 k) (block_at 0 d) dst dst1 ->
  written 15 (Nat.min (1 * 16 + 16 * m - 1) k) (block_at 1 u) dst1 dst2 ->
  dst2 = take k (drop 1 (d ++ u)) ++ drop k dst.
Proof.
  intros Hd Hu Hk Hkd [Hl1 H1] [Hl2 H2]. apply list_eq. intros q. rewrite H2, H1. unfold block_at.
  assert (Hlen : length (take k (drop 1 (d ++ u))) = k) by (rewrite length_take, length_drop, length_app; lia).
  destruct (decide (q < k)%nat).
  - rewrite lookup_app_l, lookup_take_lt, lookup_drop by lia. repeat case_decide; try lia.
    + rewrite lookup_app_r by lia. f_equal. lia.
    + rewrite lookup_app_l by lia. f_equal. lia.
  - rewrite lookup_app_r, Hlen, lookup_drop by lia. repeat case_decide; try lia. f_equal. lia.
Qed.

Lemma keydecode_ok dst dstsize salt c r m k auth secret :
  good_secret secret -> is_bytes auth -> length auth = 16%nat -> is_bytes salt -> length salt = 2%nat ->
  is_bytes c -> length c = (16 * m)%nat -> (1 <= m)%nat ->
  head (unseal secret m (auth ++ salt) c) = Some (Z.of_nat k) -> (k < 16 * m)%nat -> (k <= dstsize <= length dst)%nat ->
  radius_keydecode dst (Z.of_nat dstsize) (salt ++ c ++ r) (Z.of_nat (16 * m + 2)) auth secret =
  Done (0, take k (drop 1 (unseal secret m (auth ++ salt) c)) ++ drop k dst, Z.of_nat k).
Proof.
  intros Hsec Ha Hla Hsb Hls Hcb Hlc Hm Hhd Hk Hd. pose proof Hsec as [Hs Hlsec]. unfold radius_keydecode.
  rewrite (proj2 (Z.ltb_ge _ _)) by lia. replace ((Z.of_nat (16 * m + 2) - 2) / 16) with (Z.of_nat m) by zdm.
  replace (Z.of_nat m * 16 + 2 =? Z.of_nat (16 * m + 2)) with true by (symmetry; apply Z.eqb_eq; lia). cbn [negb].
  rewrite read_head by done. obind. pieces.
  assert (Hmb : is_bytes (secret ++ auth ++ salt)) by (repeat apply is_bytes_app; done).
  pose proof (length_hash _ Hmb) as Hh. destruct m as [|m]; [lia|]. cbn [unseal] in *.
  set (b := hash (secret ++ auth ++ salt)) in *. set (d := zip_with _ _ _) in *.
  assert (Hld : length d = 16%nat) by (apply length_xor_block; [lia|done]).
  destruct (lookup_lt_is_Some_2 b 0 ltac:(lia)) as [b0 Hb0]. destruct (lookup_lt_is_Some_2 c 0 ltac:(lia)) as [c0 Hc0].
  assert (Hk0 : c0 ^ᵤ b0 = Z.of_nat k).
  { destruct d as [|x d'] eqn:Hd0; [discriminate|]. injection Hhd as ->. assert (d !! 0%nat = Some (Z.of_nat k)) as H0 by (by rewrite Hd0).
    unfold d in H0. rewrite lookup_zip_with, lookup_take_lt, Hc0, Hb0 in H0 by lia. by injection H0. }
  rewrite (byte_at_ok _ 2 c0). 2: { rewrite lookup_app_r, Hls, lookup_app_l by lia. done. }
  obind. rewrite (byte_at_ok _ _ _ Hb0). obind. rewrite Hk0.
  rewrite !(proj2 (Z.ltb_ge _ _)) by lia. replace (Z.to_nat (Z.of_nat (S m)) - 1)%nat with m by lia.
  assert (Hcs : salt ++ c ++ r = salt ++ take 16 c ++ drop 16 c ++ r) by (f_equal; by rewrite app_assoc, take_drop).
  rewrite Hcs. destruct (keydecode_bytes_ok (RADIUS_MD5LEN - 1) 1 0 dst salt (take 16 c) (drop 16 c ++ r) k b) as
    (dst1 & -> & Hw1); [done|rewrite length_take; lia|done|lia|done|lia|]. obind. fold d in Hw1.
  destruct (keydecode_blocks_ok secret m 1 dst1 salt (take 16 c) (drop 16 c) r k Hsec) as (dst2 & -> & Hw2);
    [auto with cint|auto with cint|rewrite length_take; lia|rewrite length_drop; lia|done|done|rewrite (proj1 Hw1); lia|].
  obind. do 3 f_equal. apply (key_output d (unseal secret m (take 16 c) (drop 16 c)) k m dst dst1 dst2);
    [done|apply length_unseal; [done|auto with cint|auto with cint|rewrite length_drop; lia]|lia|lia|done|done].
Qed.


(** C26: a password of up to 128 bytes that [radius_pwencode] has hidden is
    decoded by [radius_pwdecode], with the same secret and authenticator, to the
    password filled up with zeros to a multiple of sixteen. *)
Theorem radius_password_roundtrip pw auth secret dst dst' :
  good_secret secret -> is_bytes pw -> is_bytes auth -> length auth = 16%nat -> (0 < length pw <= 128)%nat ->
  length dst = 128%nat -> length dst' = 128%nat ->
  exists c n,
    radius_pwencode dst RADIUS_PWSIZE pw (Z.of_nat (length pw)) auth secret = Done (0, c, Z.of_nat n) /\
    n = length (padded pw) /\
    radius_pwdecode dst' RADIUS_PWSIZE c (Z.of_nat n) auth secret = Done (0, padded pw ++ drop n dst', Z.of_nat n).
Proof.
  intros Hs Hpw Ha Hla Hlen Hd Hd'. pose proof (length_padded pw) as Hlp.
  set (m := ((length pw + 15) / 16)%nat) in *.
  assert (Hm : (0 < m <= 8)%nat) by (split; [apply Nat.div_str_pos; lia|apply (Nat.Div0.div_le_mono _ 143 16); lia]).
  destruct (seal_ok secret m auth (padded pw) (proj1 Hs) Ha (is_bytes_padded pw Hpw) Hlp) as (H1 & H2 & H3).
  eexists _, _. split; [apply (pwencode_ok dst 128 pw auth secret); try done; lia|]. split; [done|].
  fold m. rewrite Hlp. change RADIUS_PWSIZE with (Z.of_nat 128).
  rewrite (pwdecode_ok dst' 128) by (done || lia). by rewrite H3.
Qed.

(** A key that [radius_keyencode] has encoded is decoded by
    [radius_keydecode] to the same key, provided the memory behind a key of more than
    fifteen bytes can be read up to the end of its last block; the result does not
    depend on what is there. *)
Theorem radius_key_roundtrip salt src n auth secret dst dst' :
  good_secret secret -> is_bytes auth -> length auth = 16%nat -> is_bytes salt -> length salt = 2%nat ->
  key_memory src n -> (16 * key_blocks n + 2 <= length dst)%nat -> (n <= length dst')%nat ->
  exists c m,
    radius_keyencode (Some salt) dst (Z.of_nat (length dst)) src (Z.of_nat n) auth secret = Done (0, c, Z.of_nat m) /\
    radius_keydecode dst' (Z.of_nat (length dst')) c (Z.of_nat m) auth secret =
      Done (0, take n src ++ drop n dst', Z.of_nat n).
Proof.
  intros Hs Ha Hla Hsb Hls Hmem Hd Hd'. destruct (key_plain_ok src n Hmem) as [Hlp Hpb].
  pose proof (key_blocks_bounds n) as Hkb.
  destruct (seal_ok secret (key_blocks n) (auth ++ salt) (key_plain src n) (proj1 Hs) ltac:(by apply is_bytes_app) Hpb Hlp)
    as (H1 & H2 & H3).
  eexists _, _. split; [by apply keyencode_ok|].
  rewrite (keydecode_ok dst' (length dst') salt _ _ (key_blocks n) n) by (try done; try lia; by rewrite H3).
  rewrite H3. do 4 f_equal. destruct Hmem as (_ & _ & Hl & Hbeh). unfold key_plain. rewrite skipn_cons, drop_0.
  case_decide; [|by rewrite take_take, Nat.min_l by lia].
  rewrite take_app_le by (rewrite length_take; lia). by rewrite take_take, Nat.min_id.
Qed.
End Codecs.

(** ** Packets as lists of attributes *)

Record attr := Attr { a_type : Z; a_value : bytes }.
Definition encode (a : attr) : bytes := [a_type a; Z.of_nat (length (a_value a)) + 2] ++ a_value a.
Definition encode_all (l : list attr) : bytes := concat (map encode l).

(** The length of an attribute fits its byte; a vendor attribute has room for the
    number of the vendor and the head of what it carries. *)
Record attr_ok (a : attr) : Prop := {
  ao_type : 1 <= a_type a < 256;
  ao_bytes : is_bytes (a_value a);
  ao_length : (length (a_value a) <= 253)%nat;
  ao_vendor : a_type a = RADIUS_ATTR_VENDOR_SPECIFIC -> (6 <= length (a_value a))%nat;
}.

(** A packet with these attributes behind a header. *)
Record packet (p : bytes) (code id : Z) (auth : bytes) (l : list attr) : Prop := {
  pa_ok : Forall attr_ok l;
  pa_size : (20 + length (encode_all l) <= 1600)%nat;
  pa_memory : exists junk, p = [code; id] ++ be_bytes 2 (Z.of_nat (20 + length (encode_all l))) ++ auth ++ encode_all l ++ junk;
  pa_length : length p = 1600%nat;
  pa_auth : length auth = 16%nat;
}.

Definition matches (type vendor_id vendor_type : Z) (a : attr) : bool :=
  (a_type a =? type) &&
  (negb ((type =? RADIUS_ATTR_VENDOR_SPECIFIC) && negb (vendor_id =? 0)) ||
   ((be_val (take 4 (a_value a)) =? vendor_id) && bool_decide (a_value a !! 4%nat = Some vendor_type))).

(** Where the [n]-th matching attribute is; for a vendor's attribute, its inner
    head. *)
Fixpoint find_attr (type vendor_id vendor_type : Z) (n pos : nat) (l : list attr) : option nat :=
  match l with
  | [] => None
  | a :: l =>
    let pos' := (pos + length (encode a))%nat in
    if matches type vendor_id vendor_type a then
      match n with
      | O => Some (if (type =? RADIUS_ATTR_VENDOR_SPECIFIC) && negb (vendor_id =? 0) then (pos + 6)%nat else pos)
      | S n => find_attr type vendor_id vendor_type n pos' l
      end
    else find_attr type vendor_id vendor_type n pos' l
  end.

(** The offset behind that attribute. *)
Fixpoint behind (type vendor_id vendor_type : Z) (n off : nat) (l : list attr) : nat :=
  match l with
  | [] => off
  | a :: l =>
    let off' := (off + (length (a_value a) + 2))%nat in
    if matches type vendor_id vendor_type a then match n with O => off' | S n => behind type vendor_id vendor_type n off' l end
    else behind type vendor_id vendor_type n off' l
  end.

Lemma length_encode a : length (encode a) = (length (a_value a) + 2)%nat.
Proof. unfold encode. rewrite length_app. cbn. lia. Qed.
Lemma encode_all_cons a l : encode_all (a :: l) = encode a ++ encode_all l.
Proof. done. Qed.
Lemma encode_all_app l k : encode_all (l ++ k) = encode_all l ++ encode_all k.
Proof. unfold encode_all. by rewrite map_app, concat_app. Qed.

Lemma packet_length p code id auth l : packet p code id auth l ->
  pk_length p = Done (Z.of_nat (20 + length (encode_all l))).
Proof.
  intros [_ Hs [junk ->] _ _]. unfold pk_length. rewrite read_app by (done || by rewrite length_be_bytes). obind.
  rewrite be_val2 by lia. done.
Qed.
Lemma packet_auth p code id auth l : packet p code id auth l -> pk_authenticator p = Done auth.
Proof.
  intros [_ _ [junk ->] _ Ha]. unfold pk_authenticator. rewrite app_assoc. apply read_app; [|done].
  by rewrite length_app, length_be_bytes.
Qed.

(** The head of an attribute in memory. *)
Lemma attr_bytes pre a r :
  byte_at (pre ++ encode a ++ r) (length pre) = Done (a_type a) /\
  byte_at (pre ++ encode a ++ r) (length pre + 1) = Done (Z.of_nat (length (a_value a)) + 2).
Proof. split; [rewrite <- (Nat.add_0_r (length pre)) at 1|]; by apply byte_at_app. Qed.
Lemma attr_vendor pre a r : (6 <= length (a_value a))%nat ->
  exists vt, read (pre ++ encode a ++ r) (length pre + 2) 4 = Done (take 4 (a_value a)) /\
    byte_at (pre ++ encode a ++ r) (length pre + 6) = Done vt /\ a_value a !! 4%nat = Some vt.
Proof.
  intros Hl. destruct (lookup_lt_is_Some_2 (a_value a) 4 ltac:(lia)) as [vt Hv]. exists vt. split; [|split; [|done]].
  - unfold encode. rewrite <- (app_assoc [_; _]), (app_assoc pre).
    rewrite <- (take_drop 4 (a_value a)) at 2. rewrite <- (app_assoc (take 4 _)).
    apply read_app; [by rewrite length_app|rewrite length_take; lia].
  - by apply byte_at_app.
Qed.

Lemma getnextattr_loop_ok l : forall fuel pre junk off type vid vt (instance count : Z),
  Forall attr_ok l -> length pre = (20 + off)%nat -> (length l < fuel)%nat -> 0 <= count <= instance ->
  match find_attr type vid vt (Z.to_nat (instance - count)) (20 + off) l with
  | Some t => getnextattr_loop fuel (pre ++ encode_all l ++ junk) (Z.of_nat (off + length (encode_all l)))
                (Z.of_nat off) type vid vt instance count =
                Done (Some (t, Z.of_nat (behind type vid vt (Z.to_nat (instance - count)) off l)))
  | None => getnextattr_loop fuel (pre ++ encode_all l ++ junk) (Z.of_nat (off + length (encode_all l)))
              (Z.of_nat off) type vid vt instance count = Done None
  end.
Proof.
  induction l as [|a l IH]; intros fuel pre junk off type vid vt instance count Hok Hpre Hf Hc;
    (destruct fuel as [|fuel]; [cbn in Hf; lia|]); cbn [find_attr behind getnextattr_loop].
  { rewrite (proj2 (Z.ltb_ge _ _)) by (cbn; lia). done. }
  apply Forall_cons in Hok as [[Hty Hb Hlen Hven] Hok]. rewrite encode_all_cons, length_app, length_encode.
  rewrite (proj2 (Z.ltb_lt _ _)), <- app_assoc by lia. unfold RADIUS_HDRSIZE. rewrite Nat2Z.id, <- Hpre.
  destruct (attr_bytes pre a (encode_all l ++ junk)) as [Ht Hl]. rewrite Hl. obind. rewrite Ht. obind.
  rewrite (proj2 (Z.eqb_neq (a_type a) 0)), (proj2 (Z.ltb_ge _ 2)) by lia. cbn [orb].
  specialize (IH fuel (pre ++ encode a) junk (off + (length (a_value a) + 2))%nat type vid vt instance).
  rewrite <- (app_assoc pre), length_app, length_encode in IH.
  replace (Z.of_nat (off + (length (a_value a) + 2) + length (encode_all l)))
    with (Z.of_nat (off + (length (a_value a) + 2 + length (encode_all l)))) in IH by lia.
  replace (Z.of_nat (off + (length (a_value a) + 2)))
    with (Z.of_nat off + (Z.of_nat (length (a_value a)) + 2)) in IH by lia.
  replace (20 + (off + (length (a_value a) + 2)))%nat with (length pre + (length (a_value a) + 2))%nat in IH by lia.
  cbn [length] in Hf. unfold matches. destruct (a_type a =? type) eqn:Hta; cbn [negb andb].
  2: { apply IH; [done|lia|lia|done]. }
  apply Z.eqb_eq in Hta. subst type. set (vend := (a_type a =? RADIUS_ATTR_VENDOR_SPECIFIC) && negb (vid =? 0)) in *.
  assert (Hskip : exists skip, (if vend then i ← read (pre ++ encode a ++ encode_all l ++ junk) (length pre + 2) 4;
      if negb (be_val i =? vid) then Done true
      else x ← byte_at (pre ++ encode a ++ encode_all l ++ junk) (length pre + 6); Done (negb (x =? vt))
      else Done false) = @Done unit _ skip /\
      negb vend || ((be_val (take 4 (a_value a)) =? vid) && bool_decide (a_value a !! 4%nat = Some vt)) = negb skip).
  { destruct vend eqn:Hv; [|by exists false]. apply andb_true_iff in Hv as [Hv _].
    destruct (attr_vendor pre a (encode_all l ++ junk)) as (x & -> & Hx & Hx4); [apply Hven; lia|]. obind.
    destruct (be_val _ =? vid); [|by exists true]. cbn [negb]. rewrite Hx. obind. exists (negb (x =? vt)).
    split; [done|]. rewrite Hx4, negb_involutive. cbn [orb andb].
    destruct (Z.eqb_spec x vt) as [->|Hne]; [by rewrite bool_decide_true|]. apply bool_decide_false. congruence. }
  destruct Hskip as (skip & -> & ->). obind. destruct skip; cbn [negb]; [apply IH; [done|lia|lia|done]|].
  destruct (Z.eqb_spec count instance) as [->|Hne].
  - rewrite Z.sub_diag. change (Z.to_nat 0) with 0%nat. cbv iota. do 3 f_equal. lia.
  - replace (Z.to_nat (instance - count)) with (S (Z.to_nat (instance - (count + 1)))) by lia.
    apply IH; [done|lia|lia|lia].
Qed.

Lemma length_attrs l : Forall attr_ok l -> (length l <= length (encode_all l))%nat.
Proof.
  induction 1 as [|a l _ _ IH]; [done|]. rewrite encode_all_cons, length_app, length_encode. cbn [length]. lia.
Qed.

Lemma getattr_ok p code id auth l type vid vt instance :
  packet p code id auth l -> 0 <= instance ->
  radius_getattr p type vid vt instance = Done (find_attr type vid vt (Z.to_nat instance) 20 l).
Proof.
  intros Hp Hi. unfold radius_getattr, radius_getnextattr. rewrite (packet_length _ _ _ _ _ Hp). obind.
  destruct Hp as [Hok Hs [junk ->] Hl Ha]. unfold RADIUS_HDRSIZE.
  rewrite u32_small by (unfold is_u32, in_w; lia).
  replace (Z.of_nat (20 + length (encode_all l)) - Z.of_nat 20) with (Z.of_nat (0 + length (encode_all l))) by lia.
  set (pre := [code; id] ++ be_bytes 2 (Z.of_nat (20 + length (encode_all l))) ++ auth).
  assert (Hpre : length pre = (20 + 0)%nat) by (unfold pre; rewrite !length_app, length_be_bytes, Ha; done).
  replace ([code; id] ++ _) with (pre ++ encode_all l ++ junk) by (unfold pre; by rewrite <- !app_assoc).
  pose proof (getnextattr_loop_ok l (S (length (encode_all l))) pre junk 0 type vid vt instance 0 Hok Hpre
    ltac:(pose proof (length_attrs l Hok); lia) ltac:(lia)) as Hloop.
  rewrite Z.sub_0_r in Hloop. change (20 + 0)%nat with 20%nat in Hloop. change (Z.of_nat 0) with 0 in Hloop.
  rewrite Nat2Z.id. change (0 + ?n)%nat with n in *.
  destruct (find_attr _ _ _ _ _ _) as [t|]; by rewrite Hloop.
Qed.

(** *** Adding an attribute *)

(** The bytes [radius_addattr] stores for its arguments, [n] of them. *)
Definition stored (data : option bytes) (dlen : Z) (value : Z) (n : nat) : bytes :=
  match data with
  | Some d => take n d
  | None => if negb (dlen =? 0) then replicate n 0 else be_bytes 4 value
  end.
Definition value_length (max dlen : Z) : nat :=
  Z.to_nat (let vlen := if negb (dlen =? 0) then dlen else 4 in if max <? vlen then max else vlen).
(** Data, if there is any, is as long as announced. *)
Definition data_ok (data : option bytes) (dlen : Z) : Prop :=
  0 <= dlen < 65536 /\ match data with Some d => is_bytes d /\ (Z.to_nat dlen <= length d)%nat /\ dlen <> 0 | None => True end.

Lemma stored_ok data dlen value max :
  data_ok data dlen -> 4 <= max ->
  length (stored data dlen value (value_length max dlen)) = value_length max dlen /\
  is_bytes (stored data dlen value (value_length max dlen)).
Proof.
  intros [Hd Hdata] Hmax. unfold stored, value_length. destruct data as [d|].
  - destruct Hdata as (Hb & Hl & Hz). rewrite (proj2 (Z.eqb_neq dlen 0)) by done. cbn [negb].
    split; [|auto with cint]. rewrite length_take. destruct (max <? dlen) eqn:E; [apply Z.ltb_lt in E|]; lia.
  - destruct (Z.eqb_spec dlen 0) as [->|]; cbn [negb].
    + rewrite (proj2 (Z.ltb_ge max 4)) by lia. rewrite length_be_bytes. auto with cint.
    + rewrite length_replicate. split; [done|]. apply is_bytes_replicate. solve_bytes.
Qed.

(** The memory of a packet that an attribute of [n] bytes will be put into. *)
Lemma packet_room p code id auth l n :
  packet p code id auth l -> (20 + length (encode_all l) + n <= 1600)%nat ->
  exists r junk, length r = n /\
    p = [code; id] ++ be_bytes 2 (Z.of_nat (20 + length (encode_all l))) ++ auth ++ encode_all l ++ r ++ junk.
Proof.
  intros [_ _ [junk ->] Hl Ha] Hn. rewrite !length_app, length_be_bytes, Ha in Hl. cbn [length] in Hl.
  exists (take n junk), (drop n junk). rewrite take_drop, length_take. split; [lia|done].
Qed.
Lemma packet_snoc code id auth l a junk p :
  Forall attr_ok l -> attr_ok a -> length auth = 16%nat ->
  p = [code; id] ++ be_bytes 2 (Z.of_nat (20 + length (encode_all l)) + Z.of_nat (length (a_value a)) + 2) ++
      auth ++ encode_all l ++ encode a ++ junk ->
  length p = 1600%nat -> packet p code id auth (l ++ [a]).
Proof.
  intros Hok Hoa Ha Hp Hl. assert (He : encode_all (l ++ [a]) = encode_all l ++ encode a).
  { rewrite encode_all_app. unfold encode_all at 2. cbn [map concat]. by rewrite app_nil_r. }
  assert (Hlen : length p = length p) by done. rewrite Hp in Hlen at 2.
  rewrite !length_app, length_be_bytes, Ha, length_encode in Hlen. cbn [length] in Hlen.
  constructor; [apply Forall_app; auto|..|done|done]; rewrite ?He, ?length_app, ?length_encode; [lia|].
  exists junk. rewrite <- app_assoc, Hp. do 3 f_equal. lia.
Qed.

(** [set_length] and the attribute itself. *)
Lemma put_attr code id n m auth enc r junk head v :
  length auth = 16%nat -> length r = (length head + length v)%nat ->
  (p ← set_length ([code; id] ++ be_bytes 2 n ++ auth ++ enc ++ r ++ junk) m;
   p ← memcpy p (20 + length enc) head;
   memcpy p (20 + length enc + length head) v) =
  Done ([code; id] ++ be_bytes 2 m ++ auth ++ enc ++ head ++ v ++ junk).
Proof.
  intros Ha Hr. unfold set_length. rewrite memcpy_app by (by rewrite ?length_be_bytes). obind.
  rewrite <- (take_drop (length head) r), <- (app_assoc (take _ r)).
  set (pre := [code; id] ++ be_bytes 2 m ++ auth ++ enc).
  assert (Hpre : length pre = (20 + length enc)%nat) by (unfold pre; rewrite !length_app, length_be_bytes, Ha; cbn; lia).
  assert (Hass : forall x, [code; id] ++ be_bytes 2 m ++ auth ++ enc ++ x = pre ++ x)
    by (intros x; unfold pre; by rewrite <- !app_assoc).
  rewrite !Hass, memcpy_app by (done || rewrite length_take; lia). obind. rewrite app_assoc.
  rewrite memcpy_app by (rewrite ?length_app, ?length_drop; lia). by rewrite <- app_assoc.
Qed.

Lemma bind_third {E A B C F} (m : outcome E A) (f : A -> outcome E B) (g g' : B -> outcome E C) (x : C)
    (j : C -> outcome E F) :
  (a ← m; b ← f a; g b) = Done x -> (forall b, g' b = g b) -> (a ← m; b ← f a; c ← g' b; j c) = j x.
Proof.
  intros Hx Hg. destruct m as [a|?|]; [revert Hx; obind|discriminate|discriminate].
  destruct (f a) as [b|?|]; [obind; intros Hx|discriminate|discriminate]. by rewrite Hg, Hx.
Qed.
(** The copy of the value. *)
Lemma store_value data dlen value max pack pos :
  data_ok data dlen -> 4 <= max ->
  match data with
  | Some d => d ← read d 0 (value_length max dlen); memcpy pack pos d
  | None => if negb (dlen =? 0) then memcpy pack pos (replicate (value_length max dlen) 0)
            else memcpy pack pos (be_bytes 4 value)
  end = memcpy pack pos (stored data dlen value (value_length max dlen)).
Proof.
  intros [Hd Hdata] Hmax. unfold stored. destruct data as [d|]; [|by destruct (dlen =? 0)].
  destruct Hdata as (Hb & Hl & Hz). rewrite read_ok; [by obind|]. unfold value_length.
  rewrite (proj2 (Z.eqb_neq dlen 0)) by done. cbn [negb]. destruct (max <? dlen) eqn:E; [apply Z.ltb_lt in E|]; lia.
Qed.

Lemma addattr_plain_ok p code id auth l type value data dlen :
  packet p code id auth l -> 1 <= type < 256 -> type <> RADIUS_ATTR_VENDOR_SPECIFIC -> data_ok data dlen ->
  let v := stored data dlen value (value_length RADIUS_ATTR_VLEN dlen) in
  if decide (20 + length (encode_all l) + length v + 2 <= 1600)%nat then
    exists p', addattr_plain p (Z.of_nat (20 + length (encode_all l))) type value data dlen = Done (0, p') /\
      packet p' code id auth (l ++ [Attr type v])
  else addattr_plain p (Z.of_nat (20 + length (encode_all l))) type value data dlen = Done (-1, p).
Proof.
  intros Hp Hty Hnv Hd v. destruct (stored_ok data dlen value RADIUS_ATTR_VLEN Hd ltac:(done)) as [Hlv Hvb]. fold v in Hlv, Hvb.
  set (n := value_length RADIUS_ATTR_VLEN dlen) in *. unfold addattr_plain.
  assert (Hn : (if RADIUS_ATTR_VLEN <? (if negb (dlen =? 0) then dlen else 4) then RADIUS_ATTR_VLEN
                else if negb (dlen =? 0) then dlen else 4) = Z.of_nat n /\ (n <= 253)%nat).
  { unfold n, value_length, RADIUS_ATTR_VLEN. destruct Hd as [Hd _]. cbv zeta.
    destruct (dlen =? 0); cbn [negb]; [cbn; lia|]. destruct (Z.ltb_spec 253 dlen); lia. }
  destruct Hn as [Hn Hn253]. cbv zeta. rewrite Hn. unfold RADIUS_PACKSIZE. rewrite Nat2Z.id. rewrite Hlv. case_decide as Hfit.
  2: { by rewrite (proj2 (Z.ltb_lt _ _)) by lia. }
  rewrite (proj2 (Z.ltb_ge _ _)) by lia. rewrite u8_small by (unfold is_u8, in_w; lia).
  destruct (packet_room p code id auth l (2 + n) Hp ltac:(lia)) as (r & junk & Hr & Hmem).
  pose proof (put_attr code id (Z.of_nat (20 + length (encode_all l))) (Z.of_nat (20 + length (encode_all l)) + Z.of_nat n + 2)
    auth (encode_all l) r junk [type; Z.of_nat n + 2] v (pa_auth _ _ _ _ _ Hp) ltac:(cbn; lia)) as Hput.
  rewrite <- Hmem in Hput. rewrite (bind_third _ _ _ _ _ _ Hput) by (intros b; rewrite Nat2Z.id; by apply store_value).
  eexists. split; [reflexivity|].
  apply (packet_snoc code id auth l (Attr type v) junk); [apply Hp| |apply Hp| |].
  - constructor; cbn [a_type a_value]; [lia|done|lia|done].
  - cbn [a_value]. rewrite Hlv. unfold encode. cbn [a_type a_value]. by rewrite Hlv, <- (app_assoc [_; _]).
  - pose proof (pa_length _ _ _ _ _ Hp) as Hl. rewrite Hmem in Hl. revert Hl.
    rewrite !length_app, !length_be_bytes. cbn [length]. lia.
Qed.

(** Two copies one behind the other are one. *)
Lemma memcpy_memcpy p pos a b : (p ← memcpy p pos a; memcpy p (pos + length a) b) = memcpy p pos (a ++ b).
Proof.
  unfold memcpy. destruct (splice pos a p) as [p'|] eqn:Hs; obind.
  - by rewrite (splice_splice_app _ _ _ _ _ Hs).
  - revert Hs. unfold splice. rewrite length_app. repeat case_decide; done || lia.
Qed.
Definition vendor_value (vendor_id vendor_type : Z) (w : bytes) : bytes :=
  be_bytes 4 vendor_id ++ [vendor_type; Z.of_nat (length w) + 2] ++ w.
Lemma length_vendor vid vt w : length (vendor_value vid vt w) = (length w + 6)%nat.
Proof. unfold vendor_value. rewrite !length_app, length_be_bytes. cbn. lia. Qed.

Lemma addattr_vendor_ok p code id auth l vid vt value data dlen :
  packet p code id auth l -> is_u8 vt -> data_ok data dlen -> dlen <= 245 ->
  let v := vendor_value vid vt (stored data dlen value (value_length (RADIUS_ATTR_VLEN - 8) dlen)) in
  (20 + length (encode_all l) + length v + 2 <= 1600)%nat ->
  exists p', addattr_vendor p (Z.of_nat (20 + length (encode_all l))) RADIUS_ATTR_VENDOR_SPECIFIC vid vt value data dlen =
      Done (0, p') /\ packet p' code id auth (l ++ [Attr RADIUS_ATTR_VENDOR_SPECIFIC v]).
Proof.
  intros Hp Hvt Hd Hd245 v Hfit.
  destruct (stored_ok data dlen value (RADIUS_ATTR_VLEN - 8) Hd ltac:(done)) as [Hlw Hwb].
  set (w := stored _ _ _ _) in *. set (n := value_length (RADIUS_ATTR_VLEN - 8) dlen) in *. unfold addattr_vendor.
  assert (Hn : (if negb (dlen =? 0) then dlen else 4) = Z.of_nat n /\ (n <= 245)%nat).
  { unfold n, value_length, RADIUS_ATTR_VLEN. destruct Hd as [Hd _]. cbv zeta.
    destruct (dlen =? 0); cbn [negb]; [change (253 - 8 <? 4) with false; lia|]. destruct (Z.ltb_spec (253 - 8) dlen); lia. }
  destruct Hn as [Hn Hn245]. cbv zeta. rewrite Hn. unfold RADIUS_PACKSIZE. rewrite !Nat2Z.id.
  assert (Hlv : length v = (n + 6)%nat) by (unfold v; rewrite length_vendor; lia).
  rewrite (proj2 (Z.ltb_ge (RADIUS_ATTR_VLEN - 8) _)) by (unfold RADIUS_ATTR_VLEN; lia).
  rewrite (proj2 (Z.ltb_ge 1600 _)) by lia. rewrite !u8_small by (unfold is_u8, in_w; lia).
  destruct (packet_room p code id auth l (2 + (n + 6)) Hp ltac:(lia)) as (r & junk & Hr & Hmem).
  pose proof (put_attr code id (Z.of_nat (20 + length (encode_all l))) (Z.of_nat (20 + length (encode_all l)) + Z.of_nat n + 8)
    auth (encode_all l) r junk [RADIUS_ATTR_VENDOR_SPECIFIC; Z.of_nat n + 8] v (pa_auth _ _ _ _ _ Hp) ltac:(cbn; lia)) as Hput.
  rewrite <- Hmem in Hput. set (a := (20 + length (encode_all l))%nat) in *.
  assert (Hcopy : forall b, (b ← memcpy b (a + 2) (be_bytes 4 vid); b ← memcpy b (a + 6) [vt; Z.of_nat n + 2];
      match data with
      | Some d => d ← read d 0 (Z.to_nat dlen); memcpy b (a + 8) d
      | None => if negb (dlen =? 0) then memcpy b (a + 8) (replicate (Z.to_nat dlen) 0) else memcpy b (a + 8) (be_bytes 4 value)
      end) = memcpy b (a + 2) v).
  { intros b. unfold v, vendor_value. rewrite <- memcpy_memcpy, length_be_bytes, Hlw.
    replace (a + 2 + 4)%nat with (a + 6)%nat by lia. destruct (memcpy b (a + 2) (be_bytes 4 vid)) as [b1|?|]; [obind|done|done].
    rewrite <- memcpy_memcpy. replace (a + 6 + length _)%nat with (a + 8)%nat by (cbn; lia).
    destruct (memcpy b1 (a + 6) _) as [b2|?|]; [obind|done|done].
    pose proof (store_value data dlen value (RADIUS_ATTR_VLEN - 8) b2 (a + 8) Hd ltac:(done)) as Hst.
    fold n in Hst. fold w in Hst. rewrite <- Hst.
    destruct (Z.eqb_spec dlen 0) as [->|Hz]; cbn [negb] in *.
    - destruct data as [d|]; [destruct Hd as (_ & _ & _ & H0); done|done].
    - by replace (Z.to_nat dlen) with n by lia. }
  destruct (set_length p _) as [p1|?|]; [revert Hput; obind; intros Hput|discriminate Hput|discriminate Hput].
  destruct (memcpy p1 a _) as [p2|?|]; [revert Hput; obind; intros Hput|discriminate Hput|discriminate Hput].
  specialize (Hcopy p2). change (a + length _)%nat with (a + 2)%nat in Hput. rewrite Hput in Hcopy.
  rewrite (bind_third _ _ _ _ _ _ Hcopy) by done. eexists. split; [reflexivity|].
  apply (packet_snoc code id auth l (Attr RADIUS_ATTR_VENDOR_SPECIFIC v) junk); [apply Hp| |apply Hp| |].
  - constructor; cbn [a_type a_value]; [by unfold RADIUS_ATTR_VENDOR_SPECIFIC| |lia|lia].
    unfold v, vendor_value. apply is_bytes_app; [auto with cint|]. apply is_bytes_cons; [done|].
    apply is_bytes_cons; [unfold is_u8, in_w; lia|done].
  - cbn [a_value]. rewrite Hlv. unfold encode. cbn [a_type a_value]. rewrite Hlv, <- (app_assoc [_; _]). unfold a.
    do 3 f_equal; [lia|]. do 3 f_equal. f_equal. lia.
  - pose proof (pa_length _ _ _ _ _ Hp) as Hl. rewrite Hmem in Hl. revert Hl.
    rewrite !length_app, !length_be_bytes. cbn [length]. lia.
Qed.

(** *** The attribute that is found *)

Definition nmatches (type vid vt : Z) (l : list attr) : nat := length (List.filter (matches type vid vt) l).
Lemma find_attr_spec type vid vt l : forall n pos,
  match find_attr type vid vt n pos l with
  | Some t => exists l1 a l2, l = l1 ++ a :: l2 /\ matches type vid vt a = true /\ nmatches type vid vt l1 = n /\
      t = (pos + length (encode_all l1) + if ((type =? RADIUS_ATTR_VENDOR_SPECIFIC) && negb (vid =? 0))%Z then 6 else 0)%nat
  | None => (nmatches type vid vt l <= n)%nat
  end.
Proof.
  induction l as [|a l IH]; intros n pos; cbn [find_attr]; [cbn; lia|].
  unfold nmatches. cbn [List.filter]. destruct (matches type vid vt a) eqn:Hm.
  - destruct n as [|n].
    + exists [], a, l. split; [done|]. split; [done|]. split; [done|]. cbn. destruct (_ && _); lia.
    + specialize (IH n (pos + length (encode a))%nat). destruct (find_attr _ _ _ n _ l) as [t|].
      * destruct IH as (l1 & a' & l2 & -> & Hm' & Hn & ->). exists (a :: l1), a', l2. split; [done|]. split; [done|].
        unfold nmatches in *. cbn [List.filter]. rewrite Hm, encode_all_cons, length_app. cbn [length]. lia.
      * unfold nmatches in IH. cbn [length]. lia.
  - specialize (IH n (pos + length (encode a))%nat). destruct (find_attr _ _ _ n _ l) as [t|].
    + destruct IH as (l1 & a' & l2 & -> & Hm' & Hn & ->). exists (a :: l1), a', l2. split; [done|]. split; [done|].
      unfold nmatches in *. cbn [List.filter]. rewrite Hm, encode_all_cons, length_app. lia.
    + exact IH.
Qed.

(** *** What attributes carry *)

(** Of a vendor's attribute, what is behind its inner head. *)
Definition carried (type vid : Z) (a : attr) : bytes :=
  if (type =? RADIUS_ATTR_VENDOR_SPECIFIC) && negb (vid =? 0) then drop 6 (a_value a) else a_value a.
Definition values (type vid vt : Z) (l : list attr) : list bytes := map (carried type vid) (List.filter (matches type vid vt) l).
(** The inner length is that of what an attribute of this vendor carries. *)
Definition vsa_ok (vid : Z) (a : attr) : Prop :=
  a_type a = RADIUS_ATTR_VENDOR_SPECIFIC -> be_val (take 4 (a_value a)) = vid -> a_value a !! 5%nat = Some (Z.of_nat (length (a_value a)) - 4).
(** A value at a place of the packet that [radius_getattr] has found. *)
Definition holds (p : bytes) (t : nat) (v : bytes) : Prop :=
  byte_at p (t + 1) = Done (Z.of_nat (length v) + 2) /\ forall n, (n <= length v)%nat -> read p (t + 2) n = Done (take n v).

Lemma find_next type vid vt l : match values type vid vt l with
  | [] => forall pos, find_attr type vid vt 0 pos l = None
  | v :: vs => exists m a l', l = m ++ a :: l' /\ matches type vid vt a = true /\ v = carried type vid a /\ values type vid vt l' = vs /\
      (forall pos, find_attr type vid vt 0 pos l =
        Some (pos + length (encode_all m) + if ((type =? RADIUS_ATTR_VENDOR_SPECIFIC) && negb (vid =? 0))%Z then 6 else 0)%nat) /\
      forall off, behind type vid vt 0 off l = (off + length (encode_all (m ++ [a])))%nat
  end.
Proof.
  induction l as [|a l IH]; [done|]. unfold values. cbn [List.filter find_attr behind]. destruct (matches type vid vt a) eqn:Hm; cbn [map].
  - exists [], a, l. split; [done|]. split; [done|]. split; [done|]. split; [done|]. cbn [app encode_all map concat]. split; intros k.
    + cbn. f_equal. destruct (_ && _); lia.
    + rewrite app_nil_r, length_encode. done.
  - fold (values type vid vt l) in *. destruct (values type vid vt l) as [|v vs]; [by intros pos|].
    destruct IH as (m & a' & l' & -> & Hm' & -> & Hvs & Hf & Hb). exists (a :: m), a', l'. split; [done|]. split; [done|]. split; [done|]. split; [done|].
    split; intros k; [rewrite Hf|rewrite Hb]; cbn [app]; rewrite encode_all_cons, length_app; rewrite ?length_encode; [f_equal; lia|lia].
Qed.
Lemma holds_at pre a r type vid vt : attr_ok a -> (vid <> 0 -> vsa_ok vid a) -> matches type vid vt a = true ->
  holds (pre ++ encode a ++ r) (length pre + if ((type =? RADIUS_ATTR_VENDOR_SPECIFIC) && negb (vid =? 0))%Z then 6 else 0) (carried type vid a).
Proof.
  intros [_ _ _ Hlen] Hv Hm. unfold carried. destruct (_ && _) eqn:Hvend.
  - pose proof Hvend as Hvid. apply andb_true_iff in Hvid as [Ht Hvid]. unfold matches in Hm. rewrite Hvend in Hm. cbn [negb orb] in Hm.
    apply andb_true_iff in Hm as [Hm Hid]. apply andb_true_iff in Hid as [Hid _]. assert (Hty : a_type a = RADIUS_ATTR_VENDOR_SPECIFIC) by lia.
    specialize (Hlen Hty). specialize (Hv ltac:(lia) Hty ltac:(lia)). unfold encode. split.
    + rewrite <- (app_assoc [_; _]). unfold byte_at. rewrite lookup_app_r by lia. replace (length pre + 6 + 1 - length pre)%nat with (2 + 5)%nat by lia.
      cbn [app]. change (access ((a_value a ++ r) !! 5%nat) = Done (Z.of_nat (length (drop 6 (a_value a))) + 2) :> result Z).
      rewrite lookup_app_l by lia. rewrite Hv. cbn. f_equal. rewrite length_drop. lia.
    + intros n Hn. rewrite length_drop in Hn.
      replace (pre ++ ([a_type a; Z.of_nat (length (a_value a)) + 2] ++ a_value a) ++ r)
        with ((pre ++ [a_type a; Z.of_nat (length (a_value a)) + 2] ++ take 6 (a_value a)) ++ take n (drop 6 (a_value a)) ++ drop n (drop 6 (a_value a)) ++ r).
      2: { rewrite (app_assoc (take n _)), take_drop, <- !app_assoc. do 2 f_equal. rewrite app_assoc, take_drop. done. }
      apply read_app; rewrite ?length_app, ?length_take, ?length_drop; cbn [length]; lia.
  - rewrite Nat.add_0_r. split; [apply attr_bytes|]. intros n Hn. unfold encode.
    replace (pre ++ ([a_type a; Z.of_nat (length (a_value a)) + 2] ++ a_value a) ++ r)
      with ((pre ++ [a_type a; Z.of_nat (length (a_value a)) + 2]) ++ take n (a_value a) ++ drop n (a_value a) ++ r)
      by (rewrite (app_assoc (take n _)), take_drop, <- !app_assoc; done).
    apply read_app; rewrite ?length_app, ?length_take; cbn [length]; lia.
Qed.

(** The next attribute behind the first ones [l1]. *)
Lemma next_found p code id auth l1 l2 type vid vt : packet p code id auth (l1 ++ l2) -> (vid <> 0 -> Forall (vsa_ok vid) (l1 ++ l2)) ->
  let r := radius_getnextattr p type vid vt 0 (Z.of_nat (length (encode_all l1))) in
  match values type vid vt l2 with
  | [] => r = Done None
  | v :: vs => exists t l1' l2', r = Done (Some (t, Z.of_nat (length (encode_all l1')))) /\ l1 ++ l2 = l1' ++ l2' /\ (length l1 < length l1')%nat /\
      holds p t v /\ values type vid vt l2' = vs
  end.
Proof.
  intros Hp Hv r. unfold radius_getnextattr in r. pose proof (packet_length _ _ _ _ _ Hp) as Hlen. destruct Hp as [Hok Hs [junk Hmem] Hl Ha].
  unfold r. rewrite Hlen. obind. unfold RADIUS_HDRSIZE. rewrite u32_small by (unfold is_u32, in_w; lia).
  replace (Z.of_nat (20 + length (encode_all (l1 ++ l2))) - Z.of_nat 20) with (Z.of_nat (length (encode_all l1) + length (encode_all l2)))
    by (rewrite encode_all_app, length_app; lia).
  set (pre := [code; id] ++ be_bytes 2 (Z.of_nat (20 + length (encode_all (l1 ++ l2)))) ++ auth ++ encode_all l1).
  assert (Hpre : length pre = (20 + length (encode_all l1))%nat) by (unfold pre; rewrite !length_app, length_be_bytes, Ha; cbn; lia).
  assert (Hmem' : p = pre ++ encode_all l2 ++ junk) by (rewrite Hmem; unfold pre; by rewrite encode_all_app, <- !app_assoc).
  apply Forall_app in Hok as [_ Hok2]. pose proof (length_attrs l2 Hok2) as Hl2.
  pose proof (getnextattr_loop_ok l2 (S (Z.to_nat (Z.of_nat (length (encode_all l1) + length (encode_all l2))))) pre junk (length (encode_all l1))
    type vid vt 0 0 Hok2 Hpre ltac:(lia) ltac:(lia)) as Hloop.
  rewrite Z.sub_diag in Hloop. change (Z.to_nat 0) with 0%nat in Hloop. rewrite <- Hmem' in Hloop.
  pose proof (find_next type vid vt l2) as Hf. destruct (values type vid vt l2) as [|v vs]; [by rewrite Hf in Hloop|].
  destruct Hf as (m & a & l' & -> & Hm & -> & Hvs & Hf & Hb). rewrite Hf, Hb in Hloop. rewrite Hloop.
  exists (20 + length (encode_all l1) + length (encode_all m) + if ((type =? RADIUS_ATTR_VENDOR_SPECIFIC) && negb (vid =? 0))%Z then 6 else 0)%nat,
    (l1 ++ m ++ [a]), l'. split; [do 3 f_equal; by rewrite (encode_all_app l1), length_app, Nat2Z.inj_add|]. split; [by rewrite <- !app_assoc|].
  split; [rewrite !length_app; cbn; lia|]. split; [|done].
  replace (20 + length (encode_all l1) + length (encode_all m))%nat with (length (pre ++ encode_all m)) by (rewrite length_app, Hpre; lia).
  rewrite Hmem', encode_all_app, encode_all_cons.
  replace (pre ++ (encode_all m ++ encode a ++ encode_all l') ++ junk) with ((pre ++ encode_all m) ++ encode a ++ encode_all l' ++ junk) by (by rewrite <- !app_assoc).
  apply Forall_app in Hok2 as [_ [Hoka _]%Forall_cons]. apply (holds_at _ a _ type vid vt); [done| |done]. intros Hvid.
  by apply Hv, Forall_app in Hvid as [_ [_ [Hva _]%Forall_cons]%Forall_app].
Qed.
(** The first one. *)
Lemma attr_found p code id auth l type vid vt : packet p code id auth l -> (vid <> 0 -> Forall (vsa_ok vid) l) ->
  match head (values type vid vt l) with
  | None => radius_getattr p type vid vt 0 = Done None
  | Some v => exists t, radius_getattr p type vid vt 0 = Done (Some t) /\ holds p t v
  end.
Proof.
  intros Hp Hv. pose proof (next_found p code id auth [] l type vid vt Hp Hv) as H. cbv zeta in H. cbn [encode_all map concat length] in H.
  change (Z.of_nat 0) with 0 in H. unfold radius_getattr. destruct (values type vid vt l) as [|v vs]; cbn [head].
  - by rewrite H.
  - destruct H as (t & l1' & l2' & -> & _ & _ & Hh & _). by exists t.
Qed.
Lemma packet_read p code id auth l1 a l2 :
  packet p code id auth (l1 ++ a :: l2) ->
  read p (20 + length (encode_all l1)) (length (encode a)) = Done (encode a).
Proof.
  intros [_ _ [junk ->] _ Ha]. rewrite encode_all_app, encode_all_cons, <- !app_assoc.
  set (n := be_bytes 2 _). assert (Hn : length n = 2%nat) by apply length_be_bytes. clearbody n.
  rewrite (app_assoc [code; id]), (app_assoc (_ ++ n)), (app_assoc _ (encode_all l1)).
  apply read_app; [|done]. rewrite !length_app, Ha, Hn. cbn. lia.
Qed.

(** Storing a value over one of the same length. *)
Lemma packet_set_value p code id auth l1 a l2 v :
  packet p code id auth (l1 ++ a :: l2) -> length v = length (a_value a) -> is_bytes v ->
  exists p', memcpy p (20 + length (encode_all l1) + 2) v = Done p' /\
    packet p' code id auth (l1 ++ Attr (a_type a) v :: l2).
Proof.
  intros [Hok Hs [junk ->] Hl Ha] Hv Hb. apply Forall_app in Hok as [Hok1 [[Hty Hab Hlen Hven] Hok2]%Forall_cons].
  assert (Hsize : length (encode_all (l1 ++ Attr (a_type a) v :: l2)) = length (encode_all (l1 ++ a :: l2))).
  { rewrite !encode_all_app, !encode_all_cons, !length_app, !length_encode. cbn. lia. }
  set (n := be_bytes 2 _) in *. assert (Hn : length n = 2%nat) by apply length_be_bytes.
  rewrite encode_all_app, encode_all_cons, <- !app_assoc in Hl |- *. unfold encode at 1. rewrite <- !app_assoc.
  set (pre := [code; id] ++ n ++ auth ++ encode_all l1 ++ [a_type a; Z.of_nat (length (a_value a)) + 2]).
  exists (pre ++ v ++ encode_all l2 ++ junk). split.
  - transitivity (memcpy (pre ++ a_value a ++ encode_all l2 ++ junk) (20 + length (encode_all l1) + 2) v : result bytes).
    { unfold pre. by rewrite <- !app_assoc. }
    apply memcpy_app; [|done]. unfold pre. rewrite !length_app, Hn, Ha. cbn. lia.
  - assert (Heq : pre ++ v ++ encode_all l2 ++ junk =
        [code; id] ++ n ++ auth ++ encode_all (l1 ++ Attr (a_type a) v :: l2) ++ junk).
    { unfold pre. rewrite encode_all_app, encode_all_cons. unfold encode at 1. cbn [a_type a_value]. by rewrite Hv, <- !app_assoc. }
    constructor.
    + apply Forall_app. split; [done|]. constructor; [|done]. constructor; cbn; rewrite ?Hv; done.
    + by rewrite Hsize.
    + exists junk. by rewrite Heq, Hsize.
    + rewrite <- Hl. unfold pre, encode. rewrite !length_app, Hv. cbn. lia.
    + done.
Qed.

Section Theorems.
Context `{Digest}.

(** The value of the attribute that [radius_addattr] adds. *)
Definition attr_value (type vid vt value : Z) (data : option bytes) (dlen : Z) : bytes :=
  if type =? RADIUS_ATTR_VENDOR_SPECIFIC
  then vendor_value vid vt (stored data dlen value (value_length (RADIUS_ATTR_VLEN - 8) dlen))
  else stored data dlen value (value_length RADIUS_ATTR_VLEN dlen).

Lemma addattr_ok secret p code id auth l type vid vt value data dlen :
  packet p code id auth l -> 1 <= type < 256 -> type <> RADIUS_ATTR_USER_PASSWORD -> is_u8 vt -> data_ok data dlen ->
  (type = RADIUS_ATTR_VENDOR_SPECIFIC -> dlen <= 245) ->
  (20 + length (encode_all l) + length (attr_value type vid vt value data dlen) + 2 <= 1600)%nat ->
  exists p', radius_addattr secret p type vid vt value data dlen = Done (0, p') /\
    packet p' code id auth (l ++ [Attr type (attr_value type vid vt value data dlen)]).
Proof.
  intros Hp Hty Hpw Hvt Hd Hven Hfit. unfold radius_addattr. rewrite (packet_length _ _ _ _ _ Hp). obind.
  rewrite (proj2 (Z.eqb_neq type RADIUS_ATTR_USER_PASSWORD)) by done. obind. unfold attr_value in *.
  destruct (Z.eqb_spec type RADIUS_ATTR_VENDOR_SPECIFIC) as [->|Hnv]; cbn [negb].
  - by apply (addattr_vendor_ok p code id auth l); auto.
  - pose proof (addattr_plain_ok p code id auth l type value data dlen Hp Hty Hnv Hd) as Hadd. cbv zeta in Hadd.
    by rewrite decide_True in Hadd by lia.
Qed.

(** C38: a packet of well-formed attributes (a vendor's has at least six bytes) is a
    list of attributes for the functions on attributes. When there is room,
    [radius_addattr] with any type but User-Password (which it hides) and, for a
    vendor's attribute, at most 245 bytes (of more it would write past the packet's
    length: see [vendor_long]) puts the attribute behind the others. [radius_getattr] on
    the result skips as many matching attributes as [instance] says and finds the next
    that matches the type (and the vendor and the vendor's type, if a vendor is asked
    for), where its bytes are; it finds none exactly when there are not so many. *)
Theorem radius_addattr_getattr secret p code id auth l type vid vt value data dlen :
  packet p code id auth l -> 1 <= type < 256 -> type <> RADIUS_ATTR_USER_PASSWORD -> is_u8 vt -> data_ok data dlen ->
  (type = RADIUS_ATTR_VENDOR_SPECIFIC -> dlen <= 245) ->
  (20 + length (encode_all l) + length (attr_value type vid vt value data dlen) + 2 <= 1600)%nat ->
  exists p' l', radius_addattr secret p type vid vt value data dlen = Done (0, p') /\
    l' = l ++ [Attr type (attr_value type vid vt value data dlen)] /\ packet p' code id auth l' /\
    forall type' vid' vt' (instance : nat), exists r,
      radius_getattr p' type' vid' vt' (Z.of_nat instance) = Done r /\
      match r with
      | Some t => exists l1 a l2, l' = l1 ++ a :: l2 /\ matches type' vid' vt' a = true /\
          nmatches type' vid' vt' l1 = instance /\
          t = (20 + length (encode_all l1) +
               if ((type' =? RADIUS_ATTR_VENDOR_SPECIFIC) && negb (vid' =? 0))%Z then 6 else 0)%nat /\
          read p' (20 + length (encode_all l1)) (length (encode a)) = Done (encode a)
      | None => (nmatches type' vid' vt' l' <= instance)%nat
      end.
Proof.
  intros Hp Hty Hpw Hvt Hd Hven Hfit.
  destruct (addattr_ok secret p code id auth l type vid vt value data dlen) as (p' & Hadd & Hp'); try done.
  exists p', (l ++ [Attr type (attr_value type vid vt value data dlen)]). split; [done|]. split; [done|]. split; [done|].
  intros type' vid' vt' instance. eexists. split; [apply (getattr_ok p' code id auth); [done|lia]|]. rewrite Nat2Z.id.
  set (l' := l ++ _) in *. clearbody l'. pose proof (find_attr_spec type' vid' vt' l' instance 20) as Hs.
  destruct (find_attr _ _ _ _ _ l') as [t|]; [|done].
  destruct Hs as (l1 & a & l2 & -> & Hm & Hn & Ht). exists l1, a, l2. split; [done|]. split; [done|]. split; [done|].
  split; [done|]. by eapply packet_read.
Qed.

(** The password attribute. *)
Lemma addattr_password secret p code id auth l pw vid vt value :
  packet p code id auth l -> good_secret secret -> is_bytes auth -> is_bytes pw -> (0 < length pw <= 128)%nat ->
  let c := seal secret ((length pw + 15) / 16) auth (padded pw) in
  (20 + length (encode_all l) + length c + 2 <= 1600)%nat ->
  exists p', radius_addattr secret p RADIUS_ATTR_USER_PASSWORD vid vt value (Some pw) (Z.of_nat (length pw)) = Done (0, p') /\
    packet p' code id auth (l ++ [Attr RADIUS_ATTR_USER_PASSWORD c]).
Proof.
  intros Hp Hs Hab Hpw Hlen c Hfit. pose proof (length_padded pw) as Hlp.
  destruct (seal_ok secret ((length pw + 15) / 16) auth (padded pw) (proj1 Hs) Hab (is_bytes_padded pw Hpw) Hlp) as (H1 & H2 & _).
  fold c in H1, H2. assert (Hc : (0 < length c <= 128)%nat).
  { rewrite H1. pose proof (Nat.div_str_pos (length pw + 15) 16 ltac:(lia)).
    pose proof (Nat.Div0.div_le_mono (length pw + 15) 143 16 ltac:(lia)) as Hm. change (143 / 16)%nat with 8%nat in Hm. lia. }
  unfold radius_addattr. rewrite (packet_length _ _ _ _ _ Hp). obind.
  change (RADIUS_ATTR_USER_PASSWORD =? RADIUS_ATTR_USER_PASSWORD) with true. cbn match.
  rewrite (packet_auth _ _ _ _ _ Hp). obind. change (default [] (Some pw)) with pw.
  change RADIUS_PWSIZE with (Z.of_nat 128). rewrite Nat2Z.id.
  rewrite (pwencode_ok (replicate 128 0) 128 pw auth secret) by
    first [done | apply Hp | rewrite length_replicate; lia]. obind. fold c.
  change (negb (RADIUS_ATTR_USER_PASSWORD =? RADIUS_ATTR_VENDOR_SPECIFIC)) with true. cbn match.
  rewrite u16_small by (unfold is_u16, in_w; lia). rewrite Hlp, <- H1.
  set (d := c ++ _). assert (Hdata : data_ok (Some d) (Z.of_nat (length c))).
  { split; [lia|]. split; [|split; [unfold d; rewrite length_app; lia|lia]].
    apply is_bytes_app; [done|]. apply is_bytes_app; [apply is_bytes_replicate; solve_bytes|].
    apply is_bytes_drop, is_bytes_replicate. solve_bytes. }
  pose proof (addattr_plain_ok p code id auth l RADIUS_ATTR_USER_PASSWORD value (Some d) (Z.of_nat (length c)) Hp
    ltac:(done) ltac:(done) Hdata) as Hadd. cbv zeta in Hadd.
  assert (Hst : stored (Some d) (Z.of_nat (length c)) value (value_length RADIUS_ATTR_VLEN (Z.of_nat (length c))) = c).
  { unfold stored, value_length, RADIUS_ATTR_VLEN. rewrite (proj2 (Z.eqb_neq _ 0)) by lia. cbn [negb].
    rewrite (proj2 (Z.ltb_ge _ _)), Nat2Z.id by lia. unfold d. apply take_app_length. }
  rewrite Hst in Hadd. by rewrite decide_True in Hadd by lia.
Qed.

(** *** Authenticators *)

(** The digest of a packet in which [a] stands in the place of the authenticator. *)
Definition packet_digest (code id : Z) (a : bytes) (l : list attr) (secret : bytes) : bytes :=
  hash ([code; id] ++ be_bytes 2 (Z.of_nat (20 + length (encode_all l))) ++ a ++ encode_all l ++ secret).

Lemma is_bytes_encode_all l : Forall attr_ok l -> is_bytes (encode_all l).
Proof.
  induction 1 as [|a l [Hty Hb Hlen _] _ IH]; [constructor|]. rewrite encode_all_cons. apply is_bytes_app; [|done].
  unfold encode. apply is_bytes_cons; [unfold is_u8, in_w; lia|]. apply is_bytes_cons; [unfold is_u8, in_w; lia|done].
Qed.
(** Changing the authenticator. *)
Lemma packet_set_auth p code id auth l a :
  packet p code id auth l -> length a = 16%nat ->
  exists p', memcpy p 4 a = Done p' /\ packet p' code id a l.
Proof.
  intros [Hok Hs [junk ->] Hl Ha] Hla. rewrite app_assoc in Hl |- *.
  rewrite memcpy_app by (rewrite ?length_app, ?length_be_bytes; done || lia). eexists. split; [reflexivity|].
  constructor; [done|done| | |done].
  - exists junk. by rewrite <- app_assoc.
  - rewrite <- Hl, !length_app. lia.
Qed.
Lemma packet_text p code id auth l :
  packet p code id auth l ->
  read p 0 (20 + length (encode_all l)) =
  Done ([code; id] ++ be_bytes 2 (Z.of_nat (20 + length (encode_all l))) ++ auth ++ encode_all l).
Proof.
  intros [_ _ [junk ->] _ Ha]. rewrite (app_assoc auth), (app_assoc (be_bytes _ _)), (app_assoc [_; _]).
  apply read_head. rewrite !length_app, length_be_bytes, Ha. cbn. lia.
Qed.

Lemma is_bytes_text code id n a l r :
  is_u8 code -> is_u8 id -> is_bytes a -> Forall attr_ok l -> is_bytes r ->
  is_bytes ([code; id] ++ be_bytes 2 n ++ a ++ encode_all l ++ r).
Proof.
  intros Hc Hi Ha Hl Hr. apply is_bytes_cons; [done|]. apply is_bytes_cons; [done|].
  apply is_bytes_app; [auto with cint|].
  apply is_bytes_app; [done|]. apply is_bytes_app; [by apply is_bytes_encode_all|done].
Qed.

Lemma sign_ok p code id auth l a secret :
  packet p code id auth l -> good_secret secret -> is_u8 code -> is_u8 id -> is_bytes a -> length a = 16%nat ->
  exists p', (p ← memcpy p 4 a; n ← pk_length p; text ← read p 0 (Z.to_nat n); d ← digest [text; secret]; memcpy p 4 d) =
    Done p' /\ packet p' code id (packet_digest code id a l secret) l.
Proof.
  intros Hp [Hs Hls] Hc Hi Hab Hla. destruct (packet_set_auth _ _ _ _ _ a Hp Hla) as (p1 & -> & Hp1). obind.
  rewrite (packet_length _ _ _ _ _ Hp1). obind. rewrite Nat2Z.id, (packet_text _ _ _ _ _ Hp1). obind.
  pose proof (pa_ok _ _ _ _ _ Hp) as Hl. pose proof (pa_size _ _ _ _ _ Hp) as Hsz.
  assert (Ht : is_bytes ([code; id] ++ be_bytes 2 (Z.of_nat (20 + length (encode_all l))) ++ a ++ encode_all l)).
  { rewrite <- (app_nil_r (encode_all l)). apply is_bytes_text; try done. constructor. }
  rewrite digest_pieces by (pieces_ok; rewrite !length_app, length_be_bytes, Hla; cbn [length]; lia). obind.
  cbn [concat]. rewrite app_nil_r, <- !app_assoc. fold (packet_digest code id a l secret).
  destruct (packet_set_auth _ _ _ _ _ (packet_digest code id a l secret) Hp1) as (p2 & Hm & Hp2); [|by exists p2].
  apply length_hash. by apply is_bytes_text.
Qed.

(** What is sent behind the header need not be attributes. *)
Definition raw_digest (code id : Z) (a w secret : bytes) : bytes :=
  hash ([code; id] ++ be_bytes 2 (Z.of_nat (20 + length w)) ++ a ++ w ++ secret).
Lemma authenticated_raw code id auth w junk a secret :
  length auth = 16%nat -> is_bytes w -> (20 + length w <= 1600)%nat ->
  good_secret secret -> is_u8 code -> is_u8 id -> is_bytes a -> length a = 16%nat ->
  authenticated ([code; id] ++ be_bytes 2 (Z.of_nat (20 + length w)) ++ auth ++ w ++ junk) a secret =
  Done (bool_decide (auth = raw_digest code id a w secret)).
Proof.
  intros Hla' Hw Hsz [Hs Hls] Hc Hi Hab Hla. set (n := be_bytes 2 _). assert (Hn : length n = 2%nat) by apply length_be_bytes.
  assert (Hplen : pk_length ([code; id] ++ n ++ auth ++ w ++ junk) = Done (Z.of_nat (20 + length w))).
  { unfold pk_length. rewrite read_app by done. obind. unfold n. by rewrite be_val2 by lia. }
  assert (Hpauth : pk_authenticator ([code; id] ++ n ++ auth ++ w ++ junk) = Done auth).
  { unfold pk_authenticator. rewrite app_assoc. apply read_app; [by rewrite length_app, Hn|done]. }
  unfold authenticated, payload_length. rewrite Hplen, Hpauth. obind. unfold n in *. clear Hplen Hpauth n Hn.
  unfold RADIUS_HDRSIZE. rewrite u32_small by (unfold is_u32, in_w; lia).
  replace (Z.to_nat (Z.of_nat (20 + length w) - Z.of_nat 20)) with (length w) by lia.
  assert (Hhead : is_bytes ([code; id] ++ be_bytes 2 (Z.of_nat (20 + length w)))).
  { apply is_bytes_cons; [done|]. apply is_bytes_cons; [done|]. auto with cint. }
  rewrite (app_assoc [_; _]), read_head by (by rewrite length_app, length_be_bytes). obind.
  rewrite (app_assoc _ auth), read_app by (rewrite ?length_app, ?length_be_bytes, ?Hla'; done). obind.
  rewrite digest_pieces by (pieces_ok; rewrite ?length_app, ?length_be_bytes; cbn [length]; lia). obind.
  unfold raw_digest. cbn [concat]. by rewrite app_nil_r, <- !app_assoc.
Qed.
Lemma authenticated_ok p code id auth l a secret :
  packet p code id auth l -> good_secret secret -> is_u8 code -> is_u8 id -> is_bytes a -> length a = 16%nat ->
  authenticated p a secret = Done (bool_decide (auth = packet_digest code id a l secret)).
Proof.
  intros [Hl Hsz [junk ->] _ Hla'] Hs Hc Hi Hab Hla. by apply authenticated_raw; [|apply is_bytes_encode_all|..].
Qed.

(** [radius_authcheck] accepts a reply exactly when its authenticator is
    the digest of the reply, the authenticator of the request and the secret;
    [radius_authresp_authenticator] makes such a reply, and changes nothing else of
    the packet.  The same holds of requests, with zeros in the place of the
    authenticator. *)
Theorem radius_authcheck_spec p code id auth l req rcode rid req_auth rl secret :
  packet p code id auth l -> packet req rcode rid req_auth rl -> is_bytes req_auth ->
  good_secret secret -> is_u8 code -> is_u8 id ->
  radius_authcheck p req secret = Done (bool_decide (auth = packet_digest code id req_auth l secret)) /\
  radius_acctcheck p secret = Done (bool_decide (auth = packet_digest code id (replicate 16 0) l secret)) /\
  (exists p', radius_authresp_authenticator p req_auth secret = Done p' /\
     packet p' code id (packet_digest code id req_auth l secret) l /\ radius_authcheck p' req secret = Done true) /\
  (exists p', radius_acctreq_authenticator p secret = Done p' /\
     packet p' code id (packet_digest code id (replicate 16 0) l secret) l /\ radius_acctcheck p' secret = Done true).
Proof.
  intros Hp Hreq Hrb Hs Hc Hi. pose proof (pa_auth _ _ _ _ _ Hreq) as Hra.
  assert (Hz : is_bytes (replicate 16 0)) by (apply is_bytes_replicate; solve_bytes).
  assert (Hcheck : forall p auth, packet p code id auth l ->
    radius_authcheck p req secret = Done (bool_decide (auth = packet_digest code id req_auth l secret))).
  { intros p0 auth0 Hp0. unfold radius_authcheck. rewrite (packet_auth _ _ _ _ _ Hreq). obind. by apply authenticated_ok. }
  split; [by apply Hcheck|]. split; [by apply authenticated_ok|].
  destruct (sign_ok p code id auth l req_auth secret Hp Hs Hc Hi Hrb Hra) as (p1 & H1 & Hp1).
  destruct (sign_ok p code id auth l (replicate 16 0) secret Hp Hs Hc Hi Hz eq_refl) as (p2 & H2 & Hp2).
  split; [exists p1|exists p2]; (split; [|split; [done|]]).
  - unfold radius_authresp_authenticator. unfold RADIUS_AUTHLEN. rewrite read_ok by (cbn; lia). obind.
    change (drop 0 req_auth) with req_auth. by rewrite take_ge by lia.
  - by rewrite (Hcheck _ _ Hp1), bool_decide_true.
  - exact H2.
  - unfold radius_acctcheck, RADIUS_AUTHLEN. rewrite (authenticated_ok _ _ _ _ _ (replicate 16 0) secret Hp2) by done.
    by rewrite bool_decide_true.
Qed.

(** RFC 2104, for a digest with blocks of 64 bytes. *)
Definition hmac (key text : bytes) : bytes :=
  let k := if decide (64 < length key)%nat then hash key else key in
  let k0 := k ++ replicate (64 - length k) 0 in
  hash (map (Z.lxor 0x5c) k0 ++ hash (map (Z.lxor 0x36) k0 ++ text)).

Lemma hmac_pad_ok c key n :
  (length key <= n)%nat -> hmac_pad (replicate n c) key = map (Z.lxor c) (key ++ replicate (n - length key) 0).
Proof.
  revert n. induction key as [|x key IH]; intros n Hn; cbn [hmac_pad app length].
  - rewrite Nat.sub_0_r. change (map ?f ?l) with (f <$> l). rewrite fmap_replicate, Z.lxor_0_r.
    by destruct (replicate n c).
  - destruct n as [|n]; [cbn in Hn; lia|]. cbn [replicate hmac_pad map]. rewrite IH by (cbn in Hn; lia). done.
Qed.
Lemma hmac_pad_take c key :
  (length key <= 64)%nat -> take 64 (hmac_pad (replicate 65 c) key) = map (Z.lxor c) (key ++ replicate (64 - length key) 0).
Proof.
  intros Hk. rewrite hmac_pad_ok by lia. rewrite firstn_map. f_equal.
  replace (65 - length key)%nat with ((64 - length key) + 1)%nat by lia. rewrite replicate_add, app_assoc.
  apply take_app_length'. rewrite length_app, length_replicate. lia.
Qed.
Lemma is_bytes_xor_pad c k : is_u8 c -> is_bytes k -> is_bytes (map (Z.lxor c) k).
Proof. intros Hc Hk. apply Forall_map. eapply Forall_impl; [exact Hk|]. intros x Hx. by apply lxor_in_w. Qed.

(** [radius_hmac_md5] is the HMAC of RFC 2104 of the packet under the secret, secrets
    of more than 64 bytes included. *)
Lemma hmac_md5_ok p code id auth l secret :
  packet p code id auth l -> is_u8 code -> is_u8 id -> is_bytes auth -> good_secret secret ->
  radius_hmac_md5 p secret =
  Done (hmac secret ([code; id] ++ be_bytes 2 (Z.of_nat (20 + length (encode_all l))) ++ auth ++ encode_all l)).
Proof.
  intros Hp Hc Hi Hab [Hs Hls]. unfold radius_hmac_md5, hmac.
  set (key := if decide (64 < length secret)%nat then hash secret else secret).
  assert (Hkey : (length key <= 64)%nat /\ is_bytes key).
  { unfold key. case_decide; [|split; [lia|done]]. rewrite length_hash by done. split; [lia|apply is_bytes_hash]. }
  assert ((if decide (64 < length secret)%nat then digest [secret] else Done secret) = @Done unit _ key) as ->.
  { unfold key. case_decide; [|done]. pieces. done. }
  obind. destruct Hkey as [Hlk Hkb]. rewrite (packet_length _ _ _ _ _ Hp). obind.
  rewrite Nat2Z.id, (packet_text _ _ _ _ _ Hp). obind. rewrite !hmac_pad_take by done.
  set (k0 := key ++ _). assert (Hk0 : length k0 = 64%nat) by (unfold k0; rewrite length_app, length_replicate; lia).
  assert (Hk0b : is_bytes k0) by (apply is_bytes_app; [done|apply is_bytes_replicate; solve_bytes]).
  pose proof (pa_ok _ _ _ _ _ Hp) as Hl. pose proof (pa_size _ _ _ _ _ Hp) as Hsz. pose proof (pa_auth _ _ _ _ _ Hp) as Hla.
  set (text := [code; id] ++ _). assert (Htext : is_bytes text).
  { unfold text. rewrite <- (app_nil_r (encode_all l)) at 2. apply is_bytes_text; try done. constructor. }
  assert (Hlt : (length text < 4096)%nat) by (unfold text; rewrite !length_app, length_be_bytes, Hla; cbn [length]; lia).
  assert (Hi1 : is_bytes (map (Z.lxor 54) k0)) by (apply is_bytes_xor_pad; [solve_bytes|done]).
  assert (Hi2 : is_bytes (map (Z.lxor 92) k0)) by (apply is_bytes_xor_pad; [solve_bytes|done]).
  rewrite digest_pieces by (pieces_ok; rewrite length_map; lia). obind. cbn [concat]. rewrite app_nil_r.
  assert (Hinner : is_bytes (map (Z.lxor 54) k0 ++ text)) by by apply is_bytes_app.
  rewrite digest_pieces.
  - cbn [concat]. by rewrite app_nil_r.
  - pieces_ok. apply is_bytes_hash.
  - pieces_ok; [rewrite length_map; lia|rewrite length_hash by done; lia].
Qed.
End Theorems.

(** ** Concrete packets *)

#[local] Instance demo_md5 : Digest := md5_digest LE Md5.garbage eq_refl.

Definition demo_secret : bytes := str "testing123".
Definition demo_auth : bytes := map Z.of_nat (seq 100 16).
(** An access request without attributes. *)
Definition demo_pack : bytes := [1; 7; 0; 20] ++ demo_auth ++ replicate 1580 0.
Definition full_pack (n : Z) : bytes := [1; 7] ++ be_bytes 2 n ++ demo_auth ++ replicate 1580 1.

(** The attributes behind the header. *)
Definition payload_of (r : result (Z * bytes)) : result (Z * bytes) :=
  '(z, p) ← r; n ← pk_length p; v ← read p 20 (Z.to_nat n - 20); Done (z, v).
Definition add_password (pw : bytes) : result (Z * bytes) :=
  payload_of (radius_addattr demo_secret demo_pack RADIUS_ATTR_USER_PASSWORD 0 0 0 (Some pw) (Z.of_nat (length pw))).

(** A password of more than 128 bytes is not encoded; that goes unnoticed, and four
    zeros are sent in its place. *)
Example long_password : add_password (replicate 129 97) = Done (0, [2; 6; 0; 0; 0; 0]).
Proof. vm_compute. reflexivity. Qed.
(** A password of more than 256 bytes can be cut to as little as sixteen. *)
Example longer_password : add_password (replicate 260 97) = add_password (replicate 16 97).
Proof. vm_compute. reflexivity. Qed.
(** An empty password gives an attribute of four bytes, which no server can decode. *)
Example empty_password :
  exists a b c d, add_password [] = Done (0, [2; 6; a; b; c; d]) /\
    radius_pwdecode (replicate 128 0) 128 [a; b; c; d] 4 demo_auth demo_secret = Done (-1, replicate 128 0, 0).
Proof. do 4 eexists. split; vm_compute; reflexivity. Qed.

(** A key of sixteen bytes is read fifteen bytes past its end. *)
Example key_overrun : radius_keyencode (Some [1; 2]) (replicate 64 0) 64 (replicate 16 5) 16 demo_auth demo_secret = Fault.
Proof. vm_compute. reflexivity. Qed.

(** The test for space counts two bytes for the head of a vendor's attribute, which
    has eight: six bytes are written behind a full packet. *)
Example vendor_overrun :
  radius_addattr demo_secret (full_pack 1353) RADIUS_ATTR_VENDOR_SPECIFIC 14559 1 0 (Some (replicate 245 65)) 245 = Fault /\
  (exists p, radius_addattr demo_secret (full_pack 1347) RADIUS_ATTR_VENDOR_SPECIFIC 14559 1 0 (Some (replicate 245 65)) 245 =
    Done (0, p)).
Proof. split; [|eexists]; vm_compute; reflexivity. Qed.
(** The value of a vendor's attribute is announced as at most 245 bytes, but all of
    it is copied: the fifty bytes that are too many lie behind the end of the packet. *)
Example vendor_long :
  match radius_addattr demo_secret (full_pack 20) RADIUS_ATTR_VENDOR_SPECIFIC 14559 1 0 (Some (replicate 295 65)) 295 with
  | Done (_, p) => pk_length p = Done (20 + 253) /\ read p (20 + 253) 51 = Done (replicate 50 65 ++ [1])
  | _ => False
  end.
Proof. vm_compute. split; reflexivity. Qed.

(** The search takes the last attribute as it is: it may end behind the packet. *)
Example attribute_past_end :
  radius_getattr ([2; 7; 0; 22] ++ demo_auth ++ [18; 255] ++ replicate 1578 0) 18 0 0 0 = Done (Some 20%nat).
Proof. vm_compute. reflexivity. Qed.
(** The length of an attribute whose type is the last byte of a full packet is read
    behind the packet. *)
Example search_overrun :
  radius_getattr ([2; 7; 0x06; 0x40] ++ demo_auth ++ [18; 253] ++ replicate 251 1 ++ concat (replicate 5 ([18; 255] ++ replicate 253 1)) ++
    [18; 51] ++ replicate 49 1 ++ [18]) 18 0 0 9 = Fault.
Proof. vm_compute. reflexivity. Qed.

Lemma demo_packet : packet demo_pack 1 7 demo_auth [].
Proof. constructor; [constructor|cbn; lia|by exists (replicate 1580 0)|done|done]. Qed.
Lemma demo_good : good_secret demo_secret.
Proof. split; [solve_bytes|vm_compute; lia]. Qed.
Definition demo_key : bytes := map Z.of_nat (seq 10 31).

Lemma radius_password_roundtrip_witness :
  exists c n, radius_pwencode (replicate 128 0) 128 (str "secret password 17") 18 demo_auth demo_secret = Done (0, c, Z.of_nat n) /\
    n = 32%nat /\
    radius_pwdecode (replicate 128 9) 128 c (Z.of_nat n) demo_auth demo_secret =
      Done (0, (str "secret password 17" ++ replicate 14 0) ++ drop n (replicate 128 9), Z.of_nat n).
Proof.
  refine (radius_password_roundtrip (str "secret password 17") demo_auth demo_secret (replicate 128 0) (replicate 128 9)
    demo_good _ _ eq_refl _ eq_refl eq_refl); [solve_bytes|solve_bytes|vm_compute; lia].
Defined.
Lemma radius_key_roundtrip_witness :
  exists c m, radius_keyencode (Some [200; 3]) (replicate 64 0) 64 demo_key 16 demo_auth demo_secret = Done (0, c, Z.of_nat m) /\
    radius_keydecode (replicate 20 9) 20 c (Z.of_nat m) demo_auth demo_secret =
      Done (0, take 16 demo_key ++ replicate 4 9, 16).
Proof.
  refine (radius_key_roundtrip [200; 3] demo_key 16 demo_auth demo_secret (replicate 64 0) (replicate 20 9)
    demo_good _ eq_refl _ eq_refl _ _ _); [solve_bytes|solve_bytes| |vm_compute; lia|vm_compute; lia].
  split; [solve_bytes|vm_compute; lia].
Defined.
Lemma radius_addattr_getattr_witness :
  exists p' l', radius_addattr demo_secret demo_pack 26 14559 5 0 (Some (str "chilli")) 6 = Done (0, p') /\
    l' = [Attr 26 ([0; 0; 56; 223; 5; 8] ++ str "chilli")] /\ packet p' 1 7 demo_auth l' /\
    exists r, radius_getattr p' 26 14559 5 0 = Done r /\ r = Some 26%nat.
Proof.
  destruct (radius_addattr_getattr demo_secret demo_pack 1 7 demo_auth [] 26 14559 5 0 (Some (str "chilli")) 6
    demo_packet) as (p' & l' & Hadd & Hl & Hp & Hget);
    [lia|vm_compute; discriminate|solve_bytes| |lia|vm_compute; lia|].
  { split; [lia|]. split; [solve_bytes|]. split; [vm_compute; lia|lia]. }
  exists p', l'. split; [exact Hadd|]. split; [rewrite Hl; vm_compute; reflexivity|]. split; [exact Hp|].
  destruct (Hget 26 14559 5 0%nat) as (r & Hr & Hspec). exists r. split; [exact Hr|].
  destruct r as [t|]; [|exfalso; rewrite Hl in Hspec; vm_compute in Hspec; lia].
  destruct Hspec as (l1 & a & l2 & Heq & _ & _ & Ht & _). destruct l1 as [|x [|? ?]]; rewrite Hl in Heq; try discriminate Heq.
  by rewrite Ht.
Defined.
Lemma radius_authcheck_spec_witness :
  exists p', radius_authresp_authenticator demo_pack demo_auth demo_secret = Done p' /\
    radius_authcheck p' demo_pack demo_secret = Done true.
Proof.
  destruct (radius_authcheck_spec demo_pack 1 7 demo_auth [] demo_pack 1 7 demo_auth [] demo_secret demo_packet demo_packet
    ltac:(solve_bytes) demo_good ltac:(solve_bytes) ltac:(solve_bytes)) as (_ & _ & (p' & H1 & _ & H2) & _).
  exists p'. split; [exact H1|exact H2].
Defined.
End Radius.
