(* ===== verification/RadiusQueue.v ===== *)
(** * The queue of RADIUS requests ([package/coova-chilli/src/src/radius.c])

    A request stays in a slot of an array until it is answered or has been sent too
    often; the slots in use are a doubly linked list in the order of their timeouts.
    Indices of the source that may be -1 are options.  The clock, random bytes, the
    socket and the daemon's callbacks are arguments; what is sent and which callback
    runs are events.  Packets are those of [Radius]. *)

From stdpp Require Import sorting.
From S2P Require Import Prelude CLib Mem Chains Md5 Radius.

Module RadiusQueue.
Import Mem Radius.

Definition RADIUS_QUEUESIZE : Z := 256.
Definition RADIUS_CODE_ACCESS_ACCEPT : Z := 2.
Definition RADIUS_CODE_ACCESS_REJECT : Z := 3.
Definition RADIUS_CODE_ACCOUNTING_RESPONSE : Z := 5.
Definition RADIUS_CODE_ACCESS_CHALLENGE : Z := 11.
Definition RADIUS_CODE_DISCONNECT_REQUEST : Z := 40.
Definition RADIUS_CODE_DISCONNECT_ACK : Z := 41.
Definition RADIUS_CODE_DISCONNECT_NAK : Z := 42.
Definition RADIUS_CODE_COA_REQUEST : Z := 43.
Definition RADIUS_CODE_STATUS_ACCEPT : Z := 47.
Definition RADIUS_CODE_STATUS_REJECT : Z := 48.
Definition RADIUS_VENDOR_CHILLISPOT : Z := 14559.
Definition RADIUS_ATTR_CHILLISPOT_VERSION : Z := 8.
Definition RADIUS_ATTR_CHILLISPOT_ACCT_VIEW_POINT : Z := 10.
Definition RADIUS_ATTR_EVENT_TIMESTAMP : Z := 55.

(** ** State *)

Record timeval := Timeval { tv_sec : Z; tv_usec : Z }.

(** [struct radius_queue_t]; [cbp] is the caller's pointer. *)
Record slot := Slot {
  state : Z;
  cbp : Z;
  timeout : timeval;
  retrans : Z;
  lastsent : Z;
  p : option bytes;
  next : option nat;
  prev : option nat;
}.

(** What [struct radius_t] and the options hold that the queue does not change. *)
Record radius_conf := Conf {
  hisaddr0 : Z;
  hisaddr1 : Z;
  authport : Z;
  acctport : Z;
  secret : bytes;
  qsize : Z;
  coanocheck : bool;
  cb_auth_conf : bool;
  cb_acct_conf : bool;
  cb_coa_ind : bool;
  radiustimeout : Z;
  radiusretry : Z;
  radiusretrysec : Z;
  swapoctets : bool;
}.
(** The rest of [struct radius_t]. *)
Record radius_t := Radius {
  lastreply : Z;
  nextid : Z;
  queue : list slot;
  qnext : Z;
  first : option nat;
  last : option nat;
}.

(** A packet sent to an address and port, and calls of the daemon's callbacks. *)
Inductive event :=
| Sendto (addr port : Z) (pack : bytes)
| Auth_conf (reply : option bytes) (request : bytes) (cbp : Z)
| Acct_conf (reply : option bytes) (request : bytes) (cbp : Z)
| Coa_ind (pack : bytes) (addr port : Z).

Definition set_state (v : Z) (s : slot) : slot := Slot v (cbp s) (timeout s) (retrans s) (lastsent s) (p s) (next s) (prev s).
Definition set_lastsent (v : Z) (s : slot) : slot := Slot (state s) (cbp s) (timeout s) (retrans s) v (p s) (next s) (prev s).
Definition set_p (v : option bytes) (s : slot) : slot := Slot (state s) (cbp s) (timeout s) (retrans s) (lastsent s) v (next s) (prev s).
Definition set_next (v : option nat) (s : slot) : slot := Slot (state s) (cbp s) (timeout s) (retrans s) (lastsent s) (p s) v (prev s).
Definition set_prev (v : option nat) (s : slot) : slot := Slot (state s) (cbp s) (timeout s) (retrans s) (lastsent s) (p s) (next s) v.
Definition set_queue (v : list slot) (q : radius_t) : radius_t := Radius (lastreply q) (nextid q) v (qnext q) (first q) (last q).
Definition set_lastreply (v : Z) (q : radius_t) : radius_t := Radius v (nextid q) (queue q) (qnext q) (first q) (last q).
Definition set_nextid (v : Z) (q : radius_t) : radius_t := Radius (lastreply q) v (queue q) (qnext q) (first q) (last q).
Definition set_qnext (v : Z) (q : radius_t) : radius_t := Radius (lastreply q) (nextid q) (queue q) v (first q) (last q).
Definition set_first (v : option nat) (q : radius_t) : radius_t := Radius (lastreply q) (nextid q) (queue q) (qnext q) v (last q).
Definition set_last (v : option nat) (q : radius_t) : radius_t := Radius (lastreply q) (nextid q) (queue q) (qnext q) (first q) v.

Definition deref (q : radius_t) (i : nat) : result slot := access (queue q !! i).
Definition modify (q : radius_t) (i : nat) (f : slot -> slot) : result radius_t :=
  s ← deref q i; Done (set_queue (<[i := f s]> (queue q)) q).

(** ** The linked list *)

Definition unlink (q : radius_t) (i : nat) : result radius_t :=
  s ← deref q i;
  q ← match next s with
      | None => Done (set_last (prev s) q)
      | Some k => modify q k (set_prev (prev s))
      end;
  s ← deref q i;
  match prev s with
  | None => Done (set_first (next s) q)
  | Some k => modify q k (set_next (next s))
  end.
Definition link_last (q : radius_t) (i : nat) : result radius_t :=
  q ← modify q i (set_next None);
  q ← modify q i (set_prev (last q));
  q ← match last q with
      | Some k => modify q k (set_next (Some i))
      | None => Done q
      end;
  let q := set_last (Some i) q in
  Done (match first q with None => set_first (Some i) q | Some _ => q end).

(** ** Time *)

Definition tv_diff (tv1 tv2 : timeval) : timeval :=
  Timeval (Z.quot (tv_usec tv1 - tv_usec tv2) 1000000 + (tv_sec tv1 - tv_sec tv2))
          (Z.rem (tv_usec tv1 - tv_usec tv2) 1000000).
(** If seconds and microseconds have different polarity add or subtract a second. *)
Definition tv_polarity (d : timeval) : timeval :=
  let d := if (0 <? tv_sec d) && (tv_usec d <? 0) then Timeval (tv_sec d - 1) (tv_usec d + 1000000) else d in
  if (tv_sec d <? 0) && (0 <? tv_usec d) then Timeval (tv_sec d + 1) (tv_usec d - 1000000) else d.

Definition radius_cmptv (tv1 tv2 : timeval) : Z :=
  let d := tv_polarity (tv_diff tv1 tv2) in
  if tv_sec d <? 0 then -1
  else if 0 <? tv_sec d then 1
  else if tv_usec d <? 0 then -1
  else if 0 <? tv_usec d then 1
  else 0.

(** The new value of the caller's timeout. *)
Definition radius_timeleft (q : radius_t) (now : timeval) (tmo : timeval) : result timeval :=
  match first q with
  | None => Done tmo
  | Some i =>
    s ← deref q i;
    let d := tv_polarity (tv_diff (timeout s) now) in
    let d := if (tv_sec d <? 0) || (tv_usec d <? 0) then Timeval 0 0 else d in
    if radius_cmptv tmo d <=? 0 then Done tmo else Done d
  end.

(** [calloc]: the links of an empty slot are 0. *)
Definition empty_slot : slot := Slot 0 0 (Timeval 0 0) 0 0 None (Some 0%nat) (Some 0%nat).
(** The new [qsize], an [uint8_t], and the state with the queue allocated; [alloc]
    says whether it can be. *)
Definition radius_init_q (alloc : bool) (size : Z) (q : radius_t) : Z * option radius_t :=
  let '(size, qsize) := if (size <=? 0) || (RADIUS_QUEUESIZE <? size) then (RADIUS_QUEUESIZE, 0) else (size, u8 size) in
  (qsize, if alloc then Some (set_queue (replicate (Z.to_nat size) empty_slot) q) else None).

Section Queue.
Context `{Digest} (c : radius_conf).

(** [qsize], where 0 stands for the full size. *)
Definition slots : nat := Z.to_nat (if negb (qsize c =? 0) then qsize c else RADIUS_QUEUESIZE).

(** [this->qnext++], on a [uint8_t]. *)
Definition bump_qnext (q : radius_t) : radius_t :=
  let n := u8 (qnext q + 1) in
  set_qnext (if negb (qsize c =? 0) then n mod qsize c else n) q.

(** The next slot to use, [tries] attempts being left. *)
Fixpoint queue_next_loop (tries : nat) (q : radius_t) : result (option nat * radius_t) :=
  s ← deref q (Z.to_nat (qnext q));
  if state s =? 1 then
    match tries with
    | O => Done (None, q)
    | S tries => queue_next_loop tries (bump_qnext q)
    end
  else Done (Some (Z.to_nat (qnext q)), q).
Definition radius_queue_next (q : radius_t) : result (option nat * radius_t) := queue_next_loop slots q.

Fixpoint queue_idx_loop (cnt : nat) (q : radius_t) (idx : nat) (id : Z) : result (option nat) :=
  match cnt with
  | O => Done None
  | S cnt =>
    let idx := (idx mod slots)%nat in
    s ← deref q idx;
    match p s with
    | Some pk =>
      i ← pk_id pk;
      if i =? id then Done (Some idx) else queue_idx_loop cnt q (S idx) id
    | None => queue_idx_loop cnt q (S idx) id
    end
  end.
Definition radius_queue_idx (q : radius_t) (id : Z) : result (option nat) :=
  if (id <? 0) || (RADIUS_QUEUESIZE <=? id) then Done None
  else queue_idx_loop slots q (Z.to_nat id) id.

(** The packet with its message authenticator and its authenticator filled in. *)
Definition sign_request (pack : bytes) : result bytes :=
  ma ← radius_getattr pack RADIUS_ATTR_MESSAGE_AUTHENTICATOR 0 0 0;
  pack ← match ma with
         | Some t => d ← radius_hmac_md5 pack (secret c); memcpy pack (t + 2) d
         | None => Done pack
         end;
  code ← pk_code pack;
  if code =? RADIUS_CODE_ACCOUNTING_REQUEST then radius_acctreq_authenticator pack (secret c) else Done pack.

(** The return value, the state and the packet; [alloc] says whether the copy can be
    allocated. *)
Definition radius_queue_in (alloc : bool) (now : timeval) (q : radius_t) (pack : bytes) (cb : Z)
    : result (Z * radius_t * bytes) :=
  '(qn, q) ← radius_queue_next q;
  match qn with
  | None => Done (-1, q, pack)
  | Some i =>
    pack ← sign_request pack;
    if alloc then
      q ← modify q i (fun s => Slot 1 cb (Timeval (tv_sec now + radiustimeout c) (tv_usec now)) 0 (lastreply q)
                                 (Some pack) (next s) (prev s));
      q ← link_last q i;
      Done (0, bump_qnext q, pack)
    else q ← modify q i (set_p None); Done (-1, q, pack)
  end.

(** [None] is the return value -1; otherwise the request, its callback pointer and
    the state. *)
Definition radius_queue_out (q : radius_t) (idx : option nat) (pack_in : option bytes)
    : result (option (option bytes * Z * radius_t)) :=
  idx ← match idx, pack_in with
        | None, Some pin => id ← pk_id pin; radius_queue_idx q id
        | _, _ => Done idx
        end;
  match idx with
  | None => Done None
  | Some i =>
    s ← deref q i;
    if negb (state s =? 1) then Done None
    else
      refused ← match p s, pack_in with
                | Some pk, Some pin => ok ← radius_authcheck pin pk (secret c); Done (negb ok)
                | _, _ => Done false
                end;
      if refused : bool then Done None
      else
        q ← modify q i (set_p None);
        q ← modify q i (set_state 0);
        q ← unlink q i;
        Done (Some (p s, cbp s, q))
  end.

Definition radius_queue_reschedule (now : timeval) (q : radius_t) (i : nat) : result (Z * radius_t) :=
  s ← deref q i;
  if negb (state s =? 1) then Done (-1, q)
  else
    q ← modify q i (fun s => Slot (state s) (cbp s) (Timeval (tv_sec now + radiustimeout c) (tv_usec now))
                               (retrans s + 1) (lastsent s) (p s) (next s) (prev s));
    q ← unlink q i;
    q ← link_last q i;
    Done (0, q).

(** The port for a request. *)
Definition port_of (pack : bytes) : result Z :=
  code ← pk_code pack;
  Done (if code =? RADIUS_CODE_ACCOUNTING_REQUEST then acctport c else authport c).
(** The bytes of the packet that are sent. *)
Definition wire (pack : bytes) : result bytes := n ← pk_length pack; read pack 0 (Z.to_nat n).
Definition server (which : Z) : Z := if negb (which =? 0) then hisaddr1 c else hisaddr0 c.

(** [sendto] says whether the packet can be sent, [callback] what a callback
    returns. *)
Context (sendto : event -> bool) (callback : event -> Z).

(** [now] and [later] are the two readings of the clock.  Where the slot has no packet
    the copy [pack_req] is never written, and looking at its code is a fault. *)
Definition radius_timeout (now later : timeval) (q : radius_t) : result (Z * radius_t * list event) :=
  match first q with
  | None => Done (0, q, [])
  | Some i =>
    s ← deref q i;
    if 0 <=? radius_cmptv now (timeout s) then
      if retrans s <? radiusretry c then
        q ← (if retrans s =? radiusretrysec c - 1 then
               modify q i (set_lastsent (if negb (lastsent s =? 0) then 0 else 1))
             else Done q);
        s ← deref q i;
        '(ok, es) ← match p s with
                    | Some pk =>
                      port ← port_of pk;
                      w ← wire pk;
                      let e := Sendto (server (lastsent s)) port w in
                      Done (sendto e, [e])
                    | None => Done (true, [])
                    end;
        '(r, q) ← radius_queue_reschedule later q i;
        if ok : bool then Done (if r =? 0 then 0 else -1, q, es) else Done (-1, q, es)
      else
        r ← radius_queue_out q (Some i) None;
        match r with
        | None => Done (-1, q, [])
        | Some (req, cb, q) =>
          req ← access req;
          code ← pk_code req;
          if (code =? RADIUS_CODE_ACCOUNTING_REQUEST) && cb_acct_conf c then
            let e := Acct_conf None req cb in Done (callback e, q, [e])
          else if (code =? RADIUS_CODE_ACCESS_REQUEST) && cb_auth_conf c then
            let e := Auth_conf None req cb in Done (callback e, q, [e])
          else Done (0, q, [])
        end
    else Done (0, q, [])
  end.

Definition radius_req (alloc : bool) (now : timeval) (q : radius_t) (pack : bytes) (cb : Z)
    : result (Z * radius_t * bytes * list event) :=
  len ← pk_length pack;
  '(r, q, pack) ← radius_queue_in alloc now q pack cb;
  if negb (r =? 0) then Done (-1, q, pack, [])
  else
    port ← port_of pack;
    w ← read pack 0 (Z.to_nat len);
    let e := Sendto (server (lastreply q)) port w in
    Done (if sendto e then 0 else -1, q, pack, [e]).

(** Whether the code is one of these. *)
Definition one_of (code : Z) (l : list Z) : bool := existsb (Z.eqb code) l.

(** [recv] is what [recvfrom] gives: the memory of the packet, the number of bytes
    received, address and port of the sender. *)
Definition radius_decaps (recv : option (bytes * Z * Z * Z)) (q : radius_t) : result (Z * radius_t * list event) :=
  match recv with
  | None => Done (-1, q, [])
  | Some (pack, status, addr, port) =>
    if status <? Z.of_nat RADIUS_HDRSIZE then Done (-1, q, [])
    else
      len ← pk_length pack;
      if negb (len =? u16 status) then Done (-1, q, [])
      else
        code ← pk_code pack;
        let known := (addr =? hisaddr0 c) || (addr =? hisaddr1 c) in
        if one_of code [RADIUS_CODE_DISCONNECT_REQUEST; RADIUS_CODE_COA_REQUEST] then
          if negb (coanocheck c) && negb known then Done (-1, q, [])
          else
            ok ← radius_acctcheck pack (secret c);
            if negb ok then Done (-1, q, [])
            else if cb_coa_ind c then let e := Coa_ind pack addr port in Done (callback e, q, [e])
            else Done (0, q, [])
        else if negb known then Done (-1, q, [])
        else if negb (port =? authport c) && negb (port =? acctport c) then Done (-1, q, [])
        else
          r ← radius_queue_out q None (Some pack);
          match r with
          | None => Done (-1, q, [])
          | Some (req, cb, q) =>
            let q := set_lastreply (if addr =? hisaddr0 c then 0 else 1) q in
            req ← access req;
            if one_of code [RADIUS_CODE_ACCESS_ACCEPT; RADIUS_CODE_ACCESS_REJECT; RADIUS_CODE_ACCESS_CHALLENGE;
                            RADIUS_CODE_DISCONNECT_ACK; RADIUS_CODE_DISCONNECT_NAK; RADIUS_CODE_STATUS_ACCEPT;
                            RADIUS_CODE_STATUS_REJECT] then
              if cb_auth_conf c then let e := Auth_conf (Some pack) req cb in Done (callback e, q, [e]) else Done (0, q, [])
            else if code =? RADIUS_CODE_ACCOUNTING_RESPONSE then
              if cb_acct_conf c then let e := Acct_conf (Some pack) req cb in Done (callback e, q, [e]) else Done (0, q, [])
            else Done (-1, q, [])
          end
  end.

(** [random] is what [fread] reads from the random device, [version] the string
    VERSION, [wall] the time of day. *)
Definition radius_default_pack (random : option bytes) (version : bytes) (wall : Z) (q : radius_t) (code : Z)
    : result (Z * radius_t * bytes) :=
  let pack := replicate (Z.to_nat RADIUS_PACKSIZE) 0 in
  pack ← memcpy pack 0 [u8 code];
  pack ← set_length pack (Z.of_nat RADIUS_HDRSIZE);
  '(id, q) ← (if qsize c =? 0 then
                '(qn, q) ← radius_queue_next q;
                Done (match qn with Some i => Some (u8 (Z.of_nat i)) | None => None end, q)
              else
                let id := nextid q in
                let q := set_nextid (u8 (nextid q + 1)) q in
                if id =? 0 then Done (Some (nextid q), set_nextid (u8 (nextid q + 1)) q) else Done (Some id, q));
  match id, random with
  | None, _ => Done (-1, q, pack)
  | Some id, None => pack ← memcpy pack 1 [id]; Done (-1, q, pack)
  | Some id, Some auth =>
    pack ← memcpy pack 1 [id];
    pack ← memcpy pack 4 (take RADIUS_AUTHLEN auth);
    if one_of code [RADIUS_CODE_ACCESS_REQUEST; RADIUS_CODE_ACCOUNTING_REQUEST] then
      '(_, pack) ← radius_addattr (secret c) pack RADIUS_ATTR_VENDOR_SPECIFIC RADIUS_VENDOR_CHILLISPOT
                     RADIUS_ATTR_CHILLISPOT_VERSION 0 (Some version) (Z.of_nat (length version));
      if code =? RADIUS_CODE_ACCOUNTING_REQUEST then
        '(_, pack) ← radius_addattr (secret c) pack RADIUS_ATTR_VENDOR_SPECIFIC RADIUS_VENDOR_CHILLISPOT
                       RADIUS_ATTR_CHILLISPOT_ACCT_VIEW_POINT (if swapoctets c then 1 else 2) None 0;
        '(_, pack) ← radius_addattr (secret c) pack RADIUS_ATTR_EVENT_TIMESTAMP 0 0 wall None 0;
        Done (0, q, pack)
      else Done (0, q, pack)
    else Done (0, q, pack)
  end.
End Queue.

(** ** Times *)

(** Microseconds. *)
Definition us (t : timeval) : Z := tv_sec t * 1000000 + tv_usec t.

(** A difference whose parts have one sign. *)
Lemma tv_polarity_ok t1 t2 :
  let d := tv_polarity (tv_diff t1 t2) in
  us d = us t1 - us t2 /\ Z.abs (tv_usec d) < 1000000 /\ (0 <= tv_sec d /\ 0 <= tv_usec d \/ tv_sec d <= 0 /\ tv_usec d <= 0).
Proof.
  unfold tv_diff, us. set (u := tv_usec t1 - tv_usec t2). set (k := tv_sec t1 - tv_sec t2).
  pose proof (Z.quot_rem u 1000000 ltac:(lia)) as Hqr. pose proof (Z.rem_bound_abs u 1000000 ltac:(lia)) as Hb.
  set (sec := Z.quot u 1000000 + k). set (rem := Z.rem u 1000000) in *.
  assert (Heq : sec * 1000000 + rem = tv_sec t1 * 1000000 + tv_usec t1 - (tv_sec t2 * 1000000 + tv_usec t2))
    by (unfold sec, u, k in *; lia).
  clearbody sec rem. unfold tv_polarity. cbn [tv_sec tv_usec].
  destruct (Z.ltb_spec 0 sec), (Z.ltb_spec rem 0); cbn [andb tv_sec tv_usec];
    (destruct (Z.ltb_spec (sec - 1) 0), (Z.ltb_spec 0 (rem + 1000000)), (Z.ltb_spec sec 0), (Z.ltb_spec 0 rem));
    cbn [andb tv_sec tv_usec]; lia.
Qed.

(** [radius_cmptv] is the sign of the difference of two times, for any number of
    microseconds. *)
Lemma cmptv_sgn t1 t2 : radius_cmptv t1 t2 = Z.sgn (us t1 - us t2).
Proof.
  unfold radius_cmptv. destruct (tv_polarity_ok t1 t2) as (<- & Hu & Hs). set (d := tv_polarity _) in *. unfold us.
  destruct (Z.ltb_spec (tv_sec d) 0), (Z.ltb_spec 0 (tv_sec d)), (Z.ltb_spec (tv_usec d) 0), (Z.ltb_spec 0 (tv_usec d)); lia.
Qed.

(** ** The list in the array *)

Definition nx (l : list slot) (i : nat) : option nat := l !! i ≫= next.
Definition pv (l : list slot) (i : nat) : option nat := l !! i ≫= prev.
(** A slot without its links. *)
Definition core (s : slot) : slot := set_next None (set_prev None s).

(** The queue's list runs through the slots [l]. *)
Record links (q : radius_t) (l : list nat) : Prop := {
  li_chain : dchain (nx (queue q)) (pv (queue q)) (first q) (last q) l;
  li_nodup : NoDup l;
  li_bound : Forall (fun i => (i < length (queue q))%nat) l;
}.
(** Nothing but the links differs. *)
Record same (q q' : radius_t) : Prop := {
  sa_core : core <$> queue q' = core <$> queue q;
  sa_lastreply : lastreply q' = lastreply q;
  sa_nextid : nextid q' = nextid q;
  sa_qnext : qnext q' = qnext q;
}.
#[local] Instance same_preorder : PreOrder same.
Proof. split; [done|]. intros q1 q2 q3 [? ? ? ?] [? ? ? ?]. split; congruence. Qed.

Lemma same_length q q' : same q q' -> length (queue q') = length (queue q).
Proof. intros [Hc _ _ _]. by rewrite <- (length_fmap core), Hc, length_fmap. Qed.
Lemma same_lookup q q' i s : same q q' -> queue q' !! i = Some s -> exists s0, queue q !! i = Some s0 /\ core s = core s0.
Proof.
  intros [Hc _ _ _] Hs. apply (f_equal (fun l => l !! i)) in Hc. rewrite !list_lookup_fmap, Hs in Hc.
  destruct (queue q !! i) as [s0|]; [|done]. exists s0. split; [done|]. by apply (inj Some) in Hc.
Qed.

Lemma deref_ok q i : (i < length (queue q))%nat -> exists s, queue q !! i = Some s /\ deref q i = Done s.
Proof. intros [s Hs]%lookup_lt_is_Some_2. exists s. unfold deref. by rewrite Hs. Qed.
Lemma modify_ok q i f : (i < length (queue q))%nat -> modify q i f = Done (set_queue (alter f i (queue q)) q).
Proof.
  intros Hi. unfold modify. destruct (deref_ok q i Hi) as (s & Hs & ->). obind. do 2 f_equal.
  apply list_eq. intros j. rewrite list_lookup_insert, list_lookup_alter, Hs.
  destruct (decide (i = j)); [by rewrite decide_True|by rewrite decide_False by tauto].
Qed.

Section Links.
Context (l : list slot) (k : nat) (Hk : (k < length l)%nat).

Lemma nx_set_next v j : nx (alter (set_next v) k l) j = if decide (k = j) then v else nx l j.
Proof.
  unfold nx. rewrite list_lookup_alter. case_decide as Hj; [|done].
  by destruct (lookup_lt_is_Some_2 l k Hk) as [s ->].
Qed.
Lemma pv_set_prev v j : pv (alter (set_prev v) k l) j = if decide (k = j) then v else pv l j.
Proof.
  unfold pv. rewrite list_lookup_alter. case_decide as Hj; [|done].
  by destruct (lookup_lt_is_Some_2 l k Hk) as [s ->].
Qed.
Lemma nx_set_prev v j : nx (alter (set_prev v) k l) j = nx l j.
Proof. unfold nx. rewrite list_lookup_alter. case_decide as Hj; [rewrite <- Hj|done]. by destruct (l !! k). Qed.
Lemma pv_set_next v j : pv (alter (set_next v) k l) j = pv l j.
Proof. unfold pv. rewrite list_lookup_alter. case_decide as Hj; [rewrite <- Hj|done]. by destruct (l !! k). Qed.
Lemma core_alter f : (forall s, core (f s) = core s) -> core <$> alter f k l = core <$> l.
Proof.
  intros Hf. apply list_eq. intros j. rewrite !list_lookup_fmap, list_lookup_alter. case_decide as Hj; [rewrite <- Hj|done].
  destruct (l !! k) as [s|]; [|done]. cbn. by rewrite Hf.
Qed.
End Links.

(** The state with another array and other ends of the list. *)
Definition relink (q : radius_t) (l : list slot) (f t : option nat) : radius_t :=
  Radius (lastreply q) (nextid q) l (qnext q) f t.
Lemma same_relink q l f t : core <$> l = core <$> queue q -> same q (relink q l f t).
Proof. by intros Hc. Qed.

Lemma unlink_eval q i s :
  queue q !! i = Some s -> (forall k, next s = Some k -> (k < length (queue q))%nat /\ k <> i) ->
  (forall j, prev s = Some j -> (j < length (queue q))%nat) ->
  let l1 := match next s with None => queue q | Some k => alter (set_prev (prev s)) k (queue q) end in
  let l2 := match prev s with None => l1 | Some k => alter (set_next (next s)) k l1 end in
  unlink q i = Done (relink q l2 (match prev s with None => next s | Some _ => first q end)
                       (match next s with None => prev s | Some _ => last q end)).
Proof.
  intros Hs Hn Hp l1 l2. unfold unlink, deref. rewrite Hs. obind. subst l1 l2. destruct (next s) as [k|] eqn:Hnk.
  - destruct (Hn k eq_refl) as [Hk Hki]. rewrite modify_ok by done. obind. cbn [queue set_queue].
    rewrite list_lookup_alter, decide_False, Hs by done. obind. rewrite Hnk.
    destruct (prev s) as [j|]; [|done]. rewrite modify_ok; [done|]. cbn. rewrite length_alter. by apply Hp.
  - cbn. rewrite Hs. obind. rewrite Hnk. destruct (prev s) as [j|]; [|done]. rewrite modify_ok; [done|]. by apply Hp.
Qed.

Lemma links_lt q l k j : links q l -> l !! k = Some j -> (j < length (queue q))%nat.
Proof. intros [_ _ Hb] Hj. by eapply Forall_lookup_1 in Hb. Qed.

Lemma unlink_slot_ok q l m i :
  links q l -> l !! m = Some i -> exists q', unlink q i = Done q' /\ links q' (delete m l) /\ same q q'.
Proof.
  intros Hl Hm. pose proof (links_lt q l) as Hlt. pose proof (Hlt m i Hl Hm) as Hi.
  assert (Hlt' : forall k j, l !! k = Some j -> (j < length (queue q))%nat) by (intros; by eapply Hlt). clear Hlt.
  destruct Hl as [Hc Hd Hb]. pose proof (dchain_nx _ _ _ _ _ _ _ Hc Hm) as Hn. pose proof (dc_prev _ _ _ _ _ Hc _ _ Hm) as Hp.
  destruct (lookup_lt_is_Some_2 _ _ Hi) as [s Hs].
  assert (Hns : nx (queue q) i = next s) by (unfold nx; by rewrite Hs).
  assert (Hps : pv (queue q) i = prev s) by (unfold pv; by rewrite Hs).
  assert (Hnb : forall k, next s = Some k -> (k < length (queue q))%nat /\ k <> i).
  { intros k Hk. rewrite <- Hns, Hn in Hk. split; [by eapply Hlt'|]. intros ->. enough (S m = m) by lia. by eapply NoDup_lookup. }
  assert (Hpb : forall j, prev s = Some j -> (j < length (queue q))%nat).
  { intros j Hj. rewrite <- Hps, Hp in Hj. destruct m; [done|]. by eapply Hlt'. }
  rewrite (unlink_eval q i s Hs Hnb Hpb). set (l1 := match next s with None => _ | _ => _ end).
  set (l2 := match prev s with None => l1 | _ => _ end).
  assert (Hl1 : length l1 = length (queue q)) by (unfold l1; destruct (next s); [apply length_alter|done]).
  assert (Hl2 : length l2 = length (queue q)) by (unfold l2; destruct (prev s); [by rewrite length_alter|done]).
  eexists. split; [reflexivity|]. split.
  - constructor; cbn.
    + replace (match prev s with None => _ | _ => _ end) with (if decide (pv (queue q) i = None) then nx (queue q) i else first q)
        by (rewrite Hps, Hns; by destruct (prev s)).
      replace (match next s with None => _ | _ => _ end) with (if decide (nx (queue q) i = None) then pv (queue q) i else last q)
        by (rewrite Hps, Hns; by destruct (next s)).
      eapply dchain_delete; [done..| |]; intros j Hj Hne; rewrite Hns, Hps.
      * transitivity (if decide (prev s = Some j) then next s else nx l1 j).
        { unfold l2. destruct (prev s) as [k|]; [|done]. rewrite nx_set_next by (rewrite Hl1; by apply Hpb).
          destruct (decide (k = j)) as [->|]; [by rewrite decide_True|by rewrite decide_False by congruence]. }
        unfold l1. destruct (next s); by rewrite ?nx_set_prev.
      * transitivity (pv l1 j); [unfold l2; destruct (prev s); by rewrite ?pv_set_next|].
        unfold l1. destruct (next s) as [k|]; [|done]. rewrite pv_set_prev by (by apply Hnb).
        destruct (decide (k = j)) as [->|]; [by rewrite decide_True|by rewrite decide_False by congruence].
    + by apply NoDup_delete.
    + rewrite Hl2. apply Forall_forall. intros j Hj. rewrite Forall_forall in Hb. apply Hb. by eapply elem_of_delete_NoDup in Hj as [? _].
  - apply same_relink. unfold l2, l1. destruct (prev s), (next s); rewrite ?core_alter; done.
Qed.

Lemma link_last_eval q i :
  (i < length (queue q))%nat -> (forall k, last q = Some k -> (k < length (queue q))%nat) ->
  let l1 := alter (set_prev (last q)) i (alter (set_next None) i (queue q)) in
  let l2 := match last q with None => l1 | Some k => alter (set_next (Some i)) k l1 end in
  link_last q i = Done (relink q l2 (match first q with None => Some i | Some _ => first q end) (Some i)).
Proof.
  intros Hi Hk l1 l2. unfold link_last. rewrite modify_ok by done. obind.
  rewrite modify_ok by (cbn; by rewrite length_alter). obind. cbn [last set_queue queue].
  subst l1 l2. destruct (last q) as [k|]; [rewrite modify_ok by (cbn; rewrite !length_alter; by apply Hk)|]; obind;
    unfold relink, set_first, set_last, set_queue; cbn; by destruct (first q).
Qed.

Lemma link_last_ok q l i :
  links q l -> (i < length (queue q))%nat -> i ∉ l -> exists q', link_last q i = Done q' /\ links q' (l ++ [i]) /\ same q q'.
Proof.
  intros [Hc Hd Hb] Hi Hnot. pose proof (dc_last _ _ _ _ _ Hc) as Hlast.
  assert (Hk : forall k, last q = Some k -> (k < length (queue q))%nat).
  { intros k Hk. rewrite Hlast in Hk. apply last_Some_elem_of in Hk. rewrite Forall_forall in Hb. by apply Hb. }
  rewrite (link_last_eval q i Hi Hk). set (l1 := alter _ _ _). set (l2 := match last q with None => l1 | _ => _ end).
  assert (Hl1 : length l1 = length (queue q)) by (unfold l1; by rewrite !length_alter).
  assert (Hl2 : length l2 = length (queue q)) by (unfold l2; destruct (last q); by rewrite ?length_alter).
  assert (Hnd : NoDup (l ++ [i])).
  { apply NoDup_app. split; [done|]. split; [|apply NoDup_singleton]. intros x Hx ->%list_elem_of_singleton. done. }
  eexists. split; [reflexivity|]. split.
  - constructor; cbn; [|done|].
    + replace (match first q with None => _ | _ => _ end) with (if decide (last q = None) then Some i else first q).
      2: { rewrite Hlast, (dchain_head _ _ _ _ _ Hc). destruct l as [|x l _] using rev_ind; [done|].
           rewrite last_snoc. by destruct l. }
      eapply dchain_snoc; [exact Hc|done|..].
      * unfold l2. destruct (last q) as [k|] eqn:Hlk.
        { rewrite nx_set_next by (rewrite Hl1; by apply Hk). rewrite decide_False.
          - unfold l1. rewrite nx_set_prev, nx_set_next, decide_True by done. done.
          - intros ->. apply Hnot. by apply last_Some_elem_of. }
        unfold l1. by rewrite nx_set_prev, nx_set_next, decide_True by done.
      * transitivity (pv l1 i); [unfold l2; destruct (last q); by rewrite ?pv_set_next|].
        unfold l1. by rewrite pv_set_prev, decide_True by (by rewrite ?length_alter).
      * intros j Hj. assert (Hji : i <> j) by (by intros ->).
        transitivity (if decide (last q = Some j) then Some i else nx l1 j).
        { unfold l2. destruct (last q) as [k|]; [|done]. rewrite nx_set_next by (rewrite Hl1; by apply Hk).
          destruct (decide (k = j)) as [->|]; [by rewrite decide_True|by rewrite decide_False by congruence]. }
        unfold l1. by rewrite nx_set_prev, nx_set_next, (decide_False (P := i = j)) by done.
      * intros j Hj. assert (Hji : i <> j) by (by intros ->).
        transitivity (pv l1 j); [unfold l2; destruct (last q); by rewrite ?pv_set_next|].
        unfold l1. by rewrite pv_set_prev, decide_False, pv_set_next by (by rewrite ?length_alter).
    + rewrite Hl2. apply Forall_app. split; [done|]. by repeat constructor.
  - apply same_relink. unfold l2, l1. destruct (last q); by rewrite !core_alter.
Qed.

(** ** What the queue holds *)

(** A request that waits for its reply; its packet is that of the other fields. *)
Record request := Request {
  r_slot : nat;
  r_cbp : Z;
  r_timeout : timeval;
  r_retrans : Z;
  r_lastsent : Z;
  r_code : Z;
  r_id : Z;
  r_auth : bytes;
  r_attrs : list attr;
  r_pack : bytes;
}.
Record packet_ok (pack : bytes) (code id : Z) (auth : bytes) (l : list attr) : Prop := {
  po_packet : packet pack code id auth l;
  po_code : is_u8 code;
  po_id : is_u8 id;
  po_auth : is_bytes auth;
}.
Definition request_ok (r : request) : Prop := packet_ok (r_pack r) (r_code r) (r_id r) (r_auth r) (r_attrs r).
Definition slot_of (r : request) : slot := Slot 1 (r_cbp r) (r_timeout r) (r_retrans r) (r_lastsent r) (Some (r_pack r)) None None.

Record cells (l : list slot) (rs : list request) : Prop := {
  ce_full : forall r, r ∈ rs -> core <$> l !! r_slot r = Some (slot_of r);
  ce_free : forall i s, l !! i = Some s -> i ∉ r_slot <$> rs -> state s = 0 /\ p s = None;
}.

Lemma cells_core l l' rs : core <$> l' = core <$> l -> cells l rs -> cells l' rs.
Proof.
  intros Hc [Hf He]. assert (Hi : forall i, core <$> l' !! i = core <$> l !! i) by (intros i; by rewrite <- !list_lookup_fmap, Hc).
  split; [intros r Hr; rewrite Hi; by apply Hf|]. intros i s Hs Hn. specialize (Hi i). rewrite Hs in Hi.
  destruct (l !! i) as [s0|] eqn:Hs0; [|done]. apply (inj Some) in Hi. change (state (core s) = 0 /\ p (core s) = None).
  rewrite Hi. by apply (He i s0).
Qed.
Lemma cells_perm l rs rs' : rs ≡ₚ rs' -> cells l rs -> cells l rs'.
Proof. intros Hp [Hf He]. split; [intros r; rewrite <- Hp; apply Hf|]. intros i s. rewrite <- Hp. apply He. Qed.

Lemma cells_lookup l rs r : cells l rs -> r ∈ rs ->
  exists s, l !! r_slot r = Some s /\ core s = slot_of r.
Proof. intros [Hf _] Hr. specialize (Hf r Hr). destruct (l !! r_slot r) as [s|]; [|done]. exists s. split; [done|]. by apply (inj Some) in Hf. Qed.

(** A slot taken into use, and one that is given back. *)
Lemma cells_add l rs r f :
  cells l rs -> (r_slot r < length l)%nat -> r_slot r ∉ r_slot <$> rs -> (forall s, core (f s) = slot_of r) ->
  cells (alter f (r_slot r) l) (rs ++ [r]).
Proof.
  intros [Hf He] Hi Hn Hr. split.
  - intros r' [Hr'| ->%list_elem_of_singleton]%elem_of_app.
    + rewrite list_lookup_alter, decide_False; [by apply Hf|]. intros Heq. apply Hn. rewrite Heq. by apply list_elem_of_fmap_2.
    + rewrite list_lookup_alter, decide_True by done. destruct (lookup_lt_is_Some_2 l (r_slot r) Hi) as [s ->]. cbn. by rewrite Hr.
  - intros i s. rewrite fmap_app, not_elem_of_app, list_lookup_alter. intros Hs [Hi' Hne].
    rewrite decide_False in Hs by (intros <-; apply Hne; by left). by apply (He i).
Qed.
Lemma cells_remove l r rs f :
  cells l (r :: rs) -> NoDup (r_slot <$> r :: rs) -> (forall s, state (f s) = 0 /\ p (f s) = None) ->
  cells (alter f (r_slot r) l) rs.
Proof.
  intros [Hf He] [Hn _]%NoDup_cons Hr. split.
  - intros r' Hr'. rewrite list_lookup_alter, decide_False; [apply Hf; by right|].
    intros Heq. apply Hn. rewrite Heq. by apply list_elem_of_fmap_2.
  - intros i s. rewrite list_lookup_alter. case_decide as Hi.
    + intros (s0 & Hs0 & ->)%fmap_Some _. apply Hr.
    + intros Hs Hni. apply (He i s Hs). cbn. apply not_elem_of_cons. split; [congruence|done].
Qed.

Lemma delete_insert_list {A} (l : list A) k x : delete k (<[k:=x]> l) = delete k l.
Proof. rewrite !delete_take_drop, take_insert_ge, drop_insert_lt by lia. done. Qed.
Lemma alter_twice {A} (f g : A -> A) k (l : list A) : alter f k (alter g k l) = alter (fun x => f (g x)) k l.
Proof.
  apply list_eq. intros j. rewrite !list_lookup_alter. case_decide as Hj; [|done]. rewrite Hj, decide_True by done.
  by destruct (l !! j).
Qed.

(** A request that changes in its slot. *)
Lemma cells_update l rs k r r' f :
  cells l rs -> NoDup (r_slot <$> rs) -> rs !! k = Some r -> r_slot r' = r_slot r ->
  (forall s, core s = slot_of r -> core (f s) = slot_of r') -> cells (alter f (r_slot r) l) (<[k := r']> rs).
Proof.
  intros Hc Hd Hk Hslot Hr'. pose proof (list_elem_of_lookup_2 _ _ _ Hk) as Hin.
  assert (Hslots : r_slot <$> <[k := r']> rs = r_slot <$> rs).
  { rewrite list_fmap_insert, Hslot. apply list_insert_id. by rewrite list_lookup_fmap, Hk. }
  split.
  - intros x [m Hm]%list_elem_of_lookup. rewrite list_lookup_alter. rewrite list_lookup_insert in Hm. case_decide as Hkm.
    + injection Hm as <-. rewrite decide_True by done. destruct (cells_lookup _ _ _ Hc Hin) as (s & -> & Hs). cbn. by rewrite Hr'.
    + rewrite decide_False; [apply (ce_full _ _ Hc); by eapply list_elem_of_lookup_2|]. intros Heq. apply Hkm.
      split; [|by eapply lookup_lt_Some]. eapply NoDup_lookup; [exact Hd|by rewrite list_lookup_fmap, Hk|].
      by rewrite list_lookup_fmap, Hm, Heq.
  - intros i s. rewrite Hslots, list_lookup_alter. intros Hs Hi. rewrite decide_False in Hs; [by apply (ce_free _ _ Hc i)|].
    intros <-. apply Hi. by apply list_elem_of_fmap_2.
Qed.

Lemma links_alter q l i f :
  (forall s, next (f s) = next s /\ prev (f s) = prev s) -> links q l -> links (set_queue (alter f i (queue q)) q) l.
Proof.
  intros Hf [Hc Hd Hb]. split; cbn; [|done|by rewrite length_alter]. eapply dchain_ext; [|exact Hc].
  intros j _. unfold nx, pv. rewrite !list_lookup_alter. case_decide as Hj; [rewrite Hj|done].
  destruct (queue q !! j) as [s|]; [|done]. cbn. apply Hf.
Qed.

(** ** The operations on the queue *)

Section Correct.
Context `{Digest} (c : radius_conf) (Hqsize : is_u8 (qsize c)) (Hsecret : good_secret (secret c)).

(** The array holds the requests [rs] and its list runs through them in this order. *)
Record rep (q : radius_t) (rs : list request) : Prop := {
  re_size : length (queue q) = slots c;
  re_qnext : 0 <= qnext q < Z.of_nat (slots c);
  re_links : links q (r_slot <$> rs);
  re_cells : cells (queue q) rs;
  re_ok : Forall request_ok rs;
}.

Lemma slots_range : (0 < slots c <= 256)%nat.
Proof using Hqsize.
  unfold slots, RADIUS_QUEUESIZE. unfold is_u8, in_w in Hqsize. change (2 ^ 8) with 256 in Hqsize.
  destruct (Z.eqb_spec (qsize c) 0); cbn [negb]; lia.
Qed.

Lemma bump_qnext_ok q : 0 <= qnext q < Z.of_nat (slots c) ->
  bump_qnext c q = set_qnext ((qnext q + 1) mod Z.of_nat (slots c)) q.
Proof using Hqsize.
  intros Hq. unfold bump_qnext, slots, RADIUS_QUEUESIZE, u8 in *. unfold is_u8, in_w in Hqsize.
  change (2 ^ 8) with 256 in *. destruct (Z.eqb_spec (qsize c) 0) as [H0|H0]; cbn [negb] in *.
  - by change (Z.of_nat (Z.to_nat 256)) with 256.
  - rewrite Z2Nat.id in * by lia. by rewrite (Z.mod_small (qnext q + 1)) by lia.
Qed.

Lemma rep_set_qnext q rs v : rep q rs -> 0 <= v < Z.of_nat (slots c) -> rep (set_qnext v q) rs.
Proof. intros [H1 H2 [H3 H4 H5] H6 H7] Hv. by split. Qed.

Lemma rep_slot_lt q rs r : rep q rs -> r ∈ rs -> (r_slot r < slots c)%nat.
Proof.
  intros [<- _ [_ _ Hb] _ _] Hr. rewrite Forall_forall in Hb. apply Hb. by apply list_elem_of_fmap_2.
Qed.
Lemma rep_busy q rs i s : rep q rs -> queue q !! i = Some s -> state s = (if decide (i ∈ r_slot <$> rs) then 1 else 0).
Proof.
  intros [_ _ _ Hc _] Hs. case_decide as Hi; [|by apply (ce_free _ _ Hc i)].
  apply list_elem_of_fmap in Hi as (r & -> & Hr). destruct (cells_lookup _ _ _ Hc Hr) as (s0 & Hs0 & Hcs).
  rewrite Hs in Hs0. injection Hs0 as <-. by apply (f_equal state) in Hcs.
Qed.
Lemma rep_length q rs : rep q rs -> (length rs <= slots c)%nat.
Proof.
  intros Hr. rewrite <- (length_fmap r_slot), <- (length_seq (slots c) 0).
  apply submseteq_length, NoDup_submseteq; [apply (li_nodup _ _ (re_links _ _ Hr))|].
  intros i (r & -> & Hi)%list_elem_of_fmap. apply elem_of_seq. pose proof (rep_slot_lt _ _ _ Hr Hi). lia.
Qed.
(** A slot is free as long as fewer requests wait than there are slots. *)
Lemma rep_full q rs : rep q rs ->
  (length rs < slots c)%nat \/ (length rs = slots c /\ forall i, (i < slots c)%nat -> i ∈ r_slot <$> rs).
Proof.
  intros Hr. destruct (decide (length rs < slots c)%nat) as [|Hge]; [by left|right].
  pose proof (rep_length _ _ Hr) as Hle. split; [lia|]. intros i Hi.
  assert (Hs : r_slot <$> rs ⊆+ seq 0 (slots c)).
  { apply NoDup_submseteq; [apply (li_nodup _ _ (re_links _ _ Hr))|].
    intros j (r & -> & Hj)%list_elem_of_fmap. apply elem_of_seq. pose proof (rep_slot_lt _ _ _ Hr Hj). lia. }
  apply submseteq_length_Permutation in Hs; [|rewrite length_fmap, length_seq; lia].
  rewrite Hs. apply elem_of_seq. lia.
Qed.

Lemma queue_next_loop_ok rs tries : forall q, rep q rs ->
  exists n v, queue_next_loop c tries q = Done (n, set_qnext v q) /\ 0 <= v < Z.of_nat (slots c) /\
    match n with
    | Some i => i = Z.to_nat v /\ i ∉ r_slot <$> rs
    | None => forall k, (k <= tries)%nat -> Z.to_nat ((qnext q + Z.of_nat k) mod Z.of_nat (slots c)) ∈ r_slot <$> rs
    end.
Proof using Hqsize.
  induction tries as [|tries IH]; intros q Hr; pose proof (re_qnext _ _ Hr) as Hq; pose proof (re_size _ _ Hr) as Hsz;
    cbn [queue_next_loop];
    (destruct (deref_ok q (Z.to_nat (qnext q))) as (s & Hs & ->); [lia|]); obind; rewrite (rep_busy _ _ _ _ Hr Hs);
    case_decide as Hin; cbn.
  - exists None, (qnext q). split; [by destruct q|]. split; [done|]. intros k Hk. replace k with 0%nat by lia.
    by rewrite Z.add_0_r, Z.mod_small.
  - exists (Some (Z.to_nat (qnext q))), (qnext q). by destruct q.
  - rewrite bump_qnext_ok by done. set (v := (qnext q + 1) mod _).
    assert (Hv : 0 <= v < Z.of_nat (slots c)) by (apply Z.mod_pos_bound; lia).
    destruct (IH (set_qnext v q)) as (n & w & -> & Hw & Hn); [by apply rep_set_qnext|].
    exists n, w. split; [done|]. split; [done|]. destruct n as [i|]; [done|]. intros [|k] Hk.
    + by rewrite Z.add_0_r, Z.mod_small.
    + specialize (Hn k ltac:(lia)). cbn [qnext set_qnext] in Hn. unfold v in Hn. rewrite Zplus_mod_idemp_l in Hn.
      by replace (qnext q + Z.of_nat (S k)) with (qnext q + 1 + Z.of_nat k) by lia.
  - exists (Some (Z.to_nat (qnext q))), (qnext q). by destruct q.
Qed.

(** A free slot is found when there is one. *)
Lemma radius_queue_next_ok q rs : rep q rs ->
  exists n v, radius_queue_next c q = Done (n, set_qnext v q) /\ 0 <= v < Z.of_nat (slots c) /\
    if decide (length rs < slots c)%nat then exists i, n = Some i /\ i = Z.to_nat v /\ i ∉ r_slot <$> rs else n = None.
Proof using Hqsize.
  intros Hr. destruct (queue_next_loop_ok rs (slots c) q Hr) as (n & v & He & Hv & Hn). exists n, v.
  split; [done|]. split; [done|]. pose proof (re_qnext _ _ Hr) as Hq. case_decide as Hlen.
  - destruct n as [i|]; [by exists i|]. exfalso. apply Nat.lt_nge in Hlen. apply Hlen.
    rewrite <- (length_fmap r_slot), <- (length_seq (slots c) 0) at 1. apply submseteq_length, NoDup_submseteq; [apply NoDup_seq|].
    intros i Hi%elem_of_seq. set (k := Z.to_nat ((Z.of_nat i - qnext q) mod Z.of_nat (slots c))).
    assert (Hk : 0 <= (Z.of_nat i - qnext q) mod Z.of_nat (slots c) < Z.of_nat (slots c)) by (apply Z.mod_pos_bound; lia).
    specialize (Hn k ltac:(lia)). unfold k in Hn. rewrite Z2Nat.id, Zplus_mod_idemp_r in Hn by lia.
    replace (qnext q + (Z.of_nat i - qnext q)) with (Z.of_nat i) in Hn by lia. by rewrite Z.mod_small, Nat2Z.id in Hn by lia.
  - destruct (rep_full _ _ Hr) as [|[_ Hall]]; [done|]. destruct n as [i|]; [|done]. destruct Hn as [-> Hn].
    exfalso. apply Hn, Hall. lia.
Qed.

Lemma packet_code pack code id auth l : packet pack code id auth l -> pk_code pack = Done code.
Proof. intros [_ _ [junk ->] _ _]. by apply byte_at_ok. Qed.
Lemma packet_id pack code id auth l : packet pack code id auth l -> pk_id pack = Done id.
Proof. intros [_ _ [junk ->] _ _]. by apply byte_at_ok. Qed.

Lemma rep_lookup q rs r : rep q rs -> r ∈ rs -> exists s, queue q !! r_slot r = Some s /\ core s = slot_of r /\ request_ok r.
Proof.
  intros [_ _ _ Hc Hok] Hr. destruct (cells_lookup _ _ _ Hc Hr) as (s & Hs & Hcs). exists s.
  rewrite Forall_forall in Hok. split; [done|]. split; [done|]. by apply Hok.
Qed.
(** A slot that holds a packet holds that of a request. *)
Lemma rep_packet q rs i s : rep q rs -> queue q !! i = Some s ->
  match p s with
  | Some pk => exists r, r ∈ rs /\ r_slot r = i /\ pk = r_pack r /\ pk_id pk = Done (r_id r)
  | None => i ∉ r_slot <$> rs
  end.
Proof.
  intros Hr Hs. destruct (decide (i ∈ r_slot <$> rs)) as [Hi|Hi].
  - apply list_elem_of_fmap in Hi as (r & -> & Hi). destruct (rep_lookup _ _ _ Hr Hi) as (s0 & Hs0 & Hc & Hok).
    rewrite Hs in Hs0. injection Hs0 as <-. apply (f_equal p) in Hc. cbn in Hc. rewrite Hc. exists r.
    repeat split; [done|]. eapply packet_id, Hok.
  - by rewrite (proj2 (ce_free _ _ (re_cells _ _ Hr) i s Hs Hi)).
Qed.

Lemma queue_idx_loop_ok q rs id cnt : forall idx, rep q rs ->
  exists n, queue_idx_loop c cnt q idx id = Done n /\
    match n with
    | Some i => exists r, r ∈ rs /\ r_slot r = i /\ r_id r = id
    | None => forall k r, (k < cnt)%nat -> r ∈ rs -> r_slot r = ((idx + k) mod slots c)%nat -> r_id r <> id
    end.
Proof using Hqsize.
  induction cnt as [|cnt IH]; intros idx Hr; cbn [queue_idx_loop]; [exists None; split; [done|]; intros; lia|].
  pose proof slots_range as Hsl. pose proof (Nat.mod_upper_bound idx (slots c) ltac:(lia)) as Hm.
  destruct (deref_ok q (idx mod slots c)) as (s & Hs & ->); [by rewrite (re_size _ _ Hr)|]. obind.
  pose proof (rep_packet _ _ _ _ Hr Hs) as Hp.
  assert (Hnext : (forall r, r ∈ rs -> r_slot r = (idx mod slots c)%nat -> r_id r <> id) ->
    exists n, queue_idx_loop c cnt q (S (idx mod slots c)) id = Done n /\
      match n with
      | Some i => exists r, r ∈ rs /\ r_slot r = i /\ r_id r = id
      | None => forall k r, (k < S cnt)%nat -> r ∈ rs -> r_slot r = ((idx + k) mod slots c)%nat -> r_id r <> id
      end).
  { intros Hno. destruct (IH (S (idx mod slots c)) Hr) as (n & -> & Hn). exists n. split; [done|]. destruct n as [i|]; [done|].
    intros [|k] r Hk Hi Heq; [apply Hno; [done|by rewrite Heq, Nat.add_0_r]|]. apply (Hn k r ltac:(lia) Hi). rewrite Heq.
    replace (S (idx mod slots c) + k)%nat with (idx mod slots c + S k)%nat by lia. by rewrite Nat.Div0.add_mod_idemp_l. }
  destruct (p s) as [pk|].
  - destruct Hp as (r & Hi & Hslot & -> & ->). obind. destruct (Z.eqb_spec (r_id r) id) as [Heq|Hne]; [exists (Some (idx mod slots c)%nat); split; [done|by exists r]|].
    apply Hnext. intros r' Hi' Hslot'. enough (r' = r) as -> by done.
    apply list_elem_of_lookup in Hi as [k Hk], Hi' as [k' Hk'].
    assert (k = k') as ->; [|congruence]. pose proof (li_nodup _ _ (re_links _ _ Hr)) as Hnd.
    eapply NoDup_lookup; [exact Hnd|by rewrite list_lookup_fmap, Hk|]. rewrite list_lookup_fmap, Hk'. cbn. congruence.
  - apply Hnext. intros r Hi Heq. contradict Hp. rewrite <- Heq. by apply list_elem_of_fmap_2.
Qed.
Lemma radius_queue_idx_ok q rs id : rep q rs -> is_u8 id ->
  exists n, radius_queue_idx c q id = Done n /\
    match n with
    | Some i => exists r, r ∈ rs /\ r_slot r = i /\ r_id r = id
    | None => forall r, r ∈ rs -> r_id r <> id
    end.
Proof using Hqsize.
  intros Hr Hid. unfold radius_queue_idx, RADIUS_QUEUESIZE. unfold is_u8, in_w in Hid. change (2 ^ 8) with 256 in Hid.
  rewrite (proj2 (Z.ltb_ge _ _)), (proj2 (Z.leb_gt _ _)) by lia. cbn [orb].
  destruct (queue_idx_loop_ok q rs id (slots c) (Z.to_nat id) Hr) as (n & -> & Hn). exists n. split; [done|].
  destruct n as [i|]; [done|]. intros r Hi. pose proof slots_range as Hsl. pose proof (rep_slot_lt _ _ _ Hr Hi) as Hlt.
  set (i := Z.to_nat id) in *. pose proof (Nat.mod_upper_bound i (slots c) ltac:(lia)) as Hm.
  pose proof (Nat.mod_small (r_slot r) (slots c) Hlt) as Hrs.
  apply (Hn ((r_slot r + slots c - i mod slots c) mod slots c)%nat r); [apply Nat.mod_upper_bound; lia|done|].
  rewrite Nat.Div0.add_mod_idemp_r, <- (Nat.Div0.add_mod_idemp_l i).
  replace (i mod slots c + (r_slot r + slots c - i mod slots c))%nat with (r_slot r + 1 * slots c)%nat by lia.
  by rewrite Nat.Div0.mod_add.
Qed.

(** ** Signing *)

(** The text of a packet. *)
Definition text (code id : Z) (auth : bytes) (l : list attr) : bytes :=
  [code; id] ++ be_bytes 2 (Z.of_nat (20 + length (encode_all l))) ++ auth ++ encode_all l.
(** The first message authenticator set to [d]. *)
Fixpoint fill_ma (d : bytes) (l : list attr) : list attr :=
  match l with
  | [] => []
  | a :: l => if a_type a =? RADIUS_ATTR_MESSAGE_AUTHENTICATOR then Attr (a_type a) d :: l else a :: fill_ma d l
  end.
Definition signed_attrs (code id : Z) (auth : bytes) (l : list attr) : list attr :=
  fill_ma (hmac (secret c) (text code id auth l)) l.
Definition signed_auth (code id : Z) (auth : bytes) (l : list attr) : bytes :=
  if code =? RADIUS_CODE_ACCOUNTING_REQUEST then packet_digest code id (replicate 16 0) (signed_attrs code id auth l) (secret c)
  else auth.
(** A message authenticator has sixteen bytes. *)
Definition ma_ok (l : list attr) : Prop :=
  Forall (fun a => a_type a = RADIUS_ATTR_MESSAGE_AUTHENTICATOR -> length (a_value a) = 16%nat) l.

Lemma hmac_digest key t : is_bytes key -> is_bytes t -> length (hmac key t) = 16%nat /\ is_bytes (hmac key t).
Proof.
  intros Hk Ht. unfold hmac. split; [|apply is_bytes_hash]. apply length_hash.
  apply is_bytes_app; [apply is_bytes_xor_pad|apply is_bytes_hash]; [solve_bytes|]. case_decide.
  all: apply is_bytes_app; [done || apply is_bytes_hash|apply is_bytes_replicate; solve_bytes].
Qed.
Lemma is_bytes_packet_text pack code id auth l : packet_ok pack code id auth l -> is_bytes (text code id auth l).
Proof.
  intros [Hp Hc Hi Ha]. unfold text. rewrite <- (app_nil_r (encode_all l)) at 2.
  apply is_bytes_text; [done..|apply (pa_ok _ _ _ _ _ Hp)|constructor].
Qed.

Lemma fill_ma_find d l pos :
  match find_attr RADIUS_ATTR_MESSAGE_AUTHENTICATOR 0 0 0 pos l with
  | Some t => exists l1 a l2, l = l1 ++ a :: l2 /\ a_type a = RADIUS_ATTR_MESSAGE_AUTHENTICATOR /\
      t = (pos + length (encode_all l1))%nat /\ fill_ma d l = l1 ++ Attr (a_type a) d :: l2
  | None => fill_ma d l = l
  end.
Proof.
  revert pos. induction l as [|a l IH]; intros pos; cbn [find_attr fill_ma]; [done|].
  unfold matches. change (RADIUS_ATTR_MESSAGE_AUTHENTICATOR =? RADIUS_ATTR_VENDOR_SPECIFIC) with false. cbn [andb negb orb].
  rewrite andb_true_r. destruct (Z.eqb_spec (a_type a) RADIUS_ATTR_MESSAGE_AUTHENTICATOR) as [Ha|Ha].
  - exists [], a, l. rewrite Nat.add_0_r. done.
  - specialize (IH (pos + length (encode a))%nat). destruct (find_attr _ _ _ _ _ l) as [t|]; [|by rewrite IH].
    destruct IH as (l1 & a' & l2 & -> & Ha' & -> & Hf). exists (a :: l1), a', l2. rewrite Hf, encode_all_cons, length_app.
    repeat split; [done|lia].
Qed.

Lemma sign_request_ok pack code id auth l :
  packet_ok pack code id auth l -> ma_ok l ->
  exists pack', sign_request c pack = Done pack' /\
    packet_ok pack' code id (signed_auth code id auth l) (signed_attrs code id auth l).
Proof using Hsecret.
  intros [Hp Hc Hi Ha] Hma. unfold sign_request. rewrite (getattr_ok _ _ _ _ _ _ _ _ _ Hp) by done. obind.
  pose proof (fill_ma_find (hmac (secret c) (text code id auth l)) l 20) as Hfind. change (Z.to_nat 0) with 0%nat.
  set (m := match find_attr _ _ _ _ _ _ with Some _ => _ | None => _ end : result bytes).
  assert (Hm : exists p1, m = Done p1 /\ packet p1 code id auth (signed_attrs code id auth l)).
  { unfold m, signed_attrs. destruct (find_attr _ _ _ _ _ l) as [t|]; [|by exists pack; rewrite Hfind].
    destruct Hfind as (l1 & a & l2 & Hl & Hty & -> & ->). rewrite (hmac_md5_ok _ _ _ _ _ _ Hp) by done. obind.
    subst l. apply Forall_app in Hma as [_ [Hlen _]%Forall_cons].
    destruct (hmac_digest (secret c) (text code id auth (l1 ++ a :: l2))) as [Hd1 Hd2]; [by apply Hsecret| |].
    { by apply (is_bytes_packet_text pack). }
    apply packet_set_value; [done|by rewrite Hlen|done]. }
  destruct Hm as (p1 & -> & Hp1). obind. rewrite (packet_code _ _ _ _ _ Hp1). obind. unfold signed_auth.
  destruct (Z.eqb_spec code RADIUS_CODE_ACCOUNTING_REQUEST) as [_|_]; [|by exists p1].
  destruct (sign_ok _ _ _ _ _ (replicate 16 0) (secret c) Hp1) as (p2 & Hs & Hp2); [done..|by apply is_bytes_replicate; solve_bytes|done|].
  exists p2. split; [exact Hs|]. split; [done..|]. apply is_bytes_hash.
Qed.

(** ** Changes of the list of requests *)

Definition deadline (now : timeval) : timeval := Timeval (tv_sec now + radiustimeout c) (tv_usec now).

(** Nothing but the queue differs. *)
Definition kept (q q' : radius_t) : Prop := lastreply q' = lastreply q /\ nextid q' = nextid q.

Lemma rep_fresh q rs i : rep q rs -> i ∉ r_slot <$> rs -> (i < slots c)%nat -> NoDup ((r_slot <$> rs) ++ [i]).
Proof.
  intros Hr Hi _. apply NoDup_app. split; [apply (li_nodup _ _ (re_links _ _ Hr))|]. split; [|apply NoDup_singleton].
  by intros x Hx ->%list_elem_of_singleton.
Qed.

(** A request stored in a free slot and linked behind the others. *)
Lemma rep_append q rs r f :
  rep q rs -> request_ok r -> (r_slot r < slots c)%nat -> r_slot r ∉ r_slot <$> rs ->
  (forall s, core (f s) = slot_of r) -> (forall s, next (f s) = next s /\ prev (f s) = prev s) ->
  exists q', (q ← modify q (r_slot r) f; link_last q (r_slot r)) = Done q' /\ rep q' (rs ++ [r]) /\ kept q q' /\ qnext q' = qnext q.
Proof.
  intros Hr Hok Hi Hn Hf Hl. pose proof (re_size _ _ Hr) as Hsz. rewrite modify_ok by lia. obind.
  destruct (link_last_ok (set_queue (alter f (r_slot r) (queue q)) q) (r_slot <$> rs) (r_slot r)) as (q' & -> & Hlk & Hsame).
  { by apply links_alter; [|apply Hr]. }
  { cbn. rewrite length_alter. lia. }
  { done. }
  exists q'. split; [done|]. pose proof (same_length _ _ Hsame) as Hlen. destruct Hsame as [Hc Hlr Hni Hqn]. cbn in *.
  split; [|by repeat split]. split.
  - rewrite Hlen, length_alter. done.
  - rewrite Hqn. apply Hr.
  - by rewrite fmap_app.
  - eapply cells_core; [exact Hc|]. apply cells_add; [apply Hr|lia|done|done].
  - apply Forall_app. split; [apply Hr|]. by apply Forall_singleton.
Qed.

(** A request taken out of the list and its slot given back. *)
Lemma rep_remove q rs k r :
  rep q rs -> rs !! k = Some r ->
  exists q', (q ← modify q (r_slot r) (set_p None); q ← modify q (r_slot r) (set_state 0); unlink q (r_slot r)) = Done q' /\
    rep q' (delete k rs) /\ kept q q' /\ qnext q' = qnext q.
Proof.
  intros Hr Hk. pose proof (re_size _ _ Hr) as Hsz. pose proof (list_elem_of_lookup_2 _ _ _ Hk) as Hin.
  pose proof (rep_slot_lt _ _ _ Hr Hin) as Hlt. rewrite modify_ok by lia. obind.
  rewrite modify_ok by (cbn; rewrite length_alter; lia). obind. cbn [queue set_queue]. rewrite alter_twice.
  set (f := fun s => set_state 0 (set_p None s)). set (q1 := set_queue _ _).
  assert (Hq1 : links q1 (r_slot <$> rs)).
  { exact (links_alter q _ (r_slot r) f (fun s => conj eq_refl eq_refl) (re_links _ _ Hr)). }
  destruct (unlink_slot_ok q1 _ k (r_slot r) Hq1) as (q' & -> & Hlk & Hsame); [by rewrite list_lookup_fmap, Hk|].
  exists q'. split; [done|]. pose proof (same_length _ _ Hsame) as Hlen. destruct Hsame as [Hc Hlr Hni Hqn].
  assert (Hperm : rs ≡ₚ r :: delete k rs) by by apply delete_Permutation.
  split; [|by repeat split]. split.
  - rewrite Hlen. unfold q1. cbn. by rewrite length_alter.
  - rewrite Hqn. apply Hr.
  - by rewrite list_fmap_delete.
  - eapply cells_core; [exact Hc|]. apply cells_remove; [eapply cells_perm; [exact Hperm|apply Hr]| |done].
    rewrite <- Hperm. apply (li_nodup _ _ (re_links _ _ Hr)).
  - pose proof (re_ok _ _ Hr) as Hall. rewrite Hperm in Hall. by apply Forall_cons in Hall as [_ ?].
Qed.

(** A request that changes where it is. *)
Lemma rep_update q rs k r r' f :
  rep q rs -> rs !! k = Some r -> r_slot r' = r_slot r -> request_ok r' ->
  (forall s, core s = slot_of r -> core (f s) = slot_of r') -> (forall s, next (f s) = next s /\ prev (f s) = prev s) ->
  exists q', modify q (r_slot r) f = Done q' /\ rep q' (<[k := r']> rs) /\ kept q q' /\ qnext q' = qnext q /\
    first q' = first q /\ last q' = last q.
Proof.
  intros Hr Hk Hslot Hok Hf Hl. pose proof (re_size _ _ Hr) as Hsz. pose proof (list_elem_of_lookup_2 _ _ _ Hk) as Hin.
  pose proof (rep_slot_lt _ _ _ Hr Hin) as Hlt. rewrite modify_ok by lia. eexists. split; [reflexivity|].
  split; [|by repeat split]. split.
  - cbn. by rewrite length_alter.
  - apply Hr.
  - rewrite list_fmap_insert, Hslot, list_insert_id by (by rewrite list_lookup_fmap, Hk). by apply links_alter; [|apply Hr].
  - eapply cells_update; [apply Hr|apply (li_nodup _ _ (re_links _ _ Hr))|done..].
  - apply Forall_insert; [apply Hr|done].
Qed.

(** A request unlinked and linked again behind the others. *)
Lemma rep_rotate q rs k r :
  rep q rs -> rs !! k = Some r ->
  exists q', (q ← unlink q (r_slot r); link_last q (r_slot r)) = Done q' /\ rep q' (delete k rs ++ [r]) /\ kept q q' /\
    qnext q' = qnext q.
Proof.
  intros Hr Hk. pose proof (re_size _ _ Hr) as Hsz. pose proof (list_elem_of_lookup_2 _ _ _ Hk) as Hin.
  pose proof (rep_slot_lt _ _ _ Hr Hin) as Hlt. pose proof (re_links _ _ Hr) as Hq.
  destruct (unlink_slot_ok q _ k (r_slot r) Hq) as (q1 & -> & Hq1 & Hs1); [by rewrite list_lookup_fmap, Hk|]. obind.
  pose proof (same_length _ _ Hs1) as Hlen1.
  destruct (link_last_ok q1 _ (r_slot r) Hq1) as (q2 & -> & Hq2 & Hs2); [lia| |].
  { intros Hx. eapply elem_of_delete_NoDup in Hx as [_ Hx]; [done|apply Hq|by rewrite list_lookup_fmap, Hk]. }
  exists q2. split; [done|]. assert (Hs : same q q2) by (by transitivity q1). pose proof (same_length _ _ Hs) as Hlen.
  destruct Hs as [Hc Hlr Hni Hqn]. assert (Hperm : delete k rs ++ [r] ≡ₚ rs).
  { rewrite Permutation_app_comm. symmetry. by apply delete_Permutation. }
  split; [|by repeat split]. split.
  - lia.
  - rewrite Hqn. apply Hr.
  - by rewrite fmap_app, list_fmap_delete.
  - eapply cells_core; [exact Hc|]. eapply cells_perm; [symmetry; exact Hperm|apply Hr].
  - rewrite Hperm. apply Hr.
Qed.

(** ** Queueing, answering, rescheduling *)

Definition queued (i : nat) (cb : Z) (now : timeval) (server code id : Z) (auth : bytes) (l : list attr) (pack : bytes) : request :=
  Request i cb (deadline now) 0 server code id (signed_auth code id auth l) (signed_attrs code id auth l) pack.

Lemma radius_queue_in_ok alloc now q rs pack code id auth l cb :
  rep q rs -> packet_ok pack code id auth l -> ma_ok l ->
  exists r q' pack', radius_queue_in c alloc now q pack cb = Done (r, q', pack') /\ kept q q' /\
    if decide (length rs < slots c)%nat then
      packet_ok pack' code id (signed_auth code id auth l) (signed_attrs code id auth l) /\
      if alloc then r = 0 /\ exists i, rep q' (rs ++ [queued i cb now (lastreply q) code id auth l pack'])
      else r = -1 /\ rep q' rs
    else r = -1 /\ pack' = pack /\ rep q' rs.
Proof using Hqsize Hsecret.
  intros Hr Hp Hma. unfold radius_queue_in.
  destruct (radius_queue_next_ok q rs Hr) as (n & v & -> & Hv & Hn). obind.
  pose proof (rep_set_qnext _ _ v Hr Hv) as Hr1. case_decide as Hlen.
  - destruct Hn as (i & -> & -> & Hi). destruct (sign_request_ok _ _ _ _ _ Hp Hma) as (pack' & -> & Hp'). obind.
    destruct alloc.
    + set (f := fun s => Slot 1 cb _ 0 _ _ (next s) (prev s)).
      destruct (rep_append (set_qnext v q) rs (queued (Z.to_nat v) cb now (lastreply q) code id auth l pack') f) as (q2 & He & Hr2 & Hk & Hqn);
        [done|exact Hp'|cbn; lia|exact Hi|done|done|].
      cbn [r_slot queued] in He. destruct (modify _ _ f) as [q1| |] eqn:Hq1; [|done..]. cbn [mbind outcome_bind] in He |- *.
      rewrite He. obind. exists 0, (bump_qnext c q2), pack'. split; [done|]. rewrite bump_qnext_ok by (rewrite Hqn; cbn; lia).
      split; [done|]. split; [done|]. split; [done|]. exists (Z.to_nat v). apply rep_set_qnext; [done|]. apply Z.mod_pos_bound. lia.
    + rewrite modify_ok by (cbn; rewrite (re_size _ _ Hr); lia). obind. eexists _, _, _. split; [reflexivity|].
      split; [done|]. split; [done|]. split; [done|]. split; cbn.
      * rewrite length_alter. apply Hr.
      * done.
      * apply (links_alter (set_qnext v q)); [done|apply Hr1].
      * split; [|]. 
        -- intros r' Hr'. rewrite list_lookup_alter, decide_False; [by apply Hr|]. intros Heq. apply Hi. rewrite Heq. by apply list_elem_of_fmap_2.
        -- intros j s. rewrite list_lookup_alter. case_decide as Hj; [rewrite <- Hj|by apply Hr].
           intros (s0 & Hs0 & ->)%fmap_Some Hnot. by destruct (ce_free _ _ (re_cells _ _ Hr) _ s0 Hs0 Hi) as [? _].
      * apply Hr.
  - rewrite Hn. obind. eexists _, _, _. split; [reflexivity|]. done.
Qed.

Definition with_lastsent (v : Z) (r : request) : request :=
  Request (r_slot r) (r_cbp r) (r_timeout r) (r_retrans r) v (r_code r) (r_id r) (r_auth r) (r_attrs r) (r_pack r).
(** A request after one more transmission. *)
Definition resent (now : timeval) (r : request) : request :=
  Request (r_slot r) (r_cbp r) (deadline now) (r_retrans r + 1) (r_lastsent r) (r_code r) (r_id r) (r_auth r) (r_attrs r) (r_pack r).

Lemma core_slot_of s r : core s = slot_of r ->
  state s = 1 /\ cbp s = r_cbp r /\ timeout s = r_timeout r /\ retrans s = r_retrans r /\ lastsent s = r_lastsent r /\ p s = Some (r_pack r).
Proof. intros Hs. destruct s, r. unfold core, slot_of in Hs. cbn in *. by injection Hs as -> -> -> -> -> ->. Qed.

Lemma radius_queue_reschedule_ok now q rs k r :
  rep q rs -> rs !! k = Some r ->
  exists q', radius_queue_reschedule c now q (r_slot r) = Done (0, q') /\ rep q' (delete k rs ++ [resent now r]) /\ kept q q' /\
    qnext q' = qnext q.
Proof.
  intros Hr Hk. pose proof (list_elem_of_lookup_2 _ _ _ Hk) as Hin. destruct (rep_lookup _ _ _ Hr Hin) as (s & Hs & Hc & Hok).
  unfold radius_queue_reschedule, deref. rewrite Hs. obind.
  destruct (core_slot_of _ _ Hc) as (-> & _). change (negb (1 =? 1)) with false. cbn iota.
  destruct (rep_update q rs k r (resent now r)
    (fun s => Slot (state s) (cbp s) (Timeval (tv_sec now + radiustimeout c) (tv_usec now)) (retrans s + 1) (lastsent s) (p s) (next s) (prev s)))
    as (q1 & -> & Hr1 & Hk1 & Hqn1 & _); [done..|exact Hok| |done|].
  { intros s0 Hs0. destruct (core_slot_of _ _ Hs0) as (H1 & H2 & H3 & H4 & H5 & H6). unfold core, slot_of, set_next, set_prev. cbn. rewrite H1, H2, H4, H5, H6. done. }
  obind. destruct (rep_rotate q1 _ k (resent now r) Hr1) as (q2 & He & Hr2 & Hk2 & Hqn2).
  { rewrite list_lookup_insert, decide_True; [done|]. split; [done|by eapply lookup_lt_Some]. }
  change (r_slot (resent now r)) with (r_slot r) in He. destruct (unlink q1 (r_slot r)) as [q'| |]; [|done..].
  cbn [mbind outcome_bind] in He |- *. rewrite He. obind. exists q2. rewrite delete_insert_list in Hr2.
  split; [done|]. split; [done|]. unfold kept in *. intuition congruence.
Qed.

Lemma queue_out_found q rs k r pin :
  rep q rs -> rs !! k = Some r ->
  (forall pk, pin = Some pk -> radius_authcheck pk (r_pack r) (secret c) = Done true) ->
  exists q', radius_queue_out c q (Some (r_slot r)) pin = Done (Some (Some (r_pack r), r_cbp r, q')) /\
    rep q' (delete k rs) /\ kept q q' /\ qnext q' = qnext q.
Proof.
  intros Hr Hk Hpin. pose proof (list_elem_of_lookup_2 _ _ _ Hk) as Hin. destruct (rep_lookup _ _ _ Hr Hin) as (s & Hs & Hc & Hok).
  unfold radius_queue_out. cbn [mbind outcome_bind]. unfold deref. rewrite Hs. obind.
  destruct (core_slot_of _ _ Hc) as (-> & -> & _ & _ & _ & ->). change (negb (1 =? 1)) with false. cbn iota.
  destruct (rep_remove q rs k r Hr Hk) as (q2 & He & Hr2 & Hk2 & Hqn2).
  assert (Hno : (match pin with Some pin => ok ← radius_authcheck pin (r_pack r) (secret c); Done (negb ok) | None => Done false end : result bool) = Done false).
  { destruct pin as [pk|]; [|done]. by rewrite (Hpin pk eq_refl). }
  destruct pin as [pk|]; [rewrite Hno|]; obind.
  all: destruct (modify q (r_slot r) (set_p None)) as [q1| |]; [|done..]; cbn [mbind outcome_bind] in He |- *;
    destruct (modify q1 (r_slot r) (set_state 0)) as [q0| |]; [|done..]; cbn [mbind outcome_bind] in He |- *;
    rewrite He; obind; by exists q2.
Qed.

(** ** Whatever is received *)

Definition b_code (pack : bytes) : Z := default 0 (pack !! 0%nat).
Definition b_id (pack : bytes) : Z := default 0 (pack !! 1%nat).
Definition b_auth (pack : bytes) : bytes := take 16 (drop 4 pack).
Definition b_payload (n : nat) (pack : bytes) : bytes := take (n - 20) (drop 20 pack).
(** The authenticator is the digest of the [n] bytes with [a] for the authenticator
    and the secret. *)
Definition signed_by (a pack : bytes) (n : nat) : Prop :=
  b_auth pack = raw_digest (b_code pack) (b_id pack) a (b_payload n pack) (secret c).
#[export] Instance signed_by_dec a pack n : Decision (signed_by a pack n).
Proof. unfold signed_by. apply _. Defined.
(** The memory of a received packet whose header gives its length. *)
Record received (pack : bytes) (n : nat) : Prop := {
  rc_bytes : is_bytes pack;
  rc_memory : length pack = 1600%nat;
  rc_length : pk_length pack = Done (Z.of_nat n);
  rc_range : (20 <= n <= 1600)%nat;
}.

Lemma received_split pack n : received pack n ->
  is_u8 (b_code pack) /\ is_u8 (b_id pack) /\ length (b_auth pack) = 16%nat /\ is_bytes (b_payload n pack) /\
  length (b_payload n pack) = (n - 20)%nat /\
  pack = [b_code pack; b_id pack] ++ be_bytes 2 (Z.of_nat n) ++ b_auth pack ++ b_payload n pack ++ drop n pack.
Proof.
  intros [Hb Hm Hl Hn]. destruct pack as [|x0 [|x1 rest]]; [done..|]. cbn [length] in Hm. unfold b_code, b_id. cbn [lookup list_lookup default].
  inversion_clear Hb as [|? ? H0 Hb']. inversion_clear Hb' as [|? ? H1 Hrest].
  split; [done|]. split; [done|]. split; [unfold b_auth; rewrite length_take, length_drop; cbn [length]; lia|].
  split; [unfold b_payload; apply is_bytes_take, is_bytes_drop; repeat apply is_bytes_cons; done|].
  split; [unfold b_payload; rewrite length_take, length_drop; cbn [length]; lia|].
  unfold pk_length in Hl. rewrite read_ok in Hl by (cbn [length]; lia). cbn [mbind outcome_bind] in Hl.
  change (drop 2 (x0 :: x1 :: rest)) with rest in Hl. injection Hl as Hl.
  assert (Hhd : be_bytes 2 (Z.of_nat n) = take 2 rest).
  { rewrite <- Hl. replace 2%nat with (length (take 2 rest)) at 1 by (rewrite length_take; lia). apply be_bytes_val. by apply is_bytes_take. }
  rewrite Hhd. unfold b_auth, b_payload. change (drop 4 (x0 :: x1 :: rest)) with (drop 2 rest).
  change (drop 20 (x0 :: x1 :: rest)) with (drop 18 rest). replace (drop n (x0 :: x1 :: rest)) with (drop (n - 20) (drop 18 rest)).
  2: { rewrite drop_drop. replace (18 + (n - 20))%nat with (n - 2)%nat by lia.
       destruct n as [|[|m]]; [lia..|]. by replace (S (S m) - 2)%nat with m by lia. }
  rewrite take_drop. change (drop 18 rest) with (drop (2 + 16) rest). rewrite <- drop_drop, take_drop, take_drop. done.
Qed.

Lemma received_authenticated pack n a : received pack n -> is_bytes a -> length a = 16%nat ->
  authenticated pack a (secret c) = Done (bool_decide (signed_by a pack n)).
Proof using Hsecret.
  intros Hr Ha Hla. pose proof (rc_range _ _ Hr). destruct (received_split _ _ Hr) as (Hc & Hi & Hau & Hw & Hlw & Hp).
  rewrite Hp at 1. replace (Z.of_nat n) with (Z.of_nat (20 + length (b_payload n pack))) by (rewrite Hlw; lia).
  rewrite authenticated_raw; [done|done|done|rewrite Hlw; lia|done..].
Qed.

Lemma radius_queue_out_reply q rs pack n :
  rep q rs -> received pack n ->
  exists o, radius_queue_out c q None (Some pack) = Done o /\
    match o with
    | Some (req, cb, q') => exists k r, rs !! k = Some r /\ r_id r = b_id pack /\ signed_by (r_auth r) pack n /\
        req = Some (r_pack r) /\ cb = r_cbp r /\ rep q' (delete k rs) /\ kept q q'
    | None => (forall r, r ∈ rs -> r_id r <> b_id pack) \/ exists r, r ∈ rs /\ r_id r = b_id pack /\ ~ signed_by (r_auth r) pack n
    end.
Proof using Hqsize Hsecret.
  intros Hr Hp. destruct (received_split _ _ Hp) as (Hc & Hi & _ & _ & _ & Hsplit).
  assert (Hid : pk_id pack = Done (b_id pack)) by (rewrite Hsplit at 1; by apply byte_at_ok).
  destruct (radius_queue_idx_ok q rs (b_id pack) Hr Hi) as (ix & Hix & Hfound).
  unfold radius_queue_out. rewrite Hid. obind. rewrite Hix. obind.
  destruct ix as [i|]; [|exists None; split; [done|by left]].
  destruct Hfound as (r & Hin & <- & Hrid). destruct (list_elem_of_lookup_1 _ _ Hin) as [k Hk].
  destruct (rep_lookup _ _ _ Hr Hin) as (s & Hs & Hcs & Hok).
  assert (Hauth : radius_authcheck pack (r_pack r) (secret c) = Done (bool_decide (signed_by (r_auth r) pack n))).
  { unfold radius_authcheck. rewrite (packet_auth _ _ _ _ _ (po_packet _ _ _ _ _ Hok)). obind.
    apply received_authenticated; [done|apply Hok|apply (pa_auth _ _ _ _ _ (po_packet _ _ _ _ _ Hok))]. }
  destruct (decide (signed_by (r_auth r) pack n)) as [Hsig|Hsig].
  - rewrite bool_decide_true in Hauth by done.
    destruct (queue_out_found q rs k r (Some pack) Hr Hk) as (q' & He & Hr' & Hk' & _); [by intros pk [= ->]|].
    unfold radius_queue_out in He. cbn [mbind outcome_bind] in He. cbn [mbind outcome_bind] . rewrite He.
    eexists. split; [reflexivity|]. by exists k, r.
  - exists None. split; [|right; by exists r]. unfold deref. rewrite Hs. obind.
    destruct (core_slot_of _ _ Hcs) as (-> & _ & _ & _ & _ & ->). change (negb (1 =? 1)) with false. cbn iota.
    rewrite Hauth, bool_decide_false by done. done.
Qed.

Context (sendto : event -> bool) (callback : event -> Z).

Definition from_server (addr : Z) : Prop := addr = hisaddr0 c \/ addr = hisaddr1 c.
Definition from_port (port : Z) : Prop := port = authport c \/ port = acctport c.
Definition zeros : bytes := replicate 16 0.

(** The callback for the reply [pack] to the request [r]. *)
Definition reply_events (pack : bytes) (r : request) : list event :=
  if one_of (b_code pack) [RADIUS_CODE_ACCESS_ACCEPT; RADIUS_CODE_ACCESS_REJECT; RADIUS_CODE_ACCESS_CHALLENGE;
                           RADIUS_CODE_DISCONNECT_ACK; RADIUS_CODE_DISCONNECT_NAK; RADIUS_CODE_STATUS_ACCEPT;
                           RADIUS_CODE_STATUS_REJECT] then
    if cb_auth_conf c then [Auth_conf (Some pack) (r_pack r) (r_cbp r)] else []
  else if (b_code pack =? RADIUS_CODE_ACCOUNTING_RESPONSE) && cb_acct_conf c
       then [Acct_conf (Some pack) (r_pack r) (r_cbp r)] else [].
(** What may come of a datagram: nothing; the request of a server, or of anybody if
    so configured, signed with the secret; the answer to one waiting request, from a
    server and signed for that request. *)
Inductive reaction (pack : bytes) (n : nat) (addr port : Z) (rs : list request) : list event -> list request -> Prop :=
| Ignored : reaction pack n addr port rs [] rs
| Changed es :
    one_of (b_code pack) [RADIUS_CODE_DISCONNECT_REQUEST; RADIUS_CODE_COA_REQUEST] = true ->
    coanocheck c = true \/ from_server addr -> signed_by zeros pack n ->
    es = (if cb_coa_ind c then [Coa_ind pack addr port] else []) -> reaction pack n addr port rs es rs
| Answered k r es :
    from_server addr -> from_port port -> rs !! k = Some r -> r_id r = b_id pack -> signed_by (r_auth r) pack n ->
    es = reply_events pack r ->
    reaction pack n addr port rs es (delete k rs).

Lemma rep_set_lastreply q rs v : rep q rs -> rep (set_lastreply v q) rs.
Proof. intros [H1 H2 [H3 H4 H5] H6 H7]. by split. Qed.

Lemma known_spec addr : (addr =? hisaddr0 c) || (addr =? hisaddr1 c) = true <-> from_server addr.
Proof. unfold from_server. by rewrite orb_true_iff, !Z.eqb_eq. Qed.

(** A packet that is as long as its header says. *)
Lemma decaps_received q rs pack n status addr port :
  rep q rs -> received pack n -> status = Z.of_nat n ->
  exists ret q' es rs', radius_decaps c callback (Some (pack, status, addr, port)) q = Done (ret, q', es) /\ rep q' rs' /\
    reaction pack n addr port rs es rs'.
Proof using Hqsize Hsecret.
  intros Hr Hp ->. pose proof (rc_range _ _ Hp) as Hn. unfold radius_decaps.
  rewrite (proj2 (Z.ltb_ge _ _)) by (unfold RADIUS_HDRSIZE; lia). rewrite (rc_length _ _ Hp). obind.
  rewrite u16_small, Z.eqb_refl by (unfold is_u16, in_w; lia). cbn [negb].
  destruct (received_split _ _ Hp) as (_ & _ & _ & _ & _ & Hsplit).
  assert (Hcode : pk_code pack = Done (b_code pack)) by (rewrite Hsplit at 1; by apply byte_at_ok). rewrite Hcode. obind.
  set (known := (addr =? hisaddr0 c) || (addr =? hisaddr1 c)).
  assert (Hno : exists ret q' es rs', Done (-1, q, []) = @Done unit _ (ret, q', es) /\ rep q' rs' /\ reaction pack n addr port rs es rs').
  { exists (-1), q, [], rs. split; [done|]. split; [done|constructor]. }
  destruct (one_of _ [RADIUS_CODE_DISCONNECT_REQUEST; _]) eqn:Hcoa.
  - destruct (negb (coanocheck c) && negb known) eqn:Hk; [done|].
    unfold radius_acctcheck. change (replicate RADIUS_AUTHLEN 0) with zeros.
    rewrite (received_authenticated pack n zeros) by (done || (apply is_bytes_replicate; solve_bytes)).
    obind. case_bool_decide as Hsig; cbn [negb]; [|done].
    exists (if cb_coa_ind c then callback (Coa_ind pack addr port) else 0), q, (if cb_coa_ind c then [Coa_ind pack addr port] else []), rs.
    split; [by destruct (cb_coa_ind c)|]. split; [done|]. apply Changed; [done| |done|done].
    apply andb_false_iff in Hk as [Hk%negb_false_iff|Hk%negb_false_iff]; [by left|right; by apply known_spec].
  - destruct known eqn:Hk; cbn [negb]; [|done]. apply known_spec in Hk.
    destruct (negb (port =? authport c) && negb (port =? acctport c)) eqn:Hport; [done|].
    assert (from_port port).
    { apply andb_false_iff in Hport as [Hx%negb_false_iff%Z.eqb_eq|Hx%negb_false_iff%Z.eqb_eq]; [by left|by right]. }
    destruct (radius_queue_out_reply q rs pack n Hr Hp) as (o & -> & Ho). obind. destruct o as [[[req cb] q2]|]; [|done].
    destruct Ho as (k & r & Hrk & Hid & Hsig & -> & -> & Hr2 & _). obind.
    set (q3 := set_lastreply _ q2). assert (Hr3 : rep q3 (delete k rs)) by by apply rep_set_lastreply.
    pose proof (Answered pack n addr port rs k r _ Hk ltac:(done) Hrk Hid Hsig eq_refl) as Hre.
    revert Hre. clear Hcoa. unfold reply_events. destruct (one_of (b_code pack) _); [|destruct (b_code pack =? _)]; cbn [andb]; intros Hre.
    + destruct (cb_auth_conf c); eexists _, q3, _, _; (split; [reflexivity|done]).
    + destruct (cb_acct_conf c); eexists _, q3, _, _; (split; [reflexivity|done]).
    + eexists _, q3, _, _; (split; [reflexivity|done]).
Qed.

Lemma decaps_ok q rs recv :
  rep q rs ->
  (forall pack status addr port, recv = Some (pack, status, addr, port) ->
     is_bytes pack /\ length pack = 1600%nat /\ 0 <= status <= 1600) ->
  exists ret q' es rs', radius_decaps c callback recv q = Done (ret, q', es) /\ rep q' rs' /\
    (es = [] /\ rs' = rs \/
     exists pack n addr port, recv = Some (pack, Z.of_nat n, addr, port) /\ received pack n /\ reaction pack n addr port rs es rs').
Proof using Hqsize Hsecret.
  intros Hr Hrecv.
  assert (Hno : exists ret q' es rs', Done (-1, q, []) = @Done unit _ (ret, q', es) /\ rep q' rs' /\
    (es = [] /\ rs' = rs \/ exists pack n addr port, recv = Some (pack, Z.of_nat n, addr, port) /\ received pack n /\
       reaction pack n addr port rs es rs')).
  { exists (-1), q, [], rs. split; [done|]. split; [done|by left]. }
  destruct recv as [[[[pack status] addr] port]|]; [|done].
  destruct (Hrecv _ _ _ _ eq_refl) as (Hb & Hm & Hst). destruct (Z.ltb_spec status 20) as [Hlt|Hge].
  { unfold radius_decaps. rewrite (proj2 (Z.ltb_lt _ _)) by done. done. }
  assert (Hpl : exists v, pk_length pack = Done v).
  { unfold pk_length. rewrite read_ok by lia. by eexists. }
  destruct Hpl as [v Hpl]. destruct (Z.eq_dec v status) as [->|Hne].
  - assert (Hp : received pack (Z.to_nat status)) by (split; [done|done|by rewrite Z2Nat.id by lia|lia]).
    destruct (decaps_received q rs pack _ status addr port Hr Hp) as (ret & q' & es & rs' & He & Hr' & Hre); [lia|].
    exists ret, q', es, rs'. split; [done|]. split; [done|]. right.
    exists pack, (Z.to_nat status), addr, port. by rewrite Z2Nat.id by lia.
  - unfold radius_decaps. rewrite (proj2 (Z.ltb_ge _ _)) by (unfold RADIUS_HDRSIZE; lia). rewrite Hpl. obind.
    rewrite u16_small by (unfold is_u16, in_w; lia). by rewrite (proj2 (Z.eqb_neq _ _)).
Qed.

(** C40: the reply to a waiting request, signed for it, from the address of a server
    and one of the two ports, and with a code other than those of requests of the
    server, is delivered to the callback for its code, if there is one, with the packet
    of the request and its pointer, and this request alone leaves the queue, as long as
    the waiting requests have different identifiers; the next requests go to the server
    that answered. *)
Theorem radius_decaps_answers q rs k r pack n addr port :
  rep q rs -> NoDup (r_id <$> rs) -> received pack n ->
  rs !! k = Some r -> r_id r = b_id pack -> signed_by (r_auth r) pack n ->
  from_server addr -> from_port port ->
  one_of (b_code pack) [RADIUS_CODE_DISCONNECT_REQUEST; RADIUS_CODE_COA_REQUEST] = false ->
  exists ret q', radius_decaps c callback (Some (pack, Z.of_nat n, addr, port)) q = Done (ret, q', reply_events pack r) /\
    rep q' (delete k rs) /\ lastreply q' = if addr =? hisaddr0 c then 0 else 1.
Proof using Hqsize Hsecret.
  intros Hr Hids Hp Hk Hid Hsig Haddr Hport Hcode. pose proof (rc_range _ _ Hp) as Hn. unfold radius_decaps.
  rewrite (proj2 (Z.ltb_ge _ _)) by (unfold RADIUS_HDRSIZE; lia). rewrite (rc_length _ _ Hp). obind.
  rewrite u16_small, Z.eqb_refl by (unfold is_u16, in_w; lia). cbn [negb].
  destruct (received_split _ _ Hp) as (_ & _ & _ & _ & _ & Hsplit).
  assert (Hc : pk_code pack = Done (b_code pack)) by (rewrite Hsplit at 1; by apply byte_at_ok). rewrite Hc. obind. rewrite Hcode.
  rewrite (proj2 (known_spec addr) Haddr). cbn [negb].
  assert (negb (port =? authport c) && negb (port =? acctport c) = false) as ->.
  { destruct Hport as [-> | ->]; rewrite Z.eqb_refl; [done|]. by rewrite andb_false_r. }
  assert (Huniq : forall r', r' ∈ rs -> r_id r' = b_id pack -> r' = r).
  { intros r' [k' Hk']%list_elem_of_lookup Hr'. enough (k' = k) by congruence.
    eapply NoDup_lookup; [exact Hids|by rewrite list_lookup_fmap, Hk'|rewrite list_lookup_fmap, Hk; cbn; congruence]. }
  destruct (radius_queue_out_reply q rs pack n Hr Hp) as (o & -> & Ho). obind. destruct o as [[[req cb] q2]|].
  - destruct Ho as (k' & r' & Hk' & Hid' & _ & -> & -> & Hr2 & _). obind.
    assert (r' = r) as -> by (apply Huniq; [by eapply list_elem_of_lookup_2|done]).
    assert (k' = k) as -> by (eapply NoDup_lookup; [exact Hids|rewrite list_lookup_fmap, Hk'; done|by rewrite list_lookup_fmap, Hk]).
    set (q3 := set_lastreply _ q2). assert (Hr3 : rep q3 (delete k rs)) by by apply rep_set_lastreply.
    clear Hcode. unfold reply_events. destruct (one_of (b_code pack) _); [|destruct (b_code pack =? _)]; cbn [andb];
      [destruct (cb_auth_conf c)|destruct (cb_acct_conf c)|]; eexists _, q3; (split; [reflexivity|done]).
  - exfalso. destruct Ho as [Ho|(r' & Hr' & Hid' & Hno)]; [by apply (Ho r); [eapply list_elem_of_lookup_2|]|].
    by rewrite (Huniq r' Hr' Hid') in Hno.
Qed.

(** ** Timeouts *)

Definition expired (now : timeval) (r : request) : bool := 0 <=? radius_cmptv now (r_timeout r).
(** The other server takes over for the retransmission numbered [radiusretrysec]. *)
Definition chosen (r : request) : request :=
  if r_retrans r =? radiusretrysec c - 1 then with_lastsent (if negb (r_lastsent r =? 0) then 0 else 1) r else r.
Definition transmission (r : request) : event :=
  Sendto (server c (r_lastsent r)) (if r_code r =? RADIUS_CODE_ACCOUNTING_REQUEST then acctport c else authport c)
    (text (r_code r) (r_id r) (r_auth r) (r_attrs r)).
(** The callback that says a request was not answered. *)
Definition failure (r : request) : option event :=
  if (r_code r =? RADIUS_CODE_ACCOUNTING_REQUEST) && cb_acct_conf c then Some (Acct_conf None (r_pack r) (r_cbp r))
  else if (r_code r =? RADIUS_CODE_ACCESS_REQUEST) && cb_auth_conf c then Some (Auth_conf None (r_pack r) (r_cbp r))
  else None.

(** [radius_timeout] on the list of the requests. *)
Definition spec_timeout (now later : timeval) (rs : list request) : Z * list request * list event :=
  match rs with
  | [] => (0, [], [])
  | r :: rest =>
    if expired now r then
      if r_retrans r <? radiusretry c then
        let e := transmission (chosen r) in (if sendto e then 0 else -1, rest ++ [resent later (chosen r)], [e])
      else match failure r with Some e => (callback e, rest, [e]) | None => (0, rest, []) end
    else (0, rs, [])
  end.

Lemma rep_first q rs : rep q rs -> first q = r_slot <$> head rs.
Proof. intros Hr. rewrite (dchain_head _ _ _ _ _ (li_chain _ _ (re_links _ _ Hr))). by destruct rs. Qed.

Lemma wire_ok r : request_ok r ->
  port_of c (r_pack r) = Done (if r_code r =? RADIUS_CODE_ACCOUNTING_REQUEST then acctport c else authport c) /\
  wire (r_pack r) = Done (text (r_code r) (r_id r) (r_auth r) (r_attrs r)).
Proof.
  intros [Hp _ _ _]. unfold port_of, wire. rewrite (packet_code _ _ _ _ _ Hp), (packet_length _ _ _ _ _ Hp). obind.
  rewrite Nat2Z.id, (packet_text _ _ _ _ _ Hp). done.
Qed.

(** The choice of the server. *)
Lemma chosen_ok q r rest : rep q (r :: rest) ->
  exists q', (if r_retrans r =? radiusretrysec c - 1
              then modify q (r_slot r) (set_lastsent (if negb (r_lastsent r =? 0) then 0 else 1)) else Done q) = Done q' /\
    rep q' (chosen r :: rest) /\ kept q q'.
Proof.
  intros Hr. pose proof (re_ok _ _ Hr) as [Hok _]%Forall_cons. unfold chosen. destruct (r_retrans r =? _); [|by exists q].
  destruct (rep_update q _ 0 r (with_lastsent (if negb (r_lastsent r =? 0) then 0 else 1) r)
    (set_lastsent (if negb (r_lastsent r =? 0) then 0 else 1)) Hr) as (q' & He & Hr' & Hk & _); [done|done|exact Hok| |done|by exists q'].
  intros s Hs. destruct (core_slot_of _ _ Hs) as (H1 & H2 & H3 & H4 & _ & H6).
  unfold core, slot_of, set_next, set_prev, set_lastsent. cbn. by rewrite H1, H2, H3, H4, H6.
Qed.
Lemma chosen_fields r : r_slot (chosen r) = r_slot r /\ r_retrans (chosen r) = r_retrans r /\ r_timeout (chosen r) = r_timeout r.
Proof. unfold chosen. by destruct (_ =? _). Qed.

Lemma timeout_ok q rs now later :
  rep q rs ->
  let '(ret, rs', es) := spec_timeout now later rs in
  exists q', radius_timeout c sendto callback now later q = Done (ret, q', es) /\ rep q' rs' /\ kept q q'.
Proof using Hqsize.
  intros Hr. pose proof (rep_first _ _ Hr) as Hf. unfold radius_timeout. rewrite Hf. destruct rs as [|r rest]; cbn [head fmap option_fmap option_map].
  { by exists q. }
  assert (Hin : r ∈ r :: rest) by by left. destruct (rep_lookup _ _ _ Hr Hin) as (s & Hs & Hcs & Hok).
  destruct (core_slot_of _ _ Hcs) as (_ & _ & Hto & Hre & Hls & _).
  assert (Hd : deref q (r_slot r) = Done s) by (unfold deref; by rewrite Hs).
  rewrite Hd. obind. cbn [spec_timeout]. rewrite Hto, Hre, Hls. fold (expired now r).
  destruct (expired now r); [|by exists q]. destruct (r_retrans r <? radiusretry c).
  - destruct (chosen_ok q r rest Hr) as (q1 & -> & Hr1 & Hk1). obind. destruct (chosen_fields r) as (Hcs1 & Hcr & Hct).
    destruct (rep_lookup q1 _ (chosen r) Hr1 ltac:(by left)) as (s1 & Hs1 & Hcs2 & Hok1). rewrite Hcs1 in Hs1.
    assert (Hd1 : deref q1 (r_slot r) = Done s1) by (unfold deref; by rewrite Hs1).
    rewrite Hd1. obind. destruct (core_slot_of _ _ Hcs2) as (_ & _ & _ & _ & -> & ->).
    destruct (wire_ok _ Hok1) as [-> ->]. obind.
    destruct (radius_queue_reschedule_ok later q1 _ 0 (chosen r) Hr1 eq_refl) as (q2 & He & Hr2 & Hk2 & _).
    rewrite Hcs1 in He. rewrite He. obind. exists q2. fold (transmission (chosen r)).
    split; [by destruct (sendto _)|]. split; [done|]. unfold kept in *. intuition congruence.
  - destruct (queue_out_found q _ 0 r None Hr eq_refl) as (q' & -> & Hr' & Hk' & _); [done|]. obind.
    rewrite (packet_code _ _ _ _ _ (po_packet _ _ _ _ _ Hok)). obind. unfold failure.
    destruct (_ && _); [by exists q'|]. destruct (_ && _); by exists q'.
Qed.
(** [radius_timeout] looks at the oldest request only.  If that has
    expired it is sent again and goes behind the others with a new timeout, to the
    other server from one retransmission on; when it has been sent [radiusretry]
    times it leaves the queue and is reported; nothing else changes. *)
Theorem radius_timeout_refines q rs now later :
  rep q rs ->
  let '(ret, rs', es) := spec_timeout now later rs in
  exists q', radius_timeout c sendto callback now later q = Done (ret, q', es) /\ rep q' rs' /\ kept q q'.
Proof using Hqsize. by apply timeout_ok. Qed.

(** ** Order of the timeouts *)

(** The list is in the order of the timeouts, none of which is later than a request
    sent now would have. *)
Record timely (now : timeval) (rs : list request) : Prop := {
  ti_sorted : StronglySorted (fun r1 r2 => us (r_timeout r1) <= us (r_timeout r2)) rs;
  ti_bound : Forall (fun r => us (r_timeout r) <= us (deadline now)) rs;
}.

Lemma us_deadline now : us (deadline now) = us now + radiustimeout c * 1000000.
Proof. unfold us. cbn. lia. Qed.
Lemma timely_later now later rs : timely now rs -> us now <= us later -> timely later rs.
Proof.
  intros [Hs Hb] Hle. split; [done|]. eapply Forall_impl; [exact Hb|]. intros r. cbn. rewrite !us_deadline. lia.
Qed.
Lemma timely_app now rs r : timely now rs -> r_timeout r = deadline now -> timely now (rs ++ [r]).
Proof.
  intros [Hs Hb] Hr. split; [|by apply Forall_app; split; [|apply Forall_singleton; rewrite Hr]].
  apply StronglySorted_app_2; [|done|by repeat constructor]. intros x y Hx ->%list_elem_of_singleton. rewrite Hr.
  rewrite Forall_forall in Hb. by apply Hb.
Qed.
Lemma timely_delete now rs k : timely now rs -> timely now (delete k rs).
Proof.
  intros [Hs Hb]. split; [|by apply Forall_delete].
  rewrite delete_take_drop. destruct (rs !! k) as [r|] eqn:Hk.
  - rewrite <- (take_drop_middle rs k r Hk) in Hs. apply StronglySorted_app in Hs as (Hx & H1 & H2).
    apply StronglySorted_inv in H2 as [H2 _]. apply StronglySorted_app_2; [|done..]. intros x y Hi Hj. apply Hx; [done|by right].
  - apply lookup_ge_None in Hk. by rewrite take_ge, drop_ge, app_nil_r by lia.
Qed.
Lemma timely_timeout now later rs : timely now rs -> us now <= us later -> timely later (snd (fst (spec_timeout now later rs))).
Proof.
  intros Ht Hle. pose proof (timely_later _ _ _ Ht Hle) as Hl. destruct rs as [|r rest]; [done|]. cbn [spec_timeout].
  destruct (expired now r); [|done]. destruct (_ <? _); cbn [fst snd].
  - apply timely_app; [|done]. exact (timely_delete later (r :: rest) 0 Hl).
  - destruct (failure r); exact (timely_delete later (r :: rest) 0 Hl).
Qed.

(** While the list is in the order of the timeouts, [radius_timeleft]
    gives the time until the first timeout of all waiting requests, not less than 0
    and not more than the caller asked for. *)
Theorem radius_timeleft_least q rs now tmo :
  rep q rs -> timely now rs -> rs <> [] ->
  exists t, radius_timeleft q now tmo = Done t /\
    (forall r, r ∈ rs -> us t <= Z.max 0 (us (r_timeout r) - us now)) /\ us t <= us tmo /\
    (us t = us tmo \/ exists r, r ∈ rs /\ us t = Z.max 0 (us (r_timeout r) - us now)).
Proof.
  intros Hr [Hs _] Hne. pose proof (rep_first _ _ Hr) as Hf. destruct rs as [|r rest]; [done|]. cbn in Hf.
  assert (Hin : r ∈ r :: rest) by by left. destruct (rep_lookup _ _ _ Hr Hin) as (s & Hsl & Hcs & _).
  destruct (core_slot_of _ _ Hcs) as (_ & _ & Hto & _). unfold radius_timeleft, deref. rewrite Hf, Hsl. obind. rewrite Hto.
  destruct (tv_polarity_ok (r_timeout r) now) as (Hd & Hu & Hsign). set (d := tv_polarity _) in *.
  set (d' := if (tv_sec d <? 0) || (tv_usec d <? 0) then Timeval 0 0 else d).
  assert (Hd' : us d' = Z.max 0 (us (r_timeout r) - us now)).
  { rewrite <- Hd. unfold d'. destruct (Z.ltb_spec (tv_sec d) 0), (Z.ltb_spec (tv_usec d) 0); cbn [orb]; unfold us in *; cbn [tv_sec tv_usec]; lia. }
  assert (Hmin : forall x, x ∈ r :: rest -> us d' <= Z.max 0 (us (r_timeout x) - us now)).
  { intros x Hx. rewrite Hd'. enough (us (r_timeout r) <= us (r_timeout x)) by lia. apply elem_of_cons in Hx as [->|Hx]; [lia|].
    apply StronglySorted_inv in Hs as [_ Hall]. rewrite Forall_forall in Hall. by apply Hall. }
  rewrite cmptv_sgn. destruct (Z.leb_spec (Z.sgn (us tmo - us d')) 0) as [Hc|Hc].
  - exists tmo. split; [done|]. split; [intros x Hx; specialize (Hmin x Hx); lia|]. split; [lia|by left].
  - exists d'. split; [done|]. split; [done|]. split; [lia|]. right. by exists r.
Qed.

(** ** Requests *)

Lemma fill_ma_length d l : length d = 16%nat -> ma_ok l -> length (encode_all (fill_ma d l)) = length (encode_all l).
Proof.
  intros Hd. induction l as [|a l IH]; intros Hma; [done|]. apply Forall_cons in Hma as [Ha Hma]. cbn [fill_ma].
  destruct (Z.eqb_spec (a_type a) RADIUS_ATTR_MESSAGE_AUTHENTICATOR) as [Hty|_]; rewrite !encode_all_cons, !length_app.
  - rewrite !length_encode. cbn. rewrite Hd, (Ha Hty). done.
  - by rewrite (IH Hma).
Qed.
Lemma signed_length pack code id auth l : packet_ok pack code id auth l -> ma_ok l ->
  length (encode_all (signed_attrs code id auth l)) = length (encode_all l).
Proof using Hsecret.
  intros Hp Hma. apply fill_ma_length; [|done]. apply hmac_digest; [apply Hsecret|by eapply is_bytes_packet_text].
Qed.

Lemma req_ok alloc now q rs pack code id auth l cb :
  rep q rs -> packet_ok pack code id auth l -> ma_ok l ->
  exists ret q' pack' es, radius_req c sendto alloc now q pack cb = Done (ret, q', pack', es) /\ kept q q' /\
    if alloc && bool_decide (length rs < slots c)%nat then
      exists i, let r := queued i cb now (lastreply q) code id auth l pack' in
        rep q' (rs ++ [r]) /\ request_ok r /\ es = [transmission r] /\ ret = if sendto (transmission r) then 0 else -1
    else ret = -1 /\ es = [] /\ rep q' rs.
Proof using Hqsize Hsecret.
  intros Hr Hp Hma. unfold radius_req. rewrite (packet_length _ _ _ _ _ (po_packet _ _ _ _ _ Hp)). obind.
  destruct (radius_queue_in_ok alloc now q rs pack code id auth l cb Hr Hp Hma) as (ret & q' & pack' & -> & Hk & Hres). obind.
  destruct (decide (length rs < slots c)%nat) as [Hlt|Hge];
    [rewrite bool_decide_true by done|rewrite bool_decide_false by done; rewrite andb_false_r].
  2: { destruct Hres as (-> & -> & Hr'). by eexists _, q', _, _. }
  destruct Hres as [Hp' Hres]. destruct alloc; cbn [andb].
  2: { destruct Hres as [-> Hr']. by eexists _, q', _, _. }
  destruct Hres as [-> [i Hr']]. change (negb (0 =? 0)) with false. cbn iota.
  set (r := queued i cb now (lastreply q) code id auth l pack') in *.
  destruct (wire_ok r Hp') as [Hport Hw]. change (r_pack r) with pack' in Hport, Hw. rewrite Hport. obind.
  unfold wire in Hw. rewrite (packet_length _ _ _ _ _ (po_packet _ _ _ _ _ Hp')) in Hw. cbn [mbind outcome_bind] in Hw.
  rewrite (signed_length _ _ _ _ _ Hp Hma) in Hw. rewrite Hw. obind. destruct Hk as [Hlr Hni]. rewrite Hlr.
  fold (transmission r). eexists _, q', pack', _. split; [reflexivity|]. split; [done|]. by exists i.
Qed.
(** As long as a slot is free and memory for the copy, [radius_req] queues
    the request behind the others and sends it to the server that answered last, with
    its message authenticator and the authenticator of an accounting request filled
    in; otherwise it fails, sends nothing and leaves the waiting requests alone. *)
Theorem radius_req_queues alloc now q rs pack code id auth l cb :
  rep q rs -> packet_ok pack code id auth l -> ma_ok l ->
  exists ret q' pack' es, radius_req c sendto alloc now q pack cb = Done (ret, q', pack', es) /\ kept q q' /\
    if alloc && bool_decide (length rs < slots c)%nat then
      exists i, let r := queued i cb now (lastreply q) code id auth l pack' in
        rep q' (rs ++ [r]) /\ request_ok r /\ es = [transmission r] /\ ret = if sendto (transmission r) then 0 else -1
    else ret = -1 /\ es = [] /\ rep q' rs.
Proof using Hqsize Hsecret. by apply req_ok. Qed.

(** ** Runs *)

Inductive operation :=
| Request_op (alloc : bool) (pack : bytes) (cb : Z)
| Datagram_op (recv : option (bytes * Z * Z * Z))
| Timeout_op.

(** One call of the daemon, with two readings of the clock. *)
Definition exec (now later : timeval) (o : operation) (q : radius_t) : result (radius_t * list event) :=
  match o with
  | Request_op alloc pack cb => '(_, q, _, es) ← radius_req c sendto alloc now q pack cb; Done (q, es)
  | Datagram_op recv => '(_, q, es) ← radius_decaps c callback recv q; Done (q, es)
  | Timeout_op => '(_, q, es) ← radius_timeout c sendto callback now later q; Done (q, es)
  end.
(** Requests are packets with sound attributes; a datagram is what fits the memory. *)
Definition operation_ok (o : operation) : Prop :=
  match o with
  | Request_op _ pack _ => exists code id auth l, packet_ok pack code id auth l /\ ma_ok l
  | Datagram_op recv => forall pack status addr port, recv = Some (pack, status, addr, port) ->
      is_bytes pack /\ length pack = 1600%nat /\ 0 <= status <= 1600
  | Timeout_op => True
  end.

(** What [radius_new] leaves of the queue's state. *)
Definition radius0 : radius_t := Radius 0 0 [] 0 None None.

(** The states of a queue of [size] slots as the clock runs. *)
Inductive reachable (size : Z) : timeval -> radius_t -> Prop :=
| Start now q : radius_init_q true size radius0 = (qsize c, Some q) -> reachable size now q
| Step now q t t' o q' es :
    reachable size now q -> us now <= us t <= us t' -> operation_ok o -> exec t t' o q = Done (q', es) ->
    reachable size t' q'.

Lemma reaction_timely pack n addr port now rs es rs' : reaction pack n addr port rs es rs' -> timely now rs -> timely now rs'.
Proof. intros [] Ht; [done..|by apply timely_delete]. Qed.

Lemma exec_ok now later o q rs :
  rep q rs -> timely now rs -> us now <= us later -> operation_ok o ->
  exists q' es rs', exec now later o q = Done (q', es) /\ rep q' rs' /\ timely later rs'.
Proof using Hqsize Hsecret.
  intros Hr Ht Hle Ho. pose proof (timely_later _ _ _ Ht Hle) as Hl. destruct o as [alloc pack cb|recv|]; cbn [exec operation_ok] in *.
  - destruct Ho as (code & id & auth & l & Hp & Hma).
    destruct (req_ok alloc now q rs pack code id auth l cb Hr Hp Hma) as (ret & q' & pack' & es & -> & _ & Hres). obind.
    exists q', es. destruct (alloc && _).
    + destruct Hres as (i & Hr' & _). eexists. split; [done|]. split; [done|]. eapply timely_later; [|done]. by apply timely_app.
    + destruct Hres as (_ & _ & Hr'). by exists rs.
  - destruct (decaps_ok q rs recv Hr Ho) as (ret & q' & es & rs' & -> & Hr' & Hre). obind. exists q', es, rs'.
    split; [done|]. split; [done|]. destruct Hre as [[_ ->]|(pack & n & addr & port & _ & _ & Hre)]; [done|]. by eapply reaction_timely.
  - pose proof (timeout_ok q rs now later Hr) as Hto. pose proof (timely_timeout now later rs Ht Hle) as Htt.
    destruct (spec_timeout now later rs) as [[ret rs'] es]. destruct Hto as (q' & -> & Hr' & _). obind. by exists q', es, rs'.
Qed.

Lemma init_ok size q : radius_init_q true size radius0 = (qsize c, Some q) -> rep q [].
Proof using Hqsize.
  pose proof slots_range as Hsl. unfold radius_init_q.
  assert (Hsize : forall n, (if negb (qsize c =? 0) then qsize c else RADIUS_QUEUESIZE) = n -> rep (set_queue (replicate (Z.to_nat n) empty_slot) radius0) []).
  { intros n Hn. split; cbn.
    - rewrite length_replicate. unfold slots. by rewrite Hn.
    - lia.
    - split; cbn; [by split|constructor|constructor].
    - split; [by intros r Hr%elem_of_nil|]. intros i s Hs _. apply lookup_replicate in Hs as [-> _]. done.
    - constructor. }
  destruct ((size <=? 0) || (RADIUS_QUEUESIZE <? size)) eqn:Hout; intros [Hq Hi]%pair_equal_spec; apply (inj Some) in Hi as <-.
  - apply (Hsize RADIUS_QUEUESIZE). by rewrite <- Hq.
  - apply orb_false_iff in Hout as [H0%Z.leb_gt H1%Z.ltb_ge]. apply (Hsize size). rewrite <- Hq. unfold RADIUS_QUEUESIZE, u8 in *.
    change (2 ^ 8) with 256. destruct (Z.eq_dec size 256) as [->|]; [done|]. rewrite Z.mod_small by lia.
    by rewrite (proj2 (Z.eqb_neq _ _)) by lia.
Qed.

(** C9: in every state that requests, datagrams and timeouts lead to, whatever
    they contain and in whatever order they come, the array holds exactly the waiting
    requests, its doubly linked list runs through all of them in the order of their
    timeouts, and every further call succeeds: none reads or writes outside the
    queue or a packet. *)
Theorem reachable_consistent size now q :
  reachable size now q ->
  exists rs, rep q rs /\ timely now rs /\
    forall t t' o, us now <= us t <= us t' -> operation_ok o -> exists q' es, exec t t' o q = Done (q', es).
Proof using Hqsize Hsecret.
  intros Hre.
  assert (Hinv : exists rs, rep q rs /\ timely now rs).
  { induction Hre as [now q Hq|now q t t' o q' es _ IH [Ht Ht'] Ho He].
    - exists []. split; [by eapply init_ok|]. split; constructor.
    - destruct IH as (rs & Hr & Hti). destruct (exec_ok t t' o q rs Hr) as (q2 & es2 & rs' & He2 & Hr' & Hti'); [by eapply timely_later|done..|].
      rewrite He in He2. injection He2 as <- _. by exists rs'. }
  destruct Hinv as (rs & Hr & Hti). exists rs. split; [done|]. split; [done|]. intros t t' o [Ht Ht'] Ho.
  destruct (exec_ok t t' o q rs Hr) as (q' & es & rs' & He & _); [by eapply timely_later|done..|]. by exists q', es.
Qed.

(** ** Requests that are never answered *)

Fixpoint timeouts (ts : list (timeval * timeval)) (q : radius_t) : result (radius_t * list event) :=
  match ts with
  | [] => Done (q, [])
  | (now, later) :: ts =>
    '(_, q, es) ← radius_timeout c sendto callback now later q;
    '(q, es') ← timeouts ts q; Done (q, es ++ es')
  end.
(** Each call comes when everything that was sent before has expired. *)
Fixpoint paced (from : Z) (ts : list (timeval * timeval)) : Prop :=
  match ts with
  | [] => True
  | (now, later) :: ts => from <= us now <= us later /\ paced (us (deadline later)) ts
  end.

Definition resends (r : request) : nat := Z.to_nat (radiusretry c - r_retrans r).
Fixpoint sum_resends (rs : list request) : nat :=
  match rs with [] => O | r :: rs => (resends r + sum_resends rs)%nat end.
(** The packets that go out, those of each request as often as it has retransmissions
    left, and the other events. *)
Definition sent_packet (e : event) : option bytes := match e with Sendto _ _ pack => Some pack | _ => None end.
Definition is_send (e : event) : bool := match e with Sendto _ _ _ => true | _ => false end.
Definition r_wire (r : request) : bytes := text (r_code r) (r_id r) (r_auth r) (r_attrs r).
Definition resent_packets (rs : list request) : list bytes := concat (map (fun r => replicate (resends r) (r_wire r)) rs).

Lemma sum_resends_snoc rs r : sum_resends (rs ++ [r]) = (resends r + sum_resends rs)%nat.
Proof. induction rs as [|x rs IH]; cbn; [lia|]. rewrite IH. lia. Qed.
Lemma resent_packets_snoc rs r : resent_packets (rs ++ [r]) = resent_packets rs ++ replicate (resends r) (r_wire r).
Proof. unfold resent_packets. rewrite map_app, concat_app. cbn [map concat]. by rewrite app_nil_r. Qed.
Lemma resent_wire later r : r_wire (resent later (chosen r)) = r_wire r.
Proof. unfold chosen. by destruct (_ =? _). Qed.
Lemma failure_kind r e : failure r = Some e -> is_send e = false /\ sent_packet e = None.
Proof. unfold failure. destruct (_ && _); [by intros [= <-]|]. destruct (_ && _); [by intros [= <-]|done]. Qed.
Lemma failure_resent later r : failure (resent later (chosen r)) = failure r.
Proof. unfold chosen. by destruct (_ =? _). Qed.
Lemma expired_spec now r : expired now r = true <-> us (r_timeout r) <= us now.
Proof. unfold expired. rewrite cmptv_sgn, Z.leb_le. lia. Qed.

(** One call, on a list that has expired. *)
Lemma spec_timeout_expired now later r rest from :
  0 <= radiustimeout c -> Forall (fun r => us (r_timeout r) <= from) (r :: rest) -> from <= us now <= us later ->
  let '(_, rs', es) := spec_timeout now later (r :: rest) in
  Forall (fun r => us (r_timeout r) <= us (deadline later)) rs' /\
  (length rs' + sum_resends rs' < length (r :: rest) + sum_resends (r :: rest))%nat /\
  S (length rs' + sum_resends rs') = (length (r :: rest) + sum_resends (r :: rest))%nat /\
  resent_packets (r :: rest) ≡ₚ omap sent_packet es ++ resent_packets rs' /\
  omap failure (r :: rest) ≡ₚ List.filter (fun e => negb (is_send e)) es ++ omap failure rs'.
Proof.
  intros H0 Hall Hnow. pose proof Hall as [Hr Hrest]%Forall_cons. cbn [spec_timeout].
  rewrite (proj2 (expired_spec now r)) by lia.
  assert (Hrest' : Forall (fun r => us (r_timeout r) <= us (deadline later)) rest).
  { eapply Forall_impl; [exact Hrest|]. intros x. cbn. rewrite us_deadline. lia. }
  destruct (Z.ltb_spec (r_retrans r) (radiusretry c)) as [Hlt|Hge].
  - destruct (chosen_fields r) as (_ & Hcr & _).
    assert (Hre : resends r = S (resends (resent later (chosen r)))).
    { unfold resends. cbn [r_retrans resent]. rewrite Hcr. lia. }
    rewrite length_app, sum_resends_snoc. cbn [length sum_resends List.filter is_send negb transmission app]. rewrite Hre.
    split; [by apply Forall_app; split; [|by apply Forall_singleton]|]. split; [lia|]. split; [lia|].
    split.
    { rewrite resent_packets_snoc, resent_wire. unfold resent_packets. cbn [map concat omap list_omap sent_packet transmission]. rewrite Hre.
      cbn [replicate app]. assert (text (r_code (chosen r)) (r_id (chosen r)) (r_auth (chosen r)) (r_attrs (chosen r)) = r_wire r) as ->
        by (unfold chosen; by destruct (_ =? _)).
      by rewrite Permutation_app_comm. }
    rewrite omap_app. cbn [omap list_omap]. rewrite failure_resent. destruct (failure r); by rewrite ?app_nil_r, 1?Permutation_app_comm.
  - assert (Hre : resends r = 0%nat) by (unfold resends; lia).
    assert (Hp : resent_packets (r :: rest) = resent_packets rest) by (unfold resent_packets; cbn [map concat]; by rewrite Hre).
    rewrite Hp. cbn [omap list_omap sum_resends length]. rewrite Hre. destruct (failure r) as [e|] eqn:Hf; cbn [List.filter omap list_omap].
    + destruct (failure_kind _ _ Hf) as [-> ->]. cbn. repeat split; [done|lia..|done|done].
    + cbn. repeat split; [done|lia..|done|done].
Qed.

(** C21: requests that nobody answers do not stay: when [radius_timeout] is called again
    and again, each time when all that was sent before has expired, then the packet of
    each request is sent exactly as often as the request has retransmissions left, each
    request is reported once to the daemon as not answered (if there is a callback for
    its kind), and after as many calls as there are requests and retransmissions the
    queue is empty. *)
Theorem radius_timeouts_drain ts : forall q rs from,
  0 <= radiustimeout c -> rep q rs -> Forall (fun r => us (r_timeout r) <= from) rs ->
  paced from ts -> length ts = (length rs + sum_resends rs)%nat ->
  exists q' es, timeouts ts q = Done (q', es) /\ rep q' [] /\
    omap sent_packet es ≡ₚ resent_packets rs /\
    List.filter (fun e => negb (is_send e)) es ≡ₚ omap failure rs.
Proof using Hqsize.
  induction ts as [|[now later] ts IH]; intros q rs from H0 Hr Hall Hp Hlen; cbn [timeouts].
  - destruct rs; [|done]. by exists q, [].
  - destruct Hp as [Hnow Hp]. destruct rs as [|r rest]; [done|].
    pose proof (timeout_ok q _ now later Hr) as Hto. pose proof (spec_timeout_expired now later r rest from H0 Hall Hnow) as Hs.
    destruct (spec_timeout now later (r :: rest)) as [[ret rs'] es]. destruct Hto as (q1 & -> & Hr1 & _). obind.
    destruct Hs as (Hall' & _ & Hlen' & Hsends & Hfail).
    destruct (IH q1 rs' _ H0 Hr1 Hall' Hp) as (q2 & es2 & -> & Hr2 & Hs2 & Hf2); [cbn [length] in Hlen, Hlen'; lia|]. obind.
    exists q2, (es ++ es2). split; [done|]. split; [done|]. rewrite !List.filter_app, omap_app, Hsends, Hs2.
    split; [done|]. by rewrite Hf2, Hfail.
Qed.

(** ** New packets *)

Lemma header_ok code id auth : length auth = 16%nat ->
  exists pack, (pack ← memcpy (replicate (Z.to_nat RADIUS_PACKSIZE) 0) 0 [code];
                pack ← set_length pack (Z.of_nat RADIUS_HDRSIZE);
                pack ← memcpy pack 1 [id]; memcpy pack 4 auth) = Done pack /\ packet pack code id auth [].
Proof.
  intros Ha. change (replicate (Z.to_nat RADIUS_PACKSIZE) 0) with ([0] ++ [0; 0; 0] ++ replicate 16 0 ++ replicate 1580 0).
  rewrite memcpy_head by done. obind. unfold set_length.
  change ([code] ++ [0; 0; 0] ++ replicate 16 0 ++ replicate 1580 0) with ([code; 0] ++ [0; 0] ++ replicate 16 0 ++ replicate 1580 0).
  rewrite memcpy_app by (done || by rewrite length_be_bytes). obind. set (n := be_bytes 2 _).
  change ([code; 0] ++ n ++ replicate 16 0 ++ replicate 1580 0) with ([code] ++ [0] ++ n ++ replicate 16 0 ++ replicate 1580 0).
  rewrite memcpy_app by done. obind. rewrite (app_assoc [id]), (app_assoc [code]).
  rewrite memcpy_app by done. eexists. split; [reflexivity|].
  constructor; [constructor|cbn; lia| | |done].
  - exists (replicate 1580 0). done.
  - rewrite !length_app, Ha. done.
Qed.

(** The attributes of a new packet. *)
Definition default_attrs (version : bytes) (wall code : Z) : list attr :=
  if one_of code [RADIUS_CODE_ACCESS_REQUEST; RADIUS_CODE_ACCOUNTING_REQUEST] then
    Attr RADIUS_ATTR_VENDOR_SPECIFIC (vendor_value RADIUS_VENDOR_CHILLISPOT RADIUS_ATTR_CHILLISPOT_VERSION version) ::
    if code =? RADIUS_CODE_ACCOUNTING_REQUEST then
      [Attr RADIUS_ATTR_VENDOR_SPECIFIC
         (vendor_value RADIUS_VENDOR_CHILLISPOT RADIUS_ATTR_CHILLISPOT_ACCT_VIEW_POINT (be_bytes 4 (if swapoctets c then 1 else 2)));
       Attr RADIUS_ATTR_EVENT_TIMESTAMP (be_bytes 4 wall)]
    else []
  else [].

Lemma default_value version : (0 < length version <= 245)%nat ->
  attr_value RADIUS_ATTR_VENDOR_SPECIFIC RADIUS_VENDOR_CHILLISPOT RADIUS_ATTR_CHILLISPOT_VERSION 0 (Some version) (Z.of_nat (length version)) =
  vendor_value RADIUS_VENDOR_CHILLISPOT RADIUS_ATTR_CHILLISPOT_VERSION version.
Proof.
  intros Hv. unfold attr_value. rewrite Z.eqb_refl. f_equal. unfold stored, value_length, RADIUS_ATTR_VLEN.
  rewrite (proj2 (Z.eqb_neq _ 0)) by lia. cbn [negb]. rewrite (proj2 (Z.ltb_ge _ _)) by lia. rewrite Nat2Z.id. by rewrite take_ge.
Qed.

(** The identifier of a new packet. *)
Definition id_ok (q : radius_t) (rs : list request) (id : Z) : Prop :=
  is_u8 id /\ if qsize c =? 0 then exists i, id = Z.of_nat i /\ (i < slots c)%nat /\ i ∉ r_slot <$> rs else id <> 0.

Lemma next_id_ok q rs : rep q rs -> is_u8 (nextid q) -> (qsize c = 0 -> (length rs < slots c)%nat) ->
  exists id q', (if qsize c =? 0 then
                '(qn, q) ← radius_queue_next c q;
                Done (match qn with Some i => Some (u8 (Z.of_nat i)) | None => None end, q)
              else
                let id := nextid q in
                let q := set_nextid (u8 (nextid q + 1)) q in
                if id =? 0 then Done (Some (nextid q), set_nextid (u8 (nextid q + 1)) q) else Done (Some id, q)) =
    @Done unit _ (Some id, q') /\ rep q' rs /\ is_u8 (nextid q') /\ id_ok q rs id.
Proof using Hqsize.
  intros Hr Hn Hfree. pose proof slots_range as Hsl. unfold id_ok.
  assert (Hset : forall v, rep (set_nextid v q) rs) by (intros v; destruct Hr as [H1 H2 [H3 H4 H5] H6 H7]; by split).
  destruct (Z.eqb_spec (qsize c) 0) as [H0|H0].
  - destruct (radius_queue_next_ok q rs Hr) as (n & v & -> & Hv & Hfound). rewrite decide_True in Hfound by auto.
    destruct Hfound as (i & -> & -> & Hi). obind. exists (u8 (Z.of_nat (Z.to_nat v))), (set_qnext v q).
    rewrite u8_small by (unfold is_u8, in_w; lia). split; [done|]. split; [by apply rep_set_qnext|]. split; [done|].
    split; [unfold is_u8, in_w; lia|]. exists (Z.to_nat v). split; [done|]. split; [lia|done].
  - cbv zeta. destruct (Z.eqb_spec (nextid q) 0) as [He|He].
    + exists (u8 (nextid q + 1)), (set_nextid (u8 (u8 (nextid q + 1) + 1)) q). rewrite He. split; [done|]. split; [apply Hset|].
      split; [apply u8_range|]. split; [apply u8_range|done].
    + exists (nextid q), (set_nextid (u8 (nextid q + 1)) q). split; [done|]. split; [apply Hset|]. split; [apply u8_range|done].
Qed.

(** [radius_default_pack] makes a well-formed packet with the code asked
    for, a random authenticator and the attributes every request of its kind has, that
    [radius_req] can send.  With a queue of full size its identifier is the number of a
    free slot; otherwise identifiers are numbered through, leaving out 0. *)
Theorem radius_default_pack_builds q rs auth version wall code :
  rep q rs -> is_u8 (nextid q) -> (qsize c = 0 -> (length rs < slots c)%nat) ->
  is_bytes auth -> (16 <= length auth)%nat -> is_bytes version -> (0 < length version <= 245)%nat -> is_u8 code ->
  exists id q' pack, radius_default_pack c (Some auth) version wall q code = Done (0, q', pack) /\
    rep q' rs /\ is_u8 (nextid q') /\ id_ok q rs id /\
    packet_ok pack code id (take 16 auth) (default_attrs version wall code) /\ ma_ok (default_attrs version wall code).
Proof using Hqsize.
  intros Hr Hn Hfree Ha Hla Hv Hlv Hc. unfold radius_default_pack. cbv zeta.
  destruct (next_id_ok q rs Hr Hn Hfree) as (id & q' & Hid & Hr' & Hn' & Hok). cbv zeta in Hid.
  destruct (header_ok code id (take 16 auth)) as (p0 & Hp0 & Hpk0); [rewrite length_take; lia|].
  rewrite (u8_small code) by done. revert Hp0.
  destruct (memcpy _ 0 [code]) as [p1| |]; [|done..]. cbn [mbind outcome_bind].
  destruct (set_length p1 _) as [p2| |]; [|done..]. cbn [mbind outcome_bind]. rewrite Hid. cbn [mbind outcome_bind].
  destruct (memcpy p2 1 [id]) as [p3| |]; [|done..]. cbn [mbind outcome_bind]. intros Hp0.
  change RADIUS_AUTHLEN with 16%nat. rewrite Hp0. cbn [mbind outcome_bind]. clear p1 p2 p3 Hp0.
  exists id, q'.
  assert (Hb : is_bytes (take 16 auth)) by by apply is_bytes_take.
  unfold default_attrs. destruct (one_of code _).
  2: { exists p0. split; [done|]. split; [done|]. split; [done|]. split; [done|]. split; [|constructor].
       split; [done|done|apply Hok|done]. }
  pose proof (default_value version Hlv) as Hval.
  destruct (addattr_ok (secret c) p0 code id (take 16 auth) [] RADIUS_ATTR_VENDOR_SPECIFIC RADIUS_VENDOR_CHILLISPOT
    RADIUS_ATTR_CHILLISPOT_VERSION 0 (Some version) (Z.of_nat (length version)) Hpk0) as (p1 & -> & Hp1);
    [done|done|by split|split; [lia|]; split; [done|]; lia|lia|rewrite Hval, length_vendor; cbn; lia|]. obind. rewrite Hval in Hp1.
  destruct (code =? RADIUS_CODE_ACCOUNTING_REQUEST).
  2: { exists p1. split; [done|]. split; [done|]. split; [done|]. split; [done|]. split; [|by repeat constructor].
       split; [done|done|apply Hok|done]. }
  destruct (addattr_ok (secret c) p1 code id (take 16 auth) _ RADIUS_ATTR_VENDOR_SPECIFIC RADIUS_VENDOR_CHILLISPOT
    RADIUS_ATTR_CHILLISPOT_ACCT_VIEW_POINT (if swapoctets c then 1 else 2) None 0 Hp1) as (p2 & -> & Hp2);
    [done|done|by split|by split|lia| |].
  { rewrite encode_all_app, length_app. cbn [app encode_all map concat]. rewrite app_nil_r, length_encode. cbn [a_value].
    rewrite length_vendor. unfold attr_value. rewrite Z.eqb_refl, length_vendor. cbn. lia. }
  obind.
  destruct (addattr_ok (secret c) p2 code id (take 16 auth) _ RADIUS_ATTR_EVENT_TIMESTAMP 0 0 wall None 0 Hp2) as (p3 & -> & Hp3);
    [done|done|by split|by split|done| |].
  { rewrite !encode_all_app, !length_app. cbn [app encode_all map concat]. rewrite !app_nil_r, !length_encode. cbn [a_value].
    rewrite length_vendor. unfold attr_value. rewrite Z.eqb_refl, length_vendor. cbn. lia. }
  obind. exists p3. split; [done|]. split; [done|]. split; [done|]. split; [done|]. split; [|by repeat constructor].
  split; [|done|apply Hok|done]. exact Hp3.
Qed.
End Correct.

(** ** A queue with two requests *)

#[local] Instance demo_digest : Digest := md5_digest LE Md5.garbage eq_refl.

(** Three slots, ten seconds, two retransmissions of which the second goes to the other
    server. *)
Definition demo_conf : radius_conf :=
  Conf 0x0a000001 0x0a000002 1812 1813 demo_secret 3 false true true true 10 2 2 false.
Definition demo_pack2 : bytes := [1; 8; 0; 20] ++ demo_auth ++ replicate 1580 0.
Definition demo_request (i : nat) (cb t id : Z) (pack : bytes) : request :=
  Request i cb (Timeval t 0) 0 0 1 id demo_auth [] pack.
Definition demo_requests : list request := [demo_request 0 77 110 7 demo_pack; demo_request 1 78 112 8 demo_pack2].
Definition demo_queue : radius_t :=
  Radius 0 0 [Slot 1 77 (Timeval 110 0) 0 0 (Some demo_pack) (Some 1%nat) None;
              Slot 1 78 (Timeval 112 0) 0 0 (Some demo_pack2) None (Some 0%nat); empty_slot] 2 (Some 0%nat) (Some 1%nat).
(** The reply to the second request. *)
Definition demo_reply : bytes :=
  [2; 8; 0; 20] ++ hash ([2; 8; 0; 20] ++ demo_auth ++ demo_secret) ++ replicate 1580 0.
Definition always (e : event) : bool := true.
Definition no_answer (e : event) : Z := 0.
Definition outcome_of (r : result (radius_t * list event)) : list event :=
  match r with Done (_, es) => es | _ => [] end.

Lemma demo_qsize : is_u8 (qsize demo_conf).
Proof. by split. Qed.
Lemma demo_secret_ok : good_secret (secret demo_conf).
Proof. exact demo_good. Qed.
Lemma demo_pack_ok : packet_ok demo_pack 1 7 demo_auth [].
Proof. split; [exact demo_packet|solve_bytes..]. Qed.
Lemma demo_pack2_ok : packet_ok demo_pack2 1 8 demo_auth [].
Proof. split; [|solve_bytes..]. constructor; [constructor|cbn; lia|by exists (replicate 1580 0)|done|done]. Qed.

Lemma demo_rep : rep demo_conf demo_queue demo_requests.
Proof.
  split; [done|by split| | |].
  - split; [| |by repeat constructor; cbn; lia].
    + split; [done|done|]. by intros [|[|k]] i Hk; cbn in Hk; simplify_eq.
    + cbn. apply NoDup_cons. split; [by intros Hx%list_elem_of_singleton|apply NoDup_singleton].
  - split.
    + intros r Hr. cbn in Hr. apply elem_of_cons in Hr as [->|Hr%list_elem_of_singleton]; [done|by rewrite Hr].
    + intros [|[|[|i]]] s Hs Hn; cbn in Hs; simplify_eq; [by destruct Hn; left|by destruct Hn; right; left|done].
  - apply Forall_cons. split; [exact demo_pack_ok|]. apply Forall_singleton. exact demo_pack2_ok.
Qed.
Lemma demo_timely : timely demo_conf (Timeval 105 0) demo_requests.
Proof. split; [repeat constructor; vm_compute; congruence|repeat constructor; vm_compute; congruence]. Qed.
Lemma demo_received : received demo_reply 20.
Proof. split; [solve_bytes|vm_compute; reflexivity|vm_compute; reflexivity|lia]. Qed.
Lemma demo_signed : signed_by demo_conf demo_auth demo_reply 20.
Proof. vm_compute. reflexivity. Qed.

(** The first request alone is sent again to the same server, the second time to the
    other server, and then reported. *)
Example demo_run :
  let ts := [(Timeval 110 0, Timeval 110 1); (Timeval 112 0, Timeval 112 0); (Timeval 120 1, Timeval 120 2)] in
  outcome_of (timeouts demo_conf always no_answer ts demo_queue) =
  [Sendto 0x0a000001 1812 ([1; 7; 0; 20] ++ demo_auth); Sendto 0x0a000001 1812 ([1; 8; 0; 20] ++ demo_auth);
   Sendto 0x0a000002 1812 ([1; 7; 0; 20] ++ demo_auth)].
Proof. vm_compute. reflexivity. Qed.

(** ** Witnesses *)

Lemma radius_decaps_answers_witness :
  exists ret q', radius_decaps demo_conf no_answer (Some (demo_reply, 20, 0x0a000002, 1812)) demo_queue =
      Done (ret, q', [Auth_conf (Some demo_reply) demo_pack2 78]) /\
    rep demo_conf q' [demo_request 0 77 110 7 demo_pack] /\ lastreply q' = 1.
Proof.
  refine (radius_decaps_answers demo_conf demo_qsize demo_secret_ok no_answer demo_queue demo_requests 1
    (demo_request 1 78 112 8 demo_pack2) demo_reply 20 0x0a000002 1812 demo_rep _ demo_received eq_refl eq_refl demo_signed
    (or_intror eq_refl) (or_introl eq_refl) eq_refl).
  cbn. apply NoDup_cons. split; [by intros Hx%list_elem_of_singleton|apply NoDup_singleton].
Defined.
Lemma radius_timeout_refines_witness :
  exists q', radius_timeout demo_conf always no_answer (Timeval 110 0) (Timeval 110 1) demo_queue =
      Done (0, q', [Sendto 0x0a000001 1812 ([1; 7; 0; 20] ++ demo_auth)]) /\
    rep demo_conf q' [demo_request 1 78 112 8 demo_pack2; Request 0 77 (Timeval 120 1) 1 0 1 7 demo_auth [] demo_pack] /\
    kept demo_queue q'.
Proof.
  exact (radius_timeout_refines demo_conf demo_qsize always no_answer demo_queue demo_requests (Timeval 110 0) (Timeval 110 1) demo_rep).
Defined.
Lemma radius_timeleft_least_witness :
  exists t, radius_timeleft demo_queue (Timeval 105 0) (Timeval 60 0) = Done t /\ us t <= 5000000.
Proof.
  destruct (radius_timeleft_least demo_conf demo_queue demo_requests (Timeval 105 0) (Timeval 60 0) demo_rep demo_timely ltac:(done))
    as (t & H1 & H2 & _).
  exists t. split; [exact H1|]. etransitivity; [apply (H2 (demo_request 0 77 110 7 demo_pack)); by left|]. vm_compute. congruence.
Defined.
Lemma radius_req_queues_witness :
  exists ret q' pack' es, radius_req demo_conf always true (Timeval 113 0) demo_queue demo_pack 79 = Done (ret, q', pack', es) /\
    exists i, rep demo_conf q' (demo_requests ++ [queued demo_conf i 79 (Timeval 113 0) 0 1 7 demo_auth [] pack']).
Proof.
  destruct (radius_req_queues demo_conf demo_qsize demo_secret_ok always true (Timeval 113 0) demo_queue demo_requests demo_pack
    1 7 demo_auth [] 79 demo_rep demo_pack_ok ltac:(constructor)) as (ret & q' & pack' & es & H1 & _ & i & H2 & _).
  exists ret, q', pack', es. split; [exact H1|]. exists i. exact H2.
Defined.
Lemma reachable_consistent_witness :
  exists q rs, radius_init_q true 3 radius0 = (3, Some q) /\ rep demo_conf q rs /\ timely demo_conf (Timeval 100 0) rs.
Proof.
  destruct (reachable_consistent demo_conf demo_qsize demo_secret_ok always no_answer 3 (Timeval 100 0)
    (set_queue (replicate 3 empty_slot) radius0) (Start demo_conf always no_answer 3 _ _ eq_refl)) as (rs & H1 & H2 & _).
  eexists _, rs. split; [reflexivity|]. split; [exact H1|exact H2].
Defined.
Lemma radius_timeouts_drain_witness :
  let ts := [(Timeval 120 0, Timeval 120 0); (Timeval 130 0, Timeval 130 0); (Timeval 140 0, Timeval 140 0);
             (Timeval 150 0, Timeval 150 0); (Timeval 160 0, Timeval 160 0); (Timeval 170 0, Timeval 170 0)] in
  exists q' es, timeouts demo_conf always no_answer ts demo_queue = Done (q', es) /\ rep demo_conf q' [] /\
    omap sent_packet es ≡ₚ resent_packets demo_conf demo_requests /\ length (resent_packets demo_conf demo_requests) = 4%nat /\
    List.filter (fun e => negb (is_send e)) es ≡ₚ [Auth_conf None demo_pack 77; Auth_conf None demo_pack2 78].
Proof.
  intros ts.
  destruct (radius_timeouts_drain demo_conf demo_qsize always no_answer ts demo_queue demo_requests (120 * 1000000)) as (q' & es & H1 & H2 & H3 & H4);
    [vm_compute; congruence|exact demo_rep|repeat constructor; vm_compute; congruence|repeat split; vm_compute; congruence|reflexivity|].
  exists q', es. split; [exact H1|]. split; [exact H2|]. split; [exact H3|]. split; [reflexivity|exact H4].
Defined.
Lemma radius_default_pack_builds_witness :
  exists id q' pack, radius_default_pack demo_conf (Some demo_auth) (str "1.3.0") 0 demo_queue 1 = Done (0, q', pack) /\
    packet_ok pack 1 id demo_auth [Attr 26 ([0; 0; 56; 223; 8; 7] ++ str "1.3.0")].
Proof.
  destruct (radius_default_pack_builds demo_conf demo_qsize demo_queue demo_requests demo_auth (str "1.3.0") 0 1 demo_rep)
    as (id & q' & pack & H1 & _ & _ & _ & H2 & _); [by split|by intros|solve_bytes|cbn; lia|solve_bytes|cbn; lia|solve_bytes|].
  exists id, q', pack. split; [exact H1|exact H2].
Defined.
End RadiusQueue.
