(* ===== verification/Owipcalc.v ===== *)
(** * The IP calculator ([package/network/utils/owipcalc/src/owipcalc.c])

    The calculator keeps a stack of addresses with prefixes and runs the operations
    of its command line on the top of it.  The address of a [cidr] is a union, kept
    as its 16 bytes: an IPv4 address is the native word in the first four, an IPv6
    address all of them.  [inet_pton] and [inet_ntop] are arguments; [malloc] says
    whether an allocation succeeds, and [heap] is what the memory it returns holds.
    What goes to stderr is not modelled. *)

From S2P Require Import Prelude CLib.

Module Owipcalc.

(** ** Data *)

Inductive af := AF_INET | AF_INET6.
#[export] Instance af_eq_dec : EqDecision af.
Proof. solve_decision. Defined.

Record cidr := Cidr { family : af; prefix : Z; addr : bytes }.

(** The static variables, and what has been printed. *)
Record state := State {
  stack : list cidr;
  quiet : bool;
  printed : bool;
  out : bytes;
}.
Definition set_stack (s : state) (l : list cidr) : state := State l (quiet s) (printed s) (out s).
Definition start : state := State [] false false [].

(** A run ends by [exit] with a code and the output so far. *)
Abbreviation run := (outcome (Z * bytes)).
Definition op_result := run (bool * state).

Definition qprintf (t : bytes) (s : state) : state :=
  State (stack s) (quiet s) true (if quiet s then out s else out s ++ t).
(** [if (printed) qprintf (" ");] *)
Definition separate (s : state) : state := if printed s then qprintf [32] s else s.
(** A test prints "1" or "0" and returns its result. *)
Definition answer (b : bool) (s : state) : op_result :=
  Done (b, qprintf (if b then [49] else [48]) (separate s)).

(** [1 << n] with [n] an unsigned word: undefined from the width on. *)
Definition shl1 {E} (n : Z) : outcome E Z := if n <? 32 then Done (1 <<ᵤ n) else Fault.

Definition byte_at {E} (a : bytes) (i : Z) : outcome E Z :=
  if i <? 0 then Fault else access (a !! Z.to_nat i).
Definition set_byte {E} (a : bytes) (i : Z) (v : Z) : outcome E bytes :=
  if i <? 0 then Fault else access (splice (Z.to_nat i) [v] a).

Section Calc.
Context (e : endian) (malloc : Z -> bool) (heap : bytes).

Definition cidr_size : Z := 80.

(** [addr.v4.s_addr] *)
Definition v4 (a : cidr) : Z := word_val e (take 4 (addr a)).
Definition set_v4 (a : cidr) (x : Z) : cidr :=
  Cidr (family a) (prefix a) (word_bytes e x ++ drop 4 (addr a)).
Definition set_prefix (a : cidr) (p : Z) : cidr := Cidr (family a) p (addr a).
Definition set_addr (a : cidr) (b : bytes) : cidr := Cidr (family a) (prefix a) b.

Definition cidr_push (a : cidr) (s : state) : state := set_stack s (a :: stack s).

Definition cidr_pop (s : state) : op_result :=
  match stack s with
  | _ :: l => Done (true, set_stack s l)
  | [] => Done (false, s)
  end.

(** A copy of [a] is pushed; what the callers do to the copy is a change of the
    top of the stack. *)
Definition cidr_clone (a : cidr) (s : state) : run state :=
  if malloc cidr_size then Done (cidr_push a s) else Fail (255, out s).
Definition set_top (n : cidr) (s : state) : state := set_stack s (n :: tail (stack s)).

(** ** IPv4 operations *)

Definition cidr_add4 (a b : cidr) (s : state) : op_result :=
  let x := ntohl e (v4 a) in
  let y := ntohl e (v4 b) in
  s ← cidr_clone a s;
  if negb (bool_decide (family a = AF_INET)) || negb (bool_decide (family b = AF_INET))
  then Done (false, s)
  else if (x +₃₂ y) <? x then Done (false, s)
  else Done (true, set_top (set_v4 a (htonl e (x +₃₂ y))) s).

Definition cidr_sub4 (a b : cidr) (s : state) : op_result :=
  let x := ntohl e (v4 a) in
  let y := ntohl e (v4 b) in
  s ← cidr_clone a s;
  if negb (bool_decide (family a = AF_INET)) || negb (bool_decide (family b = AF_INET))
  then Done (false, s)
  else if x <? (x -₃₂ y) then Done (false, s)
  else Done (true, set_top (set_v4 a (htonl e (x -₃₂ y))) s).

(** [~((1 << (32 - prefix)) - 1)] and its complement, with [prefix] unsigned. *)
Definition host_mask {E} (p : Z) : outcome E Z := h ← shl1 (32 -₃₂ p); Done (h -₃₂ 1).
Definition net_mask {E} (p : Z) : outcome E Z := h ← host_mask p; Done (~₃₂ h).

Definition cidr_network4 (a : cidr) (s : state) : op_result :=
  s ← cidr_clone a s;
  m ← net_mask (prefix a);
  Done (true, set_top (set_prefix (set_v4 a (v4 a &ᵤ htonl e m)) 32) s).

Definition cidr_broadcast4 (a : cidr) (s : state) : op_result :=
  s ← cidr_clone a s;
  h ← host_mask (prefix a);
  Done (true, set_top (set_prefix (set_v4 a (v4 a |ᵤ htonl e h)) 32) s).

Definition cidr_contains4 (a b : cidr) (s : state) : op_result :=
  m ← net_mask (prefix a);
  let net1 := v4 a &ᵤ htonl e m in
  let net2 := v4 b &ᵤ htonl e m in
  answer ((prefix a <=? prefix b) && (net1 =? net2)) s.

Definition cidr_netmask4 (a : cidr) (s : state) : op_result :=
  s ← cidr_clone a s;
  m ← net_mask (prefix a);
  Done (true, set_top (set_prefix (set_v4 a (htonl e m)) 32) s).

Definition cidr_private4 (a : cidr) (s : state) : op_result :=
  let x := ntohl e (v4 a) in
  answer (((0x0A000000 <=? x) && (x <=? 0x0AFFFFFF)) ||
          ((0xAC100000 <=? x) && (x <=? 0xAC1FFFFF)) ||
          ((0xC0A80000 <=? x) && (x <=? 0xC0A8FFFF))) s.

Definition cidr_linklocal4 (a : cidr) (s : state) : op_result :=
  let x := ntohl e (v4 a) in
  answer ((0xA9FE0000 <=? x) && (x <=? 0xA9FEFFFF)) s.

Definition cidr_prev4 (a b : cidr) (s : state) : op_result :=
  s ← cidr_clone a s;
  h ← shl1 (32 -₃₂ prefix b);
  Done (true, set_top (set_v4 (set_prefix a (prefix b)) (v4 a -₃₂ htonl e h)) s).

Definition cidr_next4 (a b : cidr) (s : state) : op_result :=
  s ← cidr_clone a s;
  h ← shl1 (32 -₃₂ prefix b);
  Done (true, set_top (set_v4 (set_prefix a (prefix b)) (v4 a +₃₂ htonl e h)) s).

Definition cidr_6to4 (a : cidr) (s : state) : op_result :=
  s ← cidr_clone a s;
  let x := v4 a in
  Done (true, set_top (Cidr AF_INET6 48
    ([0x20; 0x02; u8 (x >>ᵤ 24); (x >>ᵤ 16) &ᵤ 0xFF; (x >>ᵤ 8) &ᵤ 0xFF; x &ᵤ 0xFF] ++ replicate 10 0)) s).

(** ** IPv6 operations *)

(** The carry loops run from byte [idx] down to byte 0; they return the bytes and
    the last carry. *)
Fixpoint add_loop {E} (idx : nat) (x y : bytes) (carry : Z) : outcome E (bytes * Z) :=
  xi ← access (x !! idx);
  yi ← access (y !! idx);
  let overflow := if 256 <=? xi + yi + carry then 1 else 0 in
  x ← set_byte x (Z.of_nat idx) (u8 (xi + (yi + carry)));
  match idx with O => Done (x, overflow) | S i => add_loop i x y overflow end.
Fixpoint sub_loop {E} (idx : nat) (x y : bytes) (carry : Z) : outcome E (bytes * Z) :=
  xi ← access (x !! idx);
  yi ← access (y !! idx);
  let underflow := if xi - yi - carry <? 0 then 1 else 0 in
  x ← set_byte x (Z.of_nat idx) (u8 (xi - (yi + carry)));
  match idx with O => Done (x, underflow) | S i => sub_loop i x y underflow end.
Fixpoint inc_loop {E} (idx : nat) (x : bytes) (carry : Z) : outcome E (bytes * Z) :=
  xi ← access (x !! idx);
  let overflow := if 256 <=? xi + carry then 1 else 0 in
  x ← set_byte x (Z.of_nat idx) (u8 (xi + carry));
  match idx with O => Done (x, overflow) | S i => inc_loop i x overflow end.
Fixpoint dec_loop {E} (idx : nat) (x : bytes) (carry : Z) : outcome E (bytes * Z) :=
  xi ← access (x !! idx);
  let underflow := if xi - carry <? 0 then 1 else 0 in
  x ← set_byte x (Z.of_nat idx) (u8 (xi - carry));
  match idx with O => Done (x, underflow) | S i => dec_loop i x underflow end.

Definition cidr_add6 (a b : cidr) (s : state) : op_result :=
  s ← cidr_clone a s;
  if negb (bool_decide (family a = AF_INET6)) || negb (bool_decide (family b = AF_INET6))
  then Done (false, s)
  else
    '(x, carry) ← add_loop 15 (addr a) (addr b) 0;
    Done (carry =? 0, set_top (set_addr a x) s).

Definition cidr_sub6 (a b : cidr) (s : state) : op_result :=
  s ← cidr_clone a s;
  if negb (bool_decide (family a = AF_INET6)) || negb (bool_decide (family b = AF_INET6))
  then Done (false, s)
  else
    '(x, carry) ← sub_loop 15 (addr a) (addr b) 0;
    Done (carry =? 0, set_top (set_addr a x) s).

(** [idx] is a byte; the array has 16. *)
Definition cidr_prev6 (a b : cidr) (s : state) : op_result :=
  s ← cidr_clone a s;
  if prefix b =? 0 then Done (false, s)
  else
    '(x, carry) ← dec_loop (Z.to_nat (u8 ((prefix b - 1) / 8))) (addr a) 1;
    if carry =? 0 then Done (true, set_top (set_prefix (set_addr a x) (prefix b)) s)
    else Done (false, set_top (set_addr a x) s).

Definition cidr_next6 (a b : cidr) (s : state) : op_result :=
  s ← cidr_clone a s;
  if prefix b =? 0 then Done (false, s)
  else
    '(x, carry) ← inc_loop (Z.to_nat (u8 ((prefix b - 1) / 8))) (addr a) 1;
    if carry =? 0 then Done (true, set_top (set_prefix (set_addr a x) (prefix b)) s)
    else Done (false, set_top (set_addr a x) s).

(** [for (i = 0; i < n; i++) s6_addr[15-i] = 0;] *)
Fixpoint clear_loop {E} (n : nat) (i : Z) (x : bytes) : outcome E bytes :=
  match n with
  | O => Done x
  | S n' => x ← set_byte x (15 - i) 0; clear_loop n' (i + 1) x
  end.

Definition cidr_network6 (a : cidr) (s : state) : op_result :=
  s ← cidr_clone a s;
  let host := 128 -₃₂ prefix a in
  let n := host / 8 in
  x ← clear_loop (Z.to_nat n) 0 (addr a);
  x ← (if host mod 8 =? 0 then Done x
       else
         xi ← byte_at x (15 - n);
         set_byte x (15 - n) (xi &ᵤ u8 (Z.lnot ((1 <<ᵤ (host mod 8)) - 1))));
  Done (true, set_top (set_addr a x) s).

Definition cidr_contains6 (a b : cidr) (s : state) : op_result :=
  s ← cidr_clone a s;
  let host := 128 -₃₂ prefix a in
  let i := u8 (host / 8) in
  let m := u8 (Z.lnot ((1 <<ᵤ (host mod 8)) - 1)) in
  xi ← byte_at (addr a) (15 - i);
  yi ← byte_at (addr b) (15 - i);
  let net1 := xi &ᵤ m in
  let net2 := yi &ᵤ m in
  answer ((prefix a <=? prefix b) && (net1 =? net2) &&
          ((i =? 15) || bool_decide (take (Z.to_nat (15 - i)) (addr a) = take (Z.to_nat (15 - i)) (addr b)))) s.

Definition cidr_linklocal6 (a : cidr) (s : state) : op_result :=
  x0 ← byte_at (addr a) 0;
  x1 ← byte_at (addr a) 1;
  answer ((x0 =? 0xFE) && (0x80 <=? x1) && (x1 <=? 0xBF)) s.

Definition cidr_ula6 (a : cidr) (s : state) : op_result :=
  x0 ← byte_at (addr a) 0;
  answer ((0xFC <=? x0) && (x0 <=? 0xFD)) s.

(** ** Operations common to both families *)

Definition cidr_howmany (a b : cidr) (s : state) : op_result :=
  let s := separate s in
  if prefix b <? prefix a then Done (true, qprintf [48] s)
  else
    n ← shl1 (prefix b - prefix a);
    Done (true, qprintf (print_dec n) s).

(** The base address itself is changed; it is the top of the stack. *)
Definition cidr_prefix (a b : cidr) (s : state) : op_result :=
  Done (true, set_top (set_prefix a (prefix b)) s).

Definition cidr_quiet (a : cidr) (s : state) : op_result :=
  Done (true, State (stack s) true (printed s) (out s)).

(** ** Parsing and printing *)

Context (inet_pton : af -> bytes -> option bytes) (inet_ntop : af -> bytes -> option bytes).

(** The address bytes after [inet_pton] has stored its result over them. *)
Definition pton_into (f : af) (t dst : bytes) : option bytes :=
  match inet_pton f t with
  | Some b => splice 0 b dst
  | None => None
  end.

(** [for (prefix = 0; mask; mask >>= 1) prefix += (mask & 1);] *)
Fixpoint count_bits (n : nat) (mask acc : Z) : Z :=
  match n with
  | O => acc
  | S n' => if mask =? 0 then acc else count_bits n' (mask >>ᵤ 1) (acc + (mask &ᵤ 1))
  end.

(** The digits after the slash, for a maximum [m]. *)
Definition parse_prefix (p : bytes) (m : Z) : option Z :=
  let '(v, r) := strtoul 10 p in
  if bool_decide (r = p) || negb (bool_decide (r = [])) || (m <? v) then None else Some v.

Definition cidr_parse4 (t : bytes) : option cidr :=
  if negb (malloc cidr_size) || (33 <=? Z.of_nat (length t)) then None
  else
    let slash := strchr t 47 in
    let host := match slash with Some i => take i t | None => t end in
    let prefix :=
      match slash with
      | Some i =>
        let p := drop (S i) t in
        match strchr p 46 with
        | Some _ => m ← pton_into AF_INET p (replicate 4 0); Some (count_bits 33 (word_val e m) 0)
        | None => parse_prefix p 32
        end
      | None => Some 32
      end in
    pr ← prefix;
    a ← match slash with
        | Some O => splice 0 (replicate 4 0) heap
        | _ => pton_into AF_INET host heap
        end;
    Some (Cidr AF_INET pr a).

Definition cidr_parse6 (t : bytes) : option cidr :=
  if negb (malloc cidr_size) || (51 <=? Z.of_nat (length t)) then None
  else
    let slash := strchr t 47 in
    let host := match slash with Some i => take i t | None => t end in
    pr ← match slash with Some i => parse_prefix (drop (S i) t) 128 | None => Some 128 end;
    a ← match slash with
        | Some O => splice 0 (replicate 16 0) heap
        | _ => pton_into AF_INET6 host heap
        end;
    Some (Cidr AF_INET6 pr a).

(** [None] is the null pointer. A number stands both for the address and for the
    prefix it names. *)
Definition cidr_parse (t : bytes) (af_hint : af) (s : state) : run (option cidr) :=
  let '(sum, r) := strtoul 0 t in
  if negb (bool_decide (r = t)) && bool_decide (r = []) then
    if negb (malloc cidr_size) then Done None
    else
      match af_hint with
      | AF_INET => Done (Some (set_v4 (Cidr AF_INET sum heap) (htonl e sum)))
      | AF_INET6 => Done (Some (Cidr AF_INET6 sum (be_bytes 16 sum)))
      end
  else
    match (if strchr t 58 is Some _ then cidr_parse6 t else cidr_parse4 t) with
    | None => Done None
    | Some a => if decide (family a = af_hint) then Done (Some a) else Fail (4, out s)
    end.

Definition cidr_print (f : af) (max : Z) (a : cidr) (s : state) : op_result :=
  if negb (bool_decide (family a = f)) then Done (false, s)
  else
    match inet_ntop f (take (match f with AF_INET => 4 | AF_INET6 => 16 end) (addr a)) with
    | None => Done (false, s)
    | Some p =>
      let s := qprintf p (separate s) in
      let s := if prefix a <? max then qprintf (47 :: print_dec (prefix a)) s else s in
      '(_, s) ← cidr_pop s;
      Done (true, s)
    end.
Definition cidr_print4 : cidr -> state -> op_result := cidr_print AF_INET 32.
Definition cidr_print6 : cidr -> state -> op_result := cidr_print AF_INET6 128.

(** ** The table of operations *)

Record op := Op {
  name : bytes;
  f4_a1 : option (cidr -> state -> op_result);
  f4_a2 : option (cidr -> cidr -> state -> op_result);
  f6_a1 : option (cidr -> state -> op_result);
  f6_a2 : option (cidr -> cidr -> state -> op_result);
}.
Definition binary (n : string) f4 f6 : op := Op (str n) None f4 None f6.
Definition unary (n : string) f4 f6 : op := Op (str n) f4 None f6 None.

Definition ops : list op := [
  binary "add" (Some cidr_add4) (Some cidr_add6);
  binary "sub" (Some cidr_sub4) (Some cidr_sub6);
  binary "next" (Some cidr_next4) (Some cidr_next6);
  binary "prev" (Some cidr_prev4) (Some cidr_prev6);
  unary "network" (Some cidr_network4) (Some cidr_network6);
  unary "broadcast" (Some cidr_broadcast4) None;
  binary "prefix" (Some cidr_prefix) (Some cidr_prefix);
  unary "netmask" (Some cidr_netmask4) None;
  unary "6to4" (Some cidr_6to4) None;
  binary "howmany" (Some cidr_howmany) (Some cidr_howmany);
  binary "contains" (Some cidr_contains4) (Some cidr_contains6);
  unary "private" (Some cidr_private4) None;
  unary "linklocal" (Some cidr_linklocal4) (Some cidr_linklocal6);
  unary "ula" None (Some cidr_ula6);
  unary "quiet" (Some cidr_quiet) (Some cidr_quiet);
  unary "pop" (Some (fun _ => cidr_pop)) (Some (fun _ => cidr_pop));
  unary "print" (Some cidr_print4) (Some cidr_print6)].

(** ** The command line *)

(** [runop]: whether to go on, the arguments left, the status, the state. *)
Definition run_result := run (bool * list bytes * Z * state).

Definition run_binary (o : op) (args : list bytes) (status : Z) (s : state) : run_result :=
  match args with
  | _ :: arg2 :: rest =>
    a ← access (head (stack s));
    b ← cidr_parse arg2 (family a) s;
    match b with
    | None => Done (false, args, 3, s)
    | Some b =>
      match (match family a with AF_INET => f4_a2 o | AF_INET6 => f6_a2 o end) with
      | None => Done (false, rest, 5, s)
      | Some f => '(r, s) ← f a b s; Done (true, rest, if r : bool then 0 else 1, s)
      end
    end
  | _ => Done (false, args, 2, s)
  end.

Definition run_unary (o : op) (args : list bytes) (status : Z) (s : state) : run_result :=
  let rest := tail args in
  a ← access (head (stack s));
  match (match family a with AF_INET => f4_a1 o | AF_INET6 => f6_a1 o end) with
  | None => Done (false, rest, 5, s)
  | Some f => '(r, s) ← f a s; Done (true, rest, if r : bool then 0 else 1, s)
  end.

Definition runop (args : list bytes) (status : Z) (s : state) : run_result :=
  match args with
  | [] => Done (false, args, status, s)
  | arg1 :: _ =>
    match find_from (fun o => strcmp_eq (name o) arg1) ops with
    | None => Done (false, args, status, s)
    | Some (_, o) =>
      if bool_decide (is_Some (f4_a2 o)) || bool_decide (is_Some (f6_a2 o))
      then run_binary o args status s
      else run_unary o args status s
    end
  end.

(** [while (runop (&arg, &status));] Each turn uses up an argument. *)
Fixpoint run_loop (fuel : nat) (args : list bytes) (status : Z) (s : state)
    : run (list bytes * Z * state) :=
  match fuel with
  | O => Fault
  | S n =>
    '(go, args, status, s) ← runop args status s;
    if go : bool then run_loop n args status s else Done (args, status, s)
  end.

(** [usage] prints to stderr and exits. *)
Definition usage {A} (s : state) : run A := Fail (1, out s).

(** [main], on the arguments after the program name; every way out is an [exit]. *)
Definition main (argv : list bytes) : run unit :=
  match argv with
  | argv1 :: ((_ :: _) as args) =>
    match (if strchr argv1 58 is Some _ then cidr_parse6 argv1 else cidr_parse4 argv1) with
    | None => usage start
    | Some a =>
      '(left_args, status, s) ← run_loop (S (length args)) args 0 (cidr_push a start);
      match left_args with
      | _ :: _ => Fail (6, out s)
      | [] =>
        s ← (if negb (printed s) && (status <? 2) then
               a ← access (head (stack s));
               '(_, s) ← (if decide (family a = AF_INET) then cidr_print4 a s else cidr_print6 a s);
               Done s
             else Done s);
        Fail (status, out (qprintf [10] s))
      end
    end
  | _ => usage start
  end.

(** ** Values of addresses *)

(** A [cidr] as the parsers build it. *)
Definition wf (a : cidr) : Prop := length (addr a) = 16%nat /\ is_bytes (addr a) /\ is_u32 (prefix a).
Definition val4 (a : cidr) : Z := ntohl e (v4 a).
Definition val6 (a : cidr) : Z := be_val (addr a).

Lemma v4_range a : wf a -> is_u32 (v4 a).
Proof.
  intros (Hl & Hb & _). unfold v4.
  assert (Hlen : length (take 4 (addr a)) = 4%nat) by (rewrite length_take; lia).
  rewrite <- (word_bytes_val e (take 4 (addr a)) Hlen (is_bytes_take _ _ Hb)), word_val_bytes.
  apply u32_range.
Qed.
Lemma val4_range a : is_u32 (val4 a).
Proof. apply htonl_range. Qed.
Lemma v4_set a x : v4 (set_v4 a x) = u32 x.
Proof.
  unfold v4, set_v4. cbn [addr]. rewrite <- (word_val_bytes e x). f_equal.
  apply take_app_length'. by rewrite length_word_bytes.
Qed.
Lemma val4_set a x : val4 (set_v4 a (htonl e x)) = u32 x.
Proof. unfold val4. rewrite v4_set, (u32_small (htonl e x)) by apply htonl_range. apply ntohl_htonl. Qed.
Lemma htonl_val4 a : wf a -> htonl e (val4 a) = v4 a.
Proof. intros Hw. unfold val4. by apply htonl_ntohl, v4_range. Qed.

Lemma val4_set_prefix a p x : val4 (set_prefix (set_v4 a x) p) = ntohl e (u32 x).
Proof. unfold val4. change (v4 (set_prefix (set_v4 a x) p)) with (v4 (set_v4 a x)). by rewrite v4_set. Qed.
Lemma wf_set_v4 a x : wf a -> wf (set_v4 a x).
Proof.
  intros (Hl & Hb & Hp). split; [|split]; [|apply is_bytes_app; [apply is_bytes_word_bytes|by apply is_bytes_drop]|done].
  cbn [set_v4 addr]. rewrite length_app, length_word_bytes, length_drop. lia.
Qed.
Lemma wf_set_prefix a p : wf a -> is_u32 p -> wf (set_prefix a p).
Proof. by intros (Hl & Hb & _) Hp. Qed.

Lemma shl1_ok {E} n : 0 <= n < 32 -> @shl1 E n = Done (2 ^ n).
Proof. intros Hn. unfold shl1. rewrite Z.shiftl_1_l. by destruct (Z.ltb_spec n 32); [|lia]. Qed.
Lemma host_mask_ok {E} p : 1 <= p <= 32 -> @host_mask E p = Done (2 ^ (32 - p) - 1).
Proof.
  intros Hp. unfold host_mask. rewrite u32_small by (unfold is_u32, in_w; lia).
  rewrite shl1_ok by lia. obind. f_equal. apply u32_small.
  pose proof (Z.pow_pos_nonneg 2 (32 - p)). pose proof (Z.pow_lt_mono_r 2 (32 - p) 32).
  unfold is_u32, in_w. lia.
Qed.
Lemma net_mask_ok {E} p : 1 <= p <= 32 -> @net_mask E p = Done (~₃₂ (2 ^ (32 - p) - 1)).
Proof. intros Hp. unfold net_mask. by rewrite host_mask_ok. Qed.

(** Masking the native word masks the value. *)
Lemma val4_land a m : wf a -> ntohl e (v4 a &ᵤ htonl e m) = val4 a &ᵤ u32 m.
Proof. intros Hw. by rewrite ntohl_land, ntohl_htonl. Qed.
Lemma val4_lor a m : wf a -> ntohl e (v4 a |ᵤ htonl e m) = val4 a |ᵤ u32 m.
Proof. intros Hw. by rewrite ntohl_lor, ntohl_htonl. Qed.

Lemma set_top_push a n s : set_top n (cidr_push a s) = set_stack s (n :: stack s).
Proof. done. Qed.

(** The result of an operation that pushes a new address. *)
Definition pushes (s : state) (n : cidr -> Prop) (ok : bool) (r : op_result) : Prop :=
  exists c, r = Done (ok, set_stack s (c :: stack s)) /\ n c.

Section Ops.
Context (malloc_ok : forall n, malloc n = true).

Lemma clone_ok a s : cidr_clone a s = Done (cidr_push a s).
Proof. unfold cidr_clone. by rewrite malloc_ok. Qed.

Lemma network4_ok a s :
  wf a -> 1 <= prefix a <= 32 ->
  let size := 2 ^ (32 - prefix a) in
  exists c, cidr_network4 a s = Done (true, set_stack s (c :: stack s)) /\
    wf c /\ prefix c = 32 /\ family c = family a /\ val4 c = val4 a / size * size.
Proof.
  intros Hw Hp size. unfold cidr_network4. rewrite !clone_ok. obind. rewrite net_mask_ok by done. obind.
  eexists. split; [reflexivity|]. split; [apply wf_set_prefix; [by apply wf_set_v4|words]|]. do 2 (split; [done|]).
  rewrite val4_set_prefix, u32_small.
  2: { apply land_in_w; [lia|by apply v4_range|apply htonl_range]. }
  rewrite val4_land, u32_u32 by done. apply land_clear_low; [lia|apply val4_range].
Qed.
Lemma add4_ok a b s :
  family a = AF_INET -> family b = AF_INET -> val4 a + val4 b < 2 ^ 32 ->
  cidr_add4 a b s = Done (true, set_stack s (set_v4 a (htonl e (val4 a + val4 b)) :: stack s)).
Proof.
  intros Ha Hb Hlt. unfold cidr_add4. rewrite clone_ok. obind. rewrite Ha, Hb. cbn [negb orb].
  rewrite !bool_decide_eq_true_2 by done. cbn [negb orb]. fold (val4 a) (val4 b).
  pose proof (val4_range a). pose proof (val4_range b). rewrite u32_small by words.
  destruct (Z.ltb_spec (val4 a + val4 b) (val4 a)); [words|done].
Qed.

(** "network", "broadcast" and "netmask" of an IPv4 address with a prefix
    of 1 to 32 push the first address of its network, the last one, and the mask,
    as host addresses, in either byte order. *)
Theorem cidr_network4_correct a s :
  wf a -> 1 <= prefix a <= 32 ->
  let size := 2 ^ (32 - prefix a) in
  let net := val4 a / size * size in
  pushes s (fun n => prefix n = 32 /\ family n = family a /\ val4 n = net) true (cidr_network4 a s) /\
  pushes s (fun n => prefix n = 32 /\ family n = family a /\ val4 n = net + (size - 1)) true (cidr_broadcast4 a s) /\
  pushes s (fun n => prefix n = 32 /\ family n = family a /\ val4 n = 2 ^ 32 - size) true (cidr_netmask4 a s).
Proof.
  intros Hw Hp size net. split; [|unfold cidr_broadcast4, cidr_netmask4; rewrite !clone_ok; obind].
  { destruct (network4_ok a s Hw Hp) as (c & Hc & _ & Hrest). by exists c. }
  rewrite net_mask_ok, host_mask_ok by done. obind. fold size.
  assert (Hsize : 0 < size <= 2 ^ 31).
  { unfold size. split; [apply Z.pow_pos_nonneg; lia|]. apply Z.pow_le_mono_r; lia. }
  assert (Hval := val4_range a).
  split; (eexists; split; [reflexivity|]; split; [done|]; split; [done|]; rewrite val4_set_prefix).
  - rewrite u32_small by (apply lor_in_w; [lia|by apply v4_range|apply htonl_range]).
    rewrite val4_lor by done. rewrite u32_small by (unfold is_u32, in_w; lia).
    unfold net, size. apply lor_fill_low. lia.
  - rewrite u32_small by apply htonl_range. rewrite ntohl_htonl. unfold u32, Z.lnot. zdm.
Qed.

(** "contains" holds exactly when the argument has at least the
    prefix length of the base address and the two agree on those bits. *)
Lemma cidr_contains4_correct a b s :
  wf a -> wf b -> 1 <= prefix a <= 32 ->
  let size := 2 ^ (32 - prefix a) in
  cidr_contains4 a b s = answer (bool_decide (prefix a <= prefix b /\ val4 a / size = val4 b / size)) s.
Proof.
  intros Ha Hb Hp size. unfold cidr_contains4. rewrite net_mask_ok by done. obind. f_equal.
  assert (Hnet : forall c, wf c -> ntohl e (v4 c &ᵤ htonl e (~₃₂ (size - 1))) = val4 c / size * size).
  { intros c Hc. rewrite val4_land, u32_u32 by done. apply land_clear_low; [lia|apply val4_range]. }
  assert (Hsize : 0 < size) by (apply Z.pow_pos_nonneg; lia).
  fold size. set (m := htonl e _). apply eq_bool_prop_intro. rewrite andb_True, bool_decide_spec, !Is_true_true.
  rewrite Z.leb_le, Z.eqb_eq. split; intros [Hle He]; (split; [done|]).
  - pose proof (f_equal (ntohl e) He) as He'. unfold m in He'. rewrite !Hnet in He' by done. nia.
  - rewrite <- (htonl_ntohl e (v4 a &ᵤ m)), <- (htonl_ntohl e (v4 b &ᵤ m))
      by (apply land_in_w; [lia|by apply v4_range|apply htonl_range]).
    unfold m. rewrite !Hnet, He by done. done.
Qed.

(** "add" and "sub" on IPv4 addresses are addition and subtraction of the
    values; they fail exactly when the result would not fit in 32 bits, and then
    leave a copy of the base address on the stack. *)
Theorem cidr_add4_correct a b s :
  family a = AF_INET -> family b = AF_INET ->
  (let sum := val4 a + val4 b in
   let ok := sum <? 2 ^ 32 in
   pushes s (fun n => prefix n = prefix a /\ (if ok then val4 n = sum else n = a)) ok (cidr_add4 a b s)) /\
  (let diff := val4 a - val4 b in
   let ok := 0 <=? diff in
   pushes s (fun n => prefix n = prefix a /\ (if ok then val4 n = diff else n = a)) ok (cidr_sub4 a b s)).
Proof.
  intros Ha Hb. unfold cidr_add4, cidr_sub4. rewrite !clone_ok. obind.
  rewrite Ha, Hb. rewrite !bool_decide_eq_true_2 by done. cbn [negb orb].
  assert (H1 := val4_range a). assert (H2 := val4_range b). fold (val4 a) (val4 b).
  cbv zeta. split.
  - destruct (Z.ltb_spec (val4 a + val4 b) (2 ^ 32)) as [Hlt|Hge].
    + rewrite u32_small by words. destruct (Z.ltb_spec (val4 a + val4 b) (val4 a)); [words|].
      eexists. split; [reflexivity|]. split; [done|]. rewrite val4_set. apply u32_small. words.
    + destruct (Z.ltb_spec (val4 a +₃₂ val4 b) (val4 a)); [|words].
      eexists. split; [reflexivity|]. done.
  - destruct (Z.leb_spec 0 (val4 a - val4 b)) as [Hle|Hlt].
    + rewrite u32_small by words. destruct (Z.ltb_spec (val4 a) (val4 a - val4 b)); [words|].
      eexists. split; [reflexivity|]. split; [done|]. rewrite val4_set. apply u32_small. words.
    + destruct (Z.ltb_spec (val4 a) (val4 a -₃₂ val4 b)); [|words].
      eexists. split; [reflexivity|]. done.
Qed.

(** ** Arithmetic on 128 bits *)

(** What a carry loop from byte [idx] down does: bytes [0 .. idx] become the digits
    of [v], with the carry [c] out of them weighing [sg]. *)
Definition carried {E} (idx : nat) (x : bytes) (v sg : Z) (r : outcome E (bytes * Z)) : Prop :=
  exists x' c, r = Done (x', c) /\ (c = 0 \/ c = 1) /\ length x' = length x /\ is_bytes x' /\
    drop (S idx) x' = drop (S idx) x /\
    be_val (take (S idx) x') + sg * c * 2 ^ (8 * Z.of_nat (S idx)) = v.

(** One byte of the loops. *)
Lemma carried_step {E} idx x w v v' sg c (r : bytes -> outcome E (bytes * Z)) :
  (idx < length x)%nat -> is_bytes x -> is_u8 w -> (c = 0 \/ c = 1) -> v = v' * 256 + w ->
  (forall x1, length x1 = length x -> is_bytes x1 -> take idx x1 = take idx x ->
     match idx with
     | O => r x1 = Done (x1, c) /\ v' = sg * c
     | S i => carried i x1 v' sg (r x1)
     end) ->
  carried idx x v sg (x1 ← set_byte x (Z.of_nat idx) w; r x1).
Proof.
  intros Hlt Hb Hw Hc Hv Hr. unfold set_byte. destruct (Z.ltb_spec (Z.of_nat idx) 0); [lia|]. rewrite Nat2Z.id.
  rewrite splice_Some by (cbn; lia). obind. set (x1 := take idx x ++ [w] ++ drop (idx + length [w]) x).
  assert (Hl1 : length x1 = length x) by (unfold x1; rewrite !length_app, length_take, length_drop; cbn; lia).
  assert (Hb1 : is_bytes x1) by (by eapply (splice_is_bytes idx [w]); [apply splice_Some; cbn; lia|constructor|]).
  assert (Ht1 : take idx x1 = take idx x) by (unfold x1; apply take_app_length'; rewrite length_take; lia).
  assert (Hw1 : x1 !! idx = Some w).
  { unfold x1. rewrite lookup_app_r by (rewrite length_take; lia). rewrite length_take, Nat.min_l by lia.
    by rewrite Nat.sub_diag. }
  assert (Hd1 : drop (S idx) x1 = drop (S idx) x).
  { unfold x1. rewrite app_assoc, drop_app_length'; [f_equal; cbn; lia|]. rewrite length_app, length_take. cbn. lia. }
  assert (Hsnoc : forall z, length z = length x -> is_bytes z -> z !! idx = Some w ->
            be_val (take (S idx) z) = be_val (take idx z) * 256 + w) by (intros z _ _ Hz; by rewrite (take_S_r _ _ w), be_val_snoc).
  specialize (Hr x1 Hl1 Hb1 Ht1). destruct idx as [|i].
  - destruct Hr as [Hr Hv']. exists x1, c. do 4 (split; [done|]). split; [done|]. rewrite Hsnoc by done. rewrite !take_0 in *. change (be_val []) with 0 in *.
    change (2 ^ (8 * Z.of_nat 1)) with 256. lia.
  - destruct Hr as (x' & c' & Hr & Hc' & Hl' & Hb' & Hd' & Hval). exists x', c'.
    split; [done|]. split; [done|]. split; [lia|]. split; [done|].
    assert (Hlk : x' !! S i = Some w).
    { rewrite <- (Nat.add_0_r (S i)), <- lookup_drop, Hd', lookup_drop, Nat.add_0_r. done. }
    split.
    { replace (S (S i)) with (S i + 1)%nat by lia. rewrite <- !drop_drop, Hd', drop_drop.
      replace (S i + 1)%nat with (S (S i)) by lia. rewrite Hd1. rewrite drop_drop. f_equal. lia. }
    rewrite Hsnoc by (done || lia). rewrite Nat2Z.inj_succ, Z.mul_succ_r, Z.pow_add_r by lia.
    change (2 ^ 8) with 256. nia.
Qed.

Lemma take_S_val n l x : l !! n = Some x -> be_val (take (S n) l) = be_val (take n l) * 256 + x.
Proof. intros Hx. by rewrite (take_S_r _ _ x), be_val_snoc. Qed.
Lemma byte_lookup l i : (i < length l)%nat -> is_bytes l -> exists x, l !! i = Some x /\ is_u8 x.
Proof.
  intros Hi Hb. destruct (lookup_lt_is_Some_2 l i Hi) as [x Hx]. exists x. split; [done|].
  by eapply Forall_lookup_1 in Hb.
Qed.

Lemma add_loop_ok {E} idx x y c :
  (idx < length x)%nat -> (idx < length y)%nat -> is_bytes x -> is_bytes y -> (c = 0 \/ c = 1) ->
  carried idx x (be_val (take (S idx) x) + be_val (take (S idx) y) + c) 1 (@add_loop E idx x y c).
Proof.
  revert x c. induction idx as [|i IH]; intros x c Hx Hy Hbx Hby Hc;
    destruct (byte_lookup _ _ Hx Hbx) as (xi & Hxi & Hxr), (byte_lookup _ _ Hy Hby) as (yi & Hyi & Hyr);
    cbn [add_loop]; rewrite Hxi, Hyi; obind; rewrite (take_S_val _ _ _ Hxi), (take_S_val _ _ _ Hyi);
    unfold is_u8, in_w in Hxr, Hyr;
    set (o := if 256 <=? xi + yi + c then 1 else 0);
    assert (Ho : (o = 0 \/ o = 1) /\ xi + yi + c = o * 256 + u8 (xi + (yi + c)))
      by (unfold o, u8; destruct (Z.leb_spec 256 (xi + yi + c)); zdm).
  - rewrite !take_0. change (be_val []) with 0.
    apply carried_step with (v' := o) (c := o); [done|done|apply u8_range|tauto|lia|].
    intros x1 _ _ _. split; [done|lia].
  - apply carried_step with (v' := be_val (take (S i) x) + be_val (take (S i) y) + o) (c := o);
      [done|done|apply u8_range|tauto|lia|].
    intros x1 Hl1 Hb1 Ht1. rewrite <- Ht1. apply IH; [lia|lia|done|done|tauto].
Qed.

Lemma sub_loop_ok {E} idx x y c :
  (idx < length x)%nat -> (idx < length y)%nat -> is_bytes x -> is_bytes y -> (c = 0 \/ c = 1) ->
  carried idx x (be_val (take (S idx) x) - be_val (take (S idx) y) - c) (-1) (@sub_loop E idx x y c).
Proof.
  revert x c. induction idx as [|i IH]; intros x c Hx Hy Hbx Hby Hc;
    destruct (byte_lookup _ _ Hx Hbx) as (xi & Hxi & Hxr), (byte_lookup _ _ Hy Hby) as (yi & Hyi & Hyr);
    cbn [sub_loop]; rewrite Hxi, Hyi; obind; rewrite (take_S_val _ _ _ Hxi), (take_S_val _ _ _ Hyi);
    unfold is_u8, in_w in Hxr, Hyr;
    set (o := if xi - yi - c <? 0 then 1 else 0);
    assert (Ho : (o = 0 \/ o = 1) /\ xi - yi - c = - o * 256 + u8 (xi - (yi + c)))
      by (unfold o, u8; destruct (Z.ltb_spec (xi - yi - c) 0); zdm).
  - rewrite !take_0. change (be_val []) with 0.
    apply carried_step with (v' := - o) (c := o); [done|done|apply u8_range|tauto|lia|].
    intros x1 _ _ _. split; [done|lia].
  - apply carried_step with (v' := be_val (take (S i) x) - be_val (take (S i) y) - o) (c := o);
      [done|done|apply u8_range|tauto|lia|].
    intros x1 Hl1 Hb1 Ht1. rewrite <- Ht1. apply IH; [lia|lia|done|done|tauto].
Qed.

(** Counting up and down is adding and subtracting zero with a carry. *)
Lemma inc_loop_add {E} idx x c n :
  (idx < n)%nat -> @inc_loop E idx x c = add_loop idx x (replicate n 0) c.
Proof.
  revert x c. induction idx as [|i IH]; intros x c Hn; cbn [inc_loop add_loop];
    (destruct (x !! _) as [xi|]; obind; [|done]); rewrite lookup_replicate_2 by done; obind;
    rewrite Z.add_0_r, Z.add_0_l; [done|].
  destruct (set_byte x _ _) as [x1| |]; obind; try done. apply IH. lia.
Qed.
Lemma dec_loop_sub {E} idx x c n :
  (idx < n)%nat -> @dec_loop E idx x c = sub_loop idx x (replicate n 0) c.
Proof.
  revert x c. induction idx as [|i IH]; intros x c Hn; cbn [dec_loop sub_loop];
    (destruct (x !! _) as [xi|]; obind; [|done]); rewrite lookup_replicate_2 by done; obind;
    rewrite Z.sub_0_r, Z.add_0_l; [done|].
  destruct (set_byte x _ _) as [x1| |]; obind; try done. apply IH. lia.
Qed.

Lemma val6_range a : wf a -> 0 <= val6 a < 2 ^ 128.
Proof. intros (Hl & Hb & _). pose proof (be_val_range (addr a) Hb) as Hr. rewrite Hl in Hr. apply Hr. Qed.

(** "add" and "sub" on IPv6 addresses are addition and subtraction of
    128-bit numbers; they succeed exactly when the result fits, and otherwise leave
    the wrapped result on the stack. *)
Theorem cidr_add6_correct a b s :
  wf a -> wf b -> family a = AF_INET6 -> family b = AF_INET6 ->
  pushes s (fun n => wf n /\ prefix n = prefix a /\ val6 n = (val6 a + val6 b) mod 2 ^ 128)
    (val6 a + val6 b <? 2 ^ 128) (cidr_add6 a b s) /\
  pushes s (fun n => wf n /\ prefix n = prefix a /\ val6 n = (val6 a - val6 b) mod 2 ^ 128)
    (0 <=? val6 a - val6 b) (cidr_sub6 a b s).
Proof.
  intros Ha Hb Hfa Hfb. unfold cidr_add6, cidr_sub6. rewrite !clone_ok. obind.
  rewrite Hfa, Hfb, !bool_decide_eq_true_2 by done. cbn [negb orb].
  assert (Hra := val6_range a Ha). assert (Hrb := val6_range b Hb).
  destruct Ha as (Hla & Hba & Hpa), Hb as (Hlb & Hbb & _).
  assert (Hfull : forall l : bytes, length l = 16%nat -> take 16 l = l) by (intros l Hl; apply take_ge; lia).
  split.
  - destruct (@add_loop_ok (Z * bytes) 15 (addr a) (addr b) 0) as (x' & c & -> & Hc & Hl & Hbx & _ & Hv);
      [lia|lia|done|done|by left|]. obind.
    rewrite (Hfull x'), (Hfull (addr a)), (Hfull (addr b)) in Hv by lia.
    fold (val6 a) (val6 b) in Hv. change (8 * Z.of_nat 16) with 128 in Hv.
    exists (set_addr a x'). pose proof (be_val_range x' Hbx) as Hrx. rewrite Hl, Hla in Hrx.
    change (8 * Z.of_nat 16) with 128 in Hrx. split.
    + do 2 f_equal. destruct (Z.ltb_spec (val6 a + val6 b) (2 ^ 128)), (Z.eqb_spec c 0); lia || done.
    + split; [split; [cbn; lia|done]|]. split; [done|]. unfold val6 at 1. cbn [addr set_addr].
      apply Z.mod_unique_pos with (q := c); lia.
  - destruct (@sub_loop_ok (Z * bytes) 15 (addr a) (addr b) 0) as (x' & c & -> & Hc & Hl & Hbx & _ & Hv);
      [lia|lia|done|done|by left|]. obind.
    rewrite (Hfull x'), (Hfull (addr a)), (Hfull (addr b)) in Hv by lia.
    fold (val6 a) (val6 b) in Hv. change (8 * Z.of_nat 16) with 128 in Hv.
    exists (set_addr a x'). pose proof (be_val_range x' Hbx) as Hrx. rewrite Hl, Hla in Hrx.
    change (8 * Z.of_nat 16) with 128 in Hrx. split.
    + do 2 f_equal. destruct (Z.leb_spec 0 (val6 a - val6 b)), (Z.eqb_spec c 0); lia || done.
    + split; [split; [cbn; lia|done]|]. split; [done|]. unfold val6 at 1. cbn [addr set_addr].
      apply Z.mod_unique_pos with (q := - c); lia.
Qed.

(** "next" and "prev" on IPv6 addresses move by one unit of the last
    byte the prefix reaches into and fail exactly on leaving the address space;
    the unit is the size of the network when the prefix is a multiple of 8, and
    otherwise smaller. *)
Theorem cidr_next6_step a b s :
  wf a -> 1 <= prefix b <= 128 ->
  let unit := 2 ^ (8 * (15 - (prefix b - 1) / 8)) in
  (prefix b mod 8 = 0 -> unit = 2 ^ (128 - prefix b)) /\
  (prefix b mod 8 <> 0 -> unit < 2 ^ (128 - prefix b)) /\
  pushes s (fun n => val6 n = (val6 a + unit) mod 2 ^ 128 /\
      (val6 a + unit < 2 ^ 128 -> prefix n = prefix b))
    (val6 a + unit <? 2 ^ 128) (cidr_next6 a b s) /\
  pushes s (fun n => val6 n = (val6 a - unit) mod 2 ^ 128 /\ (0 <= val6 a - unit -> prefix n = prefix b))
    (0 <=? val6 a - unit) (cidr_prev6 a b s).
Proof.
  intros Ha Hp unit. assert (Hra := val6_range a Ha). destruct Ha as (Hla & Hba & Hpa).
  split; [intros H8; unfold unit; f_equal; zdm|].
  split; [intros H8; unfold unit; apply Z.pow_lt_mono_r; zdm|].
  unfold cidr_next6, cidr_prev6. rewrite !clone_ok. obind.
  destruct (Z.eqb_spec (prefix b) 0) as [|_]; [lia|].
  assert (Hidx : u8 ((prefix b - 1) / 8) = (prefix b - 1) / 8) by (apply u8_small; words). rewrite Hidx.
  set (idx := Z.to_nat ((prefix b - 1) / 8)).
  assert (Hi : (idx <= 15)%nat) by (unfold idx; zdm).
  assert (Hunit : unit = 2 ^ (8 * Z.of_nat (16 - S idx))) by (unfold unit, idx; do 2 f_equal; zdm).
  assert (Hpos : 0 < unit) by (unfold unit; apply Z.pow_pos_nonneg; zdm).
  assert (Hbig : 2 ^ (8 * Z.of_nat (S idx)) * unit = 2 ^ 128).
  { rewrite Hunit, <- Z.pow_add_r by lia. f_equal. lia. }
  assert (Hval : forall x, length x = 16%nat -> drop (S idx) x = drop (S idx) (addr a) ->
            be_val x = be_val (take (S idx) x) * unit + be_val (drop (S idx) (addr a))).
  { intros x Hx <-. rewrite (be_val_split (S idx) x), Hx, <- Hunit. done. }
  assert (Hva := Hval (addr a) Hla eq_refl). fold (val6 a) in Hva.
  split.
  - rewrite (inc_loop_add idx _ _ 16) by lia.
    destruct (@add_loop_ok (Z * bytes) idx (addr a) (replicate 16 0) 1) as (x' & c & -> & Hc & Hl & Hbx & Hd & Hv);
      [lia|rewrite length_replicate; lia|done|apply is_bytes_replicate; words|by right|]. obind.
    rewrite take_replicate, be_val_zeros in Hv.
    specialize (Hval x' ltac:(lia) Hd). pose proof (be_val_range x' Hbx) as Hrx. rewrite Hl, Hla in Hrx.
    change (8 * Z.of_nat 16) with 128 in Hrx.
    assert (Hsum : be_val x' + c * 2 ^ 128 = val6 a + unit) by (rewrite <- Hbig; nia).
    destruct (Z.eqb_spec c 0), (Z.ltb_spec (val6 a + unit) (2 ^ 128)); try lia;
      (eexists; split; [reflexivity|]; split; [|intros; first [lia|done]]);
      unfold val6 at 1; cbn [addr set_addr set_prefix]; apply Z.mod_unique_pos with (q := c); lia.
  - rewrite (dec_loop_sub idx _ _ 16) by lia.
    destruct (@sub_loop_ok (Z * bytes) idx (addr a) (replicate 16 0) 1) as (x' & c & -> & Hc & Hl & Hbx & Hd & Hv);
      [lia|rewrite length_replicate; lia|done|apply is_bytes_replicate; words|by right|]. obind.
    rewrite take_replicate, be_val_zeros in Hv.
    specialize (Hval x' ltac:(lia) Hd). pose proof (be_val_range x' Hbx) as Hrx. rewrite Hl, Hla in Hrx.
    change (8 * Z.of_nat 16) with 128 in Hrx.
    assert (Hsum : be_val x' - c * 2 ^ 128 = val6 a - unit) by (rewrite <- Hbig; nia).
    destruct (Z.eqb_spec c 0), (Z.leb_spec 0 (val6 a - unit)); try lia;
      (eexists; split; [reflexivity|]; split; [|intros; first [lia|done]]);
      unfold val6 at 1; cbn [addr set_addr set_prefix]; apply Z.mod_unique_pos with (q := - c); lia.
Qed.

(** ** Prefixes of 128-bit numbers *)

Lemma high_bits l n h x :
  length l = 16%nat -> is_bytes l -> (n <= 15)%nat -> 0 <= h < 8 -> l !! (15 - n)%nat = Some x ->
  be_val l / 2 ^ (8 * Z.of_nat n + h) = be_val (take (15 - n) l) * 2 ^ (8 - h) + x / 2 ^ h /\ is_u8 x.
Proof.
  intros Hl Hb Hn Hh Hx. assert (Hxr : is_u8 x) by (by eapply Forall_lookup_1 in Hb). split; [|done].
  rewrite (be_val_split (S (15 - n)) l), Hl, (take_S_val _ _ _ Hx).
  replace (16 - S (15 - n))%nat with n by lia.
  pose proof (be_val_range (drop (S (15 - n)) l) (is_bytes_drop _ _ Hb)) as Hd.
  rewrite length_drop, Hl in Hd. replace (16 - S (15 - n))%nat with n in Hd by lia.
  set (T := be_val (take _ l)). set (D := be_val (drop _ l)) in *. set (N := 2 ^ (8 * Z.of_nat n)) in *.
  assert (HN : 0 < N) by (apply Z.pow_pos_nonneg; lia).
  rewrite Z.pow_add_r by lia. fold N. rewrite <- Z.div_div by (try lia; apply Z.pow_nonzero; lia).
  rewrite Z.div_add_l, (Z.div_small D), Z.add_0_r by lia.
  replace 256 with (2 ^ (8 - h) * 2 ^ h) by (rewrite <- Z.pow_add_r by lia; by replace (8 - h + h) with 8 by lia).
  rewrite Z.mul_assoc, Z.div_add_l by (apply Z.pow_nonzero; lia). done.
Qed.

Lemma clear_loop_ok {E} n i x :
  length x = 16%nat -> 0 <= i -> (Z.to_nat i + n <= 16)%nat ->
  @clear_loop E n i x = Done (take (16 - Z.to_nat i - n) x ++ replicate n 0 ++ drop (16 - Z.to_nat i) x).
Proof.
  revert i x. induction n as [|n IH]; intros i x Hl Hi Hn; cbn [clear_loop].
  - cbn [replicate app]. replace (16 - Z.to_nat i - 0)%nat with (16 - Z.to_nat i)%nat by lia. by rewrite take_drop.
  - unfold set_byte. destruct (Z.ltb_spec (15 - i) 0); [lia|].
    rewrite splice_Some by (cbn; lia). obind. cbn [length].
    set (k := Z.to_nat (15 - i)). set (x1 := take k x ++ [0] ++ drop (k + 1) x).
    assert (Hl1 : length x1 = 16%nat) by (unfold x1; rewrite !length_app, length_take, length_drop; cbn; lia).
    rewrite IH by lia. f_equal.
    replace (Z.to_nat (i + 1)) with (S (Z.to_nat i)) by lia.
    assert (Hk : k = (16 - S (Z.to_nat i))%nat) by lia. rewrite <- Hk.
    assert (Ht : take (k - n) x1 = take (16 - Z.to_nat i - S n) x).
    { unfold x1. rewrite take_app_le by (rewrite length_take; lia). rewrite take_take. f_equal. lia. }
    assert (Hd : drop k x1 = 0 :: drop (16 - Z.to_nat i) x).
    { unfold x1. rewrite drop_app_length' by (rewrite length_take; lia). cbn. do 2 f_equal. lia. }
    rewrite Ht, Hd. f_equal. replace (S n) with (n + 1)%nat by lia. rewrite replicate_add, <- app_assoc. done.
Qed.

Lemma mask_byte x h : 0 <= h < 8 -> is_u8 x -> x &ᵤ u8 (Z.lnot ((1 <<ᵤ h) - 1)) = x / 2 ^ h * 2 ^ h.
Proof.
  intros Hh Hx. rewrite Z.shiftl_1_l.
  replace (2 ^ h - 1) with (Z.ones h) by (rewrite Z.ones_equiv; lia).
  unfold u8. rewrite <- Z.land_ones, (Z.land_comm (Z.lnot _)), Z.land_assoc, Z.land_ones by lia.
  rewrite (Z.mod_small x) by exact Hx. change (Z.land x (Z.lnot (Z.ones h))) with (Z.ldiff x (Z.ones h)) || rewrite <- Z.ldiff_land.
  by rewrite Z.ldiff_ones_r, Z.shiftr_div_pow2, Z.shiftl_mul_pow2 by lia.
Qed.

(** The number of host bits, split into bytes and bits. *)
Lemma host_split p : 0 <= p <= 128 -> 128 -₃₂ p = 8 * ((128 -₃₂ p) / 8) + (128 -₃₂ p) mod 8 /\ 128 -₃₂ p = 128 - p.
Proof. intros Hp. split; [apply Z.div_mod; lia|]. apply u32_small. unfold is_u32, in_w. lia. Qed.

(** "network" of an IPv6 address clears exactly the host bits, for every
    prefix from 0 to 128, and keeps the prefix. *)
Theorem cidr_network6_correct a s :
  wf a -> prefix a <= 128 ->
  let size := 2 ^ (128 - prefix a) in
  pushes s (fun n => prefix n = prefix a /\ family n = family a /\ val6 n = val6 a / size * size)
    true (cidr_network6 a s).
Proof.
  intros (Hl & Hb & Hp0 & _) Hp size. unfold cidr_network6. rewrite clone_ok. obind.
  destruct (host_split (prefix a)) as [Hsplit Hhost]; [lia|].
  set (host := 128 -₃₂ prefix a) in *. assert (Hm := Z.mod_pos_bound host 8 ltac:(lia)).
  set (n := Z.to_nat (host / 8)). assert (Hn : Z.of_nat n = host / 8) by (unfold n; zdm).
  assert (Hn16 : (n <= 16)%nat) by zdm.
  rewrite clear_loop_ok by (done || cbn; lia). obind. cbn [Z.to_nat].
  rewrite drop_ge, app_nil_r by lia. rewrite Nat.sub_0_r.
  assert (Hsz : size = 2 ^ (8 * Z.of_nat n + host mod 8)) by (unfold size; f_equal; lia).
  destruct (Z.eqb_spec (host mod 8) 0) as [H0|H0].
  - eexists. split; [reflexivity|]. split; [done|]. split; [done|]. unfold val6. cbn [addr set_addr].
    rewrite be_val_app, be_val_zeros, Z.add_0_r, length_replicate, Hsz, H0, Z.add_0_r.
    f_equal. rewrite (be_val_split (16 - n) (addr a)), Hl. replace (16 - (16 - n))%nat with n by lia.
    pose proof (be_val_range (drop (16 - n) (addr a)) (is_bytes_drop _ _ Hb)) as Hd.
    rewrite length_drop, Hl in Hd. replace (16 - (16 - n))%nat with n in Hd by lia.
    rewrite Z.div_add_l, Z.div_small, Z.add_0_r; [done|lia|apply Z.pow_nonzero; lia].
  - assert (Hn15 : (n <= 15)%nat) by zdm.
    destruct (byte_lookup (addr a) (15 - n) ltac:(lia) Hb) as (xi & Hxi & Hxr).
    unfold byte_at, set_byte. destruct (Z.ltb_spec (15 - host / 8) 0); [lia|].
    replace (Z.to_nat (15 - host / 8)) with (15 - n)%nat by lia.
    assert (Htl : length (take (16 - n) (addr a)) = (16 - n)%nat) by (rewrite length_take; lia).
    rewrite lookup_app_l, lookup_take_lt, Hxi by lia. obind.
    rewrite splice_Some by (rewrite length_app, length_replicate; cbn; lia). obind.
    eexists. split; [reflexivity|]. split; [done|]. split; [done|]. unfold val6. cbn [addr set_addr length].
    rewrite take_app_le, take_take, Nat.min_l by lia.
    rewrite drop_app_ge by lia. rewrite Htl.
    rewrite (mask_byte xi _ Hm Hxr). rewrite be_val_app. cbn [app be_val length].
    rewrite length_drop, length_replicate.
    destruct (high_bits (addr a) n (host mod 8) xi Hl Hb Hn15 Hm Hxi) as [Hhb _].
    rewrite Hsz, Hhb. set (T := be_val (take (15 - n) (addr a))).
    replace (15 - n + 1 - (16 - n))%nat with 0%nat by lia. rewrite drop_0, be_val_zeros, Z.add_0_r, Nat.sub_0_r.
    rewrite Nat2Z.inj_succ, Z.mul_succ_r, Z.pow_add_r, Z.pow_add_r by lia.
    replace (2 ^ 8) with (2 ^ (8 - host mod 8) * 2 ^ (host mod 8)) at 1
      by (rewrite <- Z.pow_add_r by lia; by replace (8 - host mod 8 + host mod 8) with 8 by lia).
    ring.
Qed.

(** "contains" on IPv6 addresses, for prefixes of 1 to 128: it holds
    exactly when the argument has at least the prefix length of the base address and
    agrees with it on those bits; unlike the IPv4 one it leaves a copy of the base
    address on the stack. *)
Theorem cidr_contains6_correct a b s :
  wf a -> wf b -> 1 <= prefix a <= 128 ->
  let size := 2 ^ (128 - prefix a) in
  cidr_contains6 a b s =
    answer (bool_decide (prefix a <= prefix b /\ val6 a / size = val6 b / size)) (cidr_push a s).
Proof.
  intros (Hla & Hba & _) (Hlb & Hbb & _) Hp size. unfold cidr_contains6. rewrite clone_ok. obind.
  destruct (host_split (prefix a)) as [Hsplit Hhost]; [lia|].
  set (host := 128 -₃₂ prefix a) in *. assert (Hm := Z.mod_pos_bound host 8 ltac:(lia)).
  assert (Hi : u8 (host / 8) = host / 8) by (apply u8_small; words). rewrite Hi.
  set (n := Z.to_nat (host / 8)). assert (Hn : Z.of_nat n = host / 8) by (unfold n; zdm).
  assert (Hn15 : (n <= 15)%nat) by zdm.
  destruct (byte_lookup (addr a) (15 - n) ltac:(lia) Hba) as (xi & Hxi & Hxr).
  destruct (byte_lookup (addr b) (15 - n) ltac:(lia) Hbb) as (yi & Hyi & Hyr).
  unfold byte_at. destruct (Z.ltb_spec (15 - host / 8) 0); [lia|].
  replace (Z.to_nat (15 - host / 8)) with (15 - n)%nat by lia. rewrite Hxi, Hyi. obind. f_equal.
  rewrite !mask_byte by done.
  destruct (high_bits (addr a) n (host mod 8) xi Hla Hba Hn15 Hm Hxi) as [Ea _].
  destruct (high_bits (addr b) n (host mod 8) yi Hlb Hbb Hn15 Hm Hyi) as [Eb _].
  assert (Hsz : size = 2 ^ (8 * Z.of_nat n + host mod 8)) by (unfold size; f_equal; lia).
  unfold val6. rewrite Hsz, Ea, Eb.
  assert (Hpow : 0 < 2 ^ (host mod 8)) by (apply Z.pow_pos_nonneg; lia).
  assert (Hq : forall x, is_u8 x -> 0 <= x / 2 ^ (host mod 8) < 2 ^ (8 - host mod 8)).
  { intros x Hx. split; [apply Z.div_pos; [apply Hx|done]|]. apply Z.div_lt_upper_bound; [done|].
    rewrite <- Z.pow_add_r by lia. replace (host mod 8 + (8 - host mod 8)) with 8 by lia. apply Hx. }
  assert (Hqx := Hq xi Hxr). assert (Hqy := Hq yi Hyr).
  set (Q := 2 ^ (host mod 8)) in *. set (R := 2 ^ (8 - host mod 8)) in *.
  apply eq_bool_prop_intro.
  rewrite !andb_True, orb_True, !bool_decide_spec, !Is_true_true, Z.leb_le, !Z.eqb_eq.
  assert (Htake : take (15 - n) (addr a) = take (15 - n) (addr b) <->
            be_val (take (15 - n) (addr a)) = be_val (take (15 - n) (addr b))).
  { split; [by intros ->|]. intros He. apply be_val_inj; [rewrite !length_take; lia|by apply is_bytes_take|by apply is_bytes_take|done]. }
  split.
  - intros [[Hle Hx] Ht]. split; [done|]. assert (Hxq : xi / Q = yi / Q) by nia.
    assert (be_val (take (15 - n) (addr a)) = be_val (take (15 - n) (addr b))) as ->; [|lia].
    apply Htake. destruct Ht as [H15|Ht]; [|done]. by replace (15 - n)%nat with 0%nat by lia.
  - intros [Hle He]. assert (be_val (take (15 - n) (addr a)) = be_val (take (15 - n) (addr b)) /\ xi / Q = yi / Q) as [Ht Hx].
    { apply (Z.div_mod_unique R); [by left..|lia]. }
    split; [|right; by apply Htake]. split; [done|]. by rewrite Hx.
Qed.

(** ** Steps to the next and the previous network, and 6to4 *)

(** On a big-endian machine "next" and "prev" on IPv4 addresses move by
    one network of the argument's prefix length, wrapping around without an error,
    and "6to4" builds 2002:<address>::/48. *)
Theorem cidr_next4_correct a b s :
  e = BE -> wf a -> 1 <= prefix b <= 32 ->
  let size := 2 ^ (32 - prefix b) in
  pushes s (fun n => prefix n = prefix b /\ val4 n = (val4 a + size) mod 2 ^ 32) true (cidr_next4 a b s) /\
  pushes s (fun n => prefix n = prefix b /\ val4 n = (val4 a - size) mod 2 ^ 32) true (cidr_prev4 a b s) /\
  pushes s (fun n => family n = AF_INET6 /\ prefix n = 48 /\
      addr n = [0x20; 0x02] ++ take 4 (addr a) ++ replicate 10 0) true (cidr_6to4 a s).
Proof.
  intros He Hw Hp size. unfold cidr_next4, cidr_prev4, cidr_6to4. rewrite !clone_ok. obind.
  rewrite u32_small by (unfold is_u32, in_w; lia). rewrite shl1_ok by lia. obind. fold size.
  assert (Hsize : 0 < size <= 2 ^ 31).
  { unfold size. split; [apply Z.pow_pos_nonneg; lia|]. apply Z.pow_le_mono_r; lia. }
  assert (Hid : forall x, htonl e x = u32 x) by (intros x; by rewrite He).
  assert (Hval : val4 a = v4 a) by (unfold val4, ntohl; rewrite Hid; by apply u32_small, v4_range).
  assert (Hset : forall p x, val4 (set_v4 (set_prefix a p) x) = u32 x)
    by (intros p x; unfold val4, ntohl; rewrite v4_set, Hid; apply u32_u32).
  rewrite (Hid size), Hval. split; [|split]; (eexists; split; [reflexivity|]).
  - split; [done|]. rewrite Hset. words.
  - split; [done|]. rewrite Hset. words.
  - split; [done|]. split; [done|]. cbn [addr]. destruct Hw as (Hl & Hb & _).
    assert (Hlen : length (take 4 (addr a)) = 4%nat) by (rewrite length_take; lia).
    pose proof (word_bytes_val BE (take 4 (addr a)) Hlen (is_bytes_take _ _ Hb)) as Hwb.
    unfold v4. rewrite He. rewrite <- Hwb at 5. cbn [word_bytes]. set (x := word_val BE _).
    rewrite !land_255. unfold be_bytes, u8. cbn.
    done.
Qed.

End Ops.

(** ** The type of the calculator's state *)

Definition stack_ok (s : state) : Prop := Forall wf (stack s).
(** A result leaves a well-formed stack. *)
Definition keeps {A} (st : A -> state) (r : run A) : Prop := forall x, r = Done x -> stack_ok (st x).

Lemma keeps_bind {A B} (st : B -> state) (m : run A) (f : A -> run B) :
  (forall x, m = Done x -> keeps st (f x)) -> keeps st (x ← m; f x).
Proof. intros H y. destruct m as [x| |]; obind; [by apply H|done..]. Qed.
Lemma keeps_done {A} (st : A -> state) x : stack_ok (st x) -> keeps st (Done x : run A).
Proof. by intros H ? [= <-]. Qed.

Lemma wf_set_addr a x : wf a -> length x = 16%nat -> is_bytes x -> wf (set_addr a x).
Proof. by intros (_ & _ & Hp) Hl Hb. Qed.
Lemma wf_prefix a : wf a -> is_u32 (prefix a).
Proof. by intros (_ & _ & Hp). Qed.
Lemma is_u32_32 : is_u32 32. Proof. words. Qed.

Lemma stack_ok_set_top n s : wf n -> stack_ok s -> stack_ok (set_top n s).
Proof. intros Hn Hs. constructor; [done|]. by apply Forall_tail. Qed.
Lemma stack_ok_push n s : wf n -> stack_ok s -> stack_ok (cidr_push n s).
Proof. by constructor. Qed.
Lemma stack_ok_qprintf t s : stack_ok s -> stack_ok (qprintf t s).
Proof. done. Qed.
Lemma stack_ok_separate s : stack_ok s -> stack_ok (separate s).
Proof. unfold separate. by destruct (printed s). Qed.
Lemma clone_keeps a s s' : wf a -> stack_ok s -> cidr_clone a s = Done s' -> stack_ok s'.
Proof. intros Ha Hs. unfold cidr_clone. destruct (malloc _); [|done]. intros [= <-]. by apply stack_ok_push. Qed.
Lemma answer_keeps b s : stack_ok s -> keeps snd (answer b s).
Proof. intros Hs. apply keeps_done. cbn [snd]. by apply stack_ok_qprintf, stack_ok_separate. Qed.
Lemma pop_keeps s : stack_ok s -> keeps snd (cidr_pop s).
Proof.
  unfold stack_ok, cidr_pop. intros Hs. destruct (stack s) as [|a l] eqn:Hst; apply keeps_done; [by unfold stack_ok; cbn; rewrite Hst|].
  by inversion Hs.
Qed.

Lemma set_byte_inv {E} x i v x' :
  @set_byte E x i v = Done x' -> is_u8 v -> is_bytes x -> length x' = length x /\ is_bytes x'.
Proof.
  unfold set_byte. destruct (i <? 0); [done|]. destruct (splice _ _ _) as [y|] eqn:Hs; cbn; [|done].
  intros [= <-] Hv Hb. split; [by eapply splice_length|]. eapply splice_is_bytes; [exact Hs|by constructor|done].
Qed.
Lemma add_loop_inv {E} idx x y c r :
  @add_loop E idx x y c = Done r -> is_bytes x -> length (fst r) = length x /\ is_bytes (fst r).
Proof.
  revert x c r. induction idx as [|i IH]; intros x c r; cbn [add_loop];
    destruct (x !! _) as [xi|], (y !! _) as [yi|]; obind; try done;
    (destruct (set_byte x _ _) as [x1| |] eqn:H1; obind; [|done..]); intros Hr Hb;
    apply set_byte_inv in H1 as [Hl1 Hb1]; try done; try apply u8_range.
  - by injection Hr as <-.
  - apply IH in Hr; [|done]. by rewrite <- Hl1.
Qed.
Lemma sub_loop_inv {E} idx x y c r :
  @sub_loop E idx x y c = Done r -> is_bytes x -> length (fst r) = length x /\ is_bytes (fst r).
Proof.
  revert x c r. induction idx as [|i IH]; intros x c r; cbn [sub_loop];
    destruct (x !! _) as [xi|], (y !! _) as [yi|]; obind; try done;
    (destruct (set_byte x _ _) as [x1| |] eqn:H1; obind; [|done..]); intros Hr Hb;
    apply set_byte_inv in H1 as [Hl1 Hb1]; try done; try apply u8_range.
  - by injection Hr as <-.
  - apply IH in Hr; [|done]. by rewrite <- Hl1.
Qed.
Lemma clear_loop_inv {E} n i x x' :
  @clear_loop E n i x = Done x' -> is_bytes x -> length x' = length x /\ is_bytes x'.
Proof.
  revert i x. induction n as [|n IH]; intros i x; cbn [clear_loop]; [by intros [= <-]|].
  destruct (set_byte x _ _) as [x1| |] eqn:H1; obind; [|done..]. intros Hr Hb.
  apply set_byte_inv in H1 as [Hl1 Hb1]; try done. rewrite <- Hl1. by eapply IH.
Qed.

Lemma inc_loop_inv {E} idx x c r :
  @inc_loop E idx x c = Done r -> is_bytes x -> length (fst r) = length x /\ is_bytes (fst r).
Proof. rewrite (inc_loop_add idx x c (S idx)) by lia. apply add_loop_inv. Qed.
Lemma dec_loop_inv {E} idx x c r :
  @dec_loop E idx x c = Done r -> is_bytes x -> length (fst r) = length x /\ is_bytes (fst r).
Proof. rewrite (dec_loop_sub idx x c (S idx)) by lia. apply sub_loop_inv. Qed.

Create HintDb wf_db.
#[local] Hint Resolve stack_ok_set_top stack_ok_push stack_ok_qprintf stack_ok_separate answer_keeps pop_keeps
  wf_set_v4 wf_set_prefix wf_prefix is_u32_32 : wf_db.

(** Each operation on one and on two addresses keeps the stack well formed. *)
Ltac wf_op a Ha :=
  let Hl := fresh in let Hb := fresh in pose proof Ha as (Hl & Hb & _);
  repeat match goal with
    | H : _ = Done ?r |- context [let '(_, _) := ?r in _] =>
        first [apply add_loop_inv in H | apply sub_loop_inv in H | apply inc_loop_inv in H | apply dec_loop_inv in H];
        [destruct r; destruct H; cbn [fst] in *|done]
    | |- keeps _ (mbind _ (cidr_clone ?a ?s)) =>
        apply keeps_bind; intros ? ?%clone_keeps; [|done..]
    | |- keeps _ (mbind _ _) => apply keeps_bind; intros ? ?
    | |- keeps _ (if ?b then _ else _) => destruct b
    | |- keeps snd (Done (?b, ?s)) => apply (keeps_done snd (b, s)); cbn [snd]
    | |- keeps _ _ => solve [eauto with wf_db]
    | |- stack_ok (set_top _ _) => apply stack_ok_set_top; [|done]
    | |- wf (set_addr _ _) => apply wf_set_addr; [done|congruence|done]
    | |- _ => solve [eauto with wf_db]
    | |- wf _ => first [apply wf_set_prefix | apply wf_set_v4]
    end.

Lemma binary_keeps o f a b s :
  In o ops -> f4_a2 o = Some f \/ f6_a2 o = Some f -> wf a -> wf b -> stack_ok s -> keeps snd (f a b s).
Proof.
  intros Ho Hf Ha Hb Hs. cbn [In ops] in Ho.
  repeat (destruct Ho as [<-|Ho]; [destruct Hf as [[= <-]|[= <-]]|]); [..|done].
  all: unfold cidr_add4, cidr_sub4, cidr_next4, cidr_prev4, cidr_contains4, cidr_prefix, cidr_howmany,
      cidr_add6, cidr_sub6, cidr_next6, cidr_prev6, cidr_contains6; wf_op a Ha.
Qed.

Lemma byte_at_inv {E} x i v : @byte_at E x i = Done v -> is_bytes x -> is_u8 v.
Proof.
  unfold byte_at. destruct (i <? 0); [done|]. destruct (x !! _) as [y|] eqn:Hy; cbn; [|done].
  intros [= <-] Hb. by eapply Forall_lookup_1 in Hb.
Qed.
Lemma wf_6to4 x l : is_u32 x -> is_bytes l -> length l = 10%nat ->
  wf (Cidr AF_INET6 48 ([0x20; 0x02; u8 (x >>ᵤ 24); (x >>ᵤ 16) &ᵤ 0xFF; (x >>ᵤ 8) &ᵤ 0xFF; x &ᵤ 0xFF] ++ l)).
Proof.
  intros Hx Hl Hlen. split; [cbn; lia|]. rewrite !land_255. split; [|cbn [prefix]; words].
  apply is_bytes_app; [|done]. repeat apply is_bytes_cons; [..|constructor].
  all: first [apply u8_range | apply (u8_range (_ >>ᵤ _)) | apply (u8_range x) | words].
Qed.
Lemma network6_keeps a s : wf a -> stack_ok s -> keeps snd (cidr_network6 a s).
Proof.
  intros Ha Hs. unfold cidr_network6. apply keeps_bind. intros s1 Hs1%clone_keeps; [|done..].
  apply keeps_bind. intros x Hx. apply clear_loop_inv in Hx as [Hl Hb]; [|apply Ha].
  apply keeps_bind. intros x' Hx'. apply (keeps_done snd (true, _)). cbn [snd].
  apply stack_ok_set_top; [|done].
  assert (length x' = length x /\ is_bytes x') as [Hl' Hb'].
  { destruct (_ =? 0); [by injection Hx' as <-|]. apply bind_inv in Hx' as (xi & Hxi & Hx').
    apply byte_at_inv in Hxi; [|done]. apply set_byte_inv in Hx'; [done| |done].
    by apply land_in_w; [|done|apply u8_range]. }
  apply wf_set_addr; [done| |done]. rewrite Hl', Hl. apply Ha.
Qed.
Lemma print_keeps f max a s : stack_ok s -> keeps snd (cidr_print f max a s).
Proof.
  intros Hs. unfold cidr_print. destruct (negb _); [by apply (keeps_done snd (false, s))|].
  destruct (inet_ntop _ _) as [p|]; [|by apply (keeps_done snd (false, s))].
  apply keeps_bind. intros [b s'] Hp. apply (keeps_done snd (true, s')). cbn [snd].
  refine (pop_keeps _ _ _ Hp). destruct (_ <? _); eauto with wf_db.
Qed.
Lemma unary_keeps o f a s :
  In o ops -> f4_a1 o = Some f \/ f6_a1 o = Some f -> wf a -> stack_ok s -> keeps snd (f a s).
Proof.
  intros Ho Hf Ha Hs. cbn [In ops] in Ho.
  assert (Hv := v4_range a Ha).
  repeat (destruct Ho as [<-|Ho]; [destruct Hf as [[= <-]|[= <-]]|]); [..|done].
  all: first [by apply network6_keeps | by apply print_keeps
    | unfold cidr_network4, cidr_broadcast4, cidr_netmask4, cidr_6to4, cidr_private4, cidr_linklocal4,
        cidr_linklocal6, cidr_ula6, cidr_quiet; wf_op a Ha].
  apply wf_6to4; [done|apply is_bytes_replicate; words|done].
Qed.

Section Typing.
(** What [inet_pton] stores, and the memory [malloc] returns. *)
Context (pton4 : forall t b, inet_pton AF_INET t = Some b -> length b = 4%nat /\ is_bytes b)
        (pton6 : forall t b, inet_pton AF_INET6 t = Some b -> length b = 16%nat /\ is_bytes b)
        (heap_ok : length heap = 16%nat /\ is_bytes heap).

Lemma strtoul_range b t : is_u32 (strtoul b t).1.
Proof.
  unfold strtoul. destruct (scan_long b t) as [[v r]|]; cbn; [|words].
  destruct (_ <=? _); [words|apply u32_range].
Qed.
Lemma splice_wf (b : bytes) x : splice 0 b heap = Some x -> is_bytes b -> length x = 16%nat /\ is_bytes x.
Proof.
  intros Hs Hb. destruct heap_ok as [Hl Hh]. split; [by rewrite (splice_length _ _ _ _ Hs)|].
  by eapply splice_is_bytes.
Qed.
Lemma pton_into_wf f t x : pton_into f t heap = Some x -> length x = 16%nat /\ is_bytes x.
Proof.
  unfold pton_into. destruct (inet_pton f t) as [b|] eqn:Hp; [|done]. intros Hs.
  apply (splice_wf b); [done|]. destruct f; [by apply pton4 in Hp as [_ ?]|by apply pton6 in Hp as [_ ?]].
Qed.
Lemma parse_prefix_range p m v : parse_prefix p m = Some v -> 0 <= v <= m.
Proof.
  unfold parse_prefix. pose proof (strtoul_range 10 p) as Hr. destruct (strtoul 10 p) as [x r].
  destruct (bool_decide _), (bool_decide _), (Z.ltb_spec m x); cbn in *; try done.
  intros [= <-]. unfold is_u32, in_w in Hr. lia.
Qed.
Lemma count_bits_range n mask acc : 0 <= acc -> acc <= count_bits n mask acc <= acc + Z.of_nat n.
Proof.
  revert mask acc. induction n as [|n IH]; intros mask acc Ha; cbn [count_bits]; [lia|].
  destruct (mask =? 0); [lia|]. assert (0 <= mask &ᵤ 1 <= 1).
  { assert (mask &ᵤ 1 = mask mod 2) as -> by (apply (Z.land_ones mask 1); lia). zdm. }
  specialize (IH (mask >>ᵤ 1) (acc + (mask &ᵤ 1))). lia.
Qed.
Lemma parse4_wf t a : cidr_parse4 t = Some a -> wf a /\ family a = AF_INET.
Proof.
  unfold cidr_parse4. destruct (_ || _); [done|]. intros H.
  apply bind_Some in H as (pr & Hpr & H). apply bind_Some in H as (x & Hx & [= <-]).
  split; [|done]. assert (is_u32 pr).
  { destruct (strchr t 47) as [i|]; [|injection Hpr as <-; words].
    destruct (strchr _ 46).
    - apply bind_Some in Hpr as (m & _ & Hpr). apply (inj Some) in Hpr.
      pose proof (count_bits_range 33 (word_val e m) 0 ltac:(lia)) as Hc. rewrite Hpr in Hc. words.
    - apply parse_prefix_range in Hpr. words. }
  destruct (strchr t 47) as [[|i]|]; [|by apply pton_into_wf in Hx as [? ?]..].
  apply splice_wf in Hx as [? ?]; [done|]. apply is_bytes_replicate. words.
Qed.
Lemma parse6_wf t a : cidr_parse6 t = Some a -> wf a /\ family a = AF_INET6.
Proof.
  unfold cidr_parse6. destruct (_ || _); [done|]. intros H.
  apply bind_Some in H as (pr & Hpr & H). apply bind_Some in H as (x & Hx & [= <-]).
  split; [|done]. assert (is_u32 pr).
  { destruct (strchr t 47) as [i|]; [apply parse_prefix_range in Hpr; words|injection Hpr as <-; words]. }
  destruct (strchr t 47) as [[|i]|]; [|by apply pton_into_wf in Hx as [? ?]..].
  apply splice_wf in Hx as [? ?]; [done|]. apply is_bytes_replicate. words.
Qed.
Lemma parse_wf t f s b : cidr_parse t f s = Done (Some b) -> wf b /\ family b = f.
Proof.
  unfold cidr_parse. pose proof (strtoul_range 0 t) as Hsum. destruct (strtoul 0 t) as [sum r]. cbn in Hsum.
  destruct (_ && _).
  - destruct (negb _); [done|]. destruct f; intros <-%(inj Done)%(inj Some); (split; [|done]).
    + by apply wf_set_v4; split; [apply heap_ok|]; split; [apply heap_ok|].
    + split; [|split]; [apply length_be_bytes|apply is_bytes_be_bytes|done].
  - destruct (match strchr t 58 with Some _ => _ | None => _ end) as [a|] eqn:Ha; [|done].
    destruct (decide _) as [<-|]; [|done]. intros [= <-]. split; [|done].
    by destruct (strchr t 58); [apply parse6_wf in Ha as [? _]|apply parse4_wf in Ha as [? _]].
Qed.

(** Every operation the command line can name, on every base address and
    argument, leaves a stack of well-formed addresses: 16 bytes and a 32-bit
    prefix, each byte in range. *)
Theorem runop_keeps args status s go args' status' s' :
  stack_ok s -> runop args status s = Done (go, args', status', s') -> stack_ok s'.
Proof.
  intros Hs. unfold runop. destruct args as [|arg1 rest]; [by intros [= <- <- <- <-]|].
  destruct (find_from _ ops) as [[i o]|] eqn:Ho; [|by intros [= <- <- <- <-]].
  assert (In o ops) as Hin.
  { apply find_from_Some in Ho as (Ho & _). by apply list_elem_of_In, list_elem_of_lookup_2 with i. }
  assert (Hwf : forall a, head (stack s) = Some a -> wf a).
  { unfold stack_ok in Hs. destruct (stack s); intros a [= ->]. by inversion Hs. }
  destruct (_ || _).
  - unfold run_binary. destruct rest as [|arg2 rest]; [by intros [= <- <- <- <-]|].
    destruct (head (stack s)) as [a|]; obind; [|done]. specialize (Hwf a eq_refl).
    destruct (cidr_parse arg2 _ s) as [[b|]| |] eqn:Hb; obind; [|by intros [= <- <- <- <-]|done..].
    apply parse_wf in Hb as [Hb _].
    destruct (match family a with AF_INET => f4_a2 o | AF_INET6 => f6_a2 o end) as [f|] eqn:Hf;
      [|by intros [= <- <- <- <-]].
    intros H. apply bind_inv in H as ([r s1] & Hr & [= _ _ _ <-]).
    refine (binary_keeps o f a b s Hin _ Hwf Hb Hs _ Hr). destruct (family a); tauto.
  - unfold run_unary. destruct (head (stack s)) as [a|]; obind; [|done]. specialize (Hwf a eq_refl).
    destruct (match family a with AF_INET => f4_a1 o | AF_INET6 => f6_a1 o end) as [f|] eqn:Hf;
      [|by intros [= <- <- <- <-]].
    intros H. apply bind_inv in H as ([r s1] & Hr & [= _ _ _ <-]).
    refine (unary_keeps o f a s Hin _ Hwf Hs _ Hr). destruct (family a); tauto.
Qed.

End Typing.

(** ** How a run ends *)

(** If [r] ends the run, its exit code is in [cs]. *)
Definition exits {A} (cs : list Z) (r : run A) : Prop := forall c o, r = Fail (c, o) -> In c cs.

Lemma exits_bind {A B} cs (m : run A) (f : A -> run B) :
  exits cs m -> (forall x, m = Done x -> exits cs (f x)) -> exits cs (x ← m; f x).
Proof. intros Hm Hf c o. destruct m as [x|co|]; obind; [by apply Hf| |done]. intros [= ->]. by apply (Hm c o). Qed.
Lemma exits_weaken {A} cs cs' (r : run A) : (forall c, In c cs -> In c cs') -> exits cs r -> exits cs' r.
Proof. intros Hsub H c o Hr. by eapply Hsub, H. Qed.
Lemma exits_done {A} cs (x : A) : exits cs (Done x).
Proof. by intros ? ?. Qed.
Lemma exits_access {A} cs (o : option A) : exits cs (access o).
Proof. by destruct o. Qed.
Lemma exits_shl1 cs n : exits cs (shl1 n).
Proof. unfold shl1. by destruct (_ <? _). Qed.
Lemma exits_byte_at cs x i : exits cs (byte_at x i).
Proof. unfold byte_at. destruct (_ <? _); [done|]. apply exits_access. Qed.
Lemma exits_set_byte cs x i v : exits cs (set_byte x i v).
Proof. unfold set_byte. destruct (_ <? _); [done|]. apply exits_access. Qed.
Lemma exits_clone a s : exits [255] (cidr_clone a s).
Proof. unfold cidr_clone. destruct (malloc _); [done|]. intros c o [= <- <-]. by left. Qed.
Lemma exits_answer cs b s : exits cs (answer b s).
Proof. done. Qed.
Lemma exits_pop cs s : exits cs (cidr_pop s).
Proof. unfold cidr_pop. by destruct (stack s). Qed.

Create HintDb exits_db.
#[local] Hint Resolve exits_done exits_access exits_shl1 exits_byte_at exits_set_byte exits_clone exits_answer
  exits_pop : exits_db.
Ltac exits_go := repeat match goal with
  | |- exits _ (mbind _ _) => apply exits_bind; [|intros ? _]
  | |- exits _ (if ?b then _ else _) => destruct b
  | |- exits _ (let '(_, _) := ?p in _) => destruct p
  | |- exits _ (match ?x with _ => _ end) => destruct x
  | |- exits _ _ => solve [eauto with exits_db]
  end.

Lemma exits_add_loop cs idx x y c : exits cs (add_loop idx x y c).
Proof. revert x c. induction idx; intros; cbn [add_loop]; exits_go. Qed.
Lemma exits_sub_loop cs idx x y c : exits cs (sub_loop idx x y c).
Proof. revert x c. induction idx; intros; cbn [sub_loop]; exits_go. Qed.
Lemma exits_inc_loop cs idx x c : exits cs (inc_loop idx x c).
Proof. rewrite (inc_loop_add idx x c (S idx)) by lia. apply exits_add_loop. Qed.
Lemma exits_dec_loop cs idx x c : exits cs (dec_loop idx x c).
Proof. rewrite (dec_loop_sub idx x c (S idx)) by lia. apply exits_sub_loop. Qed.
Lemma exits_clear_loop cs n i x : exits cs (clear_loop n i x).
Proof. revert i x. induction n; intros; cbn [clear_loop]; exits_go. Qed.
#[local] Hint Resolve exits_add_loop exits_sub_loop exits_inc_loop exits_dec_loop exits_clear_loop : exits_db.
Lemma exits_net_mask cs p : exits cs (net_mask p).
Proof. unfold net_mask, host_mask. exits_go. Qed.
Lemma exits_host_mask cs p : exits cs (host_mask p).
Proof. unfold host_mask. exits_go. Qed.
#[local] Hint Resolve exits_net_mask exits_host_mask : exits_db.

Lemma exits_print f max a s : exits [255] (cidr_print f max a s).
Proof. unfold cidr_print. exits_go. Qed.
Lemma binary_exits o f a b s :
  In o ops -> f4_a2 o = Some f \/ f6_a2 o = Some f -> exits [255] (f a b s).
Proof.
  intros Ho Hf. cbn [In ops] in Ho.
  repeat (destruct Ho as [<-|Ho]; [destruct Hf as [[= <-]|[= <-]]|]); [..|done].
  all: unfold cidr_add4, cidr_sub4, cidr_next4, cidr_prev4, cidr_contains4, cidr_prefix, cidr_howmany,
      cidr_add6, cidr_sub6, cidr_next6, cidr_prev6, cidr_contains6; cbv zeta; exits_go.
Qed.
Lemma unary_exits o f a s : In o ops -> f4_a1 o = Some f \/ f6_a1 o = Some f -> exits [255] (f a s).
Proof.
  intros Ho Hf. cbn [In ops] in Ho.
  repeat (destruct Ho as [<-|Ho]; [destruct Hf as [[= <-]|[= <-]]|]); [..|done].
  all: first [apply exits_print | unfold cidr_network4, cidr_broadcast4, cidr_netmask4, cidr_6to4, cidr_private4,
    cidr_linklocal4, cidr_linklocal6, cidr_ula6, cidr_quiet, cidr_network6; cbv zeta; exits_go].
Qed.

Lemma parse_exits t f s : exits [4; 255] (cidr_parse t f s).
Proof.
  unfold cidr_parse. destruct (strtoul 0 t) as [sum r]. exits_go.
  intros ? ? [= <- <-]. by left.
Qed.
Lemma find_op_in f i o : find_from f ops = Some (i, o) -> In o ops.
Proof. intros (Ho & _)%find_from_Some. by apply list_elem_of_In, list_elem_of_lookup_2 with i. Qed.

(** What a turn of the loop does to the arguments and the status. *)
Definition turn_ok (args : list bytes) (status : Z) (r : bool * list bytes * Z * state) : Prop :=
  let '(go, args', status', _) := r in
  if go : bool then (length args' < length args)%nat /\ In status' [0; 1]
  else args' = [] -> In status' [status; 5].
Lemma runop_turn args status s :
  exits [4; 255] (runop args status s) /\
  (forall r, runop args status s = Done r -> turn_ok args status r).
Proof.
  unfold runop. destruct args as [|arg1 rest]; [split; [done|]; intros r [= <-]; by left|].
  destruct (find_from _ ops) as [[i o]|] eqn:Ho; [apply find_op_in in Ho|split; [done|]; by intros r [= <-]].
  assert (Hw : forall r, exits [255] r -> exits (A := bool * state) [4; 255] r).
  { intros r. apply exits_weaken. intros c [<-|[]]. by right; left. }
  assert (Hst : forall r : bool, In (if r then 0 else 1) [0; 1]) by (intros []; cbn; auto).
  destruct (_ || _).
  - unfold run_binary. destruct rest as [|arg2 rest]; [split; [done|]; by intros r [= <-]|].
    destruct (head (stack s)) as [a|]; obind; [|done].
    pose proof (parse_exits arg2 (family a) s) as Hp.
    destruct (cidr_parse arg2 _ s) as [[b|]|co|] eqn:Hb; obind; [|split; [done|]; by intros r [= <-]| |done].
    2: { split; [|done]. intros c out' [= ->]. by apply (Hp c out'). }
    destruct (match family a with AF_INET => f4_a2 o | AF_INET6 => f6_a2 o end) as [f|] eqn:Hf.
    2: { split; [done|]. intros r [= <-]. cbn. auto. }
    split.
    + apply exits_bind; [|by intros [] _]. apply Hw, (binary_exits o); [done|]. destruct (family a); tauto.
    + intros r H. apply bind_inv in H as ([x s1] & _ & [= <-]). split; [cbn; lia|done].
  - unfold run_unary. destruct (head (stack s)) as [a|]; obind; [|done].
    destruct (match family a with AF_INET => f4_a1 o | AF_INET6 => f6_a1 o end) as [f|] eqn:Hf.
    2: { split; [done|]. intros r [= <-]. cbn. auto. }
    split.
    + apply exits_bind; [|by intros [] _]. apply Hw, (unary_exits o); [done|]. destruct (family a); tauto.
    + intros r H. apply bind_inv in H as ([x s1] & _ & [= <-]). split; [cbn; lia|done].
Qed.

(** The loop over the command line ends: once the fuel exceeds the number
    of arguments, more fuel does not change the result. *)
Theorem run_loop_terminates n args status s :
  (length args < n)%nat -> run_loop n args status s = run_loop (S (length args)) args status s.
Proof.
  assert (Hmono : forall n m args status s, (length args < n)%nat -> (length args < m)%nat ->
            run_loop n args status s = run_loop m args status s); [|intros H; apply Hmono; lia].
  clear n args status s. induction n as [|n IH]; intros [|m] args status s Hn Hm; try lia. cbn [run_loop].
  destruct (runop args status s) as [[[[go args'] status'] s']|c|] eqn:Hr; obind; [|done..].
  apply (proj2 (runop_turn args status s)) in Hr. destruct go; [|done]. destruct Hr as [Hl _]. apply IH; lia.
Qed.

Lemma run_loop_status n args status s :
  In status [0; 1] -> exits [4; 255] (run_loop n args status s) /\
  (forall args' status' s', run_loop n args status s = Done (args', status', s') ->
     args' = [] -> In status' [0; 1; 5]).
Proof.
  revert args status s. induction n as [|n IH]; intros args status s Hs; [done|]. cbn [run_loop].
  destruct (runop_turn args status s) as [He Ht].
  destruct (runop args status s) as [[[[go args1] status1] s1]|c|]; obind.
  - specialize (Ht _ eq_refl). destruct go; [apply IH, (proj2 Ht)|]. split; [done|]. intros args' status' s' [= <- <- <-] H.
    specialize (Ht H). cbn in *. intuition congruence.
  - split; [|done]. intros c' o [= ->]. by apply (He c' o).
  - done.
Qed.

(** The exit code of the calculator is 0, 1, 4, 5, 6 or 255: the codes 2
    and 3, which [runop] sets for a missing and for an invalid argument, never
    become the exit code, since the argument is left over then. *)
Theorem main_exit_status argv :
  match main argv with Done _ => False | Fail (c, _) => In c [0; 1; 4; 5; 6; 255] | Fault => True end.
Proof.
  unfold main. destruct argv as [|argv1 [|arg args]]; try by (cbn; auto).
  destruct (match strchr argv1 58 with Some _ => _ | None => _ end) as [a|]; [|cbn; auto].
  pose proof (run_loop_status (S (length (arg :: args))) (arg :: args) 0 (cidr_push a start)) as H.
  destruct H as [He Ht]; [by left|].
  destruct (run_loop _ _ _ _) as [[[args' status'] s']|[c o]|]; obind; [| |done].
  - specialize (Ht _ _ _ eq_refl). destruct args'; [|cbn; auto 10]. specialize (Ht eq_refl).
    destruct (negb _ && _); obind; [|cbn in *; intuition].
    destruct (head (stack s')) as [b|]; obind; [|done].
    assert (Hp : exits [255] (if decide (family b = AF_INET) then cidr_print4 b s' else cidr_print6 b s')).
    { destruct (decide _); apply exits_print. }
    destruct (if decide _ then _ else _) as [[x s1]|[c o]|]; obind; [cbn in *; intuition| |done].
    specialize (Hp c o eq_refl). cbn in *. intuition.
  - specialize (He c o eq_refl). cbn in *. intuition.
Qed.

(** ** Calculations on IPv4 addresses *)

(** An address as a number with a prefix length, and the cell that stands for it. *)
Record net4 := Net4 { value : Z; plen : Z }.
Definition denotes (a : cidr) (x : net4) : Prop := wf a /\ family a = AF_INET /\ val4 a = value x /\ prefix a = plen x.

(** The operations, with the text of the argument and what it denotes. *)
Inductive op4 :=
| Add (t : bytes) (y : net4) | Sub (t : bytes) (y : net4) | Prefix (t : bytes) (y : net4)
| Contains (t : bytes) (y : net4) | Howmany (t : bytes) (y : net4)
| Network | Broadcast | Netmask | Private | Linklocal | Pop | Print.
Definition op_words (o : op4) : list bytes :=
  match o with
  | Add t _ => [str "add"; t] | Sub t _ => [str "sub"; t] | Prefix t _ => [str "prefix"; t]
  | Contains t _ => [str "contains"; t] | Howmany t _ => [str "howmany"; t]
  | Network => [str "network"] | Broadcast => [str "broadcast"] | Netmask => [str "netmask"]
  | Private => [str "private"] | Linklocal => [str "linklocal"] | Pop => [str "pop"] | Print => [str "print"]
  end.
Definition op_arg (o : op4) : option (bytes * net4) :=
  match o with Add t y | Sub t y | Prefix t y | Contains t y | Howmany t y => Some (t, y) | _ => None end.
(** The text of the argument is read as what it denotes. *)
Definition op_ok (o : op4) : Prop :=
  forall t y s, op_arg o = Some (t, y) -> exists b, cidr_parse t AF_INET s = Done (Some b) /\ denotes b y.

Definition size4 (x : net4) : Z := 2 ^ (32 - plen x).
Definition net_of (x : net4) : Z := value x / size4 x * size4 x.
Definition inside (net : Z) (len : Z) (v : Z) : bool := v / 2 ^ (32 - len) =? net / 2 ^ (32 - len).
Definition bit (b : bool) : bytes := if b then [49] else [48].
Definition shown (x : net4) : option bytes :=
  t ← inet_ntop AF_INET (be_bytes 4 (value x)); Some (t ++ if plen x <? 32 then 47 :: print_dec (plen x) else []).

(** What an operation makes of the top of the stack: whether it succeeds, what stands in
    the place of the top, and what is printed.  Nothing is said of masks for a prefix of 0
    and of counts from 2^32 on, where the code shifts by the width of the word. *)
Definition step4 (o : op4) (x : net4) : option (bool * list net4 * option bytes) :=
  let masked (r : bool * list net4 * option bytes) := if (1 <=? plen x) && (plen x <=? 32) then Some r else None in
  let tested (b : bool) := Some (b, [x], Some (bit b)) in
  match o with
  | Add _ y => let sum := value x + value y in
      Some (if sum <? 2 ^ 32 then (true, [Net4 sum (plen x); x], None) else (false, [x; x], None))
  | Sub _ y => let diff := value x - value y in
      Some (if 0 <=? diff then (true, [Net4 diff (plen x); x], None) else (false, [x; x], None))
  | Prefix _ y => Some (true, [Net4 (value x) (plen y)], None)
  | Contains _ y => let b := (plen x <=? plen y) && inside (value x) (plen x) (value y) in masked (b, [x], Some (bit b))
  | Howmany _ y =>
      if plen y <? plen x then Some (true, [x], Some (bit false))
      else if plen y - plen x <? 32 then Some (true, [x], Some (print_dec (2 ^ (plen y - plen x)))) else None
  | Network => masked (true, [Net4 (net_of x) 32; x], None)
  | Broadcast => masked (true, [Net4 (net_of x + (size4 x - 1)) 32; x], None)
  | Netmask => masked (true, [Net4 (2 ^ 32 - size4 x) 32; x], None)
  | Private => tested (inside 0x0A000000 8 (value x) || inside 0xAC100000 12 (value x) || inside 0xC0A80000 16 (value x))
  | Linklocal => tested (inside 0xA9FE0000 16 (value x))
  | Pop => Some (true, [], None)
  | Print => t ← shown x; Some (true, [], Some t)
  end.
(** A calculation: the stack it leaves, what it prints, and whether its last operation
    succeeds. *)
Fixpoint calculate (os : list op4) (st : list net4) (ok : bool) : option (list net4 * list bytes * bool) :=
  match os with
  | [] => Some (st, [], ok)
  | o :: os =>
    match st with
    | [] => None
    | x :: st =>
      '(ok, new, text) ← step4 o x;
      '(st, texts, ok) ← calculate os (new ++ st) ok;
      Some (st, option_list text ++ texts, ok)
    end
  end.

Section Run.
Context (malloc_ok : forall n, malloc n = true).

Definition say (s : state) (t : bytes) : state := qprintf t (separate s).
Lemma say_stack s t : stack (say s t) = stack s.
Proof. unfold say, separate. by destruct (printed s). Qed.

(** One turn on an operation with one address, and on one with an argument. *)
Lemma turn_unary i n f f6 rest status s a l :
  find_from (fun o => strcmp_eq (name o) (str n)) ops = Some (i, unary n (Some f) f6) ->
  stack s = a :: l -> family a = AF_INET ->
  runop (str n :: rest) status s = ('(r, s) ← f a s; Done (true, rest, if r : bool then 0 else 1, s)).
Proof.
  intros Hfind Hs Ha. unfold runop. rewrite Hfind. cbn [f4_a2 f6_a2 unary]. cbn.
  unfold run_unary. rewrite Hs. cbn. by rewrite Ha.
Qed.
Lemma turn_binary i n f4 f6 rest status s a l t b :
  find_from (fun o => strcmp_eq (name o) (str n)) ops = Some (i, binary n (Some f4) f6) ->
  stack s = a :: l -> family a = AF_INET -> cidr_parse t AF_INET s = Done (Some b) ->
  runop (str n :: t :: rest) status s = ('(r, s) ← f4 a b s; Done (true, rest, if r : bool then 0 else 1, s)).
Proof.
  intros Hfind Hs Ha Hb. unfold runop. rewrite Hfind. cbn [f4_a2 f6_a2 binary]. cbn.
  unfold run_binary. rewrite Hs. cbn. by rewrite Ha, Hb.
Qed.

Lemma addr_bytes a : wf a -> take 4 (addr a) = be_bytes 4 (val4 a).
Proof.
  intros Hw. rewrite <- (word_bytes_htonl e (val4 a)), htonl_val4 by done. unfold v4. symmetry.
  destruct Hw as (Hl & Hb & _). apply word_bytes_val; [rewrite length_take; lia|by apply is_bytes_take].
Qed.
Lemma print4_shown a x s l : denotes a x -> stack s = a :: l ->
  cidr_print4 a s = match shown x with Some t => Done (true, set_stack (say s t) l) | None => Done (false, s) end.
Proof.
  intros (Hw & Hf & Hv & Hp) Hs. unfold cidr_print4, cidr_print, shown. rewrite Hf, bool_decide_eq_true_2 by done. cbn [negb].
  rewrite addr_bytes, Hv, Hp by done. destruct (inet_ntop AF_INET _) as [t|]; [|done]. cbn [mbind option_bind].
  assert (Hst : forall s', stack s' = stack s -> ('(_, s2) ← cidr_pop s'; Done (true, s2)) = (Done (true, set_stack s' l) : op_result)).
  { intros s' E. unfold cidr_pop. by rewrite E, Hs. }
  rewrite Hst by (destruct (plen x <? 32); apply say_stack). f_equal. f_equal. f_equal. unfold say.
  destruct (plen x <? 32); [|by rewrite app_nil_r]. unfold qprintf. cbn [stack quiet printed out]. destruct (quiet _); [done|].
  by rewrite <- app_assoc.
Qed.
Lemma answer_say b s : answer b s = Done (b, say s (bit b)).
Proof. done. Qed.

(** The tests of ranges are tests of networks. *)
Lemma inside_range net len v : 0 <= len <= 32 -> net mod 2 ^ (32 - len) = 0 ->
  inside net len v = (net <=? v) && (v <=? net + (2 ^ (32 - len) - 1)).
Proof.
  intros Hl Hn. unfold inside. assert (0 < 2 ^ (32 - len)) by (apply Z.pow_pos_nonneg; lia). set (k := 2 ^ (32 - len)) in *.
  assert (net = k * (net / k)) by (pose proof (Z.div_mod net k); lia).
  pose proof (Z.div_mod v k ltac:(lia)). pose proof (Z.mod_pos_bound v k ltac:(lia)).
  apply eq_bool_prop_intro. rewrite andb_True, !Is_true_true, Z.eqb_eq, !Z.leb_le. split; [intros E; nia|intros [? ?]].
  symmetry. apply (Z.div_unique v k (net / k) (v - k * (net / k))); lia.
Qed.

(** What the code does on a cell is what the operation does on what it denotes. *)
Definition performs (x : net4) (s : state) (l : list cidr) (o : op4) (r : op_result) : Prop :=
  forall ok new text, step4 o x = Some (ok, new, text) ->
    exists new', r = Done (ok, set_stack (foldl say s (option_list text)) (new' ++ l)) /\ Forall2 denotes new' new.
Lemma performs_push x a s l o ok y (r : op_result) : denotes a x -> stack s = a :: l ->
  pushes s (fun n => denotes n y) ok r -> (forall u, step4 o x = Some u -> u = (ok, [y; x], None)) -> performs x s l o r.
Proof.
  intros Ha Hs (c & -> & Hc) Ho ok' new text Hu%Ho. injection Hu as -> -> ->. exists [c; a]. rewrite Hs. split; [done|]. constructor; [done|]. constructor; [done|constructor].
Qed.
Lemma performs_answer x a s l o b (r : op_result) : denotes a x -> stack s = a :: l ->
  r = answer b s -> (forall u, step4 o x = Some u -> u = (b, [x], Some (bit b))) -> performs x s l o r.
Proof.
  intros Ha Hs -> Ho ok new text Hu%Ho. injection Hu as -> -> ->. exists [a]. rewrite answer_say. split; [|constructor; [done|constructor]].
  do 2 f_equal. cbn [app]. rewrite <- Hs, <- (say_stack s (bit b)). change (foldl say s (option_list (Some (bit b)))) with (say s (bit b)). by destruct (say s _).
Qed.

Lemma range_tests v : is_u32 v ->
  inside 0x0A000000 8 v = ((0x0A000000 <=? v) && (v <=? 0x0AFFFFFF)) /\ inside 0xAC100000 12 v = ((0xAC100000 <=? v) && (v <=? 0xAC1FFFFF)) /\
  inside 0xC0A80000 16 v = ((0xC0A80000 <=? v) && (v <=? 0xC0A8FFFF)) /\ inside 0xA9FE0000 16 v = ((0xA9FE0000 <=? v) && (v <=? 0xA9FEFFFF)).
Proof. intros _. by rewrite !inside_range by (done || lia). Qed.

Lemma denotes_sum a x y z ok : denotes a x -> (z = a \/ exists c, z = set_v4 a c) -> prefix z = prefix a ->
  (if ok : bool then val4 z = y else z = a) -> denotes z (if ok then Net4 y (plen x) else x).
Proof.
  intros (Hw & Hf & Hv & Hp) Hz Hpz Hval. destruct ok; [|by subst z]. split; [|split; [|by rewrite Hpz]].
  - destruct Hz as [->|[c ->]]; [done|by apply wf_set_v4].
  - by destruct Hz as [->|[c ->]].
Qed.
Lemma add_performs a b x y s l t : denotes a x -> denotes b y -> stack s = a :: l -> performs x s l (Add t y) (cidr_add4 a b s).
Proof.
  intros Ha Hb Hs. pose proof Ha as (Hw & Hf & Hv & Hp). pose proof Hb as (_ & Hfb & Hvb & _).
  pose proof (val4_range a). pose proof (val4_range b). set (sum := value x + value y).
  apply (performs_push x a s l _ (sum <? 2 ^ 32) (if sum <? 2 ^ 32 then Net4 sum (plen x) else x)); [done|done| |].
  2: { intros u [= <-]. fold sum. by destruct (sum <? 2 ^ 32). }
  unfold cidr_add4, pushes. rewrite clone_ok by done. obind. rewrite Hf, Hfb, !bool_decide_eq_true_2 by done. cbn [negb orb].
  fold (val4 a) (val4 b). rewrite Hv, Hvb in *. fold sum. destruct (Z.ltb_spec sum (2 ^ 32)) as [Hlt|Hge].
  - rewrite u32_small by words. destruct (Z.ltb_spec sum (value x)); [words|]. eexists. split; [reflexivity|].
    apply (denotes_sum a x sum _ true); [done|right; by eexists|done|]. rewrite val4_set. apply u32_small. words.
  - destruct (Z.ltb_spec (u32 sum) (value x)); [|words]. by exists a.
Qed.
Lemma sub_performs a b x y s l t : denotes a x -> denotes b y -> stack s = a :: l -> performs x s l (Sub t y) (cidr_sub4 a b s).
Proof.
  intros Ha Hb Hs. pose proof Ha as (Hw & Hf & Hv & Hp). pose proof Hb as (_ & Hfb & Hvb & _).
  pose proof (val4_range a). pose proof (val4_range b). set (diff := value x - value y).
  apply (performs_push x a s l _ (0 <=? diff) (if 0 <=? diff then Net4 diff (plen x) else x)); [done|done| |].
  2: { intros u [= <-]. fold diff. by destruct (0 <=? diff). }
  unfold cidr_sub4, pushes. rewrite clone_ok by done. obind. rewrite Hf, Hfb, !bool_decide_eq_true_2 by done. cbn [negb orb].
  fold (val4 a) (val4 b). rewrite Hv, Hvb in *. fold diff. destruct (Z.leb_spec 0 diff) as [Hle|Hlt].
  - rewrite u32_small by words. destruct (Z.ltb_spec (value x) diff); [words|]. eexists. split; [reflexivity|].
    apply (denotes_sum a x diff _ true); [done|right; by eexists|done|]. rewrite val4_set. apply u32_small. words.
  - destruct (Z.ltb_spec (value x) (u32 diff)); [|words]. by exists a.
Qed.

Lemma masked_inv x (r : bool * list net4 * option bytes) u :
  (if (1 <=? plen x) && (plen x <=? 32) then Some r else None) = Some u -> u = r /\ 1 <= plen x <= 32.
Proof. destruct (Z.leb_spec 1 (plen x)), (Z.leb_spec (plen x) 32); cbn; try done. by intros [= <-]. Qed.
Lemma network_performs a x s l : denotes a x -> stack s = a :: l -> performs x s l Network (cidr_network4 a s).
Proof.
  intros Ha Hs ok new text [E Hp]%masked_inv. revert ok new text E. pose proof Ha as (Hw & Hf & Hv & Hpa).
  destruct (network4_ok malloc_ok a s Hw) as (c & -> & Hwc & Hpc & Hfc & Hvc); [lia|]. intros ok new text [= -> -> ->]. exists [c; a]. rewrite Hs.
  split; [done|]. constructor; [|by constructor]. split; [done|]. split; [by rewrite Hfc|]. split; [|done]. rewrite Hvc, Hv, Hpa. done.
Qed.
Lemma mask_performs o a c x v s l (r : op_result) : denotes a x -> stack s = a :: l ->
  (1 <= plen x <= 32 -> exists m, r = Done (true, set_stack s (set_prefix (set_v4 a m) 32 :: stack s)) /\ val4 (set_v4 a m) = v) ->
  c = Net4 v 32 -> (forall u, step4 o x = Some u -> u = (true, [c; x], None) /\ 1 <= plen x <= 32) -> performs x s l o r.
Proof.
  intros Ha Hs Hr -> Ho ok new text Hu. destruct (Ho _ Hu) as [E Hp]. injection E as -> -> ->. destruct (Hr Hp) as (m & -> & Hm).
  pose proof Ha as (Hw & Hf & _). eexists [_; a]. rewrite Hs. split; [reflexivity|]. constructor; [|by constructor].
  split; [apply wf_set_prefix; [by apply wf_set_v4|words]|]. done.
Qed.
Lemma broadcast_performs a x s l : denotes a x -> stack s = a :: l -> performs x s l Broadcast (cidr_broadcast4 a s).
Proof.
  intros Ha Hs. pose proof Ha as (Hw & Hf & Hv & Hpa).
  apply (mask_performs _ a (Net4 (net_of x + (size4 x - 1)) 32) x (net_of x + (size4 x - 1))); [done|done| |done|].
  2: { intros u [-> ?]%masked_inv. done. }
  intros Hp. unfold cidr_broadcast4. rewrite clone_ok by done. obind. rewrite host_mask_ok by lia. obind. eexists. split; [reflexivity|].
  assert (0 < size4 x <= 2 ^ 31) by (unfold size4; split; [apply Z.pow_pos_nonneg; lia|apply Z.pow_le_mono_r; lia]).
  assert (Hval := val4_range a). unfold val4 at 1. rewrite v4_set.
  rewrite u32_small by (apply lor_in_w; [lia|by apply v4_range|apply htonl_range]).
  rewrite val4_lor by done. rewrite Hpa. fold (size4 x). rewrite u32_small by (unfold is_u32, in_w; lia).
  unfold net_of. rewrite <- Hv. unfold size4. apply lor_fill_low. lia.
Qed.
Lemma netmask_performs a x s l : denotes a x -> stack s = a :: l -> performs x s l Netmask (cidr_netmask4 a s).
Proof.
  intros Ha Hs. pose proof Ha as (Hw & Hf & Hv & Hpa).
  apply (mask_performs _ a (Net4 (2 ^ 32 - size4 x) 32) x (2 ^ 32 - size4 x)); [done|done| |done|].
  2: { intros u [-> ?]%masked_inv. done. }
  intros Hp. unfold cidr_netmask4. rewrite clone_ok by done. obind. rewrite net_mask_ok by lia. obind. eexists. split; [reflexivity|].
  assert (0 < size4 x <= 2 ^ 31) by (unfold size4; split; [apply Z.pow_pos_nonneg; lia|apply Z.pow_le_mono_r; lia]).
  unfold val4. rewrite v4_set, u32_small by apply htonl_range. rewrite ntohl_htonl, Hpa. fold (size4 x). unfold u32, Z.lnot. zdm.
Qed.
Lemma contains_performs a b x y s l t : denotes a x -> denotes b y -> stack s = a :: l ->
  performs x s l (Contains t y) (cidr_contains4 a b s).
Proof.
  intros Ha (Hwb & _ & Hvb & Hpb) Hs ok new text [E Hp]%masked_inv. revert ok new text E. pose proof Ha as (Hw & Hf & Hv & Hpa).
  rewrite cidr_contains4_correct by (done || lia). intros ok new text E.
  eapply (performs_answer x a s l (Contains t y)); [done|done|reflexivity| |]; cycle 1.
  - cbn [step4]. rewrite (proj2 (Z.leb_le 1 _)), (proj2 (Z.leb_le _ 32)) by lia. cbn [andb]. by rewrite <- E.
  - intros u [-> _]%masked_inv. assert (forall b1 b2 : bool, b1 = b2 -> (b1, [x], Some (bit b1)) = (b2, [x], Some (bit b2))) as H by (by intros b1 b2 ->).
    apply H. apply eq_bool_prop_intro. rewrite andb_True, bool_decide_spec, !Is_true_true. unfold inside. rewrite Z.leb_le, Z.eqb_eq, Hpa, Hpb, Hv, Hvb.
    split; intros [? ?]; (split; [done|congruence]).
Qed.
Lemma howmany_performs a b x y s l t : denotes a x -> denotes b y -> stack s = a :: l ->
  performs x s l (Howmany t y) (cidr_howmany a b s).
Proof.
  intros Ha (_ & _ & _ & Hpb) Hs ok new text E. pose proof Ha as (Hw & Hf & Hv & Hpa). unfold cidr_howmany. rewrite Hpa, Hpb.
  assert (Hsay : forall u, qprintf u (separate s) = set_stack (say s u) (a :: l)).
  { intros u. rewrite <- Hs, <- (say_stack s u). unfold say. by destruct (qprintf _ _). }
  cbn [step4] in E. destruct (Z.ltb_spec (plen y) (plen x)) as [|Hle].
  - injection E as <- <- <-. exists [a]. split; [by rewrite Hsay|by constructor].
  - destruct (Z.ltb_spec (plen y - plen x) 32) as [Hlt|]; [|done]. injection E as <- <- <-. rewrite shl1_ok by lia. obind.
    exists [a]. split; [by rewrite Hsay|by constructor].
Qed.

(** One operation of the command line. *)
Lemma turn_ok4 o rest status s a x l ok new text : denotes a x -> stack s = a :: l -> op_ok o ->
  step4 o x = Some (ok, new, text) ->
  exists new', runop (op_words o ++ rest) status s =
      Done (true, rest, if ok then 0 else 1, set_stack (foldl say s (option_list text)) (new' ++ l)) /\ Forall2 denotes new' new.
Proof.
  intros Ha Hs Ho Hstep. pose proof Ha as (Hw & Hf & Hv & Hp).
  assert (Hu : forall i n f f6, find_from (fun o => strcmp_eq (name o) (str n)) ops = Some (i, unary n (Some f) f6) -> op_words o = [str n] ->
    performs x s l o (f a s) -> exists new', runop (op_words o ++ rest) status s =
      Done (true, rest, if ok then 0 else 1, set_stack (foldl say s (option_list text)) (new' ++ l)) /\ Forall2 denotes new' new).
  { intros i n f f6 Hfind -> Hperf. destruct (Hperf ok new text Hstep) as (new' & Hr & Hnew). exists new'. split; [|done].
    cbn [app]. by rewrite (turn_unary i n f f6 rest status s a l) by done; rewrite Hr. }
  assert (Hb : forall i n f f6 t y, find_from (fun o => strcmp_eq (name o) (str n)) ops = Some (i, binary n (Some f) f6) ->
    op_words o = [str n; t] -> op_arg o = Some (t, y) -> (forall b, denotes b y -> performs x s l o (f a b s)) ->
    exists new', runop (op_words o ++ rest) status s =
      Done (true, rest, if ok then 0 else 1, set_stack (foldl say s (option_list text)) (new' ++ l)) /\ Forall2 denotes new' new).
  { intros i n f f6 t y Hfind -> Harg Hperf. destruct (Ho t y s Harg) as (b & Hparse & Hby).
    destruct (Hperf b Hby ok new text Hstep) as (new' & Hr & Hnew). exists new'. split; [|done].
    cbn [app]. by rewrite (turn_binary i n f f6 rest status s a l t b) by done; rewrite Hr. }
  destruct o.
  - eapply (Hb 0%nat "add"); [done..|]. intros b Hby. by apply (add_performs a).
  - eapply (Hb 1%nat "sub"); [done..|]. intros b Hby. by apply (sub_performs a).
  - eapply (Hb 6%nat "prefix"); [done..|]. intros b (Hwb & _ & _ & Hpb) ok' new' text' [= <- <- <-].
    exists [set_prefix a (prefix b)]. unfold cidr_prefix, set_top. rewrite Hs. split; [done|]. constructor; [|done].
    split; [by apply wf_set_prefix; [|apply Hwb]|done].
  - eapply (Hb 10%nat "contains"); [done..|]. intros b Hby. by apply contains_performs.
  - eapply (Hb 9%nat "howmany"); [done..|]. intros b Hby. by apply (howmany_performs a).
  - eapply (Hu 4%nat "network"); [done..|]. by apply network_performs.
  - eapply (Hu 5%nat "broadcast"); [done..|]. by apply broadcast_performs.
  - eapply (Hu 7%nat "netmask"); [done..|]. by apply netmask_performs.
  - eapply (Hu 11%nat "private"); [done..|]. eapply (performs_answer x a); [done|done|reflexivity|]. intros u [= <-].
    destruct (range_tests (value x)) as (-> & -> & -> & _); [rewrite <- Hv; apply val4_range|]. unfold val4 in Hv. by rewrite Hv.
  - eapply (Hu 12%nat "linklocal"); [done..|]. eapply (performs_answer x a); [done|done|reflexivity|]. intros u [= <-].
    destruct (range_tests (value x)) as (_ & _ & _ & ->); [rewrite <- Hv; apply val4_range|]. unfold val4 in Hv. by rewrite Hv.
  - eapply (Hu 15%nat "pop" (fun _ => cidr_pop)); [done..|]. intros ok' new' text' [= <- <- <-]. exists []. unfold cidr_pop. rewrite Hs. done.
  - eapply (Hu 16%nat "print"); [done..|]. intros ok' new' text' E. rewrite (print4_shown a x s l) by done. cbn [step4] in E.
    destruct (shown x) as [t|]; [|done]. injection E as <- <- <-. by exists [].
Qed.

(** A calculation on the command line. *)
Lemma run_calculation os : forall status s st ok st' texts ok' fuel, Forall2 denotes (stack s) st -> Forall op_ok os ->
  calculate os st ok = Some (st', texts, ok') -> status = (if ok then 0 else 1) -> (length os < fuel)%nat ->
  exists l', run_loop fuel (concat (map op_words os)) status s =
      Done ([], if ok' then 0 else 1, set_stack (foldl say s texts) l') /\ Forall2 denotes l' st'.
Proof.
  induction os as [|o os IH]; intros status s st ok st' texts ok' fuel Hs Hos Hc -> Hf; destruct fuel as [|fuel]; [lia| |lia|].
  - cbn [calculate] in Hc. injection Hc as <- <- <-. exists (stack s). cbn. split; [|done]. by destruct s.
  - apply Forall_cons in Hos as [Ho Hos]. cbn [length] in Hf. destruct st as [|x st]; [done|].
    destruct (stack s) as [|a l] eqn:Hst; [by inversion Hs|]. apply Forall2_cons in Hs as [Ha Hl].
    cbn [calculate] in Hc. apply bind_Some in Hc as ([[ok1 new] text] & Hstep & Hc).
    apply bind_Some in Hc as ([[st2 texts2] ok2] & Hc & E). injection E as -> <- ->.
    cbn [map concat run_loop].
    destruct (turn_ok4 o (concat (map op_words os)) (if ok then 0 else 1) s a x l ok1 new text Ha Hst Ho Hstep) as (new' & Hr & Hnew).
    rewrite Hr. obind. set (s1 := set_stack _ _).
    destruct (IH (if ok1 then 0 else 1) s1 (new ++ st) ok1 st' texts2 ok' fuel) as (l' & Hrun & Hl'); [|done..|lia|].
    { unfold s1. cbn [set_stack stack]. by apply Forall2_app. }
    exists l'. split; [|done]. rewrite Hrun, foldl_app. do 2 f_equal. unfold s1. set (s2 := foldl say s (option_list text)).
    assert (Hsay : forall ts u l1 l2, set_stack (foldl say (set_stack u l1) ts) l2 = set_stack (foldl say u ts) l2).
    { induction ts as [|t ts IHt]; intros u l1 l2; [done|]. cbn [foldl].
      assert (say (set_stack u l1) t = set_stack (say u t) l1) as -> by (unfold say, separate; by destruct u as [? ? [] ?]). apply IHt. }
    apply Hsay.
Qed.

(** The texts with blanks between them. *)
Definition unwords (ts : list bytes) : bytes := match ts with [] => [] | t :: ts => t ++ concat (map (cons 32) ts) end.
Lemma says_printed ts s : printed s = true -> quiet s = false ->
  printed (foldl say s ts) = true /\ quiet (foldl say s ts) = false /\ out (foldl say s ts) = out s ++ concat (map (cons 32) ts).
Proof.
  revert s. induction ts as [|t ts IH]; intros s Hp Hq; cbn [foldl map concat]; [by rewrite app_nil_r|].
  assert (Hsay : say s t = State (stack s) false true (out s ++ 32 :: t)).
  { unfold say, separate, qprintf. rewrite Hp. cbn. rewrite Hq. by rewrite <- app_assoc. }
  destruct (IH (say s t)) as (H1 & H2 & H3); [by rewrite Hsay..|]. split; [done|]. split; [done|]. rewrite H3, Hsay. cbn. by rewrite <- app_assoc.
Qed.
Lemma says_start ts l : quiet (foldl say (set_stack start l) ts) = false /\
  printed (foldl say (set_stack start l) ts) = negb (bool_decide (ts = [])) /\ out (foldl say (set_stack start l) ts) = unwords ts.
Proof.
  destruct ts as [|t ts]; [done|]. cbn [foldl].
  destruct (says_printed ts (say (set_stack start l) t)) as (H1 & H2 & H3); [done..|]. rewrite H1, H2, H3. split; [done|]. split; [done|].
  done.
Qed.

(** C29: the calculator computes, from the command line to the output, on machines of
    either byte order. Take a base address that is read as an IPv4 address and any
    sequence of the operations add, sub, prefix, contains, howmany, network, broadcast,
    netmask, private, linklocal, pop and print, whose arguments can be read. When the
    specification on numbers has a result for it (an operation always finds an address
    on its stack, masks are asked for prefixes of 1 to 32 only, counts below 2^32), then
    the program prints what the specification prints, with blanks between and a newline
    at the end, or the top of its stack when that is nothing, and exits with 0 or 1, as
    the last operation succeeded or failed. "print" takes what it prints off the stack,
    as its description says; so the usage text's example prints something else than that
    text says (see [usage_example]). *)
Theorem main_calculates t a x os st texts ok :
  strchr t 58 = None -> cidr_parse4 t = Some a -> denotes a x -> os <> [] -> Forall op_ok os ->
  calculate os [x] true = Some (st, texts, ok) ->
  main (t :: concat (map op_words os)) =
    let code := if ok then 0 else 1 in
    match texts, st with
    | _ :: _, _ => Fail (code, unwords texts ++ [10])
    | [], y :: _ => Fail (code, default [] (shown y) ++ [10])
    | [], [] => Fault
    end.
Proof.
  intros Hcolon Hparse Ha Hne Hos Hc. unfold main. destruct (concat (map op_words os)) as [|w ws] eqn:Hws.
  { destruct os as [|o os]; [done|]. by destruct o. }
  rewrite Hcolon, Hparse, <- Hws.
  assert (Hlen : (length os < S (length (concat (map op_words os))))%nat).
  { clear. induction os as [|o os IH]; cbn; [lia|]. rewrite length_app. destruct o; cbn; lia. }
  destruct (run_calculation os 0 (cidr_push a start) [x] true st texts ok (S (length (concat (map op_words os))))) as (l' & -> & Hl');
    [by constructor|done..|]. obind.
  change (cidr_push a start) with (set_stack start [a]). destruct (says_start texts [a]) as (Hq & Hp & Hout).
  set (s := foldl say (set_stack start [a]) texts) in *. cbn [set_stack printed]. rewrite Hp.
  assert (Hcode : ((if ok then 0 else 1) <? 2) = true) by (by destruct ok). rewrite Hcode, andb_true_r. cbv zeta. destruct texts as [|tx texts].
  - cbn [bool_decide decide negb]. rewrite bool_decide_eq_true_2 by done. cbn [negb]. destruct st as [|y st]; [by inversion Hl'; subst|].
    inversion Hl' as [|b ? l ? Hb _ E]. subst l'. cbn [set_stack stack head]. obind. pose proof Hb as (_ & Hfb & _).
    rewrite decide_True by done. rewrite (print4_shown b y _ l) by done. destruct (shown y) as [ty|]; obind.
    + cbn. unfold s. done.
    + cbn. unfold s. done.
  - rewrite bool_decide_eq_false_2 by done. cbn [negb]. obind. f_equal. f_equal. unfold qprintf. cbn [out set_stack quiet]. rewrite Hq. by rewrite Hout.
Qed.
End Run.
End Calc.

(** ** Runs on concrete command lines *)

(** [inet_pton] and [inet_ntop] on dotted quads. *)
Fixpoint quads (n : nat) (t : bytes) : option bytes :=
  let '(v, r) := strtoul 10 t in
  if bool_decide (r = t) || negb (v <? 256) then None
  else match n, r with
       | O, [] => Some [v]
       | S n', 46 :: r' => option_map (cons v) (quads n' r')
       | _, _ => None
       end.
Definition quad_pton (f : af) (t : bytes) : option bytes :=
  match f with AF_INET => quads 3 t | AF_INET6 => None end.
Definition quad_ntop (f : af) (b : bytes) : option bytes :=
  match f, b with
  | AF_INET, [b0; b1; b2; b3] =>
    Some (print_dec b0 ++ [46] ++ print_dec b1 ++ [46] ++ print_dec b2 ++ [46] ++ print_dec b3)
  | _, _ => None
  end.
Definition blank : bytes := replicate 16 0.
Definition calc (e : endian) (argv : list string) : run unit :=
  main e (fun _ => true) blank quad_pton quad_ntop (map str argv).

(** The first example of the usage text: the text says the second line of its output
    is 192.168.1.250. *)
Example usage_example :
  calc LE ["192.168.1.1/255.255.255.0"; "network"; "add"; "100"; "print"; "add"; "150"; "print"]%string =
  Fail (0, str "192.168.1.100 192.168.1.150" ++ [10]).
Proof. vm_compute. reflexivity. Qed.

(** On a little-endian machine "next" adds the byte-swapped size to the byte-swapped
    address: carries go the wrong way. *)
Example next4_little_endian :
  calc BE ["10.0.255.0/24"; "next"; "24"]%string = Fail (0, str "10.1.0.0/24" ++ [10]) /\
  calc LE ["10.0.255.0/24"; "next"; "24"]%string = Fail (0, str "10.0.0.1/24" ++ [10]).
Proof. split; vm_compute; reflexivity. Qed.

(** A prefix of 0 shifts by the width of the word. *)
Example network4_default_route : calc LE ["0.0.0.0/0"; "network"]%string = Fault.
Proof. vm_compute. reflexivity. Qed.

(** After the last address has been popped, an operation reads through a null pointer. *)
Example pop_then_network : calc LE ["10.0.0.1"; "pop"; "network"]%string = Fault.
Proof. vm_compute. reflexivity. Qed.

(** A missing argument exits with 6, "unknown operation", not with 2. *)
Example missing_argument : calc LE ["10.0.0.1"; "add"]%string = Fail (6, []).
Proof. vm_compute. reflexivity. Qed.

(** Whether 10.0.0.0/8 contains addresses. *)
Example contains_answers :
  calc LE ["10.0.0.0/8"; "contains"; "10.1.2.3"]%string = Fail (0, str "1" ++ [10]) /\
  calc LE ["10.0.0.0/8"; "contains"; "11.1.2.3"]%string = Fail (1, str "0" ++ [10]).
Proof. split; vm_compute; reflexivity. Qed.

(** ** Concrete instances *)

Definition always (n : Z) : bool := true.
Definition host4 (p : Z) (b : bytes) : cidr := Cidr AF_INET p (b ++ replicate 12 0).
Definition host6 (p : Z) (b : bytes) : cidr := Cidr AF_INET6 p (b ++ replicate (16 - length b) 0).
Definition lan : cidr := host4 24 [192; 168; 1; 77].
Definition site : cidr := host6 44 [0x20; 0x01; 0x0d; 0xb8; 0xfd; 0xef].
Definition subnet : cidr := host6 64 [0x20; 0x01; 0x0d; 0xb8; 0xfd; 0xe1].

(** Well-formedness of a concrete address. *)
Ltac in_range := split; vm_compute; first [discriminate|reflexivity].
Ltac concrete_wf := split; [reflexivity|split; [apply is_bytes_check; reflexivity|in_range]].
Lemma wf_lan : wf lan.
Proof. concrete_wf. Qed.
Lemma wf_site : wf site.
Proof. concrete_wf. Qed.
Lemma wf_subnet : wf subnet.
Proof. concrete_wf. Qed.

Lemma cidr_network4_correct_witness :
  pushes start (fun n => prefix n = 32 /\ family n = AF_INET /\ val4 LE n = 0xC0A80100) true
    (cidr_network4 LE always lan start).
Proof.
  destruct (cidr_network4_correct LE always blank quad_pton quad_ntop (fun _ => eq_refl) lan start wf_lan ltac:(in_range)) as [H _].
  exact H.
Defined.
Lemma cidr_contains4_correct_witness :
  cidr_contains4 LE lan (host4 28 [192; 168; 1; 16]) start = answer true start.
Proof.
  rewrite (cidr_contains4_correct LE lan (host4 28 [192; 168; 1; 16]) start wf_lan ltac:(concrete_wf) ltac:(in_range)).
  vm_compute. reflexivity.
Defined.
Lemma cidr_add4_correct_witness :
  pushes start (fun n => prefix n = 24 /\ val4 LE n = 0xC0A8014D + 10) true
    (cidr_add4 LE always lan (host4 32 [0; 0; 0; 10]) start).
Proof.
  destruct (cidr_add4_correct LE always blank quad_pton quad_ntop (fun _ => eq_refl) lan (host4 32 [0; 0; 0; 10]) start) as [H _]; [done|done|].
  exact H.
Defined.
Lemma cidr_add6_correct_witness :
  pushes start (fun n => wf n /\ prefix n = 64 /\ val6 n = (val6 subnet + val6 site) mod 2 ^ 128) true
    (cidr_add6 always subnet site start).
Proof.
  destruct (cidr_add6_correct always quad_pton quad_ntop (fun _ => eq_refl) subnet site start wf_subnet wf_site) as [H _]; [done|done|].
  exact H.
Defined.
Lemma cidr_next6_step_witness :
  pushes start (fun n => val6 n = (val6 subnet + 2 ^ 64) mod 2 ^ 128 /\
      (val6 subnet + 2 ^ 64 < 2 ^ 128 -> prefix n = 64)) true (cidr_next6 always subnet subnet start).
Proof.
  destruct (cidr_next6_step always blank quad_pton quad_ntop (fun _ => eq_refl) subnet subnet start wf_subnet ltac:(in_range)) as (_ & _ & H & _).
  exact H.
Defined.
Lemma cidr_network6_correct_witness :
  pushes start (fun n => prefix n = 44 /\ family n = AF_INET6 /\ val6 n = val6 site / 2 ^ 84 * 2 ^ 84) true
    (cidr_network6 always site start).
Proof.
  exact (cidr_network6_correct always blank quad_pton quad_ntop (fun _ => eq_refl) site start wf_site ltac:(vm_compute; discriminate)).
Defined.
Lemma cidr_contains6_correct_witness :
  cidr_contains6 always site subnet start = answer true (cidr_push site start).
Proof.
  rewrite (cidr_contains6_correct always blank quad_pton quad_ntop (fun _ => eq_refl) site subnet start wf_site wf_subnet ltac:(in_range)).
  vm_compute. reflexivity.
Defined.
Lemma cidr_next4_correct_witness :
  pushes start (fun n => prefix n = 24 /\ val4 BE n = 0xC0A8014D + 2 ^ 8) true
    (cidr_next4 BE always lan lan start).
Proof.
  destruct (cidr_next4_correct BE always blank quad_pton quad_ntop (fun _ => eq_refl) lan lan start eq_refl wf_lan ltac:(in_range)) as [H _].
  exact H.
Defined.
Lemma runop_keeps_witness :
  stack_ok (set_stack start [set_prefix (set_v4 LE lan (v4 LE lan &ᵤ htonl LE 0xFFFFFF00)) 32; lan]).
Proof.
  apply (runop_keeps LE always blank (fun _ _ => None) quad_ntop (fun _ _ H => ltac:(discriminate))
    (fun _ _ H => ltac:(discriminate)) (conj eq_refl (is_bytes_check blank eq_refl))
    [str "network"] 0 (set_stack start [lan]) true [] 0); [|vm_compute; reflexivity].
  constructor; [exact wf_lan|constructor].
Defined.
Lemma run_loop_terminates_witness :
  run_loop LE always blank quad_pton quad_ntop 9 [str "network"; str "print"] 0 (set_stack start [lan]) =
  Done ([], 0, State [lan] false true (str "192.168.1.0")).
Proof.
  rewrite (run_loop_terminates LE always blank quad_pton quad_ntop 9 [str "network"; str "print"] 0 (set_stack start [lan]))
    by (cbn; lia).
  vm_compute. reflexivity.
Defined.
(** The argument that is a number, and its value. *)
Lemma number_arg e t v : t <> [] -> strtoul 0 t = (v, []) -> is_u32 v ->
  forall s, exists b, cidr_parse e always blank quad_pton t AF_INET s = Done (Some b) /\ denotes e b (Net4 v v).
Proof.
  intros Hne Hv Hr s. unfold cidr_parse. rewrite Hv, bool_decide_eq_false_2 by done. cbn. eexists. split; [reflexivity|].
  split; [|split; [done|split; [|done]]].
  - split; [|split]; cbn; [by rewrite length_app, length_word_bytes| |done].
    apply is_bytes_app; [apply is_bytes_word_bytes|]. apply is_bytes_check. reflexivity.
  - rewrite val4_set. by apply u32_small.
Qed.
Lemma main_calculates_witness :
  calc LE ["192.168.1.77/24"; "network"; "add"; "100"; "print"; "private"; "add"; "0x96"; "sub"; "1"; "print"]%string =
  Fail (0, str "192.168.1.100 1 192.168.1.149" ++ [10]).
Proof.
  refine (main_calculates LE always blank quad_pton quad_ntop (fun _ => eq_refl) (str "192.168.1.77/24") lan (Net4 0xC0A8014D 24)
    [Network; Add (str "100") (Net4 100 100); Print; Private; Add (str "0x96") (Net4 150 150); Sub (str "1") (Net4 1 1); Print]
    _ [str "192.168.1.100"; str "1"; str "192.168.1.149"] true eq_refl eq_refl _ _ _ _).
  - split; [exact wf_lan|]. repeat split.
  - discriminate.
  - repeat constructor; intros t y s [= <- <-]; apply number_arg; (discriminate || reflexivity || words).
  - vm_compute. reflexivity.
Defined.

End Owipcalc.
