(* ===== verification/Garden.v ===== *)
(** * The walled garden ([package/coova-chilli/src/src/garden.c])

    The pass-through entries that unauthenticated clients may reach: an array of
    [ptlen] entries of which the first [num] are in use. The specification of the
    array is the list of the entries in use, oldest first.  The build has neither the
    Patricia tree nor the extended garden, so entries do not expire; the protocol
    and host name lookups of the C library are arguments. *)

From S2P Require Import Prelude CLib IpPool.

Module Garden.

(** ** Data *)

Record pass_through := PassThrough { host : Z; mask : Z; proto : Z; port : Z }.
#[export] Instance pass_through_eq_dec : EqDecision pass_through.
Proof. solve_decision. Defined.

(** [ptlist] and [*ptcnt] *)
Record garden := Garden { ptlist : list pass_through; ptcnt : Z }.

(** The fields of [pkt_ipphdr_t] that are looked at; all in network order. *)
Record pkt_ipphdr := Ipph { protocol : Z; saddr : Z; daddr : Z; sport : Z; dport : Z }.
Definition PKT_IP_PROTO_TCP : Z := 6.
Definition PKT_IP_PROTO_UDP : Z := 17.

Definition pt_equal (a b : pass_through) : bool :=
  (host a =? host b) && (mask a =? mask b) && (proto a =? proto b) && (port a =? port b).

(** The return values: [Fail] is [-1]. *)
Notation "'result' A" := (outcome unit A) (at level 10, A at level 9).

(** [for (; i < cnt; i++) if (f(&ptlist[i])) ...]: the index where the loop stops,
    with [n] entries to look at from [i] on. *)
Fixpoint search (f : pass_through -> bool) (n i : nat) (l : list pass_through) : result (option nat) :=
  match n with
  | O => Done None
  | S n' => pt ← access (l !! i); if f pt then Done (Some i) else search f n' (S i) l
  end.

(** ** The check of a packet *)

Section Check.
Context (e : endian).

Definition pt_matches (pt : pass_through) (ipph : pkt_ipphdr) (dst : bool) : bool :=
  ((proto pt =? 0) || (protocol ipph =? proto pt)) &&
  ((host pt =? 0) || (host pt =? (if dst then daddr ipph else saddr ipph) &ᵤ mask pt)) &&
  ((port pt =? 0) ||
   (((protocol ipph =? PKT_IP_PROTO_TCP) || (protocol ipph =? PKT_IP_PROTO_UDP)) &&
    ((if dst then dport ipph else sport ipph) =? htons e (port pt)))).

(** 1 or 0, and [*pt_match]. *)
Definition garden_check (g : garden) (ipph : pkt_ipphdr) (dst : bool) : result (bool * option nat) :=
  r ← search (fun pt => pt_matches pt ipph dst) (Z.to_nat (ptcnt g)) 0 (ptlist g);
  Done (match r with Some i => (true, Some i) | None => (false, None) end).

(** The static list of the options, then the dynamic list of the instance. *)
Definition dhcp_garden_check (static dynamic : garden) (ipph : pkt_ipphdr) (dst : bool) : result bool :=
  '(found, _) ← garden_check static ipph dst;
  if found : bool then Done true
  else '(found, _) ← garden_check dynamic ipph dst; Done found.
End Check.

(** ** Adding and removing an entry *)

(** [for (; i < end; i++) memcpy(&ptlist[i], &ptlist[i+1], ...);], [n] rounds. *)
Fixpoint shift_loop (n i : nat) (l : list pass_through) : result (list pass_through) :=
  match n with
  | O => Done l
  | S n' => x ← access (l !! S i); shift_loop n' (S i) (<[i := x]> l)
  end.

Definition pass_through_rem (g : garden) (pt : pass_through) : result garden :=
  let cnt := ptcnt g in
  r ← search (fun x => pt_equal x pt) (Z.to_nat cnt) 0 (ptlist g);
  match r with
  | Some i =>
    l ← shift_loop (Z.to_nat ((cnt -₃₂ 1) - Z.of_nat i)) i (ptlist g);
    Done (Garden l (cnt -₃₂ 1))
  | None => Done g
  end.

(** The entry stored behind the [cnt] entries of the list. *)
Definition append (l : list pass_through) (cnt : Z) (pt : pass_through) : result garden :=
  _ ← access (l !! Z.to_nat cnt);
  Done (Garden (<[Z.to_nat cnt := pt]> l) (cnt +₃₂ 1)).

Definition pass_through_add (ptlen : Z) (g : garden) (pt : pass_through) (is_dyn : bool) : result garden :=
  let cnt := ptcnt g in
  r ← search (fun x => pt_equal x pt) (Z.to_nat cnt) 0 (ptlist g);
  match r with
  | Some i =>
    if is_dyn then
      l ← shift_loop (Z.to_nat ((cnt -₃₂ 1) - Z.of_nat i)) i (ptlist g);
      let cnt := cnt -₃₂ 1 in
      if cnt =? ptlen then
        l ← shift_loop (Z.to_nat (ptlen -₃₂ 1)) 0 l;
        append l (cnt -₃₂ 1) pt
      else append l cnt pt
    else Done g
  | None =>
    if cnt =? ptlen then
      if is_dyn then
        l ← shift_loop (Z.to_nat (ptlen -₃₂ 1)) 0 (ptlist g);
        append l (cnt -₃₂ 1) pt
      else Fail tt
    else append (ptlist g) cnt pt
  end.

(** ** Entries from text *)

Section Parse.
Context (e : endian) (getprotobyname : bytes -> option Z) (getprotobynumber : Z -> option Z)
  (gethostbyname : bytes -> option (list Z)).

Definition before (i : option nat) (t : bytes) : bytes := match i with Some i => take i t | None => t end.

(** The protocol in front of the first colon, if it names one, and the rest. *)
Definition parse_proto (p1 : bytes) : Z * bytes :=
  match strchr p1 58 with
  | None => (0, p1)
  | Some t =>
    let name := take t p1 in
    let p := match getprotobyname name with
             | Some p => Some p
             | None => match strchr name 46 with None => getprotobynumber (atoi name) | Some _ => None end
             end in
    match p with
    | Some pnum => if 0 <? pnum then (u8 pnum, drop (S t) p1) else (0, p1)
    | None => (0, p1)
    end
  end.

(** [is_rem] removes, otherwise the entry is added; an error is only logged. *)
Definition apply_entry (ptlen : Z) (is_dyn is_rem : bool) (g : garden) (pt : pass_through) : result garden :=
  match (if is_rem then pass_through_rem g pt else pass_through_add ptlen g pt is_dyn) with
  | Fail _ => Done g
  | r => r
  end.

Fixpoint apply_hosts (ptlen : Z) (is_dyn is_rem : bool) (pr po : Z) (hs : list Z) (g : garden) : result garden :=
  match hs with
  | [] => Done g
  | h :: hs' =>
    g ← apply_entry ptlen is_dyn is_rem g (PassThrough h 0xffffffff pr po);
    apply_hosts ptlen is_dyn is_rem pr po hs' g
  end.

(** One entry of the comma separated list: protocol, port and the rest. *)
Definition parse_entry (p1 : bytes) : Z * Z * bytes :=
  let '(pr, p1) := parse_proto (skip_spaces p1) in
  let t := strchr p1 58 in
  let po := match t with Some i => u16 (atoi (drop (S i) p1)) | None => 0 end in
  (pr, po, before t p1).

Definition from_entry (ptlen : Z) (is_dyn is_rem : bool) (p1 : bytes) (g : garden) : result garden :=
  let '(pr, po, p1) := parse_entry p1 in
  match strchr p1 47 with
  | Some _ =>
    match IpPool.option_aton e p1 with
    | Done (h, m) => apply_entry ptlen is_dyn is_rem g (PassThrough h m pr po)
    | Fail _ => Done g
    | Fault => Fault
    end
  | None =>
    match gethostbyname p1 with
    | None => Done g
    | Some hs => apply_hosts ptlen is_dyn is_rem pr po hs g
    end
  end.

Fixpoint from_string (fuel : nat) (ptlen : Z) (is_dyn is_rem : bool) (p1 : bytes) (g : garden) : result garden :=
  match fuel with
  | O => Fault
  | S n =>
    let p2 := strchr p1 44 in
    g ← from_entry ptlen is_dyn is_rem (before p2 p1) g;
    match p2 with
    | Some i => from_string n ptlen is_dyn is_rem (drop (S i) p1) g
    | None => Done g
    end
  end.

(** Each round uses up a comma. *)
Definition pass_throughs_from_string (ptlen : Z) (is_dyn is_rem : bool) (s : bytes) (g : garden) : result garden :=
  from_string (S (length s)) ptlen is_dyn is_rem s g.
End Parse.

(** ** The list of entries in use *)

Definition wf (ptlen : Z) (g : garden) : Prop :=
  0 < ptlen < 2 ^ 31 /\ Z.of_nat (length (ptlist g)) = ptlen /\ 0 <= ptcnt g <= ptlen.
Definition active (g : garden) : list pass_through := take (Z.to_nat (ptcnt g)) (ptlist g).

Lemma pt_equal_spec a b : pt_equal a b = bool_decide (a = b).
Proof.
  unfold pt_equal. destruct a, b. cbn. apply eq_bool_prop_intro.
  rewrite !andb_True, !Is_true_true, !Z.eqb_eq, bool_decide_eq_true. intuition congruence.
Qed.

Lemma search_ok f n i l :
  (i + n <= length l)%nat ->
  search f n i l = Done ((fun p => i + p.1)%nat <$> find_from f (take n (drop i l))).
Proof.
  revert i. induction n as [|n IH]; intros i Hl; cbn [search]; [done|].
  destruct (lookup_lt_is_Some_2 l i ltac:(lia)) as [x Hx]. rewrite Hx. obind.
  rewrite (drop_S l x i Hx). cbn [take find_from]. destruct (f x); [cbn; do 2 f_equal; lia|].
  rewrite IH by lia. destruct (find_from f _) as [[k y]|]; cbn; do 2 f_equal. lia.
Qed.
Lemma shift_loop_ok n i l :
  (i + n < length l)%nat ->
  shift_loop n i l = Done (take i l ++ take n (drop (S i) l) ++ drop (i + n) l).
Proof.
  revert i l. induction n as [|n IH]; intros i l Hl; cbn [shift_loop].
  { rewrite Nat.add_0_r, take_0. cbn [app]. by rewrite take_drop. }
  destruct (lookup_lt_is_Some_2 l (S i) ltac:(lia)) as [x Hx]. rewrite Hx. obind.
  rewrite IH by (rewrite length_insert; lia). f_equal.
  rewrite (take_S_r _ _ x) by (rewrite list_lookup_insert_eq; [done|lia]).
  rewrite take_insert_ge, !drop_insert_lt by lia. rewrite (drop_S l x (S i) Hx). cbn [take].
  rewrite <- app_assoc. cbn [app]. do 4 f_equal. lia.
Qed.

(** Closing the gap at [i] deletes the entry from the ones in use. *)
Lemma shift_delete l i c :
  (i < c <= length l)%nat ->
  exists l', shift_loop (c - 1 - i) i l = Done l' /\ length l' = length l /\ take (c - 1) l' = delete i (take c l).
Proof.
  intros Hi. eexists. split; [apply shift_loop_ok; lia|]. split.
  { rewrite !length_app, !length_take, !length_drop. lia. }
  rewrite delete_take_drop, take_take, Nat.min_l, skipn_firstn_comm by lia.
  rewrite app_assoc, take_app_length' by (rewrite length_app, !length_take, length_drop; lia).
  do 2 f_equal. lia.
Qed.
Lemma append_entry_ok ptlen l c pt :
  0 < ptlen < 2 ^ 31 -> Z.of_nat (length l) = ptlen -> 0 <= c < ptlen ->
  exists g, append l c pt = Done g /\ wf ptlen g /\ active g = take (Z.to_nat c) l ++ [pt].
Proof.
  intros Hp Hl Hc. unfold append.
  destruct (lookup_lt_is_Some_2 l (Z.to_nat c) ltac:(lia)) as [x Hx]. rewrite Hx. obind.
  rewrite u32_small by words. eexists. split; [reflexivity|]. split.
  - split; [done|]. cbn [ptlist ptcnt]. rewrite length_insert. lia.
  - unfold active. cbn [ptlist ptcnt]. replace (Z.to_nat (c + 1)) with (S (Z.to_nat c)) by lia.
    rewrite (take_S_r _ _ pt) by (rewrite list_lookup_insert_eq; [done|lia]).
    by rewrite take_insert_ge.
Qed.

(** What adding and removing an entry do to the list of entries in use. *)
Definition add_spec (cap : Z) (is_dyn : bool) (pt : pass_through) (l : list pass_through)
    : option (list pass_through) :=
  if decide (pt ∈ l) then Some (if is_dyn then filter (fun x => x <> pt) l ++ [pt] else l)
  else if Z.of_nat (length l) =? cap then (if is_dyn then Some (tail l ++ [pt]) else None)
  else Some (l ++ [pt]).
Definition rem_spec (pt : pass_through) (l : list pass_through) : list pass_through :=
  filter (fun x => x <> pt) l.

Lemma length_active ptlen g : wf ptlen g -> Z.of_nat (length (active g)) = ptcnt g.
Proof. intros (Hp & Hl & Hc). unfold active. rewrite length_take. lia. Qed.

(** The search for an equal entry, by membership. *)
Lemma search_equal ptlen g pt :
  wf ptlen g -> NoDup (active g) ->
  ((pt ∉ active g) /\ search (fun x => pt_equal x pt) (Z.to_nat (ptcnt g)) 0 (ptlist g) = Done None) \/
  (exists i, search (fun x => pt_equal x pt) (Z.to_nat (ptcnt g)) 0 (ptlist g) = Done (Some i) /\
     active g !! i = Some pt /\ Z.of_nat i < ptcnt g).
Proof.
  intros Hw Hnd. rewrite search_ok by (destruct Hw; lia). rewrite drop_0. fold (active g).
  destruct (find_from _ (active g)) as [[i x]|] eqn:Hf.
  - right. exists i. apply find_from_Some in Hf as (Hi & Hx & _).
    rewrite pt_equal_spec, bool_decide_eq_true in Hx. subst x. split; [done|]. split; [done|].
    apply lookup_lt_Some in Hi. rewrite <- (length_active ptlen g) by done. lia.
  - left. split; [|done]. apply find_from_None in Hf. intros Hin.
    rewrite Forall_forall in Hf. specialize (Hf pt Hin). by rewrite pt_equal_spec, bool_decide_eq_false in Hf.
Qed.

Lemma rem_ok ptlen g pt :
  wf ptlen g -> NoDup (active g) ->
  exists g', pass_through_rem g pt = Done g' /\ wf ptlen g' /\ active g' = rem_spec pt (active g).
Proof.
  intros Hw Hnd. unfold pass_through_rem.
  destruct (search_equal ptlen g pt Hw Hnd) as [[Hin ->]|(i & -> & Hi & Hlt)]; obind.
  - exists g. split; [done|]. split; [done|]. unfold rem_spec. symmetry. apply filter_all, Forall_forall. by intros x Hx ->.
  - pose proof Hw as (Hp & Hl & Hc). rewrite u32_small by words.
    destruct (shift_delete (ptlist g) i (Z.to_nat (ptcnt g))) as (l' & Hs & Hl' & Ht); [lia|].
    replace (Z.to_nat (ptcnt g - 1 - Z.of_nat i)) with (Z.to_nat (ptcnt g) - 1 - i)%nat by lia.
    rewrite Hs. obind. eexists. split; [reflexivity|]. split.
    + split; [done|]. cbn [ptlist ptcnt]. lia.
    + unfold active, rem_spec. cbn [ptlist ptcnt]. rewrite <- (delete_filter _ i) by done.
      fold (active g). replace (Z.to_nat (ptcnt g - 1)) with (Z.to_nat (ptcnt g) - 1)%nat by lia. done.
Qed.

Lemma add_ok ptlen g pt is_dyn :
  wf ptlen g -> NoDup (active g) ->
  match add_spec ptlen is_dyn pt (active g) with
  | Some l => exists g', pass_through_add ptlen g pt is_dyn = Done g' /\ wf ptlen g' /\ active g' = l
  | None => pass_through_add ptlen g pt is_dyn = Fail tt
  end.
Proof.
  intros Hw Hnd. unfold pass_through_add, add_spec. pose proof Hw as (Hp & Hl & Hc).
  rewrite (length_active ptlen) by done.
  destruct (search_equal ptlen g pt Hw Hnd) as [[Hin ->]|(i & -> & Hi & Hlt)]; obind.
  - rewrite decide_False by done. destruct (Z.eqb_spec (ptcnt g) ptlen) as [Hfull|Hfull].
    + destruct is_dyn; [|done]. rewrite !u32_small by words.
      destruct (shift_delete (ptlist g) 0 (Z.to_nat (ptcnt g))) as (l' & Hs & Hl' & Ht); [lia|].
      replace (Z.to_nat (ptlen - 1)) with (Z.to_nat (ptcnt g) - 1 - 0)%nat by lia.
      rewrite Hs. obind. destruct (append_entry_ok ptlen l' (ptcnt g - 1) pt) as (g' & -> & Hw' & Ha); [done|lia|lia|].
      exists g'. split; [done|]. split; [done|]. rewrite Ha.
      replace (Z.to_nat (ptcnt g - 1)) with (Z.to_nat (ptcnt g) - 1)%nat by lia. rewrite Ht.
      unfold active. by destruct (take _ (ptlist g)).
    + destruct (append_entry_ok ptlen (ptlist g) (ptcnt g) pt) as (g' & -> & Hw' & Ha); [done|lia|lia|]. by exists g'.
  - rewrite decide_True by (by eapply list_elem_of_lookup_2). destruct is_dyn; [|by exists g].
    rewrite u32_small by words.
    destruct (shift_delete (ptlist g) i (Z.to_nat (ptcnt g))) as (l' & Hs & Hl' & Ht); [lia|].
    replace (Z.to_nat (ptcnt g - 1 - Z.of_nat i)) with (Z.to_nat (ptcnt g) - 1 - i)%nat by lia.
    rewrite Hs. obind. destruct (Z.eqb_spec (ptcnt g - 1) ptlen); [lia|].
    destruct (append_entry_ok ptlen l' (ptcnt g - 1) pt) as (g' & -> & Hw' & Ha); [done|lia|lia|].
    exists g'. split; [done|]. split; [done|]. rewrite Ha, <- (delete_filter _ i) by done.
    replace (Z.to_nat (ptcnt g - 1)) with (Z.to_nat (ptcnt g) - 1)%nat by lia. by rewrite Ht.
Qed.

(** ** What the check lets through *)

Lemma check_active e ptlen g ipph dst :
  wf ptlen g ->
  garden_check e g ipph dst =
    Done (match find_from (fun pt => pt_matches e pt ipph dst) (active g) with
          | Some (i, _) => (true, Some i)
          | None => (false, None)
          end).
Proof.
  intros Hw. unfold garden_check. rewrite search_ok by (destruct Hw; lia). rewrite drop_0. obind.
  fold (active g). by destruct (find_from _ (active g)) as [[i x]|].
Qed.
Lemma find_from_existsb {A} (f : A -> bool) l :
  existsb f l = match find_from f l with Some _ => true | None => false end.
Proof. induction l as [|x l IH]; cbn; [done|]. destruct (f x); [done|]. rewrite IH. by destruct (find_from f l) as [[]|]. Qed.

Lemma garden_check_active e n m static dynamic ipph dst :
  wf n static -> wf m dynamic ->
  dhcp_garden_check e static dynamic ipph dst =
    Done (existsb (fun pt => pt_matches e pt ipph dst) (active static ++ active dynamic)).
Proof.
  intros Hs Hd. unfold dhcp_garden_check. rewrite (check_active e n static), (check_active e m dynamic) by done. obind.
  rewrite existsb_app, !find_from_existsb.
  destruct (find_from _ (active static)) as [[]|]; [done|].
  by destruct (find_from _ (active dynamic)) as [[]|].
Qed.

(** A packet is let through exactly when an entry in use of the
    static or of the dynamic list matches it; the check never reads outside the
    arrays. *)
Theorem dhcp_garden_check_spec e n m static dynamic ipph dst :
  wf n static -> wf m dynamic ->
  dhcp_garden_check e static dynamic ipph dst =
    Done (existsb (fun pt => pt_matches e pt ipph dst) (active static ++ active dynamic)).
Proof. apply garden_check_active. Qed.

(** An entry with bits outside its mask matches no packet. *)
Lemma unmasked_host_never_matches e pt ipph dst :
  host pt <> 0 -> host pt &ᵤ mask pt <> host pt -> pt_matches e pt ipph dst = false.
Proof.
  intros H0 Hm. unfold pt_matches. destruct (Z.eqb_spec (host pt) 0); [done|].
  destruct (Z.eqb_spec (host pt) ((if dst then daddr ipph else saddr ipph) &ᵤ mask pt)) as [Heq|]; cbn [orb andb].
  - exfalso. apply Hm. rewrite Heq at 1. by rewrite <- Z.land_assoc, Z.land_diag.
  - by rewrite andb_false_r.
Qed.

(** ** The list after reading a text *)

(** The comma separated entries of a text. *)
Fixpoint entries (fuel : nat) (s : bytes) : list bytes :=
  match fuel with
  | O => []
  | S n => match strchr s 44 with Some i => take i s :: entries n (drop (S i) s) | None => [s] end
  end.

(** What reading keeps: a well-formed list without duplicates, whose static entries
    are never lost when entries are added. *)
Definition grows (ptlen : Z) (is_dyn is_rem : bool) (g g' : garden) : Prop :=
  wf ptlen g' /\ NoDup (active g') /\
  (is_dyn = false -> is_rem = false -> active g `prefix_of` active g').

Lemma grows_trans ptlen d r g1 g2 g3 : grows ptlen d r g1 g2 -> grows ptlen d r g2 g3 -> grows ptlen d r g1 g3.
Proof.
  intros (_ & _ & H1) (Hw & Hn & H2). split; [done|]. split; [done|]. intros Hd Hr. trans (active g2); auto.
Qed.

Lemma add_spec_NoDup cap d pt l l' : NoDup l -> add_spec cap d pt l = Some l' ->
  NoDup l' /\ (d = false -> l `prefix_of` l').
Proof.
  intros Hnd. unfold add_spec. destruct (decide (pt ∈ l)) as [Hin|Hin].
  - intros [= <-]. destruct d; [|done]. split; [|done]. apply NoDup_app. split; [by apply NoDup_filter|].
    split; [|apply NoDup_singleton]. intros x Hx ->%list_elem_of_singleton. apply list_elem_of_filter in Hx. tauto.
  - assert (Hsnoc : forall k, k `sublist_of` l -> NoDup (k ++ [pt])).
    { intros k Hk. apply NoDup_app. split; [by eapply sublist_NoDup|]. split; [|apply NoDup_singleton].
      intros x Hx ->%list_elem_of_singleton. apply Hin. by eapply elem_of_sublist. }
    destruct (_ =? _); [destruct d; [|done]|]; intros [= <-]; (split; [apply Hsnoc|]).
    + destruct l; [done|]. by apply sublist_cons.
    + done.
    + done.
    + intros _. by apply prefix_app_r.
Qed.

Lemma apply_entry_ok ptlen d r g pt :
  wf ptlen g -> NoDup (active g) ->
  exists g', apply_entry ptlen d r g pt = Done g' /\ grows ptlen d r g g'.
Proof.
  intros Hw Hnd. unfold apply_entry. destruct r.
  - destruct (rem_ok ptlen g pt Hw Hnd) as (g' & -> & Hw' & Ha). exists g'. split; [done|]. split; [done|].
    split; [|done]. rewrite Ha. by apply NoDup_filter.
  - pose proof (add_ok ptlen g pt d Hw Hnd) as H.
    destruct (add_spec ptlen d pt (active g)) as [l|] eqn:Hl.
    + destruct H as (g' & -> & Hw' & Ha). apply add_spec_NoDup in Hl as [Hnl Hpre]; [|done].
      exists g'. split; [done|]. split; [done|]. rewrite Ha. auto.
    + rewrite H. exists g. split; [done|]. split; [done|]. split; [done|]. done.
Qed.
Lemma apply_hosts_ok ptlen d r pr po hs g :
  wf ptlen g -> NoDup (active g) ->
  exists g', apply_hosts ptlen d r pr po hs g = Done g' /\ grows ptlen d r g g'.
Proof.
  revert g. induction hs as [|h hs IH]; intros g Hw Hnd; cbn [apply_hosts].
  { exists g. split; [done|]. by split. }
  destruct (apply_entry_ok ptlen d r g (PassThrough h 0xffffffff pr po) Hw Hnd) as (g1 & -> & H1). obind.
  destruct (IH g1) as (g2 & -> & H2); [apply H1..|]. exists g2. split; [done|]. by eapply grows_trans.
Qed.

(** A history of changes to a list, on the array and on its specification. *)
Inductive change := Add (is_dyn : bool) (pt : pass_through) | Remove (pt : pass_through).
Fixpoint changes (ptlen : Z) (cs : list change) (g : garden) : result garden :=
  match cs with
  | [] => Done g
  | c :: cs' =>
    g ← match c with
        | Add d pt => apply_entry ptlen d false g pt
        | Remove pt => apply_entry ptlen false true g pt
        end;
    changes ptlen cs' g
  end.
Definition change_spec (cap : Z) (l : list pass_through) (c : change) : list pass_through :=
  match c with
  | Add d pt => default l (add_spec cap d pt l)
  | Remove pt => rem_spec pt l
  end.

(** C11: along any history of additions and removals the array
    implements the list specification: an entry that is present stays where it is,
    or moves to the end in a dynamic list; a new one goes to the end; when the list
    is full a dynamic one drops its oldest entry and a static one is left alone; a
    removal takes out exactly that entry. Nothing is stored outside the array. *)
Theorem changes_refine ptlen cs g :
  wf ptlen g -> NoDup (active g) ->
  exists g', changes ptlen cs g = Done g' /\ wf ptlen g' /\ NoDup (active g') /\
    active g' = foldl (change_spec ptlen) (active g) cs.
Proof.
  revert g. induction cs as [|c cs IH]; intros g Hw Hnd; cbn [changes foldl]; [by exists g|].
  set (m := match c with Add _ _ => _ | Remove _ => _ end).
  assert (exists g1, m = Done g1 /\ wf ptlen g1 /\ NoDup (active g1) /\
            active g1 = change_spec ptlen (active g) c) as (g1 & -> & Hw1 & Hn1 & <-).
  { unfold m. destruct c as [d pt|pt]; cbn [change_spec].
    - destruct (apply_entry_ok ptlen d false g pt Hw Hnd) as (g1 & H1 & Hw1 & Hn1 & _).
      exists g1. repeat (split; [done|]). revert H1. unfold apply_entry.
      pose proof (add_ok ptlen g pt d Hw Hnd) as H. destruct (add_spec ptlen d pt (active g)) as [l|]; cbn [default].
      + destruct H as (g' & -> & _ & Ha). by intros [= <-].
      + rewrite H. by intros [= <-].
    - destruct (apply_entry_ok ptlen false true g pt Hw Hnd) as (g1 & H1 & Hw1 & Hn1 & _).
      exists g1. repeat (split; [done|]). revert H1. unfold apply_entry.
      destruct (rem_ok ptlen g pt Hw Hnd) as (g' & -> & _ & Ha). by intros [= <-]. }
  obind. by apply IH.
Qed.

Section Text.
Context (e : endian) (getprotobyname : bytes -> option Z) (getprotobynumber : Z -> option Z)
  (gethostbyname : bytes -> option (list Z)).

(** [option_aton] comes back on the address of an entry. *)
Definition aton_ends (t : bytes) : bool :=
  match IpPool.option_aton e (parse_entry getprotobyname getprotobynumber t).2 with Fault => false | _ => true end.

Lemma from_entry_ok ptlen d r t g :
  wf ptlen g -> NoDup (active g) -> aton_ends t = true ->
  exists g', from_entry e getprotobyname getprotobynumber gethostbyname ptlen d r t g = Done g' /\
    grows ptlen d r g g'.
Proof.
  intros Hw Hnd. unfold from_entry, aton_ends.
  destruct (parse_entry getprotobyname getprotobynumber t) as [[pr po] p]. cbn [snd].
  assert (Hid : exists g', (Done g : result garden) = Done g' /\ grows ptlen d r g g').
  { exists g. split; [done|]. by split. }
  destruct (strchr p 47).
  - destruct (IpPool.option_aton e p) as [[h m]| |]; intros Ha; [by apply apply_entry_ok|done|done].
  - intros _. destruct (gethostbyname p); [by apply apply_hosts_ok|done].
Qed.

Lemma strchr_lt s c i : strchr s c = Some i -> (i < length s)%nat.
Proof.
  unfold strchr. destruct (find_from _ s) as [[k x]|] eqn:Hf; [|done]. intros [= <-].
  apply find_from_Some in Hf as (Hk & _). by apply lookup_lt_Some in Hk.
Qed.

(** Reading a list of entries always ends; whatever the text and the
    answers of the resolver, the array stays well formed and without duplicates, and
    entries added to a static list are only ever appended to it. *)
Theorem pass_throughs_from_string_inv ptlen d r s g :
  wf ptlen g -> NoDup (active g) -> forallb aton_ends (entries (S (length s)) s) = true ->
  exists g',
    pass_throughs_from_string e getprotobyname getprotobynumber gethostbyname ptlen d r s g = Done g' /\
    grows ptlen d r g g'.
Proof.
  intros Hw Hnd. unfold pass_throughs_from_string.
  assert (Hgen : forall n s g, (length s < n)%nat -> wf ptlen g -> NoDup (active g) ->
            forallb aton_ends (entries n s) = true ->
            exists g', from_string e getprotobyname getprotobynumber gethostbyname n ptlen d r s g = Done g' /\
              grows ptlen d r g g'); [|apply Hgen; [lia|done|done]].
  clear s g Hw Hnd. induction n as [|n IH]; intros s g Hn Hw Hnd; [lia|]. cbn [entries from_string].
  destruct (strchr s 44) as [i|] eqn:Hi; cbn [before forallb]; intros [Ht Hrest]%andb_prop.
  - destruct (from_entry_ok ptlen d r (take i s) g Hw Hnd Ht) as (g1 & -> & H1). obind.
    apply strchr_lt in Hi.
    destruct (IH (drop (S i) s) g1) as (g2 & -> & H2); [rewrite length_drop; lia|apply H1..|done|].
    exists g2. split; [done|]. by eapply grows_trans.
  - destruct (from_entry_ok ptlen d r s g Hw Hnd Ht) as (g1 & -> & H1). by exists g1.
Qed.
End Text.

(** ** Concrete instances *)

Definition empty_garden (n : nat) : garden := Garden (replicate n (PassThrough 0 0 0 0)) 0.
Definition test_protobyname (t : bytes) : option Z :=
  if strcmp_eq t (str "tcp") then Some 6 else if strcmp_eq t (str "udp") then Some 17
  else if strcmp_eq t (str "icmp") then Some 1 else None.
Definition test_hosts (t : bytes) : option (list Z) :=
  if strcmp_eq t (str "portal") then Some [0x0A010101; 0x0A010102] else None.
Definition read (s : string) (g : garden) : result garden :=
  pass_throughs_from_string BE test_protobyname (fun _ => None) test_hosts 4 false false (str s) g.
Definition packet (p d port : Z) : pkt_ipphdr := Ipph p 0xC0A80102 d 40000 port.

Lemma wf_empty n : 0 < Z.of_nat n < 2 ^ 31 -> wf (Z.of_nat n) (empty_garden n).
Proof. intros Hn. split; [done|]. cbn [empty_garden ptlist ptcnt]. rewrite length_replicate. lia. Qed.
Lemma NoDup_empty n : NoDup (active (empty_garden n)).
Proof. constructor. Qed.

(** An allowed web server and the hosts of a portal; other ports stay closed. *)
Example garden_example :
  exists g, read "tcp:10.2.0.0/16:80, portal" (empty_garden 4) = Done g /\
    dhcp_garden_check BE g (empty_garden 4) (packet 6 0x0A020304 80) true = Done true /\
    dhcp_garden_check BE g (empty_garden 4) (packet 6 0x0A020304 22) true = Done false /\
    dhcp_garden_check BE g (empty_garden 4) (packet 1 0x0A010102 0) true = Done true.
Proof. eexists. split; [vm_compute; reflexivity|]. repeat split; vm_compute; reflexivity. Qed.

(** A network written with host bits is accepted, and lets nothing through. *)
Example garden_host_bits :
  exists g, read "10.2.0.1/16" (empty_garden 4) = Done g /\ length (active g) = 1%nat /\
    dhcp_garden_check BE g (empty_garden 4) (packet 6 0x0A020001 80) true = Done false.
Proof. eexists. split; [vm_compute; reflexivity|]. repeat split; vm_compute; reflexivity. Qed.

Lemma changes_refine_witness :
  exists g', changes 2 [Add false (PassThrough 1 2 6 80); Add true (PassThrough 3 2 6 80);
      Add false (PassThrough 4 2 6 80); Add true (PassThrough 5 2 6 80); Remove (PassThrough 3 2 6 80)]
      (empty_garden 2) = Done g' /\ wf 2 g' /\ NoDup (active g') /\ active g' = [PassThrough 5 2 6 80].
Proof.
  exact (changes_refine 2 [Add false (PassThrough 1 2 6 80); Add true (PassThrough 3 2 6 80);
      Add false (PassThrough 4 2 6 80); Add true (PassThrough 5 2 6 80); Remove (PassThrough 3 2 6 80)]
      (empty_garden 2) (wf_empty 2 ltac:(lia)) (NoDup_empty 2)).
Defined.
Lemma dhcp_garden_check_spec_witness :
  dhcp_garden_check BE (Garden [PassThrough 0x0A020000 0xFFFF0000 6 80] 1) (empty_garden 3) (packet 6 0x0A020304 80) true
  = Done true.
Proof.
  exact (dhcp_garden_check_spec BE 1 3 (Garden [PassThrough 0x0A020000 0xFFFF0000 6 80] 1) (empty_garden 3)
    (packet 6 0x0A020304 80) true ltac:(repeat split; cbn; lia) (wf_empty 3 ltac:(lia))).
Defined.
Lemma pass_throughs_from_string_inv_witness :
  exists g', read "tcp:10.2.0.0/16:80, portal" (empty_garden 4) = Done g' /\
    grows 4 false false (empty_garden 4) g'.
Proof.
  apply (pass_throughs_from_string_inv BE test_protobyname (fun _ => None) test_hosts 4 false false
    (str "tcp:10.2.0.0/16:80, portal") (empty_garden 4) (wf_empty 4 ltac:(lia)) (NoDup_empty 4)).
  vm_compute. reflexivity.
Defined.

End Garden.
