(* ===== verification/Pkt.v ===== *)
(** * IP packets: checksums and what TCP connections announce
      ([package/coova-chilli/src/src/chksum.c], [pkt.c], [pkt.h])

    A packet is the buffer it lies in; pointers are offsets.  Checksums are sums of
    16-bit words as the machine reads them, so the byte order is an argument; numbers
    the source converts with [ntohs] are read in network order. *)

From S2P Require Import Prelude CLib Mem.

Module Pkt.
Import Mem.

Definition PKT_ETH_HLEN : nat := 14.
Definition PKT_ETH_PROTO_8021Q : Z := 0x8100.
Definition PKT_IP_VER_HLEN : Z := 0x45.
Definition PKT_IP_HLEN : Z := 20.
Definition PKT_IPv6_ALEN : nat := 16.
Definition PKT_IP_PROTO_ICMP : Z := 1.
Definition PKT_IP_PROTO_TCP : Z := 6.
Definition PKT_IP_PROTO_UDP : Z := 17.
Definition ICMPv6_NEXT_HEADER : Z := 58.
Definition PKT_UDP_HLEN : nat := 8.
Definition TCPHDR_FLAG_SYN : Z := 2.
Definition TCP_MAX_OPTION_LEN : Z := 40.
(** Without ENABLE_LARGELIMITS. *)
Definition PKT_BUFFER : Z := 5000.

(** ** Where the headers are *)

Definition is_8021q (pkt : bytes) : result bool := t ← get16 pkt 12; Done (t =? PKT_ETH_PROTO_8021Q).
Definition sizeofeth (pkt : bytes) : result nat :=
  q ← is_8021q pkt; Done (if q : bool then PKT_ETH_HLEN + 4 else PKT_ETH_HLEN)%nat.
Definition sizeofip (pkt : bytes) : result nat := n ← sizeofeth pkt; Done (n + 20)%nat.
Definition sizeofudp (pkt : bytes) : result nat := n ← sizeofip pkt; Done (n + PKT_UDP_HLEN)%nat.

Section Code.
Context (e : endian).

(** ** Checksums *)

(** A 16-bit word of the machine. *)
Definition val16 (b0 b1 : Z) : Z := match e with BE => b0 * 256 + b1 | LE => b1 * 256 + b0 end.
Definition bytes16 (v : Z) : bytes :=
  match e with BE => [v / 256 mod 256; v mod 256] | LE => [v mod 256; v / 256 mod 256] end.

Fixpoint in_cksum (b : bytes) (w nleft : nat) (sum : Z) : result Z :=
  match nleft with
  | O => Done sum
  | S O => x ← byte_at b w; Done (sum +₃₂ val16 x 0)
  | S (S nleft) => x ← byte_at b w; y ← byte_at b (w + 1); in_cksum b (w + 2) nleft (sum +₃₂ val16 x y)
  end.
Definition cksum_wrap (c : Z) : Z :=
  let c := (c >>ᵤ 16) +₃₂ (c &ᵤ 0xffff) in (~₃₂ (c +₃₂ (c >>ᵤ 16))) &ᵤ 0xffff.
Definition store_check (b : bytes) (at_ : nat) (sum : Z) : result bytes := memcpy b at_ (bytes16 (cksum_wrap sum)).

(** The checksum over the addresses, the protocol and [len] bytes from [h]; the field
    is [field] bytes behind [h]. *)
Definition pseudo_chksum (b : bytes) (iph h field : nat) (proto len : Z) : result bytes :=
  b ← memcpy b (h + field) [0; 0];
  sum ← in_cksum b (iph + 12) 8 0;
  let sum := sum +₃₂ ntohs e (u16 (proto + len)) in
  s ← in_cksum b h (Z.to_nat len) 0;
  store_check b (h + field) (sum +₃₂ s).

(** The return value and the buffer. *)
Definition chksum (b : bytes) (iph : nat) : result (Z * bytes) :=
  v ← byte_at b iph;
  if negb (v =? PKT_IP_VER_HLEN) then Done (-1, b)
  else
    let hlen := u16 ((v &ᵤ 0x0f) <<ᵤ 2) in
    len ← get16 b (iph + 2);
    if negb (hlen =? PKT_IP_HLEN) then Done (-1, b)
    else if PKT_BUFFER <? len then Done (-1, b)
    else if len <? hlen then Done (-1, b)
    else
      proto ← byte_at b (iph + 9);
      let h := (iph + Z.to_nat hlen)%nat in
      r ← (if proto =? PKT_IP_PROTO_TCP then b ← pseudo_chksum b iph h 16 PKT_IP_PROTO_TCP (len - hlen); Done (Some b)
           else if proto =? PKT_IP_PROTO_UDP then
             udplen ← get16 b (h + 4);
             if len <? udplen then Done None
             else b ← pseudo_chksum b iph h 6 PKT_IP_PROTO_UDP udplen; Done (Some b)
           else if proto =? PKT_IP_PROTO_ICMP then
             b ← memcpy b (h + 2) [0; 0];
             sum ← in_cksum b h (Z.to_nat (len - hlen)) 0;
             b ← store_check b (h + 2) sum;
             Done (Some b)
           else Done (Some b));
      match r with
      | None => Done (-1, b)
      | Some b =>
        b ← memcpy b (iph + 10) [0; 0];
        sum ← in_cksum b iph (Z.to_nat hlen) 0;
        b ← store_check b (iph + 10) sum;
        Done (0, b)
      end.

(** The IPv6 pseudo header on the stack, and [len] bytes from [h]. *)
Definition pseudo6_chksum (b : bytes) (iph field : nat) (len : Z) : result bytes :=
  addrs ← read b (iph + 8) (2 * PKT_IPv6_ALEN);
  data_len ← get16 b (iph + 4);
  next ← byte_at b (iph + 6);
  let hdr := addrs ++ word_bytes e (htonl e data_len) ++ [0; 0; 0] ++ [next] in
  b ← memcpy b (iph + 40 + field) [0; 0];
  sum ← in_cksum hdr 0 (length hdr) 0;
  s ← in_cksum b (iph + 40) (Z.to_nat len) 0;
  store_check b (iph + 40 + field) (sum +₃₂ s).
Definition chksum6 (b : bytes) (iph : nat) : result bytes :=
  next ← byte_at b (iph + 6);
  data_len ← get16 b (iph + 4);
  if next =? ICMPv6_NEXT_HEADER then pseudo6_chksum b iph 2 data_len
  else if next =? PKT_IP_PROTO_UDP then udplen ← get16 b (iph + 40 + 4); pseudo6_chksum b iph 6 udplen
  else if next =? PKT_IP_PROTO_TCP then pseudo6_chksum b iph 16 data_len
  else Done b.

(** ** TCP *)

Definition pkt_shape_tcpwin (b : bytes) (iph : nat) (win : Z) : result bytes :=
  proto ← byte_at b (iph + 9);
  if proto =? PKT_IP_PROTO_TCP then
    let tcph := (iph + 20)%nat in
    w ← get16 b (tcph + 14);
    if win <? w then
      b ← put16 b (tcph + 14) win;
      '(_, b) ← chksum b iph; Done b
    else Done b
  else Done b.

Context (tcpmss : Z) (scalewin : bool).

(** [while (!done && (i / 4) < words)]: whether the function goes on, the buffer,
    [hasmss]. *)
Fixpoint tcpmss_loop (fuel : nat) (b : bytes) (iph opts : nat) (words i : nat) (hasmss : bool) : result (bool * bytes * bool) :=
  match fuel with
  | O => Fault
  | S fuel =>
    if decide (i / 4 < words)%nat then
      type ← byte_at b (opts + i);
      let i := S i in
      if type =? 0 then Done (true, b, hasmss)
      else if type =? 1 then tcpmss_loop fuel b iph opts words i hasmss
      else
        len ← byte_at b (opts + i);
        let i := S i in
        if (len <? 2) || (TCP_MAX_OPTION_LEN <? len) then Done (false, b, hasmss)
        else
          '(b, hasmss) ← (if (type =? 2) && (len =? 4) then
                            v ← get16 b (opts + i);
                            b ← (if tcpmss <? v then b ← put16 b (opts + i) tcpmss; '(_, b) ← chksum b iph; Done b
                                 else Done b);
                            Done (b, true)
                          else if scalewin && (type =? 3) && (len =? 3) then
                            x ← byte_at b (opts + i);
                            b ← (if 0 <? x then b ← memcpy b (opts + i) [0]; '(_, b) ← chksum b iph; Done b else Done b);
                            Done (b, hasmss)
                          else Done (b, hasmss));
          tcpmss_loop fuel b iph opts words (i + Z.to_nat (len - 2)) hasmss
    else Done (true, b, hasmss)
  end.

(** The segment with an option more, built in the local array, which holds [stack] before. *)
Definition tcpmss_insert (stack packet : bytes) (length_ tcph : nat) (off : Z) : result (Z * bytes * nat) :=
  w ← read packet 0 length_;
  p ← memcpy stack 0 w;
  p_iph ← sizeofeth p;
  p_tcph ← sizeofip p;
  let dst_opt := (p_tcph + Z.to_nat (off * 4))%nat in
  let src_opt := (tcph + Z.to_nat (off * 4))%nat in
  let dlen := Z.of_nat length_ - Z.of_nat tcph - off * 4 in
  p ← memcpy p (p_tcph + 12) [u8 ((off + 1) <<ᵤ 4)];
  p ← memcpy p dst_opt [2; 4];
  p ← put16 p (dst_opt + 2) tcpmss;
  p ← (if 0 <? dlen then d ← read packet src_opt (Z.to_nat dlen); memcpy p (dst_opt + 4) d else Done p);
  let length_ := (length_ + 4)%nat in
  tot ← get16 p (p_iph + 2);
  p ← put16 p (p_iph + 2) (tot + 4);
  '(_, p) ← chksum p p_iph;
  w ← read p 0 length_;
  packet ← memcpy packet 0 w;
  Done (0, packet, length_).

(** The return value, the buffer and the new length. *)
Definition pkt_shape_tcpmss (stack : bytes) (packet : bytes) (length_ : nat) : result (Z * bytes * nat) :=
  iph ← sizeofeth packet;
  proto ← byte_at packet (iph + 9);
  if proto =? PKT_IP_PROTO_TCP then
    tcph ← sizeofip packet;
    offres ← byte_at packet (tcph + 12);
    let off := offres >>ᵤ 4 in
    '(ok, packet, hasmss) ← (if 5 <? off
                             then tcpmss_loop (4 * Z.to_nat (off - 5) + 1) packet iph (tcph + 20) (Z.to_nat (off - 5)) 0 false
                             else Done (true, packet, false));
    if negb ok then Done (-1, packet, length_)
    else
      flags ← byte_at packet (tcph + 13);
      if negb hasmss && (Z.of_nat length_ <? 1400) && (flags &ᵤ TCPHDR_FLAG_SYN =? TCPHDR_FLAG_SYN)
      then tcpmss_insert stack packet length_ tcph off
      else Done (0, packet, length_)
  else Done (0, packet, length_).
End Code.

(** ** Sums *)

(** The sum of the words in network order, as RFC 1071 has it. *)
Fixpoint be_sum (l : bytes) : Z :=
  match l with
  | b0 :: b1 :: l => b0 * 256 + b1 + be_sum l
  | [b0] => b0 * 256
  | [] => 0
  end.
(** The sum of the words as the machine reads them. *)
Fixpoint native_sum (e : endian) (l : bytes) : Z :=
  match l with
  | b0 :: b1 :: l => val16 e b0 b1 + native_sum e l
  | [b0] => val16 e b0 0
  | [] => 0
  end.

(** Induction by pairs of bytes. *)
Lemma pair_ind (P : bytes -> Prop) :
  P [] -> (forall b, P [b]) -> (forall b0 b1 l, P l -> P (b0 :: b1 :: l)) -> forall l, P l.
Proof.
  intros H0 H1 H2 l. enough (P l /\ forall b, P (b :: l)) as [? _] by done.
  induction l as [|b l [IH1 IH2]]; split; auto.
Qed.

(** The order of the bytes of a machine is a factor. *)
Definition unit_of (e : endian) : Z := match e with BE => 1 | LE => 256 end.
Lemma native_be e l : exists q, native_sum e l = unit_of e * be_sum l + q * 65535.
Proof.
  induction l as [|b|b0 b1 l [q IH]] using pair_ind; cbn [native_sum be_sum].
  - exists 0. lia.
  - destruct e; cbn [val16 unit_of]; [exists (- b)|exists 0]; lia.
  - rewrite IH. destruct e; cbn [val16 unit_of]; [exists (q - b0)|exists q]; lia.
Qed.
Lemma unit_mod e n : (unit_of e * n) mod 65535 = 0 -> n mod 65535 = 0.
Proof.
  destruct e; cbn [unit_of]; [|by rewrite Z.mul_1_l]. intros H.
  replace n with (256 * (256 * n) + (- n) * 65535) by lia. rewrite Z.mod_add by done.
  rewrite <- Zmult_mod_idemp_r, H. done.
Qed.
Lemma ntohs_unit e n : 0 <= n < 65536 -> exists q, ntohs e n = unit_of e * n + q * 65535.
Proof.
  intros Hn. destruct e; unfold ntohs, htons; cbn [unit_of].
  - rewrite !land_255, Z.shiftr_div_pow2 by lia. change (2 ^ 8) with 256. rewrite lor_low by (change (2 ^ 8) with 256; zdm).
    exists (- (n / 256)). change (2 ^ 8) with 256. zdm.
  - exists 0. unfold u16. rewrite Z.mod_small by (change (2 ^ 16) with 65536; lia). lia.
Qed.

Lemma val16_range e b0 b1 : is_u8 b0 -> is_u8 b1 -> 0 <= val16 e b0 b1 < 65536.
Proof. unfold is_u8, in_w. change (2 ^ 8) with 256. destruct e; cbn; lia. Qed.
Lemma native_sum_bound e l : is_bytes l -> 0 <= native_sum e l <= 32768 * Z.of_nat (length l + 1).
Proof.
  induction l as [|b|b0 b1 l IH] using pair_ind; intros Hl; cbn [native_sum length]; [lia| |].
  - inversion_clear Hl as [|? ? H0 _]. pose proof (val16_range e b 0 H0 ltac:(solve_bytes)). lia.
  - inversion_clear Hl as [|? ? H0 Hl']. inversion_clear Hl' as [|? ? H1 Hl''].
    specialize (IH Hl''). pose proof (val16_range e b0 b1 H0 H1). lia.
Qed.
Lemma native_sum_app e l r : Nat.even (length l) = true -> native_sum e (l ++ r) = native_sum e l + native_sum e r.
Proof.
  induction l as [|b|b0 b1 l IH] using pair_ind; intros Hl; cbn [app native_sum]; [done|done|].
  rewrite IH by done. lia.
Qed.
Lemma be_sum_app l r : Nat.even (length l) = true -> be_sum (l ++ r) = be_sum l + be_sum r.
Proof.
  induction l as [|b|b0 b1 l IH] using pair_ind; intros Hl; cbn [app be_sum]; [done|done|].
  rewrite IH by done. lia.
Qed.

(** [in_cksum] is the sum, as long as it does not wrap. *)
Lemma in_cksum_ok e pre l post sum :
  is_bytes l -> 0 <= sum -> sum + native_sum e l < 2 ^ 32 ->
  in_cksum e (pre ++ l ++ post) (length pre) (length l) sum = Done (sum + native_sum e l).
Proof.
  revert pre sum. induction l as [|b|b0 b1 l IH] using pair_ind; intros pre sum Hl Hs Hb; cbn [in_cksum length native_sum] in *.
  - by rewrite Z.add_0_r.
  - rewrite <- (Nat.add_0_r (length pre)), (byte_at_app _ [b] _ 0 b) by done. obind.
    inversion_clear Hl as [|? ? H0 _]. pose proof (val16_range e b 0 H0 ltac:(solve_bytes)).
    rewrite u32_small by (unfold is_u32, in_w; lia). done.
  - inversion_clear Hl as [|? ? H0 Hl']. inversion_clear Hl' as [|? ? H1 Hl''].
    pose proof (val16_range e b0 b1 H0 H1). pose proof (native_sum_bound e l Hl'').
    rewrite <- (Nat.add_0_r (length pre)) at 1. rewrite (byte_at_app _ (b0 :: b1 :: l) _ 0 b0) by done. obind.
    rewrite (byte_at_app _ (b0 :: b1 :: l) _ 1 b1) by done. obind.
    specialize (IH (pre ++ [b0; b1]) (sum + val16 e b0 b1) Hl'' ltac:(lia) ltac:(lia)).
    rewrite <- app_assoc, length_app in IH. cbn [length app] in IH.
    rewrite u32_small by (unfold is_u32, in_w; lia). cbn [app]. rewrite IH. f_equal. lia.
Qed.

(** Folding and complementing: the word that makes the sum 0. *)
Lemma cksum_wrap_eq c : 0 <= c < 2 ^ 32 ->
  let c1 := c / 65536 + c mod 65536 in cksum_wrap c = (- (c1 + c1 / 65536) - 1) mod 65536.
Proof.
  intros Hc c1. change (2 ^ 32) with 4294967296 in Hc. assert (Hb : 0 <= c1 <= 131070) by (unfold c1; zdm).
  unfold cksum_wrap. cbv zeta. change 0xffff with (Z.ones 16).
  rewrite !Z.land_ones, !Z.shiftr_div_pow2 by lia. change (2 ^ 16) with 65536. fold c1.
  unfold u32, Z.lnot. change (2 ^ 32) with 4294967296. rewrite (Z.mod_small c1) by lia.
  rewrite (Z.mod_small (c1 + _)) by zdm. rewrite Z.mod_mod_divide by (by exists 65536). done.
Qed.
Lemma cksum_wrap_ok c : 0 <= c < 2 ^ 32 -> 0 <= cksum_wrap c < 65536 /\ (c + cksum_wrap c) mod 65535 = 0.
Proof.
  intros Hc. rewrite cksum_wrap_eq by done. change (2 ^ 32) with 4294967296 in Hc.
  set (c1 := c / 65536 + c mod 65536). assert (Hb : 0 <= c1 <= 131070) by (unfold c1; zdm).
  split; [apply Z.mod_pos_bound; lia|]. assert (Hcc : c = c1 + 65535 * (c / 65536)) by (unfold c1; zdm).
  assert (Hk : exists k, (- (c1 + c1 / 65536) - 1) mod 65536 = k * 65535 - c1).
  { destruct (Z.lt_ge_cases c1 65536) as [Hlt|Hge]; [exists 1|exists 2]; zdm. }
  destruct Hk as [k ->]. rewrite Hcc at 1.
  replace (c1 + 65535 * (c / 65536) + (k * 65535 - c1)) with (0 + (c / 65536 + k) * 65535) by lia. by rewrite Z.mod_add.
Qed.
Lemma bytes16_ok e v : 0 <= v < 65536 -> length (bytes16 e v) = 2%nat /\ is_bytes (bytes16 e v) /\ native_sum e (bytes16 e v) = v.
Proof.
  intros Hv. destruct e; cbn; (split; [done|split; [|zdm]]); repeat constructor; unfold is_u8, in_w; change (2 ^ 8) with 256; zdm.
Qed.
Lemma in_cksum_at e b off n sum pre l post :
  b = pre ++ l ++ post -> off = length pre -> n = length l -> is_bytes l -> Z.of_nat n < 2 ^ 16 -> 0 <= sum <= 2 ^ 24 ->
  in_cksum e b off n sum = Done (sum + native_sum e l).
Proof.
  intros -> -> -> Hl Hn Hs. pose proof (native_sum_bound e l Hl).
  change (2 ^ 16) with 65536 in Hn. change (2 ^ 24) with 16777216 in Hs.
  apply in_cksum_ok; [done|lia|]. change (2 ^ 32) with 4294967296. lia.
Qed.

(** From the machine's words to network order. *)
Lemma native_valid e n l : 0 <= n < 65536 -> (ntohs e n + native_sum e l) mod 65535 = 0 -> (n + be_sum l) mod 65535 = 0.
Proof.
  intros Hn H. destruct (ntohs_unit e n Hn) as [q1 H1], (native_be e l) as [q2 H2].
  apply (unit_mod e). rewrite <- H, H1, H2.
  replace (unit_of e * n + q1 * 65535 + (unit_of e * be_sum l + q2 * 65535))
    with (unit_of e * (n + be_sum l) + (q1 + q2) * 65535) by lia. by rewrite Z.mod_add.
Qed.
Lemma native_valid0 e l : native_sum e l mod 65535 = 0 -> be_sum l mod 65535 = 0.
Proof. intros H. apply (native_valid e 0); [lia|]. by destruct e. Qed.

(** A checksum field [c] between [s1] and [s2], at a place [p] of the buffer. *)
Section Field.
Context (e : endian) (p s1 s2 q : bytes) (off k : nat).
Hypotheses (Hoff : off = length p) (Hk : k = length s1) (Hs1 : Nat.even (length s1) = true).

Definition field_buf (c : bytes) : bytes := p ++ (s1 ++ c ++ s2) ++ q.
Lemma field_put c vs : length vs = length c -> memcpy (field_buf c) (off + k) vs = Done (field_buf vs).
Proof.
  intros Hv. unfold field_buf. rewrite <- !(app_assoc s1), (app_assoc p), <- (app_assoc c), memcpy_app by (rewrite ?length_app; lia).
  by rewrite <- !app_assoc.
Qed.
Lemma field_native c : length c = 2%nat -> native_sum e (s1 ++ c ++ s2) = native_sum e s1 + native_sum e c + native_sum e s2.
Proof. intros Hc. rewrite !native_sum_app by (rewrite ?Hc; done). lia. Qed.
Lemma field_store c base :
  length c = 2%nat -> is_bytes s1 -> is_bytes s2 -> 0 <= base <= 2 ^ 24 -> Z.of_nat (length (s1 ++ c ++ s2)) < 2 ^ 16 ->
  exists v, length v = 2%nat /\ is_bytes v /\
    store_check e (field_buf [0; 0]) (off + k) (base +₃₂ native_sum e (s1 ++ [0; 0] ++ s2)) = Done (field_buf v) /\
    (base + native_sum e (s1 ++ v ++ s2)) mod 65535 = 0.
Proof.
  intros Hc Hb1 Hb2 Hb Hn. set (l := s1 ++ [0; 0] ++ s2).
  assert (is_bytes l) as Hl by (unfold l; apply Forall_app; split; [done|]; repeat constructor; solve_bytes || done).
  assert (length l = length (s1 ++ c ++ s2)) as Hll by (unfold l; rewrite !length_app, Hc; done).
  pose proof (native_sum_bound e l Hl) as Hbd. rewrite Hll in Hbd.
  change (2 ^ 16) with 65536 in Hn. change (2 ^ 24) with 16777216 in Hb.
  rewrite u32_small by (unfold is_u32, in_w; change (2 ^ 32) with 4294967296; lia).
  destruct (cksum_wrap_ok (base + native_sum e l)) as [Hw Hz]; [change (2 ^ 32) with 4294967296; lia|].
  destruct (bytes16_ok e _ Hw) as (H1 & H2 & H3). exists (bytes16 e (cksum_wrap (base + native_sum e l))).
  split; [done|]. split; [done|]. split; [by apply field_put; rewrite H1|].
  rewrite field_native, H3 by done. rewrite <- Hz. f_equal. unfold l. rewrite field_native by done.
  destruct e; cbn; lia.
Qed.
(** A checksum over nothing but the words around its field. *)
Lemma field_sum c n b0 r (cont : bytes -> result r) :
  length c = 2%nat -> is_bytes s1 -> is_bytes s2 -> Z.of_nat (length (s1 ++ c ++ s2)) < 2 ^ 16 ->
  n = length (s1 ++ c ++ s2) -> b0 = field_buf c ->
  exists v, length v = 2%nat /\ is_bytes v /\ be_sum (s1 ++ v ++ s2) mod 65535 = 0 /\
    (b ← memcpy b0 (off + k) [0; 0]; sum ← in_cksum e b off n 0; b ← store_check e b (off + k) sum; cont b)
      = cont (field_buf v).
Proof.
  intros Hc Hb1 Hb2 Hn -> ->. destruct (field_store c 0 Hc Hb1 Hb2) as (v & Hv & Hbv & Hst & Hsum); [done|done|].
  exists v. split; [done|]. split; [done|]. split; [by apply (native_valid0 e)|].
  rewrite field_put by done. obind.
  assert (is_bytes (s1 ++ [0; 0] ++ s2)) as Hl by (apply Forall_app; split; [done|]; repeat constructor; solve_bytes || done).
  assert (length (s1 ++ [0; 0] ++ s2) = length (s1 ++ c ++ s2)) as Hll by (rewrite !length_app, Hc; done).
  pose proof (native_sum_bound e _ Hl) as Hbd. rewrite Hll in Hbd. change (2 ^ 16) with 65536 in Hn.
  rewrite (in_cksum_at e _ _ _ 0 p (s1 ++ [0; 0] ++ s2) q) by (done || lia). obind.
  rewrite Z.add_0_l, u32_small in Hst by (unfold is_u32, in_w; change (2 ^ 32) with 4294967296; lia).
  rewrite Z.add_0_l, Hst. done.
Qed.
End Field.

Lemma ntohs_range e n : 0 <= n < 65536 -> 0 <= ntohs e n < 65536.
Proof.
  intros Hn. destruct e; unfold ntohs, htons; [|unfold u16; change (2 ^ 16) with 65536; zdm].
  rewrite !land_255, Z.shiftr_div_pow2 by lia. change (2 ^ 8) with 256. rewrite lor_low by (change (2 ^ 8) with 256; zdm).
  change (2 ^ 8) with 256. zdm.
Qed.

(** The pseudo header: addresses [addrs], protocol and length. *)
Lemma pseudo_chksum_ok e pre hd addrs s1 c s2 post iph h k proto len :
  iph = length pre -> length hd = 12%nat -> length addrs = 8%nat -> h = (iph + 20)%nat ->
  k = length s1 -> Nat.even (length s1) = true -> length c = 2%nat -> len = Z.of_nat (length (s1 ++ c ++ s2)) ->
  is_bytes addrs -> is_bytes s1 -> is_bytes s2 -> 0 <= proto -> proto + len < 65536 ->
  exists v, length v = 2%nat /\ is_bytes v /\
    pseudo_chksum e (pre ++ (hd ++ addrs) ++ (s1 ++ c ++ s2) ++ post) iph h k proto len
      = Done (pre ++ (hd ++ addrs) ++ (s1 ++ v ++ s2) ++ post) /\
    (be_sum addrs + proto + len + be_sum (s1 ++ v ++ s2)) mod 65535 = 0.
Proof.
  intros -> Hhd Ha -> -> He Hc Hlen Hba Hb1 Hb2 Hp Hl.
  set (p := pre ++ hd ++ addrs).
  assert (Hoff : (length pre + 20)%nat = length p) by (unfold p; rewrite !length_app; lia).
  assert (Hbuf : forall x, pre ++ (hd ++ addrs) ++ (s1 ++ x ++ s2) ++ post = field_buf p s1 s2 post x).
  { intros x. unfold field_buf, p. by rewrite <- !app_assoc. }
  set (base := native_sum e addrs + ntohs e (u16 (proto + len))).
  pose proof (native_sum_bound e addrs Hba) as Hna. rewrite Ha in Hna.
  pose proof (ntohs_range e (proto + len) ltac:(lia)) as Hnt.
  assert (Hu : u16 (proto + len) = proto + len) by (apply Z.mod_small; change (2 ^ 16) with 65536; lia).
  destruct (field_store e p s1 s2 post _ (length s1) Hoff eq_refl He c base Hc Hb1 Hb2) as (v & Hv & Hbv & Hst & Hsum);
    [unfold base; rewrite Hu; change (2 ^ 24) with 16777216; lia|change (2 ^ 16) with 65536; lia|].
  exists v. split; [done|]. split; [done|]. split.
  - rewrite !Hbuf. unfold pseudo_chksum. rewrite (field_put p s1 s2 post _ (length s1) Hoff eq_refl c [0; 0]) by done. obind.
    rewrite (in_cksum_at e _ _ 8 0 (pre ++ hd) addrs ((s1 ++ [0; 0] ++ s2) ++ post));
      [|unfold field_buf, p; by rewrite <- !app_assoc|rewrite length_app; lia|done|done|done|done].
    obind. rewrite Z.add_0_l, (u32_small (_ + _)) by (unfold is_u32, in_w; change (2 ^ 32) with 4294967296; rewrite Hu; lia).
    rewrite (in_cksum_at e _ _ _ 0 p (s1 ++ [0; 0] ++ s2) post);
      [|done|done| | | |done]; [obind; by rewrite ?Z.add_0_l| | |].
    + rewrite Hlen, Nat2Z.id, !length_app, Hc. done.
    + apply Forall_app; split; [done|]. repeat constructor; solve_bytes || done.
    + rewrite Z2Nat.id by lia. change (2 ^ 16) with 65536. lia.
  - replace (be_sum addrs + proto + len + be_sum (s1 ++ v ++ s2)) with (proto + len + be_sum (addrs ++ s1 ++ v ++ s2)).
    + apply (native_valid e); [lia|]. rewrite native_sum_app, <- Hsum by (by rewrite Ha). f_equal. unfold base. rewrite Hu. lia.
    + rewrite be_sum_app by (by rewrite Ha). lia.
Qed.

(** ** What [chksum] leaves *)

(** Where RFC 768, 792 and 793 put the checksum. *)
Definition check_field (proto : Z) : option nat :=
  if proto =? PKT_IP_PROTO_TCP then Some 16%nat
  else if proto =? PKT_IP_PROTO_UDP then Some 6%nat
  else if proto =? PKT_IP_PROTO_ICMP then Some 2%nat
  else None.
(** The part of the checksum that is not in the segment. *)
Definition pseudo_sum (proto : Z) (addrs : bytes) (len : Z) : Z :=
  if proto =? PKT_IP_PROTO_ICMP then 0 else be_sum addrs + proto + len.

(** An IPv4 datagram cut at its checksum fields. *)
Record datagram := mk_dg { dg_hd : bytes; dg_hc : bytes; dg_addrs : bytes; dg_s1 : bytes; dg_sc : bytes; dg_s2 : bytes }.
Definition dg_ip (d : datagram) : bytes := dg_hd d ++ dg_hc d ++ dg_addrs d.
Definition dg_seg (d : datagram) : bytes := dg_s1 d ++ dg_sc d ++ dg_s2 d.
Definition dg_len (d : datagram) : Z := Z.of_nat (length (dg_seg d)).
Definition dg_bytes (d : datagram) : bytes := dg_ip d ++ dg_seg d.
Definition set_checks (d : datagram) (hc sc : bytes) : datagram :=
  mk_dg (dg_hd d) hc (dg_addrs d) (dg_s1 d) sc (dg_s2 d).

(** No IP options, the length fields are right, a protocol with a checksum. *)
Record dg_ok (proto : Z) (d : datagram) : Prop := {
  ok_ver : dg_hd d !! 0%nat = Some PKT_IP_VER_HLEN;
  ok_proto : dg_hd d !! 9%nat = Some proto;
  ok_tot : be_val (take 2 (drop 2 (dg_hd d))) = 20 + dg_len d;
  ok_max : 20 + dg_len d <= PKT_BUFFER;
  ok_hd : length (dg_hd d) = 10%nat; ok_hc : length (dg_hc d) = 2%nat;
  ok_addrs : length (dg_addrs d) = 8%nat; ok_sc : length (dg_sc d) = 2%nat;
  ok_field : check_field proto = Some (length (dg_s1 d));
  ok_udp : proto = PKT_IP_PROTO_UDP -> be_val (take 2 (drop 4 (dg_s1 d))) = dg_len d;
  ok_bytes : is_bytes (dg_hd d) /\ is_bytes (dg_addrs d) /\ is_bytes (dg_s1 d) /\ is_bytes (dg_s2 d)
}.
(** What RFC 1071 has a receiver check. *)
Definition dg_valid (proto : Z) (d : datagram) : Prop :=
  be_sum (dg_ip d) mod 65535 = 0 /\ (pseudo_sum proto (dg_addrs d) (dg_len d) + be_sum (dg_seg d)) mod 65535 = 0.

Lemma header_chksum e pre hd hc addrs seg post :
  length hd = 10%nat -> length hc = 2%nat -> length addrs = 8%nat -> is_bytes hd -> is_bytes addrs ->
  exists hc', length hc' = 2%nat /\ be_sum (hd ++ hc' ++ addrs) mod 65535 = 0 /\
    (b ← memcpy (pre ++ (hd ++ hc ++ addrs) ++ seg ++ post) (length pre + 10) [0; 0]; sum ← in_cksum e b (length pre) 20 0;
     b ← store_check e b (length pre + 10) sum; Done (0, b)) = Done (0, pre ++ (hd ++ hc' ++ addrs) ++ seg ++ post).
Proof.
  intros Lhd Lhc La Bhd Ba.
  destruct (field_sum e pre hd addrs (seg ++ post) (length pre) 10 eq_refl (eq_sym Lhd) ltac:(by rewrite Lhd) hc 20
    (pre ++ (hd ++ hc ++ addrs) ++ seg ++ post) _ (fun b => Done (0, b)) Lhc Bhd Ba) as (hc' & H1 & _ & H2 & H3).
  - rewrite !length_app, Lhd, Lhc, La. done.
  - rewrite !length_app, Lhd, Lhc, La. done.
  - done.
  - exists hc'. split; [done|]. split; [done|]. exact H3.
Qed.
Lemma chksum_parts e pre hd hc addrs s1 sc s2 post proto len :
  hd !! 0%nat = Some PKT_IP_VER_HLEN -> hd !! 9%nat = Some proto -> be_val (take 2 (drop 2 hd)) = 20 + len -> 20 + len <= 5000 ->
  length hd = 10%nat -> length hc = 2%nat -> length addrs = 8%nat -> length sc = 2%nat ->
  is_bytes hd -> is_bytes addrs -> is_bytes s1 -> is_bytes s2 ->
  len = Z.of_nat (length (s1 ++ sc ++ s2)) -> check_field proto = Some (length s1) ->
  (proto = PKT_IP_PROTO_UDP -> be_val (take 2 (drop 4 s1)) = len) ->
  exists hc' sc', length hc' = 2%nat /\ length sc' = 2%nat /\
    chksum e (pre ++ (hd ++ hc ++ addrs) ++ (s1 ++ sc ++ s2) ++ post) (length pre)
      = Done (0, pre ++ (hd ++ hc' ++ addrs) ++ (s1 ++ sc' ++ s2) ++ post) /\
    be_sum (hd ++ hc' ++ addrs) mod 65535 = 0 /\
    (pseudo_sum proto addrs len + be_sum (s1 ++ sc' ++ s2)) mod 65535 = 0.
Proof.
  intros Hv Hp Htot Hmax Lhd Lhc La Lsc Bhd Ba B1 B2 Hlen Hf Hudp. unfold chksum.
  assert (Hhd : forall i x, hd !! i = Some x -> byte_at (pre ++ (hd ++ hc ++ addrs) ++ (s1 ++ sc ++ s2) ++ post) (length pre + i) = Done x).
  { intros i x Hx. apply byte_at_app. rewrite lookup_app_l by (apply lookup_lt_Some in Hx; lia). done. }
  pose proof (Hhd _ _ Hv) as Hv'. rewrite Nat.add_0_r in Hv'. rewrite Hv'. obind.
  change (negb (PKT_IP_VER_HLEN =? PKT_IP_VER_HLEN)) with false. cbv iota zeta.
  change (u16 ((PKT_IP_VER_HLEN &ᵤ 0x0f) <<ᵤ 2)) with 20.
  rewrite get16_app by (rewrite !length_app; lia). obind.
  assert (be_val (take 2 (drop 2 (hd ++ hc ++ addrs))) = 20 + len) as ->.
  { rewrite drop_app_le, take_app_le by (rewrite ?length_drop; lia). done. }
  assert (Hbuf : Z.of_nat (length (s1 ++ sc ++ s2)) < 2 ^ 16) by (change (2 ^ 16) with 65536; lia).
  change (PKT_BUFFER) with 5000. change (negb (20 =? PKT_IP_HLEN)) with false. cbv iota.
  rewrite (proj2 (Z.ltb_ge 5000 _)), (proj2 (Z.ltb_ge (20 + len) _)) by lia. cbv iota.
  rewrite (Hhd _ _ Hp). obind. clear Hhd Hv'. change (Z.to_nat 20) with 20%nat.
  pose proof (fun seg => header_chksum e pre hd hc addrs seg post Lhd Lhc La Bhd Ba) as Hlast.
  assert (Hoff : (length pre + 20)%nat = length (pre ++ hd ++ hc ++ addrs)) by (rewrite !length_app; lia).
  assert (Heven : Nat.even (length s1) = true).
  { unfold check_field in Hf. repeat case_match; simplify_eq; by rewrite <- Hf. }
  destruct (decide (proto = PKT_IP_PROTO_ICMP)) as [->|Hicmp].
  - injection Hf as Hk. 
    change (PKT_IP_PROTO_ICMP =? PKT_IP_PROTO_TCP) with false. change (PKT_IP_PROTO_ICMP =? PKT_IP_PROTO_UDP) with false.
    change (PKT_IP_PROTO_ICMP =? PKT_IP_PROTO_ICMP) with true. cbv iota.
    rewrite (Z.add_simpl_l 20 len), Hlen, Nat2Z.id. unfold pseudo_sum. change (PKT_IP_PROTO_ICMP =? PKT_IP_PROTO_ICMP) with true. cbv iota.
    destruct (field_sum e (pre ++ hd ++ hc ++ addrs) s1 s2 post (length pre + 20) 2 Hoff Hk Heven sc (length (s1 ++ sc ++ s2))
      (pre ++ (hd ++ hc ++ addrs) ++ (s1 ++ sc ++ s2) ++ post) _ (fun b => Done (Some b)) Lsc B1 B2 Hbuf eq_refl) as (sc' & H1 & _ & H2 & H3);
      [unfold field_buf; by rewrite <- !app_assoc|].
    destruct (Hlast (s1 ++ sc' ++ s2)) as (hc' & G1 & G2 & G3). exists hc', sc'. repeat (split; [done|]).
    split; [|by rewrite Z.add_0_l]. rewrite H3. unfold field_buf. rewrite <- G3. obind. by rewrite <- !app_assoc.
  - assert (Hpl : proto + len < 65536).
    { unfold check_field in Hf. repeat case_match; simplify_eq; unfold PKT_IP_PROTO_TCP, PKT_IP_PROTO_UDP in *; lia. }
    assert (Hp0 : 0 <= proto).
    { unfold check_field in Hf. repeat case_match; simplify_eq; unfold PKT_IP_PROTO_TCP, PKT_IP_PROTO_UDP in *; lia. }
    destruct (pseudo_chksum_ok e pre (hd ++ hc) addrs s1 sc s2 post (length pre) (length pre + 20) (length s1) proto len eq_refl) as (sc' & H1 & _ & H2 & H3);
      rewrite ?length_app; [lia|done|reflexivity|done|done|done|by rewrite !length_app in Hlen|done..|].
    rewrite <- (app_assoc hd hc) in H2.
    destruct (Hlast (s1 ++ sc' ++ s2)) as (hc' & G1 & G2 & G3).
    exists hc', sc'. split; [done|]. split; [done|]. split; [|split; [done|]].
    + unfold check_field in Hf. destruct (Z.eqb_spec proto PKT_IP_PROTO_TCP) as [->|_].
      * injection Hf as Hk. rewrite <- Hk in H2. rewrite (Z.add_simpl_l 20 len), H2. obind. done.
      * destruct (Z.eqb_spec proto PKT_IP_PROTO_UDP) as [->|_]; [|by rewrite (proj2 (Z.eqb_neq _ _)) in Hf].
        injection Hf as Hk.
        assert (get16 (pre ++ (hd ++ hc ++ addrs) ++ (s1 ++ sc ++ s2) ++ post) (length pre + 20 + 4) = Done len) as ->.
        { rewrite Hoff, app_assoc, get16_app by (rewrite !length_app; lia).
          rewrite drop_app_le, take_app_le by (rewrite ?length_drop; lia). f_equal. by apply Hudp. }
        obind. rewrite (proj2 (Z.ltb_ge _ _)) by lia. cbv iota. rewrite <- Hk in H2. rewrite H2. obind. done.
    + unfold pseudo_sum. by rewrite (proj2 (Z.eqb_neq _ _)).
Qed.


Lemma chksum_dg e proto pre d post : dg_ok proto d ->
  exists hc sc, length hc = 2%nat /\ length sc = 2%nat /\ dg_valid proto (set_checks d hc sc) /\
    chksum e (pre ++ dg_bytes d ++ post) (length pre) = Done (0, pre ++ dg_bytes (set_checks d hc sc) ++ post).
Proof.
  intros [Hv Hp Ht Hm Lhd Lhc La Lsc Hf Hu (B1 & B2 & B3 & B4)].
  destruct (chksum_parts e pre (dg_hd d) (dg_hc d) (dg_addrs d) (dg_s1 d) (dg_sc d) (dg_s2 d) post proto (dg_len d))
    as (hc & sc & H1 & H2 & H3 & H4 & H5); try done.
  exists hc, sc. split; [done|]. split; [done|]. unfold dg_bytes, dg_ip, dg_seg, dg_valid in *.
  split; [split; [done|]|cbn [set_checks dg_hd dg_hc dg_addrs dg_s1 dg_sc dg_s2]; repeat rewrite <- app_assoc in H3; repeat rewrite <- app_assoc; exact H3].
  replace (dg_len (set_checks d hc sc)) with (dg_len d); [done|].
  unfold dg_len, dg_seg. rewrite !length_app. cbn. by rewrite Lsc, H2.
Qed.

(** C34: [chksum] on a UDP, TCP or ICMP datagram of up to 5000 bytes without IP options
    whose length fields are right returns 0, changes nothing but the two checksum fields,
    and then the words of the header sum to 0 modulo 65535, and so do those of the pseudo
    header and the segment: what RFC 1071 has a receiver check, on machines of either
    byte order. *)
Theorem chksum_valid e proto pre d post : dg_ok proto d ->
  exists hc sc, length hc = 2%nat /\ length sc = 2%nat /\ dg_valid proto (set_checks d hc sc) /\
    chksum e (pre ++ dg_bytes d ++ post) (length pre) = Done (0, pre ++ dg_bytes (set_checks d hc sc) ++ post).
Proof. apply chksum_dg. Qed.

(** ** What [chksum6] leaves *)

(** The pseudo header of RFC 8200. *)
Definition pseudo6 (ip6 : bytes) (len next : Z) : bytes := drop 8 ip6 ++ be_bytes 4 len ++ [0; 0; 0; next].

Lemma pseudo6_chksum_ok e pre ip6 s1 c s2 post len next :
  length ip6 = 40%nat -> be_val (take 2 (drop 4 ip6)) = len -> ip6 !! 6%nat = Some next ->
  Nat.even (length s1) = true -> length c = 2%nat -> len = Z.of_nat (length (s1 ++ c ++ s2)) -> len < 2 ^ 16 ->
  is_bytes ip6 -> is_bytes s1 -> is_bytes s2 ->
  exists v, length v = 2%nat /\
    pseudo6_chksum e (pre ++ ip6 ++ (s1 ++ c ++ s2) ++ post) (length pre) (length s1) len
      = Done (pre ++ ip6 ++ (s1 ++ v ++ s2) ++ post) /\
    (be_sum (pseudo6 ip6 len next) + be_sum (s1 ++ v ++ s2)) mod 65535 = 0.
Proof.
  intros L6 Hd Hn He Hc Hlen Hmax B6 B1 B2. set (p := pre ++ ip6). set (hdr := pseudo6 ip6 len next).
  assert (Hoff : (length pre + 40)%nat = length p) by (unfold p; rewrite length_app; lia).
  assert (Hbuf : forall x, pre ++ ip6 ++ (s1 ++ x ++ s2) ++ post = field_buf p s1 s2 post x).
  { intros x. unfold field_buf, p. by rewrite <- (app_assoc pre). }
  assert (Bn : is_u8 next) by (exact (proj1 (Forall_lookup _ _) B6 _ _ Hn)).
  assert (Bh : is_bytes hdr).
  { unfold hdr, pseudo6. apply Forall_app; split; [by apply Forall_drop|]. apply Forall_app; split; [apply is_bytes_be_bytes|].
    repeat constructor; solve_bytes || apply Bn. }
  assert (Lh : length hdr = 40%nat) by (unfold hdr, pseudo6; rewrite !length_app, length_drop, length_be_bytes, L6; done).
  assert (Eh : Nat.even (length hdr) = true) by (by rewrite Lh).
  pose proof (native_sum_bound e hdr Bh) as Hbh. rewrite Lh in Hbh.
  destruct (field_store e p s1 s2 post _ (length s1) Hoff eq_refl He c (native_sum e hdr) Hc B1 B2) as (v & Hv & Hbv & Hst & Hsum);
    [change (2 ^ 24) with 16777216; lia|by rewrite <- Hlen|].
  exists v. split; [done|]. split; [|].
  - unfold pseudo6_chksum. rewrite read_ok by (rewrite !length_app; unfold PKT_IPv6_ALEN; lia). obind.
    rewrite <- drop_drop, drop_app_length, drop_app_le, take_app_le, (take_ge (drop 8 ip6))
      by (rewrite ?length_drop; unfold PKT_IPv6_ALEN; lia).
    rewrite get16_app, Hd by lia. obind. rewrite (byte_at_app pre ip6 _ 6 next) by done. obind.
    rewrite word_bytes_htonl. change (drop 8 ip6 ++ be_bytes 4 len ++ [0; 0; 0] ++ [next]) with hdr.
    rewrite !Hbuf. rewrite (field_put p s1 s2 post _ (length s1) Hoff eq_refl c [0; 0]) by done. obind.
    rewrite (in_cksum_at e hdr 0 _ 0 [] hdr []); [|by rewrite app_nil_r|done|done|done|by rewrite Lh|done].
    obind. rewrite Z.add_0_l.
    rewrite (in_cksum_at e _ _ _ 0 p (s1 ++ [0; 0] ++ s2) post);
      [|done|done| | | |done]; [obind; by rewrite ?Z.add_0_l| | |].
    + rewrite Hlen, Nat2Z.id, !length_app, Hc. done.
    + apply Forall_app; split; [done|]. repeat constructor; solve_bytes || done.
    + rewrite Z2Nat.id by lia. done.
  - rewrite <- be_sum_app by done. apply (native_valid0 e). rewrite native_sum_app by done. done.
Qed.

(** Where RFC 768, 4443 and 793 put the checksum. *)
Definition check_field6 (next : Z) : option nat :=
  if next =? ICMPv6_NEXT_HEADER then Some 2%nat
  else if next =? PKT_IP_PROTO_UDP then Some 6%nat
  else if next =? PKT_IP_PROTO_TCP then Some 16%nat
  else None.

(** [chksum6] on an IPv6 packet that carries TCP, UDP (whose length field is right)
    or ICMPv6, of any length, changes nothing but the checksum field, and then the words of
    the pseudo header of RFC 8200 and of the segment sum to 0 modulo 65535, on machines of
    either byte order. *)
Theorem chksum6_valid e pre ip6 s1 c s2 post len next :
  length ip6 = 40%nat -> be_val (take 2 (drop 4 ip6)) = len -> ip6 !! 6%nat = Some next ->
  check_field6 next = Some (length s1) -> length c = 2%nat -> len = Z.of_nat (length (s1 ++ c ++ s2)) ->
  (next = PKT_IP_PROTO_UDP -> be_val (take 2 (drop 4 s1)) = len) ->
  is_bytes ip6 -> is_bytes s1 -> is_bytes s2 ->
  exists v, length v = 2%nat /\
    chksum6 e (pre ++ ip6 ++ (s1 ++ c ++ s2) ++ post) (length pre) = Done (pre ++ ip6 ++ (s1 ++ v ++ s2) ++ post) /\
    (be_sum (pseudo6 ip6 len next) + be_sum (s1 ++ v ++ s2)) mod 65535 = 0.
Proof.
  intros L6 Hd Hn Hf Hc Hlen Hudp B6 B1 B2.
  assert (Hmax : len < 2 ^ 16).
  { rewrite <- Hd. pose proof (be_val_range (take 2 (drop 4 ip6)) ltac:(by apply Forall_take, Forall_drop)) as Hr.
    rewrite length_take, length_drop, L6 in Hr. apply Hr. }
  assert (He : Nat.even (length s1) = true) by (unfold check_field6 in Hf; repeat case_match; simplify_eq; by rewrite <- Hf).
  destruct (pseudo6_chksum_ok e pre ip6 s1 c s2 post len next) as (v & H1 & H2 & H3); try done.
  exists v. split; [done|]. split; [|done]. unfold chksum6.
  rewrite (byte_at_app pre ip6 _ 6 next) by done. obind. rewrite get16_app, Hd by lia. obind.
  unfold check_field6 in Hf. destruct (next =? ICMPv6_NEXT_HEADER); [injection Hf as Hk; by rewrite <- Hk in H2|].
  destruct (Z.eqb_spec next PKT_IP_PROTO_UDP) as [->|_].
  - injection Hf as Hk. rewrite <- Hk in H2. specialize (Hudp eq_refl).
    assert (get16 (pre ++ ip6 ++ (s1 ++ c ++ s2) ++ post) (length pre + 40 + 4) = Done len) as ->; [|obind; done].
    rewrite <- L6, <- length_app, app_assoc, get16_app by (rewrite !length_app; lia).
    rewrite drop_app_le, take_app_le by (rewrite ?length_drop; lia). by f_equal.
  - destruct (next =? PKT_IP_PROTO_TCP); [injection Hf as Hk; by rewrite <- Hk in H2|done].
Qed.

(** ** Rewriting TCP headers *)

Definition with_s1 (d : datagram) (s1 : bytes) : datagram := mk_dg (dg_hd d) (dg_hc d) (dg_addrs d) s1 (dg_sc d) (dg_s2 d).
Definition with_s2 (d : datagram) (s2 : bytes) : datagram := mk_dg (dg_hd d) (dg_hc d) (dg_addrs d) (dg_s1 d) (dg_sc d) s2.

Lemma dg_ok_with d s1 s2 :
  dg_ok PKT_IP_PROTO_TCP d -> length s1 = length (dg_s1 d) -> length s2 = length (dg_s2 d) -> is_bytes s1 -> is_bytes s2 ->
  dg_ok PKT_IP_PROTO_TCP (with_s1 (with_s2 d s2) s1).
Proof.
  intros [Hv Hp Ht Hm Lhd Lhc La Lsc Hf Hu (B1 & B2 & B3 & B4)] L1 L2 N1 N2.
  assert (dg_len (with_s1 (with_s2 d s2) s1) = dg_len d) as Hl.
  { unfold dg_len, dg_seg. cbn. by rewrite !length_app, L1, L2. }
  split; rewrite ?Hl; cbn; try done. by rewrite L1.
Qed.
Lemma dg_ok_s2 proto d s2 : dg_ok proto d -> length s2 = length (dg_s2 d) -> is_bytes s2 -> dg_ok proto (with_s2 d s2).
Proof.
  intros [Hv Hp Ht Hm Lhd Lhc La Lsc Hf Hu (B1 & B2 & B3 & B4)] L2 N2.
  assert (dg_len (with_s2 d s2) = dg_len d) as Hl by (unfold dg_len, dg_seg; cbn; by rewrite !length_app, L2).
  split; rewrite ?Hl; done.
Qed.
Lemma dg_ok_checks proto d hc sc : dg_ok proto d -> length hc = 2%nat -> length sc = 2%nat -> dg_ok proto (set_checks d hc sc).
Proof.
  intros [Hv Hp Ht Hm Lhd Lhc La Lsc Hf Hu Hb] L1 L2.
  assert (dg_len (set_checks d hc sc) = dg_len d) as Hl.
  { unfold dg_len, dg_seg. cbn. rewrite !length_app. lia. }
  split; rewrite ?Hl; done.
Qed.
(** The datagram in its buffer, cut inside the part before or behind the checksum of the segment. *)
Lemma dg_split pre d post u r : dg_s2 d = u ++ r ->
  pre ++ dg_bytes d ++ post = (pre ++ dg_ip d ++ dg_s1 d ++ dg_sc d ++ u) ++ r ++ post.
Proof. intros Hr. unfold dg_bytes, dg_seg. rewrite Hr. by repeat rewrite <- app_assoc. Qed.
Lemma dg_put pre d post u r :
  pre ++ dg_bytes (with_s2 d (u ++ r)) ++ post = (pre ++ dg_ip d ++ dg_s1 d ++ dg_sc d ++ u) ++ r ++ post.
Proof. by apply (dg_split pre (with_s2 d (u ++ r))). Qed.
Lemma dg_cut2 proto pre d post u r : dg_ok proto d -> dg_s2 d = u ++ r ->
  pre ++ dg_bytes d ++ post = (pre ++ dg_ip d ++ dg_s1 d ++ dg_sc d ++ u) ++ r ++ post /\
  (length (pre ++ dg_ip d ++ dg_s1 d ++ dg_sc d ++ u) = length pre + 22 + length (dg_s1 d) + length u)%nat.
Proof.
  intros Hd Hr. split; [by apply dg_split|].
  unfold dg_ip. rewrite !length_app, (ok_hd _ _ Hd), (ok_hc _ _ Hd), (ok_addrs _ _ Hd), (ok_sc _ _ Hd). lia.
Qed.
Lemma dg_cut1 proto pre d post u r : dg_ok proto d -> dg_s1 d = u ++ r ->
  pre ++ dg_bytes d ++ post = (pre ++ dg_ip d ++ u) ++ r ++ dg_sc d ++ dg_s2 d ++ post /\
  (length (pre ++ dg_ip d ++ u) = length pre + 20 + length u)%nat.
Proof.
  intros Hd Hr. unfold dg_bytes, dg_seg. rewrite Hr. split; [by repeat rewrite <- app_assoc|].
  unfold dg_ip. rewrite !length_app, (ok_hd _ _ Hd), (ok_hc _ _ Hd), (ok_addrs _ _ Hd). lia.
Qed.
Lemma dg_proto_at proto pre d post : dg_ok proto d -> byte_at (pre ++ dg_bytes d ++ post) (length pre + 9) = Done proto.
Proof.
  intros Hd. apply byte_at_app. unfold dg_bytes, dg_ip. rewrite <- !app_assoc, lookup_app_l by (rewrite (ok_hd _ _ Hd); lia).
  apply (ok_proto _ _ Hd).
Qed.
Lemma dg_length proto d : dg_ok proto d -> (length (dg_bytes d) = 20 + length (dg_seg d))%nat.
Proof.
  intros Hd. unfold dg_bytes, dg_ip. rewrite !length_app, (ok_hd _ _ Hd), (ok_hc _ _ Hd), (ok_addrs _ _ Hd). lia.
Qed.
Lemma dg_tcp_s1 d : dg_ok PKT_IP_PROTO_TCP d -> length (dg_s1 d) = 16%nat.
Proof. intros Hd. pose proof (ok_field _ _ Hd) as Hf. by injection Hf. Qed.

(** On a TCP datagram in order, [pkt_shape_tcpwin] leaves a window that is not
    above the limit, and the whole datagram, as they are; a larger window becomes the
    limit, the other bytes but the two checksums stay, and the checksums become right. *)
Theorem pkt_shape_tcpwin_caps e pre d post win :
  dg_ok PKT_IP_PROTO_TCP d -> 0 <= win < 65536 ->
  let w := be_val (drop 14 (dg_s1 d)) in
  if win <? w then
    exists hc sc, length hc = 2%nat /\ length sc = 2%nat /\
      let d' := set_checks (with_s1 d (take 14 (dg_s1 d) ++ be_bytes 2 win)) hc sc in
      pkt_shape_tcpwin e (pre ++ dg_bytes d ++ post) (length pre) win = Done (pre ++ dg_bytes d' ++ post) /\
      dg_valid PKT_IP_PROTO_TCP d' /\ be_val (drop 14 (dg_s1 d')) = win
  else pkt_shape_tcpwin e (pre ++ dg_bytes d ++ post) (length pre) win = Done (pre ++ dg_bytes d ++ post).
Proof.
  intros Hd Hwin w. pose proof (dg_tcp_s1 d Hd) as L1. pose proof (ok_bytes _ _ Hd) as (_ & _ & B1 & B2).
  assert (Hs1 : dg_s1 d = take 14 (dg_s1 d) ++ drop 14 (dg_s1 d)) by (by rewrite take_drop).
  destruct (dg_cut1 _ pre d post _ _ Hd Hs1) as [Hcut Hlen].
  rewrite length_take, L1 in Hlen. change (14 `min` 16)%nat with 14%nat in Hlen.
  assert (Hw : get16 (pre ++ dg_bytes d ++ post) (length pre + 20 + 14) = Done w).
  { rewrite Hcut, <- Hlen. rewrite <- (Nat.add_0_r (length (pre ++ _))), get16_app by (rewrite length_drop; lia).
    rewrite drop_0, take_ge by (rewrite length_drop; lia). done. }
  unfold pkt_shape_tcpwin. rewrite (dg_proto_at _ _ _ _ Hd). obind.
  change (PKT_IP_PROTO_TCP =? PKT_IP_PROTO_TCP) with true. cbv iota. rewrite Hw. obind.
  destruct (win <? w); [|done].
  set (d1 := with_s1 d (take 14 (dg_s1 d) ++ be_bytes 2 win)).
  assert (Hd1 : dg_ok PKT_IP_PROTO_TCP d1).
  { apply (dg_ok_with d _ (dg_s2 d)); try done; [rewrite length_app, length_take, length_be_bytes, L1; done|].
    apply Forall_app; split; [by apply Forall_take|apply is_bytes_be_bytes]. }
  assert (Hput : put16 (pre ++ dg_bytes d ++ post) (length pre + 20 + 14) win = Done (pre ++ dg_bytes d1 ++ post)).
  { unfold put16. rewrite Hcut, memcpy_app by (rewrite ?length_be_bytes, ?length_drop; lia).
    by rewrite (proj1 (dg_cut1 _ pre d1 post _ _ Hd1 eq_refl)). }
  rewrite Hput. obind. destruct (chksum_dg e _ pre d1 post Hd1) as (hc & sc & H1 & H2 & H3 & H4).
  rewrite H4. obind. exists hc, sc. repeat (split; [done|]). cbn [set_checks dg_s1 d1 with_s1].
  rewrite drop_app_length' by (rewrite length_take; lia). by apply be_val2.
Qed.

(** ** TCP options *)

Inductive tcpopt := Nop | Opt (type : Z) (data : bytes).
Definition opt_bytes (o : tcpopt) : bytes :=
  match o with Nop => [1] | Opt type data => [type; Z.of_nat (length data) + 2] ++ data end.
Definition opt_ok (o : tcpopt) : Prop :=
  match o with Nop => True | Opt type data => 2 <= type < 256 /\ (length data <= 38)%nat /\ is_bytes data end.
Definition is_mss (o : tcpopt) : bool := match o with Opt 2 [_; _] => true | _ => false end.

Section Options.
Context (e : endian) (tcpmss : Z) (scalewin : bool) (Hmss : 0 <= tcpmss < 65536).

(** A larger segment size becomes the limit; no window scaling. *)
Definition clamp (o : tcpopt) : tcpopt :=
  match o with
  | Opt 2 [a; b] => if tcpmss <? be_val [a; b] then Opt 2 (be_bytes 2 tcpmss) else o
  | Opt 3 [x] => if scalewin && (0 <? x) then Opt 3 [0] else o
  | _ => o
  end.
Lemma clamp_length o : length (opt_bytes (clamp o)) = length (opt_bytes o).
Proof. unfold clamp. by repeat case_match. Qed.
Lemma clamp_lengths os : length (concat (map opt_bytes (map clamp os))) = length (concat (map opt_bytes os)).
Proof. induction os as [|o os IH]; cbn [map concat]; [done|]. by rewrite !length_app, clamp_length, IH. Qed.
Lemma clamp_ok o : opt_ok o -> opt_ok (clamp o).
Proof.
  unfold clamp. repeat case_match; try done; intros (? & ? & ?); (split; [lia|]; split; [cbn; lia|]);
    first [apply is_bytes_be_bytes|by repeat constructor].
Qed.
Lemma opt_bytes_ok o : opt_ok o -> is_bytes (opt_bytes o).
Proof.
  destruct o as [|t l]; cbn; [intros _; repeat constructor; done|]. intros (H1 & H2 & H3).
  constructor; [unfold is_u8, in_w; change (2 ^ 8) with 256; lia|].
  constructor; [unfold is_u8, in_w; change (2 ^ 8) with 256; lia|done].
Qed.

(** What one option makes the loop do, besides going on. *)
Definition tcpmss_opt (b : bytes) (iph opts i : nat) (type len : Z) (hasmss : bool) : result (bytes * bool) :=
  if (type =? 2) && (len =? 4) then
    v ← get16 b (opts + i);
    b ← (if tcpmss <? v then b ← put16 b (opts + i) tcpmss; '(_, b) ← chksum e b iph; Done b else Done b);
    Done (b, true)
  else if scalewin && (type =? 3) && (len =? 3) then
    x ← byte_at b (opts + i);
    b ← (if 0 <? x then b ← memcpy b (opts + i) [0]; '(_, b) ← chksum e b iph; Done b else Done b);
    Done (b, hasmss)
  else Done (b, hasmss).
Lemma tcpmss_loop_eq fuel b iph opts words i hasmss type len :
  (i / 4 < words)%nat -> byte_at b (opts + i) = Done type -> type <> 0 -> type <> 1 ->
  byte_at b (opts + S i) = Done len -> 2 <= len <= TCP_MAX_OPTION_LEN ->
  tcpmss_loop e tcpmss scalewin (S fuel) b iph opts words i hasmss =
    ('(b, hasmss) ← tcpmss_opt b iph opts (S (S i)) type len hasmss;
     tcpmss_loop e tcpmss scalewin fuel b iph opts words (S (S i) + Z.to_nat (len - 2)) hasmss).
Proof.
  intros Hi Ht H0 H1 Hl Hr. cbn [tcpmss_loop]. rewrite decide_True, Ht by done. obind.
  rewrite (proj2 (Z.eqb_neq _ _) H0), (proj2 (Z.eqb_neq _ _) H1), Hl. obind.
  rewrite (proj2 (Z.ltb_ge len _)), (proj2 (Z.ltb_ge _ len)) by lia. done.
Qed.

(** The datagram with the part [s] behind the checksum and the urgent pointer; it is
    either sound, or nothing of it was touched. *)
Definition reshaped (d d' : datagram) (s : bytes) : Prop :=
  exists hc sc, length hc = 2%nat /\ length sc = 2%nat /\ d' = set_checks (with_s2 d s) hc sc /\
    (dg_valid PKT_IP_PROTO_TCP d' \/ d' = d).

Lemma reshape pre d post u r r' :
  dg_ok PKT_IP_PROTO_TCP d -> dg_s2 d = u ++ r -> length r' = length r -> is_bytes r' ->
  exists d', reshaped d d' (u ++ r') /\ dg_ok PKT_IP_PROTO_TCP d' /\ dg_valid PKT_IP_PROTO_TCP d' /\
    chksum e (pre ++ dg_bytes (with_s2 d (u ++ r')) ++ post) (length pre) = Done (0, pre ++ dg_bytes d' ++ post).
Proof.
  intros Hd Hr L' B'. pose proof (ok_bytes _ _ Hd) as (_ & _ & B1 & B2).
  assert (Hd1 : dg_ok PKT_IP_PROTO_TCP (with_s2 d (u ++ r'))).
  { apply (dg_ok_with d (dg_s1 d)); try done; [by rewrite Hr, !length_app, L'|]. rewrite Hr in B2. apply Forall_app in B2 as [B2 _].
    by apply Forall_app. }
  destruct (chksum_dg e _ pre _ post Hd1) as (hc & sc & H1 & H2 & H3 & H4).
  exists (set_checks (with_s2 d (u ++ r')) hc sc). split; [|split; [by apply dg_ok_checks|by split]].
  exists hc, sc. by repeat (split; [done|]); left.
Qed.

Lemma reshaped_same proto d : dg_ok proto d -> reshaped d d (dg_s2 d).
Proof.
  intros Hd. exists (dg_hc d), (dg_sc d). split; [apply (ok_hc _ _ Hd)|]. split; [apply (ok_sc _ _ Hd)|].
  split; [by destruct d|by right].
Qed.
(** Overwriting the data of an option and setting the checksums. *)
Lemma tcpmss_write pre d post u t l l' r :
  dg_ok PKT_IP_PROTO_TCP d -> dg_s2 d = u ++ opt_bytes (Opt t l) ++ r -> length l' = length l -> is_bytes l' ->
  exists d', reshaped d d' (u ++ opt_bytes (Opt t l') ++ r) /\ dg_ok PKT_IP_PROTO_TCP d' /\
    (b ← memcpy (pre ++ dg_bytes d ++ post) (length pre + 40 + length u) l'; '(_, b) ← chksum e b (length pre); Done b)
      = Done (pre ++ dg_bytes d' ++ post).
Proof.
  intros Hd Hs L' B'. set (h := [t; Z.of_nat (length l) + 2]).
  assert (Hs' : dg_s2 d = (u ++ h) ++ l ++ r) by (rewrite Hs; cbn [opt_bytes]; by rewrite <- !app_assoc).
  pose proof (ok_bytes _ _ Hd) as (_ & _ & _ & B2). rewrite Hs' in B2. apply Forall_app in B2 as [_ B2]. apply Forall_app in B2 as [_ B2].
  destruct (reshape pre d post (u ++ h) (l ++ r) (l' ++ r) Hd Hs') as (d' & R1 & R2 & R3 & R4);
    [by rewrite !length_app, L'|by apply Forall_app|].
  exists d'. split; [|split; [done|]].
  { cbn [opt_bytes]. rewrite L'. fold h. by rewrite <- !app_assoc in R1 |- *. }
  destruct (dg_cut2 _ pre d post _ _ Hd Hs') as [Hc Hl]. rewrite (dg_tcp_s1 d Hd), (length_app u h) in Hl. change (length h) with 2%nat in Hl.
  rewrite Hc, <- (app_assoc l), memcpy_app by (done || lia). obind.
  rewrite (app_assoc l'), <- dg_put, R4. done.
Qed.

Lemma tcpmss_opt_step pre d post u t l r opts i hasmss :
  dg_ok PKT_IP_PROTO_TCP d -> dg_s2 d = u ++ opt_bytes (Opt t l) ++ r -> opt_ok (Opt t l) ->
  (opts + i = length pre + 40 + length u)%nat ->
  exists d', reshaped d d' (u ++ opt_bytes (clamp (Opt t l)) ++ r) /\ dg_ok PKT_IP_PROTO_TCP d' /\
    tcpmss_opt (pre ++ dg_bytes d ++ post) (length pre) opts i t (Z.of_nat (length l) + 2) hasmss
      = Done (pre ++ dg_bytes d' ++ post, hasmss || is_mss (Opt t l)).
Proof.
  intros Hd Hs (Ht & Hl & Hb) Hpos. unfold tcpmss_opt. rewrite Hpos.
  assert (Hsame : exists d', reshaped d d' (u ++ opt_bytes (Opt t l) ++ r) /\ dg_ok PKT_IP_PROTO_TCP d' /\ d' = d).
  { exists d. split; [rewrite <- Hs; by eapply reshaped_same|done]. }
  set (h := [t; Z.of_nat (length l) + 2]).
  assert (Hs' : dg_s2 d = (u ++ h) ++ l ++ r) by (rewrite Hs; cbn [opt_bytes]; by rewrite <- !app_assoc).
  destruct (dg_cut2 _ pre d post _ _ Hd Hs') as [Hc Hlen].
  rewrite (dg_tcp_s1 d Hd), (length_app u h) in Hlen. change (length h) with 2%nat in Hlen.
  destruct (Z.eqb_spec t 2) as [->|H2]; [destruct (Z.eqb_spec (Z.of_nat (length l) + 2) 4) as [L2|L2]|]; cbn [andb].
  - destruct l as [|a [|b [|? ?]]]; cbn [length] in L2; try lia. cbn [is_mss clamp]. rewrite orb_true_r.
    assert (get16 (pre ++ dg_bytes d ++ post) (length pre + 40 + length u) = Done (be_val [a; b])) as ->.
    { rewrite Hc. replace (length pre + 40 + length u)%nat with (length (pre ++ dg_ip d ++ dg_s1 d ++ dg_sc d ++ u ++ h) + 0)%nat by lia.
      by rewrite <- (app_assoc [a; b]), get16_app by (cbn; lia). }
    obind. destruct (tcpmss <? be_val [a; b]).
    + destruct (tcpmss_write pre d post u 2 [a; b] (be_bytes 2 tcpmss) r Hd Hs) as (d' & R1 & R2 & R3); [done|apply is_bytes_be_bytes|].
      exists d'. split; [done|]. split; [done|]. unfold put16. rewrite R3. done.
    + destruct Hsame as (d' & R1 & R2 & ->). by exists d.
  - destruct Hsame as (d' & R1 & R2 & ->). exists d. cbn [clamp is_mss].
    destruct l as [|a [|b [|? ?]]]; cbn [length] in L2; try lia; rewrite orb_false_r, andb_false_r; done.
  - assert (is_mss (Opt t l) = false) as -> by (cbn; by repeat case_match). rewrite orb_false_r.
    destruct (scalewin && (t =? 3) && (Z.of_nat (length l) + 2 =? 3)) eqn:Hsc.
    + apply andb_prop in Hsc as [Hsc L3]. apply andb_prop in Hsc as [Hsc H3]. apply Z.eqb_eq in H3, L3. subst t.
      destruct l as [|x [|? ?]]; cbn [length] in L3; try lia. cbn [clamp]. rewrite Hsc. cbn [andb].
      assert (byte_at (pre ++ dg_bytes d ++ post) (length pre + 40 + length u) = Done x) as ->.
      { rewrite Hc. replace (length pre + 40 + length u)%nat with (length (pre ++ dg_ip d ++ dg_s1 d ++ dg_sc d ++ u ++ h) + 0)%nat by lia.
        by rewrite <- (app_assoc [x]), (byte_at_app _ [x] _ 0 x). }
      obind. destruct (0 <? x).
      * destruct (tcpmss_write pre d post u 3 [x] [0] r Hd Hs) as (d' & R1 & R2 & R3); [done|by repeat constructor|].
        exists d'. split; [done|]. split; [done|]. rewrite R3. done.
      * destruct Hsame as (d' & R1 & R2 & ->). by exists d.
    + destruct Hsame as (d' & R1 & R2 & ->). exists d. split; [|done].
      assert (clamp (Opt t l) = Opt t l) as ->; [|done]. unfold clamp.
      destruct l as [|x [|y [|? ?]]]; repeat case_match; simplify_eq; try done.
      match goal with H : scalewin && (0 <? x) = true |- _ => apply andb_prop in H as [-> _]; discriminate Hsc end.
Qed.

Lemma reshaped_trans d d1 d2 s s2 : reshaped d d1 s -> reshaped d1 d2 s2 -> reshaped d d2 s2.
Proof.
  intros (hc & sc & H1 & H2 & -> & H4) (hc2 & sc2 & G1 & G2 & -> & G4). exists hc2, sc2. repeat (split; [done|]).
  destruct G4 as [G4|G4]; [by left|]. destruct H4 as [H4|H4]; [left; by rewrite G4|right; by rewrite G4].
Qed.

Lemma dg_byte pre d post u r j x k :
  dg_ok PKT_IP_PROTO_TCP d -> dg_s2 d = u ++ r -> r !! j = Some x -> (k = length pre + 38 + length u + j)%nat ->
  byte_at (pre ++ dg_bytes d ++ post) k = Done x.
Proof.
  intros Hd Hs Hx ->. destruct (dg_cut2 _ pre d post _ _ Hd Hs) as [-> Hl]. rewrite (dg_tcp_s1 d Hd) in Hl.
  rewrite <- (byte_at_app (pre ++ dg_ip d ++ dg_s1 d ++ dg_sc d ++ u) r post j x Hx). f_equal. lia.
Qed.

(** The loop over well-formed options: [tail] is empty or begins with the end of the options. *)
Lemma tcpmss_loop_ok pre post words tail data os : Forall opt_ok os -> head tail = None \/ head tail = Some 0 ->
  forall fuel d u hasmss i, i = (length u - 2)%nat ->
  dg_ok PKT_IP_PROTO_TCP d -> dg_s2 d = u ++ concat (map opt_bytes os) ++ tail ++ data -> (2 <= length u)%nat ->
  (i + length (concat (map opt_bytes os) ++ tail) = 4 * words)%nat -> (length (concat (map opt_bytes os)) < fuel)%nat ->
  exists d', reshaped d d' (u ++ concat (map opt_bytes (map clamp os)) ++ tail ++ data) /\ dg_ok PKT_IP_PROTO_TCP d' /\
    tcpmss_loop e tcpmss scalewin fuel (pre ++ dg_bytes d ++ post) (length pre) (length pre + 40) words i hasmss
      = Done (true, pre ++ dg_bytes d' ++ post, hasmss || existsb is_mss os).
Proof.
  intros Hos Ht. induction Hos as [|o os Ho Hos IH]; intros fuel d u hasmss i Hi Hd Hs Hu Hw Hf;
    (destruct fuel as [|fuel]; [lia|]); cbn [map concat existsb] in *.
  - exists d. rewrite orb_false_r. split; [rewrite <- Hs; by eapply reshaped_same|]. split; [done|]. cbn [tcpmss_loop].
    destruct tail as [|x tail]; cbn [app length head] in *.
    + rewrite decide_False; [done|]. rewrite Nat.add_0_r in Hw. rewrite Hw, (Nat.mul_comm 4), Nat.div_mul by done. lia.
    + destruct Ht as [Ht|Ht]; simplify_eq. rewrite decide_True by (apply Nat.Div0.div_lt_upper_bound; lia).
      rewrite (dg_byte pre d post u _ 0 0 (length pre + 40 + (length u - 2)) Hd Hs) by (done || lia). obind. done.
  - rewrite <- !app_assoc in Hs. rewrite <- app_assoc, length_app in Hw. rewrite length_app in Hf.
    assert (Hi4 : (i / 4 < words)%nat).
    { apply Nat.Div0.div_lt_upper_bound. destruct o; cbn [opt_bytes length app] in Hw; lia. }
    destruct o as [|t l].
    + destruct (IH fuel d (u ++ [1]) hasmss (S i)) as (d' & R1 & R2 & R3);
        [rewrite length_app; cbn; lia|done|by rewrite <- app_assoc|rewrite length_app; lia|cbn [opt_bytes length] in Hw; lia|cbn [opt_bytes length] in Hf; lia|].
      exists d'. split; [by rewrite <- app_assoc in R1|]. split; [done|]. cbn [tcpmss_loop]. rewrite decide_True by done.
      rewrite (dg_byte pre d post u _ 0 1 (length pre + 40 + i) Hd Hs) by (done || lia). obind. cbn [Z.eqb is_mss orb]. apply R3.
    + destruct (tcpmss_opt_step pre d post u t l _ (length pre + 40) (S (S i)) hasmss Hd Hs Ho ltac:(lia)) as (d1 & R1 & R2 & R3).
      destruct (IH fuel d1 (u ++ opt_bytes (clamp (Opt t l))) (hasmss || is_mss (Opt t l)) (i + length (opt_bytes (Opt t l)))%nat)
        as (d' & G1 & G2 & G3).
      * rewrite length_app, clamp_length. lia.
      * done.
      * destruct R1 as (hc & sc & _ & _ & -> & _). cbn [set_checks with_s2 dg_s2]. by rewrite <- app_assoc.
      * rewrite length_app. lia.
      * lia.
      * cbn [opt_bytes length] in Hf. cbn in Hf. lia.
      * exists d'. split; [|split; [done|]].
        { eapply reshaped_trans; [exact R1|]. by rewrite <- app_assoc in G1 |- *. }
        destruct Ho as (O1 & O2 & O3).
        rewrite (tcpmss_loop_eq _ _ _ _ _ _ _ t (Z.of_nat (length l) + 2)); [|done| |lia|lia| |unfold TCP_MAX_OPTION_LEN; lia].
        -- rewrite R3. obind. rewrite orb_assoc, <- G3. f_equal. cbn [opt_bytes length app]. lia.
        -- rewrite (dg_byte pre d post u _ 0 t _ Hd Hs) by (done || lia). done.
        -- rewrite (dg_byte pre d post u _ 1 (Z.of_nat (length l) + 2) _ Hd Hs) by (done || lia). done.
Qed.

(** The Ethernet header, with an 802.1Q tag or without. *)
Definition eth_ok (eth : bytes) : Prop :=
  let type := be_val (take 2 (drop 12 eth)) in
  (length eth = PKT_ETH_HLEN /\ type <> PKT_ETH_PROTO_8021Q) \/ (length eth = (PKT_ETH_HLEN + 4)%nat /\ type = PKT_ETH_PROTO_8021Q).
Lemma sizeofeth_ok eth r : eth_ok eth -> sizeofeth (eth ++ r) = Done (length eth).
Proof.
  unfold eth_ok, sizeofeth, is_8021q. intros He.
  assert (get16 (eth ++ r) 12 = Done (be_val (take 2 (drop 12 eth)))) as ->.
  { apply (get16_app [] eth r 12). unfold PKT_ETH_HLEN in He. lia. }
  obind. destruct He as [[-> H]|[-> ->]]; [by rewrite (proj2 (Z.eqb_neq _ _) H)|done].
Qed.

Lemma sizeofudp_ok eth r : eth_ok eth -> sizeofudp (eth ++ r) = Done (length eth + 28)%nat.
Proof. intros He. unfold sizeofudp, sizeofip. rewrite sizeofeth_ok by done. obind. by rewrite <- Nat.add_assoc. Qed.

(** The datagram with a segment size option behind the options [opts]. *)
Definition insert_mss (d : datagram) (off : Z) (urg opts data : bytes) : datagram :=
  mk_dg (take 2 (dg_hd d) ++ be_bytes 2 (20 + dg_len d + 4) ++ drop 4 (dg_hd d)) (dg_hc d) (dg_addrs d)
        (take 12 (dg_s1 d) ++ [u8 (16 * (off + 1))] ++ drop 13 (dg_s1 d)) (dg_sc d)
        (urg ++ opts ++ [2; 4] ++ be_bytes 2 tcpmss ++ data).
Lemma insert_mss_len d off urg opts data :
  dg_ok PKT_IP_PROTO_TCP d -> dg_s2 d = urg ++ opts ++ data ->
  (length (dg_seg (insert_mss d off urg opts data)) = length (dg_seg d) + 4)%nat.
Proof.
  intros Hd Hs. pose proof (dg_tcp_s1 d Hd) as L1. unfold dg_seg. cbn [insert_mss dg_s1 dg_sc dg_s2].
  rewrite Hs, !length_app, length_take, length_drop, length_be_bytes, L1. cbn. lia.
Qed.
Lemma insert_mss_ok d off urg opts data :
  dg_ok PKT_IP_PROTO_TCP d -> dg_s2 d = urg ++ opts ++ data -> 20 + dg_len d + 4 <= PKT_BUFFER ->
  dg_ok PKT_IP_PROTO_TCP (insert_mss d off urg opts data).
Proof.
  intros Hd Hs Hm. pose proof (dg_tcp_s1 d Hd) as L1. pose proof (insert_mss_len d off _ _ _ Hd Hs) as Hlen. destruct Hd as [Hv Hp Ht _ Lhd Lhc La Lsc Hf Hu (B1 & B2 & B3 & B4)].
  assert (dg_len (insert_mss d off urg opts data) = dg_len d + 4) as Hl by (unfold dg_len; rewrite Hlen; lia).
  assert (length (take 2 (dg_hd d)) = 2%nat) as L2 by (rewrite length_take; lia).
  rewrite Hs in B4. apply Forall_app in B4 as [U1 B4]. apply Forall_app in B4 as [U2 U3].
  split; rewrite ?Hl; cbn [insert_mss dg_hd dg_hc dg_addrs dg_s1 dg_sc dg_s2]; try done.
  - rewrite lookup_app_l, lookup_take_lt by lia. done.
  - rewrite lookup_app_r, lookup_app_r, lookup_drop by (rewrite ?length_be_bytes; lia). rewrite L2, length_be_bytes. done.
  - rewrite drop_app_length', take_app_length' by (rewrite ?length_be_bytes; done). rewrite be_val2; [lia|].
    unfold dg_len, PKT_BUFFER in *. lia.
  - lia.
  - rewrite !length_app, length_be_bytes, L2, length_drop, Lhd. done.
  - rewrite Hf, !length_app, length_take, length_drop, L1. done.
  - repeat split; try done.
    + apply Forall_app; split; [by apply Forall_take|]. apply Forall_app; split; [apply is_bytes_be_bytes|by apply Forall_drop].
    + apply Forall_app; split; [by apply Forall_take|]. constructor; [apply u8_range|by apply Forall_drop].
    + do 2 (apply Forall_app; split; [done|]). do 2 (constructor; [done|]). apply Forall_app; split; [apply is_bytes_be_bytes|done].
Qed.

(** The writes that make room: [rest] is what lies behind the options. *)
Lemma insert_writes {R} (A B data pad st : bytes) x v a off0 dlen rd (cont : bytes -> result R) :
  (4 <= length st)%nat -> off0 = (length A + 1 + length B)%nat -> dlen = Z.of_nat (length (data ++ pad)) ->
  a = length A -> rd = Done (data ++ pad) ->
  (p ← memcpy (A ++ [x] ++ B ++ data ++ pad ++ st) a [v];
   p ← memcpy p off0 [2; 4];
   p ← put16 p (off0 + 2) tcpmss;
   p ← (if 0 <? dlen then d ← rd; memcpy p (off0 + 4) d else Done p);
   cont p)
  = cont (A ++ [v] ++ B ++ [2; 4] ++ be_bytes 2 tcpmss ++ data ++ pad ++ drop 4 st).
Proof.
  intros Hst -> -> -> ->. set (P := A ++ [v] ++ B). assert (HP : (length A + 1 + length B)%nat = length P) by (unfold P; rewrite !length_app; cbn; lia).
  rewrite memcpy_app by done. obind. replace (A ++ [v] ++ B ++ data ++ pad ++ st) with (P ++ data ++ pad ++ st) by (unfold P; by rewrite <- !app_assoc).
  rewrite HP. set (rest := data ++ pad ++ st). assert (Hr : (4 + length (data ++ pad) <= length rest)%nat) by (unfold rest; rewrite !length_app; lia).
  rewrite memcpy_over by (cbn; done || lia). obind. unfold put16. rewrite app_assoc.
  rewrite memcpy_over by (rewrite ?length_app, ?length_drop, ?length_be_bytes; cbn; lia). obind. rewrite length_be_bytes, drop_drop.
  change (length [2%Z; 4%Z] + 2)%nat with 4%nat. rewrite app_assoc. set (Q := (P ++ [2; 4]) ++ be_bytes 2 tcpmss).
  assert (HQ : (length P + 4)%nat = length Q) by (unfold Q; rewrite !length_app, length_be_bytes; cbn; lia).
  assert (Hd : Q ++ (data ++ pad) ++ drop (length (data ++ pad)) (drop 4 rest)
    = A ++ [v] ++ B ++ [2; 4] ++ be_bytes 2 tcpmss ++ data ++ pad ++ drop 4 st).
  { unfold Q, P, rest. rewrite drop_drop, (Nat.add_comm 4), (app_assoc data pad st), <- drop_drop, drop_app_length. by rewrite <- !app_assoc. }
  destruct (Z.ltb_spec 0 (Z.of_nat (length (data ++ pad)))) as [Hl|Hl].
  - obind. rewrite HQ, memcpy_over by (rewrite ?length_drop; lia). obind. by rewrite Hd.
  - rewrite <- Hd. obind. destruct (data ++ pad); [done|cbn in Hl; lia].
Qed.
Lemma tcpmss_insert_ok stack eth d pad room off urg opts data length_ :
  eth_ok eth -> dg_ok PKT_IP_PROTO_TCP d -> dg_s2 d = urg ++ opts ++ data -> length urg = 2%nat -> 5 <= off < 16 ->
  length opts = (4 * Z.to_nat (off - 5))%nat -> length_ = length (eth ++ dg_bytes d ++ pad) -> (length_ < 1400)%nat ->
  (length_ + 4 <= length stack)%nat -> (4 <= length room)%nat ->
  exists hc sc, length hc = 2%nat /\ length sc = 2%nat /\
    let d' := set_checks (insert_mss d off urg opts data) hc sc in dg_valid PKT_IP_PROTO_TCP d' /\
    tcpmss_insert e tcpmss stack (eth ++ dg_bytes d ++ pad ++ room) length_ (length eth + 20) off
      = Done (0, eth ++ dg_bytes d' ++ pad ++ drop 4 room, (length_ + 4)%nat).
Proof.
  intros He Hd Hs Hurg Hoff Hopts Hlen Hmax Hstack Hroom. pose proof (dg_tcp_s1 d Hd) as L1.
  set (st := drop length_ stack). assert (Hst : (4 <= length st)%nat) by (unfold st; rewrite length_drop; lia).
  assert (Hdlen : 20 + dg_len d + 4 <= PKT_BUFFER).
  { unfold PKT_BUFFER, dg_len. unfold dg_bytes in Hlen. rewrite !length_app in Hlen. lia. }
  pose proof (insert_mss_ok d off urg opts data Hd Hs Hdlen) as Hok.
  destruct (chksum_dg e _ eth (insert_mss d off urg opts data) (pad ++ drop 4 st) Hok) as (hc & sc & H1 & H2 & H3 & H4).
  exists hc, sc. split; [done|]. split; [done|]. split; [done|].
  set (A := eth ++ dg_ip d ++ take 12 (dg_s1 d)). set (B := drop 13 (dg_s1 d) ++ dg_sc d ++ urg ++ opts).
  destruct (lookup_lt_is_Some_2 (dg_s1 d) 12 ltac:(lia)) as [x Hx].
  assert (Hw : eth ++ dg_bytes d ++ pad ++ st = A ++ [x] ++ B ++ data ++ pad ++ st).
  { unfold A, B, dg_bytes, dg_seg. rewrite Hs. rewrite <- (take_drop_middle _ _ _ Hx) at 1. by repeat rewrite <- app_assoc. }
  assert (HA : length A = (length eth + 20 + 12)%nat).
  { unfold A, dg_ip. rewrite !length_app, (ok_hd _ _ Hd), (ok_hc _ _ Hd), (ok_addrs _ _ Hd), length_take, L1. cbn. lia. }
  assert (HB : (length A + 1 + length B = length eth + 20 + Z.to_nat (off * 4))%nat).
  { unfold B. rewrite HA, !length_app, length_drop, (ok_sc _ _ Hd), L1, Hurg, Hopts. lia. }
  assert (Hlen' : Z.of_nat length_ - Z.of_nat (length eth + 20) - off * 4 = Z.of_nat (length (data ++ pad))).
  { pose proof (f_equal length Hw) as Hl. rewrite (app_assoc (dg_bytes d)), (app_assoc eth), (length_app _ st), <- Hlen in Hl.
    rewrite !length_app in Hl. rewrite length_app. cbn [length] in Hl. lia. }
  unfold tcpmss_insert. replace (eth ++ dg_bytes d ++ pad ++ room) with ((eth ++ dg_bytes d ++ pad) ++ room) by (by repeat rewrite <- app_assoc).
  rewrite read_head by done. obind. rewrite (memcpy_over [] stack _ 0) by (cbn; lia). obind. cbn [app].
  rewrite <- Hlen. fold st. replace ((eth ++ dg_bytes d ++ pad) ++ st) with (eth ++ dg_bytes d ++ pad ++ st) by (by repeat rewrite <- app_assoc).
  unfold sizeofip. rewrite sizeofeth_ok by done. obind. rewrite Hw.
  assert (Hrd : read ((eth ++ dg_bytes d ++ pad) ++ room) (length eth + 20 + Z.to_nat (off * 4)) (length (data ++ pad)) = Done (data ++ pad)).
  { rewrite <- HB. replace ((eth ++ dg_bytes d ++ pad) ++ room) with ((A ++ [x] ++ B) ++ (data ++ pad) ++ room).
    - apply read_app; [rewrite !length_app; cbn; lia|done].
    - unfold A, B, dg_bytes, dg_seg. rewrite Hs. rewrite <- (take_drop_middle _ _ _ Hx) at 3. by repeat rewrite <- app_assoc. }
  rewrite Hlen', Nat2Z.id. rewrite (insert_writes A B data pad st x _ _ _ _ _ _ Hst (eq_sym HB) eq_refl (eq_sym HA) Hrd).
  set (v := u8 ((off + 1) <<ᵤ 4)).
  set (T := dg_hc d ++ dg_addrs d ++ (take 12 (dg_s1 d) ++ [v] ++ drop 13 (dg_s1 d)) ++ dg_sc d
            ++ (urg ++ opts ++ [2; 4] ++ be_bytes 2 tcpmss ++ data) ++ pad ++ drop 4 st).
  assert (A ++ [v] ++ B ++ [2; 4] ++ be_bytes 2 tcpmss ++ data ++ pad ++ drop 4 st = eth ++ dg_hd d ++ T) as ->.
  { unfold A, B, T, dg_ip. by repeat rewrite <- app_assoc. }
  assert (Hins : eth ++ dg_bytes (insert_mss d off urg opts data) ++ pad ++ drop 4 st
    = (eth ++ take 2 (dg_hd d)) ++ be_bytes 2 (20 + dg_len d + 4) ++ drop 4 (dg_hd d) ++ T).
  { unfold dg_bytes, dg_ip, dg_seg, insert_mss. cbn [dg_hd dg_hc dg_addrs dg_s1 dg_sc dg_s2].
    assert (u8 (16 * (off + 1)) = v) as -> by (unfold v; rewrite Z.shiftl_mul_pow2 by lia; f_equal; lia).
    unfold T. by repeat rewrite <- app_assoc. }
  rewrite get16_app, (ok_tot _ _ Hd) by (rewrite (ok_hd _ _ Hd); lia). obind.
  assert (put16 (eth ++ dg_hd d ++ T) (length eth + 2) (20 + dg_len d + 4)
    = Done (eth ++ dg_bytes (insert_mss d off urg opts data) ++ pad ++ drop 4 st)) as ->.
  { rewrite Hins. unfold put16. rewrite <- (take_drop 2 (dg_hd d)) at 1. rewrite <- (take_drop 2 (drop 2 (dg_hd d))), drop_drop.
    replace (eth ++ (take 2 (dg_hd d) ++ take 2 (drop 2 (dg_hd d)) ++ drop (2 + 2) (dg_hd d)) ++ T)
      with ((eth ++ take 2 (dg_hd d)) ++ take 2 (drop 2 (dg_hd d)) ++ drop 4 (dg_hd d) ++ T) by (by repeat rewrite <- app_assoc).
    rewrite memcpy_app; [done| |]; rewrite ?length_app, ?length_take, ?length_be_bytes, ?length_drop, ?(ok_hd _ _ Hd); cbn; lia. }
  obind. rewrite H4. obind. set (d' := set_checks _ hc sc).
  assert (Hl' : length (eth ++ dg_bytes d' ++ pad) = (length_ + 4)%nat).
  { pose proof (dg_ok_checks _ _ hc sc Hok H1 H2) as Hok'. fold d' in Hok'.
    pose proof (insert_mss_len d off _ _ _ Hd Hs) as Hi. rewrite Hlen, !length_app, (dg_length _ _ Hd), (dg_length _ _ Hok').
    assert (length (dg_seg d') = length (dg_seg (insert_mss d off urg opts data))) as ->; [|lia].
    unfold d', dg_seg. cbn [set_checks insert_mss dg_s1 dg_sc dg_s2]. rewrite !length_app, (ok_sc _ _ Hd). lia. }
  replace (eth ++ dg_bytes d' ++ pad ++ drop 4 st) with ((eth ++ dg_bytes d' ++ pad) ++ drop 4 st) by (by repeat rewrite <- app_assoc).
  rewrite read_head by done. obind. rewrite (memcpy_over [] ((eth ++ dg_bytes d ++ pad) ++ room) _ 0) by (rewrite ?Hl', ?(length_app _ room), <- ?Hlen; cbn; lia). obind. cbn [app].
  rewrite Hl', Hlen, <- drop_drop, drop_app_length. by repeat rewrite <- app_assoc.
Qed.

Lemma dg_s1_byte pre d post j x :
  dg_ok PKT_IP_PROTO_TCP d -> dg_s1 d !! j = Some x -> byte_at (pre ++ dg_bytes d ++ post) (length pre + 20 + j) = Done x.
Proof.
  intros Hd Hx. destruct (dg_cut1 _ pre d post [] (dg_s1 d) Hd eq_refl) as [-> Hl]. cbn [length] in Hl. rewrite Nat.add_0_r in Hl.
  rewrite <- Hl. by apply byte_at_app.
Qed.

Lemma shape_tcpmss_eq stack eth d pad room off low flags urg os tail data :
  eth_ok eth -> dg_ok PKT_IP_PROTO_TCP d ->
  dg_s1 d !! 12%nat = Some (16 * off + low) -> 0 <= low < 16 -> 5 <= off < 16 -> dg_s1 d !! 13%nat = Some flags ->
  dg_s2 d = urg ++ concat (map opt_bytes os) ++ tail ++ data -> length urg = 2%nat -> Forall opt_ok os ->
  head tail = None \/ head tail = Some 0 -> length (concat (map opt_bytes os) ++ tail) = (4 * Z.to_nat (off - 5))%nat ->
  let len := length (eth ++ dg_bytes d ++ pad) in
  exists d', reshaped d d' (urg ++ concat (map opt_bytes (map clamp os)) ++ tail ++ data) /\ dg_ok PKT_IP_PROTO_TCP d' /\
    pkt_shape_tcpmss e tcpmss scalewin stack (eth ++ dg_bytes d ++ pad ++ room) len =
      if negb (existsb is_mss os) && (Z.of_nat len <? 1400) && (flags &ᵤ TCPHDR_FLAG_SYN =? TCPHDR_FLAG_SYN)
      then tcpmss_insert e tcpmss stack (eth ++ dg_bytes d' ++ pad ++ room) len (length eth + 20) off
      else Done (0, eth ++ dg_bytes d' ++ pad ++ room, len).
Proof.
  intros He Hd H12 Hlow Hoff H13 Hs Hurg Hos Ht Hopts len.
  assert (Hloop : exists d', reshaped d d' (urg ++ concat (map opt_bytes (map clamp os)) ++ tail ++ data) /\ dg_ok PKT_IP_PROTO_TCP d' /\
    (if 5 <? off then tcpmss_loop e tcpmss scalewin (4 * Z.to_nat (off - 5) + 1) (eth ++ dg_bytes d ++ pad ++ room) (length eth)
       (length eth + 20 + 20) (Z.to_nat (off - 5)) 0 false else Done (true, eth ++ dg_bytes d ++ pad ++ room, false))
    = Done (true, eth ++ dg_bytes d' ++ pad ++ room, existsb is_mss os)).
  { destruct (Z.ltb_spec 5 off) as [H5|H5].
    - destruct (tcpmss_loop_ok eth (pad ++ room) (Z.to_nat (off - 5)) tail data os Hos Ht (4 * Z.to_nat (off - 5) + 1) d urg false 0)
        as (d' & R1 & R2 & R3); [by rewrite Hurg|done|done|lia|lia|rewrite length_app in Hopts; lia|].
      exists d'. split; [done|]. split; [done|]. rewrite <- Nat.add_assoc. apply R3.
    - replace (Z.to_nat (off - 5)) with 0%nat in Hopts by lia. apply length_zero_iff_nil, app_eq_nil in Hopts as [Ho ->].
      destruct os as [|o os]; [|destruct o; done]. exists d. split; [|done].
      pose proof (reshaped_same _ d Hd) as Hr. rewrite Hs in Hr. exact Hr. }
  destruct Hloop as (d' & R1 & R2 & R3). exists d'. split; [done|]. split; [done|]. unfold pkt_shape_tcpmss, sizeofip.
  rewrite sizeofeth_ok by done. obind. rewrite (dg_proto_at _ _ _ _ Hd). obind.
  change (PKT_IP_PROTO_TCP =? PKT_IP_PROTO_TCP) with true. cbv iota. rewrite (dg_s1_byte _ _ _ _ _ Hd H12). obind.
  assert ((16 * off + low) >>ᵤ 4 = off) as -> by (rewrite Z.shiftr_div_pow2 by lia; change (2 ^ 4) with 16; zdm).
  rewrite R3. obind. cbn [negb]. destruct R1 as (hc & sc & _ & _ & -> & _). by rewrite (dg_s1_byte _ _ _ _ flags R2) by done.
Qed.
End Options.

(** C33: on a TCP segment in order, whose options are well formed up to their end,
    [pkt_shape_tcpmss] lowers every announced segment size that is above the limit to
    the limit and (if the configuration says so) sets every window scale to 0. When a
    SYN of less than 1400 bytes announces no size, and its header has room for one more
    word, it inserts an option with the limit behind the options: the packet grows by 4
    bytes, as do the header and the length of the datagram. The other bytes stay, but
    for the checksums, which are right whenever anything was written. (A header of 15
    words without the option is left out: there the data offset wraps.) *)
Theorem pkt_shape_tcpmss_clamps e tcpmss scalewin stack eth d pad room off low flags urg os tail data :
  0 <= tcpmss < 65536 -> eth_ok eth -> dg_ok PKT_IP_PROTO_TCP d ->
  dg_s1 d !! 12%nat = Some (16 * off + low) -> 0 <= low < 16 -> 5 <= off < 16 -> dg_s1 d !! 13%nat = Some flags ->
  dg_s2 d = urg ++ concat (map opt_bytes os) ++ tail ++ data -> length urg = 2%nat -> Forall opt_ok os ->
  head tail = None \/ head tail = Some 0 -> length (concat (map opt_bytes os) ++ tail) = (4 * Z.to_nat (off - 5))%nat ->
  (1404 <= length stack)%nat -> (4 <= length room)%nat ->
  let len := length (eth ++ dg_bytes d ++ pad) in
  let opts := concat (map opt_bytes (map (clamp tcpmss scalewin) os)) ++ tail in
  let grows := negb (existsb is_mss os) && (Z.of_nat len <? 1400) && (flags &ᵤ TCPHDR_FLAG_SYN =? TCPHDR_FLAG_SYN) in
  (grows = true -> off < 15) ->
  exists d', reshaped d d' (urg ++ opts ++ data) /\
    if grows then
      exists hc sc, length hc = 2%nat /\ length sc = 2%nat /\
        let d'' := set_checks (insert_mss tcpmss d' off urg opts data) hc sc in
        dg_valid PKT_IP_PROTO_TCP d'' /\ dg_s1 d'' !! 12%nat = Some (16 * (off + 1)) /\
        pkt_shape_tcpmss e tcpmss scalewin stack (eth ++ dg_bytes d ++ pad ++ room) len
          = Done (0, eth ++ dg_bytes d'' ++ pad ++ drop 4 room, (len + 4)%nat)
    else
      pkt_shape_tcpmss e tcpmss scalewin stack (eth ++ dg_bytes d ++ pad ++ room) len
        = Done (0, eth ++ dg_bytes d' ++ pad ++ room, len).
Proof.
  intros Hm He Hd H12 Hlow Hoff H13 Hs Hurg Hos Ht Hopts Hst Hroom len opts grows Hgrows.
  destruct (shape_tcpmss_eq e tcpmss scalewin Hm stack eth d pad room off low flags urg os tail data) as (d' & R1 & R2 & R3); try done.
  rewrite (app_assoc _ tail data) in R1. fold opts in R1. exists d'. split; [done|]. fold len grows in R3. rewrite R3.
  destruct grows eqn:Hins; [|done]. specialize (Hgrows eq_refl). unfold grows in Hins. apply andb_prop in Hins as [Hins _]. apply andb_prop in Hins as [_ Hlt].
  apply Z.ltb_lt in Hlt. destruct R1 as (hc & sc & L1 & L2 & Hd' & _).
  assert (Hs2 : dg_s2 d' = urg ++ opts ++ data) by (by rewrite Hd').
  assert (Hol : length opts = (4 * Z.to_nat (off - 5))%nat) by (rewrite <- Hopts; unfold opts; by rewrite !length_app, clamp_lengths).
  destruct (tcpmss_insert_ok e tcpmss stack eth d' pad room off urg opts data len) as (hc' & sc' & H1 & H2 & H3 & H4); try done; try lia.
  2: { exists hc', sc'. split; [done|]. split; [done|]. split; [done|]. split; [|done]. cbn [set_checks insert_mss dg_s1].
       pose proof (dg_tcp_s1 d' R2) as Ls1. rewrite lookup_app_r, length_take by (rewrite length_take; lia).
       rewrite u8_small by (unfold is_u8, in_w; lia). by replace (12 - _)%nat with 0%nat by lia. }
  unfold len. rewrite !length_app, (dg_length _ _ Hd), (dg_length _ _ R2).
  unfold dg_seg. rewrite Hs2, Hs, Hd'. cbn [set_checks with_s2 dg_s1 dg_sc]. unfold opts.
  rewrite !length_app, clamp_lengths, L2, (ok_sc _ _ Hd). lia.
Qed.

(** *** A UDP datagram to 10.1.0.1 with the payload "hello" *)
Definition dg_example : datagram :=
  mk_dg [0x45; 0; 0; 33; 0; 1; 0; 0; 64; 17] [9; 9] [10; 1; 0; 2; 10; 1; 0; 1]
        [0; 53; 192; 0; 0; 13] [7; 7] [104; 101; 108; 108; 111].
Lemma dg_example_ok : dg_ok 17 dg_example.
Proof. split; try done. repeat split; repeat constructor; done. Qed.
Lemma chksum_valid_witness : exists hc sc, length hc = 2%nat /\ length sc = 2%nat /\ dg_valid 17 (set_checks dg_example hc sc) /\
  chksum LE ([1; 2] ++ dg_bytes dg_example ++ [3]) 2 = Done (0, [1; 2] ++ dg_bytes (set_checks dg_example hc sc) ++ [3]).
Proof. apply (chksum_valid LE 17 [1; 2] dg_example [3]). apply dg_example_ok. Defined.

(** *** An ICMPv6 echo request *)
Definition ip6_example : bytes := [0x60; 0; 0; 0; 0; 8; 58; 64] ++ replicate 15 0 ++ [1] ++ replicate 15 0 ++ [2].
Lemma chksum6_valid_witness : exists v, length v = 2%nat /\
  chksum6 BE ([] ++ ip6_example ++ ([128; 0] ++ [5; 5] ++ [0; 1; 0; 2]) ++ []) 0
    = Done ([] ++ ip6_example ++ ([128; 0] ++ v ++ [0; 1; 0; 2]) ++ []) /\
  (be_sum (pseudo6 ip6_example 8 58) + be_sum ([128; 0] ++ v ++ [0; 1; 0; 2])) mod 65535 = 0.
Proof.
  apply (chksum6_valid BE [] ip6_example [128; 0] [5; 5] [0; 1; 0; 2] [] 8 58); try done; repeat constructor; done.
Defined.

(** *** A SYN that announces a window of 64240 bytes and, as it is, no segment size *)
Definition syn_example : datagram :=
  mk_dg [0x45; 0; 0; 40; 0; 1; 0; 0; 64; 6] [9; 9] [10; 1; 0; 2; 10; 1; 0; 1]
        [192; 0; 0; 80; 0; 0; 0; 1; 0; 0; 0; 0; 0x50; 2; 250; 240] [7; 7] [0; 0].
Lemma syn_example_ok : dg_ok PKT_IP_PROTO_TCP syn_example.
Proof. split; try done. repeat split; repeat constructor; done. Qed.
Lemma pkt_shape_tcpwin_caps_witness : exists hc sc, length hc = 2%nat /\ length sc = 2%nat /\
  let d' := set_checks (with_s1 syn_example (take 14 (dg_s1 syn_example) ++ be_bytes 2 1000)) hc sc in
  pkt_shape_tcpwin LE ([] ++ dg_bytes syn_example ++ [3]) 0 1000 = Done ([] ++ dg_bytes d' ++ [3]) /\
  dg_valid PKT_IP_PROTO_TCP d' /\ be_val (drop 14 (dg_s1 d')) = 1000.
Proof. apply (pkt_shape_tcpwin_caps LE [] syn_example [3] 1000); [apply syn_example_ok|done]. Defined.

Definition eth_example : bytes := replicate 12 0 ++ [8; 0].
Lemma pkt_shape_tcpmss_clamps_witness : exists d', reshaped syn_example d' [0; 0] /\
  exists hc sc, length hc = 2%nat /\ length sc = 2%nat /\
    let d'' := set_checks (insert_mss 1400 d' 5 [0; 0] [] []) hc sc in
    dg_valid PKT_IP_PROTO_TCP d'' /\ dg_s1 d'' !! 12%nat = Some 0x60 /\
    pkt_shape_tcpmss LE 1400 false (replicate 5000 0) (eth_example ++ dg_bytes syn_example ++ [] ++ [1; 2; 3; 4]) 54
      = Done (0, eth_example ++ dg_bytes d'' ++ [] ++ [], 58%nat).
Proof.
  apply (pkt_shape_tcpmss_clamps LE 1400 false (replicate 5000 0) eth_example syn_example [] [1; 2; 3; 4] 5 0 2 [0; 0] [] [] []);
    try done; try apply syn_example_ok; try (by left); rewrite ?length_replicate; cbn; lia.
Defined.
End Pkt.
