(* ===== verification/Session.v ===== *)
(** * Sessions of the hotspot daemon ([package/coova-chilli/src/src/chilli.c])

    A subscriber's session: its limits, the bucket that shapes its traffic, the octets
    counted, and the accounting requests sent when it starts, goes on and ends.  A
    request is the event [Account] with the attributes added to it; [acct_packet] is
    what the functions of [RadiusQueue] and [Radius] make of them.  The DHCP
    connection behind a session is its authentication state.  The clock, the
    statistics script, system information and address conversion are arguments. *)

From S2P Require Import Prelude CLib Mem Chains Md5 Radius RadiusQueue.

Module Session.
Import Mem Radius.

Definition u64 (x : Z) : Z := x mod 2 ^ 64.

Definition BUCKET_TIME : Z := 1.
Definition BUCKET_SIZE_MIN : Z := 5000.

Definition DNPROT_NULL : Z := 1.
Definition DNPROT_DHCP_NONE : Z := 2.
Definition DNPROT_UAM : Z := 3.
Definition DNPROT_WPA : Z := 4.
Definition DNPROT_MAC : Z := 6.

Definition DHCP_AUTH_NONE : Z := 0.
Definition DHCP_AUTH_PASS : Z := 2.
Definition DHCP_AUTH_DNAT : Z := 5.
Definition DHCP_AUTH_SPLASH : Z := 6.

(** Flags of a session. *)
Definition REQUIRE_UAM_AUTH : Z := 2 ^ 0.
Definition REQUIRE_UAM_SPLASH : Z := 2 ^ 1.
Definition IS_UAM_REAUTH : Z := 2 ^ 3.
Definition NO_ACCOUNTING : Z := 2 ^ 4.
Definition NO_SCRIPT : Z := 2 ^ 5.
Definition UAM_CLEAR_URL : Z := 2 ^ 8.

Definition RADIUS_STATUS_TYPE_START : Z := 1.
Definition RADIUS_STATUS_TYPE_STOP : Z := 2.
Definition RADIUS_STATUS_TYPE_INTERIM_UPDATE : Z := 3.
Definition RADIUS_STATUS_TYPE_ACCOUNTING_ON : Z := 7.
Definition RADIUS_STATUS_TYPE_ACCOUNTING_OFF : Z := 8.
Definition RADIUS_TERMINATE_CAUSE_LOST_CARRIER : Z := 2.
Definition RADIUS_TERMINATE_CAUSE_IDLE_TIMEOUT : Z := 4.
Definition RADIUS_TERMINATE_CAUSE_SESSION_TIMEOUT : Z := 5.
Definition RADIUS_TERMINATE_CAUSE_NAS_REBOOT : Z := 11.
Definition RADIUS_SERVICE_TYPE_ADMIN_USER : Z := 6.

(** Numbers of attributes. *)
Definition RADIUS_ATTR_USER_NAME : Z := 1.
Definition RADIUS_ATTR_NAS_IP_ADDRESS : Z := 4.
Definition RADIUS_ATTR_NAS_PORT : Z := 5.
Definition RADIUS_ATTR_SERVICE_TYPE : Z := 6.
Definition RADIUS_ATTR_FRAMED_IP_ADDRESS : Z := 8.
Definition RADIUS_ATTR_STATE : Z := 24.
Definition RADIUS_ATTR_CLASS : Z := 25.
Definition RADIUS_ATTR_CALLED_STATION_ID : Z := 30.
Definition RADIUS_ATTR_CALLING_STATION_ID : Z := 31.
Definition RADIUS_ATTR_NAS_IDENTIFIER : Z := 32.
Definition RADIUS_ATTR_ACCT_STATUS_TYPE : Z := 40.
Definition RADIUS_ATTR_ACCT_INPUT_OCTETS : Z := 42.
Definition RADIUS_ATTR_ACCT_OUTPUT_OCTETS : Z := 43.
Definition RADIUS_ATTR_ACCT_SESSION_ID : Z := 44.
Definition RADIUS_ATTR_ACCT_SESSION_TIME : Z := 46.
Definition RADIUS_ATTR_ACCT_INPUT_PACKETS : Z := 47.
Definition RADIUS_ATTR_ACCT_OUTPUT_PACKETS : Z := 48.
Definition RADIUS_ATTR_ACCT_TERMINATE_CAUSE : Z := 49.
Definition RADIUS_ATTR_ACCT_INPUT_GIGAWORDS : Z := 52.
Definition RADIUS_ATTR_ACCT_OUTPUT_GIGAWORDS : Z := 53.
Definition RADIUS_ATTR_NAS_PORT_TYPE : Z := 61.
Definition RADIUS_ATTR_NAS_PORT_ID : Z := 87.
Definition RADIUS_ATTR_CHARGEABLE_USER_IDENTITY : Z := 89.
Definition RADIUS_VENDOR_CHILLISPOT : Z := 14559.
Definition RADIUS_ATTR_CHILLISPOT_ORIGINALURL : Z := 9.
Definition RADIUS_ATTR_CHILLISPOT_VLAN_ID : Z := 24.
Definition RADIUS_ATTR_CHILLISPOT_SYS_UPTIME : Z := 40.
Definition RADIUS_ATTR_CHILLISPOT_SYS_LOADAVG : Z := 41.
Definition RADIUS_ATTR_CHILLISPOT_SYS_MEMORY : Z := 42.
Definition RADIUS_VENDOR_WISPR : Z := 14122.
Definition RADIUS_ATTR_WISPR_LOCATION_ID : Z := 1.
Definition RADIUS_ATTR_WISPR_LOCATION_NAME : Z := 2.
Definition PKT_8021Q_MASK_VID (e : endian) : Z := htons e 0x0FFF.

(** ** Data *)

(** The options these functions read. *)
Record options := Options {
  bwbucketupsize : Z; bwbucketdnsize : Z; bwbucketminsize : Z;
  smsotpmode : Z; macmode : Z; dhcpif : option bytes;
  defsessiontimeout : Z; defidletimeout : Z; defbandwidthmaxdown : Z; defbandwidthmaxup : Z;
  definteriminterval : Z; defmaxinputoctets : Z; defmaxoutputoctets : Z; defdatainterval : Z; defstartpoint : Z;
  conup : option bytes; condown : option bytes; swapoctets : bool;
  radiusoriginalurl : bool; ieee8021q : bool; radiusnasporttype : Z;
  radiusnasid : option bytes; radiuslocationid : option bytes; radiuslocationname : option bytes;
  nasmac : option bytes; nasip : option bytes; radiuslisten : Z; uamlisten : Z;
}.

(** [struct session_params], less the filter and the interface number. *)
Record session_params := Params {
  url : bytes; filterid : bytes; bandwidthmaxup : Z; bandwidthmaxdown : Z; maxinputoctets : Z; maxoutputoctets : Z;
  start_point : Z; data_interval : Z; maxtotaloctets : Z; sessiontimeout : Z; idletimeout : Z;
  interim_interval : Z; sessionterminatetime : Z; flags : Z;
}.

(** [struct session_state] in groups.  A buffer with its length is the bytes in use. *)
Record redir_state := Redir { username : bytes; userurl : bytes; classbuf : bytes; cuibuf : bytes; statebuf : bytes }.
Record times := Times { start_time : Z; interim_time : Z; last_sent_time : Z; last_time : Z }.
Record octets := Octets {
  input_packets : Z; output_packets : Z; input_octets : Z; input_octets_session : Z;
  output_octets_session : Z; output_octets : Z;
}.
Record bucket := Bucket { bucketup : Z; bucketdown : Z; bucketupsize : Z; bucketdownsize : Z }.
Record session_state := State {
  redir : redir_state; authenticated : Z; sessionid : bytes; clock : times; count : octets;
  terminate_cause : Z; tag8021q : Z; buckets : bucket;
}.

(** [struct app_conn_t]: the links and the key of the list of connections, and the
    session.  [dnlink] is the authentication state of the DHCP connection it points
    to, [None] for the null pointer. *)
Record app_conn := Conn {
  next : option nat; prev : option nat; inuse : bool; is_adminsession : bool; unit_ : Z; dnprot : Z; rt : Z;
  dnlink : option Z; nasip_ : Z; nasport : Z; hismac : bytes; hisip : Z;
  s_params : session_params; s_state : session_state;
}.

(** One call of [radius_addattr]. *)
Record addattr := Add { ad_type : Z; ad_vendor : Z; ad_vtype : Z; ad_value : Z; ad_data : option bytes; ad_len : Z }.

(** Calls out of the session: an accounting request, a script with the reason it is
    run, the answer to an access point, addresses of the DHCP connection. *)
Inductive event :=
| Account (status : Z) (attrs : list addattr)
| Runscript (script : bytes)
| Access_accept
| Set_addrs (hisip : Z).

(** *** Assignments *)

Definition set_state (f : session_state -> session_state) (c : app_conn) : app_conn :=
  Conn (next c) (prev c) (inuse c) (is_adminsession c) (unit_ c) (dnprot c) (rt c) (dnlink c) (nasip_ c) (nasport c)
    (hismac c) (hisip c) (s_params c) (f (s_state c)).
Definition set_params (f : session_params -> session_params) (c : app_conn) : app_conn :=
  Conn (next c) (prev c) (inuse c) (is_adminsession c) (unit_ c) (dnprot c) (rt c) (dnlink c) (nasip_ c) (nasport c)
    (hismac c) (hisip c) (f (s_params c)) (s_state c).
Definition set_dnlink (v : option Z) (c : app_conn) : app_conn :=
  Conn (next c) (prev c) (inuse c) (is_adminsession c) (unit_ c) (dnprot c) (rt c) v (nasip_ c) (nasport c)
    (hismac c) (hisip c) (s_params c) (s_state c).
Definition set_dnprot (v : Z) (c : app_conn) : app_conn :=
  Conn (next c) (prev c) (inuse c) (is_adminsession c) (unit_ c) v (rt c) (dnlink c) (nasip_ c) (nasport c)
    (hismac c) (hisip c) (s_params c) (s_state c).
Definition set_rt (v : Z) (c : app_conn) : app_conn :=
  Conn (next c) (prev c) (inuse c) (is_adminsession c) (unit_ c) (dnprot c) v (dnlink c) (nasip_ c) (nasport c)
    (hismac c) (hisip c) (s_params c) (s_state c).

Definition set_authenticated (v : Z) (s : session_state) : session_state :=
  State (redir s) v (sessionid s) (clock s) (count s) (terminate_cause s) (tag8021q s) (buckets s).
Definition set_redir (f : redir_state -> redir_state) (s : session_state) : session_state :=
  State (f (redir s)) (authenticated s) (sessionid s) (clock s) (count s) (terminate_cause s) (tag8021q s) (buckets s).
Definition set_id (v : bytes) (s : session_state) : session_state :=
  State (redir s) (authenticated s) v (clock s) (count s) (terminate_cause s) (tag8021q s) (buckets s).
Definition set_clock (f : times -> times) (s : session_state) : session_state :=
  State (redir s) (authenticated s) (sessionid s) (f (clock s)) (count s) (terminate_cause s) (tag8021q s) (buckets s).
Definition set_count (f : octets -> octets) (s : session_state) : session_state :=
  State (redir s) (authenticated s) (sessionid s) (clock s) (f (count s)) (terminate_cause s) (tag8021q s) (buckets s).
Definition set_cause (v : Z) (s : session_state) : session_state :=
  State (redir s) (authenticated s) (sessionid s) (clock s) (count s) v (tag8021q s) (buckets s).
Definition set_buckets (f : bucket -> bucket) (s : session_state) : session_state :=
  State (redir s) (authenticated s) (sessionid s) (clock s) (count s) (terminate_cause s) (tag8021q s) (f (buckets s)).
Definition set_flags (v : Z) (p : session_params) : session_params :=
  Params (url p) (filterid p) (bandwidthmaxup p) (bandwidthmaxdown p) (maxinputoctets p) (maxoutputoctets p) (start_point p)
    (data_interval p) (maxtotaloctets p) (sessiontimeout p) (idletimeout p) (interim_interval p) (sessionterminatetime p) v.
Definition set_url (v : bytes) (p : session_params) : session_params :=
  Params v (filterid p) (bandwidthmaxup p) (bandwidthmaxdown p) (maxinputoctets p) (maxoutputoctets p) (start_point p)
    (data_interval p) (maxtotaloctets p) (sessiontimeout p) (idletimeout p) (interim_interval p) (sessionterminatetime p) (flags p).
Definition set_sessiontimeout (v : Z) (p : session_params) : session_params :=
  Params (url p) (filterid p) (bandwidthmaxup p) (bandwidthmaxdown p) (maxinputoctets p) (maxoutputoctets p) (start_point p)
    (data_interval p) (maxtotaloctets p) v (idletimeout p) (interim_interval p) (sessionterminatetime p) (flags p).

Definition set_last_time (v : Z) (t : times) : times := Times (start_time t) (interim_time t) (last_sent_time t) v.
Definition set_last_sent_time (v : Z) (t : times) : times := Times (start_time t) (interim_time t) v (last_time t).
Definition set_interim_time (v : Z) (t : times) : times := Times (start_time t) v (last_sent_time t) (last_time t).
Definition set_bucketup (v : Z) (b : bucket) : bucket := Bucket v (bucketdown b) (bucketupsize b) (bucketdownsize b).
Definition set_bucketdown (v : Z) (b : bucket) : bucket := Bucket (bucketup b) v (bucketupsize b) (bucketdownsize b).
(** A packet of [len] octets in one of the two directions. *)
Definition count_input (len : Z) (o : octets) : octets :=
  Octets (u64 (input_packets o + 1)) (output_packets o) (u64 (input_octets o + len)) (u64 (input_octets_session o + len))
    (output_octets_session o) (output_octets o).
Definition count_output (len : Z) (o : octets) : octets :=
  Octets (input_packets o) (u64 (output_packets o + 1)) (input_octets o) (input_octets_session o)
    (u64 (output_octets_session o + len)) (u64 (output_octets o + len)).

(** Shorthands for the members. *)
Definition conn_buckets (c : app_conn) : bucket := buckets (s_state c).
Definition conn_count (c : app_conn) : octets := count (s_state c).
Definition conn_clock (c : app_conn) : times := clock (s_state c).
Definition has_flag (c : app_conn) (f : Z) : bool := negb (Z.land (flags (s_params c)) f =? 0).
Definition clear_flag (f : Z) (c : app_conn) : app_conn :=
  set_params (fun p => set_flags (u16 (Z.land (flags p) (Z.lnot f))) p) c.

(** ** Clock *)

Definition mainclock_diff (mainclock past : Z) : Z := s32 (mainclock - past).
Definition mainclock_diffu (mainclock past : Z) : Z :=
  let i := mainclock_diff mainclock past in if 0 <? i then i else 0.

Section Session.
Context (o : options).

(** ** Traffic shaping *)

(** The size of one of the buckets. *)
Definition bucket_size (configured bandwidth : Z) : Z :=
  if negb (configured =? 0) then configured
  else
    let size := u64 (bandwidth / 8 * BUCKET_TIME) in
    if size <? BUCKET_SIZE_MIN then BUCKET_SIZE_MIN else size.
Definition at_least_min (size : Z) : Z :=
  if (0 <? bwbucketminsize o) && (size <? bwbucketminsize o) then bwbucketminsize o else size.
Definition leaky_bucket_init (c : app_conn) : app_conn :=
  set_state (set_buckets (fun b =>
    Bucket (bucketup b) (bucketdown b)
      (at_least_min (bucket_size (bwbucketupsize o) (bandwidthmaxup (s_params c))))
      (at_least_min (bucket_size (bwbucketdnsize o) (bandwidthmaxdown (s_params c)))))) c.

(** The level after [bytes] have leaked out. *)
Definition leak (level bytes : Z) : Z := if bytes <? level then level - bytes else 0.

(** The return value and the connection. *)
Definition leaky_bucket (mainclock : Z) (c : app_conn) (octetsup octetsdown : Z) : Z * app_conn :=
  let timediff := mainclock_diffu mainclock (last_time (conn_clock c)) in
  let '(res, c) :=
    if negb (bandwidthmaxup (s_params c) =? 0) then
      let bytes := u64 (timediff * bandwidthmaxup (s_params c)) / 8 in
      let c := if bucketupsize (conn_buckets c) =? 0 then leaky_bucket_init c else c in
      let level := leak (bucketup (conn_buckets c)) bytes in
      if bucketupsize (conn_buckets c) <? u64 (level + octetsup)
      then (-1, set_state (set_buckets (set_bucketup level)) c)
      else (0, set_state (set_buckets (set_bucketup (u64 (level + octetsup)))) c)
    else (0, c) in
  let '(res, c) :=
    if negb (bandwidthmaxdown (s_params c) =? 0) then
      let bytes := u64 (timediff * bandwidthmaxdown (s_params c)) / 8 in
      let c := if bucketdownsize (conn_buckets c) =? 0 then leaky_bucket_init c else c in
      let level := leak (bucketdown (conn_buckets c)) bytes in
      if bucketdownsize (conn_buckets c) <? u64 (level + octetsdown)
      then (-1, set_state (set_buckets (set_bucketdown level)) c)
      else (res, set_state (set_buckets (set_bucketdown (u64 (level + octetsdown)))) c)
    else (res, c) in
  (res, set_state (set_clock (set_last_time mainclock)) c).

(** ** Accounting of traffic *)

(** A packet is counted for the session and, while it is authenticated, for the
    administrative one. *)
Definition count_admin (f : octets -> octets) (admin : app_conn) : app_conn :=
  if negb (authenticated (s_state admin) =? 0) then set_state (set_count f) admin else admin.
(** [admin_session.s_state.input_octets_session += len], and the counters of the
    session but for that one. *)
Definition add_input_session (len : Z) (o : octets) : octets :=
  Octets (input_packets o) (output_packets o) (input_octets o) (u64 (input_octets_session o + len))
    (output_octets_session o) (output_octets o).
Definition count_input_swapped (len : Z) (o : octets) : octets :=
  Octets (u64 (input_packets o + 1)) (output_packets o) (u64 (input_octets o + len)) (input_octets_session o)
    (output_octets_session o) (output_octets o).

(** The return value, the connection and the administrative session. *)
Definition chilli_acct_fromsub (mainclock : Z) (c admin : app_conn) (tot_len : Z) : Z * app_conn * app_conn :=
  let len := tot_len in
  let c := set_state (set_clock (set_last_sent_time mainclock)) c in
  if authenticated (s_state c) =? 1 then
    let '(r, c) := leaky_bucket mainclock c len 0 in
    if negb (r =? 0) then (1, c, admin)
    else if swapoctets o then
      (0, set_state (set_count (count_input_swapped len)) c,
       count_admin (count_input len) (set_state (set_count (add_input_session len)) admin))
    else (0, set_state (set_count (count_output len)) c, count_admin (count_output len) admin)
  else (0, c, admin).
Definition chilli_acct_tosub (mainclock : Z) (c admin : app_conn) (tot_len : Z) : Z * app_conn * app_conn :=
  let len := tot_len in
  if authenticated (s_state c) =? 1 then
    let '(r, c) := leaky_bucket mainclock c 0 len in
    if negb (r =? 0) then (1, c, admin)
    else if swapoctets o then (0, set_state (set_count (count_output len)) c, count_admin (count_output len) admin)
    else (0, set_state (set_count (count_input len)) c, count_admin (count_input len) admin)
  else (0, c, admin).

(** ** The statistics script *)

Context (popen : bytes -> option (option bytes)).

(** [popen] runs a command: [None] when it cannot be started, otherwise what [fgets]
    stores of its output.  At the end of the output [fgets] stores nothing and the
    text that is then read is not initialised. *)
Definition script_line (command : bytes) : option (result bytes) :=
  match popen command with
  | None => None
  | Some None => Some Fault
  | Some (Some line) => Some (Done line)
  end.
(** The text up to a colon or the end of the line, and what follows it. *)
Fixpoint field (s : bytes) : bytes * bytes :=
  match s with
  | [] => ([], [])
  | c :: s' => if (c =? 58) || (c =? 10) then ([], s) else let '(f, r) := field s' in (c :: f, r)
  end.
Definition skip_colon (s : bytes) : bytes := match s with c :: s' => if c =? 58 then s' else s | [] => [] end.
(** [%d] of an unsigned member. *)
Definition d32 (x : Z) : bytes := print_dec (s32 x).
Definition sp : bytes := str " ".
Definition check_command (verb who : bytes) (interface : bytes) (interval start : Z) : bytes :=
  str "/usr/sbin/statistics " ++ verb ++ sp ++ who ++ sp ++ interface ++ sp ++ d32 interval ++ sp ++ d32 start ++ str " 2>&1".

(** Text for download and upload when the script was run. *)
Definition check_user (user : bytes) (p : session_params) : result (option (bytes * bytes)) :=
  match dhcpif o with
  | None => Done None
  | Some ifname =>
    if start_point p =? 0 then Done None
    else
      let script :=
        if negb (maxinputoctets p =? 0) then
          Some (check_command (str "check") user ifname (data_interval p) (start_point p))
        else if negb (defmaxinputoctets o =? 0) && negb (defmaxoutputoctets o =? 0) then
          Some (check_command (str "check") user ifname (defdatainterval o) (defstartpoint o))
        else None in
      match script with
      | None => Done None
      | Some script =>
        match script_line script with
        | None => Done None
        | Some line =>
          line ← line;
          let '(download, pl) := field line in
          let '(upload, _) := field (skip_colon pl) in
          Done (Some (download, upload))
        end
      end
  end.

Definition hex2 (b : Z) : bytes := print_hex true 2 b.
(** [%.2X-%.2X-...] *)
Fixpoint dashed (mac : bytes) : bytes :=
  match mac with
  | [] => []
  | [b] => hex2 b
  | b :: mac' => hex2 b ++ str "-" ++ dashed mac'
  end.
(** Text for download, upload and time. *)
Definition check_mac (mac : bytes) : result (option (bytes * bytes * bytes)) :=
  ifname ← access (dhcpif o);
  let script := check_command (str "check_mac_all") (dashed mac) ifname (defdatainterval o) (defstartpoint o) in
  match script_line script with
  | None => Done None
  | Some line =>
    line ← line;
    let '(download, pl) := field line in
    let '(upload, pl) := field (skip_colon pl) in
    let '(time, _) := field (skip_colon pl) in
    Done (Some (download, upload, time))
  end.

(** ** Accounting requests *)

Context (e : endian) (inet_aton : bytes -> option Z) (nas_hwaddr : bytes).
(** [sysinfo]: the time since the start, and the texts printed for load and memory. *)
Context (sysinfo : option (Z * bytes * bytes)).

Definition int_attr (type value : Z) : addattr := Add type 0 0 value None 0.
Definition text_attr (type : Z) (s : bytes) : addattr := Add type 0 0 0 (Some s) (Z.of_nat (length s)).
Definition vsa_int (vendor type value : Z) : addattr := Add RADIUS_ATTR_VENDOR_SPECIFIC vendor type value None 0.
Definition vsa_text (vendor type : Z) (s : bytes) : addattr :=
  Add RADIUS_ATTR_VENDOR_SPECIFIC vendor type 0 (Some s) (Z.of_nat (length s)).
(** What is added when a condition holds, and for a string that is set. *)
Definition when (b : bool) (l : list addattr) : list addattr := if b then l else [].
Definition when_set (s : option bytes) (f : bytes -> addattr) : list addattr := match s with Some s => [f s] | None => [] end.

(** [%.8d] *)
Definition print_dec8 (n : Z) : bytes :=
  let d := print_nat false 10 (Z.abs n) in
  (if n <? 0 then [45] else []) ++ replicate (8 - length d) 48 ++ d.

Definition radius_addcalledstation : list addattr :=
  [text_attr RADIUS_ATTR_CALLED_STATION_ID (match nasmac o with Some mac => mac | None => dashed nas_hwaddr end)].
Definition radius_addnasip : list addattr :=
  let paddr := match nasip o with Some (c :: s) => inet_aton (c :: s) | _ => None end in
  let paddr := match paddr with
               | Some a => a
               | None => if negb (radiuslisten o =? 0) then radiuslisten o else uamlisten o
               end in
  [int_attr RADIUS_ATTR_NAS_IP_ADDRESS (ntohl e paddr)].

(** For a packet with this code, on behalf of a user ([ACCT_USER]). *)
Definition chilli_req_attrs (code service_type status_type port : Z) (mac : bytes) (ip : Z) (state : session_state)
    : list addattr :=
  when ((code =? RADIUS_CODE_ACCESS_REQUEST) && radiusoriginalurl o && negb (bool_decide (userurl (redir state) = [])))
    [vsa_text RADIUS_VENDOR_CHILLISPOT RADIUS_ATTR_CHILLISPOT_ORIGINALURL (userurl (redir state))] ++
  when (negb (service_type =? 0)) [int_attr RADIUS_ATTR_SERVICE_TYPE service_type] ++
  when (negb (status_type =? 0)) [int_attr RADIUS_ATTR_ACCT_STATUS_TYPE status_type] ++
  when (ieee8021q o && negb (tag8021q state =? 0))
    [vsa_int RADIUS_VENDOR_CHILLISPOT RADIUS_ATTR_CHILLISPOT_VLAN_ID
       (ntohs e (u16 (Z.land (tag8021q state) (PKT_8021Q_MASK_VID e))))] ++
  when (negb (bool_decide (sessionid state = []))) [text_attr RADIUS_ATTR_ACCT_SESSION_ID (sessionid state)] ++
  when (negb (bool_decide (classbuf (redir state) = []))) [text_attr RADIUS_ATTR_CLASS (classbuf (redir state))] ++
  when (1 <? Z.of_nat (length (cuibuf (redir state))))
    [text_attr RADIUS_ATTR_CHARGEABLE_USER_IDENTITY (cuibuf (redir state))] ++
  when (negb (bool_decide (statebuf (redir state) = []))) [text_attr RADIUS_ATTR_STATE (statebuf (redir state))] ++
  when (negb (ip =? 0)) [int_attr RADIUS_ATTR_FRAMED_IP_ADDRESS (ntohl e ip)] ++
  [int_attr RADIUS_ATTR_NAS_PORT_TYPE (u32 (radiusnasporttype o))] ++
  when (negb (port =? 0)) [int_attr RADIUS_ATTR_NAS_PORT port; text_attr RADIUS_ATTR_NAS_PORT_ID (print_dec8 (s32 port))] ++
  [text_attr RADIUS_ATTR_CALLING_STATION_ID (dashed mac)] ++
  radius_addcalledstation ++
  radius_addnasip ++
  when_set (radiusnasid o) (text_attr RADIUS_ATTR_NAS_IDENTIFIER) ++
  when_set (radiuslocationid o) (vsa_text RADIUS_VENDOR_WISPR RADIUS_ATTR_WISPR_LOCATION_ID) ++
  when_set (radiuslocationname o) (vsa_text RADIUS_VENDOR_WISPR RADIUS_ATTR_WISPR_LOCATION_NAME).

(** The statistics of earlier sessions, when a session starts.  [time] has no value
    when only the user was looked up. *)
Definition earlier_usage (c : app_conn) : result (option (bytes * bytes * option bytes)) :=
  if negb (smsotpmode o =? 0) || negb (macmode o =? 0) then
    r ← check_mac (hismac c);
    Done (match r with Some (download, upload, time) => Some (download, upload, Some time) | None => None end)
  else
    r ← check_user (username (redir (s_state c))) (s_params c);
    Done (match r with Some (download, upload) => Some (download, upload, None) | None => None end).
Definition add_usage (c : app_conn) : result app_conn :=
  r ← earlier_usage c;
  match r with
  | None => Done c
  | Some (download, upload, time) =>
    let c := if negb (maxinputoctets (s_params c) =? 0)
             then set_state (set_count (fun n => Octets (input_packets n) (output_packets n) (u64 (atoi download))
                    (input_octets_session n) (output_octets_session n) (output_octets n))) c else c in
    let c := if negb (maxoutputoctets (s_params c) =? 0)
             then set_state (set_count (fun n => Octets (input_packets n) (output_packets n) (input_octets n)
                    (input_octets_session n) (output_octets_session n) (u64 (atoi upload)))) c else c in
    if negb (sessiontimeout (s_params c) =? 0) then
      time ← access time;
      let t := u64 (atoi time) in
      let left := if sessiontimeout (s_params c) <? t then 0 else u64 (sessiontimeout (s_params c) - t) in
      Done (set_params (set_sessiontimeout left) c)
    else Done c
  end.

Definition on_or_off (status_type : Z) : bool :=
  (status_type =? RADIUS_STATUS_TYPE_ACCOUNTING_ON) || (status_type =? RADIUS_STATUS_TYPE_ACCOUNTING_OFF).
Definition is_update (status_type : Z) : bool :=
  (status_type =? RADIUS_STATUS_TYPE_STOP) || (status_type =? RADIUS_STATUS_TYPE_INTERIM_UPDATE).
Definition usage_attrs (mainclock : Z) (s : session_state) : list addattr :=
  let n := count s in
  [int_attr RADIUS_ATTR_ACCT_INPUT_OCTETS (u32 (input_octets n));
   int_attr RADIUS_ATTR_ACCT_OUTPUT_OCTETS (u32 (output_octets n));
   int_attr RADIUS_ATTR_ACCT_INPUT_GIGAWORDS (u32 (Z.shiftr (input_octets n) 32));
   int_attr RADIUS_ATTR_ACCT_OUTPUT_GIGAWORDS (u32 (Z.shiftr (output_octets n) 32));
   int_attr RADIUS_ATTR_ACCT_INPUT_PACKETS (u32 (input_packets n));
   int_attr RADIUS_ATTR_ACCT_OUTPUT_PACKETS (u32 (output_packets n));
   int_attr RADIUS_ATTR_ACCT_SESSION_TIME (mainclock_diffu mainclock (start_time (clock s)))].
Definition sysinfo_attrs : list addattr :=
  match sysinfo with
  | Some (uptime, load, memory) =>
    [vsa_int RADIUS_VENDOR_CHILLISPOT RADIUS_ATTR_CHILLISPOT_SYS_UPTIME (u32 uptime);
     vsa_text RADIUS_VENDOR_CHILLISPOT RADIUS_ATTR_CHILLISPOT_SYS_LOADAVG load;
     vsa_text RADIUS_VENDOR_CHILLISPOT RADIUS_ATTR_CHILLISPOT_SYS_MEMORY memory]
  | None => []
  end.
(** The attributes that [acct_req] adds for a user. *)
Definition acct_attrs (mainclock : Z) (c : app_conn) (status_type : Z) : list addattr :=
  when (negb (on_or_off status_type))
    (text_attr RADIUS_ATTR_USER_NAME (username (redir (s_state c))) :: when (is_adminsession c) sysinfo_attrs) ++
  when (is_update status_type) (usage_attrs mainclock (s_state c)) ++
  when ((status_type =? RADIUS_STATUS_TYPE_STOP) || (status_type =? RADIUS_STATUS_TYPE_ACCOUNTING_OFF))
    [int_attr RADIUS_ATTR_ACCT_TERMINATE_CAUSE (terminate_cause (s_state c))] ++
  chilli_req_attrs RADIUS_CODE_ACCOUNTING_REQUEST
    (if negb (on_or_off status_type) && is_adminsession c then RADIUS_SERVICE_TYPE_ADMIN_USER else 0)
    status_type (u32 (unit_ c)) (hismac c) (hisip c) (s_state c).

(** The connection and what is sent. *)
Definition acct_req (mainclock : Z) (c : app_conn) (status_type : Z) : result (app_conn * list event) :=
  c ← (if (status_type =? RADIUS_STATUS_TYPE_START) || (status_type =? RADIUS_STATUS_TYPE_ACCOUNTING_ON) then
         let c := set_state (set_clock (fun _ => Times mainclock mainclock mainclock mainclock)) c in
         add_usage (set_state (set_count (fun _ => Octets 0 0 0 0 0 0)) c)
       else if status_type =? RADIUS_STATUS_TYPE_INTERIM_UPDATE then
         Done (set_state (set_clock (set_interim_time mainclock)) c)
       else Done c);
  Done (c, if has_flag c NO_ACCOUNTING then [] else [Account status_type (acct_attrs mainclock c status_type)]).

(** ** The state of a session *)

Definition set_sessionid (mainclock_rt : Z) (c : app_conn) : app_conn :=
  let c := set_rt (s32 mainclock_rt) c in
  set_state (fun s =>
    set_redir (fun r => Redir (username r) (userurl r) [] (cuibuf r) [])
      (set_id (print_hex false 8 (u32 (rt c)) ++ print_hex false 8 (u32 (unit_ c))) s)) c.
Definition clear_appconn (c : app_conn) : app_conn :=
  set_params (fun p => Params (url p) (filterid p) 0 0 0 0 0 0 0 0 0 0 0 (flags p)) c.
(** [if (dnlink) dnlink->authstate = v] *)
Definition set_authstate (v : Z) (c : app_conn) : app_conn := set_dnlink ((fun _ => v) <$> dnlink c) c.

Definition dnprot_terminate (c : app_conn) : app_conn :=
  let c := set_state (set_authenticated 0) c in
  let c := if negb (bool_decide (url (s_params c) = [])) && has_flag c UAM_CLEAR_URL
           then set_params (set_url []) (clear_flag UAM_CLEAR_URL c) else c in
  let c := set_state (set_buckets (fun _ => Bucket 0 0 0 0)) c in
  if dnprot c =? DNPROT_WPA then set_authstate DHCP_AUTH_NONE c
  else if (dnprot c =? DNPROT_MAC) || (dnprot c =? DNPROT_UAM) || (dnprot c =? DNPROT_DHCP_NONE) || (dnprot c =? DNPROT_NULL)
  then set_authstate DHCP_AUTH_DNAT c
  else c.

(** Running a script, unless the session is without. *)
Definition run_script (script : option bytes) (c : app_conn) : list event :=
  match script with
  | Some s => if has_flag c NO_SCRIPT then [] else [Runscript s]
  | None => []
  end.

Definition terminate_appconn (mainclock mainclock_rt : Z) (c : app_conn) (cause : Z) : result (app_conn * list event) :=
  if authenticated (s_state c) =? 1 then
    let c := dnprot_terminate c in
    let c := set_state (set_cause cause) c in
    let es := run_script (condown o) c in
    '(c, es') ← acct_req mainclock c RADIUS_STATUS_TYPE_STOP;
    Done (set_sessionid mainclock_rt (clear_appconn c), es ++ es')
  else Done (c, []).

(** The end of [dnprot_accept], after the switch over the protocol. *)
Definition accepted (mainclock : Z) (dhcpconn : bool) (c : app_conn) : result (app_conn * list event) :=
  let c := if dhcpconn && (has_flag c REQUIRE_UAM_SPLASH || has_flag c REQUIRE_UAM_AUTH)
           then set_authstate DHCP_AUTH_SPLASH c else c in
  '(c, es) ← (if negb (has_flag c REQUIRE_UAM_AUTH) then
                '(c, es) ← acct_req mainclock (set_state (set_authenticated 1) c) RADIUS_STATUS_TYPE_START;
                Done (c, es ++ run_script (conup o) c)
              else Done (c, []));
  Done (clear_flag IS_UAM_REAUTH c, es).
Definition dnprot_accept (mainclock : Z) (c : app_conn) : result (app_conn * list event) :=
  if is_adminsession c then Done (c, [])
  else if hisip c =? 0 then Done (c, [])
  else
    let addrs := Set_addrs (hisip c) in
    match dnlink c with
    | None => Done (c, [])
    | Some _ =>
      if dnprot c =? DNPROT_UAM then
        '(c, es) ← accepted mainclock true (clear_flag REQUIRE_UAM_AUTH (set_authstate DHCP_AUTH_PASS c));
        Done (c, [addrs] ++ es)
      else if dnprot c =? DNPROT_WPA then
        let c := if has_flag c REQUIRE_UAM_AUTH then set_authstate DHCP_AUTH_NONE (set_dnprot DNPROT_DHCP_NONE c)
                 else set_authstate DHCP_AUTH_PASS c in
        '(c, es) ← accepted mainclock true c;
        Done (c, [addrs; Access_accept] ++ es)
      else if dnprot c =? DNPROT_MAC then
        '(c, es) ← accepted mainclock true (set_authstate DHCP_AUTH_PASS c);
        Done (c, [addrs] ++ es)
      else Done (c, [])
    end.

(** [(int) difftime (rt, past)] *)
Definition mainclock_rtdiff (mainclock_rt past : Z) : result Z :=
  let d := mainclock_rt - past in
  if (- 2 ^ 31 <=? d) && (d <? 2 ^ 31) then Done d else Fault.

(** Why a session has to end now, if it has to. *)
Definition limit_reached (mainclock mainclock_rt : Z) (c : app_conn) : result (option Z) :=
  let p := s_params c in
  let n := conn_count c in
  let sessiontime := mainclock_diffu mainclock (start_time (conn_clock c)) in
  let idletime := mainclock_diffu mainclock (last_sent_time (conn_clock c)) in
  if negb (sessiontimeout p =? 0) && (sessiontimeout p <? sessiontime) then Done (Some RADIUS_TERMINATE_CAUSE_SESSION_TIMEOUT)
  else
    late ← (if negb (sessionterminatetime p =? 0) then
              d ← mainclock_rtdiff mainclock_rt (sessionterminatetime p); Done (0 <? d)
            else Done false);
    Done (if late : bool then Some RADIUS_TERMINATE_CAUSE_SESSION_TIMEOUT
          else if negb (idletimeout p =? 0) && (idletimeout p <? idletime) then Some RADIUS_TERMINATE_CAUSE_IDLE_TIMEOUT
          else if negb (maxinputoctets p =? 0) && (maxinputoctets p <? input_octets n)
          then Some RADIUS_TERMINATE_CAUSE_SESSION_TIMEOUT
          else if negb (maxoutputoctets p =? 0) && (maxoutputoctets p <? output_octets n)
          then Some RADIUS_TERMINATE_CAUSE_SESSION_TIMEOUT
          else if negb (maxtotaloctets p =? 0) && (maxtotaloctets p <? u64 (input_octets n + output_octets n))
          then Some RADIUS_TERMINATE_CAUSE_SESSION_TIMEOUT
          else None).
Definition session_interval (mainclock mainclock_rt : Z) (c : app_conn) : result (app_conn * list event) :=
  let interimtime := mainclock_diffu mainclock (interim_time (conn_clock c)) in
  if authenticated (s_state c) =? 1 then
    over ← limit_reached mainclock mainclock_rt c;
    match over with
    | Some cause => terminate_appconn mainclock mainclock_rt c cause
    | None =>
      if negb (interim_interval (s_params c) =? 0) && (interim_interval (s_params c) <=? interimtime)
      then acct_req mainclock c RADIUS_STATUS_TYPE_INTERIM_UPDATE
      else Done (c, [])
    end
  else Done (c, []).

(** Values that are not set take the defaults of the options. *)
Definition default_to (option_value value : Z) : Z :=
  if negb (option_value =? 0) && (value =? 0) then option_value else value.
Definition session_param_defaults (p : session_params) : session_params :=
  Params (url p) (filterid p) (default_to (defbandwidthmaxup o) (bandwidthmaxup p)) (default_to (defbandwidthmaxdown o) (bandwidthmaxdown p))
    (default_to (defmaxinputoctets o) (maxinputoctets p)) (default_to (defmaxoutputoctets o) (maxoutputoctets p))
    (default_to (defstartpoint o) (start_point p)) (default_to (defdatainterval o) (data_interval p)) (maxtotaloctets p)
    (default_to (defsessiontimeout o) (sessiontimeout p)) (default_to (defidletimeout o) (idletimeout p))
    (default_to (definteriminterval o) (interim_interval p)) (sessionterminatetime p) (flags p).
End Session.

(** ** The packet of an accounting request *)

Section Packet.
Context `{Digest} (conf : RadiusQueue.radius_conf).

Fixpoint add_all (pack : bytes) (l : list addattr) : result bytes :=
  match l with
  | [] => Done pack
  | a :: l =>
    '(_, pack) ← radius_addattr (RadiusQueue.secret conf) pack (ad_type a) (ad_vendor a) (ad_vtype a) (ad_value a)
                   (ad_data a) (ad_len a);
    add_all pack l
  end.
(** What [acct_req] hands to [radius_req] for its attributes. *)
Definition acct_pack (random : option bytes) (version : bytes) (wall : Z) (q : RadiusQueue.radius_t) (l : list addattr)
    : result (Z * RadiusQueue.radius_t * bytes) :=
  '(r, q, pack) ← RadiusQueue.radius_default_pack conf random version wall q RADIUS_CODE_ACCOUNTING_REQUEST;
  if negb (r =? 0) then Done (-1, q, pack)
  else pack ← add_all pack l; Done (0, q, pack).
End Packet.

(** ** The buckets *)

(** One direction: the level falls by what has leaked out and rises by the packet,
    which is refused when it does not fit. *)
Definition pour (size bandwidth level dt n : Z) : bool * Z :=
  let l := Z.max 0 (level - dt * bandwidth / 8) in
  if size <? l + n then (false, l) else (true, l + n).

(** Buckets with sizes, and levels within them. *)
Record shaped (c : app_conn) : Prop := {
  sh_up : 0 <= bucketup (conn_buckets c) <= bucketupsize (conn_buckets c);
  sh_down : 0 <= bucketdown (conn_buckets c) <= bucketdownsize (conn_buckets c);
  sh_upsize : 0 < bucketupsize (conn_buckets c) < 2 ^ 62;
  sh_downsize : 0 < bucketdownsize (conn_buckets c) < 2 ^ 62;
  sh_bwup : 0 <= bandwidthmaxup (s_params c) < 2 ^ 32;
  sh_bwdown : 0 <= bandwidthmaxdown (s_params c) < 2 ^ 32;
}.

(** The level after a packet of [n] octets, in a direction that is limited. *)
Definition limited (size bandwidth level dt n : Z) : bool * Z :=
  if bandwidth =? 0 then (true, level) else pour size bandwidth level dt n.

Lemma leak_max level bytes : leak level bytes = Z.max 0 (level - bytes).
Proof. unfold leak. destruct (Z.ltb_spec bytes level); lia. Qed.
Lemma diffu_ok now past : 0 <= past <= now -> now < 2 ^ 31 -> mainclock_diffu now past = now - past.
Proof.
  intros Hp Hn. unfold mainclock_diffu, mainclock_diff, s32, signed. change (32 - 1) with 31.
  rewrite Z.mod_small by lia. rewrite (proj2 (Z.ltb_lt (now - past) (2 ^ 31))) by lia.
  destruct (Z.ltb_spec 0 (now - past)); lia.
Qed.
Definition is_u64 (x : Z) : Prop := in_w 64 x.
Lemma u64_range x : is_u64 (u64 x).
Proof. unfold is_u64, in_w, u64. zdm. Qed.
Lemma u64_small x : 0 <= x < 2 ^ 64 -> u64 x = x.
Proof. apply Z.mod_small. Qed.
Lemma drain_ok bandwidth dt : 0 <= bandwidth < 2 ^ 32 -> 0 <= dt < 2 ^ 31 -> u64 (dt * bandwidth) / 8 = dt * bandwidth / 8.
Proof. intros. rewrite u64_small by nia. done. Qed.

Definition after (now : Z) (up down : Z) (c : app_conn) : app_conn :=
  set_state (fun s => set_clock (set_last_time now) (set_buckets (fun b => Bucket up down (bucketupsize b) (bucketdownsize b)) s)) c.
Local Ltac bucket_cbn := cbn -[Z.mul Z.div Z.add Z.max Z.ltb Z.eqb Z.sub u64 leak].
Lemma leaky_bucket_ok o now c up down :
  shaped c -> 0 <= last_time (conn_clock c) <= now -> now < 2 ^ 31 -> 0 <= up < 2 ^ 16 -> 0 <= down < 2 ^ 16 ->
  let dt := now - last_time (conn_clock c) in
  let b := conn_buckets c in
  let ru := limited (bucketupsize b) (bandwidthmaxup (s_params c)) (bucketup b) dt up in
  let rd := limited (bucketdownsize b) (bandwidthmaxdown (s_params c)) (bucketdown b) dt down in
  leaky_bucket o now c up down = (if ru.1 && rd.1 then 0 else -1, after now ru.2 rd.2 c).
Proof.
  intros [Hu Hd Hus Hds Hbu Hbd] Ht Hn Hup Hdown dt b.
  unfold leaky_bucket. rewrite diffu_ok by done. fold dt. assert (Hdt : 0 <= dt < 2 ^ 31) by (unfold dt; lia).
  destruct c as [nx pv iu ad un dp rt dl ni np hm hi p s], s as [rd au si ck ct ca tg bk]. destruct bk as [lu ld su sd].
  cbn in * |-. clearbody dt. subst b. unfold conn_buckets, limited, pour. cbn [s_params s_state buckets bandwidthmaxup bucketup bucketupsize bucketdown bucketdownsize].
  assert (Hneg : forall x, 0 < x -> (x =? 0) = false) by (intros; lia).
  assert (Hdu : 0 <= dt * bandwidthmaxup p / 8) by (apply Z.div_pos; nia).
  assert (Hdd : 0 <= dt * bandwidthmaxdown p / 8) by (apply Z.div_pos; nia).
  destruct (bandwidthmaxup p =? 0) eqn:E1, (bandwidthmaxdown p =? 0) eqn:E2; bucket_cbn; rewrite ?E1, ?E2, ?Hneg by lia; bucket_cbn;
    rewrite ?drain_ok, ?leak_max by done; rewrite ?u64_small by lia; try done.
  - by destruct (_ <? _).
  - destruct (_ <? _); bucket_cbn; by rewrite ?E2.
  - destruct (su <? _); bucket_cbn; rewrite ?E2; bucket_cbn; rewrite ?Hneg by lia; bucket_cbn;
      rewrite ?drain_ok, ?leak_max by done; rewrite ?u64_small by lia; by destruct (_ <? _).
Qed.

Lemma limited_level size bandwidth level dt n ok level' :
  limited size bandwidth level dt n = (ok, level') -> 0 <= level <= size -> 0 <= bandwidth -> 0 <= dt -> 0 <= n ->
  0 <= level' <= size /\ (n = 0 -> ok = true) /\
  (bandwidth <> 0 -> 8 * level + (if ok then 8 * n else 0) <= 8 * level' + dt * bandwidth).
Proof.
  unfold limited, pour. intros Hl Hlev Hbw Hdt Hn. assert (0 <= dt * bandwidth) by nia.
  pose proof (Z.mul_div_le (dt * bandwidth) 8 ltac:(lia)). assert (0 <= dt * bandwidth / 8) by (apply Z.div_pos; lia).
  destruct (Z.eqb_spec bandwidth 0) as [->|]; [by injection Hl as <- <-|].
  destruct (Z.ltb_spec size (Z.max 0 (level - dt * bandwidth / 8) + n)); injection Hl as <- <-; split; try split; lia.
Qed.

(** What becomes of a session when [up] octets from the subscriber and [down] octets to
    it pass within [dt] seconds. *)
Record passed (c : app_conn) (dt up down : Z) (c' : app_conn) : Prop := {
  pd_params : s_params c' = s_params c;
  pd_auth : authenticated (s_state c') = authenticated (s_state c);
  pd_time : last_time (conn_clock c') = last_time (conn_clock c) + dt;
  pd_start : start_time (conn_clock c') = start_time (conn_clock c);
  pd_interim : interim_time (conn_clock c') = interim_time (conn_clock c);
  pd_sent : last_sent_time (conn_clock c') = last_sent_time (conn_clock c) \/
    last_time (conn_clock c) <= last_sent_time (conn_clock c') <= last_time (conn_clock c');
  pd_upsize : bucketupsize (conn_buckets c') = bucketupsize (conn_buckets c);
  pd_downsize : bucketdownsize (conn_buckets c') = bucketdownsize (conn_buckets c);
  pd_shaped : shaped c';
  pd_up : bandwidthmaxup (s_params c) <> 0 ->
    8 * bucketup (conn_buckets c) + 8 * up <= 8 * bucketup (conn_buckets c') + dt * bandwidthmaxup (s_params c);
  pd_down : bandwidthmaxdown (s_params c) <> 0 ->
    8 * bucketdown (conn_buckets c) + 8 * down <= 8 * bucketdown (conn_buckets c') + dt * bandwidthmaxdown (s_params c);
  pd_output : u64 (output_octets (conn_count c')) = u64 (output_octets (conn_count c) + up);
  pd_input : u64 (input_octets (conn_count c')) = u64 (input_octets (conn_count c) + down);
  pd_dt : 0 <= dt;
  pd_u64 : is_u64 (output_octets (conn_count c)) /\ is_u64 (input_octets (conn_count c)) ->
    is_u64 (output_octets (conn_count c')) /\ is_u64 (input_octets (conn_count c'));
}.

Lemma u64_add x y z : u64 x = u64 y -> u64 (x + z) = u64 (y + z).
Proof. unfold u64. intros H. by rewrite <- Z.add_mod_idemp_l, H, Z.add_mod_idemp_l. Qed.
Lemma u64_u64 x : u64 (u64 x) = u64 x.
Proof. unfold u64. by rewrite Z.mod_mod. Qed.

Lemma passed_refl c : shaped c -> passed c 0 0 0 c.
Proof. by constructor; rewrite ?Z.add_0_r; try lia. Qed.
Lemma passed_trans c dt up down c' dt' up' down' c'' :
  passed c dt up down c' -> passed c' dt' up' down' c'' -> passed c (dt + dt') (up + up') (down + down') c''.
Proof.
  intros [] []. constructor; try congruence; rewrite ?pd_params0 in *; try lia.
  - rewrite pd_output1, (u64_add _ _ up' pd_output0). f_equal. lia.
  - rewrite pd_input1, (u64_add _ _ down' pd_input0). f_equal. lia.
  - auto.
Qed.

(** A packet at time [t]; [from] tells whether the subscriber sent it. *)
Definition chilli_acct (o : options) (t : Z) (from : bool) (c admin : app_conn) (len : Z) : Z * app_conn * app_conn :=
  if from then chilli_acct_fromsub o t c admin len else chilli_acct_tosub o t c admin len.

Lemma chilli_acct_ok o t from c admin len r c' admin' :
  chilli_acct o t from c admin len = (r, c', admin') -> swapoctets o = false -> authenticated (s_state c) = 1 -> shaped c ->
  0 <= last_time (conn_clock c) <= t -> t < 2 ^ 31 -> 0 <= len < 2 ^ 16 ->
  let n := if r =? 0 then len else 0 in
  passed c (t - last_time (conn_clock c)) (if from then n else 0) (if from then 0 else n) c'.
Proof.
  intros Hr Hsw Ha Hs Ht Htt Hlen.
  set (c1 := if from then set_state (set_clock (set_last_sent_time t)) c else c).
  assert (Hs1 : shaped c1) by (destruct from; [destruct Hs; by constructor|done]).
  assert (Hlt : last_time (conn_clock c1) = last_time (conn_clock c)) by (by destruct from).
  pose proof (leaky_bucket_ok o t c1 (if from then len else 0) (if from then 0 else len) Hs1
    ltac:(by rewrite Hlt) Htt ltac:(destruct from; lia) ltac:(destruct from; lia)) as Hlb. cbv zeta in Hlb.
  replace (conn_buckets c1) with (conn_buckets c) in Hlb by (by destruct from).
  replace (s_params c1) with (s_params c) in Hlb by (by destruct from). rewrite Hlt in Hlb.
  destruct Hs as [Hu Hd Hus Hds Hbu Hbd].
  destruct (limited _ _ (bucketup _) _ _) as [ok1 l1] eqn:E1 in Hlb.
  destruct (limited _ _ (bucketdown _) _ _) as [ok2 l2] eqn:E2 in Hlb. cbn [fst snd] in Hlb.
  apply limited_level in E1 as (Hl1 & Hz1 & Hp1), E2 as (Hl2 & Hz2 & Hp2); try (destruct from; lia).
  assert (Ha1 : authenticated (s_state c1) = 1) by (by destruct from).
  unfold chilli_acct, chilli_acct_fromsub, chilli_acct_tosub in Hr. cbv zeta in Hr.
  destruct from; subst c1.
  - rewrite Ha1, Hlb, Hsw in Hr. rewrite Hz2 in * by done. rewrite andb_true_r in Hr.
    destruct ok1; injection Hr as <- <- <-; (constructor; cbn; try done; try lia; rewrite ?Z.add_0_r, ?u64_u64; try done);
      first [by constructor | intros [? ?]; split; first [apply u64_range | done] | idtac].
  - rewrite Ha, Hlb, Hsw in Hr. rewrite Hz1 in * by done. cbn [andb] in Hr.
    destruct ok2; injection Hr as <- <- <-; (constructor; cbn; try done; try lia; rewrite ?Z.add_0_r, ?u64_u64; try done);
      first [by constructor | intros [? ?]; split; first [apply u64_range | done] | idtac].
Qed.

(** *** Histories of packets *)

(** The session after packets with their times, and the octets that passed from the
    subscriber and to it. *)
Fixpoint traffic (o : options) (l : list (Z * bool * Z)) (c admin : app_conn) : app_conn * app_conn * Z * Z :=
  match l with
  | [] => (c, admin, 0, 0)
  | (t, from, len) :: l =>
    let '(r, c, admin) := chilli_acct o t from c admin len in
    let n := if r =? 0 then len else 0 in
    let '(c, admin, up, down) := traffic o l c admin in
    (c, admin, (if from then n else 0) + up, (if from then 0 else n) + down)
  end.
(** Packets one after the other, from the time [t0] on. *)
Fixpoint in_order (t0 : Z) (l : list (Z * bool * Z)) : Prop :=
  match l with
  | [] => True
  | (t, _, len) :: l => t0 <= t < 2 ^ 31 /\ 0 <= len < 2 ^ 16 /\ in_order t l
  end.
Fixpoint last_at (t0 : Z) (l : list (Z * bool * Z)) : Z :=
  match l with [] => t0 | (t, _, _) :: l => last_at t l end.

Lemma traffic_ok o l : forall c admin c' admin' up down,
  traffic o l c admin = (c', admin', up, down) -> swapoctets o = false -> authenticated (s_state c) = 1 -> shaped c ->
  0 <= last_time (conn_clock c) -> in_order (last_time (conn_clock c)) l ->
  passed c (last_at (last_time (conn_clock c)) l - last_time (conn_clock c)) up down c' /\ 0 <= up /\ 0 <= down.
Proof.
  induction l as [|[[t from] len] l IH]; intros c admin c' admin' up down Hr Hsw Ha Hs Ht Ho; cbn [traffic last_at in_order] in *.
  - injection Hr as <- <- <- <-. rewrite Z.sub_diag. by split; [apply passed_refl|].
  - destruct Ho as (Hbt & Hlen & Ho). destruct (chilli_acct o t from c admin len) as [[r c1] admin1] eqn:E.
    destruct (traffic o l c1 admin1) as [[[c2 admin2] u] d] eqn:E2. injection Hr as <- <- <- <-.
    apply chilli_acct_ok in E; try done; try lia. pose proof (pd_time _ _ _ _ _ E) as H1.
    replace (last_time (conn_clock c) + _) with t in H1 by lia.
    apply IH in E2; try done; first last.
    + by rewrite H1.
    + lia.
    + apply E.
    + by rewrite (pd_auth _ _ _ _ _ E).
    + destruct E2 as (E2 & Hu & Hd). split; [|destruct from, (r =? 0); lia].
      replace (last_at t l - last_time (conn_clock c)) with ((t - last_time (conn_clock c)) + (last_at t l - t)) by lia.
      eapply passed_trans; [exact E|]. by rewrite H1 in E2.
Qed.

(** C17: what a session gets through the leaky bucket is bounded by the size of the
    bucket and the bandwidth it was granted. Without swapoctets, for an authenticated
    session and any sequence of packets in order of time: in each direction that is
    limited, the octets that passed are at most the free room of the bucket and one
    eighth of the bandwidth for each second since the packet before the first; the
    levels stay within the sizes; and exactly these octets are added to the session's
    64-bit counters. *)
Theorem session_traffic_bound o l c admin c' admin' up down :
  traffic o l c admin = (c', admin', up, down) -> swapoctets o = false -> authenticated (s_state c) = 1 -> shaped c ->
  0 <= last_time (conn_clock c) -> in_order (last_time (conn_clock c)) l ->
  let dt := last_at (last_time (conn_clock c)) l - last_time (conn_clock c) in
  (bandwidthmaxup (s_params c) <> 0 ->
   8 * up <= 8 * (bucketupsize (conn_buckets c) - bucketup (conn_buckets c)) + dt * bandwidthmaxup (s_params c)) /\
  (bandwidthmaxdown (s_params c) <> 0 ->
   8 * down <= 8 * (bucketdownsize (conn_buckets c) - bucketdown (conn_buckets c)) + dt * bandwidthmaxdown (s_params c)) /\
  shaped c' /\
  u64 (output_octets (conn_count c')) = u64 (output_octets (conn_count c) + up) /\
  u64 (input_octets (conn_count c')) = u64 (input_octets (conn_count c) + down).
Proof.
  intros Hr Hsw Ha Hs Ht Ho dt. eapply traffic_ok in Hr as (Hp & _ & _); try done. fold dt in Hp.
  pose proof (pd_shaped _ _ _ _ _ Hp) as Hs'. pose proof (sh_up _ Hs'). pose proof (sh_down _ Hs').
  pose proof (pd_up _ _ _ _ _ Hp) as Hu. pose proof (pd_down _ _ _ _ _ Hp) as Hd.
  rewrite (pd_upsize _ _ _ _ _ Hp), (pd_downsize _ _ _ _ _ Hp) in *.
  split; [intros Hb; specialize (Hu Hb); lia|]. split; [intros Hb; specialize (Hd Hb); lia|]. split; [done|]. split; apply Hp.
Qed.

(** ** What an accounting request reports *)

(** The first attribute of a type, the number in it, and the 64-bit counter that two of
    them make up. *)
Definition find_type (type : Z) (l : list addattr) : option addattr := List.find (fun a => ad_type a =? type) l.
Definition value_of (type : Z) (l : list addattr) : option Z := ad_value <$> find_type type l.
Definition reported (low high : Z) (l : list addattr) : option Z :=
  match value_of low l, value_of high l with
  | Some a, Some b => Some (a + 2 ^ 32 * b)
  | _, _ => None
  end.
(** Octets received and sent according to a request. *)
Definition reported_octets (l : list addattr) : option (Z * Z) :=
  match reported RADIUS_ATTR_ACCT_INPUT_OCTETS RADIUS_ATTR_ACCT_INPUT_GIGAWORDS l,
        reported RADIUS_ATTR_ACCT_OUTPUT_OCTETS RADIUS_ATTR_ACCT_OUTPUT_GIGAWORDS l with
  | Some a, Some b => Some (a, b)
  | _, _ => None
  end.

Lemma split_u64 x : is_u64 x -> u32 x + 2 ^ 32 * u32 (Z.shiftr x 32) = x.
Proof. unfold is_u64, in_w. intros Hx. rewrite Z.shiftr_div_pow2 by lia. unfold u32. zdm. Qed.

Section Requests.
Context (o : options) (popen : bytes -> option (option bytes)) (e : endian) (inet_aton : bytes -> option Z) (nas_hwaddr : bytes)
  (sysinfo : option (Z * bytes * bytes)).
Abbreviation acct_attrs := (acct_attrs o e inet_aton nas_hwaddr sysinfo).
Abbreviation acct_req := (acct_req o popen e inet_aton nas_hwaddr sysinfo).
Abbreviation terminate_appconn := (terminate_appconn o popen e inet_aton nas_hwaddr sysinfo).
Abbreviation session_interval := (session_interval o popen e inet_aton nas_hwaddr sysinfo).
Abbreviation dnprot_accept := (dnprot_accept o popen e inet_aton nas_hwaddr sysinfo).
Abbreviation accepted := (accepted o popen e inet_aton nas_hwaddr sysinfo).

Lemma find_app_none {A} f (l k : list A) : List.find f l = None -> List.find f (l ++ k) = List.find f k.
Proof. induction l as [|a l IH]; [done|]. cbn. by destruct (f a). Qed.

(** Attributes of other types than the name and the system's are those behind them. *)
Lemma find_type_usage now c status type :
  is_update status = true -> type <> RADIUS_ATTR_USER_NAME -> type <> RADIUS_ATTR_VENDOR_SPECIFIC ->
  exists rest, find_type type (acct_attrs now c status) =
    find_type type (usage_attrs now (s_state c) ++
      when ((status =? RADIUS_STATUS_TYPE_STOP) || (status =? RADIUS_STATUS_TYPE_ACCOUNTING_OFF))
        [int_attr RADIUS_ATTR_ACCT_TERMINATE_CAUSE (terminate_cause (s_state c))] ++ rest).
Proof.
  intros Hup H1 H26. unfold Session.acct_attrs. eexists. unfold find_type.
  assert (Hon : on_or_off status = false).
  { unfold is_update, on_or_off in *. apply orb_true_iff in Hup as [H%Z.eqb_eq|H%Z.eqb_eq]; by subst status. }
  rewrite Hon, Hup. cbn [negb when andb]. rewrite find_app_none; [done|]. cbn [List.find ad_type text_attr].
  rewrite (proj2 (Z.eqb_neq _ type)) by congruence. destruct (is_adminsession c); [|done].
  destruct sysinfo as [[[? ?] ?]|]; [|done]. cbn [List.find ad_type vsa_int vsa_text sysinfo_attrs when].
  by rewrite !(proj2 (Z.eqb_neq _ type)) by congruence.
Qed.
(** An attribute among those of the usage, or of the usage and the end. *)
Lemma usage_find now c status type a : is_update status = true -> type <> RADIUS_ATTR_USER_NAME -> type <> RADIUS_ATTR_VENDOR_SPECIFIC ->
  find_type type (usage_attrs now (s_state c)) = Some a -> find_type type (acct_attrs now c status) = Some a.
Proof.
  intros Hup H1 H26. destruct (find_type_usage now c status type Hup H1 H26) as [rest ->]. generalize (usage_attrs now (s_state c)).
  intros l. unfold find_type. induction l as [|b l IH]; [done|]. cbn [List.find app]. by destruct (ad_type b =? type).
Qed.
Lemma cause_find now c : find_type RADIUS_ATTR_ACCT_TERMINATE_CAUSE (acct_attrs now c RADIUS_STATUS_TYPE_STOP) =
  Some (int_attr RADIUS_ATTR_ACCT_TERMINATE_CAUSE (terminate_cause (s_state c))).
Proof. by destruct (find_type_usage now c RADIUS_STATUS_TYPE_STOP RADIUS_ATTR_ACCT_TERMINATE_CAUSE) as [rest ->]. Qed.

Lemma usage_reported now c status n : is_update status = true -> n = count (s_state c) -> is_u64 (input_octets n) -> is_u64 (output_octets n) ->
  reported_octets (acct_attrs now c status) = Some (input_octets n, output_octets n).
Proof.
  intros Hup -> Hi Ho. unfold reported_octets, reported, value_of.
  erewrite !(usage_find now c status) by done. cbn [fmap option_fmap option_map ad_value int_attr]. by rewrite !split_u64.
Qed.

Lemma acct_req_stop now c : acct_req now c RADIUS_STATUS_TYPE_STOP =
  Done (c, if has_flag c NO_ACCOUNTING then [] else [Account RADIUS_STATUS_TYPE_STOP (acct_attrs now c RADIUS_STATUS_TYPE_STOP)]).
Proof. done. Qed.
Lemma acct_req_interim now c : acct_req now c RADIUS_STATUS_TYPE_INTERIM_UPDATE =
  let c := set_state (set_clock (set_interim_time now)) c in
  Done (c, if has_flag c NO_ACCOUNTING then []
           else [Account RADIUS_STATUS_TYPE_INTERIM_UPDATE (acct_attrs now c RADIUS_STATUS_TYPE_INTERIM_UPDATE)]).
Proof. done. Qed.

(** *** Flags *)

Lemma u16_land_pow f g i j : 0 <= i < 16 -> 0 <= j -> i <> j -> g = 2 ^ j ->
  Z.land (u16 (Z.land f (Z.lnot g))) (2 ^ i) = Z.land f (2 ^ i).
Proof.
  intros Hi Hj Hij ->. unfold u16. rewrite <- Z.land_ones by lia. apply Z.bits_inj'. intros n Hn.
  rewrite !Z.land_spec, Z.lnot_spec, !Z.pow2_bits_eqb by lia.
  destruct (Z.eqb_spec i n) as [->|]; [|by rewrite !andb_false_r].
  rewrite (proj2 (Z.eqb_neq j n)), Z.ones_spec_low by lia. by rewrite !andb_true_r.
Qed.
Lemma has_flag_clear c i j : 0 <= i < 16 -> 0 <= j -> i <> j -> has_flag (clear_flag (2 ^ j) c) (2 ^ i) = has_flag c (2 ^ i).
Proof. intros. unfold has_flag, clear_flag. cbn [set_params s_params set_flags flags]. by rewrite (u16_land_pow _ _ i j). Qed.

Lemma dnprot_terminate_ok c :
  let c' := dnprot_terminate c in
  authenticated (s_state c') = 0 /\ count (s_state c') = count (s_state c) /\ clock (s_state c') = clock (s_state c) /\
  buckets (s_state c') = Bucket 0 0 0 0 /\ has_flag c' NO_ACCOUNTING = has_flag c NO_ACCOUNTING /\
  has_flag c' NO_SCRIPT = has_flag c NO_SCRIPT /\
  sessionid (s_state c') = sessionid (s_state c) /\ redir (s_state c') = redir (s_state c) /\
  unit_ c' = unit_ c /\ hisip c' = hisip c /\ hismac c' = hismac c /\ is_adminsession c' = is_adminsession c /\
  dnprot c' = dnprot c /\
  dnlink c' = if dnprot c =? DNPROT_WPA then (fun _ => DHCP_AUTH_NONE) <$> dnlink c
              else if (dnprot c =? DNPROT_MAC) || (dnprot c =? DNPROT_UAM) || (dnprot c =? DNPROT_DHCP_NONE) || (dnprot c =? DNPROT_NULL)
                   then (fun _ => DHCP_AUTH_DNAT) <$> dnlink c else dnlink c.
Proof.
  unfold dnprot_terminate. cbv zeta. set (b := negb _ && _).
  assert (Hacc : has_flag (clear_flag UAM_CLEAR_URL c) NO_ACCOUNTING = has_flag c NO_ACCOUNTING)
    by (apply (has_flag_clear c 4 8); lia).
  assert (Hscr : has_flag (clear_flag UAM_CLEAR_URL c) NO_SCRIPT = has_flag c NO_SCRIPT)
    by (apply (has_flag_clear c 5 8); lia).
  destruct b; cbn [dnprot set_state set_params clear_flag set_url set_authstate set_dnlink];
    destruct (dnprot c =? DNPROT_WPA); [|destruct (_ || _)| |destruct (_ || _)]; repeat split; try exact Hacc; exact Hscr.
Qed.

(** A session that has ended: no longer authenticated, its limits and buckets reset,
    the DHCP connection sent back to the login page (or to nothing, behind an access
    point), and one request that reports what was used and why it ended. *)
Record ended (now : Z) (c : app_conn) (cause : Z) (c' : app_conn) (es : list event) : Prop := {
  en_auth : authenticated (s_state c') = 0;
  en_buckets : conn_buckets c' = Bucket 0 0 0 0;
  en_timeout : sessiontimeout (s_params c') = 0;
  en_start : start_point (s_params c') = 0;
  en_end : sessionterminatetime (s_params c') = 0;
  en_flag : has_flag c' NO_ACCOUNTING = has_flag c NO_ACCOUNTING;
  en_link : dnlink c' = if dnprot c =? DNPROT_WPA then (fun _ => DHCP_AUTH_NONE) <$> dnlink c
                        else if (dnprot c =? DNPROT_MAC) || (dnprot c =? DNPROT_UAM) || (dnprot c =? DNPROT_DHCP_NONE) || (dnprot c =? DNPROT_NULL)
                             then (fun _ => DHCP_AUTH_DNAT) <$> dnlink c else dnlink c;
  en_events : exists attrs,
    es = run_script (condown o) c ++
         (if has_flag c NO_ACCOUNTING then [] else [Account RADIUS_STATUS_TYPE_STOP attrs]) /\
    value_of RADIUS_ATTR_ACCT_TERMINATE_CAUSE attrs = Some cause /\
    value_of RADIUS_ATTR_ACCT_SESSION_TIME attrs = Some (mainclock_diffu now (start_time (conn_clock c))) /\
    (is_u64 (input_octets (conn_count c)) -> is_u64 (output_octets (conn_count c)) ->
     reported_octets attrs = Some (input_octets (conn_count c), output_octets (conn_count c)));
}.

Lemma terminate_appconn_ok now rt c cause : authenticated (s_state c) = 1 ->
  exists c' es, terminate_appconn now rt c cause = Done (c', es) /\ ended now c cause c' es.
Proof.
  intros Ha. unfold Session.terminate_appconn. rewrite Ha. change (1 =? 1) with true. cbv iota.
  pose proof (dnprot_terminate_ok c) as Ht. cbv zeta in Ht. set (c1 := dnprot_terminate c) in *. clearbody c1.
  destruct Ht as (H1 & H2 & H3 & H4 & H5 & H6 & H7 & H8 & H9 & H10 & H11 & H12 & H13 & H14).
  cbv zeta. rewrite acct_req_stop. obind. eexists _, _. split; [done|].
  set (c2 := set_state (set_cause cause) c1).
  constructor; try done.
  exists (acct_attrs now c2 RADIUS_STATUS_TYPE_STOP). split.
  { assert (Hf : forall f, has_flag c2 f = has_flag c1 f) by done.
    unfold run_script. rewrite <- H5, <- H6, <- !Hf. done. }
  unfold value_of. split; [by rewrite cause_find|]. split.
  { erewrite usage_find by done. cbn. unfold conn_clock. by rewrite <- H3. }
  unfold conn_count. rewrite <- H2. intros Hi Ho. by apply (usage_reported now c2 _ (count (s_state c2))).
Qed.

(** *** The limits of a session *)

(** One of them has been exceeded; each counts only when it is set. *)
Definition over_limit (now rt : Z) (c : app_conn) : Prop :=
  let p := s_params c in
  let n := conn_count c in
  (sessiontimeout p <> 0 /\ sessiontimeout p < now - start_time (conn_clock c)) \/
  (sessionterminatetime p <> 0 /\ sessionterminatetime p < rt) \/
  (idletimeout p <> 0 /\ idletimeout p < now - last_sent_time (conn_clock c)) \/
  (maxinputoctets p <> 0 /\ maxinputoctets p < input_octets n) \/
  (maxoutputoctets p <> 0 /\ maxoutputoctets p < output_octets n) \/
  (maxtotaloctets p <> 0 /\ maxtotaloctets p < input_octets n + output_octets n).
(** Clock readings and counters in the range in which they are compared. *)
Record in_range (now rt : Z) (c : app_conn) : Prop := {
  ir_start : 0 <= start_time (conn_clock c) <= now;
  ir_sent : 0 <= last_sent_time (conn_clock c) <= now;
  ir_interim : 0 <= interim_time (conn_clock c) <= now;
  ir_now : now < 2 ^ 31;
  ir_rt : 0 <= rt < 2 ^ 31;
  ir_end : 0 <= sessionterminatetime (s_params c) < 2 ^ 31;
  ir_count : 0 <= input_octets (conn_count c) /\ 0 <= output_octets (conn_count c) /\
    input_octets (conn_count c) + output_octets (conn_count c) < 2 ^ 64;
}.

Local Ltac cause_lia := unfold RADIUS_TERMINATE_CAUSE_IDLE_TIMEOUT, RADIUS_TERMINATE_CAUSE_SESSION_TIMEOUT in *; lia.
Lemma limit_reached_ok now rt c : in_range now rt c ->
  exists r, limit_reached now rt c = Done r /\
    match r with
    | Some cause => over_limit now rt c /\
        (cause = RADIUS_TERMINATE_CAUSE_IDLE_TIMEOUT <->
           idletimeout (s_params c) <> 0 /\ idletimeout (s_params c) < now - last_sent_time (conn_clock c) /\
           ~ (sessiontimeout (s_params c) <> 0 /\ sessiontimeout (s_params c) < now - start_time (conn_clock c)) /\
           ~ (sessionterminatetime (s_params c) <> 0 /\ sessionterminatetime (s_params c) < rt)) /\
        (cause = RADIUS_TERMINATE_CAUSE_IDLE_TIMEOUT \/ cause = RADIUS_TERMINATE_CAUSE_SESSION_TIMEOUT)
    | None => ~ over_limit now rt c
    end.
Proof.
  intros [Hs Hl Hi Hn Hr He (Hc1 & Hc2 & Hc3)]. unfold limit_reached, over_limit, mainclock_rtdiff. cbv zeta.
  rewrite !diffu_ok, u64_small by lia.
  set (p := s_params c) in *. set (n := conn_count c) in *. set (ck := conn_clock c) in *.
  rewrite (proj2 (Z.leb_le _ _)), (proj2 (Z.ltb_lt (rt - _) _)) by lia. cbn [andb].
  destruct (Z.eqb_spec (sessiontimeout p) 0), (Z.ltb_spec (sessiontimeout p) (now - start_time ck)); cbn [negb andb];
    try (eexists; split; [done|]; cbn; cause_lia).
  all: destruct (Z.eqb_spec (sessionterminatetime p) 0); cbn [negb]; obind;
    [|destruct (Z.ltb_spec 0 (rt - sessionterminatetime p)); [eexists; split; [done|]; cbn; cause_lia|]].
  all: destruct (Z.eqb_spec (idletimeout p) 0), (Z.ltb_spec (idletimeout p) (now - last_sent_time ck)); cbn [negb andb];
    try (eexists; split; [done|]; cbn; cause_lia).
  all: destruct (Z.eqb_spec (maxinputoctets p) 0), (Z.ltb_spec (maxinputoctets p) (input_octets n)); cbn [negb andb];
    try (eexists; split; [done|]; cbn; cause_lia).
  all: destruct (Z.eqb_spec (maxoutputoctets p) 0), (Z.ltb_spec (maxoutputoctets p) (output_octets n)); cbn [negb andb];
    try (eexists; split; [done|]; cbn; cause_lia).
  all: destruct (Z.eqb_spec (maxtotaloctets p) 0), (Z.ltb_spec (maxtotaloctets p) (input_octets n + output_octets n)); cbn [negb andb];
    eexists; (split; [done|]; cbn; cause_lia).
Qed.

(** A session that goes on, with an interim report when one is due. *)
Record goes_on (now : Z) (c c' : app_conn) (es : list event) : Prop := {
  go_auth : authenticated (s_state c') = 1;
  go_params : s_params c' = s_params c;
  go_count : conn_count c' = conn_count c;
  go_buckets : conn_buckets c' = conn_buckets c;
  go_link : dnlink c' = dnlink c;
  go_start : start_time (conn_clock c') = start_time (conn_clock c);
  go_sent : last_sent_time (conn_clock c') = last_sent_time (conn_clock c);
  go_events :
    let due := interim_interval (s_params c) <> 0 /\ interim_interval (s_params c) <= now - interim_time (conn_clock c) in
    (due /\ has_flag c NO_ACCOUNTING = false /\ interim_time (conn_clock c') = now /\
     exists attrs, es = [Account RADIUS_STATUS_TYPE_INTERIM_UPDATE attrs] /\
       (is_u64 (input_octets (conn_count c)) -> is_u64 (output_octets (conn_count c)) ->
        reported_octets attrs = Some (input_octets (conn_count c), output_octets (conn_count c)))) \/
    ((~ due \/ has_flag c NO_ACCOUNTING = true) /\ es = []);
}.

Lemma session_interval_ok now rt c : authenticated (s_state c) = 1 -> in_range now rt c ->
  exists c' es, session_interval now rt c = Done (c', es) /\
    ((exists cause, over_limit now rt c /\ ended now c cause c' es /\
        (cause = RADIUS_TERMINATE_CAUSE_IDLE_TIMEOUT \/ cause = RADIUS_TERMINATE_CAUSE_SESSION_TIMEOUT)) \/
     (~ over_limit now rt c /\ goes_on now c c' es)).
Proof.
  intros Ha Hr. unfold Session.session_interval. rewrite Ha. change (1 =? 1) with true. cbv iota zeta.
  destruct (limit_reached_ok now rt c Hr) as (r & -> & Hlim). obind. destruct r as [cause|].
  - destruct Hlim as (Hover & _ & Hcause). destruct (terminate_appconn_ok now rt c cause Ha) as (c' & es & -> & He).
    exists c', es. split; [done|]. left. by exists cause.
  - destruct Hr as [_ _ Hi Hn _ _ _]. rewrite diffu_ok by done.
    assert (Hdue : negb (interim_interval (s_params c) =? 0) && (interim_interval (s_params c) <=? now - interim_time (conn_clock c)) = true <->
      interim_interval (s_params c) <> 0 /\ interim_interval (s_params c) <= now - interim_time (conn_clock c)) by lia.
    rewrite acct_req_interim. cbv zeta. set (c1 := set_state _ c).
    change (has_flag c1) with (has_flag c).
    destruct (_ && _); (eexists _, _; split; [done|]; right; split; [done|]); constructor; try done; cbv zeta.
    + destruct (has_flag c NO_ACCOUNTING) eqn:Ef; [right; by split; [right|]|].
      left. split; [by apply Hdue|]. split; [done|]. split; [done|]. eexists. split; [done|].
      intros. by apply (usage_reported now c1 _ (conn_count c)).
    + right. split; [left; intros H; by apply Hdue in H|done].
Qed.



(** C27: what a limit on the octets lets through, for a session that is authenticated,
    with limits on the octets (below 2^61) and a bandwidth in both directions, without
    swapoctets. If it is within its limits at some time, then at a later check, after
    any packets in between, the octets counted in a direction exceed the limit by no
    more than the size of the bucket and one eighth of the bandwidth for each second
    from the last packet before that time to the check; a session that exceeds a limit
    is ended by the check, with these octets in the report if it has accounting; and one
    that goes on is within its limits. *)
Theorem session_limit_overshoot l now rt c admin c' admin' up down :
  traffic o l c admin = (c', admin', up, down) -> swapoctets o = false -> authenticated (s_state c) = 1 -> shaped c ->
  0 <= last_time (conn_clock c) -> in_order (last_time (conn_clock c)) l -> last_at (last_time (conn_clock c)) l <= now ->
  in_range now rt c -> bandwidthmaxup (s_params c) <> 0 -> bandwidthmaxdown (s_params c) <> 0 ->
  let p := s_params c in
  output_octets (conn_count c) <= maxoutputoctets p < 2 ^ 61 -> input_octets (conn_count c) <= maxinputoctets p < 2 ^ 61 ->
  maxoutputoctets p <> 0 -> maxinputoctets p <> 0 ->
  bucketupsize (conn_buckets c) < 2 ^ 61 -> bucketdownsize (conn_buckets c) < 2 ^ 61 ->
  let dt := now - last_time (conn_clock c) in
  8 * output_octets (conn_count c') <= 8 * (maxoutputoctets p + bucketupsize (conn_buckets c)) + dt * bandwidthmaxup p /\
  8 * input_octets (conn_count c') <= 8 * (maxinputoctets p + bucketdownsize (conn_buckets c)) + dt * bandwidthmaxdown p /\
  exists c2 es, session_interval now rt c' = Done (c2, es) /\
    (maxoutputoctets p < output_octets (conn_count c') \/ maxinputoctets p < input_octets (conn_count c') ->
     authenticated (s_state c2) = 0 /\
     (has_flag c NO_ACCOUNTING = false -> exists attrs, Account RADIUS_STATUS_TYPE_STOP attrs ∈ es /\
        reported_octets attrs = Some (input_octets (conn_count c'), output_octets (conn_count c')))) /\
    (authenticated (s_state c2) = 1 ->
     output_octets (conn_count c2) <= maxoutputoctets p /\ input_octets (conn_count c2) <= maxinputoctets p).
Proof.
  intros Hr Hsw Ha Hs Ht Ho Hnow Hir Hbu Hbd p Hmo Hmi Hmo0 Hmi0 Hsu Hsd dt.
  eapply traffic_ok in Hr as (Hp & Hup & Hdown); try done.
  pose proof (pd_shaped _ _ _ _ _ Hp) as Hs'. pose proof (sh_up _ Hs'). pose proof (sh_down _ Hs').
  pose proof (pd_up _ _ _ _ _ Hp Hbu) as Hu. pose proof (pd_down _ _ _ _ _ Hp Hbd) as Hd.
  rewrite (pd_upsize _ _ _ _ _ Hp), (pd_downsize _ _ _ _ _ Hp) in *.
  pose proof (pd_dt _ _ _ _ _ Hp). pose proof (pd_time _ _ _ _ _ Hp). pose proof (pd_sent _ _ _ _ _ Hp).
  destruct Hs as [? ? ? ? Hbwu Hbwd]. destruct Hir as [Hst Hse Hin Hn Hrt He (Hc1 & Hc2 & Hc3)]. fold p in Hbu, Hbd, Hu, Hd, Hbwu, Hbwd.
  set (T := last_at _ l) in *. set (t0 := last_time (conn_clock c)) in *.
  assert (8 * up <= 8 * bucketupsize (conn_buckets c) + dt * bandwidthmaxup p) by (unfold dt; nia).
  assert (8 * down <= 8 * bucketdownsize (conn_buckets c) + dt * bandwidthmaxdown p) by (unfold dt; nia).
  assert (dt * bandwidthmaxup p < 2 ^ 63) by (unfold dt; nia). assert (dt * bandwidthmaxdown p < 2 ^ 63) by (unfold dt; nia).
  destruct (pd_u64 _ _ _ _ _ Hp) as [Ho' Hi']; [unfold is_u64, in_w; lia|].
  assert (Hout : output_octets (conn_count c') = output_octets (conn_count c) + up).
  { pose proof (pd_output _ _ _ _ _ Hp) as E. by rewrite !u64_small in E by (done || unfold is_u64, in_w in *; lia). }
  assert (Hinp : input_octets (conn_count c') = input_octets (conn_count c) + down).
  { pose proof (pd_input _ _ _ _ _ Hp) as E. by rewrite !u64_small in E by (done || unfold is_u64, in_w in *; lia). }
  split; [lia|]. split; [lia|].
  pose proof (pd_params _ _ _ _ _ Hp) as Hpp.
  destruct (session_interval_ok now rt c') as (c2 & es & Hsi & Hcase).
  { by rewrite (pd_auth _ _ _ _ _ Hp). }
  { constructor; rewrite ?(pd_start _ _ _ _ _ Hp), ?(pd_interim _ _ _ _ _ Hp), ?Hpp; try done; unfold dt in *; lia. }
  exists c2, es. split; [done|]. destruct Hcase as [(cause & Hover & Hend & _)|(Hno & Hgo)].
  - split; [|intros Hc; by rewrite (en_auth _ _ _ _ _ Hend) in Hc]. intros _. split; [apply Hend|]. intros Hf.
    destruct (en_events _ _ _ _ _ Hend) as (attrs & -> & _ & _ & Hrep). exists attrs.
    split; [|by apply Hrep]. unfold has_flag in *. rewrite Hpp, Hf. apply elem_of_app. right. by apply list_elem_of_singleton.
  - unfold over_limit in Hno. rewrite Hpp in Hno. fold p in Hno. split; [lia|]. intros _. rewrite (go_count _ _ _ _ Hgo). lia.
Qed.

(** *** What a session does not change *)

Definition frame (c : app_conn) : option nat * option nat * bool * bool * Z * Z * Z * bytes * Z :=
  (next c, prev c, inuse c, is_adminsession c, unit_ c, nasip_ c, nasport c, hismac c, hisip c).
Lemma dnprot_terminate_frame c : frame (dnprot_terminate c) = frame c.
Proof.
  unfold dnprot_terminate. cbv zeta. destruct (_ && _); cbn [dnprot set_state set_params clear_flag set_url];
    (destruct (dnprot c =? DNPROT_WPA); [done|]); by destruct (_ || _).
Qed.
Lemma terminate_appconn_frame now rt c cause c' es : terminate_appconn now rt c cause = Done (c', es) -> frame c' = frame c.
Proof.
  unfold Session.terminate_appconn. destruct (_ =? 1); [|by intros [= <- _]]. cbv zeta. rewrite acct_req_stop. obind. intros [= <- _].
  rewrite <- (dnprot_terminate_frame c). done.
Qed.
Lemma session_interval_frame now rt c c' es : session_interval now rt c = Done (c', es) -> frame c' = frame c.
Proof.
  unfold Session.session_interval. cbv zeta. destruct (_ =? 1); [|by intros [= <- _]].
  destruct (limit_reached now rt c) as [[cause|]| |]; cbn [mbind outcome_bind]; [apply terminate_appconn_frame| |done..].
  destruct (_ && _); [rewrite acct_req_interim|]; by intros [= <- _].
Qed.

(** ** Histories of a session *)

(** What happens to a session: a packet, an accepted login, the periodic check, an end
    for another reason.  [rt] is the reading of the clock for [mainclock_rt]. *)
Inductive action :=
| Packet (from : bool) (len : Z)
| Accept
| Interval (rt : Z)
| Terminate (rt cause : Z).
Definition act (now : Z) (a : action) (c admin : app_conn) : result (app_conn * app_conn * list event) :=
  match a with
  | Packet from len => let '(_, c, admin) := chilli_acct o now from c admin len in Done (c, admin, [])
  | Accept => '(c, es) ← dnprot_accept now c; Done (c, admin, es)
  | Interval rt => '(c, es) ← session_interval now rt c; Done (c, admin, es)
  | Terminate rt cause => '(c, es) ← terminate_appconn now rt c cause; Done (c, admin, es)
  end.
Fixpoint history (l : list (Z * action)) (c admin : app_conn) : result (app_conn * app_conn * list event) :=
  match l with
  | [] => Done (c, admin, [])
  | (now, a) :: l =>
    '(c, admin, es) ← act now a c admin;
    '(c, admin, es') ← history l c admin;
    Done (c, admin, es ++ es')
  end.

(** The accounting server's view: whether a session is open, and [None] when a report
    comes for a session that is not. *)
Fixpoint billing (open : bool) (es : list event) : option bool :=
  match es with
  | [] => Some open
  | Account status _ :: es =>
    if status =? RADIUS_STATUS_TYPE_START then billing true es
    else if status =? RADIUS_STATUS_TYPE_STOP then if open then billing false es else None
    else if status =? RADIUS_STATUS_TYPE_INTERIM_UPDATE then if open then billing open es else None
    else billing open es
  | _ :: es => billing open es
  end.
Lemma billing_app open es es' : billing open (es ++ es') = match billing open es with Some b => billing b es' | None => None end.
Proof.
  revert open. induction es as [|ev es IH]; intros open; [done|]. destruct ev; cbn [app billing]; try apply IH.
  destruct (status =? _); [apply IH|]. destruct (status =? _); [destruct open; [apply IH|done]|].
  destruct (status =? _); [destruct open; [apply IH|done]|apply IH].
Qed.
Lemma billing_script open s c : billing open (run_script s c) = Some open.
Proof. unfold run_script. destruct s; [|done]. by destruct (has_flag c NO_SCRIPT). Qed.

(** The statistics script can be used: by address it always answers a line; by user
    name it is not asked. *)
Definition statistics_ok (c : app_conn) : Prop :=
  if negb (smsotpmode o =? 0) || negb (macmode o =? 0)
  then dhcpif o <> None /\ forall command, popen command <> Some None
  else start_point (s_params c) = 0.
(** A session with accounting. *)
Record accounted (c : app_conn) : Prop := {
  ac_auth : authenticated (s_state c) = 0 \/ authenticated (s_state c) = 1;
  ac_flag : has_flag c NO_ACCOUNTING = false;
  ac_end : 0 <= sessionterminatetime (s_params c) < 2 ^ 31;
  ac_stats : statistics_ok c;
}.
Definition good_action (a : action) : Prop := match a with Interval rt => 0 <= rt < 2 ^ 31 | _ => True end.

Lemma leaky_bucket_keeps now c up down r c' : leaky_bucket o now c up down = (r, c') ->
  s_params c' = s_params c /\ authenticated (s_state c') = authenticated (s_state c).
Proof.
  unfold leaky_bucket. intros H.
  repeat match type of H with context [if ?b then _ else _] => destruct b end; by injection H as _ <-.
Qed.
Lemma chilli_acct_keeps now from c admin len r c' admin' : chilli_acct o now from c admin len = (r, c', admin') ->
  s_params c' = s_params c /\ authenticated (s_state c') = authenticated (s_state c).
Proof.
  unfold chilli_acct, chilli_acct_fromsub, chilli_acct_tosub. cbv zeta. intros H. destruct from.
  all: destruct (_ =? 1) in H; [|by injection H as _ <- _].
  all: destruct (leaky_bucket _ _ _ _ _) as [r1 c1] eqn:E in H; apply leaky_bucket_keeps in E as [E1 E2].
  all: destruct (negb _) in H; [by injection H as _ <- _|].
  all: by destruct (swapoctets o); injection H as _ <- _.
Qed.

Lemma add_usage_ok c : statistics_ok c -> exists c', add_usage o popen c = Done c' /\
  authenticated (s_state c') = authenticated (s_state c) /\ flags (s_params c') = flags (s_params c) /\
  sessionterminatetime (s_params c') = sessionterminatetime (s_params c) /\ start_point (s_params c') = start_point (s_params c).
Proof.
  unfold statistics_ok, add_usage, earlier_usage. destruct (_ || _).
  - intros [Hd Hp]. unfold check_mac. destruct (dhcpif o) as [ifname|]; [|done]. obind.
    unfold script_line. set (cmd := check_command _ _ _ _ _). specialize (Hp cmd). destruct (popen cmd) as [[line|]|]; [|done|by exists c].
    obind. destruct (field line) as [dl pl]. destruct (field (skip_colon pl)) as [ul pl2]. destruct (field (skip_colon pl2)) as [tm pl3].
    obind. by destruct (negb (maxinputoctets _ =? 0)), (negb (maxoutputoctets _ =? 0)), (negb (sessiontimeout _ =? 0)); eexists.
  - intros H0. unfold check_user. destruct (dhcpif o); [|by exists c]. rewrite H0. by exists c.
Qed.

Lemma accounted_ext c c' :
  accounted c -> (authenticated (s_state c') = 0 \/ authenticated (s_state c') = 1) ->
  has_flag c' NO_ACCOUNTING = has_flag c NO_ACCOUNTING ->
  sessionterminatetime (s_params c') = sessionterminatetime (s_params c) -> start_point (s_params c') = start_point (s_params c) ->
  accounted c'.
Proof.
  intros [H1 H2 H3 H4] Ha Hf He Hst. constructor; [done|by rewrite Hf|by rewrite He|].
  unfold statistics_ok in *. destruct (_ || _); [done|]. by rewrite Hst.
Qed.
Lemma accounted_clear j c : 0 <= j -> j <> 4 -> accounted c -> accounted (clear_flag (2 ^ j) c).
Proof. intros Hj Hne Hc. apply (accounted_ext c); try done; [apply Hc|]. by apply (has_flag_clear c 4 j). Qed.

(** A step is billed: its requests fit the state before it and lead to the state
    after it. *)
Definition billed (c : app_conn) (r : result (app_conn * list event)) : Prop :=
  exists c' es, r = Done (c', es) /\ accounted c' /\
    billing (authenticated (s_state c) =? 1) es = Some (authenticated (s_state c') =? 1).

Lemma accepted_billed now c : accounted c -> forall b, billed c (accepted now b c).
Proof.
  intros Hc b. unfold Session.accepted. set (c1 := if b && _ then _ else c).
  assert (H1 : accounted c1) by (unfold c1; destruct (b && _); [|done]; apply (accounted_ext c); try done; apply Hc).
  assert (Ha1 : authenticated (s_state c1) = authenticated (s_state c)) by (unfold c1; by destruct (b && _)).
  clearbody c1. cbv zeta. unfold billed. rewrite <- Ha1. clear Ha1. destruct (negb (has_flag c1 REQUIRE_UAM_AUTH)); obind.
  - unfold Session.acct_req. change (_ || _) with true. cbv iota zeta.
    set (c2 := set_state (set_count _) _).
    assert (H2 : accounted c2) by (apply (accounted_ext c1); try done; by right).
    destruct (add_usage_ok c2 (ac_stats _ H2)) as (c3 & -> & Ha3 & Hf3 & He3 & Hs3). obind.
    assert (H3 : accounted c3).
    { apply (accounted_ext c2); try done; [rewrite Ha3; by right|]. unfold has_flag. by rewrite Hf3. }
    rewrite (ac_flag _ H3). cbn [app]. eexists _, _. split; [done|]. split; [by apply (accounted_clear 3)|].
    cbn [billing]. change (RADIUS_STATUS_TYPE_START =? RADIUS_STATUS_TYPE_START) with true. cbv iota.
    rewrite billing_script. change (authenticated (s_state (clear_flag IS_UAM_REAUTH c3))) with (authenticated (s_state c3)).
    by rewrite Ha3.
  - eexists _, _. split; [done|]. split; [by apply (accounted_clear 3)|done].
Qed.
Lemma accept_billed now c : accounted c -> billed c (dnprot_accept now c).
Proof.
  intros Hc. assert (Hsame : billed c (Done (c, []))) by (by exists c, []).
  unfold Session.dnprot_accept. destruct (is_adminsession c); [done|]. destruct (hisip c =? 0); [done|].
  destruct (dnlink c); [|done].
  assert (Hset : forall c1 v, accounted c1 -> accounted (set_authstate v c1))
    by (intros c1 v H1; apply (accounted_ext c1); try done; apply H1).
  assert (Hgo : forall c1 pre, accounted c1 -> authenticated (s_state c1) = authenticated (s_state c) ->
    (forall open es, billing open (pre ++ es) = billing open es) ->
    forall r, r = ('(c, es) ← accepted now true c1; Done (c, pre ++ es)) -> billed c r).
  { intros c1 pre H1 Ha1 Hpre r ->. destruct (accepted_billed now c1 H1 true) as (c' & es & -> & H' & Hb). obind.
    exists c', (pre ++ es). split; [done|]. split; [done|]. by rewrite Hpre, <- Ha1. }
  cbv zeta. destruct (dnprot c =? DNPROT_UAM); [|destruct (dnprot c =? DNPROT_WPA); [|destruct (dnprot c =? DNPROT_MAC); [|done]]].
  - apply (Hgo (clear_flag REQUIRE_UAM_AUTH (set_authstate DHCP_AUTH_PASS c)) [Set_addrs (hisip c)]); try done.
    apply (accounted_clear 0); auto; lia.
  - eapply (Hgo _ [Set_addrs (hisip c); Access_accept]); [| |done|done]; destruct (has_flag c REQUIRE_UAM_AUTH); try done.
    + apply Hset, (accounted_ext c); try done. apply Hc.
    + by apply Hset.
  - apply (Hgo (set_authstate DHCP_AUTH_PASS c) [Set_addrs (hisip c)]); try done. by apply Hset.
Qed.

Lemma terminate_billed now rt cause c : accounted c -> billed c (terminate_appconn now rt c cause).
Proof.
  intros Hc. destruct (ac_auth _ Hc) as [Ha|Ha].
  - unfold Session.terminate_appconn, billed. rewrite Ha. exists c, []. by rewrite Ha.
  - destruct (terminate_appconn_ok now rt c cause Ha) as (c' & es & Ht & He). exists c', es. split; [done|]. split.
    + constructor; [left; apply He|by rewrite (en_flag _ _ _ _ _ He), (ac_flag _ Hc)|rewrite (en_end _ _ _ _ _ He); lia|].
      pose proof (ac_stats _ Hc) as Hs. unfold statistics_ok in *. destruct (_ || _); [done|]. apply He.
    + destruct (en_events _ _ _ _ _ He) as (attrs & -> & _). rewrite (ac_flag _ Hc), billing_app, billing_script, Ha.
      by rewrite (en_auth _ _ _ _ _ He).
Qed.
Lemma limit_reached_done now rt c : 0 <= rt < 2 ^ 31 -> 0 <= sessionterminatetime (s_params c) < 2 ^ 31 ->
  exists r, limit_reached now rt c = Done r.
Proof.
  intros Hr He. unfold limit_reached, mainclock_rtdiff. cbv zeta.
  rewrite (proj2 (Z.leb_le (- 2 ^ 31) _)), (proj2 (Z.ltb_lt _ (2 ^ 31))) by lia. cbn [andb]. obind.
  destruct (_ && (sessiontimeout _ <? _)); [by eexists|]. destruct (negb (sessionterminatetime _ =? 0)); obind; by eexists.
Qed.
Lemma interval_billed now rt c : 0 <= rt < 2 ^ 31 -> accounted c -> billed c (session_interval now rt c).
Proof.
  intros Hr Hc. assert (Hsame : billed c (Done (c, []))) by (by exists c, []).
  unfold Session.session_interval. cbv zeta. destruct (Z.eqb_spec (authenticated (s_state c)) 1) as [Ha|_]; [|done].
  destruct (limit_reached_done now rt c Hr (ac_end _ Hc)) as [r ->]. obind.
  destruct r as [cause|]; [by apply terminate_billed|]. destruct (_ && _); [|done].
  rewrite acct_req_interim. cbv zeta. set (c1 := set_state _ c).
  assert (H1 : accounted c1) by (apply (accounted_ext c); try done; apply Hc).
  rewrite (ac_flag _ H1). eexists _, _. split; [done|]. split; [done|]. unfold c1. cbn. by rewrite Ha.
Qed.
Lemma act_billed now a c admin : good_action a -> accounted c ->
  exists c' admin' es, act now a c admin = Done (c', admin', es) /\ accounted c' /\
    billing (authenticated (s_state c) =? 1) es = Some (authenticated (s_state c') =? 1).
Proof.
  assert (Hlift : forall r, billed c r -> exists c' admin' es, ('(c, es) ← r; Done (c, admin, es)) = Done (c', admin', es) /\
    accounted c' /\ billing (authenticated (s_state c) =? 1) es = Some (authenticated (s_state c') =? 1)).
  { intros r (c' & es & -> & H1 & H2). by exists c', admin, es. }
  intros Hg Hc. destruct a as [from len| |rt|rt cause]; cbn [act].
  - destruct (chilli_acct o now from c admin len) as [[r c'] admin'] eqn:E. apply chilli_acct_keeps in E as [E1 E2].
    exists c', admin', []. split; [done|]. rewrite E2. split; [|done]. apply (accounted_ext c); try done; rewrite ?E1; try done.
    + rewrite E2. apply Hc.
    + unfold has_flag. by rewrite E1.
  - by apply Hlift, accept_billed.
  - by apply Hlift, interval_billed.
  - by apply Hlift, terminate_billed.
Qed.

(** C12: the accounting server sees a session that is open exactly while the subscriber
    is authenticated. Take a session with accounting (without the flag for none), whose
    statistics script, if there is one, can be used: asked by the client's address it
    always prints a line, and by user name it is not asked, as the session has no
    starting point (else the code reads a variable it has not set: see
    [time_not_initialised]). Whatever then happens to this session - packets, logins
    (also of one who is logged in), periodic checks, ends for any reason, in any order -
    no step goes wrong, a report of the usage or of the end only ever comes for a
    session that is open, so that each start has at most one stop, and after the last
    request the session is open if and only if it is authenticated. *)
Theorem accounting_balanced l c admin :
  accounted c -> Forall (fun x => good_action x.2) l ->
  exists c' admin' es, history l c admin = Done (c', admin', es) /\ accounted c' /\
    billing (authenticated (s_state c) =? 1) es = Some (authenticated (s_state c') =? 1).
Proof.
  intros Hc Hl. revert c admin Hc. induction Hl as [|[now a] l Ha _ IH]; intros c admin Hc; cbn [history].
  - by exists c, admin, [].
  - destruct (act_billed now a c admin Ha Hc) as (c1 & admin1 & es1 & -> & H1 & Hb1). obind.
    destruct (IH c1 admin1 H1) as (c2 & admin2 & es2 & -> & H2 & Hb2). obind.
    exists c2, admin2, (es1 ++ es2). split; [done|]. split; [done|]. by rewrite billing_app, Hb1.
Qed.
End Requests.

(** ** The packets of accounting requests *)

Section Reports.
Context `{Digest} (conf : RadiusQueue.radius_conf)
  (Hqsize : is_u8 (RadiusQueue.qsize conf)).

(** Arguments [radius_addattr] can use, and the attribute it makes of them. *)
Record good_add (a : addattr) : Prop := {
  ga_type : 1 <= ad_type a < 256;
  ga_password : ad_type a <> RADIUS_ATTR_USER_PASSWORD;
  ga_vtype : is_u8 (ad_vtype a);
  ga_data : data_ok (ad_data a) (ad_len a);
  ga_vendor : ad_type a = RADIUS_ATTR_VENDOR_SPECIFIC -> ad_len a <= 245;
}.
Definition to_attr (a : addattr) : attr :=
  Attr (ad_type a) (attr_value (ad_type a) (ad_vendor a) (ad_vtype a) (ad_value a) (ad_data a) (ad_len a)).

Lemma add_all_ok l : forall p code id auth l0,
  packet p code id auth l0 -> Forall good_add l ->
  (20 + length (encode_all l0) + length (encode_all (map to_attr l)) <= 1600)%nat ->
  exists p', add_all conf p l = Done p' /\ packet p' code id auth (l0 ++ map to_attr l).
Proof.
  induction l as [|a l IH]; intros p code id auth l0 Hp Hl Hfit; cbn [add_all map] in *.
  - exists p. by rewrite app_nil_r.
  - apply Forall_cons in Hl as [[] Hl]. rewrite encode_all_cons, length_app, length_encode in Hfit. cbn [a_value to_attr] in Hfit.
    destruct (addattr_ok (RadiusQueue.secret conf) p code id auth l0 (ad_type a) (ad_vendor a) (ad_vtype a) (ad_value a)
      (ad_data a) (ad_len a)) as (p1 & -> & Hp1); try done; try lia. obind.
    destruct (IH p1 code id auth (l0 ++ [to_attr a])) as (p2 & -> & Hp2); try done.
    { rewrite encode_all_app, length_app, encode_all_cons, length_app, length_encode. cbn. lia. }
    exists p2. split; [done|]. by rewrite <- app_assoc in Hp2.
Qed.

(** The number a receiver finds in the first attribute of a type. *)
Definition number_in (pack : bytes) (type : Z) : result (option Z) :=
  t ← radius_getattr pack type 0 0 0;
  match t with
  | Some t => w ← read pack (t + 2) 4; Done (Some (be_val w))
  | None => Done None
  end.

Lemma find_split {A} (f : A -> bool) l a : List.find f l = Some a ->
  exists l1 l2, l = l1 ++ a :: l2 /\ f a = true /\ List.find f l1 = None.
Proof.
  induction l as [|b l IH]; [done|]. cbn. destruct (f b) eqn:E.
  - intros [= <-]. by exists [], l.
  - intros (l1 & l2 & -> & Ha & Hn)%IH. exists (b :: l1), l2. split; [done|]. split; [done|]. cbn. by rewrite E.
Qed.
Lemma find_attr_plain type n l : type <> RADIUS_ATTR_VENDOR_SPECIFIC ->
  List.find (fun a => a_type a =? type) l = None -> forall a l2, a_type a = type ->
  find_attr type 0 0 0 n (l ++ a :: l2) = Some (n + length (encode_all l))%nat.
Proof.
  intros Hv. assert (Hm : forall a, matches type 0 0 a = (a_type a =? type))
    by (intros a; unfold matches; rewrite andb_false_r; cbn; by rewrite andb_true_r).
  revert n. induction l as [|b l IH]; intros n Hl a l2 Ha; cbn [app find_attr].
  - rewrite Hm, Ha, Z.eqb_refl. rewrite andb_false_r. f_equal. cbn. lia.
  - cbn [List.find] in Hl. rewrite Hm. destruct (a_type b =? type); [done|]. rewrite IH by done.
    rewrite encode_all_cons, length_app. f_equal. lia.
Qed.
Lemma number_in_ok p code id auth l0 l type a :
  packet p code id auth (l0 ++ map to_attr l) -> type <> RADIUS_ATTR_VENDOR_SPECIFIC ->
  List.find (fun a => a_type a =? type) l0 = None -> List.find (fun a => ad_type a =? type) l = Some a ->
  ad_data a = None -> ad_len a = 0 -> is_u32 (ad_value a) ->
  number_in p type = Done (Some (ad_value a)).
Proof.
  intros Hp Hv H0 Hl Hd Hn Hu. apply find_split in Hl as (l1 & l2 & -> & Ha & H1). apply Z.eqb_eq in Ha.
  rewrite map_app in Hp. cbn [map] in Hp. rewrite app_assoc in Hp. unfold number_in. rewrite (getattr_ok p code id auth _ type 0 0 0 Hp) by lia.
  rewrite find_attr_plain; [|done| |done].
  2: { rewrite find_app_none by done. clear -H1. induction l1 as [|b l1 IH]; [done|]. cbn in *. by destruct (ad_type b =? type); auto. }
  obind. pose proof (packet_read _ _ _ _ _ _ _ Hp) as Hr. set (k := (20 + _)%nat) in *.
  assert (Hval : a_value (to_attr a) = be_bytes 4 (ad_value a)).
  { unfold to_attr, attr_value. cbn [a_value]. rewrite Ha, (proj2 (Z.eqb_neq _ _)) by done. by rewrite Hd, Hn. }
  unfold encode in Hr. rewrite Hval in Hr. unfold read, slice in *. rewrite length_app, length_be_bytes in Hr. cbn [length] in Hr.
  destruct (decide _) as [Hk|]; [|done]. injection Hr as Hr. rewrite decide_True by lia. obind.
  assert (E : take 4 (drop (k + 2) p) = be_bytes 4 (ad_value a)).
  { rewrite <- drop_drop, <- (take_drop 6 (drop k p)), Hr. done. }
  rewrite E, be_val_bytes4. by rewrite u32_small.
Qed.

(** C28: the server reads the session's usage out of the packet of an interim or stop
    request: the packet is built from [radius_default_pack]'s attributes and those of
    [acct_req], and a receiver that looks for the octet and gigaword attributes finds
    the two halves of the 64-bit counters, and for a stop the cause. *)
Theorem accounting_report q rs auth version wall o e inet_aton nas_hwaddr sysinfo now c status :
  RadiusQueue.rep conf q rs -> is_u8 (RadiusQueue.nextid q) ->
  (RadiusQueue.qsize conf = 0 -> (length rs < RadiusQueue.slots conf)%nat) ->
  is_bytes auth -> (16 <= length auth)%nat -> is_bytes version -> (0 < length version <= 245)%nat ->
  is_update status = true -> is_u64 (input_octets (conn_count c)) -> is_u64 (output_octets (conn_count c)) ->
  is_u32 (terminate_cause (s_state c)) ->
  let attrs := acct_attrs o e inet_aton nas_hwaddr sysinfo now c status in
  Forall good_add attrs ->
  (20 + length (encode_all (RadiusQueue.default_attrs conf version wall RADIUS_CODE_ACCOUNTING_REQUEST)) +
   length (encode_all (map to_attr attrs)) <= 1600)%nat ->
  exists q' pack, acct_pack conf (Some auth) version wall q attrs = Done (0, q', pack) /\
    (exists low high,
       number_in pack RADIUS_ATTR_ACCT_INPUT_OCTETS = Done (Some low) /\
       number_in pack RADIUS_ATTR_ACCT_INPUT_GIGAWORDS = Done (Some high) /\
       low + 2 ^ 32 * high = input_octets (conn_count c)) /\
    (exists low high,
       number_in pack RADIUS_ATTR_ACCT_OUTPUT_OCTETS = Done (Some low) /\
       number_in pack RADIUS_ATTR_ACCT_OUTPUT_GIGAWORDS = Done (Some high) /\
       low + 2 ^ 32 * high = output_octets (conn_count c)) /\
    (status = RADIUS_STATUS_TYPE_STOP ->
       number_in pack RADIUS_ATTR_ACCT_TERMINATE_CAUSE = Done (Some (terminate_cause (s_state c)))).
Proof using Hqsize.
  intros Hr Hid Hfree Ha Hal Hv Hvl Hup Hi Ho Hc attrs Hgood Hfit.
  destruct (RadiusQueue.radius_default_pack_builds conf Hqsize q rs auth version wall RADIUS_CODE_ACCOUNTING_REQUEST)
    as (id & q' & p0 & Hp0 & _ & _ & _ & Hp & _); [done..|by split|].
  destruct (add_all_ok attrs p0 _ _ _ _ (RadiusQueue.po_packet _ _ _ _ _ Hp) Hgood Hfit) as (p1 & Hp1 & Hpk).
  exists q', p1. unfold acct_pack. rewrite Hp0. obind. change (negb (0 =? 0)) with false. cbv iota. rewrite Hp1. split; [done|].
  assert (Hnum : forall type v, type <> RADIUS_ATTR_VENDOR_SPECIFIC -> type <> RadiusQueue.RADIUS_ATTR_EVENT_TIMESTAMP ->
    is_u32 v -> find_type type attrs = Some (int_attr type v) -> number_in p1 type = Done (Some v)).
  { intros type v H26 H55 Hv32 Hf. apply (number_in_ok _ _ _ _ _ _ _ (int_attr type v) Hpk H26); [|exact Hf|done..].
    unfold RadiusQueue.default_attrs. change (RadiusQueue.one_of _ _) with true. rewrite Z.eqb_refl.
    cbn [app List.find a_type]. by rewrite !(proj2 (Z.eqb_neq _ type)) by congruence. }
  split; [|split; [|intros ->; apply Hnum; [done..|apply cause_find]]]; (eexists _, _; split; [|split]).
  all: try (apply Hnum; [done|done|apply u32_range|by apply usage_find]); by apply split_u64.
Qed.
End Reports.

(** ** A subscriber *)

Definition demo_options : options :=
  Options 0 0 0 0 0 (Some (str "br0")) 0 0 0 0 0 0 0 0 0 None (Some (str "/etc/chilli/down.sh")) false
    false false 19 (Some (str "nas01")) None None None None 0 0x0a010001.
(** 80 kbit/s up, 160 kbit/s down, 20000 octets each way, an hour. *)
Definition demo_params : session_params := Params [] [] 80000 160000 20000 20000 0 0 0 3600 600 300 0 0.
Definition demo_state (auth : Z) : session_state :=
  State (Redir (str "alice") [] [] [] []) auth (str "5f00000000000001") (Times 100 100 100 100) (Octets 0 0 0 0 0 0) 0 0
    (Bucket 0 0 10000 20000).
Definition demo_conn (auth : Z) : app_conn :=
  Conn None None true false 1 DNPROT_UAM 0 (Some DHCP_AUTH_PASS) 0 0 [0; 30; 66; 1; 2; 3] 0x0a010005 demo_params (demo_state auth).
Definition demo_admin : app_conn :=
  Conn None None true true 0 0 0 None 0 0 [] 0 (Params [] [] 0 0 0 0 0 0 0 0 0 0 0 0) (demo_state 1).
Definition no_script (command : bytes) : option (option bytes) := None.
Definition no_aton (s : bytes) : option Z := None.
Definition demo_mac : bytes := [0; 30; 66; 255; 254; 253].

(** Twelve packets of 1500 octets within a second, then a pause. *)
Definition demo_packets : list (Z * bool * Z) :=
  replicate 8 (101, true, 1500) ++ replicate 4 (101, false, 1500) ++ [(103, true, 1500)].

Lemma demo_shaped auth : shaped (demo_conn auth).
Proof. constructor; cbn; lia. Qed.
Lemma demo_in_order : in_order 100 demo_packets.
Proof. cbn. lia. Qed.
Lemma demo_in_range : in_range 104 1000 (demo_conn 1).
Proof. constructor; cbn; lia. Qed.
Lemma demo_accounted : accounted demo_options no_script (demo_conn 1).
Proof. constructor; try done. by right. Qed.

(** ** What goes wrong *)

(** With the view of the server swapped ([swapoctets]), a packet from the subscriber is
    added to the administrative session's counter twice, and never to the counter of
    the subscriber's session. *)
Definition swapped_options : options :=
  Options 0 0 0 0 0 (Some (str "br0")) 0 0 0 0 0 0 0 0 0 None None true false false 19 None None None None None 0 0.
Lemma swapped_counters :
  let '(r, c, admin) := chilli_acct_fromsub swapped_options 101 (demo_conn 1) demo_admin 1500 in
  r = 0 /\ input_octets (conn_count c) = 1500 /\ input_octets_session (conn_count c) = 0 /\
  input_octets_session (conn_count admin) = 3000.
Proof. vm_compute. by split. Qed.

(** Subscribers known by address ([macmode]), of whom the script knows that they have
    used two hours: the hour that they may use becomes no limit at all. *)
Definition mac_options : options :=
  Options 0 0 0 0 1 (Some (str "br0")) 0 0 0 0 0 0 0 0 0 None None false false false 19 None None None None None 0 0.
Definition two_hours (command : bytes) : option (option bytes) := Some (Some (str "10:20:7200" ++ [10])).
Lemma exhausted_time :
  match add_usage mac_options two_hours (demo_conn 1) with
  | Done c => sessiontimeout (s_params (demo_conn 1)) = 3600 /\ sessiontimeout (s_params c) = 0 /\
      limit_reached 1000000 0 (set_state (set_clock (set_last_sent_time 1000000)) c) = Done None
  | _ => False
  end.
Proof. vm_compute. by split. Qed.

(** Octets of earlier sessions are read with [atoi]: five billion become 2 ^ 31 - 1. *)
Definition five_billion (command : bytes) : option (option bytes) := Some (Some (str "5000000000:20:0" ++ [10])).
Lemma earlier_octets_saturate :
  match add_usage mac_options five_billion (demo_conn 1) with
  | Done c => input_octets (conn_count c) = 2147483647
  | _ => False
  end.
Proof. by vm_compute. Qed.

(** Subscribers known by name: the script reports no time, and the time that is then
    subtracted was never stored. *)
Definition quota_conn : app_conn := set_params (fun p =>
  Params (url p) (filterid p) (bandwidthmaxup p) (bandwidthmaxdown p) (maxinputoctets p) (maxoutputoctets p) 1 30
    (maxtotaloctets p) (sessiontimeout p) (idletimeout p) (interim_interval p) (sessionterminatetime p) (flags p)) (demo_conn 0).
Definition some_octets (command : bytes) : option (option bytes) := Some (Some (str "10:20" ++ [10])).
Lemma time_not_initialised : add_usage demo_options some_octets quota_conn = Fault.
Proof. by vm_compute. Qed.

(** The name goes to a shell as it is. *)
Lemma name_in_command :
  check_command (str "check") (str "a;reboot") (str "br0") 30 1 = str "/usr/sbin/statistics check a;reboot br0 30 1 2>&1".
Proof. by vm_compute. Qed.

(** ** Witnesses *)

Lemma session_traffic_bound_witness :
  exists c' admin' up down, traffic demo_options demo_packets (demo_conn 1) demo_admin = (c', admin', up, down) /\
    up = 10500 /\ 8 * up <= 8 * 10000 + 3 * 80000 /\ u64 (output_octets (conn_count c')) = 10500.
Proof.
  destruct (traffic demo_options demo_packets (demo_conn 1) demo_admin) as [[[c' admin'] up] down] eqn:E.
  pose proof (session_traffic_bound demo_options demo_packets (demo_conn 1) demo_admin c' admin' up down E eq_refl eq_refl
    (demo_shaped 1) ltac:(cbn; lia) demo_in_order) as (H1 & _ & _ & H4 & _).
  assert (Hup : up = 10500) by (vm_compute in E; congruence). exists c', admin', up, down. split; [reflexivity|].
  split; [exact Hup|]. split; [apply H1; discriminate|]. rewrite H4, Hup. reflexivity.
Defined.
Lemma session_limit_overshoot_witness :
  exists c' admin' up down, traffic demo_options demo_packets (demo_conn 1) demo_admin = (c', admin', up, down) /\
    8 * output_octets (conn_count c') <= 8 * 30000 + 4 * 80000.
Proof.
  destruct (traffic demo_options demo_packets (demo_conn 1) demo_admin) as [[[c' admin'] up] down] eqn:E.
  exists c', admin', up, down. split; [reflexivity|].
  refine (proj1 (session_limit_overshoot demo_options no_script LE no_aton demo_mac None demo_packets 104 1000 (demo_conn 1)
    demo_admin c' admin' up down E eq_refl eq_refl (demo_shaped 1) _ demo_in_order _ demo_in_range _ _ _ _ _ _ _ _));
    vm_compute; try split; congruence.
Defined.
Lemma accounting_balanced_witness :
  exists c' admin' es,
    history demo_options no_script LE no_aton demo_mac None
      [(101, Packet true 1500); (102, Accept); (402, Interval 5); (403, Terminate 6 1); (404, Interval 7); (405, Accept)]
      (demo_conn 1) demo_admin = Done (c', admin', es) /\ billing true es = Some true.
Proof.
  destruct (accounting_balanced demo_options no_script LE no_aton demo_mac None
    [(101, Packet true 1500); (102, Accept); (402, Interval 5); (403, Terminate 6 1); (404, Interval 7); (405, Accept)]
    (demo_conn 1) demo_admin demo_accounted) as (c' & admin' & es & H1 & _ & H2); [repeat constructor; cbn; lia|].
  exists c', admin', es. split; [exact H1|]. change (authenticated (s_state (demo_conn 1)) =? 1) with true in H2. rewrite H2.
  vm_compute in H1. injection H1 as <- <- <-. reflexivity.
Defined.

Definition good_addb (a : addattr) : bool :=
  (1 <=? ad_type a) && (ad_type a <? 256) && negb (ad_type a =? RADIUS_ATTR_USER_PASSWORD) &&
  (0 <=? ad_vtype a) && (ad_vtype a <? 256) && (0 <=? ad_len a) && (ad_len a <=? 245) &&
  match ad_data a with
  | Some d => forallb (fun b => (0 <=? b) && (b <? 2 ^ 8)) d && (ad_len a <=? Z.of_nat (length d)) && negb (ad_len a =? 0)
  | None => true
  end.
Lemma good_add_check l : forallb good_addb l = true -> Forall good_add l.
Proof.
  intros H. apply Forall_forall. intros a Ha. rewrite forallb_forall in H. specialize (H a). rewrite <- list_elem_of_In in H.
  specialize (H Ha). unfold good_addb in H. rewrite !andb_true_iff in H.
  destruct H as [[[[[[[H1 H2] H3] H4] H5] H6] H7] H8]. constructor; try lia; try (unfold is_u8, in_w; lia).
  split; [lia|]. destruct (ad_data a) as [d|]; [|done]. rewrite !andb_true_iff in H8. destruct H8 as [[H8 H9] H10].
  split; [by apply is_bytes_check|]. lia.
Qed.
(** More than 4 gigabytes down. *)
Definition busy_conn : app_conn := set_state (set_count (fun _ => Octets 9 7 5000000000 0 0 1234567)) (demo_conn 1).
Lemma accounting_report_witness :
  exists q' pack,
    @acct_pack RadiusQueue.demo_digest RadiusQueue.demo_conf (Some demo_auth) (str "1.3.0") 1500000000 RadiusQueue.demo_queue
      (acct_attrs demo_options LE no_aton demo_mac None 200 busy_conn 2) = Done (0, q', pack) /\
    number_in pack RADIUS_ATTR_ACCT_INPUT_GIGAWORDS = Done (Some 1) /\
    number_in pack RADIUS_ATTR_ACCT_INPUT_OCTETS = Done (Some 705032704).
Proof.
  destruct (@accounting_report RadiusQueue.demo_digest RadiusQueue.demo_conf RadiusQueue.demo_qsize RadiusQueue.demo_queue
    RadiusQueue.demo_requests demo_auth (str "1.3.0") 1500000000 demo_options LE no_aton demo_mac None 200 busy_conn 2
    RadiusQueue.demo_rep) as (q' & pack & H1 & (low & high & H2 & H3 & H4) & _).
  1: by split. 1: by intros. 1: solve_bytes. 1: cbn; lia. 1: solve_bytes. 1: cbn; lia. 1: reflexivity. 1: by split. 1: by split. 1: by split.
  1: by apply good_add_check; vm_compute. 1: vm_compute; lia.
  exists q', pack. split; [exact H1|]. vm_compute in H1. injection H1 as _ <-. split; vm_compute; reflexivity.
Defined.
End Session.
