(* ===== verification/Conns.v ===== *)
(** * The connections of the hotspot daemon ([package/coova-chilli/src/src/chilli.c])

    Each subscriber has a [struct app_conn_t].  Those in use and those free are two
    doubly linked lists through their [next] and [prev] members ([Chains]); memory once
    allocated is never given back, so that a pointer is the number of the allocation.
    The periodic check and the end of the daemon walk the list in use and treat each
    session with the functions of [Session]. *)

From S2P Require Import Prelude CLib Mem Chains Dlist Md5 Radius RadiusQueue Session.

Module Conns.
Import Mem Dlist Session.

Definition CHECK_INTERVAL : Z := 3.

(** The variables of the daemon these functions use: [conns] are the cells with
    [firstusedconn], [lastusedconn], [firstfreeconn] and [lastfreeconn]. *)
Record chilli := Chilli {
  conns : arena app_conn;
  connections : Z;
  admin_session : app_conn;
  checktime : Z; rereadtime : Z; skip_update : Z; do_interval : bool;
}.
Definition heap (w : chilli) : list app_conn := cells (conns w).
Definition firstusedconn (w : chilli) : option nat := e_first (used_ends (conns w)).
Definition firstfreeconn (w : chilli) : option nat := e_first (free_ends (conns w)).

Definition set_conns (v : arena app_conn) (w : chilli) : chilli :=
  Chilli v (connections w) (admin_session w) (checktime w) (rereadtime w) (skip_update w) (do_interval w).
Definition set_heap (v : list app_conn) (w : chilli) : chilli := set_conns (set_cells v (conns w)) w.
Definition set_connections (v : Z) (w : chilli) : chilli :=
  Chilli (conns w) v (admin_session w) (checktime w) (rereadtime w) (skip_update w) (do_interval w).
Definition set_admin (v : app_conn) (w : chilli) : chilli :=
  Chilli (conns w) (connections w) v (checktime w) (rereadtime w) (skip_update w) (do_interval w).
Definition set_timers (check reread skip : Z) (interval : bool) (w : chilli) : chilli :=
  Chilli (conns w) (connections w) (admin_session w) check reread skip interval.

Definition set_next (v : option nat) (c : app_conn) : app_conn :=
  Conn v (prev c) (inuse c) (is_adminsession c) (unit_ c) (dnprot c) (rt c) (dnlink c) (nasip_ c) (nasport c)
    (hismac c) (hisip c) (s_params c) (s_state c).
Definition set_prev (v : option nat) (c : app_conn) : app_conn :=
  Conn (next c) v (inuse c) (is_adminsession c) (unit_ c) (dnprot c) (rt c) (dnlink c) (nasip_ c) (nasport c)
    (hismac c) (hisip c) (s_params c) (s_state c).
Definition set_unit (v : Z) (c : app_conn) : app_conn :=
  Conn (next c) (prev c) (inuse c) (is_adminsession c) v (dnprot c) (rt c) (dnlink c) (nasip_ c) (nasport c)
    (hismac c) (hisip c) (s_params c) (s_state c).
Definition set_inuse (v : bool) (c : app_conn) : app_conn :=
  Conn (next c) (prev c) v (is_adminsession c) (unit_ c) (dnprot c) (rt c) (dnlink c) (nasip_ c) (nasport c)
    (hismac c) (hisip c) (s_params c) (s_state c).
(** Memory filled with zeros. *)
Definition zero_conn : app_conn :=
  Conn None None false false 0 0 0 None 0 0 (replicate 6 0) 0 (Params [] [] 0 0 0 0 0 0 0 0 0 0 0 0)
    (State (Redir [] [] [] [] []) 0 [] (Times 0 0 0 0) (Octets 0 0 0 0 0 0) 0 0 (Bucket 0 0 0 0)).

#[export] Instance conn_linked : Linked app_conn :=
  {| lnext := next; lprev := prev; set_lnext := set_next; set_lprev := set_prev |}.
#[export] Instance conn_linked_laws : LinkedLaws app_conn.
Proof. split; cbn; try done. intros [] Hn. cbn in *. by subst. Qed.

Definition deref (w : chilli) (i : nat) : result app_conn := cell (conns w) i.
Definition modify (w : chilli) (i : nat) (f : app_conn -> app_conn) : result chilli :=
  a ← update (conns w) i f; Done (set_conns a w).

(** The cell and its number, [None] when there is no connection; [alloc] says whether
    [calloc] succeeds. *)
Definition take_conn (alloc : bool) (max_clients : Z) (w : chilli) : result (option (nat * Z * chilli)) :=
  match firstfreeconn w with
  | None =>
    if connections w =? max_clients then Done None
    else
      let n := connections w + 1 in
      if alloc then Done (Some (length (heap w), n, set_connections n (set_conns (grow zero_conn (conns w)) w)))
      else Done None
  | Some i =>
    c ← deref w i;
    a ← pop_free (conns w) i;
    a ← update a i (fun _ => zero_conn);
    Done (Some (i, unit_ c, set_conns a w))
  end.
(** The new connection, or [None] for the return value -1. *)
Definition chilli_new_conn (alloc : bool) (max_clients : Z) (w : chilli) : result (option nat * chilli) :=
  r ← take_conn alloc max_clients w;
  match r with
  | None => Done (None, w)
  | Some (i, n, w) =>
    a ← push_used (conns w) i;
    a ← update a i (fun c => set_unit n (set_inuse true c));
    Done (Some i, set_conns a w)
  end.

Definition freeconn (w : chilli) (i : nat) : result chilli :=
  c ← deref w i;
  let n := unit_ c in
  a ← unlink_used (conns w) i;
  a ← update a i (fun _ => set_unit n zero_conn);
  a ← push_free a i;
  Done (set_conns a w).

(** Whether a connection is the one looked for, by address or by access point. *)
Definition conn_matches (ip nasip nasport_ : Z) (c : app_conn) : bool :=
  (negb (ip =? 0) && (hisip c =? ip)) ||
  (negb (nasip =? 0) && negb (nasport_ =? 0) && (nasip_ c =? nasip) && (nasport c =? nasport_)).
Fixpoint getconn_loop (fuel : nat) (w : chilli) (p : option nat) (ip nasip nasport : Z) : result (option nat) :=
  match p with
  | None => Done None
  | Some i =>
    match fuel with
    | O => Fault
    | S fuel =>
      c ← deref w i;
      if conn_matches ip nasip nasport c then Done (Some i) else getconn_loop fuel w (next c) ip nasip nasport
    end
  end.
Definition chilli_getconn (w : chilli) (ip nasip nasport : Z) : result (option nat) :=
  getconn_loop (length (heap w)) w (firstusedconn w) ip nasip nasport.

(** ** The periodic check, and the end *)

Section Walks.
Context (o : options) (interval : Z) (popen : bytes -> option (option bytes)) (e : endian)
  (inet_aton : bytes -> option Z) (nas_hwaddr : bytes) (sysinfo : option (Z * bytes * bytes)).
Abbreviation session_interval := (session_interval o popen e inet_aton nas_hwaddr sysinfo).
Abbreviation terminate_appconn := (terminate_appconn o popen e inet_aton nas_hwaddr sysinfo).
Abbreviation acct_req := (acct_req o popen e inet_aton nas_hwaddr sysinfo).

(** What the body of a loop does to a connection. *)
Definition walk_body := app_conn -> result (app_conn * list event).
Fixpoint conn_loop (fuel : nat) (body : walk_body) (w : chilli) (p : option nat) : result (chilli * list event) :=
  match p with
  | None => Done (w, [])
  | Some i =>
    match fuel with
    | O => Fault
    | S fuel =>
      c ← deref w i;
      '(c, es) ← body c;
      w ← modify w i (fun _ => c);
      '(w, es') ← conn_loop fuel body w (next c);
      Done (w, es ++ es')
    end
  end.

Definition check_body (mainclock mainclock_rt : Z) (update : bool) : walk_body := fun c =>
  if negb (inuse c) then Done (c, [])
  else
    match dnlink c with
    | None => Done (c, [])
    | Some _ =>
      '(c, es) ← session_interval mainclock mainclock_rt c;
      Done (c, es ++ if update && (authenticated (s_state c) =? 1) then [Runscript (str "/etc/chilli/update.sh")] else [])
    end.
Definition checkconn (mainclock mainclock_rt : Z) (w : chilli) : result (chilli * list event) :=
  if mainclock_diffu mainclock (checktime w) <? CHECK_INTERVAL then Done (w, [])
  else
    let w := set_timers mainclock (rereadtime w) (skip_update w) (do_interval w) w in
    '(w, es) ← (if negb (authenticated (s_state (admin_session w)) =? 0) then
                  '(c, es) ← session_interval mainclock mainclock_rt (admin_session w); Done (set_admin c w, es)
                else Done (w, []));
    '(w, es') ← conn_loop (length (heap w)) (check_body mainclock mainclock_rt (10 <=? skip_update w)) w (firstusedconn w);
    let skip := if 10 <=? skip_update w then 0 else skip_update w + 1 in
    let reread := negb (interval =? 0) && (u32 interval <=? mainclock_diffu mainclock (rereadtime w)) in
    Done (set_timers (checktime w) (if reread then mainclock else rereadtime w) skip (do_interval w || reread) w, es ++ es').

Definition kill_body (mainclock mainclock_rt : Z) : walk_body := fun c =>
  if inuse c && (authenticated (s_state c) =? 1)
  then terminate_appconn mainclock mainclock_rt c RADIUS_TERMINATE_CAUSE_NAS_REBOOT
  else Done (c, []).
(** Up to [chilli_freeconn], which frees all memory. *)
Definition killconn (mainclock mainclock_rt : Z) (w : chilli) : result (chilli * list event) :=
  '(w, es) ← conn_loop (length (heap w)) (kill_body mainclock mainclock_rt) w (firstusedconn w);
  '(w, es') ← (if negb (authenticated (s_state (admin_session w)) =? 0) then
                 let admin := set_state (set_cause RADIUS_TERMINATE_CAUSE_NAS_REBOOT) (admin_session w) in
                 '(c, es) ← acct_req mainclock admin RADIUS_STATUS_TYPE_STOP; Done (set_admin c w, es)
               else Done (w, []));
  '(c, es'') ← acct_req mainclock (admin_session w) RADIUS_STATUS_TYPE_ACCOUNTING_OFF;
  Done (set_admin c w, es ++ es' ++ es'').
End Walks.

(** ** The lists *)

Lemma modify_heap w i f : (i < length (heap w))%nat -> modify w i f = Done (set_heap (alter f i (heap w)) w).
Proof. intros Hi. unfold modify. by rewrite update_ok. Qed.

(** The connections in use and those free are all there are; the unit number of a
    connection tells its cell. *)
Record rep (w : chilli) (used free : list nat) : Prop := {
  re_held : held (conns w) used free [];
  re_unit : forall i c, heap w !! i = Some c -> unit_ c = Z.of_nat i + 1 /\ inuse c = bool_decide (i ∈ used);
  re_count : connections w = Z.of_nat (length (heap w));
}.

Lemma data_fields c c' : data c' = data c -> unit_ c' = unit_ c /\ inuse c' = inuse c.
Proof. unfold data, set_lnext, set_lprev. destruct c, c'. cbn. by intros [=]. Qed.
(** The unit numbers and marks after a change at [i]. *)
Lemma units_after (h h' : list app_conn) (used used' : list nat) i c' :
  (forall j c, j <> i -> h !! j = Some c -> unit_ c = Z.of_nat j + 1 /\ inuse c = bool_decide (j ∈ used)) ->
  (forall j c, j <> i -> h' !! j = Some c -> exists c0, h !! j = Some c0 /\ data c = data c0) ->
  (forall j, j <> i -> j ∈ used' <-> j ∈ used) ->
  data <$> h' !! i = Some c' -> unit_ c' = Z.of_nat i + 1 -> inuse c' = bool_decide (i ∈ used') ->
  forall j c, h' !! j = Some c -> unit_ c = Z.of_nat j + 1 /\ inuse c = bool_decide (j ∈ used').
Proof.
  intros Hu Hr Hiff Hi Hui Hii j c Hj. destruct (decide (j = i)) as [->|Hne].
  - rewrite Hj in Hi. injection Hi as Hd. subst c'. by destruct c.
  - destruct (Hr j c Hne Hj) as (c0 & H0 & [-> ->]%data_fields).
    destruct (Hu j c0 Hne H0) as [-> ->]. split; [done|]. apply bool_decide_ext. symmetry. by apply Hiff.
Qed.

(** Everything but the lists. *)
Definition others (w : chilli) : app_conn * Z * Z * Z * bool :=
  (admin_session w, checktime w, rereadtime w, skip_update w, do_interval w).

Lemma freeconn_rep w used free k i : rep w used free -> used !! k = Some i ->
  exists w', freeconn w i = Done w' /\ rep w' (delete k used) (i :: free) /\ others w' = others w /\
    relinked [i] (heap w) (heap w') /\ data <$> heap w' !! i = Some (set_unit (Z.of_nat i + 1) zero_conn).
Proof.
  intros Hr Hk. pose proof Hr as [Hh Hun Hcnt]. assert (Hiu : i ∈ used) by (by eapply list_elem_of_lookup_2).
  destruct (held_cell _ _ _ _ i Hh) as [c Hc]; [by left|]. destruct (Hun i c Hc) as [Huc _].
  destruct (unlink_used_ok _ _ _ _ _ Hh Hk) as (a1 & H1 & Hh1 & Hrel1). pose proof (held_out _ _ _ _ Hh1) as (Ho1 & Ho2 & Hlt).
  unfold freeconn, deref. rewrite (cell_ok _ _ _ Hc). obind. rewrite H1. obind. rewrite update_ok by done. obind.
  set (z := set_unit (unit_ c) zero_conn). set (a2 := set_cells _ a1).
  destruct (lookup_lt_is_Some_2 _ _ Hlt) as [c1 Hc1].
  assert (Hz : cells a2 !! i = Some z) by (cbn; by rewrite list_lookup_alter_eq, Hc1).
  destruct (push_free_ok a2 _ _ i z (held_reset _ _ _ _ _ Hh1) Hz eq_refl) as (a3 & -> & Hh3 & Hrel3). obind.
  assert (Hrel : relinked [i] (heap w) (cells a3)).
  { eapply relinked_trans; [by apply relinked_weaken|]. eapply (relinked_trans _ _ (cells a2)); [apply relinked_at|by apply relinked_weaken]. }
  assert (Hdi : data <$> cells a3 !! i = Some (set_unit (Z.of_nat i + 1) zero_conn)).
  { destruct Hrel3 as [_ H3]. rewrite H3 by apply not_elem_of_nil. rewrite Hz. unfold z. by rewrite Huc. }
  eexists. split; [done|]. split; [|split; [done|split; [exact Hrel|exact Hdi]]].
  constructor; [exact Hh3| |].
  - eapply (units_after (heap w) _ used _ i); [by intros; apply Hun| | |exact Hdi|done|].
    + intros j c' Hj Hc'. apply (relinked_back _ _ _ _ _ Hrel); [by intros ?%list_elem_of_singleton|done].
    + intros j Hj. rewrite (elem_of_delete_NoDup used k i) by (done || apply Hh). tauto.
    + cbn. symmetry. by apply bool_decide_eq_false_2.
  - destruct Hrel as [E _]. change (connections w = Z.of_nat (length (cells a3))). by rewrite E.
Qed.

(** *** A new connection *)

Definition mark (n : Z) (c : app_conn) : app_conn := set_unit n (set_inuse true c).
(** A cell that belongs to neither list becomes the first in use. *)
Lemma link_used_rep w a i used free :
  held a used free [i] -> cells a !! i = Some zero_conn ->
  (forall j c, j <> i -> cells a !! j = Some c -> unit_ c = Z.of_nat j + 1 /\ inuse c = bool_decide (j ∈ used)) ->
  connections w = Z.of_nat (length (cells a)) ->
  exists a', (a ← push_used a i; a ← update a i (mark (Z.of_nat i + 1)); Done (Some i, set_conns a w)) = Done (Some i, set_conns a' w) /\
    rep (set_conns a' w) (i :: used) free /\ relinked [i] (cells a) (cells a') /\
    data <$> cells a' !! i = Some (mark (Z.of_nat i + 1) zero_conn).
Proof.
  intros Hh Hz Hun Hcnt. destruct (push_used_ok _ _ _ _ _ Hh Hz eq_refl eq_refl) as (a1 & -> & Hh1 & Hrel1). obind.
  assert (Hlt : (i < length (cells a1))%nat) by (apply (held_elem _ _ _ _ i Hh1); left; by left).
  rewrite update_ok by done. obind. eexists. split; [done|]. set (a2 := set_cells _ a1).
  assert (Hrel : relinked [i] (cells a) (cells a2)) by (eapply relinked_trans; [by apply relinked_weaken|apply relinked_at]).
  assert (Hdi : data <$> cells a2 !! i = Some (mark (Z.of_nat i + 1) zero_conn)).
  { destruct Hrel1 as [_ H1]. specialize (H1 i ltac:(apply not_elem_of_nil)). rewrite Hz in H1. cbn.
    rewrite list_lookup_alter_eq. destruct (cells a1 !! i) as [c|]; [|done]. apply (inj Some) in H1.
    change (Some (mark (Z.of_nat i + 1) (data c)) = Some (mark (Z.of_nat i + 1) (data zero_conn))). by rewrite H1. }
  split; [|by split]. constructor; [by apply held_alter| |].
  - eapply (units_after (cells a) _ used _ i); [done| | |exact Hdi|done|].
    + intros j c' Hj Hc'. apply (relinked_back _ _ _ _ _ Hrel); [by intros ?%list_elem_of_singleton|done].
    + intros j Hj. rewrite elem_of_cons. tauto.
    + cbn. symmetry. apply bool_decide_eq_true_2. by left.
  - destruct Hrel as [E _]. change (connections w = Z.of_nat (length (cells a2))). by rewrite E.
Qed.

Lemma re_used w used free : rep w used free -> dl (heap w) (used_ends (conns w)) used.
Proof. intros [Hh _ _]. apply Hh. Qed.
Lemma conn_rep_length w used free : rep w used free -> (length used + length free)%nat = length (heap w).
Proof. intros [Hh _ _]. apply held_length in Hh. cbn in Hh. by rewrite Nat.add_0_r in Hh. Qed.

(** The lists after a request for a connection: the one freed last is used again, or
    memory is allocated while the limit allows. *)
Definition new_lists (alloc : bool) (max_clients : Z) (used free : list nat) : option nat * list nat * list nat :=
  match free with
  | i :: free => (Some i, i :: used, free)
  | [] =>
    if (Z.of_nat (length used) =? max_clients) || negb alloc then (None, used, [])
    else (Some (length used), length used :: used, [])
  end.

Lemma new_conn_rep alloc max_clients w used free : rep w used free ->
  let '(r, used', free') := new_lists alloc max_clients used free in
  exists w', chilli_new_conn alloc max_clients w = Done (r, w') /\ rep w' used' free' /\ others w' = others w /\
    match r with
    | Some i => (i ∉ used) /\ (forall j, j <> i -> (j < length (heap w))%nat -> data <$> heap w' !! j = data <$> heap w !! j) /\
        data <$> heap w' !! i = Some (mark (Z.of_nat i + 1) zero_conn)
    | None => w' = w
    end.
Proof.
  intros Hr. pose proof Hr as [Hh Hun Hcnt]. pose proof (conn_rep_length _ _ _ Hr) as Hlen.
  unfold chilli_new_conn, take_conn, firstfreeconn. rewrite (dl_head _ _ _ (he_free _ _ _ _ Hh)).
  destruct free as [|i free]; cbn [new_lists head].
  - rewrite Nat.add_0_r in Hlen. rewrite Hcnt, <- Hlen. destruct (Z.of_nat (length used) =? max_clients); cbn [orb]; [by exists w|].
    destruct alloc; cbn [negb]; [|by exists w]. obind. rewrite Hlen.
    pose proof (held_grow _ _ _ zero_conn Hh) as Hg. fold (heap w) in Hg. pose proof (held_out _ _ _ _ Hg) as (Hiu & _).
    assert (Hout : forall j, j <> length (heap w) -> cells (grow zero_conn (conns w)) !! j = heap w !! j).
    { intros j Hj. cbn. destruct (decide (j < length (heap w))%nat) as [H|H]; [by apply lookup_app_l|].
      rewrite !lookup_ge_None_2; [done|lia|]. rewrite length_app. cbn. fold (heap w). lia. }
    destruct (link_used_rep (set_connections (Z.of_nat (length (heap w)) + 1) w) _ _ _ _ Hg) as (a' & Ha & Hr' & Hrel & Hd).
    + cbn. by apply list_lookup_middle.
    + intros j c Hj Hc. apply Hun. by rewrite <- Hout.
    + cbn. rewrite length_app. cbn. fold (heap w). lia.
    + eexists. split; [exact Ha|]. split; [exact Hr'|]. split; [done|]. split; [done|]. split; [|done].
      intros j Hne Hj. rewrite <- (Hout j Hne). apply Hrel. by intros ?%list_elem_of_singleton.
  - destruct (held_cell _ _ _ _ i Hh) as [c Hc]; [right; left; by left|]. unfold deref. rewrite (cell_ok _ _ _ Hc). obind.
    destruct (Hun i c Hc) as [-> _]. destruct (pop_free_ok _ _ _ _ Hh) as (a1 & -> & Hh1 & Hrel1). obind.
    pose proof (held_out _ _ _ _ Hh1) as (Hiu & _ & Hlt). rewrite update_ok by done. obind. set (a2 := set_cells _ a1).
    assert (Hrel2 : relinked [i] (heap w) (cells a2)) by (eapply relinked_trans; [by apply relinked_weaken|apply relinked_at]).
    destruct (link_used_rep w a2 i used free) as (a' & Ha & Hr' & Hrel & Hd).
    + apply (held_reset _ _ _ _ (fun _ => zero_conn) Hh1).
    + cbn. destruct (lookup_lt_is_Some_2 _ _ Hlt) as [c1 Hc1]. by rewrite list_lookup_alter_eq, Hc1.
    + intros j c' Hj Hc'. destruct (relinked_back _ _ _ _ _ Hrel2 ltac:(by intros ?%list_elem_of_singleton) Hc') as (c0 & H0 & [-> ->]%data_fields).
      by apply Hun.
    + destruct Hrel2 as [-> _]. done.
    + eexists. split; [exact Ha|]. split; [exact Hr'|]. split; [done|]. split; [done|]. split; [|exact Hd].
      intros j Hne _. unfold heap. cbn. destruct Hrel2 as [_ H2], Hrel as [_ H3]. rewrite H3 by (by intros ?%list_elem_of_singleton).
      apply H2. by intros ?%list_elem_of_singleton.
Qed.

(** *** Histories *)

(** A connection is asked for, or one that is in use is given back. *)
Inductive change := New (alloc : bool) | Release (i : nat).
Definition do_change (max_clients : Z) (ch : change) (w : chilli) : result (option nat * chilli) :=
  match ch with
  | New alloc => chilli_new_conn alloc max_clients w
  | Release i => w ← freeconn w i; Done (None, w)
  end.
Fixpoint do_changes (max_clients : Z) (l : list change) (w : chilli) : result (list (option nat) * chilli) :=
  match l with
  | [] => Done ([], w)
  | ch :: l =>
    '(r, w) ← do_change max_clients ch w;
    '(rs, w) ← do_changes max_clients l w;
    Done (r :: rs, w)
  end.

(** The same on the lists alone. *)
Definition spec_change (max_clients : Z) (ch : change) (used free : list nat) : option nat * list nat * list nat :=
  match ch with
  | New alloc => new_lists alloc max_clients used free
  | Release i => (None, filter (fun j => j <> i) used, i :: free)
  end.
Fixpoint spec_changes (max_clients : Z) (l : list change) (used free : list nat) : list (option nat) * list nat * list nat :=
  match l with
  | [] => ([], used, free)
  | ch :: l =>
    let '(r, used, free) := spec_change max_clients ch used free in
    let '(rs, used, free) := spec_changes max_clients l used free in
    (r :: rs, used, free)
  end.
(** Only what is in use is given back. *)
Fixpoint valid_changes (max_clients : Z) (l : list change) (used free : list nat) : Prop :=
  match l with
  | [] => True
  | ch :: l =>
    match ch with Release i => i ∈ used | New _ => True end /\
    let '(_, used, free) := spec_change max_clients ch used free in valid_changes max_clients l used free
  end.


Lemma change_rep max_clients ch w used free : rep w used free ->
  match ch with Release i => i ∈ used | New _ => True end ->
  let '(r, used', free') := spec_change max_clients ch used free in
  exists w', do_change max_clients ch w = Done (r, w') /\ rep w' used' free' /\ others w' = others w /\
    (Z.of_nat (length used + length free) <= max_clients -> Z.of_nat (length used' + length free') <= max_clients).
Proof.
  intros Hr Hv. destruct ch as [alloc|i]; cbn [spec_change do_change].
  - pose proof (new_conn_rep alloc max_clients w used free Hr) as H.
    destruct (new_lists alloc max_clients used free) as [[r used'] free'] eqn:E. destruct H as (w' & H1 & H2 & H3 & _).
    exists w'. split; [done|]. split; [done|]. split; [done|]. destruct free as [|i free]; cbn [new_lists] in E.
    + destruct (Z.eqb_spec (Z.of_nat (length used)) max_clients) as [Em|Em], alloc; injection E as <- <- <-; cbn [length]; lia.
    + injection E as <- <- <-. cbn [length]. lia.
  - apply list_elem_of_lookup in Hv as [k Hk]. destruct (freeconn_rep w used free k i Hr Hk) as (w' & -> & Hr' & Ho & _). obind.
    exists w'. pose proof (delete_filter used k i (dl_nodup _ _ _ (re_used _ _ _ Hr)) Hk) as Hd. rewrite <- Hd.
    split; [done|]. split; [done|]. split; [done|]. rewrite length_delete by done. apply lookup_lt_Some in Hk. cbn [length]. lia.
Qed.

(** C13: the connections are an allocator on two lists: for any sequence of requests and
    releases, in any state the daemon can be in, the linked lists in memory are those
    of the specification, in its order; each request is answered with the connection
    freed last, with new memory while there are fewer connections than allowed, or
    refused; the unit numbers of connections in use are distinct and at most
    [max_clients]; nothing outside the lists changes, and no step goes wrong. *)
Theorem connections_refine max_clients l w used free :
  rep w used free -> valid_changes max_clients l used free ->
  Z.of_nat (length used + length free) <= max_clients ->
  let '(rs, used', free') := spec_changes max_clients l used free in
  exists w', do_changes max_clients l w = Done (rs, w') /\ rep w' used' free' /\ others w' = others w /\
    (forall i j ci cj, i ∈ used' -> j ∈ used' -> heap w' !! i = Some ci -> heap w' !! j = Some cj ->
       1 <= unit_ ci <= max_clients /\ inuse ci = true /\ (unit_ ci = unit_ cj -> i = j)).
Proof.
  revert w used free. induction l as [|ch l IH]; intros w used free Hr Hv Hmax; cbn [spec_changes do_changes valid_changes] in *.
  - exists w. split; [done|]. split; [done|]. split; [done|]. intros i j ci cj Hi Hj Hci Hcj.
    destruct (re_unit _ _ _ Hr i ci Hci) as [-> ->], (re_unit _ _ _ Hr j cj Hcj) as [-> _].
    pose proof (lookup_lt_Some _ _ _ Hci). pose proof (conn_rep_length _ _ _ Hr). split; [lia|]. split; [by apply bool_decide_eq_true_2|lia].
  - destruct Hv as [Hv1 Hv2]. pose proof (change_rep max_clients ch w used free Hr Hv1) as H1.
    destruct (spec_change max_clients ch used free) as [[r used1] free1]. destruct H1 as (w1 & -> & Hr1 & Ho1 & Hm1). obind.
    specialize (IH w1 used1 free1 Hr1 Hv2 (Hm1 Hmax)). destruct (spec_changes max_clients l used1 free1) as [[rs used2] free2].
    destruct IH as (w2 & -> & Hr2 & Ho2 & Hun). obind. exists w2. split; [done|]. split; [done|]. split; [by rewrite Ho2|done].
Qed.

(** *** Looking for a connection *)

Lemma getconn_ok w ip nasip nasport l : forall fuel p,
  chain (nx (heap w)) p l -> (forall i, i ∈ l -> (i < length (heap w))%nat) -> (length l <= fuel)%nat ->
  getconn_loop fuel w p ip nasip nasport =
    Done (List.find (fun i => match heap w !! i with Some c => conn_matches ip nasip nasport c | None => false end) l).
Proof.
  induction l as [|i l IH]; intros fuel p Hc Hb Hf; cbn [chain length List.find] in *.
  - subst p. by destruct fuel.
  - destruct Hc as [-> Hc]. destruct fuel as [|fuel]; [lia|]. cbn [getconn_loop]. unfold deref.
    destruct (lookup_lt_is_Some_2 (heap w) i (Hb i ltac:(by left))) as [c Hci]. rewrite (cell_ok _ _ _ Hci), Hci. obind.
    destruct (conn_matches ip nasip nasport c); [done|]. apply IH; [|by intros j Hj; apply Hb; right|lia].
    unfold nx in Hc at 2. by rewrite Hci in Hc.
Qed.

(** [chilli_getconn] finds a connection in use if there is one with the address (or
    the access point's address and port, where they are given), and the first of them
    in the order of the list; an address of 0 matches nothing.  The walk ends. *)
Theorem chilli_getconn_spec w used free ip nasip nasport : rep w used free ->
  exists r, chilli_getconn w ip nasip nasport = Done r /\
    match r with
    | Some i => exists l1 l2 c, used = l1 ++ i :: l2 /\ heap w !! i = Some c /\ inuse c = true /\
        conn_matches ip nasip nasport c = true /\
        forall j c', j ∈ l1 -> heap w !! j = Some c' -> conn_matches ip nasip nasport c' = false
    | None => forall j c', j ∈ used -> heap w !! j = Some c' -> conn_matches ip nasip nasport c' = false
    end.
Proof.
  intros Hr. pose proof (re_used _ _ _ Hr) as Hu. pose proof (re_unit _ _ _ Hr) as Hun. eexists. split.
  { apply getconn_ok; [apply Hu|apply Hu|]. pose proof (conn_rep_length _ _ _ Hr). lia. }
  assert (Hnone : forall l, List.find (fun i => match heap w !! i with Some c => conn_matches ip nasip nasport c | None => false end) l = None ->
    forall j c', j ∈ l -> heap w !! j = Some c' -> conn_matches ip nasip nasport c' = false).
  { intros l Hl j c' Hj Hc'. apply list_elem_of_In in Hj. pose proof (find_none _ _ Hl j Hj) as H. cbn in H. by rewrite Hc' in H. }
  destruct (List.find _ used) as [i|] eqn:E; [|by apply Hnone].
  apply find_split in E as (l1 & l2 & -> & Hi & H1). destruct (heap w !! i) as [c|] eqn:Ec; [|done].
  exists l1, l2, c. split; [done|]. split; [done|]. destruct (Hun i c Ec) as [_ ->]. split; [|split; [done|by apply Hnone]].
  apply bool_decide_eq_true_2, elem_of_app. right. by left.
Qed.

(** *** Walks that treat every session *)

Section Checks.
Context (o : options) (interval : Z) (popen : bytes -> option (option bytes)) (e : endian)
  (inet_aton : bytes -> option Z) (nas_hwaddr : bytes) (sysinfo : option (Z * bytes * bytes)).
Abbreviation session_interval := (session_interval o popen e inet_aton nas_hwaddr sysinfo).
Abbreviation terminate_appconn := (terminate_appconn o popen e inet_aton nas_hwaddr sysinfo).
Abbreviation check_body := (check_body o popen e inet_aton nas_hwaddr sysinfo).
Abbreviation kill_body := (kill_body o popen e inet_aton nas_hwaddr sysinfo).
Abbreviation checkconn := (checkconn o interval popen e inet_aton nas_hwaddr sysinfo).
Abbreviation killconn := (killconn o popen e inet_aton nas_hwaddr sysinfo).
Abbreviation ended := (ended o).

(** What the body made of the connections of a list, cell by cell. *)
Definition treated (body : walk_body) (w w' : chilli) (l : list nat) (rs : list (app_conn * list event)) : Prop :=
  Forall2 (fun i r => exists c, heap w !! i = Some c /\ body c = Done r /\ heap w' !! i = Some r.1) l rs.

Lemma treated_from body w w1 w' l rs :
  (forall j, j ∈ l -> heap w1 !! j = heap w !! j) -> treated body w1 w' l rs -> treated body w w' l rs.
Proof.
  intros Hj Ht. induction Ht as [|i r l rs (c & Hc & H) Ht IH]; [constructor|]. constructor.
  - exists c. split; [|done]. by rewrite <- Hj by left.
  - apply IH. intros j Hjl. apply Hj. by right.
Qed.
Lemma conn_loop_ok body l :
  (forall c c' es, body c = Done (c', es) -> frame c' = frame c) ->
  forall fuel w p, chain (nx (heap w)) p l -> NoDup l -> (length l <= fuel)%nat ->
  (forall i, i ∈ l -> exists c r, heap w !! i = Some c /\ body c = Done r) ->
  exists w' rs, conn_loop fuel body w p = Done (w', concat (map snd rs)) /\ treated body w w' l rs /\
    w' = set_heap (heap w') w /\ length (heap w') = length (heap w) /\
    (forall j, frame <$> heap w' !! j = frame <$> heap w !! j) /\ (forall j, j ∉ l -> heap w' !! j = heap w !! j).
Proof.
  intros Hframe. induction l as [|i l IH]; intros fuel w p Hc Hn Hf Hbody; cbn [chain length] in *.
  - subst p. exists w, []. destruct fuel; (split; [done|]; split; [constructor|]; split; [by destruct w as [[]]|]; done).
  - destruct Hc as [-> Hc]. apply NoDup_cons in Hn as [Hi Hn]. destruct fuel as [|fuel]; [lia|]. cbn [conn_loop].
    destruct (Hbody i ltac:(by left)) as (c & [c' es] & Hci & Hb). unfold deref. rewrite (cell_ok _ _ _ Hci). obind. rewrite Hb. obind.
    pose proof (lookup_lt_Some _ _ _ Hci) as Hlt. rewrite modify_heap by done. obind.
    pose proof (Hframe _ _ _ Hb) as Hfr. set (w1 := set_heap (alter (fun _ => c') i (heap w)) w).
    assert (Hh1 : heap w1 = alter (fun _ => c') i (heap w)) by (by destruct w).
    assert (Hne : forall j, j ∈ l -> j <> i) by (by intros j Hj ->).
    assert (Hnext : next c' = nx (heap w) i) by (unfold nx; rewrite Hci; cbn; unfold frame in Hfr; congruence).
    destruct (IH fuel w1 (next c')) as (w2 & rs & -> & Ht & Hw2 & Hlen & Hfr2 & Hout).
    + rewrite Hnext. eapply chain_ext; [|exact Hc]. intros j Hj. rewrite Hh1, nx_alter, decide_False; [done|].
      intros ->. by apply (Hne j).
    + done.
    + lia.
    + intros j Hj. rewrite Hh1, list_lookup_alter_ne by (intros ->; by apply (Hne j)). apply Hbody. by right.
    + obind. exists w2, ((c', es) :: rs). split; [done|]. split; [|split; [|split; [|split]]].
      * constructor.
        -- exists c. split; [done|]. split; [done|]. rewrite Hout by done. rewrite Hh1, list_lookup_alter_eq. by rewrite Hci.
        -- eapply treated_from; [|exact Ht]. intros j Hj. rewrite Hh1, list_lookup_alter_ne; [done|]. intros ->. by apply (Hne j).
      * rewrite Hw2. by destruct w.
      * rewrite Hlen, Hh1. apply length_alter.
      * intros j. rewrite Hfr2, Hh1. destruct (decide (i = j)) as [<-|]; [|by rewrite list_lookup_alter_ne].
        rewrite list_lookup_alter_eq, Hci. cbn. by rewrite Hfr.
      * intros j [Hj1 Hj2]%not_elem_of_cons. rewrite Hout by done. by rewrite Hh1, list_lookup_alter_ne.
Qed.

(** Walking the list in use keeps both lists. *)
Lemma frame_links h h' : length h' = length h -> (forall j, frame <$> h' !! j = frame <$> h !! j) ->
  (forall j, nx h' j = nx h j /\ pv h' j = pv h j) /\
  (forall j c', h' !! j = Some c' -> exists c, h !! j = Some c /\ unit_ c' = unit_ c /\ inuse c' = inuse c).
Proof.
  intros Hlen Hf. assert (H : forall j c', h' !! j = Some c' -> exists c, h !! j = Some c /\ frame c' = frame c).
  { intros j c' Hc. specialize (Hf j). rewrite Hc in Hf. destruct (h !! j) as [c|]; [|done]. exists c. split; [done|]. by apply (inj Some) in Hf. }
  split.
  - intros j. unfold nx, pv. destruct (h' !! j) as [c'|] eqn:Ec.
    + destruct (H j c' Ec) as (c & -> & Hfr). unfold frame in Hfr. cbn. split; congruence.
    + apply lookup_ge_None in Ec. rewrite lookup_ge_None_2 by lia. done.
  - intros j c' Hc. destruct (H j c' Hc) as (c & Hc0 & Hfr). exists c. unfold frame in Hfr. split; [done|]. split; congruence.
Qed.
Lemma rep_frame w w' used free : rep w used free -> w' = set_heap (heap w') w -> length (heap w') = length (heap w) ->
  (forall j, frame <$> heap w' !! j = frame <$> heap w !! j) -> rep w' used free.
Proof.
  intros [Hh Hun Hcnt] Hw Hlen Hfr. destruct (frame_links _ _ Hlen Hfr) as [Hl Hfields]. rewrite Hw.
  constructor.
  - eapply held_same; [exact Hh|done|done|exact Hlen|]. exact Hl.
  - intros j c' Hc. destruct (Hfields j c' Hc) as (c & Hc0 & -> & ->). by apply Hun.
  - change (connections w = Z.of_nat (length (heap w'))). by rewrite Hlen.
Qed.
Lemma walk_used body w used free : rep w used free ->
  (forall c c' es, body c = Done (c', es) -> frame c' = frame c) ->
  (forall i c, i ∈ used -> heap w !! i = Some c -> exists r, body c = Done r) ->
  exists w' rs, conn_loop (length (heap w)) body w (firstusedconn w) = Done (w', concat (map snd rs)) /\
    treated body w w' used rs /\ rep w' used free /\ others w' = others w /\
    (forall j, j ∉ used -> heap w' !! j = heap w !! j).
Proof.
  intros Hr Hframe Hbody. pose proof (re_used _ _ _ Hr) as [Hc Hn Hb]. pose proof (conn_rep_length _ _ _ Hr).
  destruct (conn_loop_ok body used Hframe (length (heap w)) w (firstusedconn w)) as (w' & rs & H1 & H2 & H3 & H4 & H5 & H6);
    [apply Hc|done|lia| |].
  { intros i Hi. destruct (lookup_lt_is_Some_2 _ _ (Hb i Hi)) as [c Hci]. destruct (Hbody i c Hi Hci) as [r Hr']. by exists c, r. }
  exists w', rs. split; [done|]. split; [done|]. split; [by eapply rep_frame|]. split; [by rewrite H3; destruct w|done].
Qed.

(** *** The periodic check *)

(** What the check does to a session in use. *)
Definition checked (now rt : Z) (c c' : app_conn) (es : list event) : Prop :=
  if authenticated (s_state c) =? 1 then
    match dnlink c with
    | Some _ =>
      exists es0, (es = es0 \/ es = es0 ++ [Runscript (str "/etc/chilli/update.sh")]) /\
        ((over_limit now rt c /\ exists cause, ended now c cause c' es0) \/ (~ over_limit now rt c /\ goes_on now c c' es0))
    | None => c' = c /\ es = []
    end
  else c' = c /\ es = [].

Lemma check_body_ok now rt update c : inuse c = true -> (authenticated (s_state c) = 1 -> in_range now rt c) ->
  exists c' es, check_body now rt update c = Done (c', es) /\ checked now rt c c' es.
Proof.
  intros Hu Hr. unfold Conns.check_body, checked. rewrite Hu. cbn [negb]. destruct (Z.eqb_spec (authenticated (s_state c)) 1) as [Ha|Ha].
  - destruct (dnlink c); [|by eexists _, _].
    destruct (session_interval_ok o popen e inet_aton nas_hwaddr sysinfo now rt c Ha (Hr Ha)) as (c' & es & -> & Hcase). obind.
    eexists _, _. split; [done|]. exists es. split; [destruct (update && _); rewrite ?app_nil_r; auto|].
    destruct Hcase as [(cause & H1 & H2 & _)|H]; [left|by right]. split; [done|]. by exists cause.
  - assert (Hsi : session_interval now rt c = Done (c, [])).
    { unfold Session.session_interval. cbv zeta. by rewrite (proj2 (Z.eqb_neq _ 1)). }
    destruct (dnlink c); [|by eexists _, _]. rewrite Hsi. obind. rewrite (proj2 (Z.eqb_neq _ 1)) by done. rewrite andb_false_r. by eexists _, _.
Qed.
Lemma check_body_frame now rt update c c' es : check_body now rt update c = Done (c', es) -> frame c' = frame c.
Proof.
  unfold Conns.check_body. destruct (negb (inuse c)); [by intros [= <- _]|]. destruct (dnlink c); [|by intros [= <- _]].
  destruct (session_interval now rt c) as [[c1 es1]| |] eqn:E; [|done..]. obind. intros [= <- _]. by eapply session_interval_frame.
Qed.

(** The results of a walk, cell by cell, as a relation. *)
Lemma treated_each body w w' l rs (R : app_conn -> app_conn -> list event -> Prop) :
  treated body w w' l rs ->
  (forall i c c' es, i ∈ l -> heap w !! i = Some c -> body c = Done (c', es) -> R c c' es) ->
  Forall2 (fun i es => exists c c', heap w !! i = Some c /\ heap w' !! i = Some c' /\ R c c' es) l (map snd rs).
Proof.
  intros Ht HR. induction Ht as [|i [c' es] l rs (c & Hc & Hb & Hc') Ht IH]; [constructor|]. cbn [map snd]. constructor.
  - exists c, c'. split; [done|]. split; [done|]. eapply HR; [by left|done|done].
  - apply IH. intros j cj cj' esj Hj. apply HR. by right.
Qed.

(** C18: when the check is due, and the administrative session is not authenticated, it
    reaches every connection in use, in the order of the list: those over one of their
    limits are ended, with one report each (if they have accounting), the others go on,
    and what is not authenticated or has no DHCP connection is left alone; the lists
    stay as they are, the events are those of the sessions one after the other, and
    afterwards no session that is authenticated and has a DHCP connection is over a
    limit. Until it is due, nothing happens. (Clock readings and counters are in the
    range in which the code compares them.) *)
Theorem checkconn_spec w used free now rt :
  rep w used free -> 0 <= checktime w <= now -> now < 2 ^ 31 ->
  authenticated (s_state (admin_session w)) <> 1 ->
  (forall i c, i ∈ used -> heap w !! i = Some c -> authenticated (s_state c) = 1 -> in_range now rt c) ->
  if now - checktime w <? CHECK_INTERVAL then checkconn now rt w = Done (w, [])
  else exists w' ess, checkconn now rt w = Done (w', concat ess) /\ rep w' used free /\ checktime w' = now /\
    Forall2 (fun i es => exists c c', heap w !! i = Some c /\ heap w' !! i = Some c' /\ checked now rt c c' es) used ess /\
    (forall j, j ∉ used -> heap w' !! j = heap w !! j) /\
    (forall i c', i ∈ used -> heap w' !! i = Some c' -> authenticated (s_state c') = 1 -> dnlink c' <> None -> ~ over_limit now rt c').
Proof.
  intros Hr Ht Hn Hadm Hrange. unfold Conns.checkconn. rewrite diffu_ok by done. destruct (_ <? CHECK_INTERVAL); [done|]. cbv zeta.
  set (w1 := set_timers now _ _ _ w). assert (Hr1 : rep w1 used free) by (by destruct Hr; constructor).
  assert (Hadm1 : (if negb (authenticated (s_state (admin_session w1)) =? 0)
             then '(c, es) ← session_interval now rt (admin_session w1); Done (set_admin c w1, es) else Done (w1, [])) = Done (w1, [])).
  { destruct (negb _); [|done]. unfold Session.session_interval. cbv zeta. rewrite (proj2 (Z.eqb_neq _ 1)) by done. obind. by destruct w. }
  rewrite Hadm1. obind. set (update := 10 <=? skip_update w1).
  assert (Hin : forall i c, i ∈ used -> heap w1 !! i = Some c -> inuse c = true).
  { intros i c Hi Hc. destruct (re_unit _ _ _ Hr1 i c Hc) as [_ ->]. by apply bool_decide_eq_true_2. }
  destruct (walk_used (check_body now rt update) w1 used free Hr1 (check_body_frame now rt update)) as (w2 & rs & H1 & H2 & H3 & H4 & H5).
  { intros i c Hi Hc. destruct (check_body_ok now rt update c (Hin i c Hi Hc) (Hrange i c Hi Hc)) as (c' & es & -> & _). by eexists. }
  change (heap w1) with (heap w) in *. change (firstusedconn w1) with (firstusedconn w) in *.
  rewrite H1. obind. eexists _, (map snd rs). split; [done|].
  assert (H : Forall2 (fun i es => exists c c', heap w !! i = Some c /\ heap w2 !! i = Some c' /\ checked now rt c c' es) used (map snd rs)).
  { apply (treated_each _ w1 w2 used rs _ H2). intros i c c' es Hi Hc Hb.
    destruct (check_body_ok now rt update c (Hin i c Hi Hc) (Hrange i c Hi Hc)) as (c2 & es2 & Hb2 & Hck). congruence. }
  split; [by destruct H3; constructor|]. split; [by injection H4|]. split; [exact H|]. split; [exact H5|].
  intros i c' Hi Hc' Ha Hl. apply list_elem_of_lookup in Hi as [k Hk]. destruct (Forall2_lookup_l _ _ _ _ _ H Hk) as (es & _ & c & c2 & Hc & Hc2 & Hck).
  change (heap w2 !! i = Some c') in Hc'. rewrite Hc2 in Hc'. injection Hc' as ->. unfold checked in Hck.
  destruct (Z.eqb_spec (authenticated (s_state c)) 1) as [_|Hna]; [|by destruct Hck as [-> _]].
  destruct (dnlink c) eqn:El; [|by destruct Hck as [-> _]]. destruct Hck as (es0 & _ & [(_ & cause & Hend)|(Hno & Hgo)]).
  - by rewrite (en_auth _ _ _ _ _ _ Hend) in Ha.
  - intros Hov. apply Hno. unfold over_limit in *. rewrite (go_params _ _ _ _ Hgo), (go_count _ _ _ _ Hgo), (go_start _ _ _ _ Hgo), (go_sent _ _ _ _ Hgo) in Hov.
    exact Hov.
Qed.

(** *** The end of the daemon *)

Lemma kill_body_frame now rt c c' es : kill_body now rt c = Done (c', es) -> frame c' = frame c.
Proof. unfold Conns.kill_body. destruct (_ && _); [apply terminate_appconn_frame|by intros [= <- _]]. Qed.
Lemma kill_body_ok now rt c : inuse c = true -> exists c' es, kill_body now rt c = Done (c', es) /\
  if authenticated (s_state c) =? 1 then ended now c RADIUS_TERMINATE_CAUSE_NAS_REBOOT c' es else c' = c /\ es = [].
Proof.
  intros Hu. unfold Conns.kill_body. rewrite Hu. cbn [andb]. destruct (Z.eqb_spec (authenticated (s_state c)) 1) as [Ha|]; [|by eexists _, _].
  by apply terminate_appconn_ok.
Qed.

(** When the daemon ends, every session is ended and reported with the cause "NAS
    reboot", in the order of the list, then the administrative session if there is
    one, and last comes the request that accounting is off. *)
Theorem killconn_spec w used free now rt :
  rep w used free -> has_flag (admin_session w) NO_ACCOUNTING = false ->
  exists w' ess admin_stop off, killconn now rt w = Done (w', concat ess ++ admin_stop ++ [Account RADIUS_STATUS_TYPE_ACCOUNTING_OFF off]) /\
    rep w' used free /\
    Forall2 (fun i es => exists c c', heap w !! i = Some c /\ heap w' !! i = Some c' /\
      authenticated (s_state c') <> 1 /\
      if authenticated (s_state c) =? 1 then ended now c RADIUS_TERMINATE_CAUSE_NAS_REBOOT c' es else c' = c /\ es = []) used ess /\
    (authenticated (s_state (admin_session w)) = 0 -> admin_stop = []) /\
    (authenticated (s_state (admin_session w)) <> 0 -> exists attrs, admin_stop = [Account RADIUS_STATUS_TYPE_STOP attrs] /\
       value_of RADIUS_ATTR_ACCT_TERMINATE_CAUSE attrs = Some RADIUS_TERMINATE_CAUSE_NAS_REBOOT).
Proof.
  intros Hr Hflag. unfold Conns.killconn.
  assert (Hin : forall i c, i ∈ used -> heap w !! i = Some c -> inuse c = true).
  { intros i c Hi Hc. destruct (re_unit _ _ _ Hr i c Hc) as [_ ->]. by apply bool_decide_eq_true_2. }
  destruct (walk_used (kill_body now rt) w used free Hr (kill_body_frame now rt)) as (w2 & rs & H1 & H2 & H3 & H4 & H5).
  { intros i c Hi Hc. destruct (kill_body_ok now rt c (Hin i c Hi Hc)) as (c' & es & -> & _). by eexists. }
  rewrite H1. obind. assert (Hadm : admin_session w2 = admin_session w) by (by injection H4). rewrite Hadm.
  assert (H : Forall2 (fun i es => exists c c', heap w !! i = Some c /\ heap w2 !! i = Some c' /\ authenticated (s_state c') <> 1 /\
      if authenticated (s_state c) =? 1 then ended now c RADIUS_TERMINATE_CAUSE_NAS_REBOOT c' es else c' = c /\ es = []) used (map snd rs)).
  { apply (treated_each _ w w2 used rs _ H2). intros i c c' es Hi Hc Hb. destruct (kill_body_ok now rt c (Hin i c Hi Hc)) as (c2 & es2 & Hb2 & Hk).
    assert (c2 = c' /\ es2 = es) as [-> ->] by (rewrite Hb in Hb2; by injection Hb2). split; [|done].
    destruct (Z.eqb_spec (authenticated (s_state c)) 1) as [_|Hna]; [by rewrite (en_auth _ _ _ _ _ _ Hk)|by destruct Hk as [-> _]]. }
  clear H2 H5. destruct (Z.eqb_spec (authenticated (s_state (admin_session w))) 0) as [H0|H0]; cbn [negb]; obind.
  - rewrite Hadm. unfold acct_req. cbn [on_or_off]. cbn -[acct_attrs has_flag]. rewrite Hflag.
    eexists _, (map snd rs), [], _. split; [done|]. split; [by destruct H3; constructor|]. split; [exact H|]. by split.
  - rewrite acct_req_stop. change (has_flag (set_state _ (admin_session w))) with (has_flag (admin_session w)). rewrite Hflag. obind.
    unfold acct_req. cbn -[acct_attrs has_flag]. change (has_flag (set_state _ (admin_session w))) with (has_flag (admin_session w)). rewrite Hflag.
    eexists _, (map snd rs), [_], _. split; [done|]. split; [by destruct H3; constructor|]. split; [exact H|]. split; [done|].
    intros _. eexists. split; [done|]. unfold value_of. by rewrite cause_find.
Qed.
End Checks.

(** ** A daemon with two subscribers *)

Definition empty_world : chilli := Chilli (Arena [] (Ends None None) (Ends None None)) 0 zero_conn 100 100 0 false.
(** Two connections in use, of which the first is authenticated and over its time, and a
    free one. *)
Definition demo_cell0 : app_conn := set_next (Some 1%nat) (demo_conn 1).
Definition demo_cell1 : app_conn := set_prev (Some 0%nat) (set_unit 2 (demo_conn 0)).
Definition demo_cell2 : app_conn := set_unit 3 zero_conn.
Definition demo_world : chilli :=
  Chilli (Arena [demo_cell0; demo_cell1; demo_cell2] (Ends (Some 0%nat) (Some 1%nat)) (Ends (Some 2%nat) (Some 2%nat)))
    3 zero_conn 100 100 0 false.

Lemma empty_rep : rep empty_world [] [].
Proof. constructor; [apply held_nil|done|done]. Qed.
Lemma conn_demo_rep : rep demo_world [0%nat; 1%nat] [2%nat].
Proof.
  constructor.
  - constructor; [| |by apply (bool_decide_unpack _)].
    + constructor; [|by apply (bool_decide_unpack _)|intros i Hi; set_unfold in Hi; cbn; lia].
      constructor; [done|done|]. intros [|[|k]] i Hi; cbn in Hi; simplify_eq; done.
    + constructor; [|by apply (bool_decide_unpack _)|intros i Hi; set_unfold in Hi; cbn; lia].
      constructor; [done|done|]. intros [|k] i Hi; cbn in Hi; simplify_eq; done.
  - intros [|[|[|i]]] c Hc; cbn in Hc; simplify_eq; done.
  - done.
Qed.

(** ** Witnesses *)

Lemma connections_refine_witness :
  exists w', do_changes 2 [New true; New true; New true; Release 0; New false; New true] empty_world =
    Done ([Some 0%nat; Some 1%nat; None; None; Some 0%nat; None], w').
Proof.
  pose proof (connections_refine 2 [New true; New true; New true; Release 0; New false; New true] empty_world [] [] empty_rep) as H.
  vm_compute spec_changes in H. destruct H as (w' & H & _).
  - vm_compute. repeat split. right. left.
  - vm_compute. congruence.
  - exists w'. exact H.
Defined.
Lemma chilli_getconn_spec_witness : chilli_getconn demo_world 0x0a010005 0 0 = Done (Some 0%nat).
Proof.
  destruct (chilli_getconn_spec demo_world _ _ 0x0a010005 0 0 conn_demo_rep) as (r & H & _). rewrite H. vm_compute in H. congruence.
Defined.
Lemma checkconn_spec_witness :
  exists w' ess, checkconn demo_options 0 no_script LE no_aton demo_mac None 4000 1000 demo_world = Done (w', concat ess) /\
    rep w' [0%nat; 1%nat] [2%nat] /\ length (concat ess) = 2%nat.
Proof.
  pose proof (checkconn_spec demo_options 0 no_script LE no_aton demo_mac None demo_world _ _ 4000 1000 conn_demo_rep) as H.
  change (4000 - checktime demo_world <? CHECK_INTERVAL) with false in H. cbv iota in H.
  destruct H as (w' & ess & H1 & H2 & _); [cbn; lia|lia|cbn; lia| |].
  { intros [|[|[|i]]] c Hi Hc Ha; cbn in Hc; simplify_eq; constructor; cbn; lia. }
  exists w', ess. split; [exact H1|]. split; [exact H2|].
  assert (E : match checkconn demo_options 0 no_script LE no_aton demo_mac None 4000 1000 demo_world with
              | Done (_, es) => length es = 2%nat | _ => False end) by (vm_compute; reflexivity).
  rewrite H1 in E. exact E.
Defined.
Lemma killconn_spec_witness :
  exists w' es, killconn demo_options no_script LE no_aton demo_mac None 4000 1000 demo_world = Done (w', es) /\
    rep w' [0%nat; 1%nat] [2%nat].
Proof.
  destruct (killconn_spec demo_options no_script LE no_aton demo_mac None demo_world _ _ 4000 1000 conn_demo_rep eq_refl)
    as (w' & ess & stop & off & H1 & H2 & _).
  eexists w', _. split; [exact H1|exact H2].
Defined.
End Conns.
