(* ===== verification/Dhcp.v ===== *)
(** * The table of DHCP connections ([package/coova-chilli/src/src/dhcp.c])

    A client is known by the address of its interface.  [dhcp.c] keeps a connection for
    each client in cells on two doubly linked lists ([Dlist]), and finds it in a hash
    table with chains ([Chains]).  [table] relates both to the connections in use;
    finding, entering and leaving are proved against it. *)

From S2P Require Import Prelude Mem Chains Dlist IpPool.

Module Dhcp.
Import Mem Dlist.

(** [dhcp_opts] of [struct dhcp_conn_t]: two arrays, and the options without the rest of theirs. *)
Record dhcp_opts_t := Opts { o_sname : bytes; o_file : bytes; o_options : bytes }.
Definition DHCP_SNAME_LEN : nat := 64.
Definition DHCP_FILE_LEN : nat := 128.
Definition DHCP_OPTIONS_LEN : nat := 312.
Definition no_opts : dhcp_opts_t := Opts (replicate DHCP_SNAME_LEN 0) (replicate DHCP_FILE_LEN 0) [].

(** [struct dhcp_conn_t], less the state of address translation and the tag of the
    virtual network.  The members named like those of [struct app_conn_t] start
    with [d_]. *)
Record dhcp_conn := DConn {
  nexthash : option nat; d_next : option nat; d_prev : option nat; peer : option nat;
  d_inuse : bool; d_noc2c : bool; is_reserved : bool; lasttime : Z; d_hismac : bytes;
  d_ourip : Z; d_hisip : Z; d_hismask : Z; d_dns1 : Z; d_dns2 : Z; domain : bytes; authstate : Z; d_mtu : Z;
  dhcp_opts : dhcp_opts_t;
}.
Definition zero_dconn : dhcp_conn :=
  DConn None None None None false false false 0 (replicate 6 0) 0 0 0 0 0 [] 0 0 no_opts.

(** The connections and the hash table of [struct dhcp_t], and the variable
    [connections] of [dhcp.c]. *)
Record dhcp_t := Dhcp { d_conns : arena dhcp_conn; d_connections : Z; hash : list (option nat); hashmask : Z }.

Definition set_dnext (v : option nat) (c : dhcp_conn) : dhcp_conn :=
  DConn (nexthash c) v (d_prev c) (peer c) (d_inuse c) (d_noc2c c) (is_reserved c) (lasttime c) (d_hismac c)
    (d_ourip c) (d_hisip c) (d_hismask c) (d_dns1 c) (d_dns2 c) (domain c) (authstate c) (d_mtu c) (dhcp_opts c).
Definition set_dprev (v : option nat) (c : dhcp_conn) : dhcp_conn :=
  DConn (nexthash c) (d_next c) v (peer c) (d_inuse c) (d_noc2c c) (is_reserved c) (lasttime c) (d_hismac c)
    (d_ourip c) (d_hisip c) (d_hismask c) (d_dns1 c) (d_dns2 c) (domain c) (authstate c) (d_mtu c) (dhcp_opts c).
Definition set_nexthash (v : option nat) (c : dhcp_conn) : dhcp_conn :=
  DConn v (d_next c) (d_prev c) (peer c) (d_inuse c) (d_noc2c c) (is_reserved c) (lasttime c) (d_hismac c)
    (d_ourip c) (d_hisip c) (d_hismask c) (d_dns1 c) (d_dns2 c) (domain c) (authstate c) (d_mtu c) (dhcp_opts c).
Definition set_peer (v : option nat) (c : dhcp_conn) : dhcp_conn :=
  DConn (nexthash c) (d_next c) (d_prev c) v (d_inuse c) (d_noc2c c) (is_reserved c) (lasttime c) (d_hismac c)
    (d_ourip c) (d_hisip c) (d_hismask c) (d_dns1 c) (d_dns2 c) (domain c) (authstate c) (d_mtu c) (dhcp_opts c).
Definition set_reserved (v : bool) (c : dhcp_conn) : dhcp_conn :=
  DConn (nexthash c) (d_next c) (d_prev c) (peer c) (d_inuse c) (d_noc2c c) v (lasttime c) (d_hismac c)
    (d_ourip c) (d_hisip c) (d_hismask c) (d_dns1 c) (d_dns2 c) (domain c) (authstate c) (d_mtu c) (dhcp_opts c).
Definition set_auth (v : Z) (c : dhcp_conn) : dhcp_conn :=
  DConn (nexthash c) (d_next c) (d_prev c) (peer c) (d_inuse c) (d_noc2c c) (is_reserved c) (lasttime c) (d_hismac c)
    (d_ourip c) (d_hisip c) (d_hismask c) (d_dns1 c) (d_dns2 c) (domain c) v (d_mtu c) (dhcp_opts c).
(** What [dhcp_newconn] stores in a new connection. *)
Definition start_dconn (noc2c : bool) (mtu : Z) (mac : bytes) (now : Z) (c : dhcp_conn) : dhcp_conn :=
  DConn (nexthash c) (d_next c) (d_prev c) (peer c) true noc2c (is_reserved c) now mac
    (d_ourip c) (d_hisip c) (d_hismask c) (d_dns1 c) (d_dns2 c) (domain c) (authstate c) mtu (dhcp_opts c).

(** What the DHCP server tells the client. *)
Definition set_told (ourip dns1 dns2 : Z) (dom : bytes) (opts : dhcp_opts_t) (c : dhcp_conn) : dhcp_conn :=
  DConn (nexthash c) (d_next c) (d_prev c) (peer c) (d_inuse c) (d_noc2c c) (is_reserved c) (lasttime c) (d_hismac c)
    ourip (d_hisip c) (d_hismask c) dns1 dns2 dom (authstate c) (d_mtu c) opts.

#[export] Instance dconn_linked : Linked dhcp_conn :=
  {| lnext := d_next; lprev := d_prev; set_lnext := set_dnext; set_lprev := set_dprev |}.
#[export] Instance dconn_linked_laws : LinkedLaws dhcp_conn.
Proof. split; cbn; try done. intros [] Hn. cbn in *. by subst. Qed.

Definition set_dconns (v : arena dhcp_conn) (t : dhcp_t) : dhcp_t := Dhcp v (d_connections t) (hash t) (hashmask t).
Definition set_dcount (v : Z) (t : dhcp_t) : dhcp_t := Dhcp (d_conns t) v (hash t) (hashmask t).
Definition set_table (v : list (option nat)) (t : dhcp_t) : dhcp_t := Dhcp (d_conns t) (d_connections t) v (hashmask t).

(** ** The hash table *)

Definition dhcp_hash (hwaddr : bytes) : Z := Sfhash.lookup hwaddr 0.

(** [for (hashlog = 0; (1 << hashlog) < listsize; hashlog++);] *)
Fixpoint hashlog_loop (fuel : nat) (hashlog listsize : Z) : result Z :=
  match fuel with
  | O => Fault
  | S fuel => if s32 (2 ^ hashlog) <? listsize then hashlog_loop fuel (hashlog + 1) listsize else Done hashlog
  end.
(** The empty table; [alloc] says whether [calloc] succeeds. *)
Definition dhcp_hashinit (alloc : bool) (listsize : Z) : result (option dhcp_t) :=
  hashlog ← hashlog_loop 32 0 listsize;
  let hashsize := 2 ^ hashlog in
  if negb alloc then Done None
  else Done (Some (Dhcp (Arena [] (Ends None None) (Ends None None)) 0 (replicate (Z.to_nat hashsize) None) (hashsize - 1))).

Definition bucketof (t : dhcp_t) (hwaddr : bytes) : nat := Z.to_nat (Z.land (dhcp_hash hwaddr) (hashmask t)).
Definition nh (t : dhcp_t) (i : nat) : option nat := cells (d_conns t) !! i ≫= nexthash.
Definition hash_fuel (t : dhcp_t) : nat := length (cells (d_conns t)).
Definition set_hashlink (t : dhcp_t) (i : nat) (v : option nat) : result dhcp_t :=
  a ← update (d_conns t) i (set_nexthash v); Done (set_dconns a t).

Definition dhcp_hashadd (t : dhcp_t) (i : nat) : result dhcp_t :=
  c ← cell (d_conns t) i;
  let h := bucketof t (d_hismac c) in
  head ← access (hash t !! h);
  '(p_prev, _) ← walk_prev (hash_fuel t) (nh t) (fun _ => false) None head;
  match p_prev with
  | None => Done (set_table (<[h := Some i]> (hash t)) t)
  | Some j => set_hashlink t j (Some i)
  end.
Definition dhcp_hashdel (t : dhcp_t) (i : nat) : result dhcp_t :=
  c ← cell (d_conns t) i;
  let h := bucketof t (d_hismac c) in
  head ← access (hash t !! h);
  '(p_prev, p) ← walk_prev (hash_fuel t) (nh t) (fun j => bool_decide (j = i)) None head;
  p ← access p;
  x ← cell (d_conns t) p;
  match p_prev with
  | None => Done (set_table (<[h := nexthash x]> (hash t)) t)
  | Some j => set_hashlink t j (nexthash x)
  end.
(** Whether a cell is the connection of an interface. *)
Definition is_conn_of (t : dhcp_t) (hwaddr : bytes) (i : nat) : bool :=
  match cells (d_conns t) !! i with Some c => bool_decide (d_hismac c = hwaddr) && d_inuse c | None => false end.
Definition dhcp_hashget (t : dhcp_t) (hwaddr : bytes) : result (option nat) :=
  head ← access (hash t !! bucketof t hwaddr);
  walk (hash_fuel t) (nh t) (is_conn_of t hwaddr) head.

(** ** Connections come and go *)

(** A cell, and [None] for the return value -1. *)
Definition dhcp_lnkconn (max_clients : Z) (alloc : bool) (t : dhcp_t) : result (option nat * dhcp_t) :=
  r ← match e_first (free_ends (d_conns t)) with
      | None =>
        if d_connections t =? max_clients then Done (None, t)
        else
          let t := set_dcount (d_connections t + 1) t in
          if alloc then Done (Some (length (cells (d_conns t))), set_dconns (grow zero_dconn (d_conns t)) t)
          else Done (None, t)
      | Some i =>
        a ← pop_free (d_conns t) i;
        a ← update a i (fun _ => zero_dconn);
        Done (Some i, set_dconns a t)
      end;
  match r with
  | (None, t) => Done (None, t)
  | (Some i, t) => a ← push_used (d_conns t) i; Done (Some i, set_dconns a t)
  end.
(** What [dhcp_newconn] does before it informs the application; [now] is the clock. *)
Definition dhcp_enter (max_clients : Z) (alloc noc2c : bool) (mtu now : Z) (hwaddr : bytes) (t : dhcp_t)
    : result (option nat * dhcp_t) :=
  '(r, t) ← dhcp_lnkconn max_clients alloc t;
  match r with
  | None => Done (None, t)
  | Some i =>
    a ← update (d_conns t) i (start_dconn noc2c mtu hwaddr now);
    t ← dhcp_hashadd (set_dconns a t) i;
    Done (Some i, t)
  end.
(** What [dhcp_freeconn] does once the application knows. *)
Definition dhcp_leave (t : dhcp_t) (i : nat) : result dhcp_t :=
  t ← dhcp_hashdel t i;
  a ← unlink_used (d_conns t) i;
  a ← update a i (fun _ => zero_dconn);
  a ← push_free a i;
  Done (set_dconns a t).

(** ** The table *)

(** A cell but for its links on lists and chains. *)
Definition unhash (c : dhcp_conn) : dhcp_conn := set_nexthash None c.
Definition info (c : dhcp_conn) : dhcp_conn := unhash (data c).

(** The chains hold the connections in use, each in the bucket of its address. *)
Record hashed (t : dhcp_t) (ds : list nat) (cs : nat -> list nat) : Prop := {
  hs_size : exists k, 0 <= k /\ hashmask t = 2 ^ k - 1 /\ length (hash t) = Z.to_nat (2 ^ k);
  hs_chain : forall b, (b < length (hash t))%nat -> exists o, hash t !! b = Some o /\ chain (nh t) o (cs b);
  hs_nodup : forall b, NoDup (cs b);
  hs_in : forall b i, i ∈ cs b <-> i ∈ ds /\ exists x, cells (d_conns t) !! i = Some x /\ bucketof t (d_hismac x) = b;
}.
(** Cells in use have addresses of their own; memory is not given back. *)
Record table (t : dhcp_t) (ds df : list nat) (cs : nat -> list nat) : Prop := {
  tb_held : held (d_conns t) ds df [];
  tb_hash : hashed t ds cs;
  tb_inuse : forall i x, i ∈ ds -> cells (d_conns t) !! i = Some x -> d_inuse x = true;
  tb_mac : forall i j x y, i ∈ ds -> j ∈ ds -> cells (d_conns t) !! i = Some x -> cells (d_conns t) !! j = Some y ->
    d_hismac x = d_hismac y -> i = j;
}.

Lemma and_iff_under (P A B : Prop) : (P -> (A <-> B)) -> (P /\ A <-> P /\ B).
Proof. tauto. Qed.

Lemma bucket_bound t ds cs mac : hashed t ds cs -> (bucketof t mac < length (hash t))%nat.
Proof.
  intros [(k & Hk & Hm & ->) _ _ _]. unfold bucketof. rewrite Hm, Z.sub_1_r, <- Z.ones_equiv, Z.land_ones by done.
  assert (0 < 2 ^ k) by (by apply Z.pow_pos_nonneg). pose proof (Z.mod_pos_bound (dhcp_hash mac) (2 ^ k)). lia.
Qed.
Lemma chain_fuel t ds cs b : hashed t ds cs -> (length (cs b) <= hash_fuel t)%nat.
Proof.
  intros Hh. unfold hash_fuel. rewrite <- (length_seq (length (cells (d_conns t))) 0). apply submseteq_length, NoDup_submseteq; [apply Hh|].
  intros i (_ & x & Hx%lookup_lt_Some & _)%(hs_in _ _ _ Hh). apply elem_of_seq. lia.
Qed.
Lemma table_mac_cell t ds df cs i : table t ds df cs -> i ∈ ds -> exists x, cells (d_conns t) !! i = Some x.
Proof. intros [Hh _ _ _] Hi. eapply held_cell; [done|by left]. Qed.

(** Tables with the same heads and, at the cells in use, the same links and addresses. *)
Lemma hashed_ext t t' ds cs : hashed t ds cs -> hash t' = hash t -> hashmask t' = hashmask t ->
  (forall i, i ∈ ds -> nexthash <$> cells (d_conns t') !! i = nexthash <$> cells (d_conns t) !! i /\
                       d_hismac <$> cells (d_conns t') !! i = d_hismac <$> cells (d_conns t) !! i) ->
  hashed t' ds cs.
Proof.
  intros [Hs Hc Hn Hi] Eh Em He. constructor; [by rewrite Eh, Em| |done|].
  - rewrite Eh. intros b (o & Ho & Hch)%Hc. exists o. split; [done|]. eapply chain_ext; [|exact Hch].
    intros i (Hd & _)%Hi. destruct (He i Hd) as [H1 _]. unfold nh. destruct (cells (d_conns t') !! i), (cells (d_conns t) !! i); try done.
    by injection H1.
  - intros b i. rewrite Hi. apply and_iff_under. intros Hd. destruct (He i Hd) as [_ H1]. unfold bucketof. rewrite Em.
    split; intros (x & Hx & Hb); rewrite Hx in H1; [destruct (cells (d_conns t') !! i) as [y|] eqn:E|destruct (cells (d_conns t) !! i) as [y|] eqn:E];
      try done; injection H1 as H1; exists y; (split; [done|congruence]).
Qed.

(** *** Finding *)

(** The connection of an interface, or that there is none. *)
Definition found (t : dhcp_t) (ds : list nat) (mac : bytes) (r : option nat) : Prop :=
  match r with
  | Some i => i ∈ ds /\ exists x, cells (d_conns t) !! i = Some x /\ d_hismac x = mac
  | None => forall i x, i ∈ ds -> cells (d_conns t) !! i = Some x -> d_hismac x <> mac
  end.
Lemma hashget_ok t ds df cs mac : table t ds df cs -> exists r, dhcp_hashget t mac = Done r /\ found t ds mac r.
Proof.
  intros [_ Hh Hu _]. unfold dhcp_hashget. set (h := bucketof t mac).
  destruct (hs_chain _ _ _ Hh h (bucket_bound t ds cs mac Hh)) as (o & -> & Hc). obind.
  rewrite (walk_chain _ _ _ _ (cs h)) by (done || by eapply chain_fuel).
  destruct (find_from (is_conn_of t mac) (cs h)) as [[k i]|] eqn:Hf; cbn; eexists; (split; [done|]).
  - apply find_from_Some in Hf as (Hk & Ha & _). destruct (proj1 (hs_in _ _ _ Hh h i)) as (Hi & x & Hx & _); [by eapply list_elem_of_lookup_2|].
    split; [done|]. exists x. split; [done|]. unfold is_conn_of in Ha. rewrite Hx in Ha. apply andb_true_iff in Ha as [Ha _].
    by apply bool_decide_eq_true in Ha.
  - intros i x Hi Hx Ha. apply find_from_None in Hf. rewrite Forall_forall in Hf.
    assert (Hin : i ∈ cs h) by (apply (hs_in _ _ _ Hh); split; [done|]; exists x; by rewrite Ha).
    specialize (Hf i Hin). unfold is_conn_of in Hf. by rewrite Hx, (Hu i x), bool_decide_eq_true_2 in Hf.
Qed.
Lemma found_fun t ds df cs mac r r' : table t ds df cs -> found t ds mac r -> found t ds mac r' -> r = r'.
Proof.
  intros Ht. destruct r as [i|], r' as [j|]; cbn; [| | |done].
  - intros (Hi & x & Hx & Ex) (Hj & y & Hy & Ey). f_equal. apply (tb_mac _ _ _ _ Ht i j x y); congruence.
  - intros (Hi & x & Hx & Ex) Hn. by destruct (Hn i x).
  - intros Hn (Hi & x & Hx & Ex). by destruct (Hn j x).
Qed.

(** *** Changes of the hash links *)

Record hash_step (t t' : dhcp_t) : Prop := {
  st_used : used_ends (d_conns t') = used_ends (d_conns t);
  st_free : free_ends (d_conns t') = free_ends (d_conns t);
  st_count : d_connections t' = d_connections t;
  st_mask : hashmask t' = hashmask t;
  st_size : length (hash t') = length (hash t);
  st_cells : unhash <$> cells (d_conns t') = unhash <$> cells (d_conns t);
}.
Lemma step_field {A} (g : dhcp_conn -> A) t t' i : hash_step t t' -> (forall x, g (unhash x) = g x) ->
  g <$> cells (d_conns t') !! i = g <$> cells (d_conns t) !! i.
Proof.
  intros Hs Hg. pose proof (f_equal (fun l => l !! i) (st_cells _ _ Hs)) as E. cbn in E. rewrite !list_lookup_fmap in E.
  destruct (cells (d_conns t') !! i) as [x|], (cells (d_conns t) !! i) as [y|]; try done. apply (inj Some) in E.
  cbn. by rewrite <- (Hg x), E, Hg.
Qed.
Lemma step_length t t' : hash_step t t' -> length (cells (d_conns t')) = length (cells (d_conns t)).
Proof. intros Hs. pose proof (f_equal length (st_cells _ _ Hs)) as E. by rewrite !length_fmap in E. Qed.
Lemma step_held t t' u f x : hash_step t t' -> held (d_conns t) u f x -> held (d_conns t') u f x.
Proof.
  intros Hs Hh. eapply held_same; [exact Hh|apply Hs|apply Hs|by apply step_length|]. intros j. unfold nx, pv.
  pose proof (step_field d_next t t' j Hs (fun _ => eq_refl)) as E1. pose proof (step_field d_prev t t' j Hs (fun _ => eq_refl)) as E2.
  by destruct (cells (d_conns t') !! j), (cells (d_conns t) !! j); simplify_eq/=.
Qed.
Lemma hashlink_step t j y v : cells (d_conns t) !! j = Some y ->
  exists t', set_hashlink t j v = Done t' /\ hash_step t t' /\ hash t' = hash t /\
    forall k, nh t' k = if decide (k = j) then v else nh t k.
Proof.
  intros Hy. unfold set_hashlink. rewrite update_ok by (by eapply lookup_lt_Some). obind. eexists. split; [done|].
  split; [|split; [done|]].
  - constructor; try done. cbn. apply list_eq. intros k. rewrite !list_lookup_fmap. destruct (decide (k = j)) as [->|].
    + rewrite list_lookup_alter_eq. by destruct (cells (d_conns t) !! j).
    + by rewrite list_lookup_alter_ne.
  - intros k. unfold nh. cbn. case_decide as E; [subst k; by rewrite list_lookup_alter_eq, Hy|by rewrite list_lookup_alter_ne].
Qed.
Lemma head_step t h v : hash_step t (set_table (<[h := v]> (hash t)) t).
Proof. constructor; try done. cbn. by rewrite length_insert. Qed.

Lemma hashed_step t t' ds ds' cs cs' : hashed t ds cs -> hash_step t t' ->
  (forall b, (b < length (hash t))%nat -> exists o, hash t' !! b = Some o /\ chain (nh t') o (cs' b)) ->
  (forall b, NoDup (cs' b)) ->
  (forall b i, i ∈ cs' b <-> i ∈ ds' /\ exists x, cells (d_conns t) !! i = Some x /\ bucketof t (d_hismac x) = b) ->
  hashed t' ds' cs'.
Proof.
  intros Hh Hs Hc Hn Hi. constructor; [rewrite (st_mask _ _ Hs), (st_size _ _ Hs); apply Hh|by rewrite (st_size _ _ Hs)|done|].
  intros b i. rewrite Hi. apply and_iff_under. intros _. pose proof (step_field d_hismac t t' i Hs (fun _ => eq_refl)) as E.
  unfold bucketof. rewrite (st_mask _ _ Hs).
  split; intros (x & Hx & Hb); rewrite Hx in E; [destruct (cells (d_conns t') !! i) as [y|] eqn:Ey|destruct (cells (d_conns t) !! i) as [y|] eqn:Ey];
    try done; injection E as E; exists y; (split; [done|congruence]).
Qed.
Lemma same_bucket t ds cs b b' i : hashed t ds cs -> i ∈ cs b -> i ∈ cs b' -> b = b'.
Proof. intros Hh (_ & x & Hx & <-)%(hs_in _ _ _ Hh) (_ & y & Hy & <-)%(hs_in _ _ _ Hh). congruence. Qed.

Lemma hashadd_chains t ds cs i x : hashed t ds cs -> i ∉ ds -> cells (d_conns t) !! i = Some x -> nexthash x = None ->
  exists t' cs', dhcp_hashadd t i = Done t' /\ hash_step t t' /\ hashed t' (i :: ds) cs'.
Proof.
  intros Hh Hi Hx Hnil. unfold dhcp_hashadd. rewrite (cell_ok _ _ _ Hx). obind. set (h := bucketof t (d_hismac x)).
  pose proof (bucket_bound t ds cs (d_hismac x) Hh) as Hb. fold h in Hb. destruct (hs_chain _ _ _ Hh h Hb) as (o & Ho & Hc).
  rewrite Ho. obind. rewrite (walk_prev_chain _ _ _ _ _ (cs h)) by (done || by eapply chain_fuel).
  rewrite (proj2 (find_from_None _ (cs h))) by (by apply Forall_forall). obind.
  assert (Hcs : forall j b, j ∈ cs b -> j <> i) by (intros j b (Hj & _)%(hs_in _ _ _ Hh); congruence).
  set (cs' := fun b => if decide (b = h) then cs b ++ [i] else cs b).
  assert (Hnd : forall b, NoDup (cs' b)).
  { intros b. unfold cs'. case_decide; [|apply Hh]. apply NoDup_app. split; [apply Hh|]. split; [|apply NoDup_singleton].
    intros j Hj ->%list_elem_of_singleton. by eapply Hcs. }
  assert (Hin : forall b j, j ∈ cs' b <-> j ∈ i :: ds /\ exists y, cells (d_conns t) !! j = Some y /\ bucketof t (d_hismac y) = b).
  { intros b j. assert (Heq : j ∈ cs' b <-> j ∈ cs b \/ b = h /\ j = i)
      by (unfold cs'; case_decide; [rewrite elem_of_app, list_elem_of_singleton|]; tauto).
    rewrite Heq, (hs_in _ _ _ Hh), elem_of_cons. split.
    - intros [(? & ?)|[-> ->]]; [by auto|]. split; [by left|]. by exists x.
    - intros [[->|Hj] (y & Hy & Hbj)]; [right|left; by split; [|exists y]]. split; [|done]. unfold h. congruence. }
  assert (Hnext : nh t i = None) by (unfold nh; by rewrite Hx).
  destruct (list.last (cs h)) as [j|] eqn:Hlast.
  - assert (Hj : j ∈ cs h) by (rewrite last_lookup in Hlast; by eapply list_elem_of_lookup_2).
    destruct (proj1 (hs_in _ _ _ Hh _ _) Hj) as (_ & y & Hy & _). assert (cs h <> []) by (by intros E; rewrite E in Hlast).
    rewrite decide_False by done. destruct (hashlink_step t j y (Some i) Hy) as (t' & -> & Hs & Eh & Hnh).
    exists t', cs'. split; [done|]. split; [done|]. eapply hashed_step; [done..| |done|done].
    intros b Hbl. rewrite Eh. destruct (hs_chain _ _ _ Hh b Hbl) as (ob & Hob & Hcb). exists ob. split; [done|].
    specialize (Hnd b). unfold cs' in *. case_decide as Hbh.
    + subst b. assert (H1 := chain_snoc (nh t) (nh t') ob (cs h) i Hcb Hnd). rewrite decide_False in H1 by done. apply H1.
      { rewrite Hnh, decide_False; [done|]. intros ->. by eapply Hcs. }
      intros z Hz. rewrite Hnh, Hlast. repeat case_decide; congruence.
    + eapply chain_ext; [|exact Hcb]. intros z Hz. rewrite Hnh, decide_False; [done|]. intros ->. apply Hbh. by eapply same_bucket.
  - assert (Hcs0 : cs h = []) by (by apply last_None). rewrite Hcs0, decide_True by done. cbn [mbind].
    eexists _, cs'. split; [done|]. split; [apply head_step|]. eapply hashed_step; [done|apply head_step| |done|done].
    intros b Hbl. cbn [hash set_table]. destruct (hs_chain _ _ _ Hh b Hbl) as (ob & Hob & Hcb). unfold cs'. case_decide as Hbh.
    + subst b. rewrite list_lookup_insert_eq by done. eexists. split; [done|]. by rewrite Hcs0.
    + rewrite list_lookup_insert_ne by done. by exists ob.
Qed.

Lemma hashdel_chains t ds cs d i x : hashed t ds cs -> NoDup ds -> ds !! d = Some i -> cells (d_conns t) !! i = Some x ->
  exists t' cs', dhcp_hashdel t i = Done t' /\ hash_step t t' /\ hashed t' (delete d ds) cs'.
Proof.
  intros Hh Hnds Hd Hx. unfold dhcp_hashdel. rewrite (cell_ok _ _ _ Hx). obind. set (h := bucketof t (d_hismac x)).
  pose proof (bucket_bound t ds cs (d_hismac x) Hh) as Hb. fold h in Hb. destruct (hs_chain _ _ _ Hh h Hb) as (o & Ho & Hc).
  rewrite Ho. obind. rewrite (walk_prev_chain _ _ _ _ _ (cs h)) by (done || by eapply chain_fuel).
  assert (Hic : i ∈ cs h) by (apply (hs_in _ _ _ Hh); split; [by eapply list_elem_of_lookup_2|by exists x]).
  apply list_elem_of_lookup in Hic as [k Hk].
  assert (Hfind : find_from (fun j => bool_decide (j = i)) (cs h) = Some (k, i)).
  { apply find_from_Some. split; [done|]. split; [by apply bool_decide_eq_true|].
    intros j y Hj Hy. apply bool_decide_eq_false. intros ->. assert (j = k) by (eapply NoDup_lookup; [apply (hs_nodup _ _ _ Hh h)|done|done]). lia. }
  rewrite Hfind. obind. rewrite (cell_ok _ _ _ Hx). obind.
  set (cs' := fun b => if decide (b = h) then delete k (cs b) else cs b).
  assert (Hnd : forall b, NoDup (cs' b)) by (intros b; unfold cs'; case_decide; [apply NoDup_delete|]; apply Hh).
  assert (Hin : forall b j, j ∈ cs' b <-> j ∈ delete d ds /\ exists y, cells (d_conns t) !! j = Some y /\ bucketof t (d_hismac y) = b).
  { intros b j. assert (Heq : j ∈ cs' b <-> j ∈ cs b /\ j <> i).
    { unfold cs'. case_decide as Hbh; [subst b; by apply elem_of_delete_NoDup; [apply Hh|]|].
      split; [|tauto]. intros Hj. split; [done|]. intros ->. apply Hbh. eapply same_bucket; [done|exact Hj|by eapply list_elem_of_lookup_2]. }
    rewrite Heq, (hs_in _ _ _ Hh), (elem_of_delete_NoDup ds d i) by done. tauto. }
  assert (Hnext : nh t i = nexthash x) by (unfold nh; by rewrite Hx).
  assert (Hdel := fun nx' => chain_delete (nh t) nx' o (cs h) k i Hc (hs_nodup _ _ _ Hh h) Hk).
  destruct (decide (k = 0%nat)) as [->|Hk0]; cbn [mbind outcome_bind].
  - eexists _, cs'. split; [done|]. split; [apply head_step|]. eapply hashed_step; [done|apply head_step| |done|done].
    intros b Hbl. cbn [hash set_table]. destruct (hs_chain _ _ _ Hh b Hbl) as (ob & Hob & Hcb). unfold cs'.
    destruct (decide (b = h)) as [->|Hbh].
    + rewrite list_lookup_insert_eq by done. eexists. split; [done|]. rewrite <- Hnext. apply Hdel.
      intros z Hz Hne. by rewrite decide_False by tauto.
    + rewrite list_lookup_insert_ne by done. by exists ob.
  - destruct (cs h !! pred k) as [j|] eqn:Hj.
    2: { apply lookup_ge_None in Hj. apply lookup_lt_Some in Hk. lia. }
    destruct (proj1 (hs_in _ _ _ Hh h j)) as (_ & y & Hy & _); [by eapply list_elem_of_lookup_2|].
    destruct (hashlink_step t j y (nexthash x) Hy) as (t' & -> & Hs & Eh & Hnh).
    exists t', cs'. split; [done|]. split; [done|]. eapply hashed_step; [done..| |done|done].
    intros b Hbl. rewrite Eh. destruct (hs_chain _ _ _ Hh b Hbl) as (ob & Hob & Hcb). exists ob. split; [done|].
    unfold cs'. destruct (decide (b = h)) as [->|Hbh].
    + rewrite Ho in Hob. injection Hob as <-. apply Hdel. intros z Hz Hne. rewrite Hnh, Hnext.
      destruct (decide (z = j)) as [->|Hzj]; [by rewrite decide_True|]. rewrite decide_False; [done|]. intros [_ [= ->]]. done.
    + eapply chain_ext; [|exact Hcb]. intros z Hz. rewrite Hnh, decide_False; [done|]. intros ->. apply Hbh.
      eapply same_bucket; [done|exact Hz|by eapply list_elem_of_lookup_2].
Qed.
(** *** Entering and leaving *)

Implicit Types h : list dhcp_conn.
(** What does not depend on links is the same where all but links is. *)
Lemma info_field {A} (g : dhcp_conn -> A) h h' i : info <$> h' !! i = info <$> h !! i -> (forall c, g (info c) = g c) ->
  g <$> h' !! i = g <$> h !! i.
Proof.
  intros E Hg. destruct (h' !! i) as [x|], (h !! i) as [y|]; try done. apply (inj Some) in E. cbn. by rewrite <- (Hg x), E, Hg.
Qed.
Lemma hashed_data t t' ds cs : hashed t ds cs -> hash t' = hash t -> hashmask t' = hashmask t ->
  (forall i, i ∈ ds -> data <$> cells (d_conns t') !! i = data <$> cells (d_conns t) !! i) -> hashed t' ds cs.
Proof. intros Hh E1 E2 Hd. apply (hashed_ext t); try done. intros i Hi%Hd. by split; apply data_field. Qed.
Lemma step_info t t' i : hash_step t t' -> info <$> cells (d_conns t') !! i = info <$> cells (d_conns t) !! i.
Proof. intros Hs. apply (step_field info t t' i Hs). by intros []. Qed.
Lemma table_intro t t' ds ds' df df' cs cs' : table t ds df cs -> held (d_conns t') ds' df' [] -> hashed t' ds' cs' ->
  (forall i, i ∈ ds' -> i ∈ ds) -> (forall i, i ∈ ds' -> info <$> cells (d_conns t') !! i = info <$> cells (d_conns t) !! i) ->
  table t' ds' df' cs'.
Proof.
  intros [_ _ Hu Hm] Hh Hc Hsub He.
  assert (Hold : forall i x, i ∈ ds' -> cells (d_conns t') !! i = Some x ->
            exists y, i ∈ ds /\ cells (d_conns t) !! i = Some y /\ d_inuse x = d_inuse y /\ d_hismac x = d_hismac y).
  { intros i x Hi Hx. specialize (He i Hi). pose proof (info_field d_inuse _ _ _ He (fun _ => eq_refl)) as E1.
    pose proof (info_field d_hismac _ _ _ He (fun _ => eq_refl)) as E2. rewrite Hx in E1, E2.
    destruct (cells (d_conns t) !! i) as [y|]; [|done]. exists y. split; [auto|]. split; [done|]. by injection E1; injection E2. }
  constructor; [done|done| |].
  - intros i x Hi Hx. destruct (Hold i x Hi Hx) as (y & Hi' & Hy & -> & _). by apply (Hu i).
  - intros i j x y Hi Hj Hx Hy E. destruct (Hold i x Hi Hx) as (x' & Hi' & Hx' & _ & Ex), (Hold j y Hj Hy) as (y' & Hj' & Hy' & _ & Ey).
    apply (Hm i j x' y'); congruence.
Qed.

(** A cell for the connection, which is not in the hash table yet. *)
Lemma lnkconn_ok max_clients alloc t ds df cs : table t ds df cs -> exists r t',
  dhcp_lnkconn max_clients alloc t = Done (r, t') /\ hash t' = hash t /\ hashmask t' = hashmask t /\
  match r with
  | None => df = [] /\ (d_connections t = max_clients \/ alloc = false) /\ d_conns t' = d_conns t
  | Some i => (i ∉ ds) /\ (exists df', held (d_conns t') (i :: ds) df' []) /\
      (forall j, j ∈ ds -> data <$> cells (d_conns t') !! j = data <$> cells (d_conns t) !! j) /\
      data <$> cells (d_conns t') !! i = Some zero_dconn
  end.
Proof.
  intros [Hh Hc _ _]. unfold dhcp_lnkconn. rewrite (dl_head _ _ _ (he_free _ _ _ _ Hh)). destruct df as [|i df]; cbn [head].
  - destruct (Z.eqb_spec (d_connections t) max_clients); [exists None, t; obind; by auto 10|].
    destruct alloc; obind; [|eexists None, _; split; [done|by auto 10]]. cbn [d_conns set_dconns].
    change (d_conns (set_dcount _ t)) with (d_conns t). set (i := length (cells (d_conns t))).
    pose proof (held_grow _ _ _ zero_dconn Hh) as Hg. pose proof (held_out _ _ _ _ Hg) as (Hi & _).
    assert (Hz : cells (grow zero_dconn (d_conns t)) !! i = Some zero_dconn) by (by apply list_lookup_middle).
    destruct (push_used_ok _ _ _ _ _ Hg Hz eq_refl eq_refl) as (a & Ea & Ha & _ & Hr).
    fold i in Hg, Ea, Ha, Hi. rewrite Ea. obind. eexists (Some i), _. split; [done|]. split; [done|]. split; [done|]. split; [done|].
    split; [by exists []|]. cbn [d_conns set_dconns]. split.
    + intros j Hj. rewrite Hr by apply not_elem_of_nil. cbn. rewrite lookup_app_l; [done|]. by apply (dl_bound _ _ _ (he_used _ _ _ _ Hh)).
    + rewrite Hr by apply not_elem_of_nil. by rewrite Hz.
  - destruct (pop_free_ok _ _ _ _ Hh) as (a1 & -> & Hh1 & Hr1). obind. pose proof (held_out _ _ _ _ Hh1) as (Hi & _ & Hlt).
    rewrite update_ok by done. obind. cbn [d_conns set_dconns]. set (a2 := set_cells _ a1).
    assert (Hz : cells a2 !! i = Some zero_dconn).
    { cbn. destruct (lookup_lt_is_Some_2 _ _ Hlt) as [c Hc1]. by rewrite list_lookup_alter_eq, Hc1. }
    destruct (push_used_ok a2 _ _ _ _ (held_reset _ _ _ _ _ Hh1) Hz eq_refl eq_refl) as (a & Ea & Ha & _ & Hr).
    rewrite Ea. obind. eexists (Some i), _. split; [done|]. split; [done|]. split; [done|]. split; [done|]. split; [by exists df|].
    cbn [d_conns set_dconns]. split.
    + intros j Hj. rewrite Hr by apply not_elem_of_nil. cbn. rewrite list_lookup_alter_ne by (by intros ->).
      apply Hr1. apply not_elem_of_nil.
    + rewrite Hr by apply not_elem_of_nil. by rewrite Hz.
Qed.

Lemma enter_ok max_clients alloc noc2c mtu now mac t ds df cs : table t ds df cs -> found t ds mac None -> exists r t',
  dhcp_enter max_clients alloc noc2c mtu now mac t = Done (r, t') /\
  match r with
  | None => df = [] /\ (d_connections t = max_clients \/ alloc = false) /\ d_conns t' = d_conns t /\ table t' ds df cs
  | Some i => (i ∉ ds) /\ (exists df' cs', table t' (i :: ds) df' cs') /\
      (forall j, j ∈ ds -> info <$> cells (d_conns t') !! j = info <$> cells (d_conns t) !! j) /\
      info <$> cells (d_conns t') !! i = Some (start_dconn noc2c mtu mac now zero_dconn)
  end.
Proof.
  intros Ht Hnew. unfold dhcp_enter. destruct (lnkconn_ok max_clients alloc t ds df cs Ht) as (r & t1 & -> & E1 & E2 & Hr). obind.
  destruct r as [i|]; [|destruct Hr as (? & ? & E)].
  2: { exists None, t1. do 4 (split; [done|]). apply (table_intro t _ ds _ df _ cs); try done; [by rewrite E; apply Ht| |by rewrite E].
       apply (hashed_data t); try done; [apply Ht|by rewrite E]. }
  destruct Hr as (Hi & (df' & Hh1) & Hold & Hz).
  assert (Hlt : (i < length (cells (d_conns t1)))%nat) by (apply (held_elem _ _ _ _ i Hh1); left; by left).
  rewrite update_ok by done. obind. set (a := set_cells _ _).
  assert (Hne : forall j, j ∈ ds -> cells a !! j = cells (d_conns t1) !! j)
    by (intros j Hj; cbn; rewrite list_lookup_alter_ne; [done|by intros ->]).
  destruct (lookup_lt_is_Some_2 _ _ Hlt) as [x Hx]. rewrite Hx in Hz. apply (inj Some) in Hz.
  assert (Hxi : cells a !! i = Some (start_dconn noc2c mtu mac now x)) by (cbn; by rewrite list_lookup_alter_eq, Hx).
  assert (Hc1 : hashed (set_dconns a t1) ds cs).
  { apply (hashed_data t); try done; [apply Ht|]. intros j Hj. cbn [d_conns set_dconns]. rewrite Hne by done. by apply Hold. }
  destruct (hashadd_chains _ ds cs i _ Hc1 Hi Hxi) as (t2 & cs2 & -> & Hs & Hc2).
  { change (nexthash (data x) = None). by rewrite Hz. }
  obind. exists (Some i), t2. split; [done|]. split; [done|].
  assert (Hinfo : forall j, j ∈ ds -> info <$> cells (d_conns t2) !! j = info <$> cells (d_conns t) !! j).
  { intros j Hj. rewrite (step_info _ _ _ Hs). cbn [d_conns set_dconns]. rewrite Hne by done. by apply data_field; [apply Hold|intros []]. }
  assert (Hself : info <$> cells (d_conns t2) !! i = Some (start_dconn noc2c mtu mac now zero_dconn)).
  { rewrite (step_info _ _ _ Hs). cbn [d_conns set_dconns]. rewrite Hxi. cbn.
    change (Some (start_dconn noc2c mtu mac now (unhash (data x))) = Some (start_dconn noc2c mtu mac now zero_dconn)). by rewrite Hz. }
  split; [|done]. exists df', cs2. destruct Ht as [_ _ Hu Hm].
  assert (Hback : forall j y, j ∈ ds -> cells (d_conns t2) !! j = Some y ->
            exists z, cells (d_conns t) !! j = Some z /\ d_inuse y = d_inuse z /\ d_hismac y = d_hismac z).
  { intros j y Hj Hy. specialize (Hinfo j Hj). pose proof (info_field d_inuse _ _ _ Hinfo (fun _ => eq_refl)) as F1.
    pose proof (info_field d_hismac _ _ _ Hinfo (fun _ => eq_refl)) as F2. rewrite Hy in F1, F2.
    destruct (cells (d_conns t) !! j) as [z|]; [|done]. exists z. split; [done|]. by injection F1; injection F2. }
  assert (Hnewi : forall y, cells (d_conns t2) !! i = Some y -> d_inuse y = true /\ d_hismac y = mac).
  { intros y Hy. rewrite Hy in Hself. apply (inj Some) in Hself as F.
    split; [change (d_inuse (info y) = true)|change (d_hismac (info y) = mac)]; by rewrite F. }
  constructor; [|done| |].
  - eapply step_held; [done|]. by apply held_alter.
  - intros j y [->|Hj]%elem_of_cons Hy; [by apply Hnewi|]. destruct (Hback j y Hj Hy) as (z & Hz' & -> & _). by apply (Hu j).
  - intros j k y z [->|Hj]%elem_of_cons [->|Hk]%elem_of_cons Hy Hz' E; [done| | |].
    + destruct (Hnewi y Hy) as [_ Ey], (Hback k z Hk Hz') as (z' & Hz2 & _ & Ez). exfalso. apply (Hnew k z' Hk Hz2). congruence.
    + destruct (Hnewi z Hz') as [_ Ez], (Hback j y Hj Hy) as (y' & Hy2 & _ & Ey). exfalso. apply (Hnew j y' Hj Hy2). congruence.
    + destruct (Hback j y Hj Hy) as (y' & Hy2 & _ & Ey), (Hback k z Hk Hz') as (z' & Hz2 & _ & Ez). apply (Hm j k y' z'); congruence.
Qed.

Lemma leave_ok t ds df cs k i : table t ds df cs -> ds !! k = Some i -> exists t' cs',
  dhcp_leave t i = Done t' /\ table t' (delete k ds) (i :: df) cs' /\ d_connections t' = d_connections t /\
  (forall j, j ∈ delete k ds -> info <$> cells (d_conns t') !! j = info <$> cells (d_conns t) !! j).
Proof.
  intros Ht Hk. pose proof Ht as [Hh Hc _ _]. assert (Hid : i ∈ ds) by (by eapply list_elem_of_lookup_2).
  assert (Hnd : NoDup ds) by apply (dl_nodup _ _ _ (he_used _ _ _ _ Hh)).
  destruct (held_cell _ _ _ _ i Hh) as [x Hx]; [by left|]. unfold dhcp_leave.
  destruct (hashdel_chains t ds cs k i x Hc Hnd Hk Hx) as (t1 & cs1 & -> & Hs & Hc1). obind.
  destruct (unlink_used_ok _ _ _ _ _ (step_held _ _ _ _ _ Hs Hh) Hk) as (a1 & -> & Hh1 & Hr1). obind.
  pose proof (held_out _ _ _ _ Hh1) as (Hi & _ & Hlt). rewrite update_ok by done. obind. set (a2 := set_cells _ a1).
  assert (Hz : cells a2 !! i = Some zero_dconn).
  { cbn. destruct (lookup_lt_is_Some_2 _ _ Hlt) as [c Hc']. by rewrite list_lookup_alter_eq, Hc'. }
  destruct (push_free_ok a2 _ _ i _ (held_reset _ _ _ _ _ Hh1) Hz eq_refl) as (a3 & -> & Hh3 & Hr3). obind.
  assert (Hdata : forall j, j ∈ delete k ds -> data <$> cells a3 !! j = data <$> cells (d_conns t1) !! j).
  { intros j Hj. destruct Hr3 as [_ ->]; [|apply not_elem_of_nil]. cbn. rewrite list_lookup_alter_ne by (by intros ->).
    apply Hr1. apply not_elem_of_nil. }
  assert (Hinfo : forall j, j ∈ delete k ds -> info <$> cells a3 !! j = info <$> cells (d_conns t) !! j).
  { intros j Hj. rewrite <- (step_info _ _ _ Hs). by apply data_field; [apply Hdata|intros []]. }
  eexists _, cs1. split; [done|]. split; [|split; [apply Hs|done]].
  apply (table_intro t _ ds _ df _ cs); try done.
  - by apply (hashed_data t1).
  - intros j Hj. by apply (elem_of_delete_NoDup ds k i j Hnd Hk) in Hj as [? _].
Qed.

(** When memory runs out, [connections] still counts the connection: each time the limit
    for the rest of the run is lower by one. *)
Lemma lost_connection : exists t t',
  dhcp_hashinit true 1 = Done (Some t) /\ dhcp_lnkconn 1 false t = Done (None, t') /\ dhcp_lnkconn 1 true t' = Done (None, t') /\
  cells (d_conns t') = [].
Proof. eexists _, _. repeat split; vm_compute; reflexivity. Qed.
End Dhcp.
