(* ===== verification/Lease.v ===== *)
(** * Leases of the hotspot daemon ([dhcp.c], [chilli.c])

    A client has a connection of [dhcp.c] ([Dhcp]), tied to a connection of [chilli.c]
    ([Conns]) with its session ([Session]), and an address of the pool ([IpPool]).  A
    lease comes with the first packet of a client, gets its address on request, and
    ends when it is released or nothing has been heard for too long. *)

From S2P Require Import Prelude CLib Mem Chains Dlist Md5 Radius RadiusQueue IpPool Session Conns Dhcp.

Module Lease.
Import Mem Dlist Radius Session Conns Dhcp.

Definition DHCP_AUTH_DROP : Z := 1.
Definition RADIUS_TERMINATE_CAUSE_ADMIN_RESET : Z := 6.
Definition RADIUS_SERVICE_TYPE_LOGIN : Z := 1.
Definition RADIUS_SERVICE_TYPE_FRAMED : Z := 2.
Definition DHCP_DOMAIN_LEN : nat := 30.
Definition USERNAMESIZE : nat := 256.
Definition RADIUS_MPPEKEYSSIZE : nat := 32.
Definition MS2SUCCSIZE : nat := 40.
Definition PAP_PASSWORD : Z := 256.
Definition DHCP_OPTION_MESSAGE_TYPE : Z := 53.
Definition DHCP_OPTION_REQUESTED_IP : Z := 50.
Definition DHCP_MIN_LEN : Z := 236.
Definition DHCP_OPTION_MAGIC_LEN : Z := 4.
Definition DHCP_BOOTPS : Z := 67.
Definition DHCPDISCOVER : Z := 1.
Definition DHCPREQUEST : Z := 3.
Definition DHCPDECLINE : Z := 4.
Definition DHCPRELEASE : Z := 7.
Definition DHCPINFORM : Z := 8.

(** ** Data *)

(** What a reply says about the keys of a client of an access point: a challenge, keys
    in their buffers with the lengths in use, and settings of encryption. *)
Record proxy := Proxy {
  chal : bytes; sendkey : bytes; sendlen : Z; recvkey : bytes; recvlen : Z; lmntkeys : bytes; lmntlen : Z;
  policy : Z; types : Z; ms2succ : bytes;
}.
Definition no_proxy : proxy :=
  Proxy [] (replicate 253 0) 0 (replicate 253 0) 0 (replicate RADIUS_MPPEKEYSSIZE 0) 0 0 0 (replicate MS2SUCCSIZE 0).
(** The members of [struct app_conn_t] that [Session] leaves out: the address of the
    pool and the DHCP connection it belongs to, addresses, and what concerns access
    points. *)
Record link := Link {
  uplink : option nat; downlink : option nat; natip : Z; reqip : Z; hismask : Z; ourip : Z;
  mask : Z; net : Z; dns1 : Z; dns2 : Z; authtype : Z; radproxy : proxy;
}.
Definition no_link : link := Link None None 0 0 0 0 0 0 0 0 0 no_proxy.

Record world := World { app : chilli; links : list link; dhcp : dhcp_t; pool : IpPool.ippool_t }.

(** Calls out of the daemon: those of a session, scripts for an interface that comes or
    goes, a request to the RADIUS server, a rejection or a challenge to an access point,
    settings for the administrative session, the answer to a request of the RADIUS
    server, routes. *)
Inductive notice :=
| Of_session (e : event)
| Mac_script (script : bytes)
| Auth_request (attrs : list addattr)
| Access_reject
| Access_challenge (chal : bytes)
| Admin_config
| Coa_answer (code : Z) (id : Z)
| Route (add : bool) (ip gateway : Z).
(** What the DHCP server sends last for a message: an answer to a connection, or the
    message itself to another server. *)
Inductive answer := Offer (d : nat) | Ack (d : nat) | Nak (d : nat) | Relay.

(** The options these functions read; [lease], [o_mtu], [o_noc2c], [allowdyn] and whether
    requests are relayed are members of [struct dhcp_t]. *)
Record dhcp_options := DOptions {
  max_clients : Z; lease : Z; leaseplus : Z; o_mtu : Z; o_noc2c : bool; allowdyn : bool; relayed : bool; strictdhcp : bool;
  o_net : Z; o_mask : Z; o_dns1 : Z; o_dns2 : Z; dhcplisten : Z; o_uamlisten : Z; o_domain : option bytes;
  uamanyip : bool; uamnatanyip : bool; autostatip : Z;
  uamanyipex_addr : Z; uamanyipex_mask : Z; uamnatanyipex_addr : Z; uamnatanyipex_mask : Z;
  macok : list bytes; macallowlocal : bool; macauth : bool; strictmacauth : bool; macauthdeny : bool;
  macsuffix : option bytes; macpasswd : option bytes; macup : option bytes; macdown : option bytes; dhcpnotidle : bool;
  noradallow : bool; adminupdatefile : option bytes; dhcpradius : bool;
}.

(** *** Assignments *)

Definition set_app (v : chilli) (w : world) : world := World v (links w) (dhcp w) (pool w).
Definition set_links (v : list link) (w : world) : world := World (app w) v (dhcp w) (pool w).
Definition set_dhcp (v : dhcp_t) (w : world) : world := World (app w) (links w) v (pool w).
Definition set_pool (v : IpPool.ippool_t) (w : world) : world := World (app w) (links w) (dhcp w) v.

Definition set_uplink (v : option nat) (l : link) : link :=
  Link v (downlink l) (natip l) (reqip l) (hismask l) (ourip l) (mask l) (net l) (dns1 l) (dns2 l) (authtype l) (radproxy l).
Definition set_natip (v : Z) (l : link) : link :=
  Link (uplink l) (downlink l) v (reqip l) (hismask l) (ourip l) (mask l) (net l) (dns1 l) (dns2 l) (authtype l) (radproxy l).
Definition set_reqip (v : Z) (l : link) : link :=
  Link (uplink l) (downlink l) (natip l) v (hismask l) (ourip l) (mask l) (net l) (dns1 l) (dns2 l) (authtype l) (radproxy l).
Definition set_hismask (v : Z) (l : link) : link :=
  Link (uplink l) (downlink l) (natip l) (reqip l) v (ourip l) (mask l) (net l) (dns1 l) (dns2 l) (authtype l) (radproxy l).
Definition set_ourip (v : Z) (l : link) : link :=
  Link (uplink l) (downlink l) (natip l) (reqip l) (hismask l) v (mask l) (net l) (dns1 l) (dns2 l) (authtype l) (radproxy l).

Definition set_dns (f g : Z -> Z) (l : link) : link :=
  Link (uplink l) (downlink l) (natip l) (reqip l) (hismask l) (ourip l) (mask l) (net l) (f (dns1 l)) (g (dns2 l)) (authtype l) (radproxy l).
Definition set_authtype (v : Z) (l : link) : link :=
  Link (uplink l) (downlink l) (natip l) (reqip l) (hismask l) (ourip l) (mask l) (net l) (dns1 l) (dns2 l) v (radproxy l).
Definition set_radproxy (v : proxy) (l : link) : link :=
  Link (uplink l) (downlink l) (natip l) (reqip l) (hismask l) (ourip l) (mask l) (net l) (dns1 l) (dns2 l) (authtype l) v.

Definition set_hisip (v : Z) (c : app_conn) : app_conn :=
  Conn (next c) (prev c) (inuse c) (is_adminsession c) (unit_ c) (dnprot c) (rt c) (dnlink c) (nasip_ c) (nasport c)
    (hismac c) v (s_params c) (s_state c).
Definition set_hismac (v : bytes) (c : app_conn) : app_conn :=
  Conn (next c) (prev c) (inuse c) (is_adminsession c) (unit_ c) (dnprot c) (rt c) (dnlink c) (nasip_ c) (nasport c)
    v (hisip c) (s_params c) (s_state c).
Definition set_username (v : bytes) (c : app_conn) : app_conn :=
  set_state (set_redir (fun r => Redir v (userurl r) (classbuf r) (cuibuf r) (statebuf r))) c.

(** The members of the pool point back to the connections. *)
Definition set_owner (v : option nat) (m : IpPool.ippoolm_t) : IpPool.ippoolm_t := IpPool.set_peer (Z.of_nat <$> v) m.

Definition dcell (w : world) (d : nat) : result dhcp_conn := cell (d_conns (dhcp w)) d.
Definition with_dcell (w : world) (d : nat) (f : dhcp_conn -> dhcp_conn) : result world :=
  a ← update (d_conns (dhcp w)) d f; Done (set_dhcp (set_dconns a (dhcp w)) w).
Definition linkof (w : world) (a : nat) : result link := access (links w !! a).
Definition with_link (w : world) (a : nat) (f : link -> link) : result world :=
  l ← linkof w a; Done (set_links (<[a := f l]> (links w)) w).
Definition with_app (w : world) (a : nat) (f : app_conn -> app_conn) : result world :=
  app ← modify (app w) a f; Done (set_app app w).
Definition with_member (w : world) (m : nat) (f : IpPool.ippoolm_t -> IpPool.ippoolm_t) : result world :=
  x ← access (IpPool.member (pool w) !! m);
  Done (set_pool (IpPool.set_member (pool w) (<[m := f x]> (IpPool.member (pool w)))) w).

(** A function of [Session] on a connection.  The authentication state of the DHCP
    connection is in its own cell; the session sees it as its [dnlink]. *)
Definition on_session {A} (w : world) (a : nat) (f : app_conn -> result (app_conn * A)) : result (world * A) :=
  c ← deref (app w) a;
  l ← linkof w a;
  dn ← match downlink l with None => Done None | Some d => x ← dcell w d; Done (Some (authstate x)) end;
  '(c, x) ← f (set_dnlink dn c);
  w ← with_app w a (fun _ => set_dnlink None c);
  w ← match downlink l, dnlink c with
      | Some d, Some s => with_dcell w d (set_auth s)
      | _, _ => Done w
      end;
  Done (w, x).

Definition set_lasttime (v : Z) (c : dhcp_conn) : dhcp_conn :=
  DConn (nexthash c) (d_next c) (d_prev c) (peer c) (d_inuse c) (d_noc2c c) (is_reserved c) v (d_hismac c)
    (d_ourip c) (d_hisip c) (d_hismask c) (d_dns1 c) (d_dns2 c) (domain c) (authstate c) (d_mtu c) (dhcp_opts c).

(** The return value of a function of the pool, which only reports that it failed. *)
Definition of_pool {A} (r : outcome IpPool.pool_err A) : result (option A) :=
  match r with Done x => Done (Some x) | Fail _ => Done None | Fault => Fault end.

Section Lease.
Context (o : options) (popen : bytes -> option (option bytes)) (e : endian)
  (inet_aton : bytes -> option Z) (nas_hwaddr : bytes) (sysinfo : option (Z * bytes * bytes)).
Abbreviation terminate_appconn := (terminate_appconn o popen e inet_aton nas_hwaddr sysinfo).
Abbreviation dnprot_accept := (dnprot_accept o popen e inet_aton nas_hwaddr sysinfo).
Abbreviation chilli_req_attrs := (chilli_req_attrs o e inet_aton nas_hwaddr).
Context (cfg : dhcp_options).
Abbreviation ippool_newip := (@IpPool.ippool_newip (Sfhash.sf_hash e) (uamanyip cfg)).
Abbreviation ippool_freeip := (@IpPool.ippool_freeip (Sfhash.sf_hash e)).
Abbreviation ippool_getip := (@IpPool.ippool_getip (Sfhash.sf_hash e)).
(** The clocks: [mainclock], and what [mainclock_rt] reads. *)
Context (mainclock mainclock_rt : Z).

(** ** New connections *)

(** A new connection of [chilli.c] for a connection of [dhcp.c]. *)
Definition chilli_connect (alloc : bool) (w : world) (d : nat) : result (option nat * world) :=
  '(r, app) ← chilli_new_conn alloc (max_clients cfg) (app w);
  match r with
  | None => Done (None, set_app app w)
  | Some a =>
    x ← dcell w d;
    let l := Link None (Some d) 0 0 0 0 (o_mask cfg) (o_net cfg) (o_dns1 cfg) (o_dns2 cfg) 0 no_proxy in
    let w := set_links (if decide (a < length (links w))%nat then <[a := l]> (links w) else links w ++ [l]) (set_app app w) in
    w ← with_app w a (fun c => set_sessionid mainclock_rt (set_hismac (d_hismac x) (set_dnprot DNPROT_DHCP_NONE c)));
    Done (Some a, w)
  end.
Definition cb_dhcp_connect (alloc : bool) (w : world) (d : nat) : result (world * list notice) :=
  '(r, w) ← chilli_connect alloc w d;
  match r with
  | None => Done (w, [])
  | Some a =>
    w ← with_dcell w d (fun x => set_auth DHCP_AUTH_NONE (set_peer (Some a) x));
    Done (w, match macup cfg with Some s => [Mac_script s] | None => [] end)
  end.

(** [alloc]: whether memory for the two connections can be had. *)
Definition dhcp_newconn (alloc : bool * bool) (w : world) (hwaddr : bytes) : result (option nat * world * list notice) :=
  '(r, t) ← dhcp_enter (max_clients cfg) alloc.1 (o_noc2c cfg) (o_mtu cfg) mainclock hwaddr (dhcp w);
  let w := set_dhcp t w in
  match r with
  | None => Done (None, w, [])
  | Some d => '(w, es) ← cb_dhcp_connect alloc.2 w d; Done (Some d, w, es)
  end.
(** The connection of an interface, without the packet it was found in. *)
Definition dhcp_getconn (alloc : bool * bool) (w : world) (mac : bytes) (do_alloc : bool)
    : result (option nat * world * list notice) :=
  r ← dhcp_hashget (dhcp w) mac;
  match r with
  | Some d => Done (Some d, w, [])
  | None => if do_alloc then dhcp_newconn alloc w mac else Done (None, w, [])
  end.

(** ** Ends *)

(** The addresses of a connection that ends. *)
Definition release_address (w : world) (a d : nat) : result (world * list notice) :=
  l ← linkof w a;
  match uplink l with
  | None => Done (w, [])
  | Some m =>
    '(w, es) ← (if uamanyip cfg then
                  if natip l =? 0 then
                    x ← access (IpPool.member (pool w) !! m);
                    Done (w, if IpPool.in_use x && IpPool.is_static x then [Route false (IpPool.addr x) (ourip l)] else [])
                  else
                    n ← of_pool (ippool_getip (pool w) (natip l));
                    match n with
                    | Some (Some n) =>
                      p ← of_pool (ippool_freeip (pool w) n);
                      Done (set_pool (default (pool w) p) w, [])
                    | _ => Done (w, [])
                    end
                else Done (w, []));
    x ← access (IpPool.member (pool w) !! m);
    dc ← dcell w d;
    if IpPool.in_use x && negb (is_reserved dc) then
      p ← of_pool (ippool_freeip (pool w) m);
      Done (set_pool (default (pool w) p) w, es)
    else Done (w, es)
  end.
Definition session_disconnect (w : world) (a d : nat) (term_cause : Z) : result (world * list notice) :=
  '(w, es) ← on_session w a (fun c =>
    terminate_appconn mainclock mainclock_rt c
      (if negb (term_cause =? 0) then term_cause
       else if negb (terminate_cause (s_state c) =? 0) then terminate_cause (s_state c)
       else RADIUS_TERMINATE_CAUSE_LOST_CARRIER));
  '(w, es') ← release_address w a d;
  let es := map Of_session es ++ es' ++ match macdown cfg with Some s => [Mac_script s] | None => [] end in
  dc ← dcell w d;
  if negb (is_reserved dc) then
    app ← freeconn (app w) a;
    w ← with_link (set_app app w) a (fun _ => no_link);
    w ← with_dcell w d (set_peer None);
    Done (w, es)
  else Done (w, es).
Definition cb_dhcp_disconnect (w : world) (d : nat) (term_cause : Z) : result (world * list notice) :=
  dc ← dcell w d;
  match peer dc with
  | None => Done (w, [])
  | Some a => session_disconnect w a d term_cause
  end.

Definition dhcp_freeconn (w : world) (d : nat) (term_cause : Z) : result (world * list notice) :=
  '(w, es) ← cb_dhcp_disconnect w d term_cause;
  dc ← dcell w d;
  if is_reserved dc then Done (w, es)
  else t ← dhcp_leave (dhcp w) d; Done (set_dhcp t w, es).

(** Connections that have not been heard of for longer than a lease lasts. *)
Fixpoint checkconn_loop (fuel : nat) (w : world) (p : option nat) : result (world * list notice) :=
  match p with
  | None => Done (w, [])
  | Some d =>
    match fuel with
    | O => Fault
    | S fuel =>
      c ← dcell w d;
      let conn := d_next c in
      '(w, es) ← (if negb (is_reserved c) && (s32 (lease cfg) + leaseplus cfg <? mainclock_diff mainclock (lasttime c))
                  then dhcp_freeconn w d RADIUS_TERMINATE_CAUSE_LOST_CARRIER
                  else Done (w, []));
      '(w, es') ← checkconn_loop fuel w conn;
      Done (w, es ++ es')
    end
  end.
Definition dhcp_checkconn (w : world) : result (world * list notice) :=
  checkconn_loop (length (cells (d_conns (dhcp w)))) w (e_first (used_ends (d_conns (dhcp w)))).
Definition dhcp_timeout (w : world) : result (world * list notice) := dhcp_checkconn w.

Definition dhcp_release_mac (w : world) (hwaddr : bytes) (term_cause : Z) : result (world * list notice) :=
  r ← dhcp_hashget (dhcp w) hwaddr;
  match r with
  | None => Done (w, [])
  | Some d =>
    c ← dcell w d;
    if (authstate c =? DHCP_AUTH_DROP) && negb (term_cause =? RADIUS_TERMINATE_CAUSE_ADMIN_RESET)
    then Done (w, [])
    else dhcp_freeconn w d term_cause
  end.
Definition dhcp_block_mac (w : world) (hwaddr : bytes) : result world :=
  r ← dhcp_hashget (dhcp w) hwaddr;
  match r with
  | None => Done w
  | Some d =>
    c ← dcell w d;
    w ← with_dcell w d (set_auth DHCP_AUTH_DROP);
    match peer c with Some a => with_app w a (set_dnprot DNPROT_NULL) | None => Done w end
  end.

(** ** Addresses *)

Definition autostat (mac : bytes) : Z :=
  let byte i := default 0 (mac !! i) in
  htonl e (u32 (Z.rem (autostatip cfg) 255 * 0x1000000 + byte 3%nat * 0x10000 + byte 4%nat * 0x100 + byte 5%nat)).
(** The member, and the address that was asked for in the end. *)
Definition newip (p : IpPool.ippool_t) (hisip : Z) (hismac : option bytes) : result (option (nat * IpPool.ippool_t) * Z) :=
  let hisip := match hismac with
               | Some mac => if negb (autostatip cfg =? 0) then autostat mac else hisip
               | None => hisip
               end in
  r ← of_pool (ippool_newip p (Some hisip) true);
  r ← match r with
      | Some _ => Done r
      | None => of_pool (ippool_newip p (Some hisip) false)
      end;
  Done (r, hisip).
(** The connection gets the member of the pool. *)
Definition take_member (w : world) (a m : nat) (hismask : Z) : result world :=
  x ← access (IpPool.member (pool w) !! m);
  w ← with_app w a (set_hisip (IpPool.addr x));
  w ← with_link w a (fun l =>
    set_uplink (Some m) (set_ourip (if ourip l =? 0 then dhcplisten cfg else ourip l) (set_hismask hismask l)));
  with_member w m (set_owner (Some a)).

(** Whether the return value is 0. *)
Definition chilli_assign_snat (w : world) (a : nat) (force : bool) : result (bool * world * list notice) :=
  l ← linkof w a;
  c ← deref (app w) a;
  if negb (uamanyip cfg) then Done (true, w, [])
  else if negb (uamnatanyip cfg) then Done (true, w, [])
  else if negb (natip l =? 0) && negb force then Done (true, w, [])
  else if negb (uamnatanyipex_addr cfg =? 0) && (Z.land (hisip c) (uamnatanyipex_mask cfg) =? uamnatanyipex_addr cfg)
  then Done (true, w, [])
  else if Z.land (hisip c) (o_mask cfg) =? o_net cfg then Done (true, w, [])
  else
    r ← of_pool (ippool_newip (pool w) (Some (natip l)) false);
    match r with
    | None =>
      match downlink l with
      | Some d => '(w, es) ← dhcp_freeconn w d 0; Done (false, w, es)
      | None => Done (false, w, [])
      end
    | Some (n, p) =>
      let w := set_pool p w in
      x ← access (IpPool.member p !! n);
      w ← with_link w a (set_natip (IpPool.addr x));
      w ← with_member w n (set_owner (Some a));
      Done (true, w, [])
    end.

Definition dhcp_set_addrs (w : world) (d : nat) (hisip hismask ourip ourmask dns1 dns2 : Z) : result (world * list notice) :=
  w ← with_dcell w d (fun c =>
    DConn (nexthash c) (d_next c) (d_prev c) (peer c) (d_inuse c) (d_noc2c c) (is_reserved c) (lasttime c) (d_hismac c)
      ourip hisip hismask dns1 dns2
      (match domain c, o_domain cfg with [], Some s => take (DHCP_DOMAIN_LEN - 1) s | s, _ => s end) (authstate c) (d_mtu c) (dhcp_opts c));
  if uamanyip cfg && negb (uamnatanyip cfg) && negb (Z.land hisip ourmask =? Z.land ourip ourmask) then
    c ← dcell w d;
    match peer c with
    | None => Done (w, [])
    | Some a =>
      l ← linkof w a;
      match uplink l with
      | None => Done (w, [])
      | Some m =>
        x ← access (IpPool.member (pool w) !! m);
        Done (w, if IpPool.in_use x && IpPool.is_static x then [Route true hisip ourip] else [])
      end
    end
  else Done (w, []).

(** ** Logins *)

Definition mac_user (mac : bytes) : bytes := take (USERNAMESIZE - 1) (dashed mac ++ default [] (macsuffix cfg)).
(** Without the options of the packet that [dhcpradius] copies. *)
Definition auth_radius (w : world) (a : nat) (user password : option bytes) : result (world * list notice) :=
  l ← linkof w a;
  d ← access (downlink l);
  x ← dcell w d;
  let service_type := match user with Some _ => RADIUS_SERVICE_TYPE_LOGIN | None => RADIUS_SERVICE_TYPE_FRAMED end in
  let name := match user with Some u => take (USERNAMESIZE - 1) u | None => mac_user (d_hismac x) end in
  w ← with_app w a (set_username name);
  c ← deref (app w) a;
  let user := default name user in
  let password := match password with Some p => p | None => default name (macpasswd cfg) end in
  w ← with_link w a (set_authtype PAP_PASSWORD);
  Done (w, [Auth_request
    ([text_attr RADIUS_ATTR_USER_NAME user; text_attr RADIUS_ATTR_USER_PASSWORD password] ++
     chilli_req_attrs RADIUS_CODE_ACCESS_REQUEST service_type 0 (u32 (unit_ c)) (hismac c) (hisip c) (s_state c) ++
     [Add RADIUS_ATTR_MESSAGE_AUTHENTICATOR 0 0 0 None (Z.of_nat RADIUS_MD5LEN)])]).

(** [dnprot_accept] of the session, which begins with [dhcp_set_addrs]. *)
Definition is_set_addrs (ev : event) : bool := match ev with Set_addrs _ => true | _ => false end.
Definition accept (w : world) (a : nat) : result (world * list notice) :=
  '(w, es) ← on_session w a (dnprot_accept mainclock);
  l ← linkof w a;
  c ← deref (app w) a;
  match downlink l with
  | Some d =>
    if existsb is_set_addrs es then
      '(w, es') ← dhcp_set_addrs w d (hisip c) (hismask l) (ourip l) (mask l) (dns1 l) (dns2 l);
      Done (w, es' ++ map Of_session es)
    else Done (w, map Of_session es)
  | None => Done (w, map Of_session es)
  end.
Definition dnprot_reject (c : app_conn) : app_conn * list notice :=
  if is_adminsession c then (c, [])
  else if dnprot c =? DNPROT_WPA then (c, [Access_reject])
  else if dnprot c =? DNPROT_MAC then
    let c := if authenticated (s_state c) =? 0 then set_username (str "-") c else c in
    match dnlink c with
    | None => (c, [])
    | Some _ =>
      if macauthdeny cfg then (set_dnprot DNPROT_NULL (set_authstate DHCP_AUTH_DROP c), [])
      else (set_dnprot DNPROT_UAM (set_authstate DHCP_AUTH_NONE c), [])
    end
  else (c, []).

(** [hisip]: an address, or [None] for a pointer to [appconn->reqip]. *)
Definition upprot_getip (w : world) (a : nat) (hisip : option Z) (netmask : Z) : result (world * list notice) :=
  l ← linkof w a;
  '(got, w) ← match uplink l with
      | Some _ => Done (true, w)
      | None =>
        mac ← match downlink l with None => Done None | Some d => x ← dcell w d; Done (Some (d_hismac x)) end;
        '(r, ip) ← newip (pool w) (default (reqip l) hisip) mac;
        w ← match hisip with None => with_link w a (set_reqip ip) | Some _ => Done w end;
        match r with
        | None => Done (false, w)
        | Some (m, p) =>
          w ← take_member (set_pool p w) a m (if negb (netmask =? 0) then netmask else o_mask cfg); Done (true, w)
        end
      end;
  if (got : bool) then
    '(ok, w, es) ← chilli_assign_snat w a false;
    if (ok : bool) then '(w, es') ← accept w a; Done (w, es ++ es') else Done (w, es)
  else on_session w a (fun c => Done (dnprot_reject c)).

(** ** Requests *)

Definition maccmp (mac : bytes) : bool := existsb (fun m => bool_decide (mac = m)) (macok cfg).

(** "Filter out which ip's are allowed". *)
Definition refused (addr : option Z) : bool :=
  match addr with
  | Some a =>
    uamanyip cfg && negb (a =? 0) &&
    ((a =? o_uamlisten cfg) ||
     (negb (uamanyipex_addr cfg =? 0) && (Z.land a (uamanyipex_mask cfg) =? uamanyipex_addr cfg)) ||
     (Z.land a (htonl e 0xFFFF0000) =? htonl e 0xA9FE0000))
  | None => false
  end.
(** The authentication of a client by the address of its interface, before it gets an
    address: what remains of [domacauth] and [allocate]. *)
Definition mac_login (w : world) (a d : nat) : result (world * list notice * bool * bool) :=
  c ← deref (app w) a;
  dc ← dcell w d;
  if is_reserved dc then Done (w, [], macauth cfg, true)
  else if negb (bool_decide (macok cfg = [])) && (dnprot c =? DNPROT_DHCP_NONE) && maccmp (d_hismac dc) then
    w ← with_app w a (set_dnprot DNPROT_MAC);
    if macallowlocal cfg then
      w ← with_app w a (set_username (mac_user (d_hismac dc)));
      '(w, es) ← upprot_getip w a None 0;
      Done (w, es, false, true)
    else
      '(w, es) ← auth_radius w a None None;
      Done (w, es, false, negb (strictmacauth cfg))
  else if macauth cfg && (dnprot c =? DNPROT_DHCP_NONE) then
    w ← with_app w a (set_dnprot DNPROT_MAC);
    '(w, es) ← auth_radius w a None None;
    Done (w, es, false, negb (strictmacauth cfg))
  else Done (w, [], macauth cfg, true).

(** A new address for a connection that has none; whether it can go on. *)
Definition request_address (w : world) (a d : nat) : result (bool * world * list notice) :=
  c ← deref (app w) a;
  dc ← dcell w d;
  w ← (if negb (dnprot c =? DNPROT_DHCP_NONE) && negb (hisip c =? 0) then with_link w a (set_reqip (hisip c)) else Done w);
  l ← linkof w a;
  '(r, ip) ← newip (pool w) (reqip l) (Some (d_hismac dc));
  w ← with_link w a (set_reqip ip);
  match r with
  | None => Done (false, w, [])
  | Some (m, p) =>
    w ← take_member (set_pool p w) a m (o_mask cfg);
    chilli_assign_snat w a false
  end.

(** Once the connection has its address. *)
Definition request_done (w : world) (a d : nat) (domacauth : bool) : result (world * list notice) :=
  l ← linkof w a;
  m ← access (uplink l);
  x ← access (IpPool.member (pool w) !! m);
  '(w, es) ← dhcp_set_addrs w d (IpPool.addr x) (o_mask cfg) (ourip l) (mask l) (o_dns1 cfg) (o_dns2 cfg);
  c ← deref (app w) a;
  '(w, es') ← (if authenticated (s_state c) =? 0 then
                '(w, es) ← (if domacauth then auth_radius w a None None else Done (w, []));
                w ← with_dcell w d (set_auth DHCP_AUTH_DNAT);
                Done (w, es)
              else Done (w, []));
  w ← with_app w a (fun c =>
    let c := if dnprot c =? DNPROT_DHCP_NONE then set_dnprot DNPROT_UAM c else c in
    if dhcpnotidle cfg then set_state (set_clock (fun t => Times (start_time t) (interim_time t) mainclock (last_time t))) c else c);
  Done (w, es ++ es').
(** Whether the return value is 0. *)
Definition cb_dhcp_request (w : world) (d : nat) (addr : option Z) : result (bool * world * list notice) :=
  dc ← dcell w d;
  match peer dc with
  | None => Done (false, w, [])
  | Some a =>
    if refused addr then Done (false, w, [])
    else
      w ← with_link w a (set_reqip (default 0 addr));
      l ← linkof w a;
      '(w, es, domacauth, allocate) ← match uplink l with
        | Some _ => Done (w, [], macauth cfg, true)
        | None => mac_login w a d
        end;
      l ← linkof w a;
      '(ok, w, es') ← match uplink l with
        | Some _ => Done (true, w, [])
        | None => if (allocate : bool) then request_address w a d else Done (false, w, [])
        end;
      if (ok : bool) then '(w, es'') ← request_done w a d domacauth; Done (true, w, es ++ es' ++ es'')
      else Done (false, w, es ++ es')
  end.

Definition dhcp_reserve_ip (alloc : bool * bool) (w : world) (mac : bytes) (ip : Z) : result (world * list notice) :=
  '(r, w, es) ← dhcp_getconn alloc w mac true;
  match r with
  | None => Done (w, es)
  | Some d =>
    w ← with_dcell w d (set_reserved true);
    '(_, w, es') ← cb_dhcp_request w d (Some ip);
    Done (w, es ++ es')
  end.
Definition dhcp_authorize_mac (w : world) (hwaddr : bytes) (params : session_params) : result (world * list notice) :=
  r ← dhcp_hashget (dhcp w) hwaddr;
  match r with
  | None => Done (w, [])
  | Some d =>
    c ← dcell w d;
    match peer c with
    | None => Done (w, [])
    | Some a =>
      w ← with_app w a (set_params (fun _ => session_param_defaults o params));
      accept w a
    end
  end.

(** ** Messages *)

(** The offset of an option in the payload of a datagram, [length] bytes of which are the
    DHCP packet. *)
Fixpoint gettag_loop (fuel : nat) (pack : bytes) (length : Z) (tagtype : Z) (offset : nat) : result (option nat) :=
  match fuel with
  | O => Fault
  | S fuel =>
    if Z.of_nat offset + 2 <? length then
      t ← byte_at pack offset;
      l ← byte_at pack (offset + 1);
      if t =? tagtype then
        Done (if length <? Z.of_nat offset + 2 + l then None else Some offset)
      else gettag_loop fuel pack length tagtype (offset + 2 + Z.to_nat l)
    else Done None
  end.
Definition dhcp_gettag (pack : bytes) (len tagtype : Z) : result (option nat) :=
  gettag_loop (S (length pack)) pack len tagtype (Z.to_nat (DHCP_MIN_LEN + DHCP_OPTION_MAGIC_LEN)).

(** A message from the interface [src] to the UDP port [dst], with the length [udp_len] in
    its UDP header and the payload [pack]. *)
Definition dhcp_getreq (alloc : bool * bool) (w : world) (src : bytes) (dst udp_len : Z) (pack : bytes)
    : result (world * list notice * option answer) :=
  if negb (dst =? DHCP_BOOTPS) then Done (w, [], None)
  else
    let len := u32 (udp_len - 8) in
    t ← dhcp_gettag pack len DHCP_OPTION_MESSAGE_TYPE;
    match t with
    | None => Done (w, [], None)
    | Some t =>
      l ← byte_at pack (t + 1);
      if negb (l =? 1) then Done (w, [], None)
      else
        chaddr ← read pack 28 6;
        let mac := if bool_decide (chaddr = replicate 6 0) then src else chaddr in
        type ← byte_at pack (t + 2);
        if negb (existsb (Z.eqb type) [DHCPDISCOVER; DHCPREQUEST; DHCPDECLINE; DHCPRELEASE; DHCPINFORM]) then Done (w, [], None)
        else
          '(w, es) ← (if (type =? DHCPDECLINE) || (type =? DHCPRELEASE)
                      then dhcp_release_mac w mac RADIUS_TERMINATE_CAUSE_LOST_CARRIER else Done (w, []));
          if type =? DHCPRELEASE then Done (w, es, None)
          else
            '(r, w, es1) ← dhcp_getconn alloc w mac (allowdyn cfg);
            let es := es ++ es1 in
            match r with
            | None => Done (w, es, None)
            | Some d =>
              if relayed cfg then Done (w, es, Some Relay)
              else
                c ← dcell w d;
                if authstate c =? DHCP_AUTH_DROP then Done (w, es, None)
                else
                  cip ← read pack 12 4;
                  let ciaddr := word_val e cip in
                  t ← dhcp_gettag pack len DHCP_OPTION_REQUESTED_IP;
                  addr ← match t with Some t => ip ← read pack (t + 2) 4; Done (word_val e ip) | None => Done ciaddr end;
                  if strictdhcp cfg && negb (addr =? 0) && negb (Z.land addr (o_mask cfg) =? o_net cfg)
                  then Done (w, es, Some (Nak d))
                  else
                    '(ok, w, es2) ← cb_dhcp_request w d (Some addr);
                    let es := es ++ es2 in
                    if negb ok then Done (w, es, Some (Nak d))
                    else
                      w ← with_dcell w d (set_lasttime mainclock);
                      c ← dcell w d;
                      if type =? DHCPDISCOVER then Done (w, es, if negb (d_hisip c =? 0) then Some (Offer d) else None)
                      else if type =? DHCPREQUEST then
                        Done (w, es, Some (if negb (d_hisip c =? 0) && ((d_hisip c =? ciaddr) || (d_hisip c =? addr)) then Ack d else Nak d))
                      else Done (w, es, None)
            end
    end.
End Lease.

(** ** What belongs together *)

(** What the parts of the daemon know of a client: its connection, the application's
    connection, the links between them, and the member of the pool. *)
Definition seen_d (w : world) (d : nat) : option (option nat * bytes * Z) :=
  (fun x => (peer x, d_hismac x, d_hisip x)) <$> cells (d_conns (dhcp w)) !! d.
Definition seen_l (w : world) (a : nat) : option (option nat * option nat) := (fun l => (uplink l, downlink l)) <$> links w !! a.
Definition seen_a (w : world) (a : nat) : option (bytes * Z) := (fun c => (hismac c, hisip c)) <$> heap (app w) !! a.
Definition seen_m (w : world) (m : nat) : option (Z * bool * option Z) := IpPool.tenant <$> IpPool.member (pool w) !! m.

(** The connections [ds] of [dhcp.c] in use and those of [chilli.c], [as_], point to each
    other, with the exception of connections that [chilli.c] had no room for.  A
    connection with an address has a member of the pool that is in use for it, and
    no other member is in use. *)
Record ties (ds as_ : list nat) (D : nat -> option (option nat * bytes * Z)) (L : nat -> option (option nat * option nat))
    (A : nat -> option (bytes * Z)) (M : nat -> option (Z * bool * option Z)) : Prop := {
  t_peer : forall d a mac ip, d ∈ ds -> D d = Some (Some a, mac, ip) ->
    a ∈ as_ /\ exists up ip', L a = Some (up, Some d) /\ A a = Some (mac, ip');
  t_down : forall a, a ∈ as_ -> exists up d mac ip, L a = Some (up, Some d) /\ d ∈ ds /\ D d = Some (Some a, mac, ip);
  t_up : forall a m dn, a ∈ as_ -> L a = Some (Some m, dn) ->
    exists mac ip, M m = Some (ip, true, Some (Z.of_nat a)) /\ A a = Some (mac, ip);
  t_none : forall a dn mac ip, a ∈ as_ -> L a = Some (None, dn) -> A a = Some (mac, ip) -> ip = 0;
  t_used : forall m ip o, M m = Some (ip, true, o) -> exists a dn, a ∈ as_ /\ L a = Some (Some m, dn);
  t_ip : forall d p mac ip, d ∈ ds -> D d = Some (p, mac, ip) -> ip <> 0 ->
    exists a m, p = Some a /\ L a = Some (Some m, Some d) /\ M m = Some (ip, true, Some (Z.of_nat a));
}.

Arguments t_peer {_ _ _ _ _ _} _.
Arguments t_down {_ _ _ _ _ _} _.
Arguments t_up {_ _ _ _ _ _} _.
Arguments t_none {_ _ _ _ _ _} _.
Arguments t_used {_ _ _ _ _ _} _.
Arguments t_ip {_ _ _ _ _ _} _.

Section Ties.
Implicit Types (ds : list nat) (D : nat -> option (option nat * bytes * Z)) (L : nat -> option (option nat * option nat))
  (A : nat -> option (bytes * Z)) (M : nat -> option (Z * bool * option Z)).

Lemma ties_ext ds as_ D D' L L' A A' M M' : ties ds as_ D L A M ->
  (forall d, d ∈ ds -> D' d = D d) -> (forall a, a ∈ as_ -> L' a = L a /\ A' a = A a) -> (forall m, M' m = M m) ->
  ties ds as_ D' L' A' M'.
Proof.
  intros [Hp Hd Hu Hz Hm Hi] ED EA EM. constructor.
  - intros d a mac ip Hdd. rewrite ED by done. intros H1. destruct (Hp d a mac ip Hdd H1) as (Ha & H2). split; [done|].
    destruct (EA a Ha) as [-> ->]. done.
  - intros a Ha. destruct (EA a Ha) as [-> _], (Hd a Ha) as (up & d & mac & ip & H1 & H2 & H3). exists up, d, mac, ip. by rewrite ED.
  - intros a m dn Ha. destruct (EA a Ha) as [-> ->]. intros H1. rewrite EM. by apply (Hu a m dn).
  - intros a dn mac ip Ha. destruct (EA a Ha) as [-> ->]. by apply Hz.
  - intros m ip o. rewrite EM. intros H1. destruct (Hm m ip o H1) as (a & dn & Ha & H2). exists a, dn. destruct (EA a Ha) as [-> _]. done.
  - intros d p mac ip Hdd. rewrite ED by done. intros H1 H2. destruct (Hi d p mac ip Hdd H1 H2) as (a & m & -> & H3 & H4).
    exists a, m. destruct (Hp d a mac ip Hdd H1) as [Ha _], (EA a Ha) as [-> _]. by rewrite EM.
Qed.
(** A connection without a peer comes. *)
Lemma ties_enter ds as_ D D' L A M d mac : ties ds as_ D L A M -> d ∉ ds -> D' d = Some (None, mac, 0) ->
  (forall d', d' ∈ ds -> D' d' = D d') -> ties (d :: ds) as_ D' L A M.
Proof.
  intros [Hp Hd Hu Hz Hm Hi] Hn Hnew ED. constructor; [| |done|done|done|].
  - intros d' a mac' ip [->|H1]%elem_of_cons; [by rewrite Hnew|rewrite ED by done; by apply Hp].
  - intros a Ha. destruct (Hd a Ha) as (up & d' & mac' & ip & H1 & H2 & H3). exists up, d', mac', ip. rewrite ED by done. split; [done|].
    split; [by right|done].
  - intros d' p mac' ip [->|H1]%elem_of_cons; [|rewrite ED by done; by apply Hi]. rewrite Hnew. intros [= <- <- <-]. done.
Qed.
(** It gets its peer. *)
Lemma ties_connect ds as_ D D' L L' A A' M d a mac : ties ds as_ D L A M -> d ∈ ds -> a ∉ as_ ->
  D d = Some (None, mac, 0) -> D' d = Some (Some a, mac, 0) -> (forall d', d' <> d -> D' d' = D d') ->
  L' a = Some (None, Some d) -> A' a = Some (mac, 0) -> (forall b, b ∈ as_ -> L' b = L b /\ A' b = A b) ->
  ties ds (a :: as_) D' L' A' M.
Proof.
  intros [Hp Hd Hu Hz Hm Hi] Hdd Ha E1 E2 ED E3 E4 EA.
  assert (Hold : forall d' b mac' ip, d' ∈ ds -> D' d' = Some (Some b, mac', ip) -> d' = d /\ b = a /\ mac' = mac /\ ip = 0 \/
            d' <> d /\ D d' = Some (Some b, mac', ip)).
  { intros d' b mac' ip Hd' H1. destruct (decide (d' = d)) as [->|Hne]; [left; rewrite E2 in H1; by injection H1 as <- <- <-|right].
    by rewrite <- ED. }
  constructor.
  - intros d' b mac' ip Hd' H1. destruct (Hold d' b mac' ip Hd' H1) as [(-> & -> & -> & ->)|[Hne H2]].
    + split; [by left|]. by exists None, 0.
    + destruct (Hp d' b mac' ip Hd' H2) as [Hb H3]. split; [by right|]. destruct (EA b Hb) as [-> ->]. done.
  - intros b [->|Hb]%elem_of_cons; [by exists None, d, mac, 0|]. destruct (Hd b Hb) as (up & d' & mac' & ip & H1 & H2 & H3).
    exists up, d', mac', ip. destruct (EA b Hb) as [-> _]. split; [done|]. split; [done|]. rewrite ED; [done|]. intros ->. congruence.
  - intros b m dn [->|Hb]%elem_of_cons; [by rewrite E3|]. destruct (EA b Hb) as [-> ->]. by apply Hu.
  - intros b dn mac' ip [->|Hb]%elem_of_cons; [rewrite E4; by intros _ [= _ <-]|]. destruct (EA b Hb) as [-> ->]. by apply Hz.
  - intros m ip o H1. destruct (Hm m ip o H1) as (b & dn & Hb & H2). exists b, dn. destruct (EA b Hb) as [-> _]. split; [by right|done].
  - intros d' p mac' ip Hd' H1 Hip. assert (d' <> d) by (intros ->; rewrite E2 in H1; by injection H1 as <- <- <-).
    rewrite ED in H1 by done. destruct (Hi d' p mac' ip Hd' H1 Hip) as (b & m & -> & H2 & H3). exists b, m.
    destruct (Hp d' b mac' ip Hd' H1) as [Hb _], (EA b Hb) as [-> _]. done.
Qed.
(** A connection gets a free member. *)
Lemma ties_take ds as_ D L L' A A' M M' a d m mac ip x o : ties ds as_ D L A M -> a ∈ as_ -> L a = Some (None, Some d) ->
  A a = Some x -> x.1 = mac -> M m = Some o -> o.1.2 = false ->
  L' a = Some (Some m, Some d) -> A' a = Some (mac, ip) -> (forall b, b <> a -> L' b = L b /\ A' b = A b) ->
  M' m = Some (ip, true, Some (Z.of_nat a)) -> (forall n, n <> m -> M' n = M n) -> ties ds as_ D L' A' M'.
Proof.
  intros [Hp Hd Hu Hz Hm Hi] Ha E1 E2 E3 E4 E5 E6 E7 EA E8 EM.
  assert (Hfree : forall b dn, b ∈ as_ -> L b = Some (Some m, dn) -> False).
  { intros b dn Hb Hl. destruct (Hu b m dn Hb Hl) as (mac' & ip' & H1 & _). rewrite E4 in H1. by injection H1 as ->. }
  constructor.
  - intros d' b mac' ip' Hd' H1. destruct (Hp d' b mac' ip' Hd' H1) as (Hb & up & ip2 & H2 & H3). split; [done|].
    destruct (decide (b = a)) as [->|Hne]; [|destruct (EA b Hne) as [-> ->]; by exists up, ip2].
    exists (Some m), ip. rewrite E6, E7. rewrite E1 in H2. injection H2 as _ <-. split; [done|]. rewrite E2 in H3. injection H3 as ->.
    by rewrite <- E3.
  - intros b Hb. destruct (Hd b Hb) as (up & d' & mac' & ip' & H1 & H2). destruct (decide (b = a)) as [->|Hne].
    + exists (Some m), d', mac', ip'. rewrite E6. rewrite E1 in H1. injection H1 as _ <-. done.
    + exists up, d', mac', ip'. by destruct (EA b Hne) as [-> _].
  - intros b n dn Hb. destruct (decide (b = a)) as [->|Hne].
    + rewrite E6, E7. intros [= <- _]. by exists mac, ip.
    + destruct (EA b Hne) as [-> ->]. intros H1. rewrite EM; [by apply (Hu b n dn)|]. intros ->. by eapply Hfree.
  - intros b dn mac' ip' Hb. destruct (decide (b = a)) as [->|Hne]; [by rewrite E6|]. destruct (EA b Hne) as [-> ->]. by apply Hz.
  - intros n ip' o'. destruct (decide (n = m)) as [->|Hn]; [intros _; by exists a, (Some d)|]. rewrite EM by done. intros H1.
    destruct (Hm n ip' o' H1) as (b & dn & Hb & H2). exists b, dn. split; [done|]. destruct (EA b) as [-> _]; [|done]. intros ->. congruence.
  - intros d' p mac' ip' Hd' H1 Hip. destruct (Hi d' p mac' ip' Hd' H1 Hip) as (b & n & -> & H2 & H3). exists b, n.
    destruct (Hp d' b mac' ip' Hd' H1) as [Hb _]. destruct (EA b) as [-> _]; [intros ->; congruence|]. split; [done|]. split; [done|].
    rewrite EM; [done|]. intros ->. by eapply Hfree.
Qed.
(** The address is told to the connection of [dhcp.c]. *)
Lemma ties_addr ds as_ D D' L A M d a m mac ip ip' dn o : ties ds as_ D L A M -> d ∈ ds -> D d = Some (Some a, mac, ip') ->
  L a = Some (Some m, dn) -> M m = Some (ip, true, o) -> D' d = Some (Some a, mac, ip) -> (forall d', d' <> d -> D' d' = D d') ->
  ties ds as_ D' L A M.
Proof.
  intros [Hp Hd Hu Hz Hm Hi] Hdd E1 E2 E3 E4 ED. destruct (Hp d a mac ip' Hdd E1) as (Ha & up & ip2 & E5 & E6).
  rewrite E2 in E5. injection E5 as <- ->. destruct (Hu a m (Some d) Ha E2) as (mac3 & ip3 & E7 & E8).
  rewrite E3 in E7. injection E7 as <- ->. constructor; [| |done|done|done|].
  - intros d' b mac' ip4 Hd'. destruct (decide (d' = d)) as [->|Hne]; [|rewrite ED by done; by apply Hp].
    rewrite E4. intros [= <- <- <-]. by apply (Hp d a mac ip').
  - intros b Hb. destruct (Hd b Hb) as (up & d' & mac' & ip4 & H1 & H2 & H3). exists up, d'. destruct (decide (d' = d)) as [->|Hne].
    + rewrite E1 in H3. injection H3 as <- <- <-. by exists mac, ip.
    + exists mac', ip4. by rewrite ED.
  - intros d' p mac' ip4 Hd'. destruct (decide (d' = d)) as [->|Hne]; [|rewrite ED by done; by apply Hi].
    rewrite E4. intros [= <- <- <-] _. by exists a, m.
Qed.
(** A connection goes, and its peer and member with it. *)
Lemma ties_leave ds ds' as_ as' D D' L L' A A' M M' d a up mac ip : ties ds as_ D L A M -> d ∈ ds ->
  D d = Some (Some a, mac, ip) -> L a = Some (up, Some d) ->
  (forall d', d' ∈ ds' <-> d' ∈ ds /\ d' <> d) -> (forall b, b ∈ as' <-> b ∈ as_ /\ b <> a) ->
  (forall d', d' ∈ ds' -> D' d' = D d') -> (forall b, b ∈ as' -> L' b = L b /\ A' b = A b) ->
  (forall n, Some n <> up -> M' n = M n) -> (forall n, up = Some n -> exists ip o, M' n = Some (ip, false, o)) ->
  ties ds' as' D' L' A' M'.
Proof.
  intros [Hp Hd Hu Hz Hm Hi] Hdd E1 E2 Hds Has ED EA EM EM'.
  assert (Hother : forall d' b mac' ip', d' ∈ ds -> d' <> d -> D d' = Some (Some b, mac', ip') -> b <> a).
  { intros d' b mac' ip' Hd' Hne H1 ->. destruct (Hp d' a mac' ip' Hd' H1) as (_ & up' & ip2 & H2 & _). rewrite E2 in H2.
    injection H2 as _ ->. done. }
  assert (Hone : forall b n dn o ip, b ∈ as_ -> b <> a -> L b = Some (Some n, dn) -> M n = Some (ip, true, o) -> Some n <> up).
  { intros b n dn o ip' Hb Hne H1 H2 <-. destruct (Hp d a mac ip Hdd E1) as (Ha & _).
    destruct (Hu a n _ Ha E2) as (? & ? & H3 & _), (Hu b n _ Hb H1) as (? & ? & H4 & _). rewrite H3 in H4. by injection H4 as _ ?%Nat2Z.inj. }
  constructor.
  - intros d' b mac' ip' Hd'. rewrite ED by done. apply Hds in Hd' as [Hd' Hne]. intros H1.
    destruct (Hp d' b mac' ip' Hd' H1) as (Hb & H2). assert (b ∈ as') by (apply Has; split; [done|by eapply Hother]).
    split; [done|]. by destruct (EA b) as [-> ->].
  - intros b Hb. destruct (EA b Hb) as [-> _]. apply Has in Hb as [Hb Hne]. destruct (Hd b Hb) as (up' & d' & mac' & ip' & H1 & H2 & H3).
    exists up', d', mac', ip'. split; [done|]. assert (d' ∈ ds') by (apply Hds; split; [done|]; intros ->; rewrite E1 in H3; by injection H3 as ->).
    by rewrite ED.
  - intros b n dn Hb. destruct (EA b Hb) as [-> ->]. apply Has in Hb as [Hb Hne]. intros H1.
    destruct (Hu b n dn Hb H1) as (mac' & ip' & H2 & H3). exists mac', ip'. rewrite EM; [done|]. by eapply Hone.
  - intros b dn mac' ip' Hb. destruct (EA b Hb) as [-> ->]. apply Has in Hb as [Hb _]. by apply Hz.
  - intros n ip' o H1. destruct (decide (up = Some n)) as [E|Hn]; [destruct (EM' n E) as (? & ? & H2); congruence|].
    rewrite EM in H1 by congruence. destruct (Hm n ip' o H1) as (b & dn & Hb & H2). exists b, dn.
    assert (b ∈ as') by (apply Has; split; [done|]; intros ->; congruence). by destruct (EA b) as [-> _].
  - intros d' p mac' ip' Hd'. rewrite ED by done. apply Hds in Hd' as [Hd' Hne]. intros H1 Hip.
    destruct (Hi d' p mac' ip' Hd' H1 Hip) as (b & n & -> & H2 & H3). destruct (Hp d' b mac' ip' Hd' H1) as (Hb & _).
    assert (b <> a) by (by eapply Hother). exists b, n. split; [done|]. destruct (EA b) as [-> _]; [by apply Has|]. split; [done|].
    rewrite EM; [done|]. by eapply Hone.
Qed.
(** A connection without a peer goes. *)
Lemma ties_gone ds ds' as_ D D' L A M d mac ip : ties ds as_ D L A M -> d ∈ ds -> D d = Some (None, mac, ip) ->
  (forall d', d' ∈ ds' <-> d' ∈ ds /\ d' <> d) -> (forall d', d' ∈ ds' -> D' d' = D d') -> ties ds' as_ D' L A M.
Proof.
  intros [Hp Hd Hu Hz Hm Hi] Hdd E1 Hds ED. constructor; [| |done|done|done|].
  - intros d' b mac' ip' Hd'. rewrite ED by done. apply Hds in Hd' as [Hd' _]. by apply Hp.
  - intros b Hb. destruct (Hd b Hb) as (up' & d' & mac' & ip' & H1 & H2 & H3). exists up', d', mac', ip'. split; [done|].
    assert (d' ∈ ds') by (apply Hds; split; [done|]; intros ->; congruence). by rewrite ED.
  - intros d' p mac' ip' Hd'. rewrite ED by done. apply Hds in Hd' as [Hd' _]. by apply Hi.
Qed.
End Ties.

(** ** Steps that leave the parts together *)

Definition acore (c : app_conn) := (frame c, start_point (s_params c)).
Definition lcore (l : link) : option nat * option nat := (uplink l, downlink l).
Definition dcore (x : dhcp_conn) :=
  (Dhcp.nexthash x, d_next x, d_prev x, peer x, d_inuse x, is_reserved x, d_hismac x).

(** Only sessions and settings differ, and what [dhcp.c] knows of addresses. *)
Record kept (w w' : world) : Prop := {
  k_app : app w' = set_heap (heap (app w')) (app w);
  k_heap : acore <$> heap (app w') = acore <$> heap (app w);
  k_links : lcore <$> links w' = lcore <$> links w;
  k_dhcp : dhcp w' = set_dconns (set_cells (cells (d_conns (dhcp w'))) (d_conns (dhcp w))) (dhcp w);
  k_cells : dcore <$> cells (d_conns (dhcp w')) = dcore <$> cells (d_conns (dhcp w));
  k_pool : pool w' = pool w;
}.
(** Only sessions and settings differ. *)
Record same (w w' : world) : Prop := {
  sm_kept : kept w w';
  sm_ip : d_hisip <$> cells (d_conns (dhcp w')) = d_hisip <$> cells (d_conns (dhcp w));
  sm_time : lasttime <$> cells (d_conns (dhcp w')) = lasttime <$> cells (d_conns (dhcp w));
}.
Arguments k_app {_ _} _.
Arguments k_heap {_ _} _.
Arguments k_links {_ _} _.
Arguments k_dhcp {_ _} _.
Arguments k_cells {_ _} _.
Arguments k_pool {_ _} _.
Arguments sm_kept {_ _} _.
Arguments sm_ip {_ _} _.
Arguments sm_time {_ _} _.
#[export] Instance kept_preorder : PreOrder kept.
Proof.
  split.
  - intros w. constructor; try done; [by destruct (app w) as [[]]|by destruct (dhcp w) as [[]]].
  - intros w1 w2 w3 [A1 A2 A3 A4 A5 A6] [B1 B2 B3 B4 B5 B6]. constructor; try congruence.
    + rewrite B1, A1. done.
    + rewrite B4, A4. done.
Qed.
#[export] Instance same_preorder : PreOrder same.
Proof.
  split; [by intros w; split|]. intros w1 w2 w3 [A1 A2 A3] [B1 B2 B3]. split; [by transitivity w2|congruence..].
Qed.

Lemma lookup_field {C B} (g : C -> B) (l l' : list C) i : g <$> l' = g <$> l -> g <$> l' !! i = g <$> l !! i.
Proof. intros E. rewrite <- !list_lookup_fmap. by rewrite E. Qed.
Lemma alter_field {C B} (g : C -> B) f (l : list C) i c : l !! i = Some c -> g (f c) = g c -> g <$> alter f i l = g <$> l.
Proof.
  intros Hc Hg. apply list_eq. intros j. rewrite !list_lookup_fmap. destruct (decide (i = j)) as [<-|].
  - rewrite list_lookup_alter_eq, Hc. cbn. by rewrite Hg.
  - by rewrite list_lookup_alter_ne.
Qed.

Lemma with_app_ok w a f c : heap (app w) !! a = Some c -> with_app w a f = Done (set_app (set_heap (alter f a (heap (app w))) (app w)) w).
Proof. intros Hc. unfold with_app. by rewrite modify_heap by (by eapply lookup_lt_Some). Qed.
Lemma with_link_ok w a f l : links w !! a = Some l -> with_link w a f = Done (set_links (alter f a (links w)) w).
Proof. intros Hl. unfold with_link, linkof. rewrite Hl. obind. by rewrite (alter_insert f a (links w) l). Qed.
Lemma with_dcell_ok w d f x : cells (d_conns (dhcp w)) !! d = Some x ->
  with_dcell w d f = Done (set_dhcp (set_dconns (set_cells (alter f d (cells (d_conns (dhcp w)))) (d_conns (dhcp w))) (dhcp w)) w).
Proof. intros Hx. unfold with_dcell. by rewrite update_ok by (by eapply lookup_lt_Some). Qed.
Lemma heap_deref w a c : heap (app w) !! a = Some c -> deref (app w) a = Done c.
Proof. apply cell_ok. Qed.
Lemma linkof_ok w a l : links w !! a = Some l -> linkof w a = Done l.
Proof. unfold linkof. by intros ->. Qed.
Lemma dcell_ok w d x : cells (d_conns (dhcp w)) !! d = Some x -> dcell w d = Done x.
Proof. apply cell_ok. Qed.

Lemma with_app_same w a f c : heap (app w) !! a = Some c -> acore (f c) = acore c -> exists w', with_app w a f = Done w' /\ same w w'.
Proof.
  intros Hc Hf. rewrite (with_app_ok _ _ _ c Hc). eexists. split; [done|]. split; [|done..]. constructor; try done; cbn.
  - by eapply alter_field.
  - by destruct (dhcp w) as [[]].
Qed.
Lemma with_link_same w a f l : links w !! a = Some l -> lcore (f l) = lcore l -> exists w', with_link w a f = Done w' /\ same w w'.
Proof.
  intros Hl Hf. rewrite (with_link_ok _ _ _ l Hl). eexists. split; [done|]. split; [|done..]. constructor; try done; cbn.
  - by destruct (app w) as [[]].
  - by eapply alter_field.
  - by destruct (dhcp w) as [[]].
Qed.
Lemma with_dcell_kept w d f x : cells (d_conns (dhcp w)) !! d = Some x -> dcore (f x) = dcore x ->
  exists w', with_dcell w d f = Done w' /\ kept w w'.
Proof.
  intros Hx Hf. rewrite (with_dcell_ok _ _ _ x Hx). eexists. split; [done|]. constructor; try done; cbn.
  - by destruct (app w) as [[]].
  - by eapply alter_field.
Qed.
Lemma with_dcell_same w d f x : cells (d_conns (dhcp w)) !! d = Some x -> dcore (f x) = dcore x -> d_hisip (f x) = d_hisip x ->
  lasttime (f x) = lasttime x -> exists w', with_dcell w d f = Done w' /\ same w w'.
Proof.
  intros Hx Hf Hi Ht. destruct (with_dcell_kept w d f x Hx Hf) as (w' & Hw & Hk). exists w'. split; [done|].
  rewrite (with_dcell_ok _ _ _ x Hx) in Hw. injection Hw as <-. split; [done|by eapply alter_field..].
Qed.

(** Cells seen through such a step. *)
Lemma not_singleton (i j : nat) : i <> j -> i ∉ [j].
Proof. by intros ? ?%list_elem_of_singleton. Qed.
Lemma kept_app w w' a c : kept w w' -> heap (app w) !! a = Some c -> exists c', heap (app w') !! a = Some c' /\ acore c' = acore c.
Proof.
  intros Hk Hc. pose proof (lookup_field _ _ _ a (k_heap Hk)) as E. rewrite Hc in E. destruct (heap (app w') !! a) as [c'|]; [|done].
  exists c'. split; [done|]. by apply (inj Some) in E.
Qed.
Lemma kept_link w w' a l : kept w w' -> links w !! a = Some l -> exists l', links w' !! a = Some l' /\ lcore l' = lcore l.
Proof.
  intros Hk Hl. pose proof (lookup_field _ _ _ a (k_links Hk)) as E. rewrite Hl in E. destruct (links w' !! a) as [l'|]; [|done].
  exists l'. split; [done|]. by apply (inj Some) in E.
Qed.
Lemma kept_dcell w w' d x : kept w w' -> cells (d_conns (dhcp w)) !! d = Some x ->
  exists x', cells (d_conns (dhcp w')) !! d = Some x' /\ dcore x' = dcore x.
Proof.
  intros Hk Hx. pose proof (lookup_field _ _ _ d (k_cells Hk)) as E. rewrite Hx in E.
  destruct (cells (d_conns (dhcp w')) !! d) as [x'|]; [|done]. exists x'. split; [done|]. by apply (inj Some) in E.
Qed.
Lemma kept_seen_l w w' a : kept w w' -> seen_l w' a = seen_l w a.
Proof. intros Hk. exact (lookup_field lcore _ _ a (k_links Hk)). Qed.
Lemma kept_seen_a w w' a : kept w w' -> seen_a w' a = seen_a w a.
Proof.
  intros Hk. pose proof (lookup_field _ _ _ a (k_heap Hk)) as E. unfold seen_a.
  destruct (heap (app w') !! a) as [c'|], (heap (app w) !! a) as [c|]; try done. apply (inj Some) in E. cbn.
  unfold acore, frame in E. congruence.
Qed.
Lemma kept_seen_m w w' m : kept w w' -> seen_m w' m = seen_m w m.
Proof. intros Hk. unfold seen_m. by rewrite (k_pool Hk). Qed.
(** What identifies a client in a connection of [dhcp.c], and what it has. *)
Definition dperson (x : dhcp_conn) : bool * Z * bytes * Z := (is_reserved x, lasttime x, d_hismac x, d_hisip x).
Definition dlease (x : dhcp_conn) : option nat * (bool * Z * bytes * Z) := (peer x, dperson x).
Lemma same_lease w w' d : same w w' -> dlease <$> cells (d_conns (dhcp w')) !! d = dlease <$> cells (d_conns (dhcp w)) !! d.
Proof.
  intros [Hk Hi Ht]. pose proof (lookup_field _ _ _ d (k_cells Hk)) as E. pose proof (lookup_field _ _ _ d Hi) as E2.
  pose proof (lookup_field _ _ _ d Ht) as E3.
  destruct (cells (d_conns (dhcp w')) !! d) as [x'|], (cells (d_conns (dhcp w)) !! d) as [x|]; try done.
  apply (inj Some) in E, E2, E3. cbn. unfold dlease, dperson. unfold dcore in E. congruence.
Qed.
Lemma same_seen_d w w' d : same w w' -> seen_d w' d = seen_d w d.
Proof.
  intros [Hk Hi _]. pose proof (lookup_field _ _ _ d (k_cells Hk)) as E. pose proof (lookup_field _ _ _ d Hi) as E2. unfold seen_d.
  destruct (cells (d_conns (dhcp w')) !! d) as [x'|], (cells (d_conns (dhcp w)) !! d) as [x|]; try done.
  apply (inj Some) in E, E2. cbn. unfold dcore in E. congruence.
Qed.

(** *** The invariant *)

Section Good.
Context (e : endian).

(** The parts are well formed and belong together: [ds] and [as_] are the connections in
    use of [dhcp.c] and of [chilli.c]. *)
Record good (w : world) (ds as_ : list nat) : Prop := {
  g_table : exists df cs, table (dhcp w) ds df cs;
  g_rep : exists free, rep (app w) as_ free;
  g_len : length (links w) = length (heap (app w));
  g_pool : exists p, @IpPool.Abs (Sfhash.sf_hash e) (pool w) p;
  g_ties : ties ds as_ (seen_d w) (seen_l w) (seen_a w) (seen_m w);
  g_start : forall a c, heap (app w) !! a = Some c -> start_point (s_params c) = 0;
}.
Arguments g_table {_ _ _} _.
Arguments g_rep {_ _ _} _.
Arguments g_len {_ _ _} _.
Arguments g_pool {_ _ _} _.
Arguments g_ties {_ _ _} _.
Arguments g_start {_ _ _} _.

(** The lists of connections only depend on links, numbers and marks. *)
Definition marks (c : app_conn) : option nat * option nat * Z * bool := (next c, prev c, unit_ c, inuse c).
Lemma rep_marks v v' used free : rep v used free -> v' = set_heap (heap v') v -> marks <$> heap v' = marks <$> heap v -> rep v' used free.
Proof.
  intros [Hh Hun Hcnt] Hv Hm. assert (Hlen : length (heap v') = length (heap v)) by (pose proof (f_equal length Hm) as F; by rewrite !length_fmap in F).
  rewrite Hv. constructor.
  - eapply held_same; [exact Hh|done|done|exact Hlen|]. intros j. pose proof (lookup_field _ _ _ j Hm) as E. unfold nx, pv.
    change (cells (conns (set_heap (heap v') v))) with (heap v'). fold (heap v).
    destruct (heap v' !! j), (heap v !! j); try done. apply (inj Some) in E. unfold marks in E. cbn. split; congruence.
  - intros j c' Hc. pose proof (lookup_field _ _ _ j Hm) as E. change (heap v' !! j = Some c') in Hc. rewrite Hc in E.
    destruct (heap v !! j) as [c|] eqn:Hc0; [|done]. apply (inj Some) in E. unfold marks in E. destruct (Hun j c Hc0). split; congruence.
  - change (connections v = Z.of_nat (length (heap v'))). by rewrite Hlen.
Qed.

(** The table only depends on links, addresses of interfaces and the mark. *)
Definition tcore (x : dhcp_conn) := (Dhcp.nexthash x, d_next x, d_prev x, d_inuse x, d_hismac x).
Lemma table_fields t h ds df cs : (forall i, tcore <$> h !! i = tcore <$> cells (d_conns t) !! i) -> length h = length (cells (d_conns t)) ->
  table t ds df cs -> table (set_dconns (set_cells h (d_conns t)) t) ds df cs.
Proof.
  intros E Hlen [Hh Hc Hu Hm].
  assert (Hback : forall i x, h !! i = Some x -> exists y, cells (d_conns t) !! i = Some y /\ tcore x = tcore y).
  { intros i x Hx. specialize (E i). rewrite Hx in E. destruct (cells (d_conns t) !! i) as [y|]; [|done]. exists y. split; [done|].
    by apply (inj Some) in E. }
  constructor.
  - eapply held_same; [exact Hh|done|done|done|]. intros j. specialize (E j). unfold nx, pv. cbn.
    destruct (h !! j), (cells (d_conns t) !! j); try done. apply (inj Some) in E. unfold tcore in E. cbn. split; congruence.
  - apply (hashed_ext t); try done. intros i _. specialize (E i). cbn.
    destruct (h !! i), (cells (d_conns t) !! i); try done. apply (inj Some) in E. unfold tcore in E. cbn. split; congruence.
  - intros i x Hi Hx. destruct (Hback i x Hx) as (y & Hy & Ey). rewrite <- (Hu i y Hi Hy). unfold tcore in Ey. congruence.
  - intros i j x y Hi Hj Hx Hy Exy. destruct (Hback i x Hx) as (x' & Hx' & Ex), (Hback j y Hy) as (y' & Hy' & Ey).
    apply (Hm i j x' y'); try done. unfold tcore in Ex, Ey. congruence.
Qed.
Lemma kept_table w w' ds df cs : kept w w' -> table (dhcp w) ds df cs -> table (dhcp w') ds df cs.
Proof.
  intros Hk Ht. rewrite (k_dhcp Hk). apply table_fields; [|pose proof (f_equal length (k_cells Hk)) as F; by rewrite !length_fmap in F|done].
  intros i. pose proof (lookup_field _ _ _ i (k_cells Hk)) as E.
  destruct (cells (d_conns (dhcp w')) !! i), (cells (d_conns (dhcp w)) !! i); try done. apply (inj Some) in E. unfold dcore in E. cbn. unfold tcore. congruence.
Qed.
(** All of the invariant but what concerns the addresses [dhcp.c] knows. *)
Lemma good_kept w w' ds as_ : kept w w' -> good w ds as_ -> ties ds as_ (seen_d w') (seen_l w) (seen_a w) (seen_m w) -> good w' ds as_.
Proof.
  intros Hk [(df & cs & Ht) (free & Hr) Hl Hp _ Hs] Hties.
  assert (Hlen : length (heap (app w')) = length (heap (app w))) by (pose proof (f_equal length (k_heap Hk)) as F; by rewrite !length_fmap in F).
  constructor.
  - exists df, cs. by eapply kept_table.
  - exists free. eapply rep_frame; [exact Hr|apply Hk|done|]. intros j. pose proof (lookup_field _ _ _ j (k_heap Hk)) as E.
    destruct (heap (app w') !! j), (heap (app w) !! j); try done. apply (inj Some) in E. unfold acore in E. cbn. congruence.
  - rewrite Hlen, <- Hl. pose proof (f_equal length (k_links Hk)) as F. by rewrite !length_fmap in F.
  - by rewrite (k_pool Hk).
  - eapply ties_ext; [exact Hties|done| |]; intros; [split|]; [by apply kept_seen_l|by apply kept_seen_a|by apply kept_seen_m].
  - intros a c Hc. pose proof (lookup_field _ _ _ a (k_heap Hk)) as E. rewrite Hc in E.
    destruct (heap (app w) !! a) as [c0|] eqn:Hc0; [|done]. apply (inj Some) in E. rewrite <- (Hs a c0 Hc0). unfold acore in E. congruence.
Qed.
Lemma good_same w w' ds as_ : same w w' -> good w ds as_ -> good w' ds as_.
Proof.
  intros Hs Hg. eapply good_kept; [apply Hs|done|]. eapply ties_ext; [apply Hg|by intros; apply same_seen_d|done|done].
Qed.

(** The cells of a client. *)
Record client (w : world) (ds as_ : list nat) (d a : nat) (x : dhcp_conn) (c : app_conn) (l : link) : Prop := {
  c_d : d ∈ ds; c_a : a ∈ as_;
  c_dcell : cells (d_conns (dhcp w)) !! d = Some x;
  c_app : heap (app w) !! a = Some c;
  c_link : links w !! a = Some l;
  c_peer : peer x = Some a;
  c_down : downlink l = Some d;
  c_mac : hismac c = d_hismac x;
}.
Arguments c_d {_ _ _ _ _ _ _ _} _.
Arguments c_a {_ _ _ _ _ _ _ _} _.
Arguments c_dcell {_ _ _ _ _ _ _ _} _.
Arguments c_app {_ _ _ _ _ _ _ _} _.
Arguments c_link {_ _ _ _ _ _ _ _} _.
Arguments c_peer {_ _ _ _ _ _ _ _} _.
Arguments c_down {_ _ _ _ _ _ _ _} _.
Arguments c_mac {_ _ _ _ _ _ _ _} _.
Lemma good_client w ds as_ d a x : good w ds as_ -> d ∈ ds -> cells (d_conns (dhcp w)) !! d = Some x -> peer x = Some a ->
  exists c l, client w ds as_ d a x c l.
Proof.
  intros Hg Hd Hx Hp. destruct (t_peer (g_ties Hg) d a (d_hismac x) (d_hisip x) Hd) as (Ha & up & ip & H1 & H2).
  { unfold seen_d. rewrite Hx. cbn. by rewrite Hp. }
  unfold seen_l in H1. unfold seen_a in H2. destruct (links w !! a) as [l|] eqn:Hl, (heap (app w) !! a) as [c|] eqn:Hc; try done.
  injection H1 as _ H1. injection H2 as H2 _. by exists c, l.
Qed.
(** A step keeps the client, up to what it may change. *)
Lemma client_kept w w' ds as_ d a x c l : kept w w' -> client w ds as_ d a x c l ->
  exists x' c' l', client w' ds as_ d a x' c' l' /\ dcore x' = dcore x /\ acore c' = acore c /\ lcore l' = lcore l.
Proof.
  intros Hk [Hd Ha Hx Hc Hl Hp Hdn Hm]. destruct (kept_dcell _ _ _ _ Hk Hx) as (x' & Hx' & Ex),
    (kept_app _ _ _ _ Hk Hc) as (c' & Hc' & Ec), (kept_link _ _ _ _ Hk Hl) as (l' & Hl' & El).
  exists x', c', l'. split; [|done]. unfold dcore in Ex. unfold acore, frame in Ec. unfold lcore in El. constructor; congruence.
Qed.
Lemma client_address w ds as_ d a x c l m : good w ds as_ -> client w ds as_ d a x c l -> uplink l = Some m ->
  exists y, IpPool.member (pool w) !! m = Some y /\ IpPool.in_use y = true /\ IpPool.peer y = Some (Z.of_nat a) /\ hisip c = IpPool.addr y.
Proof.
  intros Hg Hc Hu. destruct (t_up (g_ties Hg) a m (Some d)) as (mac & ip & H1 & H2); [apply Hc| |].
  { unfold seen_l. rewrite (c_link Hc). cbn. by rewrite Hu, (c_down Hc). }
  unfold seen_m in H1. unfold seen_a in H2. rewrite (c_app Hc) in H2. injection H2 as _ H2.
  destruct (IpPool.member (pool w) !! m) as [y|]; [|done]. exists y. split; [done|]. apply (inj Some) in H1. unfold IpPool.tenant in H1.
  injection H1 as -> -> ->. done.
Qed.

(** The address of a connection: that of its member of the pool. *)
Definition via (w : world) (d : nat) : option Z :=
  x ← cells (d_conns (dhcp w)) !! d; a ← peer x; l ← links w !! a; m ← uplink l; IpPool.addr <$> IpPool.member (pool w) !! m.
Lemma via_client w ds as_ d a x c l : good w ds as_ -> client w ds as_ d a x c l ->
  via w d = match uplink l with Some _ => Some (hisip c) | None => None end.
Proof.
  intros Hg Hc. unfold via. rewrite (c_dcell Hc). cbn. rewrite (c_peer Hc). cbn. rewrite (c_link Hc). cbn.
  destruct (uplink l) as [m|] eqn:Hu; [|done]. destruct (client_address _ _ _ _ _ _ _ _ _ Hg Hc Hu) as (y & Hy & _ & _ & ->). cbn. by rewrite Hy.
Qed.
Lemma via_same w w' ds as_ ds' as' j : good w ds as_ -> good w' ds' as' -> j ∈ ds -> j ∈ ds' ->
  dlease <$> cells (d_conns (dhcp w')) !! j = dlease <$> cells (d_conns (dhcp w)) !! j ->
  (forall b, b ∈ as_ -> b ∈ as' -> seen_l w' b = seen_l w b /\ seen_a w' b = seen_a w b) -> via w' j = via w j.
Proof.
  intros Hg Hg' Hj Hj' E Hla. destruct (cells (d_conns (dhcp w)) !! j) as [x|] eqn:Hx, (cells (d_conns (dhcp w')) !! j) as [x'|] eqn:Hx'; try done.
  2: { unfold via. by rewrite Hx, Hx'. }
  apply (inj Some) in E. assert (Ep : peer x' = peer x) by (unfold dlease in E; congruence). destruct (peer x) as [a|] eqn:Hp.
  - destruct (good_client w ds as_ j a x Hg Hj Hx Hp) as (c & l & Hc), (good_client w' ds' as' j a x' Hg' Hj' Hx' Ep) as (c' & l' & Hc').
    rewrite (via_client _ _ _ _ _ _ _ _ Hg Hc), (via_client _ _ _ _ _ _ _ _ Hg' Hc').
    destruct (Hla a (c_a Hc) (c_a Hc')) as [El Ea]. unfold seen_l in El. unfold seen_a in Ea.
    rewrite (c_link Hc), (c_link Hc') in El. rewrite (c_app Hc), (c_app Hc') in Ea. injection El as -> _. by injection Ea as _ ->.
  - unfold via. rewrite Hx, Hx'. cbn. by rewrite Hp, Ep.
Qed.
End Good.
Arguments g_table {_ _ _ _} _.
Arguments g_rep {_ _ _ _} _.
Arguments g_len {_ _ _ _} _.
Arguments g_pool {_ _ _ _} _.
Arguments g_ties {_ _ _ _} _.
Arguments g_start {_ _ _ _} _.
Arguments c_d {_ _ _ _ _ _ _ _} _.
Arguments c_a {_ _ _ _ _ _ _ _} _.
Arguments c_dcell {_ _ _ _ _ _ _ _} _.
Arguments c_app {_ _ _ _ _ _ _ _} _.
Arguments c_link {_ _ _ _ _ _ _ _} _.
Arguments c_peer {_ _ _ _ _ _ _ _} _.
Arguments c_down {_ _ _ _ _ _ _ _} _.
Arguments c_mac {_ _ _ _ _ _ _ _} _.

(** ** Every operation keeps the parts together *)

Section Keep.
Context (o : options) (popen : bytes -> option (option bytes)) (e : endian)
  (inet_aton : bytes -> option Z) (nas_hwaddr : bytes) (sysinfo : option (Z * bytes * bytes)) (cfg : dhcp_options).
Context (mainclock mainclock_rt : Z).
Abbreviation good := (good e).
Abbreviation terminate_appconn := (terminate_appconn o popen e inet_aton nas_hwaddr sysinfo).
Abbreviation dnprot_accept := (dnprot_accept o popen e inet_aton nas_hwaddr sysinfo).
Abbreviation accept := (accept o popen e inet_aton nas_hwaddr sysinfo cfg mainclock).
(** Clients only get addresses of the network, and the scripts that know of earlier usage
    can be asked. *)
Hypothesis Huam : uamanyip cfg = false.
Hypothesis Hstats : forall c, start_point (s_params c) = 0 -> statistics_ok o popen c.

Lemma on_session_same {A} w a (f : app_conn -> result (app_conn * A)) c l d x c1 r :
  heap (app w) !! a = Some c -> links w !! a = Some l -> downlink l = Some d -> cells (d_conns (dhcp w)) !! d = Some x ->
  f (set_dnlink (Some (authstate x)) c) = Done (c1, r) -> acore c1 = acore c ->
  exists w', on_session w a f = Done (w', r) /\ same w w'.
Proof.
  intros Hc Hl Hd Hx Hf Hcore. unfold on_session. rewrite (heap_deref _ _ _ Hc), (linkof_ok _ _ _ Hl). obind. rewrite Hd, (dcell_ok _ _ _ Hx).
  obind. rewrite Hf. obind. destruct (with_app_same w a (fun _ => set_dnlink None c1) c Hc Hcore) as (w1 & -> & Hs). obind.
  destruct (dnlink c1) as [s|]; [|by exists w1]. destruct (kept_dcell _ _ _ _ (sm_kept Hs) Hx) as (x1 & Hx1 & _).
  destruct (with_dcell_same w1 d (set_auth s) x1 Hx1) as (w2 & -> & Hs2); [done..|]. obind. exists w2. split; [done|by transitivity w1].
Qed.

Lemma add_usage_frame c c' : add_usage o popen c = Done c' -> acore c' = acore c.
Proof.
  unfold add_usage. destruct (earlier_usage o popen c) as [[[[dl ul] tm]|]| |]; [|by intros [= <-]|done..]. obind.
  destruct (negb (maxinputoctets (s_params c) =? 0)), (negb (maxoutputoctets _ =? 0)), (negb (sessiontimeout _ =? 0));
    try (by intros [= <-]); (destruct tm; [obind; by intros [= <-]|done]).
Qed.
Lemma login_ok c : start_point (s_params c) = 0 -> exists c' es,
  dnprot_accept mainclock c = Done (c', es) /\ acore c' = acore c /\ (hisip c = 0 -> es = []).
Proof.
  intros Hsp. assert (Hsame : exists c' es, @Done unit (app_conn * list event) (c, []) = Done (c', es) /\ acore c' = acore c /\ (hisip c = 0 -> es = [])) by (by exists c, []).
  unfold Session.dnprot_accept. destruct (is_adminsession c); [done|]. destruct (Z.eqb_spec (hisip c) 0) as [|Hip]; [done|].
  destruct (dnlink c); [|done].
  assert (Hgo : forall c1 pre, acore c1 = acore c -> exists c' es,
    ('(c, es) ← accepted o popen e inet_aton nas_hwaddr sysinfo mainclock true c1; Done (c, pre ++ es)) = Done (c', es) /\ acore c' = acore c /\
    (hisip c = 0 -> es = [])).
  { intros c1 pre E1. unfold accepted. cbv zeta. set (c2 := if true && _ then _ else c1).
    assert (E2 : acore c2 = acore c) by (unfold c2; by destruct (true && _)). clearbody c2.
    destruct (negb _); obind; [|by eexists _, _]. unfold acct_req. change (_ || _) with true. cbv iota zeta. set (c3 := set_state (set_count _) _).
    assert (E3 : acore c3 = acore c) by done. destruct (add_usage_ok o popen c3) as (c4 & H4 & _); [apply Hstats; unfold acore in E3; congruence|].
    rewrite H4. obind. apply add_usage_frame in H4. eexists _, _. split; [done|]. split; [|done]. rewrite <- E3, <- H4. done. }
  cbv zeta. destruct (dnprot c =? DNPROT_UAM); [|destruct (dnprot c =? DNPROT_WPA); [|destruct (dnprot c =? DNPROT_MAC); [|done]]].
  - by apply (Hgo (clear_flag REQUIRE_UAM_AUTH (set_authstate DHCP_AUTH_PASS c)) [Set_addrs (hisip c)]).
  - apply (Hgo _ [Set_addrs (hisip c); Access_accept]). by destruct (has_flag c REQUIRE_UAM_AUTH).
  - by apply (Hgo (set_authstate DHCP_AUTH_PASS c) [Set_addrs (hisip c)]).
Qed.

Lemma set_addrs_good w ds as_ d a x c l m y hismask ourip ourmask dns1 dns2 :
  good w ds as_ -> client w ds as_ d a x c l -> uplink l = Some m -> IpPool.member (pool w) !! m = Some y ->
  exists w' es, dhcp_set_addrs cfg w d (IpPool.addr y) hismask ourip ourmask dns1 dns2 = Done (w', es) /\ good w' ds as_ /\ kept w w' /\
    exists x', cells (d_conns (dhcp w')) !! d = Some x' /\ d_hisip x' = IpPool.addr y.
Proof.
  intros Hg Hc Hu Hy. unfold dhcp_set_addrs. rewrite Huam. cbn [andb]. set (f := fun c : dhcp_conn => DConn _ _ _ _ _ _ _ _ _ _ _ _ _ _ _ _ _ _).
  destruct (with_dcell_kept w d f x) as (w' & Hw & Hk); [apply Hc|done|]. rewrite Hw. obind. eexists w', []. split; [done|]. split; [|split; [done|]].
  2: { rewrite (with_dcell_ok _ _ _ x (c_dcell Hc)) in Hw. injection Hw as <-. cbn. rewrite list_lookup_alter_eq, (c_dcell Hc). by eexists. }
  eapply good_kept; [done..|]. destruct (client_address _ _ _ _ _ _ _ _ _ _ Hg Hc Hu) as (y' & Hy' & H1 & H2 & H3).
  rewrite Hy in Hy'. injection Hy' as <-. rewrite (with_dcell_ok _ _ _ x (c_dcell Hc)) in Hw. injection Hw as <-.
  eapply (ties_addr _ _ (seen_d w) _ _ _ _ d a m (d_hismac x) (IpPool.addr y) (d_hisip x)); [apply Hg|apply Hc| | | | |].
  - unfold seen_d. rewrite (c_dcell Hc). cbn. by rewrite (c_peer Hc).
  - unfold seen_l. rewrite (c_link Hc). cbn. by rewrite Hu.
  - unfold seen_m. rewrite Hy. cbn. unfold IpPool.tenant. by rewrite H1.
  - unfold seen_d. cbn. rewrite list_lookup_alter_eq, (c_dcell Hc). cbn. by rewrite (c_peer Hc).
  - intros d' Hd'. unfold seen_d. cbn. by rewrite list_lookup_alter_ne.
Qed.

Lemma accept_good w ds as_ d a x c l : good w ds as_ -> client w ds as_ d a x c l ->
  exists w' es, accept w a = Done (w', es) /\ good w' ds as_ /\ kept w w'.
Proof.
  intros Hg Hc. unfold Lease.accept. set (c0 := set_dnlink (Some (authstate x)) c).
  destruct (login_ok c0) as (c1 & es & Hr & Hcore & Hes); [exact (g_start Hg a c (c_app Hc))|].
  destruct (on_session_same w a (dnprot_accept mainclock) c l d x c1 es) as (w1 & -> & Hs); [apply Hc..|done|done|]. obind.
  assert (Hg1 : good w1 ds as_) by (by eapply good_same).
  destruct (client_kept _ _ _ _ _ _ _ _ _ (sm_kept Hs) Hc) as (x1 & c2 & l1 & Hc1 & Ex & Ec & El).
  rewrite (linkof_ok _ _ _ (c_link Hc1)), (heap_deref _ _ _ (c_app Hc1)). obind.
  rewrite (c_down Hc1). destruct (existsb is_set_addrs es) eqn:Hset; [|eexists w1, _; split; [done|]; split; [done|apply Hs]].
  assert (Hip : hisip c2 = hisip c) by (unfold acore, frame in Ec; congruence).
  destruct (uplink l1) as [m|] eqn:Hup.
  - destruct (client_address _ _ _ _ _ _ _ _ _ _ Hg1 Hc1 Hup) as (y & Hy & _ & _ & Hyip). rewrite Hyip.
    destruct (set_addrs_good w1 ds as_ d a x1 c2 l1 m y (hismask l1) (ourip l1) (mask l1) (dns1 l1) (dns2 l1) Hg1 Hc1 Hup Hy)
      as (w2 & es2 & -> & Hg2 & Hk & _). obind. eexists w2, _. split; [done|]. split; [done|]. transitivity w1; [apply Hs|done].
  - exfalso. rewrite Hes in Hset; [done|]. change (hisip c = 0). rewrite <- Hip.
    apply (t_none (g_ties Hg1) a (Some d) (hismac c2)); [apply Hc1| |].
    + unfold seen_l. rewrite (c_link Hc1). cbn. by rewrite Hup, (c_down Hc1).
    + unfold seen_a. by rewrite (c_app Hc1).
Qed.

(** *** Addresses *)

Abbreviation Abs := (@IpPool.Abs (Sfhash.sf_hash e)).
Lemma newip_good p ap ip mac : Abs p ap -> exists r ip', newip e cfg p ip mac = Done (r, ip') /\
  match r with Some (m, p') => IpPool.passes p p' m false true /\ exists ap', Abs p' ap' | None => True end.
Proof.
  intros Ha. unfold newip. set (ip1 := match mac with Some _ => _ | None => _ end).
  assert (H1 : forall st, exists r, of_pool (@IpPool.ippool_newip (Sfhash.sf_hash e) (uamanyip cfg) p (Some ip1) st) = Done r /\
    match r with Some (m, p') => IpPool.passes p p' m false true /\ exists ap', Abs p' ap' | None => True end).
  { intros st. pose proof Ha as (fl & cs & Hf). pose proof (IpPool.newip_ok (H:=Sfhash.sf_hash e) (uamanyip cfg) p ap fl cs (Some ip1) st Hf) as Hn. unfold IpPool.answers in Hn.
    destruct (IpPool.spec_newip _ _ _ _ _) as [err|[[x b] ap']]; [rewrite Hn; by exists None|].
    destruct Hn as (m & p' & m' & Hn & _ & _ & _ & Ha'). rewrite Hn. exists (Some (m, p')). split; [done|].
    split; [by eapply IpPool.newip_passes|by exists ap']. }
  destruct (H1 true) as ([mp|] & -> & Hr); obind; [by eexists _, _|].
  destruct (H1 false) as (r & -> & Hr'). obind. by eexists _, _.
Qed.

Lemma take_good w ds as_ d a x c l m p ap hismask : good w ds as_ -> client w ds as_ d a x c l -> uplink l = None ->
  IpPool.passes (pool w) p m false true -> Abs p ap ->
  exists w' c' l', take_member cfg (set_pool p w) a m hismask = Done w' /\ good w' ds as_ /\ client w' ds as_ d a x c' l' /\
    uplink l' = Some m /\ dhcp w' = dhcp w /\ s_state c' = s_state c /\ dnprot c' = dnprot c.
Proof.
  intros Hg Hc Hu [(y0 & Hy0 & Hy0f) (y & Hy & Hyt) Hrest] Ha. unfold take_member. cbn [pool set_pool]. rewrite Hy. obind.
  rewrite (with_app_ok (set_pool p w) a _ c) by apply Hc. obind. rewrite (with_link_ok (set_app _ (set_pool p w)) a _ l) by apply Hc. obind.
  unfold with_member. cbn [pool set_pool set_app set_links]. rewrite Hy. obind.
  eexists _, (set_hisip (IpPool.addr y) c), (set_uplink (Some m) (set_ourip (if ourip l =? 0 then dhcplisten cfg else ourip l) (set_hismask hismask l))).
  split; [done|].
  assert (Hlt : (m < length (IpPool.member p))%nat) by (by eapply lookup_lt_Some).
  match goal with |- good ?w1 _ _ /\ _ => set (w' := w1) end.
  assert (Hheap : heap (app w') = alter (set_hisip (IpPool.addr y)) a (heap (app w))) by done.
  split; [|split; [|split; [|done]]].
  - pose proof Hg as [(df & cs & Ht) (free & Hr) Hl _ Hties Hs]. constructor.
    + by exists df, cs.
    + exists free. eapply rep_marks; [exact Hr|done|].
      rewrite Hheap. by eapply alter_field; [apply Hc|].
    + rewrite Hheap. unfold w'. cbn. by rewrite !length_alter.
    + exists ap. by apply (IpPool.abs_peer (H:=Sfhash.sf_hash e) p ap m y).
    + eapply (ties_take _ _ (seen_d w) (seen_l w) _ (seen_a w) _ (seen_m w) _ a d m (d_hismac x) (IpPool.addr y) (hismac c, hisip c)
        (IpPool.tenant y0)); [exact Hties|apply Hc| | | | | | | | | |].
      * unfold seen_l. rewrite (c_link Hc). cbn. by rewrite Hu, (c_down Hc).
      * unfold seen_a. by rewrite (c_app Hc).
      * apply Hc.
      * unfold seen_m. by rewrite Hy0.
      * done.
      * unfold seen_l, w'. cbn. rewrite list_lookup_alter_eq, (c_link Hc). cbn. by rewrite (c_down Hc).
      * unfold seen_a. rewrite Hheap, list_lookup_alter_eq, (c_app Hc). cbn. by rewrite (c_mac Hc).
      * intros b Hb. unfold seen_l, seen_a, w'. cbn. by rewrite !list_lookup_alter_ne.
      * unfold seen_m, w'. cbn. rewrite list_lookup_insert_eq by done. cbn. unfold IpPool.tenant. cbn. by rewrite Hyt.
      * intros n Hn. unfold seen_m, w'. cbn. rewrite list_lookup_insert_ne by done. by apply Hrest.
    + intros b c' Hc'. rewrite Hheap in Hc'. destruct (decide (a = b)) as [<-|]; [|rewrite list_lookup_alter_ne in Hc' by done; by apply (Hs b)].
      rewrite list_lookup_alter_eq, (c_app Hc) in Hc'. injection Hc' as <-. exact (Hs a c (c_app Hc)).
  - constructor; try apply Hc.
    + rewrite Hheap, list_lookup_alter_eq, (c_app Hc). done.
    + unfold w'. cbn. rewrite list_lookup_alter_eq, (c_link Hc). done.
  - done.
Qed.

(** *** Requests *)

(** What [dhcp.c] knows of its clients stays, but for addresses, times and states. *)
Definition steady (w w' : world) : Prop := dcore <$> cells (d_conns (dhcp w')) = dcore <$> cells (d_conns (dhcp w)).
Lemma steady_client w w' ds as_ d a x c l : steady w w' -> good w' ds as_ -> client w ds as_ d a x c l ->
  exists x' c' l', client w' ds as_ d a x' c' l' /\ dcore x' = dcore x.
Proof.
  intros Hs Hg Hc. pose proof (lookup_field _ _ _ d Hs) as E. rewrite (c_dcell Hc) in E.
  destruct (cells (d_conns (dhcp w')) !! d) as [x'|] eqn:Hx'; [|done]. apply (inj Some) in E.
  destruct (good_client e w' ds as_ d a x' Hg (c_d Hc) Hx') as (c' & l' & Hc'); [|by exists x', c', l'].
  rewrite <- (c_peer Hc). unfold dcore in E. congruence.
Qed.
Lemma step_app w ds as_ d a x c l f : good w ds as_ -> client w ds as_ d a x c l -> acore (f c) = acore c ->
  exists w', with_app w a f = Done w' /\ good w' ds as_ /\ same w w'.
Proof.
  intros Hg Hc Hf. destruct (with_app_same w a f c (c_app Hc) Hf) as (w' & Hw & Hs). exists w'. split; [done|]. split; [|done]. by eapply good_same.
Qed.
Lemma step_link w ds as_ d a x c l f : good w ds as_ -> client w ds as_ d a x c l -> lcore (f l) = lcore l ->
  exists w', with_link w a f = Done w' /\ good w' ds as_ /\ same w w'.
Proof.
  intros Hg Hc Hf. destruct (with_link_same w a f l (c_link Hc) Hf) as (w' & Hw & Hs). exists w'. split; [done|]. split; [|done]. by eapply good_same.
Qed.
Lemma auth_radius_good w ds as_ d a x c l user password : good w ds as_ -> client w ds as_ d a x c l ->
  exists w' es, auth_radius o e inet_aton nas_hwaddr cfg w a user password = Done (w', es) /\ good w' ds as_ /\ same w w'.
Proof.
  intros Hg Hc. unfold auth_radius. rewrite (linkof_ok _ _ _ (c_link Hc)). obind. rewrite (c_down Hc). obind.
  rewrite (dcell_ok _ _ _ (c_dcell Hc)). obind. set (name := match user with Some _ => _ | None => _ end).
  destruct (step_app w ds as_ d a x c l (set_username name) Hg Hc) as (w1 & -> & Hg1 & Hs); [done|]. obind.
  destruct (client_kept _ _ _ _ _ _ _ _ _ (sm_kept Hs) Hc) as (x1 & c1 & l1 & Hc1 & _). rewrite (heap_deref _ _ _ (c_app Hc1)). obind.
  destruct (step_link w1 ds as_ d a x1 c1 l1 (set_authtype PAP_PASSWORD) Hg1 Hc1) as (w2 & -> & Hg2 & Hs2); [done|]. obind.
  eexists _, _. split; [done|]. split; [done|by transitivity w1].
Qed.
Abbreviation snat := (chilli_assign_snat o popen e inet_aton nas_hwaddr sysinfo cfg mainclock mainclock_rt).
Lemma snat_ok w ds as_ d a x c l force : client w ds as_ d a x c l -> snat w a force = Done (true, w, []).
Proof.
  intros Hc. unfold chilli_assign_snat. rewrite (linkof_ok _ _ _ (c_link Hc)). obind. rewrite (heap_deref _ _ _ (c_app Hc)). obind. by rewrite Huam.
Qed.
Lemma reject_ok w ds as_ d a x c l : good w ds as_ -> client w ds as_ d a x c l ->
  exists w' es, on_session w a (fun c => Done (dnprot_reject cfg c)) = Done (w', es) /\ good w' ds as_ /\ same w w'.
Proof.
  intros Hg Hc. set (c0 := set_dnlink (Some (authstate x)) c). destruct (dnprot_reject cfg c0) as [c1 es] eqn:E.
  destruct (on_session_same w a (fun c => Done (dnprot_reject cfg c)) c l d x c1 es) as (w1 & -> & Hs); [apply Hc..|by fold c0; rewrite E| |].
  - change (acore c) with (acore c0). revert E. unfold dnprot_reject. destruct (is_adminsession c0); [by intros [= <- _]|].
    destruct (dnprot c0 =? DNPROT_WPA); [by intros [= <- _]|]. destruct (dnprot c0 =? DNPROT_MAC); [|by intros [= <- _]].
    destruct (authenticated _ =? 0), (macauthdeny cfg); by intros [= <- _].
  - exists w1, es. split; [done|]. split; [by eapply good_same|done].
Qed.
Lemma same_steady w w' : same w w' -> steady w w'.
Proof. intros Hs. apply (k_cells (sm_kept Hs)). Qed.
Lemma kept_steady w w' : kept w w' -> steady w w'.
Proof. apply k_cells. Qed.
#[local] Instance steady_preorder : PreOrder steady.
Proof. unfold steady. split; [done|]. intros w1 w2 w3 H1 H2. congruence. Qed.

(** A new address, with what became of the request for a certain one. *)
Lemma get_address w ds as_ d a x c l hismask at_ hisip : good w ds as_ -> client w ds as_ d a x c l -> uplink l = None -> exists r ip,
  newip e cfg (pool w) at_ (Some (d_hismac x)) = Done (r, ip) /\
  exists w1, match hisip : option Z with None => with_link w a (set_reqip ip) | Some _ => Done w end = Done w1 /\ good w1 ds as_ /\ steady w w1 /\
  match r with
  | Some (m, p) => exists w' x' c' l', take_member cfg (set_pool p w1) a m hismask = Done w' /\ good w' ds as_ /\ steady w w' /\
      client w' ds as_ d a x' c' l' /\ uplink l' = Some m
  | None => True
  end.
Proof.
  intros Hg Hc Hu. destruct (g_pool Hg) as [ap Ha]. destruct (newip_good (pool w) ap at_ (Some (d_hismac x)) Ha) as (r & ip & -> & Hr).
  exists r, ip. split; [done|]. assert (Hw1 : exists w1, match hisip with None => with_link w a (set_reqip ip) | Some _ => Done w end = Done w1 /\
    good w1 ds as_ /\ same w w1) by (destruct hisip; [by exists w|by apply (step_link w ds as_ d a x c l)]).
  destruct Hw1 as (w1 & -> & Hg1 & Hs).
  exists w1. split; [done|]. split; [done|]. split; [by apply same_steady|]. destruct r as [[m p]|]; [|done]. destruct Hr as [Hp (ap' & Ha')].
  destruct (client_kept _ _ _ _ _ _ _ _ _ (sm_kept Hs) Hc) as (x1 & c1 & l1 & Hc1 & Ex & _ & El).
  rewrite <- (k_pool (sm_kept Hs)) in Hp.
  destruct (take_good w1 ds as_ d a x1 c1 l1 m p ap' hismask Hg1 Hc1) as (w2 & c2 & l2 & -> & Hg2 & Hc2 & Hu2 & Hd2 & _); [|done..|].
  - unfold lcore in El. congruence.
  - exists w2, x1, c2, l2. split; [done|]. split; [done|]. split; [|done]. unfold steady. rewrite Hd2. by apply same_steady.
Qed.

Abbreviation upprot_getip := (upprot_getip o popen e inet_aton nas_hwaddr sysinfo cfg mainclock mainclock_rt).
Abbreviation mac_login := (mac_login o popen e inet_aton nas_hwaddr sysinfo cfg mainclock mainclock_rt).
Abbreviation request_address := (request_address o popen e inet_aton nas_hwaddr sysinfo cfg mainclock mainclock_rt).
Abbreviation request_done := (request_done o e inet_aton nas_hwaddr cfg mainclock).
Abbreviation cb_dhcp_request := (cb_dhcp_request o popen e inet_aton nas_hwaddr sysinfo cfg mainclock mainclock_rt).

Lemma upprot_getip_good w ds as_ d a x c l hisip netmask : good w ds as_ -> client w ds as_ d a x c l ->
  exists w' es, upprot_getip w a hisip netmask = Done (w', es) /\ good w' ds as_ /\ steady w w'.
Proof.
  intros Hg Hc. assert (Hlogin : forall w1 x1 c1 l1, good w1 ds as_ -> client w1 ds as_ d a x1 c1 l1 -> steady w w1 ->
    exists w' es, ('(ok, w, es) ← snat w1 a false; if (ok : bool) then '(w, es') ← accept w a; Done (w, es ++ es') else Done (w, es)) = Done (w', es) /\
      good w' ds as_ /\ steady w w').
  { intros w1 x1 c1 l1 Hg1 Hc1 Hs. rewrite (snat_ok _ _ _ _ _ _ _ _ _ Hc1). obind.
    destruct (accept_good w1 ds as_ d a x1 c1 l1 Hg1 Hc1) as (w2 & es & -> & Hg2 & Hk). obind. eexists w2, _. split; [done|]. split; [done|].
    transitivity w1; [done|by apply kept_steady]. }
  unfold Lease.upprot_getip. rewrite (linkof_ok _ _ _ (c_link Hc)). obind. destruct (uplink l) as [m|] eqn:Hu.
  - obind. by apply (Hlogin w x c l).
  - rewrite (c_down Hc). obind. rewrite (dcell_ok _ _ _ (c_dcell Hc)). obind. set (mask' := if negb (netmask =? 0) then _ else _).
    destruct (get_address w ds as_ d a x c l mask' (default (reqip l) hisip) hisip Hg Hc Hu) as (r & ip & -> & w1 & H1 & Hg1 & Hs1 & Hr). obind. rewrite H1. obind.
    destruct r as [[m p]|].
    + destruct Hr as (w2 & x2 & c2 & l2 & -> & Hg2 & Hs2 & Hc2 & _). obind. by apply (Hlogin w2 x2 c2 l2).
    + obind. destruct (steady_client _ _ _ _ _ _ _ _ _ Hs1 Hg1 Hc) as (x1 & c1 & l1 & Hc1 & _).
      destruct (reject_ok w1 ds as_ d a x1 c1 l1 Hg1 Hc1) as (w2 & es & -> & Hg2 & Hs2). eexists w2, es. split; [done|]. split; [done|].
      transitivity w1; [done|by apply same_steady].
Qed.

Lemma mac_login_good w ds as_ d a x c l : good w ds as_ -> client w ds as_ d a x c l ->
  exists w' es domacauth allocate, mac_login w a d = Done (w', es, domacauth, allocate) /\ good w' ds as_ /\ steady w w'.
Proof.
  intros Hg Hc. unfold Lease.mac_login. rewrite (heap_deref _ _ _ (c_app Hc)). obind. rewrite (dcell_ok _ _ _ (c_dcell Hc)). obind.
  assert (Hradius : forall b, exists w' (es : list notice) (domacauth allocate : bool),
    (w ← with_app w a (set_dnprot DNPROT_MAC); '(w, es) ← auth_radius o e inet_aton nas_hwaddr cfg w a None None; Done (w, es, false, b)) =
      Done (w', es, domacauth, allocate) /\ good w' ds as_ /\ steady w w').
  { intros b. destruct (step_app w ds as_ d a x c l (set_dnprot DNPROT_MAC) Hg Hc) as (w1 & -> & Hg1 & Hs1); [done|]. obind.
    destruct (client_kept _ _ _ _ _ _ _ _ _ (sm_kept Hs1) Hc) as (x1 & c1 & l1 & Hc1 & _).
    destruct (auth_radius_good w1 ds as_ d a x1 c1 l1 None None Hg1 Hc1) as (w2 & es & -> & Hg2 & Hs2). obind. eexists w2, _, _, _. split; [done|].
    split; [done|]. transitivity w1; by apply same_steady. }
  destruct (is_reserved x); [by eexists w, _, _, _|]. destruct (_ && maccmp cfg (d_hismac x)).
  - destruct (macallowlocal cfg); [|apply Hradius].
    destruct (step_app w ds as_ d a x c l (set_dnprot DNPROT_MAC) Hg Hc) as (w1 & -> & Hg1 & Hs1); [done|]. obind.
    destruct (client_kept _ _ _ _ _ _ _ _ _ (sm_kept Hs1) Hc) as (x1 & c1 & l1 & Hc1 & _).
    destruct (step_app w1 ds as_ d a x1 c1 l1 (set_username (mac_user cfg (d_hismac x))) Hg1 Hc1) as (w2 & -> & Hg2 & Hs2); [done|]. obind.
    destruct (client_kept _ _ _ _ _ _ _ _ _ (sm_kept Hs2) Hc1) as (x2 & c2 & l2 & Hc2 & _).
    destruct (upprot_getip_good w2 ds as_ d a x2 c2 l2 None 0 Hg2 Hc2) as (w3 & es & -> & Hg3 & Hs3). obind. eexists w3, _, _, _. split; [done|].
    split; [done|]. transitivity w2; [|done]. transitivity w1; by apply same_steady.
  - destruct (_ && _); [apply Hradius|by eexists w, _, _, _].
Qed.

Lemma request_address_good w ds as_ d a x c l : good w ds as_ -> client w ds as_ d a x c l -> uplink l = None ->
  exists ok w' es, request_address w a d = Done (ok, w', es) /\ good w' ds as_ /\ steady w w' /\
    (ok = true -> exists x' c' l' m, client w' ds as_ d a x' c' l' /\ uplink l' = Some m).
Proof.
  intros Hg Hc Hu. unfold Lease.request_address. rewrite (heap_deref _ _ _ (c_app Hc)). obind. rewrite (dcell_ok _ _ _ (c_dcell Hc)). obind.
  set (r1 := if negb _ && _ then _ else Done w).
  assert (H1 : exists w1, r1 = Done w1 /\ good w1 ds as_ /\ same w w1).
  { unfold r1. destruct (_ && _); [by apply (step_link w ds as_ d a x c l)|by exists w]. }
  destruct H1 as (w1 & -> & Hg1 & Hs1). obind. destruct (client_kept _ _ _ _ _ _ _ _ _ (sm_kept Hs1) Hc) as (x1 & c1 & l1 & Hc1 & Ex & _ & El).
  assert (Hu1 : uplink l1 = None) by (unfold lcore in El; congruence). rewrite (linkof_ok _ _ _ (c_link Hc1)). obind.
  assert (Hmac : d_hismac x = d_hismac x1) by (unfold dcore in Ex; congruence). rewrite Hmac.
  destruct (get_address w1 ds as_ d a x1 c1 l1 (o_mask cfg) (reqip l1) None Hg1 Hc1 Hu1) as (r & ip & -> & w2 & H2 & Hg2 & Hs2 & Hr). obind. rewrite H2. obind.
  assert (Hst : steady w w1) by (by apply same_steady). destruct r as [[m p]|].
  - destruct Hr as (w3 & x3 & c3 & l3 & -> & Hg3 & Hs3 & Hc3 & Hu3). obind. rewrite (snat_ok _ _ _ _ _ _ _ _ _ Hc3).
    eexists true, w3, _. split; [done|]. split; [done|]. split; [by transitivity w1|]. intros _. by exists x3, c3, l3, m.
  - eexists false, w2, _. split; [done|]. split; [done|]. split; [by transitivity w1|done].
Qed.

(** After a request that went well, [dhcp.c] knows the address the client has. *)
Definition answered (w : world) (ds as_ : list nat) (d : nat) : Prop :=
  exists a x c l m y, client w ds as_ d a x c l /\ uplink l = Some m /\ IpPool.member (pool w) !! m = Some y /\
    d_hisip x = IpPool.addr y.
Lemma answered_same w w' ds as_ d : same w w' -> answered w ds as_ d -> answered w' ds as_ d.
Proof.
  intros Hs (a & x & c & l & m & y & Hc & Hu & Hy & Hip). destruct (client_kept _ _ _ _ _ _ _ _ _ (sm_kept Hs) Hc) as (x1 & c1 & l1 & Hc1 & _ & _ & El).
  exists a, x1, c1, l1, m, y. split; [done|]. split; [unfold lcore in El; congruence|]. rewrite (k_pool (sm_kept Hs)). split; [done|].
  rewrite <- Hip. pose proof (lookup_field _ _ _ d (sm_ip Hs)) as E. rewrite (c_dcell Hc1), (c_dcell Hc) in E. by injection E.
Qed.
Lemma request_done_good w ds as_ d a x c l m domacauth : good w ds as_ -> client w ds as_ d a x c l -> uplink l = Some m ->
  exists w' es, request_done w a d domacauth = Done (w', es) /\ good w' ds as_ /\ steady w w' /\ answered w' ds as_ d.
Proof.
  intros Hg Hc Hu. unfold Lease.request_done. rewrite (linkof_ok _ _ _ (c_link Hc)). obind. rewrite Hu. obind.
  destruct (client_address _ _ _ _ _ _ _ _ _ _ Hg Hc Hu) as (y & Hy & _). rewrite Hy. obind.
  destruct (set_addrs_good w ds as_ d a x c l m y (o_mask cfg) (ourip l) (mask l) (o_dns1 cfg) (o_dns2 cfg) Hg Hc Hu Hy)
    as (w1 & es1 & -> & Hg1 & Hk1 & x' & Hx' & Hip). obind.
  destruct (client_kept _ _ _ _ _ _ _ _ _ Hk1 Hc) as (x1 & c1 & l1 & Hc1 & _ & _ & El).
  assert (Han1 : answered w1 ds as_ d).
  { exists a, x1, c1, l1, m, y. split; [done|]. split; [unfold lcore in El; congruence|]. rewrite (k_pool Hk1). split; [done|].
    rewrite (c_dcell Hc1) in Hx'. by injection Hx' as ->. }
  rewrite (heap_deref _ _ _ (c_app Hc1)). obind. set (r := if authenticated _ =? 0 then _ else _).
  assert (Hr : exists w2 es2, r = Done (w2, es2) /\ good w2 ds as_ /\ same w1 w2).
  { unfold r. destruct (_ =? 0); [|by eexists w1, _].
    set (q := if domacauth then _ else _). assert (Hq : exists w2 es2, q = Done (w2, es2) /\ good w2 ds as_ /\ same w1 w2)
      by (unfold q; destruct domacauth; [by eapply auth_radius_good|by eexists w1, _]).
    destruct Hq as (w2 & es2 & -> & Hg2 & Hs2). obind. destruct (client_kept _ _ _ _ _ _ _ _ _ (sm_kept Hs2) Hc1) as (x2 & c2 & l2 & Hc2 & _).
    destruct (with_dcell_same w2 d (set_auth DHCP_AUTH_DNAT) x2 (c_dcell Hc2)) as (w3 & -> & Hs3); [done..|]. obind.
    eexists w3, _. split; [done|]. split; [by eapply good_same|by transitivity w2]. }
  destruct Hr as (w2 & es2 & -> & Hg2 & Hs2). obind. destruct (client_kept _ _ _ _ _ _ _ _ _ (sm_kept Hs2) Hc1) as (x2 & c2 & l2 & Hc2 & _).
  match goal with |- context [with_app w2 a ?g] => set (f := g) end. destruct (step_app w2 ds as_ d a x2 c2 l2 f Hg2 Hc2) as (w3 & -> & Hg3 & Hs3).
  { unfold f. cbv zeta. by destruct (dnprot c2 =? DNPROT_DHCP_NONE), (dhcpnotidle cfg). }
  obind. eexists w3, _. split; [done|]. split; [done|]. split; [|eapply answered_same; [exact Hs3|by eapply answered_same]].
  transitivity w1; [by apply kept_steady|]. transitivity w2; by apply same_steady.
Qed.

Lemma request_good w ds as_ d addr : good w ds as_ -> d ∈ ds ->
  exists ok w' es, cb_dhcp_request w d addr = Done (ok, w', es) /\ good w' ds as_ /\ steady w w' /\ (ok = true -> answered w' ds as_ d).
Proof.
  intros Hg Hd. destruct (g_table Hg) as (df & cs & Ht). destruct (table_mac_cell _ _ _ _ _ Ht Hd) as [x Hx].
  unfold Lease.cb_dhcp_request. rewrite (dcell_ok _ _ _ Hx). obind. destruct (peer x) as [a|] eqn:Hp; [|by eexists false, w, _].
  destruct (good_client e w ds as_ d a x Hg Hd Hx Hp) as (c & l & Hc). destruct (refused e cfg addr); [by eexists false, w, _|].
  destruct (step_link w ds as_ d a x c l (set_reqip (default 0 addr)) Hg Hc) as (w1 & -> & Hg1 & Hs1); [done|]. obind.
  destruct (client_kept _ _ _ _ _ _ _ _ _ (sm_kept Hs1) Hc) as (x1 & c1 & l1 & Hc1 & _). rewrite (linkof_ok _ _ _ (c_link Hc1)). obind.
  set (r := match uplink l1 with Some _ => _ | None => _ end).
  assert (Hr : exists w2 es b1 b2, r = Done (w2, es, b1, b2) /\ good w2 ds as_ /\ steady w1 w2).
  { unfold r. destruct (uplink l1); [by eexists w1, _, _, _|by eapply mac_login_good]. }
  destruct Hr as (w2 & es2 & b1 & b2 & -> & Hg2 & Hs2). obind. destruct (steady_client _ _ _ _ _ _ _ _ _ Hs2 Hg2 Hc1) as (x2 & c2 & l2 & Hc2 & _).
  rewrite (linkof_ok _ _ _ (c_link Hc2)). obind. assert (Hst : steady w w2) by (transitivity w1; [by apply same_steady|done]).
  set (q := match uplink l2 with Some _ => _ | None => _ end).
  assert (Hq : exists ok w3 es3, q = Done (ok, w3, es3) /\ good w3 ds as_ /\ steady w2 w3 /\
    (ok = true -> exists x' c' l' m, client w3 ds as_ d a x' c' l' /\ uplink l' = Some m)).
  { unfold q. destruct (uplink l2) as [m|] eqn:Hu; [eexists true, w2, _; split; [done|]; split; [done|]; split; [done|]; intros _; by exists x2, c2, l2, m|].
    destruct b2; [by eapply request_address_good|by eexists false, w2, _]. }
  destruct Hq as (ok & w3 & es3 & -> & Hg3 & Hs3 & Hok). obind. destruct ok.
  - destruct (Hok eq_refl) as (x3 & c3 & l3 & m & Hc3 & Hu3).
    destruct (request_done_good w3 ds as_ d a x3 c3 l3 m b1 Hg3 Hc3 Hu3) as (w4 & es4 & -> & Hg4 & Hs4 & Han). obind.
    eexists true, w4, _. split; [done|]. split; [done|]. split; [|done]. transitivity w3; [by transitivity w2|done].
  - eexists false, w3, _. split; [done|]. split; [done|]. split; [by transitivity w2|done].
Qed.

(** *** New connections *)

Lemma new_links v v' used free alloc mc a used' free' : rep v used free -> new_lists alloc mc used free = (Some a, used', free') ->
  rep v' used' free' -> used' = a :: used /\
    (a < length (heap v))%nat /\ length (heap v') = length (heap v) \/
  used' = a :: used /\ a = length (heap v) /\ length (heap v') = S (length (heap v)).
Proof.
  intros Hr E Hr'. pose proof (conn_rep_length _ _ _ Hr) as H1. pose proof (conn_rep_length _ _ _ Hr') as H2. unfold new_lists in E.
  destruct free as [|i free].
  - destruct (_ || _); [done|]. injection E as <- <- <-. right. split; [done|]. cbn in *. lia.
  - injection E as <- <- <-. left. split; [done|]. cbn in *. split; [|lia]. apply (held_elem _ _ _ _ i (re_held _ _ _ Hr)). right. left. by left.
Qed.
Lemma set_links_lookup (l : list link) a v : (a <= length l)%nat -> let l' := if decide (a < length l)%nat then <[a := v]> l else l ++ [v] in
  l' !! a = Some v /\ forall b, b <> a -> l' !! b = l !! b.
Proof.
  intros Ha l'. unfold l'. case_decide as H1.
  - split; [by apply list_lookup_insert_eq|]. intros b Hb. by rewrite list_lookup_insert_ne.
  - assert (a = length l) as -> by lia. split; [by apply list_lookup_middle|]. intros b Hb.
    destruct (decide (b < length l)%nat); [by apply lookup_app_l|]. rewrite !lookup_ge_None_2; [done|lia|rewrite length_app; cbn; lia].
Qed.

Lemma connect_good alloc w ds as_ d x : good w ds as_ -> d ∈ ds -> cells (d_conns (dhcp w)) !! d = Some x ->
  peer x = None -> d_hisip x = 0 -> exists w' es as', cb_dhcp_connect cfg mainclock_rt alloc w d = Done (w', es) /\ good w' ds as' /\
    dperson <$> cells (d_conns (dhcp w')) = dperson <$> cells (d_conns (dhcp w)) /\
    (forall j, j <> d -> cells (d_conns (dhcp w')) !! j = cells (d_conns (dhcp w)) !! j) /\
    (forall b, b ∈ as_ -> seen_l w' b = seen_l w b /\ seen_a w' b = seen_a w b).
Proof.
  intros Hg Hd Hx Hp Hip. unfold cb_dhcp_connect, chilli_connect. pose proof Hg as [(df & cs & Ht) (free & Hr) Hlen Hpool Hties Hstart].
  pose proof (new_conn_rep alloc (max_clients cfg) (app w) as_ free Hr) as Hn.
  destruct (new_lists alloc (max_clients cfg) as_ free) as [[r used'] free'] eqn:El. destruct Hn as (v & -> & Hr' & _ & Hv). obind.
  destruct r as [a|]; [|obind; exists (set_app v w), [], as_; subst v; by destruct w].
  destruct Hv as (Hau & Hold & Hnew). rewrite (dcell_ok _ _ _ Hx). obind.
  assert (Hcase : used' = a :: as_ /\ (a <= length (links w))%nat /\ length (heap v) = if decide (a < length (links w))%nat then length (links w) else S (length (links w))).
  { destruct (new_links _ _ _ _ _ _ _ _ _ Hr El Hr') as [(-> & H1 & H2)|(-> & H1 & H2)]; rewrite Hlen; (split; [done|]); (split; [lia|]);
      [by rewrite decide_True|by rewrite decide_False by lia]. }
  destruct Hcase as (-> & Hal & Hvlen). set (lk := Link None (Some d) 0 0 0 0 _ _ _ _ _ _).
  destruct (set_links_lookup (links w) a lk Hal) as [Hl1 Hl2]. set (ls := if decide (a < length (links w))%nat then <[a := lk]> (links w) else links w ++ [lk]) in *.
  set (w1 := set_links ls (set_app v w)). destruct (heap v !! a) as [c0|] eqn:Hc0; [|done]. apply (inj Some) in Hnew.
  set (g := fun c : app_conn => set_sessionid _ _). rewrite (with_app_ok w1 a g c0 Hc0). obind.
  set (w2 := set_app _ w1). rewrite (with_dcell_ok w2 d _ x Hx). obind. eexists _, _, (a :: as_). split; [done|].
  match goal with |- good ?w0 _ _ /\ _ => set (w3 := w0) end. assert (Hheap : heap (app w3) = alter g a (heap v)) by done.
  assert (Hdc : forall j, j <> d -> cells (d_conns (dhcp w3)) !! j = cells (d_conns (dhcp w)) !! j) by (intros j Hj; cbn; by rewrite list_lookup_alter_ne).
  assert (Hsame : forall b, b ∈ as_ -> seen_l w3 b = seen_l w b /\ seen_a w3 b = seen_a w b).
  { intros b Hb. assert (b <> a) by (by intros ->). unfold seen_l, seen_a. rewrite Hheap, list_lookup_alter_ne by done. cbn. rewrite Hl2 by done.
    split; [done|]. apply data_field; [apply Hold; [done|]|done]. apply (held_elem _ _ _ _ b (re_held _ _ _ Hr)). by left. }
  split; [|split; [|by split]].
  2: { cbn. by eapply alter_field. }
  constructor.
  - exists df, cs. apply table_fields; [|apply length_alter|done]. intros i. by apply lookup_field, alter_field with (c := x).
  - exists free'. eapply rep_marks; [exact Hr'|done|]. rewrite Hheap. by eapply alter_field.
  - rewrite Hheap, length_alter, Hvlen. cbn. unfold ls. case_decide; [apply length_insert|rewrite length_app; cbn; lia].
  - done.
  - eapply (ties_connect _ _ (seen_d w) _ (seen_l w) _ (seen_a w) _ (seen_m w) d a (d_hismac x)); [done|done|done| | | | | |].
    + unfold seen_d. by rewrite Hx; cbn; rewrite Hp, Hip.
    + unfold seen_d. cbn. rewrite list_lookup_alter_eq, Hx. cbn. by rewrite Hip.
    + intros j Hj. unfold seen_d. by rewrite Hdc.
    + unfold seen_l. cbn. by rewrite Hl1.
    + unfold seen_a. rewrite Hheap, list_lookup_alter_eq, Hc0. cbn. change (hisip c0) with (hisip (data c0)). by rewrite Hnew.
    + exact Hsame.
  - intros b c. rewrite Hheap. destruct (decide (b = a)) as [->|Hb].
    + rewrite list_lookup_alter_eq, Hc0. intros [= <-]. change (start_point (s_params (data c0)) = 0). by rewrite Hnew.
    + rewrite list_lookup_alter_ne by done. intros Hc. assert (b < length (heap (app w)))%nat.
      { apply lookup_lt_Some in Hc. rewrite Hvlen in Hc. rewrite Hlen in *. case_decide; lia. }
      pose proof (data_field (fun c => start_point (s_params c)) _ _ b (Hold b Hb H) (fun _ => eq_refl)) as F. rewrite Hc in F.
      destruct (heap (app w) !! b) as [c'|] eqn:Hc'; [|done]. rewrite <- (Hstart b c' Hc'). by injection F.
Qed.

(** The parts when only the table of [dhcp.c] is another. *)
Lemma good_table w t ds ds' as_ df cs : good w ds as_ -> table t ds' df cs ->
  ties ds' as_ (seen_d (set_dhcp t w)) (seen_l w) (seen_a w) (seen_m w) -> good (set_dhcp t w) ds' as_.
Proof. intros [_ Hr Hl Hp _ Hs] Ht Hties. constructor; [by exists df, cs|done..]. Qed.
Lemma info_lease t t' i : info <$> cells (d_conns t') !! i = info <$> cells (d_conns t) !! i ->
  dlease <$> cells (d_conns t') !! i = dlease <$> cells (d_conns t) !! i.
Proof. intros E. by apply (info_field dlease). Qed.
Lemma lease_seen w w' d : dlease <$> cells (d_conns (dhcp w')) !! d = dlease <$> cells (d_conns (dhcp w)) !! d -> seen_d w' d = seen_d w d.
Proof.
  unfold seen_d. destruct (cells (d_conns (dhcp w')) !! d), (cells (d_conns (dhcp w)) !! d); try done. intros E. apply (inj Some) in E.
  unfold dlease, dperson in E. cbn. congruence.
Qed.

Lemma newconn_good alloc w ds as_ mac : good w ds as_ -> found (dhcp w) ds mac None ->
  exists r w' es, dhcp_newconn cfg mainclock mainclock_rt alloc w mac = Done (r, w', es) /\
  match r with
  | None => good w' ds as_ /\ d_conns (dhcp w') = d_conns (dhcp w) /\ pool w' = pool w /\ links w' = links w /\
      (d_connections (dhcp w) = max_clients cfg \/ alloc.1 = false)
  | Some d => (d ∉ ds) /\ (exists as', good w' (d :: ds) as') /\
      (forall j, j ∈ ds -> dlease <$> cells (d_conns (dhcp w')) !! j = dlease <$> cells (d_conns (dhcp w)) !! j /\ via w' j = via w j) /\
      dperson <$> cells (d_conns (dhcp w')) !! d = Some (false, mainclock, mac, 0)
  end.
Proof.
  intros Hg Hf. destruct (g_table Hg) as (df & cs & Ht). unfold dhcp_newconn.
  destruct (enter_ok (max_clients cfg) alloc.1 (o_noc2c cfg) (o_mtu cfg) mainclock mac (dhcp w) ds df cs Ht Hf) as (r & t & -> & Hr). obind.
  destruct r as [d|].
  - destruct Hr as (Hd & (df' & cs' & Ht') & Hold & Hnew). set (w1 := set_dhcp t w).
    destruct (cells (d_conns t) !! d) as [x|] eqn:Hx; [|done]. apply (inj Some) in Hnew.
    assert (Hx0 : dlease x = (None, (false, mainclock, mac, 0))) by (change (dlease (info x) = (None, (false, mainclock, mac, 0))); by rewrite Hnew).
    assert (Hg1 : good w1 (d :: ds) as_).
    { eapply good_table; [done..|]. eapply (ties_enter _ _ (seen_d w) _ _ _ _ d mac); [apply Hg|done| |].
      - unfold seen_d. cbn. rewrite Hx. cbn. unfold dlease, dperson in Hx0. congruence.
      - intros j Hj. apply lease_seen, info_lease. by apply Hold. }
    destruct (connect_good alloc.2 w1 (d :: ds) as_ d x Hg1) as (w2 & es & as' & -> & Hg2 & Hp & Hj & Hla); [by left|done|unfold dlease, dperson in Hx0; congruence..|].
    obind. eexists (Some d), w2, es. split; [done|]. split; [done|]. split; [by exists as'|]. split.
    + intros j Hjd. assert (E : dlease <$> cells (d_conns (dhcp w2)) !! j = dlease <$> cells (d_conns (dhcp w)) !! j).
      { rewrite Hj by (intros ->; done). apply info_lease. by apply Hold. }
      split; [done|]. eapply (via_same e w w2 ds as_ (d :: ds) as'); try done; [by right|]. intros b Hb _. by apply (Hla b).
    + rewrite (lookup_field _ _ _ d Hp). cbn. rewrite Hx. cbn. unfold dlease in Hx0. congruence.
  - destruct Hr as (_ & Hfull & E & Ht'). obind. eexists None, _, _. split; [done|]. split; [|done]. eapply good_table; [done..|].
    eapply ties_ext; [apply Hg| |done|done]. intros d _. unfold seen_d. cbn. by rewrite E.
Qed.

(** *** Ends *)

Abbreviation session_disconnect := (session_disconnect o popen e inet_aton nas_hwaddr sysinfo cfg mainclock mainclock_rt).
Abbreviation dhcp_freeconn := (dhcp_freeconn o popen e inet_aton nas_hwaddr sysinfo cfg mainclock mainclock_rt).

Lemma terminate_frame c cause : start_point (s_params c) = 0 -> exists c' es, terminate_appconn mainclock mainclock_rt c cause = Done (c', es) /\ acore c' = acore c.
Proof.
  intros Hsp. destruct (decide (authenticated (s_state c) = 1)) as [Ha|Ha].
  - destruct (terminate_appconn_ok o popen e inet_aton nas_hwaddr sysinfo mainclock mainclock_rt c cause Ha) as (c' & es & Ht & He). exists c', es.
    split; [done|]. unfold acore. apply terminate_appconn_frame in Ht as E. by rewrite E, Hsp, (en_start _ _ _ _ _ _ He).
  - unfold Session.terminate_appconn. rewrite (proj2 (Z.eqb_neq _ 1)) by done. by exists c, [].
Qed.
(** Nothing of a reserved address is given up, otherwise the member goes back. *)
Lemma release_good w ds as_ d a x c l : good w ds as_ -> client w ds as_ d a x c l ->
  exists p, release_address e cfg w a d = Done (set_pool p w, []) /\ (exists ap, Abs p ap) /\
    if is_reserved x then p = pool w
    else (forall n, Some n <> uplink l -> IpPool.tenant <$> IpPool.member p !! n = seen_m w n) /\
         (forall n, uplink l = Some n -> exists ip o, IpPool.tenant <$> IpPool.member p !! n = Some (ip, false, o)).
Proof.
  intros Hg Hc. unfold release_address. rewrite (linkof_ok _ _ _ (c_link Hc)). obind. destruct (g_pool Hg) as [ap Ha].
  destruct (uplink l) as [m|] eqn:Hu.
  - rewrite Huam. obind. destruct (client_address _ _ _ _ _ _ _ _ _ _ Hg Hc Hu) as (y & Hy & Hin & _). rewrite Hy. obind.
    rewrite (dcell_ok _ _ _ (c_dcell Hc)). obind. rewrite Hin. cbn [andb]. destruct (is_reserved x); cbn [negb].
    + exists (pool w). split; [by destruct w|]. split; [by exists ap|done].
    + pose proof Ha as (fl & cs & Hf). destruct (IpPool.abs_give_back (H:=Sfhash.sf_hash e) (pool w) ap fl cs m y Hf Hy Hin) as (p & Hp & _ & Hap).
      rewrite Hp. obind. exists p. split; [done|]. split; [by eexists|]. apply IpPool.freeip_passes in Hp as [_ (y' & Hy' & Hy'f) Hrest].
      split; [intros n Hn; apply Hrest; congruence|]. intros n [= <-]. rewrite Hy'. exists (IpPool.addr y'), (IpPool.peer y').
      unfold IpPool.tenant. cbn. by rewrite Hy'f.
  - exists (pool w). split; [by destruct w|]. split; [by exists ap|]. by destruct (is_reserved x).
Qed.

(** The session ends, and the address goes back; then only [dhcp.c] knows of the client. *)
Lemma disconnect_good w ds as_ d a x c l cause : good w ds as_ -> client w ds as_ d a x c l ->
  exists w' es, session_disconnect w a d cause = Done (w', es) /\
  if is_reserved x then good w' ds as_ /\ same w w'
  else exists as' p v free,
    app w' = v /\ rep v as' free /\ (forall b, b ∈ as' <-> b ∈ as_ /\ b <> a) /\ length (links w') = length (heap v) /\
    pool w' = p /\ (exists ap, Abs p ap) /\ (forall b c, heap v !! b = Some c -> start_point (s_params c) = 0) /\
    (forall b, b ∈ as' -> seen_l w' b = seen_l w b /\ seen_a w' b = seen_a w b) /\
    (forall n, Some n <> uplink l -> seen_m w' n = seen_m w n) /\ (forall n, uplink l = Some n -> exists ip o, seen_m w' n = Some (ip, false, o)) /\
    (forall df cs, table (dhcp w) ds df cs -> table (dhcp w') ds df cs) /\ is_reserved <$> cells (d_conns (dhcp w')) !! d = Some false /\
    (forall j, j <> d -> dlease <$> cells (d_conns (dhcp w')) !! j = dlease <$> cells (d_conns (dhcp w)) !! j).
Proof.
  intros Hg Hc. unfold Lease.session_disconnect. set (c0 := set_dnlink (Some (authstate x)) c).
  set (body := fun c => terminate_appconn mainclock mainclock_rt c _).
  destruct (terminate_frame c0 (if negb (cause =? 0) then cause else if negb (terminate_cause (s_state c0) =? 0)
    then terminate_cause (s_state c0) else RADIUS_TERMINATE_CAUSE_LOST_CARRIER)) as (c1 & es & Ht & Hcore); [exact (g_start Hg a c (c_app Hc))|].
  destruct (on_session_same w a body c l d x c1 es) as (w1 & -> & Hs); [apply Hc..|exact Ht|exact Hcore|]. obind.
  assert (Hg1 : good w1 ds as_) by (by eapply good_same).
  destruct (client_kept _ _ _ _ _ _ _ _ _ (sm_kept Hs) Hc) as (x1 & c2 & l1 & Hc1 & Ex & _ & El).
  assert (Hres : is_reserved x1 = is_reserved x) by (unfold dcore in Ex; congruence). assert (Hul : uplink l1 = uplink l) by (unfold lcore in El; congruence).
  destruct (release_good w1 ds as_ d a x1 c2 l1 Hg1 Hc1) as (p & -> & Hap & Hp). obind.
  rewrite (dcell_ok (set_pool p w1) d x1 (c_dcell Hc1)). obind. rewrite Hres in *. destruct (is_reserved x) eqn:Er; cbn [negb].
  { subst p. eexists _, _. split; [done|]. replace (set_pool (pool w1) w1) with w1 by (by destruct w1). done. }
  destruct Hp as [Hp1 Hp2]. destruct (g_rep Hg1) as (free & Hr). pose proof (c_a Hc1) as Ha. apply list_elem_of_lookup in Ha as [k Hk].
  destruct (freeconn_rep _ _ _ _ _ Hr Hk) as (v & Hv & Hrv & _ & Hrel & Hz). cbn [app set_pool]. rewrite Hv. obind.
  assert (Hnd : NoDup as_) by apply (dl_nodup _ _ _ (re_used _ _ _ Hr)).
  assert (Has : forall b, b ∈ delete k as_ <-> b ∈ as_ /\ b <> a) by (intros b; by apply elem_of_delete_NoDup).
  rewrite (with_link_ok (set_app v (set_pool p w1)) a _ l1 (c_link Hc1)). obind. rewrite (with_dcell_ok (set_links _ (set_app v (set_pool p w1))) d _ x1 (c_dcell Hc1)). obind.
  eexists _, _. split; [done|]. match goal with |- context [app ?w0 = _] => set (w' := w0) end. exists (delete k as_), p, v, (a :: free).
  assert (Hdc : forall j, j <> d -> cells (d_conns (dhcp w')) !! j = cells (d_conns (dhcp w1)) !! j) by (intros j Hj; cbn; by rewrite list_lookup_alter_ne).
  split; [done|]. split; [done|]. split; [exact Has|]. split.
  { cbn. rewrite length_alter. destruct Hrel as [-> _]. apply Hg1. }
  split; [done|]. split; [done|]. split.
  { intros b c' Hb. destruct (decide (b = a)) as [->|Hne].
    - rewrite Hb in Hz. apply (inj Some) in Hz. change (start_point (s_params (data c')) = 0). by rewrite Hz.
    - pose proof (data_field (fun c => start_point (s_params c)) _ _ b (proj2 Hrel b (not_singleton b a Hne)) (fun _ => eq_refl)) as F.
      rewrite Hb in F. destruct (heap (app w1) !! b) as [c3|] eqn:Hc3; [|done]. rewrite <- (g_start Hg1 b c3 Hc3). by injection F. }
  split.
  { intros b [Hb Hne]%Has. rewrite <- (kept_seen_l w w1 b (sm_kept Hs)), <- (kept_seen_a w w1 b (sm_kept Hs)). unfold seen_l, seen_a. cbn.
    rewrite list_lookup_alter_ne by done. split; [done|]. apply data_field; [|done]. by apply (proj2 Hrel), not_singleton. }
  split; [intros n Hn; rewrite <- (kept_seen_m w w1 n (sm_kept Hs)); apply Hp1; congruence|].
  split; [intros n Hn; apply Hp2; congruence|]. split.
  { intros df cs Ht1. apply table_fields; [|apply length_alter|exact (kept_table w w1 _ _ _ (sm_kept Hs) Ht1)].
    intros i. by apply lookup_field, alter_field with (c := x1); [apply Hc1|]. }
  split; [cbn; rewrite list_lookup_alter_eq, (c_dcell Hc1); cbn; by rewrite Hres|].
  intros j Hj. rewrite Hdc by done. by apply same_lease.
Qed.

Lemma freeconn_good w ds as_ k d x cause : good w ds as_ -> ds !! k = Some d -> cells (d_conns (dhcp w)) !! d = Some x ->
  exists w' es, dhcp_freeconn w d cause = Done (w', es) /\
  if is_reserved x then good w' ds as_ /\ same w w'
  else (exists as', good w' (delete k ds) as') /\
    forall j, j ∈ delete k ds -> dlease <$> cells (d_conns (dhcp w')) !! j = dlease <$> cells (d_conns (dhcp w)) !! j /\ via w' j = via w j.
Proof.
  intros Hg Hk Hx. assert (Hd : d ∈ ds) by (by eapply list_elem_of_lookup_2). destruct (g_table Hg) as (df & cs & Ht).
  assert (Hnd : NoDup ds) by apply (dl_nodup _ _ _ (he_used _ _ _ _ (tb_held _ _ _ _ Ht))).
  assert (Hds : forall j, j ∈ delete k ds <-> j ∈ ds /\ j <> d) by (intros j; by apply elem_of_delete_NoDup).
  unfold Lease.dhcp_freeconn, cb_dhcp_disconnect. rewrite (dcell_ok _ _ _ Hx). obind. destruct (peer x) as [a|] eqn:Hp.
  - destruct (good_client e w ds as_ d a x Hg Hd Hx Hp) as (c & l & Hc).
    destruct (disconnect_good w ds as_ d a x c l cause Hg Hc) as (w1 & es & -> & Hend). obind. destruct (is_reserved x) eqn:Er.
    + destruct Hend as [Hg1 Hs]. destruct (kept_dcell _ _ _ _ (sm_kept Hs) Hx) as (x1 & Hx1 & Ex). rewrite (dcell_ok _ _ _ Hx1). obind.
      replace (is_reserved x1) with true by (unfold dcore in Ex; congruence). by exists w1, es.
    + destruct Hend as (as' & p & v & free & Ev & Hr & Has & Hlen & Ep & Hap & Hst & Hla & Hm1 & Hm2 & Htab & Hres & Hle).
      destruct (cells (d_conns (dhcp w1)) !! d) as [x1|] eqn:Hx1; [|done]. rewrite (dcell_ok _ _ _ Hx1). obind.
      injection Hres as ->. destruct (leave_ok (dhcp w1) ds df cs k d (Htab df cs Ht) Hk) as (t & cs' & -> & Ht' & _ & Hinfo). obind.
      eexists _, es. split; [done|]. set (w2 := set_dhcp t w1).
      assert (Hold : forall j, j ∈ delete k ds -> dlease <$> cells (d_conns (dhcp w2)) !! j = dlease <$> cells (d_conns (dhcp w)) !! j).
      { intros j Hj. rewrite <- Hle by (by apply Hds in Hj as [_ ?]). apply info_lease. by apply Hinfo. }
      assert (Hg2 : good w2 (delete k ds) as'); [|split; [by exists as'|]].
      2: { intros j Hj. split; [by apply Hold|]. apply Hds in Hj as Hj'. eapply (via_same e w w2 ds as_ (delete k ds) as'); try done; [apply Hj'|by apply Hold|].
           intros b _ Hb. by apply Hla. }
      constructor.
      * by exists (d :: df), cs'.
      * exists free. cbn. by rewrite Ev.
      * cbn. by rewrite Ev.
      * cbn. rewrite Ep. done.
      * eapply (ties_leave ds _ as_ as' (seen_d w) _ (seen_l w) _ (seen_a w) _ (seen_m w) _ d a (uplink l) (d_hismac x) (d_hisip x));
          [apply Hg|done| | |exact Hds|exact Has| |exact Hla|exact Hm1|exact Hm2].
        -- unfold seen_d. rewrite Hx. cbn. by rewrite Hp.
        -- unfold seen_l. rewrite (c_link Hc). cbn. by rewrite (c_down Hc).
        -- intros j Hj. apply lease_seen. by apply Hold.
      * cbn. rewrite Ev. exact Hst.
  - obind. rewrite (dcell_ok _ _ _ Hx). obind. destruct (is_reserved x) eqn:Er; [by exists w, []|].
    destruct (leave_ok (dhcp w) ds df cs k d Ht Hk) as (t & cs' & -> & Ht' & _ & Hinfo). obind. eexists _, []. split; [done|].
    assert (Hold : forall j, j ∈ delete k ds -> dlease <$> cells (d_conns (dhcp (set_dhcp t w))) !! j = dlease <$> cells (d_conns (dhcp w)) !! j)
      by (intros j Hj; apply info_lease; by apply Hinfo).
    assert (Hg2 : good (set_dhcp t w) (delete k ds) as_); [|split; [by exists as_|]].
    2: { intros j Hj. split; [by apply Hold|]. apply Hds in Hj as Hj'. eapply (via_same e w _ ds as_ (delete k ds) as_); try done; [apply Hj'|by apply Hold]. }
    eapply good_table; [done..|].
    eapply (ties_gone ds _ _ (seen_d w) _ _ _ _ d (d_hismac x) (d_hisip x)); [apply Hg|done| |exact Hds|].
    + unfold seen_d. rewrite Hx. cbn. by rewrite Hp.
    + intros j Hj. apply lease_seen. by apply Hold.
Qed.

(** *** Leases that run out *)

Definition expired (x : dhcp_conn) : bool :=
  negb (is_reserved x) && (s32 (lease cfg) + leaseplus cfg <? mainclock_diff mainclock (lasttime x)).
Definition stays (w : world) (d : nat) : bool := match cells (d_conns (dhcp w)) !! d with Some x => negb (expired x) | None => true end.
Abbreviation checkconn_loop := (checkconn_loop o popen e inet_aton nas_hwaddr sysinfo cfg mainclock mainclock_rt).

Lemma stays_lease w w' d : dlease <$> cells (d_conns (dhcp w')) !! d = dlease <$> cells (d_conns (dhcp w)) !! d -> stays w' d = stays w d.
Proof.
  unfold stays. destruct (cells (d_conns (dhcp w')) !! d), (cells (d_conns (dhcp w)) !! d); try done. intros E. apply (inj Some) in E.
  unfold dlease, dperson in E. unfold expired. do 2 f_equal; [congruence|]. do 2 f_equal. congruence.
Qed.
Lemma delete_after (pre l : list nat) d : delete (length pre) (pre ++ d :: l) = pre ++ l.
Proof. rewrite delete_take_drop, take_app_length. f_equal. by rewrite <- Nat.add_1_r, <- drop_drop, drop_app_length. Qed.

Lemma filter_stays (f g : nat -> bool) (l : list nat) : (forall j, j ∈ l -> f j = g j) -> filter f l = filter g l.
Proof.
  induction l as [|j l IH]; intros He; [done|]. rewrite !filter_cons, (He j) by (by left). rewrite IH; [done|]. intros k Hk. apply He. by right.
Qed.

(** The walk over the rest [l] of the connections in use. *)
Lemma checkconn_loop_ok l pre w as_ fuel : good w (pre ++ l) as_ -> (length l <= fuel)%nat ->
  exists w' es as', checkconn_loop fuel w (head l) = Done (w', es) /\ good w' (pre ++ filter (stays w) l) as' /\
    forall j, j ∈ pre ++ filter (stays w) l ->
      dlease <$> cells (d_conns (dhcp w')) !! j = dlease <$> cells (d_conns (dhcp w)) !! j /\ via w' j = via w j.
Proof.
  revert pre w as_ fuel. induction l as [|d l IH]; intros pre w as_ fuel Hg Hfuel.
  - destruct fuel; by eexists w, [], as_.
  - destruct fuel as [|fuel]; [cbn in Hfuel; lia|]. cbn [head Lease.checkconn_loop]. destruct (g_table Hg) as (df & cs & Ht).
    assert (Hd : d ∈ pre ++ d :: l) by (apply elem_of_app; right; by left). destruct (table_mac_cell _ _ _ _ _ Ht Hd) as [x Hx].
    rewrite (dcell_ok _ _ _ Hx). obind. assert (Hk : (pre ++ d :: l) !! length pre = Some d) by (by apply list_lookup_middle).
    assert (Hnext : d_next x = head l).
    { pose proof (dchain_nx _ _ _ _ _ _ _ (dl_chain _ _ _ (he_used _ _ _ _ (tb_held _ _ _ _ Ht))) Hk) as Hn. unfold nx in Hn. rewrite Hx in Hn.
      cbn in Hn. rewrite Hn, lookup_app_r by lia. replace (S (length pre) - length pre)%nat with 1%nat by lia. by destruct l. }
    rewrite Hnext. fold (expired x). assert (Hst : stays w d = negb (expired x)) by (unfold stays; by rewrite Hx).
    destruct (expired x) eqn:Ee; cbn [negb] in Hst.
    + destruct (freeconn_good w _ as_ (length pre) d x RADIUS_TERMINATE_CAUSE_LOST_CARRIER Hg Hk Hx) as (w1 & es1 & -> & H1). obind.
      assert (Hr : is_reserved x = false) by (unfold expired in Ee; by destruct (is_reserved x)). rewrite Hr, delete_after in H1.
      destruct H1 as [(as1 & Hg1) Hold]. destruct (IH pre w1 as1 fuel Hg1) as (w2 & es2 & as2 & -> & Hg2 & Hold2); [cbn in Hfuel; lia|]. obind.
      assert (Hf : filter (stays w1) l = filter (stays w) (d :: l)).
      { rewrite filter_cons_False by (rewrite Hst; by intros []). apply filter_stays. intros j Hj. eapply stays_lease, Hold, elem_of_app. by right. }
      rewrite Hf in *. eexists w2, _, as2. split; [done|]. split; [done|]. intros j Hj. destruct (Hold2 j Hj) as [-> ->]. apply Hold.
      apply elem_of_app in Hj as [Hj|Hj]; apply elem_of_app; [by left|right]. rewrite <- Hf in Hj. by apply list_elem_of_filter in Hj as [_ ?].
    + obind. destruct (IH (pre ++ [d]) w as_ fuel) as (w2 & es2 & as2 & -> & Hg2 & Hold2); [by rewrite <- app_assoc|cbn in Hfuel; lia|]. obind.
      rewrite <- app_assoc in Hg2, Hold2. rewrite filter_cons_True by (by rewrite Hst). by eexists w2, _, as2.
Qed.

(** *** The other operations *)

Definition consistent (w : world) : Prop := exists ds as_, good w ds as_.
Abbreviation dhcp_release_mac := (dhcp_release_mac o popen e inet_aton nas_hwaddr sysinfo cfg mainclock mainclock_rt).
Abbreviation dhcp_getconn := (dhcp_getconn cfg mainclock mainclock_rt).
Abbreviation dhcp_reserve_ip := (dhcp_reserve_ip o popen e inet_aton nas_hwaddr sysinfo cfg mainclock mainclock_rt).
Abbreviation dhcp_authorize_mac := (dhcp_authorize_mac o popen e inet_aton nas_hwaddr sysinfo cfg mainclock).
Abbreviation dhcp_getreq := (dhcp_getreq o popen e inet_aton nas_hwaddr sysinfo cfg mainclock mainclock_rt).
Abbreviation dhcp_timeout := (dhcp_timeout o popen e inet_aton nas_hwaddr sysinfo cfg mainclock mainclock_rt).

Lemma good_found w ds as_ mac : good w ds as_ -> exists r, dhcp_hashget (dhcp w) mac = Done r /\ found (dhcp w) ds mac r.
Proof. intros Hg. destruct (g_table Hg) as (df & cs & Ht). by eapply hashget_ok. Qed.
Lemma release_mac_good w mac cause : consistent w -> exists w' es, dhcp_release_mac w mac cause = Done (w', es) /\ consistent w'.
Proof.
  intros (ds & as_ & Hg). unfold Lease.dhcp_release_mac. destruct (good_found w ds as_ mac Hg) as (r & -> & Hf). obind.
  destruct r as [d|]; [|exists w, []; split; [done|by exists ds, as_]]. destruct Hf as (Hd & x & Hx & _). rewrite (dcell_ok _ _ _ Hx). obind.
  destruct (_ && _); [exists w, []; split; [done|by exists ds, as_]|]. apply list_elem_of_lookup in Hd as [k Hk].
  destruct (freeconn_good w ds as_ k d x cause Hg Hk Hx) as (w' & es & Hr & H1). exists w', es. split; [done|].
  destruct (is_reserved x); [destruct H1 as [? _]; by exists ds, as_|destruct H1 as [[as' ?] _]; by exists (delete k ds), as'].
Qed.
Lemma block_mac_good w mac : consistent w -> exists w', dhcp_block_mac w mac = Done w' /\ consistent w'.
Proof.
  intros (ds & as_ & Hg). unfold dhcp_block_mac. destruct (good_found w ds as_ mac Hg) as (r & -> & Hf). obind.
  destruct r as [d|]; [|exists w; split; [done|by exists ds, as_]]. destruct Hf as (Hd & x & Hx & _). rewrite (dcell_ok _ _ _ Hx). obind.
  destruct (with_dcell_same w d (set_auth DHCP_AUTH_DROP) x Hx) as (w1 & -> & Hs); [done..|]. obind.
  assert (Hg1 : good w1 ds as_) by (by eapply good_same). destruct (peer x) as [a|] eqn:Hp; [|exists w1; split; [done|by exists ds, as_]].
  destruct (good_client e w ds as_ d a x Hg Hd Hx Hp) as (c & l & Hc). destruct (client_kept _ _ _ _ _ _ _ _ _ (sm_kept Hs) Hc) as (x1 & c1 & l1 & Hc1 & _).
  destruct (step_app w1 ds as_ d a x1 c1 l1 (set_dnprot DNPROT_NULL) Hg1 Hc1) as (w2 & -> & Hg2 & _); [done|]. exists w2. split; [done|]. by exists ds, as_.
Qed.
Lemma getconn_good alloc w ds as_ mac do_alloc : good w ds as_ -> exists r w' es ds' as', dhcp_getconn alloc w mac do_alloc = Done (r, w', es) /\
  good w' ds' as' /\ match r with Some d => found (dhcp w') ds' mac (Some d) | None => True end.
Proof.
  intros Hg. unfold Lease.dhcp_getconn. destruct (good_found w ds as_ mac Hg) as (r & -> & Hf). obind.
  destruct r as [d|]; [by eexists (Some d), w, [], ds, as_|]. destruct do_alloc; [|by eexists None, w, [], ds, as_].
  destruct (newconn_good alloc w ds as_ mac Hg Hf) as ([d|] & w' & es & -> & Hr).
  - destruct Hr as (_ & (as' & Hg') & _ & Hp). eexists (Some d), w', es, (d :: ds), as'. split; [done|]. split; [done|]. split; [by left|].
    destruct (cells (d_conns (dhcp w')) !! d) as [x|]; [|done]. exists x. split; [done|]. apply (inj Some) in Hp. unfold dperson in Hp. congruence.
  - destruct Hr as (Hg' & _). by eexists None, w', es, ds, as_.
Qed.
(** Changes of a connection of [dhcp.c] that the other parts do not see. *)
Lemma with_dcell_good w ds as_ d x f : good w ds as_ -> cells (d_conns (dhcp w)) !! d = Some x -> tcore (f x) = tcore x ->
  peer (f x) = peer x -> d_hisip (f x) = d_hisip x ->
  exists w', with_dcell w d f = Done w' /\ good w' ds as_ /\ cells (d_conns (dhcp w')) !! d = Some (f x) /\
    app w' = app w /\ links w' = links w /\ pool w' = pool w /\ forall j, seen_d w' j = seen_d w j.
Proof.
  intros Hg Hx Ht Hp Hi. rewrite (with_dcell_ok _ _ _ x Hx). eexists. split; [done|].
  match goal with |- good ?w0 _ _ /\ _ => set (w' := w0) end.
  assert (Hseen : forall j, seen_d w' j = seen_d w j).
  { intros j. unfold seen_d, w'. cbn. destruct (decide (j = d)) as [->|]; [|by rewrite list_lookup_alter_ne].
    rewrite list_lookup_alter_eq, Hx. cbn. rewrite Hp, Hi. unfold tcore in Ht. do 3 f_equal. congruence. }
  split; [|split; [cbn; by rewrite list_lookup_alter_eq, Hx|done]]. pose proof Hg as [(df & cs & Htab) Hr Hl Hpool Hties Hs]. constructor; try done.
  - exists df, cs. apply table_fields; [|apply length_alter|done]. intros i. by eapply lookup_field, alter_field.
  - eapply ties_ext; [exact Hties|by intros; apply Hseen|done|done].
Qed.

Lemma reserve_good alloc w mac ip : consistent w -> exists w' es, dhcp_reserve_ip alloc w mac ip = Done (w', es) /\ consistent w'.
Proof.
  intros (ds & as_ & Hg). unfold Lease.dhcp_reserve_ip.
  destruct (getconn_good alloc w ds as_ mac true Hg) as (r & w1 & es1 & ds1 & as1 & -> & Hg1 & Hf). obind.
  destruct r as [d|]; [|exists w1, es1; split; [done|by exists ds1, as1]]. destruct Hf as (Hd & x & Hx & _).
  destruct (with_dcell_good w1 ds1 as1 d x (set_reserved true) Hg1 Hx) as (w2 & -> & Hg2 & _); [done..|]. obind.
  destruct (request_good w2 ds1 as1 d (Some ip) Hg2 Hd) as (ok & w3 & es3 & -> & Hg3 & _). obind. eexists w3, _. split; [done|]. by exists ds1, as1.
Qed.
Lemma authorize_good w mac params : consistent w -> start_point (session_param_defaults o params) = 0 ->
  exists w' es, dhcp_authorize_mac w mac params = Done (w', es) /\ consistent w'.
Proof.
  intros (ds & as_ & Hg) Hsp. unfold Lease.dhcp_authorize_mac. destruct (good_found w ds as_ mac Hg) as (r & -> & Hf). obind.
  destruct r as [d|]; [|exists w, []; split; [done|by exists ds, as_]]. destruct Hf as (Hd & x & Hx & _). rewrite (dcell_ok _ _ _ Hx). obind.
  destruct (peer x) as [a|] eqn:Hp; [|exists w, []; split; [done|by exists ds, as_]].
  destruct (good_client e w ds as_ d a x Hg Hd Hx Hp) as (c & l & Hc).
  destruct (step_app w ds as_ d a x c l (set_params (fun _ => session_param_defaults o params)) Hg Hc) as (w1 & -> & Hg1 & Hs).
  { unfold acore. f_equal. rewrite (g_start Hg a c (c_app Hc)). exact Hsp. }
  obind. destruct (client_kept _ _ _ _ _ _ _ _ _ (sm_kept Hs) Hc) as (x1 & c1 & l1 & Hc1 & _).
  destruct (accept_good w1 ds as_ d a x1 c1 l1 Hg1 Hc1) as (w2 & es & -> & Hg2 & _). exists w2, es. split; [done|]. by exists ds, as_.
Qed.

(** *** Messages *)

(** The memory behind a datagram: its DHCP packet, and four bytes more, which are read
    when an option is shorter than an address. *)
Definition in_memory (pack : bytes) (udp_len : Z) : Prop := is_bytes pack /\ u32 (udp_len - 8) + 4 <= Z.of_nat (length pack).
Lemma gettag_loop_ok fuel pack len tagtype off : is_bytes pack -> len <= Z.of_nat (length pack) -> (0 < fuel)%nat ->
  (length pack < fuel + off)%nat ->
  exists r, gettag_loop fuel pack len tagtype off = Done r /\
    forall t, r = Some t -> (off <= t)%nat /\ exists l, pack !! t = Some tagtype /\ pack !! (t + 1)%nat = Some l /\ Z.of_nat t + 2 + l <= len /\ Z.of_nat t + 2 < len.
Proof.
  intros Hb Hlen. revert off. induction fuel as [|fuel IH]; intros off H0 Hf; [lia|]. cbn [gettag_loop].
  destruct (Z.ltb_spec (Z.of_nat off + 2) len) as [Hlt|]; [|by exists None].
  destruct (lookup_lt_is_Some_2 pack off) as [t Ht]; [lia|]. destruct (lookup_lt_is_Some_2 pack (off + 1)) as [l Hl]; [lia|].
  rewrite (byte_at_ok _ _ _ Ht), (byte_at_ok _ _ _ Hl). obind. destruct (Z.eqb_spec t tagtype) as [->|].
  - destruct (Z.ltb_spec len (Z.of_nat off + 2 + l)); eexists; (split; [done|]); [done|]. intros t [= <-]. split; [lia|]. exists l. repeat split; (done || lia).
  - destruct (IH (off + 2 + Z.to_nat l)%nat) as (r & -> & Hr); [lia|lia|]. exists r. split; [done|]. intros t' E. destruct (Hr t' E) as [? ?]. split; [lia|done].
Qed.
Lemma gettag_ok pack udp_len tagtype : in_memory pack udp_len ->
  exists r, dhcp_gettag pack (u32 (udp_len - 8)) tagtype = Done r /\
    forall t, r = Some t -> (240 <= t)%nat /\ exists l, pack !! t = Some tagtype /\ pack !! (t + 1)%nat = Some l /\
      Z.of_nat t + 2 + l <= u32 (udp_len - 8) /\ Z.of_nat t + 2 < u32 (udp_len - 8).
Proof. intros [Hb Hl]. apply gettag_loop_ok; [done|lia..]. Qed.

(** The client a message is from, and the addresses it may ask for. *)
Definition sender (src pack : bytes) : bytes := let chaddr := take 6 (drop 28 pack) in if bool_decide (chaddr = replicate 6 0) then src else chaddr.
Definition asks_for (pack : bytes) (udp_len ip : Z) : Prop :=
  ip = word_val e (take 4 (drop 12 pack)) \/
  exists t, dhcp_gettag pack (u32 (udp_len - 8)) DHCP_OPTION_REQUESTED_IP = Done (Some t) /\ ip = word_val e (take 4 (drop (t + 2) pack)).
(** The address a client has: of the member of the pool that its connection has. *)
Definition address_of (w : world) (mac : bytes) : result (option Z) :=
  r ← dhcp_hashget (dhcp w) mac;
  match r with
  | None => Done None
  | Some d =>
    x ← dcell w d;
    match peer x with
    | None => Done None
    | Some a =>
      l ← linkof w a;
      match uplink l with
      | None => Done None
      | Some m => y ← access (IpPool.member (pool w) !! m); Done (Some (IpPool.addr y))
      end
    end
  end.
Lemma address_of_client w ds as_ d a x c l m y : good w ds as_ -> client w ds as_ d a x c l -> uplink l = Some m ->
  IpPool.member (pool w) !! m = Some y -> address_of w (d_hismac x) = Done (Some (IpPool.addr y)).
Proof.
  intros Hg Hc Hu Hy. destruct (g_table Hg) as (df & cs & Ht). destruct (good_found w ds as_ (d_hismac x) Hg) as (r & Hr & Hf).
  assert (r = Some d) as ->.
  { apply (found_fun (dhcp w) ds df cs (d_hismac x)); [done|done|]. split; [apply Hc|]. exists x. split; [apply Hc|done]. }
  unfold address_of. rewrite Hr. obind. rewrite (dcell_ok _ _ _ (c_dcell Hc)). obind. rewrite (c_peer Hc), (linkof_ok _ _ _ (c_link Hc)). obind.
  rewrite Hu, Hy. done.
Qed.

(** What an answer promises: the address of the connection it is for, which is that of the
    client [mac], as the address of its member of the pool. *)
Definition promises (w : world) (mac : bytes) (d : nat) (ip : Z) : Prop :=
  exists x, cells (d_conns (dhcp w)) !! d = Some x /\ d_hismac x = mac /\ d_hisip x = ip /\
    dhcp_hashget (dhcp w) mac = Done (Some d) /\ address_of w mac = Done (Some ip) /\ ip <> 0.
Definition promised (w : world) (mac : bytes) (pack : bytes) (udp_len : Z) (r : answer) : Prop :=
  exists t type, dhcp_gettag pack (u32 (udp_len - 8)) DHCP_OPTION_MESSAGE_TYPE = Done (Some t) /\ pack !! (t + 2)%nat = Some type /\
  match r with
  | Ack d => type = DHCPREQUEST /\ exists ip, promises w mac d ip /\ asks_for pack udp_len ip
  | Offer d => type = DHCPDISCOVER /\ exists ip, promises w mac d ip
  | _ => True
  end.
Definition well_answered (src pack : bytes) (udp_len : Z) (r : result (world * list notice * option answer)) : Prop :=
  exists w' es ans, r = Done (w', es, ans) /\ consistent w' /\ forall x, ans = Some x -> promised w' (sender src pack) pack udp_len x.
Lemma answer_none src pack udp_len w es : consistent w -> well_answered src pack udp_len (Done (w, es, None)).
Proof. intros Hw. by exists w, es, None. Qed.

(** Once the connection has answered the request for an address. *)
Lemma reply_good src pack udp_len w ds as_ d t type ciaddr addr es : good w ds as_ -> answered w ds as_ d -> d ∈ ds ->
  (exists x, cells (d_conns (dhcp w)) !! d = Some x /\ d_hismac x = sender src pack) ->
  dhcp_gettag pack (u32 (udp_len - 8)) DHCP_OPTION_MESSAGE_TYPE = Done (Some t) -> pack !! (t + 2)%nat = Some type ->
  asks_for pack udp_len ciaddr -> asks_for pack udp_len addr ->
  well_answered src pack udp_len
    (w ← with_dcell w d (set_lasttime mainclock);
     c ← dcell w d;
     if type =? DHCPDISCOVER then Done (w, es, if negb (d_hisip c =? 0) then Some (Offer d) else None)
     else if type =? DHCPREQUEST then
       Done (w, es, Some (if negb (d_hisip c =? 0) && ((d_hisip c =? ciaddr) || (d_hisip c =? addr)) then Ack d else Nak d))
     else Done (w, es, None)).
Proof.
  intros Hg (a & x & c & l & m & y & Hc & Hu & Hy & Hip) Hd (x0 & Hx0 & Hmac) Ht Htype Hci Haddr.
  assert (x0 = x) as -> by (rewrite (c_dcell Hc) in Hx0; by injection Hx0).
  destruct (with_dcell_good w ds as_ d x (set_lasttime mainclock) Hg (c_dcell Hc)) as (w1 & -> & Hg1 & Hx1 & Ea & El & Ep & _); [done..|].
  obind. rewrite (dcell_ok _ _ _ Hx1). obind. change (d_hisip (set_lasttime mainclock x)) with (d_hisip x).
  assert (Hc1 : client w1 ds as_ d a (set_lasttime mainclock x) c l).
  { destruct Hc. constructor; try done; [by rewrite Ea|by rewrite El]. }
  assert (Hao : d_hisip x <> 0 -> promises w1 (sender src pack) d (d_hisip x)).
  { intros Hne. exists (set_lasttime mainclock x). do 3 (split; [done|]). split.
    - destruct (g_table Hg1) as (df & cs & Htab). destruct (good_found w1 ds as_ (sender src pack) Hg1) as (r & Hr & Hf). rewrite Hr.
      f_equal. apply (found_fun (dhcp w1) ds df cs (sender src pack)); [done|done|]. split; [done|]. by exists (set_lasttime mainclock x).
    - split; [|done]. rewrite <- Hmac, Hip. apply (address_of_client w1 ds as_ d a (set_lasttime mainclock x) c l m y); [done..|by rewrite Ep]. }
  assert (Hcons : consistent w1) by (by exists ds, as_).
  destruct (Z.eqb_spec type DHCPDISCOVER) as [Hty|_]; [|destruct (Z.eqb_spec type DHCPREQUEST) as [Hty|_]; [|by apply answer_none]].
  - eexists w1, es, _. split; [done|]. split; [done|]. intros r. destruct (Z.eqb_spec (d_hisip x) 0) as [|Hne]; [done|]. intros [= <-].
    exists t, type. do 3 (split; [done|]). exists (d_hisip x). by apply Hao.
  - eexists w1, es, _. split; [done|]. split; [done|]. intros r [= <-]. exists t, type. do 2 (split; [done|]).
    destruct (negb (d_hisip x =? 0) && ((d_hisip x =? ciaddr) || (d_hisip x =? addr))) eqn:E; [|done]. split; [done|].
    apply andb_true_iff in E as [Hne%negb_true_iff%Z.eqb_neq E]. exists (d_hisip x). split; [by apply Hao|].
    apply orb_true_iff in E as [->%Z.eqb_eq| ->%Z.eqb_eq]; done.
Qed.

Lemma getreq_good alloc w src dst udp_len pack : consistent w -> in_memory pack udp_len ->
  well_answered src pack udp_len (dhcp_getreq alloc w src dst udp_len pack).
Proof.
  intros Hcons Hmem. unfold Lease.dhcp_getreq. destruct (negb _); [by apply answer_none|]. cbv zeta.
  destruct (gettag_ok pack udp_len DHCP_OPTION_MESSAGE_TYPE Hmem) as (tag & Htag & Htag'). rewrite Htag. obind.
  destruct tag as [t|]; [|by apply answer_none]. destruct (Htag' t eq_refl) as (Ht & l & _ & Hl & Hend & Hend2). pose proof Hmem as [Hbytes Hmemlen].
  rewrite (byte_at_ok _ _ _ Hl). obind. destruct (negb (l =? 1)); [by apply answer_none|].
  rewrite (read_ok pack 28 6) by lia. obind. change (if bool_decide (take 6 (drop 28 pack) = _) then src else _) with (sender src pack).
  destruct (lookup_lt_is_Some_2 pack (t + 2)) as [type Htype]; [lia|]. rewrite (byte_at_ok _ _ _ Htype). obind.
  destruct (negb (existsb _ _)); [by apply answer_none|]. set (q := if (_ =? _) || _ then _ else _).
  assert (Hq : exists w1 es1, q = Done (w1, es1) /\ consistent w1) by (unfold q; destruct (_ || _); [by apply release_mac_good|by exists w, []]).
  destruct Hq as (w1 & es1 & -> & (ds1 & as1 & Hg1)). obind. destruct (type =? DHCPRELEASE); [apply answer_none; by exists ds1, as1|].
  destruct (getconn_good alloc w1 ds1 as1 (sender src pack) (allowdyn cfg) Hg1) as (r & w2 & es2 & ds & as_ & -> & Hg2 & Hf). obind.
  assert (Hcons2 : consistent w2) by (by exists ds, as_). destruct r as [d|]; [|by apply answer_none]. destruct Hf as (Hd & x & Hx & Hmac).
  destruct (relayed cfg); [eexists w2, _, _; split; [done|]; split; [done|]; intros r [= <-]; by exists t, type|].
  rewrite (dcell_ok _ _ _ Hx). obind. destruct (_ =? DHCP_AUTH_DROP); [by apply answer_none|]. rewrite (read_ok pack 12 4) by lia. obind.
  destruct (gettag_ok pack udp_len DHCP_OPTION_REQUESTED_IP Hmem) as (tag & Hreq & Hreq'). rewrite Hreq. obind.
  set (q2 := match tag with Some _ => _ | None => _ end).
  assert (Hq2 : exists addr, q2 = Done addr /\ asks_for pack udp_len addr).
  { unfold q2. destruct tag as [t2|]; [|eexists; split; [done|by left]]. destruct (Hreq' t2 eq_refl) as (_ & l2 & _ & Hl2 & _ & ?).
    rewrite read_ok by lia. obind. eexists. split; [done|]. right. by exists t2. }
  destruct Hq2 as (addr & -> & Haddr). obind.
  destruct (_ && _); [eexists w2, _, _; split; [done|]; split; [done|]; intros r [= <-]; by exists t, type|].
  destruct (request_good w2 ds as_ d (Some addr) Hg2 Hd) as (ok & w3 & es3 & -> & Hg3 & Hs3 & Hok). obind.
  destruct ok; cbn [negb]; [|eexists w3, _, _; split; [done|]; split; [by exists ds, as_|]; intros r [= <-]; by exists t, type].
  eapply reply_good; [exact Hg3|by apply Hok|done| |done|done|by left|done].
  pose proof (lookup_field _ _ _ d Hs3) as E. rewrite Hx in E. destruct (cells (d_conns (dhcp w3)) !! d) as [x3|]; [|done].
  apply (inj Some) in E. exists x3. split; [done|]. unfold dcore in E. congruence.
Qed.

(** *** Clients and their addresses *)

Lemma address_via w ds as_ mac : good w ds as_ ->
  address_of w mac = match dhcp_hashget (dhcp w) mac with Done (Some d) => Done (via w d) | _ => Done None end.
Proof.
  intros Hg. destruct (good_found w ds as_ mac Hg) as (r & Hr & Hf). unfold address_of. rewrite Hr. obind. destruct r as [d|]; [|done].
  destruct Hf as (Hd & x & Hx & _). rewrite (dcell_ok _ _ _ Hx). obind. unfold via. rewrite Hx. cbn. destruct (peer x) as [a|] eqn:Hp; [|done].
  destruct (good_client e w ds as_ d a x Hg Hd Hx Hp) as (c & l & Hc). rewrite (linkof_ok _ _ _ (c_link Hc)). obind. cbn. rewrite (c_link Hc). cbn.
  destruct (uplink l) as [m|] eqn:Hu; [|done]. destruct (client_address _ _ _ _ _ _ _ _ _ _ Hg Hc Hu) as (y & Hy & _). cbn. by rewrite Hy.
Qed.
Lemma address_client w ds as_ mac ip : good w ds as_ -> address_of w mac = Done (Some ip) ->
  exists d a x c l m y, client w ds as_ d a x c l /\ d_hismac x = mac /\ uplink l = Some m /\ IpPool.member (pool w) !! m = Some y /\
    IpPool.in_use y = true /\ IpPool.peer y = Some (Z.of_nat a) /\ IpPool.addr y = ip.
Proof.
  intros Hg. rewrite (address_via _ _ _ _ Hg). destruct (good_found w ds as_ mac Hg) as (r & Hr & Hf). rewrite Hr.
  destruct r as [d|]; [|done]. destruct Hf as (Hd & x & Hx & Hmac). intros [= Hv]. pose proof Hv as Hv'. unfold via in Hv'. rewrite Hx in Hv'. cbn in Hv'.
  destruct (peer x) as [a|] eqn:Hp; [|done]. destruct (good_client e w ds as_ d a x Hg Hd Hx Hp) as (c & l & Hc).
  rewrite (via_client _ _ _ _ _ _ _ _ _ Hg Hc) in Hv. destruct (uplink l) as [m|] eqn:Hu; [|done].
  destruct (client_address _ _ _ _ _ _ _ _ _ _ Hg Hc Hu) as (y & Hy & H1 & H2 & H3). exists d, a, x, c, l, m, y. by injection Hv as <-.
Qed.
(** No two clients have the same address, and every address in use is one of a client. *)
Definition exact (w : world) : Prop :=
  (forall mac mac' ip, address_of w mac = Done (Some ip) -> address_of w mac' = Done (Some ip) -> mac = mac') /\
  (forall m y, IpPool.member (pool w) !! m = Some y -> IpPool.in_use y = true -> exists mac, address_of w mac = Done (Some (IpPool.addr y))).
Lemma good_exact w : consistent w -> exact w.
Proof.
  intros (ds & as_ & Hg). split.
  - intros mac mac' ip H1 H2. destruct (address_client w ds as_ mac ip Hg H1) as (d & a & x & c & l & m & y & Hc & <- & Hu & Hy & Hin & Ho & <-),
      (address_client w ds as_ mac' _ Hg H2) as (d' & a' & x' & c' & l' & m' & y' & Hc' & <- & Hu' & Hy' & Hin' & Ho' & Ha').
    destruct (g_pool Hg) as (p & fl & cs & Hp). assert (m' = m) as ->.
    { apply (IpPool.i_addr _ _ _ (IpPool.ab_inv _ _ _ _ Hp) m' m y' y); try done; unfold IpPool.linked; by rewrite ?Hin, ?Hin', orb_true_r. }
    assert (y' = y) as -> by congruence. assert (a' = a) as -> by (rewrite Ho in Ho'; by injection Ho' as ?%Nat2Z.inj).
    assert (l' = l) as -> by (pose proof (c_link Hc); pose proof (c_link Hc'); congruence).
    assert (d' = d) as -> by (pose proof (c_down Hc); pose proof (c_down Hc'); congruence).
    pose proof (c_dcell Hc). pose proof (c_dcell Hc'). congruence.
  - intros m y Hy Hin. destruct (t_used (g_ties Hg) m (IpPool.addr y) (IpPool.peer y)) as (a & dn & Ha & Hl).
    { unfold seen_m. rewrite Hy. cbn. unfold IpPool.tenant. by rewrite Hin. }
    destruct (t_down (g_ties Hg) a Ha) as (up & d & mac & ip & H1 & Hd & H2). rewrite Hl in H1. injection H1 as <- ->.
    unfold seen_d in H2. destruct (cells (d_conns (dhcp w)) !! d) as [x|] eqn:Hx; [|done]. injection H2 as Hp _ _.
    destruct (good_client e w ds as_ d a x Hg Hd Hx Hp) as (c & l & Hc). exists (d_hismac x). eapply address_of_client; [done..| |done].
    unfold seen_l in Hl. rewrite (c_link Hc) in Hl. by injection Hl.
Qed.
Lemma hashget_found w ds as_ mac r : good w ds as_ -> found (dhcp w) ds mac r -> dhcp_hashget (dhcp w) mac = Done r.
Proof.
  intros Hg Hf. destruct (good_found w ds as_ mac Hg) as (r' & Hr' & Hf'). destruct (g_table Hg) as (df & cs & Ht).
  by rewrite (found_fun _ _ _ _ _ _ _ Ht Hf Hf').
Qed.
(** A client whose connection is in use before and after. *)
Lemma found_lease w w' ds ds' mac d : d ∈ ds' -> found (dhcp w) ds mac (Some d) ->
  dlease <$> cells (d_conns (dhcp w')) !! d = dlease <$> cells (d_conns (dhcp w)) !! d -> found (dhcp w') ds' mac (Some d).
Proof.
  intros Hd' (_ & x & Hx & Hm) E. split; [done|]. rewrite Hx in E. destruct (cells (d_conns (dhcp w')) !! d) as [x'|]; [|done].
  exists x'. split; [done|]. apply (inj Some) in E. unfold dlease, dperson in E. congruence.
Qed.
Lemma lease_mac w w' d x x' : dlease <$> cells (d_conns (dhcp w')) !! d = dlease <$> cells (d_conns (dhcp w)) !! d ->
  cells (d_conns (dhcp w)) !! d = Some x -> cells (d_conns (dhcp w')) !! d = Some x' -> d_hismac x' = d_hismac x.
Proof. intros E Hx Hx'. rewrite Hx, Hx' in E. apply (inj Some) in E. unfold dlease, dperson in E. congruence. Qed.

(** C15: [dhcp_getconn] is a table of clients by their addresses: a known client is
    found and nothing changes; a new one gets a connection without an address, and
    all others keep theirs; without memory or room, no client comes or goes.  The
    state stays consistent. *)
Theorem dhcp_getconn_spec alloc w mac : consistent w ->
  exists r w' es, dhcp_getconn alloc w mac true = Done (r, w', es) /\ consistent w' /\
  match dhcp_hashget (dhcp w) mac with
  | Done (Some d) => r = Some d /\ w' = w /\ es = []
  | Done None =>
    dhcp_hashget (dhcp w') mac = Done r /\
    (forall d, r = Some d -> dperson <$> cells (d_conns (dhcp w')) !! d = Some (false, mainclock, mac, 0)) /\
    (r = None -> d_connections (dhcp w) = max_clients cfg \/ alloc.1 = false) /\
    forall mac', mac' <> mac ->
      dhcp_hashget (dhcp w') mac' = dhcp_hashget (dhcp w) mac' /\ address_of w' mac' = address_of w mac'
  | _ => False
  end.
Proof.
  intros (ds & as_ & Hg). unfold Lease.dhcp_getconn. destruct (good_found w ds as_ mac Hg) as (r & Hr & Hf). rewrite Hr. obind.
  destruct r as [d|]; [exists (Some d), w, []; split; [done|]; split; [by exists ds, as_|done]|].
  destruct (newconn_good alloc w ds as_ mac Hg Hf) as (r & w' & es & -> & Hnew). exists r, w', es. split; [done|]. destruct r as [d|].
  - destruct Hnew as (Hd & (as' & Hg') & Hold & Hp). split; [by exists (d :: ds), as'|].
    destruct (cells (d_conns (dhcp w')) !! d) as [xd|] eqn:Hxd; [|done]. pose proof Hp as Hm. apply (inj Some) in Hm.
    split; [eapply hashget_found; [done|]; split; [by left|]; exists xd; split; [done|]; unfold dperson in Hm; congruence|].
    split; [intros d' [= <-]; by rewrite Hxd|]. split; [done|]. intros mac' Hne. destruct (good_found w ds as_ mac' Hg) as (r' & Hr' & Hf').
    assert (Hf2 : found (dhcp w') (d :: ds) mac' r').
    { destruct r' as [d'|]; [eapply found_lease; [right; apply Hf'|done|apply Hold, Hf']|].
      intros j x [->|Hj]%elem_of_cons Hx; [assert (x = xd) as -> by congruence; unfold dperson in Hm; congruence|].
      destruct (g_table Hg) as (df & cs & Ht). destruct (table_mac_cell _ _ _ _ _ Ht Hj) as [x0 Hx0]. destruct (Hold j Hj) as [E _].
      rewrite (lease_mac _ _ _ _ _ E Hx0 Hx). by apply (Hf' j). }
    rewrite (hashget_found _ _ _ _ _ Hg' Hf2), Hr'. split; [done|].
    rewrite (address_via _ _ _ _ Hg'), (address_via _ _ _ _ Hg), (hashget_found _ _ _ _ _ Hg' Hf2), Hr'. destruct r' as [d'|]; [|done].
    f_equal. by apply Hold, Hf'.
  - destruct Hnew as (Hg' & E & Ep & El & Hfull). split; [by exists ds, as_|].
    assert (Hfound : forall m r, found (dhcp w) ds m r -> found (dhcp w') ds m r) by (intros m [d|]; unfold found; by rewrite E).
    split; [by apply (hashget_found _ ds as_), Hfound|]. split; [done|]. split; [done|]. intros mac' Hne.
    destruct (good_found w ds as_ mac' Hg) as (r' & Hr' & Hf'%Hfound). rewrite (hashget_found _ _ _ _ _ Hg' Hf'), Hr'. split; [done|].
    rewrite (address_via _ _ _ _ Hg'), (address_via _ _ _ _ Hg), (hashget_found _ _ _ _ _ Hg' Hf'), Hr'. destruct r' as [d'|]; [|done].
    f_equal. unfold via. by rewrite E, Ep, El.
Qed.

Lemma timeout_good w ds as_ : good w ds as_ -> exists w' es as', dhcp_timeout w = Done (w', es) /\ good w' (filter (stays w) ds) as' /\
  forall d, d ∈ filter (stays w) ds ->
    dlease <$> cells (d_conns (dhcp w')) !! d = dlease <$> cells (d_conns (dhcp w)) !! d /\ via w' d = via w d.
Proof.
  intros Hg. unfold Lease.dhcp_timeout, dhcp_checkconn. destruct (g_table Hg) as (df & cs & Ht).
  rewrite (dl_head _ _ _ (he_used _ _ _ _ (tb_held _ _ _ _ Ht))).
  destruct (checkconn_loop_ok ds [] w as_ (length (cells (d_conns (dhcp w)))) Hg) as (w' & es & as' & -> & Hg' & Hold).
  { pose proof (held_length _ _ _ _ (tb_held _ _ _ _ Ht)). lia. }
  by exists w', es, as'.
Qed.

(** C14: when clients may not have addresses of other networks (uamanyip off), the
    periodic check ends exactly the leases that are not reserved and have not been heard
    of for longer than [lease] and [leaseplus] together; all other clients keep their
    connections and addresses, no two have the same, and the addresses in use are
    theirs. *)
Theorem dhcp_timeout_spec w : consistent w ->
  exists w' es, dhcp_timeout w = Done (w', es) /\ consistent w' /\ exact w' /\
  forall mac, match dhcp_hashget (dhcp w) mac with
    | Done (Some d) =>
      if stays w d then dhcp_hashget (dhcp w') mac = Done (Some d) /\ address_of w' mac = address_of w mac
      else dhcp_hashget (dhcp w') mac = Done None
    | r => dhcp_hashget (dhcp w') mac = r
    end.
Proof.
  intros (ds & as_ & Hg). destruct (g_table Hg) as (df & cs & Ht). destruct (timeout_good w ds as_ Hg) as (w' & es & as' & -> & Hg' & Hold).
  exists w', es. split; [done|]. assert (Hc : consistent w') by (by eexists _, as'). split; [done|].
  split; [by apply good_exact|]. intros mac. destruct (good_found w ds as_ mac Hg) as (r & Hr & Hf). rewrite Hr.
  assert (Hin : forall d, d ∈ filter (stays w) ds <-> d ∈ ds /\ stays w d = true).
  { intros d. rewrite list_elem_of_filter. rewrite Is_true_true. tauto. }
  assert (Hnone : (forall d x, d ∈ ds -> stays w d = true -> cells (d_conns (dhcp w)) !! d = Some x -> d_hismac x <> mac) ->
    dhcp_hashget (dhcp w') mac = Done None).
  { intros H1. apply (hashget_found _ _ _ _ _ Hg'). intros d x Hd Hx. destruct (Hold d Hd) as [E _]. apply Hin in Hd as [Hd Hst].
    destruct (table_mac_cell _ _ _ _ _ Ht Hd) as [x0 Hx0]. rewrite (lease_mac _ _ _ _ _ E Hx0 Hx). by apply (H1 d). }
  destruct r as [d|]; [|by apply Hnone; intros d x Hd _; apply Hf]. destruct (stays w d) eqn:Hst.
  - pose proof Hf as (Hd & x & Hx & Hm). assert (Hd' : d ∈ filter (stays w) ds) by (by apply Hin). destruct (Hold d Hd') as [E Ev].
    assert (Hr' : dhcp_hashget (dhcp w') mac = Done (Some d)) by (eapply hashget_found; [done|]; by eapply found_lease).
    split; [done|]. by rewrite (address_via _ _ _ _ Hg'), (address_via _ _ _ _ Hg), Hr, Hr', Ev.
  - apply Hnone. intros d' x' Hd' Hst' Hx' Hm'. destruct Hf as (Hd & x & Hx & Hm).
    assert (d' = d) as -> by (apply (tb_mac _ _ _ _ Ht d' d x' x); congruence). congruence.
Qed.

(** C5: when clients may not have addresses of other networks (uamanyip off; with it two
    clients can be promised the same address: see [shared_address]) and the statistics
    script can be used as in [accounting_balanced], an address is only promised to the
    client that has it. Whatever message comes, the state stays consistent. An ACK
    answers a request, and an OFFER a discovery; both are for the connection of the
    client that the message is from, and promise the address of this connection, which
    is that of its member of the pool, for an ACK also the one that the client asked
    for; no other client has this address. *)
Theorem dhcp_getreq_promises alloc w src dst udp_len pack : consistent w -> in_memory pack udp_len ->
  exists w' es ans, dhcp_getreq alloc w src dst udp_len pack = Done (w', es, ans) /\ consistent w' /\ exact w' /\
    forall x, ans = Some x -> promised w' (sender src pack) pack udp_len x.
Proof.
  intros Hw Hm. destruct (getreq_good alloc w src dst udp_len pack Hw Hm) as (w' & es & ans & -> & Hw' & Hans). exists w', es, ans.
  split; [done|]. split; [done|]. split; [by apply good_exact|done].
Qed.
End Keep.

(** ** Histories *)

Section Histories.
Context (o : options) (popen : bytes -> option (option bytes)) (e : endian)
  (inet_aton : bytes -> option Z) (nas_hwaddr : bytes) (sysinfo : option (Z * bytes * bytes)) (cfg : dhcp_options).
Abbreviation consistent := (consistent e).

(** What happens to the daemon: a message or another packet of a client, an address that
    is reserved, a client that is admitted, released or blocked by a command, and the
    periodic check. *)
Inductive happening :=
| Message (src : bytes) (dst udp_len : Z) (pack : bytes)
| Packet (mac : bytes) (do_alloc : bool)
| Reservation (mac : bytes) (ip : Z)
| Admission (mac : bytes) (params : session_params)
| Ending (mac : bytes) (cause : Z)
| Blocking (mac : bytes)
| Checkup.
(** With the clocks, and whether memory can be had. *)
Record moment := Moment { now : Z; now_rt : Z; memory : bool * bool; event_at : happening }.
Definition happen (t : moment) (w : world) : result (world * list notice) :=
  match event_at t with
  | Message src dst udp_len pack =>
    '(w, es, _) ← dhcp_getreq o popen e inet_aton nas_hwaddr sysinfo cfg (now t) (now_rt t) (memory t) w src dst udp_len pack; Done (w, es)
  | Packet mac do_alloc => '(_, w, es) ← dhcp_getconn cfg (now t) (now_rt t) (memory t) w mac do_alloc; Done (w, es)
  | Reservation mac ip => dhcp_reserve_ip o popen e inet_aton nas_hwaddr sysinfo cfg (now t) (now_rt t) (memory t) w mac ip
  | Admission mac params => dhcp_authorize_mac o popen e inet_aton nas_hwaddr sysinfo cfg (now t) w mac params
  | Ending mac cause => dhcp_release_mac o popen e inet_aton nas_hwaddr sysinfo cfg (now t) (now_rt t) w mac cause
  | Blocking mac => w ← dhcp_block_mac w mac; Done (w, [])
  | Checkup => dhcp_timeout o popen e inet_aton nas_hwaddr sysinfo cfg (now t) (now_rt t) w
  end.
Fixpoint happens (l : list moment) (w : world) : result (world * list notice) :=
  match l with
  | [] => Done (w, [])
  | t :: l => '(w, es) ← happen t w; '(w, es') ← happens l w; Done (w, es ++ es')
  end.
(** Messages lie in memory, and sessions are not admitted with earlier usage. *)
Definition sound (t : moment) : Prop :=
  match event_at t with
  | Message _ _ udp_len pack => in_memory pack udp_len
  | Admission _ params => start_point (session_param_defaults o params) = 0
  | _ => True
  end.

Hypothesis Huam : uamanyip cfg = false.
Hypothesis Hstats : forall c, start_point (s_params c) = 0 -> statistics_ok o popen c.

Lemma happen_good t w : consistent w -> sound t -> exists w' es, happen t w = Done (w', es) /\ consistent w'.
Proof.
  intros Hw Hs. unfold happen. unfold sound in Hs. destruct (event_at t) as [src dst udp_len pack|mac al|mac ip|mac params|mac cause|mac|].
  - destruct (getreq_good o popen e inet_aton nas_hwaddr sysinfo cfg (now t) (now_rt t) Huam Hstats (memory t) w src dst udp_len pack Hw Hs)
      as (w' & es & ans & -> & Hw' & _). obind. by exists w', es.
  - destruct Hw as (ds & as_ & Hg). destruct (getconn_good e cfg (now t) (now_rt t) (memory t) w ds as_ mac al Hg) as (r & w' & es & ds' & as' & -> & Hg' & _).
    obind. exists w', es. split; [done|]. by exists ds', as'.
  - by apply reserve_good.
  - by apply authorize_good.
  - by apply release_mac_good.
  - destruct (block_mac_good e w mac Hw) as (w' & -> & Hw'). obind. by exists w', [].
  - destruct Hw as (ds & as_ & Hg). destruct (timeout_good o popen e inet_aton nas_hwaddr sysinfo cfg (now t) (now_rt t) Huam w ds as_ Hg)
      as (w' & es & as' & -> & Hg' & _). exists w', es. split; [done|]. by eexists _, as'.
Qed.

Lemma happens_good l w : consistent w -> Forall sound l -> exists w' es, happens l w = Done (w', es) /\ consistent w'.
Proof.
  intros Hw Hl. revert w Hw. induction Hl as [|t l Ht _ IH]; intros w Hw; cbn [happens]; [by exists w, []|].
  destruct (happen_good t w Hw Ht) as (w1 & es1 & -> & Hw1). obind. destruct (IH w1 Hw1) as (w2 & es2 & -> & H2). obind. by eexists w2, _.
Qed.

(** C4: when clients may not have addresses of other networks (uamanyip off), and the
    statistics script can be used as in [accounting_balanced], then the daemon goes
    through any sequence of DHCP messages with any contents, other packets of clients,
    reservations of addresses, commands that admit a client (without earlier usage), end
    or block it, and periodic checks, at any times, with or without memory for new
    connections, without a fault. At every time the parts agree on the clients: each
    connection of [dhcp.c] with a peer is that of its peer, each member of the pool in
    use belongs to a connection with an address, no two clients have the same address,
    and no address in use is without a client. (Replies of the RADIUS server are not
    among these events: see [cb_radius_auth_conf_decides]. With uamanyip two clients can
    have the same address: see [shared_address].) *)
Theorem leases_consistent l w : consistent w -> Forall sound l ->
  exists w' es, happens l w = Done (w', es) /\ consistent w' /\ exact w'.
Proof.
  intros Hw Hl. destruct (happens_good l w Hw Hl) as (w' & es & E & Hw'). exists w', es. split; [done|]. split; [done|]. by eapply good_exact.
Qed.
End Histories.

(** *** The daemon as it starts: no connections, and no address in use *)

Lemma hashlog_ok fuel k n : 0 <= k <= 30 -> n <= 2 ^ 30 -> 30 - k < Z.of_nat fuel -> exists h, hashlog_loop fuel k n = Done h /\ k <= h.
Proof.
  revert k. induction fuel as [|fuel IH]; intros k Hk Hn Hf; [lia|]. cbn [hashlog_loop].
  destruct (Z.ltb_spec (s32 (2 ^ k)) n) as [Hlt|]; [|by exists k].
  assert (k <> 30) by (intros ->; change (s32 (2 ^ 30)) with (2 ^ 30) in Hlt; lia). destruct (IH (k + 1)) as (h & -> & Hh); [lia..|]. exists h. split; [done|lia].
Qed.
Lemma hashinit_ok n : n <= 2 ^ 30 -> exists t, dhcp_hashinit true n = Done (Some t) /\ table t [] [] (fun _ => []).
Proof.
  intros Hn. unfold dhcp_hashinit. destruct (hashlog_ok 32 0 n) as (h & -> & Hh); [lia..|]. obind. cbn [negb]. eexists. split; [done|]. constructor.
  - apply held_nil.
  - constructor; cbn [hash hashmask].
    + exists h. by rewrite length_replicate.
    + intros b Hb. rewrite length_replicate in Hb. exists None. split; [by apply lookup_replicate_2|done].
    + intros _. constructor.
    + intros b i. split; [by intros Hi%elem_of_nil|by intros [Hi%elem_of_nil _]].
  - intros i x Hi. by apply elem_of_nil in Hi.
  - intros i j x y Hi. by apply elem_of_nil in Hi.
Qed.
Lemma start_consistent e t p a : table t [] [] (fun _ => []) -> @IpPool.Abs (Sfhash.sf_hash e) p a ->
  IpPool.a_dyn a = ∅ -> IpPool.a_stat a = ∅ -> consistent e (World empty_world [] t p).
Proof.
  intros Ht Ha Hd Hs. exists [], []. constructor; cbn.
  - by exists [], (fun _ => []).
  - exists []. apply empty_rep.
  - done.
  - by exists a.
  - constructor; try (intros *; intros Hi; by apply elem_of_nil in Hi). intros m ip o Hm. unfold seen_m in Hm. cbn in Hm.
    destruct Ha as (fl & cs & Ha). destruct (IpPool.member p !! m) as [y|] eqn:Hy; [|done]. exfalso.
    assert (Hu : IpPool.addr y ∈ IpPool.a_used a (IpPool.is_static y)).
    { apply (IpPool.ab_used _ _ _ _ Ha). exists m, y. split; [done|]. unfold IpPool.tenant, IpPool.core in *. cbn in Hm. congruence. }
    destruct (IpPool.is_static y); cbn in Hu; [rewrite Hs in Hu|rewrite Hd in Hu]; set_solver.
  - by intros [|i] c Hc.
Qed.

(** A network of thirteen dynamic addresses and two static ones, with room for four clients. *)
Definition demo_cfg : dhcp_options :=
  DOptions 4 600 60 1500 false true false true (IpPool.ip4 10 1 0 0) (IpPool.ip4 255 255 255 240) (IpPool.ip4 10 1 0 1) (IpPool.ip4 10 1 0 1)
    (IpPool.ip4 10 1 0 1) (IpPool.ip4 10 1 0 1) (Some (str "lan")) false false 0 0 0 0 0 [] false false false false
    None None None None false false None false.
Definition demo_table : dhcp_t :=
  match dhcp_hashinit true (max_clients demo_cfg) with
  | Done (Some t) => t | _ => Dhcp (Arena [] (Ends None None) (Ends None None)) 0 [] 0 end.
Definition demo_start : world := World empty_world [] demo_table IpPool.demo_pool.
Lemma demo_consistent : consistent BE demo_start.
Proof.
  destruct (hashinit_ok 4) as (t & Ht & H); [lia|]. destruct IpPool.demo_Abs as (a & Ha & _ & Hd & Hs & _).
  assert (E : demo_table = t) by (unfold demo_table; change (max_clients demo_cfg) with 4; by rewrite Ht).
  unfold demo_start. rewrite E. by apply (start_consistent BE t IpPool.demo_pool a).
Qed.
Lemma demo_stats c : start_point (s_params c) = 0 -> statistics_ok demo_options no_script c.
Proof. by intros H. Qed.

Definition mac_a : bytes := [0; 30; 66; 1; 2; 3].
Definition mac_b : bytes := [0; 30; 66; 1; 2; 4].
(** A message of the client [mac] that asks for the address [ip]. *)
Definition demo_message (type : Z) (mac : bytes) (ip : Z) : bytes :=
  replicate 28 0 ++ mac ++ replicate 202 0 ++ [99; 130; 83; 99] ++
  [53; 1; type] ++ [50; 4] ++ take 4 [ip / 2 ^ 24; (ip / 2 ^ 16) mod 256; (ip / 2 ^ 8) mod 256; ip mod 256] ++ [255] ++ replicate 10 0.
Lemma demo_in_memory type ip mac : is_bytes (demo_message type mac ip) -> length mac = 6%nat -> in_memory (demo_message type mac ip) 264.
Proof. intros Hb Hm. split; [done|]. unfold demo_message. rewrite !length_app, !length_replicate, Hm. change (u32 (264 - 8)) with 256. cbn. lia. Qed.
Definition message (now type : Z) (mac : bytes) (ip : Z) : moment :=
  Moment now now (true, true) (Message mac 67 264 (demo_message type mac ip)).
(** Two clients want the same address; the first goes silent, an address is reserved,
    and the second declines its address. *)
Definition demo_history : list moment :=
  [message 100 DHCPDISCOVER mac_a (IpPool.ip4 10 1 0 5); message 101 DHCPREQUEST mac_a (IpPool.ip4 10 1 0 5);
   message 102 DHCPREQUEST mac_b (IpPool.ip4 10 1 0 5);
   Moment 103 103 (true, true) (Reservation demo_mac (IpPool.ip4 10 1 0 9)); Moment 762 762 (true, true) Checkup;
   message 763 DHCPDECLINE mac_b 0].

Lemma demo_sound : Forall (sound demo_options) demo_history.
Proof. repeat constructor; cbn -[demo_message]; try done; apply demo_in_memory; try done; apply is_bytes_check; vm_compute; reflexivity. Qed.

Lemma leases_consistent_witness : exists w' es,
  happens demo_options no_script BE no_aton demo_mac None demo_cfg demo_history demo_start = Done (w', es) /\
  consistent BE w' /\ exact w' /\ address_of w' mac_a = Done None /\ address_of w' demo_mac = Done (Some (IpPool.ip4 10 1 0 9)).
Proof.
  destruct (leases_consistent demo_options no_script BE no_aton demo_mac None demo_cfg eq_refl demo_stats demo_history demo_start
    demo_consistent demo_sound) as (w' & es & H & Hc & He). exists w', es. split; [exact H|]. split; [exact Hc|]. split; [exact He|].
  assert (E : match happens demo_options no_script BE no_aton demo_mac None demo_cfg demo_history demo_start with
    | Done (w', _) => address_of w' mac_a = Done None /\ address_of w' demo_mac = Done (Some (IpPool.ip4 10 1 0 9)) | _ => False end)
    by (vm_compute; split; reflexivity).
  rewrite H in E. exact E.
Defined.

(** The daemon while the two clients have addresses. *)
Definition demo_two : world :=
  match happens demo_options no_script BE no_aton demo_mac None demo_cfg (take 3 demo_history) demo_start with
  | Done (w, _) => w | _ => demo_start end.
Lemma demo_two_consistent : consistent BE demo_two.
Proof.
  destruct (happens_good demo_options no_script BE no_aton demo_mac None demo_cfg eq_refl demo_stats (take 3 demo_history) demo_start
    demo_consistent (Forall_take _ _ _ demo_sound)) as (w' & es & H & Hc). unfold demo_two. by rewrite H.
Qed.

(** A third client gets a connection; the others keep their addresses. *)
Lemma dhcp_getconn_spec_witness : exists r w' es,
  dhcp_getconn demo_cfg 200 200 (true, true) demo_two demo_mac true = Done (r, w', es) /\ consistent BE w' /\ r = Some 2%nat /\
  address_of w' mac_b = Done (Some (IpPool.ip4 10 1 0 2)).
Proof.
  destruct (dhcp_getconn_spec BE demo_cfg 200 200 (true, true) demo_two demo_mac demo_two_consistent) as (r & w' & es & H & Hc & Hm).
  exists r, w', es. split; [exact H|]. split; [exact Hc|].
  assert (E : dhcp_hashget (dhcp demo_two) demo_mac = Done None) by (vm_compute; reflexivity). rewrite E in Hm.
  destruct Hm as (_ & _ & _ & Ho). split; [|etransitivity; [apply (Ho mac_b); discriminate|vm_compute; reflexivity]].
  assert (E' : match dhcp_getconn demo_cfg 200 200 (true, true) demo_two demo_mac true with
    | Done (r, _, _) => r = Some 2%nat | _ => False end) by (vm_compute; reflexivity).
  rewrite H in E'. exact E'.
Defined.
(** The first client is not heard of for longer than 660 seconds. *)
Lemma dhcp_timeout_spec_witness : exists w' es,
  dhcp_timeout demo_options no_script BE no_aton demo_mac None demo_cfg 762 762 demo_two = Done (w', es) /\ consistent BE w' /\
  dhcp_hashget (dhcp w') mac_a = Done None /\ address_of w' mac_b = Done (Some (IpPool.ip4 10 1 0 2)).
Proof.
  destruct (dhcp_timeout_spec demo_options no_script BE no_aton demo_mac None demo_cfg 762 762 eq_refl demo_two demo_two_consistent)
    as (w' & es & H & Hc & _ & Hm). exists w', es. split; [exact H|]. split; [exact Hc|]. split.
  - specialize (Hm mac_a). replace (dhcp_hashget (dhcp demo_two) mac_a) with (Done (Some 0%nat) : result (option nat)) in Hm by (vm_compute; reflexivity).
    replace (stays demo_cfg 762 demo_two 0) with false in Hm by (vm_compute; reflexivity). exact Hm.
  - specialize (Hm mac_b). replace (dhcp_hashget (dhcp demo_two) mac_b) with (Done (Some 1%nat) : result (option nat)) in Hm by (vm_compute; reflexivity).
    replace (stays demo_cfg 762 demo_two 1) with true in Hm by (vm_compute; reflexivity). etransitivity; [exact (proj2 Hm)|vm_compute; reflexivity].
Defined.
Lemma dhcp_getreq_promises_witness : exists w' es ans,
  dhcp_getreq demo_options no_script BE no_aton demo_mac None demo_cfg 200 200 (true, true) demo_two mac_b 67 264
    (demo_message DHCPREQUEST mac_b (IpPool.ip4 10 1 0 2)) = Done (w', es, ans) /\ consistent BE w' /\ exact w' /\
  ans = Some (Ack 1) /\ promised BE w' mac_b (demo_message DHCPREQUEST mac_b (IpPool.ip4 10 1 0 2)) 264 (Ack 1).
Proof.
  assert (Hm : in_memory (demo_message DHCPREQUEST mac_b (IpPool.ip4 10 1 0 2)) 264)
    by (apply demo_in_memory; [apply is_bytes_check; vm_compute; reflexivity|done]).
  destruct (dhcp_getreq_promises demo_options no_script BE no_aton demo_mac None demo_cfg 200 200 eq_refl demo_stats (true, true) demo_two
    mac_b 67 264 _ demo_two_consistent Hm) as (w' & es & ans & H & Hc & He & Ha).
  exists w', es, ans. split; [exact H|]. split; [exact Hc|]. split; [exact He|].
  assert (E : match dhcp_getreq demo_options no_script BE no_aton demo_mac None demo_cfg 200 200 (true, true) demo_two mac_b 67 264
    (demo_message DHCPREQUEST mac_b (IpPool.ip4 10 1 0 2)) with
    | Done (_, _, ans) => ans = Some (Ack 1) | _ => False end) by (vm_compute; reflexivity).
  rewrite H in E. split; [exact E|]. specialize (Ha (Ack 1) E). replace (sender mac_b (demo_message DHCPREQUEST mac_b (IpPool.ip4 10 1 0 2))) with mac_b in Ha
    by (vm_compute; reflexivity). exact Ha.
Defined.

(** ** Where the code falls short *)

Definition demo_run (cfg : dhcp_options) (l : list moment) : result (world * list notice) :=
  happens demo_options no_script BE no_aton demo_mac None cfg l demo_start.
(** The demonstration with [uamanyip]: clients keep addresses of other networks. *)
Definition any_cfg : dhcp_options :=
  DOptions 4 600 60 1500 false true false false (IpPool.ip4 10 1 0 0) (IpPool.ip4 255 255 255 240) (IpPool.ip4 10 1 0 1) (IpPool.ip4 10 1 0 1)
    (IpPool.ip4 10 1 0 1) (IpPool.ip4 10 1 0 1) (Some (str "lan")) true false 0 0 0 0 0 [] false false false false
    None None None None false false None false.

(** With [uamanyip] two clients with the same address share one member of the pool, and
    lose it when one of them leaves. *)
Lemma shared_address :
  let two := [message 100 DHCPREQUEST mac_a (IpPool.ip4 192 168 1 5); message 101 DHCPREQUEST mac_b (IpPool.ip4 192 168 1 5)] in
  ('(w, _) ← demo_run any_cfg two; x ← address_of w mac_a; y ← address_of w mac_b; Done (x, y)) =
    Done (Some (IpPool.ip4 192 168 1 5), Some (IpPool.ip4 192 168 1 5)) /\
  ('(w, _) ← demo_run any_cfg (two ++ [message 102 DHCPRELEASE mac_a 0]); y ← address_of w mac_b;
    Done (y, existsb IpPool.in_use (IpPool.member (pool w)))) = Done (Some 0, false).
Proof. split; vm_compute; reflexivity. Qed.
(** An address that a client declines, as another host uses it, goes to the next client
    that asks for it, and the client that declined it gets another one unasked. *)
Lemma declined_address :
  ('(w, _) ← demo_run demo_cfg [message 100 DHCPREQUEST mac_a (IpPool.ip4 10 1 0 5); message 101 DHCPDECLINE mac_a 0;
       message 102 DHCPREQUEST mac_b (IpPool.ip4 10 1 0 5)];
    x ← address_of w mac_a; y ← address_of w mac_b; Done (x, y)) = Done (Some (IpPool.ip4 10 1 0 2), Some (IpPool.ip4 10 1 0 5)).
Proof. vm_compute. reflexivity. Qed.
(** A connection that [chilli.c] had no memory for is refused as long as it lasts. *)
Lemma peerless_connection :
  let start := Moment 100 100 (true, false) (Packet mac_a true) in
  let request := message 101 DHCPREQUEST mac_a (IpPool.ip4 10 1 0 5) in
  ('(w, _) ← demo_run demo_cfg [start]; '(_, _, ans) ← dhcp_getreq demo_options no_script BE no_aton demo_mac None demo_cfg 101 101 (true, true) w
      mac_a 67 264 (demo_message DHCPREQUEST mac_a (IpPool.ip4 10 1 0 5)); Done ans) = Done (Some (Nak 0)) /\
  ('(w, _) ← demo_run demo_cfg [start; request; request]; address_of w mac_a) = Done None.
Proof. split; vm_compute; reflexivity. Qed.
(** An option PAD is a single byte (RFC 2132), but the search takes what follows for its
    length: the message type behind it is not found. *)
Lemma pad_hides_type :
  dhcp_gettag (replicate 240 0 ++ [0; 53; 1; 1; 255] ++ replicate 60 0) 300 DHCP_OPTION_MESSAGE_TYPE = Done None /\
  dhcp_gettag (replicate 240 0 ++ [53; 1; 1; 255] ++ replicate 61 0) 300 DHCP_OPTION_MESSAGE_TYPE = Done (Some 240%nat).
Proof. split; vm_compute; reflexivity. Qed.
(** Four bytes of the address that is requested are read whatever the length of the
    option: of an option without contents, those of the options behind it. *)
Lemma short_request :
  let pack := demo_message DHCPREQUEST mac_a 0 in
  ('(w, _, ans) ← dhcp_getreq demo_options no_script BE no_aton demo_mac None demo_cfg 100 100 (true, true) demo_start mac_a 67 264
      (take 243 pack ++ [50; 0; 10; 1; 0; 9; 255] ++ replicate 10 0); Done ans) = Done (Some (Ack 0)).
Proof. vm_compute. reflexivity. Qed.
End Lease.
