(* ===== verification/Reply.v ===== *)
(** * What the hotspot daemon takes from the RADIUS server ([chilli.c])

    Replies to the requests for clients ([cb_radius_auth_conf]), to accounting requests
    ([cb_radius_acct_conf]), and requests of the server ([cb_radius_coa_ind]).  All of
    them set the limits of a session from attributes ([config_radius_session]), on
    packets of [Radius] and the world of [Lease]; and what they give a session.  What
    they do to clients is in [Answers]. *)

From S2P Require Import Prelude CLib Mem Chains Dlist Md5 Radius RadiusQueue IpPool Session Conns Dhcp Lease.

Module Reply.
Import Mem Dlist Radius Session Conns Dhcp Lease.

Definition RADIUS_ATTR_FRAMED_IP_NETMASK : Z := 9.
Definition RADIUS_ATTR_FILTER_ID : Z := 11.
Definition RADIUS_ATTR_SESSION_TIMEOUT : Z := 27.
Definition RADIUS_ATTR_IDLE_TIMEOUT : Z := 28.
Definition RADIUS_ATTR_EAP_MESSAGE : Z := 79.
Definition RADIUS_ATTR_ACCT_INTERIM_INTERVAL : Z := 85.
Definition RADIUS_CODE_ACCESS_ACCEPT : Z := 2.
Definition RADIUS_CODE_ACCESS_REJECT : Z := 3.
Definition RADIUS_CODE_ACCESS_CHALLENGE : Z := 11.
Definition RADIUS_CODE_DISCONNECT_REQUEST : Z := 40.
Definition RADIUS_CODE_DISCONNECT_ACK : Z := 41.
Definition RADIUS_CODE_DISCONNECT_NAK : Z := 42.
Definition RADIUS_CODE_COA_REQUEST : Z := 43.
Definition RADIUS_CODE_COA_ACK : Z := 44.
Definition RADIUS_CODE_COA_NAK : Z := 45.
Definition RADIUS_VENDOR_MS : Z := 311.
Definition RADIUS_ATTR_MS_MPPE_ENCRYPTION_POLICY : Z := 7.
Definition RADIUS_ATTR_MS_MPPE_ENCRYPTION_TYPES : Z := 8.
Definition RADIUS_ATTR_MS_CHAP_MPPE_KEYS : Z := 12.
Definition RADIUS_ATTR_MS_MPPE_SEND_KEY : Z := 16.
Definition RADIUS_ATTR_MS_MPPE_RECV_KEY : Z := 17.
Definition RADIUS_ATTR_MS_CHAP2_SUCCESS : Z := 26.
Definition RADIUS_TERMINATE_CAUSE_USER_REQUEST : Z := 1.
Definition RADIUS_ATTR_WISPR_REDIRECTION_URL : Z := 4.
Definition RADIUS_ATTR_WISPR_BANDWIDTH_MAX_UP : Z := 7.
Definition RADIUS_ATTR_WISPR_BANDWIDTH_MAX_DOWN : Z := 8.
Definition RADIUS_ATTR_WISPR_SESSION_TERMINATE_TIME : Z := 9.
Definition RADIUS_ATTR_CHILLISPOT_MAX_INPUT_OCTETS : Z := 1.
Definition RADIUS_ATTR_CHILLISPOT_MAX_OUTPUT_OCTETS : Z := 2.
Definition RADIUS_ATTR_CHILLISPOT_MAX_TOTAL_OCTETS : Z := 3.
Definition RADIUS_ATTR_CHILLISPOT_BANDWIDTH_MAX_UP : Z := 4.
Definition RADIUS_ATTR_CHILLISPOT_BANDWIDTH_MAX_DOWN : Z := 5.
Definition RADIUS_ATTR_CHILLISPOT_CONFIG : Z := 6.
Definition RADIUS_ATTR_CHILLISPOT_REQUIRE_UAM : Z := 11.
Definition RADIUS_ATTR_CHILLISPOT_SESSION_STATE : Z := 15.
Definition RADIUS_ATTR_CHILLISPOT_MAX_INPUT_GIGAWORDS : Z := 21.
Definition RADIUS_ATTR_CHILLISPOT_MAX_OUTPUT_GIGAWORDS : Z := 22.
Definition RADIUS_ATTR_CHILLISPOT_MAX_TOTAL_GIGAWORDS : Z := 23.
Definition RADIUS_ATTR_CHILLISPOT_START_POINT : Z := 30.
Definition RADIUS_ATTR_CHILLISPOT_DATA_INTERVAL : Z := 31.
Definition RADIUS_ATTR_CHILLISPOT_DHCP_OPTION : Z := 52.
Definition RADIUS_ATTR_CHILLISPOT_DHCP_FILENAME : Z := 53.
Definition RADIUS_ATTR_CHILLISPOT_DHCP_SERVER_NAME : Z := 55.
Definition RADIUS_ATTR_CHILLISPOT_DHCP_IP_ADDRESS : Z := 60.
Definition RADIUS_ATTR_CHILLISPOT_DHCP_IP_NETMASK : Z := 61.
Definition RADIUS_ATTR_CHILLISPOT_DHCP_DNS1 : Z := 62.
Definition RADIUS_ATTR_CHILLISPOT_DHCP_DNS2 : Z := 63.
Definition RADIUS_ATTR_CHILLISPOT_DHCP_GATEWAY : Z := 64.
Definition RADIUS_ATTR_CHILLISPOT_DHCP_DOMAIN : Z := 65.
Definition RADIUS_VALUE_CHILLISPOT_SESSION_AUTH : Z := 1.
Definition RADIUS_VALUE_CHILLISPOT_SESSION_NOAUTH : Z := 2.
Definition REDIR_USERURLSIZE : Z := 2048.
(** Without ENABLE_LARGELIMITS. *)
Definition MAX_EAP_LEN : Z := 1500.
Definition CHAP_DIGEST_MD5 : Z := 5.
Definition CHAP_MICROSOFT : Z := 128.
Definition CHAP_MICROSOFT_V2 : Z := 129.
Definition EAP_MESSAGE : Z := 257.

(** ** Attributes *)

(** [attr->v.i] as it lies in memory, and [attr->l - 2] bytes of [attr->v.t].  The
    length of a vendor's attribute is what the packet says; below 2 the difference
    is the size of a copy that no memory has room for. *)
Definition attr_i (pack : bytes) (t : nat) : result bytes := read pack (t + 2) 4.
Definition attr_text (pack : bytes) (t : nat) : result bytes :=
  l ← byte_at pack (t + 1);
  if l <? 2 then Fault else read pack (t + 2) (Z.to_nat (l - 2)).
Definition plain (pack : bytes) (type : Z) : result (option nat) := radius_getattr pack type 0 0 0.
Definition vendors (pack : bytes) (vendor type : Z) : result (option nat) :=
  radius_getattr pack RADIUS_ATTR_VENDOR_SPECIFIC vendor type 0.
(** The text in a buffer that ends with a NUL. *)
Definition ctext (s : bytes) : bytes := match find_from (fun c => c =? 0) s with Some (n, _) => take n s | None => s end.

(** ** Limits of a session *)

(** An integer, if it is there; otherwise 0, or in an answer to an accounting request the
    value so far. *)
Definition int_attr (reconfig : bool) (pack : bytes) (attr : result (option nat)) (old : Z) : result Z :=
  t ← attr;
  match t with
  | Some t => i ← attr_i pack t; Done (be_val i)
  | None => Done (if reconfig then old else 0)
  end.
(** The upper half of a limit. *)
Definition gigawords (pack : bytes) (attr : result (option nat)) (old : Z) : result Z :=
  t ← attr;
  match t with
  | Some t => i ← attr_i pack t; Done (Z.lor old (u64 (Z.shiftl (be_val i) 32)))
  | None => Done old
  end.
(** [ntohl (attr->v.i) * 1000] has 32 bits. *)
Definition kilobits (pack : bytes) (attr : result (option nat)) (old : Z) : result Z :=
  t ← attr;
  match t with
  | Some t => i ← attr_i pack t; Done (u32 (be_val i * 1000))
  | None => Done old
  end.
(** The interval of interim reports has 16 bits, and is at least a minute. *)
Definition interim_attr (reconfig : bool) (pack : bytes) (attr : result (option nat)) (old : Z) : result Z :=
  t ← attr;
  match t with
  | Some t => i ← attr_i pack t; let v := u16 (be_val i) in Done (if v <? 60 then 0 else v)
  | None => Done (if reconfig then old else 0)
  end.
Definition text_attr_of (pack : bytes) (attr : result (option nat)) (f : bytes -> bytes) (old : bytes) : result bytes :=
  t ← attr;
  match t with Some t => s ← attr_text pack t; Done (f s) | None => Done old end.

(** What comes before the commands of [ChilliSpot-Config]. *)
Definition config_values (reconfig : bool) (pack : bytes) (p : session_params) : result session_params :=
  let vendor := RADIUS_VENDOR_CHILLISPOT in
  timeout ← int_attr reconfig pack (plain pack RADIUS_ATTR_SESSION_TIMEOUT) (sessiontimeout p);
  idle ← int_attr reconfig pack (plain pack RADIUS_ATTR_IDLE_TIMEOUT) (idletimeout p);
  filter ← text_attr_of pack (plain pack RADIUS_ATTR_FILTER_ID) id (if reconfig then filterid p else []);
  interim ← interim_attr reconfig pack (plain pack RADIUS_ATTR_ACCT_INTERIM_INTERVAL) (interim_interval p);
  up ← int_attr reconfig pack (vendors pack RADIUS_VENDOR_WISPR RADIUS_ATTR_WISPR_BANDWIDTH_MAX_UP) (bandwidthmaxup p);
  down ← int_attr reconfig pack (vendors pack RADIUS_VENDOR_WISPR RADIUS_ATTR_WISPR_BANDWIDTH_MAX_DOWN) (bandwidthmaxdown p);
  up ← kilobits pack (vendors pack vendor RADIUS_ATTR_CHILLISPOT_BANDWIDTH_MAX_UP) up;
  down ← kilobits pack (vendors pack vendor RADIUS_ATTR_CHILLISPOT_BANDWIDTH_MAX_DOWN) down;
  input ← int_attr reconfig pack (vendors pack vendor RADIUS_ATTR_CHILLISPOT_MAX_INPUT_OCTETS) (maxinputoctets p);
  output ← int_attr reconfig pack (vendors pack vendor RADIUS_ATTR_CHILLISPOT_MAX_OUTPUT_OCTETS) (maxoutputoctets p);
  total ← int_attr reconfig pack (vendors pack vendor RADIUS_ATTR_CHILLISPOT_MAX_TOTAL_OCTETS) (maxtotaloctets p);
  input ← gigawords pack (vendors pack vendor RADIUS_ATTR_CHILLISPOT_MAX_INPUT_GIGAWORDS) input;
  output ← gigawords pack (vendors pack vendor RADIUS_ATTR_CHILLISPOT_MAX_OUTPUT_GIGAWORDS) output;
  total ← gigawords pack (vendors pack vendor RADIUS_ATTR_CHILLISPOT_MAX_TOTAL_GIGAWORDS) total;
  u ← text_attr_of pack (vendors pack vendor RADIUS_ATTR_CHILLISPOT_REQUIRE_UAM) ctext (url p);
  start ← int_attr reconfig pack (vendors pack vendor RADIUS_ATTR_CHILLISPOT_START_POINT) (start_point p);
  interval ← int_attr reconfig pack (vendors pack vendor RADIUS_ATTR_CHILLISPOT_DATA_INTERVAL) (data_interval p);
  Done (Params u filter up down input output start interval total timeout idle interim (sessionterminatetime p) (flags p)).

(** The address for redirections, in pieces. *)
Fixpoint url_loop (fuel : nat) (pack : bytes) (offset : Z) (seen : bool) (p : session_params) : result session_params :=
  match fuel with
  | O => Fault
  | S fuel =>
    r ← radius_getnextattr pack RADIUS_ATTR_VENDOR_SPECIFIC RADIUS_VENDOR_WISPR RADIUS_ATTR_WISPR_REDIRECTION_URL 0 offset;
    match r with
    | None => Done p
    | Some (t, offset) =>
      l ← byte_at pack (t + 1);
      let u := if seen then url p else [] in
      let clen := Z.of_nat (length u) in
      let nlen := if REDIR_USERURLSIZE - 1 <? u32 (clen + (l - 2)) then REDIR_USERURLSIZE - clen - 1 else l - 2 in
      p ← (if 0 <? nlen then
             text ← read pack (t + 2) (Z.to_nat nlen);
             Done (set_flags (u16 (Z.lor (flags p) UAM_CLEAR_URL)) (set_url (u ++ ctext text) p))
           else Done (set_url u p));
      url_loop fuel pack offset true p
    end
  end.

(** [struct tm], and [mktime] for it, in UTC or in the zone of the device. *)
Record tm := Tm { tm_year : Z; tm_mon : Z; tm_mday : Z; tm_hour : Z; tm_min : Z; tm_sec : Z; tm_isdst : Z }.
(** [sscanf] with conversions [%d] and other characters: the values. *)
Inductive directive := Int | Char (c : Z) | Blank.
Definition int_value (v : Z) : result Z := if (- 2 ^ 31 <=? v) && (v <? 2 ^ 31) then Done v else Fault.
Fixpoint sscanf_ints (fmt : list directive) (s : bytes) : result (list Z) :=
  match fmt with
  | [] => Done []
  | Int :: fmt =>
    match scan_int 10 (length s) s with
    | ScanOk v s => v ← int_value v; vs ← sscanf_ints fmt s; Done (v :: vs)
    | _ => Done []
    end
  | Char c :: fmt => match scan_literal [c] s with ScanOk _ s => sscanf_ints fmt s | _ => Done [] end
  | Blank :: fmt => sscanf_ints fmt (skip_spaces s)
  end.
(** "%d-%d-%dT%d:%d:%d %d:%d" *)
Definition time_format : list directive :=
  [Int; Char 45; Int; Char 45; Int; Char 84; Int; Char 58; Int; Char 58; Int; Blank; Int; Char 58; Int].

Section Reply.
Context (o : options) (popen : bytes -> option (option bytes)) (e : endian)
  (inet_aton : bytes -> option Z) (nas_hwaddr : bytes) (sysinfo : option (Z * bytes * bytes)) (cfg : dhcp_options).
Context (mainclock mainclock_rt : Z) (mktime : bool -> tm -> Z).
Abbreviation terminate_appconn := (terminate_appconn o popen e inet_aton nas_hwaddr sysinfo).
Abbreviation acct_req := (acct_req o popen e inet_aton nas_hwaddr sysinfo).
Abbreviation dhcp_release_mac := (dhcp_release_mac o popen e inet_aton nas_hwaddr sysinfo cfg mainclock mainclock_rt).
Abbreviation dhcp_freeconn := (dhcp_freeconn o popen e inet_aton nas_hwaddr sysinfo cfg mainclock mainclock_rt).
Abbreviation upprot_getip := (upprot_getip o popen e inet_aton nas_hwaddr sysinfo cfg mainclock mainclock_rt).
Abbreviation accept := (accept o popen e inet_aton nas_hwaddr sysinfo cfg mainclock).

Definition set_terminatetime (v : Z) (p : session_params) : session_params :=
  Params (url p) (filterid p) (bandwidthmaxup p) (bandwidthmaxdown p) (maxinputoctets p) (maxoutputoctets p) (start_point p)
    (data_interval p) (maxtotaloctets p) (sessiontimeout p) (idletimeout p) (interim_interval p) v (flags p).
(** When the session has to end at the latest. *)
Definition terminate_time (s : bytes) : result Z :=
  vs ← sscanf_ints time_format s;
  match vs with
  | [year; mon; day; hour; minute; sec; tzhour; tzmin] =>
    year ← int_value (year - 1900); mon ← int_value (mon - 1); hour ← int_value (hour - tzhour); minute ← int_value (minute - tzmin);
    Done (mktime true (Tm year mon day hour minute sec 0))
  | year :: mon :: day :: hour :: minute :: sec :: _ =>
    year ← int_value (year - 1900); mon ← int_value (mon - 1);
    Done (mktime false (Tm year mon day hour minute sec (-1)))
  | _ => Done 0
  end.
Definition config_time (reconfig : bool) (pack : bytes) (p : session_params) : result session_params :=
  t ← vendors pack RADIUS_VENDOR_WISPR RADIUS_ATTR_WISPR_SESSION_TERMINATE_TIME;
  time ← match t with
         | Some t => s ← attr_text pack t; terminate_time (ctext s)
         | None => Done (if reconfig then sessionterminatetime p else 0)
         end;
  Done (set_terminatetime time p).

(** Whether a text with the length [len] is [s], or begins with it. *)
Definition says (whole : bool) (pack : bytes) (t : nat) (len : Z) (s : bytes) : result bool :=
  let n := Z.of_nat (length s) in
  if (if whole then len =? n else n <=? len) then v ← read pack (t + 2) (length s); Done (bool_decide (v = s)) else Done false.
Definition or_flag (f : Z) (c : app_conn) : app_conn := set_params (fun p => set_flags (u16 (Z.lor (flags p) f)) p) c.
(** The commands of [ChilliSpot-Config]. *)
Inductive command := Require_auth | Splash | Logout | Admin_reset | Other.
Definition command_at (pack : bytes) (t : nat) : result command :=
  l ← byte_at pack (t + 1);
  let len := u32 (l - 2) in
  yes ← says true pack t len (str "require-uam-auth");
  if (yes : bool) then Done Require_auth
  else
    yes ← says true pack t len (str "splash");
    if (yes : bool) then Done Splash
    else
      yes ← says false pack t len (str "logout");
      if (yes : bool) then Done Logout
      else yes ← says false pack t len (str "admin-reset"); Done (if (yes : bool) then Admin_reset else Other).
Definition obey (w : world) (a : nat) (cmd : command) : result (world * list notice) :=
  match cmd with
  | Require_auth => w ← with_app w a (or_flag REQUIRE_UAM_AUTH); Done (w, [])
  | Splash => w ← with_app w a (or_flag REQUIRE_UAM_SPLASH); Done (w, [])
  | Logout =>
    '(w, es) ← on_session w a (fun c => terminate_appconn mainclock mainclock_rt c RADIUS_TERMINATE_CAUSE_USER_REQUEST);
    Done (w, map Of_session es)
  | Admin_reset => c ← deref (app w) a; dhcp_release_mac w (hismac c) RADIUS_TERMINATE_CAUSE_ADMIN_RESET
  | Other => Done (w, [])
  end.
Fixpoint config_loop (fuel : nat) (w : world) (a : nat) (pack : bytes) (offset : Z) : result (world * list notice) :=
  match fuel with
  | O => Fault
  | S fuel =>
    r ← radius_getnextattr pack RADIUS_ATTR_VENDOR_SPECIFIC RADIUS_VENDOR_CHILLISPOT RADIUS_ATTR_CHILLISPOT_CONFIG 0 offset;
    match r with
    | None => Done (w, [])
    | Some (t, offset) =>
      cmd ← command_at pack t;
      '(w, es) ← obey w a cmd;
      '(w, es') ← config_loop fuel w a pack offset;
      Done (w, es ++ es')
    end
  end.

Definition update_params (w : world) (a : nat) (f : session_params -> result session_params) : result world :=
  c ← deref (app w) a;
  p ← f (s_params c);
  with_app w a (set_params (fun _ => p)).
(** For the connection [a], whose parameters are set in place. *)
Definition config_radius_session (w : world) (a : nat) (pack : bytes) (reconfig : bool) : result (world * list notice) :=
  w ← update_params w a (config_values reconfig pack);
  '(w, es) ← config_loop (S (length pack)) w a pack 0;
  w ← update_params w a (fun p =>
    p ← url_loop (S (length pack)) pack 0 false p;
    p ← config_time reconfig pack p;
    Done (session_param_defaults o p));
  Done (w, es).

(** ** Answers to requests *)

Definition cb_radius_acct_conf (w : world) (a : nat) (pack : option bytes) : result (world * list notice) :=
  match pack with
  | None => Done (w, [])
  | Some pack => config_radius_session w a pack true
  end.

(** The answer for the administrative session; the file that is rewritten when its
    contents differ is left out. *)
Definition chilliauth_cb (w : world) (pack : bytes) : result (world * list notice) :=
  code ← pk_code pack;
  if negb (code =? RADIUS_CODE_ACCESS_ACCEPT) then Done (w, [])
  else
    es ← match adminupdatefile cfg with
         | None => Done []
         | Some _ =>
           r ← vendors pack RADIUS_VENDOR_CHILLISPOT RADIUS_ATTR_CHILLISPOT_CONFIG;
           Done (match r with Some _ => [Admin_config] | None => [] end)
         end;
    let c := admin_session (app w) in
    '(c, es') ← (if authenticated (s_state c) =? 0
                 then acct_req mainclock (set_state (set_authenticated 1) c) RADIUS_STATUS_TYPE_START
                 else Done (c, []));
    let c := set_params (fun p =>
      Params (url p) (filterid p) (bandwidthmaxup p) (bandwidthmaxdown p) (maxinputoctets p) (maxoutputoctets p) (start_point p)
        (data_interval p) (maxtotaloctets p) 0 0 (interim_interval p) 0 (flags p)) c in
    Done (set_app (set_admin c (app w)) w, es ++ map Of_session es').

(** [Framed-IP-Address] and its mask, [None] when one of them has the wrong length;
    otherwise whether there is one, the address and the mask. *)
Definition framed (pack : bytes) (type vtype : Z) : result (option nat) :=
  t ← plain pack type;
  match t with Some _ => Done t | None => vendors pack RADIUS_VENDOR_CHILLISPOT vtype end.
Definition framed_ip (pack : bytes) (reqip : Z) : result (option (bool * Z * Z)) :=
  t ← framed pack RADIUS_ATTR_FRAMED_IP_ADDRESS RADIUS_ATTR_CHILLISPOT_DHCP_IP_ADDRESS;
  match t with
  | None => Done (Some (false, reqip, 0))
  | Some t =>
    l ← byte_at pack (t + 1);
    if negb (l =? 6) then Done None
    else
      ip ← attr_i pack t;
      t ← framed pack RADIUS_ATTR_FRAMED_IP_NETMASK RADIUS_ATTR_CHILLISPOT_DHCP_IP_NETMASK;
      match t with
      | None => Done (Some (true, word_val e ip, 0))
      | Some t =>
        l ← byte_at pack (t + 1);
        if negb (l =? 6) then Done None else mask ← attr_i pack t; Done (Some (true, word_val e ip, word_val e mask))
      end
  end.
(** "Force the assigment of an IP address.": the client starts again with a connection
    that has none; [dhcpconn] is the variable of the caller, which then has the new one. *)
Definition force_ip (alloc : bool * bool) (w : world) (a : nat) (dhcpconn : option nat) (hisip : Z) : result (option nat * world * list notice) :=
  l ← linkof w a;
  match uplink l with
  | None => Done (dhcpconn, w, [])
  | Some m =>
    x ← access (IpPool.member (pool w) !! m);
    if negb (hisip =? 0) && negb (IpPool.addr x =? hisip) then
      d ← access dhcpconn;
      dc ← dcell w d;
      '(w, es) ← dhcp_freeconn w d 0;
      '(r, w', es') ← dhcp_newconn cfg mainclock mainclock_rt alloc w (d_hismac dc);
      d ← match r with
          | Some d => Done d
          | None => if d_connections (dhcp w) =? max_clients cfg then Done d else Fault
          end;
      w ← with_app w' a (set_dnprot DNPROT_MAC);
      w ← with_link w a (set_authtype PAP_PASSWORD);
      w ← with_dcell w d (set_auth DHCP_AUTH_DNAT);
      Done (Some d, w, es ++ es')
    else Done (dhcpconn, w, [])
  end.

(** An attribute of the vendor, as text and as an address. *)
Definition on_text (pack : bytes) (type : Z) (f : world -> bytes -> result world) (w : world) : result world :=
  t ← vendors pack RADIUS_VENDOR_CHILLISPOT type;
  match t with Some t => v ← attr_text pack t; f w v | None => Done w end.
Definition on_word (pack : bytes) (type : Z) (f : world -> Z -> result world) (w : world) : result world :=
  t ← vendors pack RADIUS_VENDOR_CHILLISPOT type;
  match t with
  | Some t =>
    l ← byte_at pack (t + 1);
    if l =? 6 then i ← attr_i pack t; f w (word_val e i) else Done w
  | None => Done w
  end.
(** [memcpy] to the start of an array of this length. *)
Definition copy_into (size : nat) (array v : bytes) : result bytes :=
  if (length v <=? size)%nat then Done (v ++ drop (length v) array) else Fault.
Definition with_opts (w : world) (d : nat) (f : dhcp_opts_t -> result dhcp_opts_t) : result world :=
  x ← dcell w d;
  q ← f (dhcp_opts x);
  with_dcell w d (fun c => set_told (d_ourip c) (d_dns1 c) (d_dns2 c) (domain c) q c).
(** With [dhcpradius], what the DHCP server will tell the client comes from the reply. *)
Definition dhcp_reply (w : world) (a d : nat) (pack : bytes) : result world :=
  w ← on_text pack RADIUS_ATTR_CHILLISPOT_DHCP_SERVER_NAME (fun w v =>
    with_opts w d (fun q => s ← copy_into DHCP_SNAME_LEN (o_sname q) v; Done (Opts s (o_file q) (o_options q)))) w;
  w ← on_text pack RADIUS_ATTR_CHILLISPOT_DHCP_FILENAME (fun w v =>
    with_opts w d (fun q => s ← copy_into DHCP_FILE_LEN (o_file q) v; Done (Opts (o_sname q) s (o_options q)))) w;
  w ← on_text pack RADIUS_ATTR_CHILLISPOT_DHCP_OPTION (fun w v =>
    with_opts w d (fun q => if (length v <=? DHCP_OPTIONS_LEN)%nat then Done (Opts (o_sname q) (o_file q) v) else Fault)) w;
  w ← on_word pack RADIUS_ATTR_CHILLISPOT_DHCP_DNS1 (fun w i =>
    w ← with_link w a (set_dns (fun _ => i) id);
    with_dcell w d (fun c => set_told (d_ourip c) i (d_dns2 c) (domain c) (dhcp_opts c) c)) w;
  w ← on_word pack RADIUS_ATTR_CHILLISPOT_DHCP_DNS2 (fun w i =>
    w ← with_link w a (set_dns id (fun _ => i));
    with_dcell w d (fun c => set_told (d_ourip c) (d_dns1 c) i (domain c) (dhcp_opts c) c)) w;
  w ← on_word pack RADIUS_ATTR_CHILLISPOT_DHCP_GATEWAY (fun w i =>
    w ← with_link w a (set_ourip i);
    with_dcell w d (fun c => set_told i (d_dns1 c) (d_dns2 c) (domain c) (dhcp_opts c) c)) w;
  on_text pack RADIUS_ATTR_CHILLISPOT_DHCP_DOMAIN (fun w v =>
    if (length v <? DHCP_DOMAIN_LEN)%nat
    then with_dcell w d (fun c => set_told (d_ourip c) (d_dns1 c) (d_dns2 c) (ctext v) (dhcp_opts c) c)
    else Done w) w.

(** The pieces of an EAP message; whether there was room for them. *)
Fixpoint eap_loop (fuel : nat) (pack : bytes) (instance : Z) (chal : bytes) : result (bool * bytes) :=
  match fuel with
  | O => Fault
  | S fuel =>
    t ← radius_getattr pack RADIUS_ATTR_EAP_MESSAGE 0 0 instance;
    match t with
    | None => Done (true, chal)
    | Some t =>
      s ← attr_text pack t;
      if MAX_EAP_LEN <? Z.of_nat (length chal + length s) then Done (false, chal)
      else eap_loop fuel pack (instance + 1) (chal ++ s)
    end
  end.
Definition eap_message (w : world) (a : nat) (pack : bytes) : result (bool * world) :=
  '(ok, chal) ← eap_loop (S (length pack)) pack 0 [];
  w ← with_link w a (fun l => set_radproxy (let p := radproxy l in
    Proxy chal (sendkey p) (sendlen p) (recvkey p) (recvlen p) (lmntkeys p) (lmntlen p) (policy p) (types p) (ms2succ p)) l);
  Done (ok, w).

(** [radius_keydecode] and [radius_pwdecode] of a key in the packet. *)
Section Keys.
Context `{Digest} (secret req_auth : bytes).
Definition key_attr (dst : bytes) (pack : bytes) (attr : option nat) : result (bool * bytes * option Z) :=
  match attr with
  | None => Done (true, dst, None)
  | Some t =>
    l ← byte_at pack (t + 1);
    '(r, dst, n) ← radius_keydecode dst RADIUS_ATTR_VLEN (drop (t + 2) pack) (u32 (l - 2)) req_auth secret;
    Done (r =? 0, dst, Some n)
  end.
Definition pw_attr (dst : bytes) (pack : bytes) (attr : option nat) : result (bool * bytes * option Z) :=
  match attr with
  | None => Done (true, dst, None)
  | Some t =>
    l ← byte_at pack (t + 1);
    '(r, dst, n) ← radius_pwdecode dst (Z.of_nat RADIUS_MPPEKEYSSIZE) (drop (t + 2) pack) (u32 (l - 2)) req_auth secret;
    Done (r =? 0, dst, Some n)
  end.
Definition number_attr (pack : bytes) (attr : option nat) (old : Z) : result Z :=
  match attr with None => Done old | Some t => i ← attr_i pack t; Done (be_val i) end.

(** The keys for an access point, and whether all of them could be decoded. *)
Definition proxy_keys (pack : bytes) (p : proxy) : result (bool * proxy) :=
  t ← vendors pack RADIUS_VENDOR_MS RADIUS_ATTR_MS_MPPE_SEND_KEY;
  '(ok, k, n) ← key_attr (sendkey p) pack t;
  let p := Proxy (chal p) k (default (sendlen p) n) (recvkey p) (recvlen p) (lmntkeys p) (lmntlen p) (policy p) (types p) (ms2succ p) in
  if negb ok then Done (false, p)
  else
    t ← vendors pack RADIUS_VENDOR_MS RADIUS_ATTR_MS_MPPE_RECV_KEY;
    '(ok, k, n) ← key_attr (recvkey p) pack t;
    let p := Proxy (chal p) (sendkey p) (sendlen p) k (default (recvlen p) n) (lmntkeys p) (lmntlen p) (policy p) (types p) (ms2succ p) in
    if negb ok then Done (false, p)
    else
      t ← vendors pack RADIUS_VENDOR_MS RADIUS_ATTR_MS_CHAP_MPPE_KEYS;
      '(ok, k, n) ← pw_attr (lmntkeys p) pack t;
      let p := Proxy (chal p) (sendkey p) (sendlen p) (recvkey p) (recvlen p) k (default (lmntlen p) n) (policy p) (types p) (ms2succ p) in
      if negb ok then Done (false, p)
      else
        t ← vendors pack RADIUS_VENDOR_MS RADIUS_ATTR_MS_MPPE_ENCRYPTION_POLICY;
        pol ← number_attr pack t (policy p);
        t ← vendors pack RADIUS_VENDOR_MS RADIUS_ATTR_MS_MPPE_ENCRYPTION_TYPES;
        typ ← number_attr pack t (types p);
        t ← vendors pack RADIUS_VENDOR_MS RADIUS_ATTR_MS_CHAP2_SUCCESS;
        '(ok, s) ← match t with
          | None => Done (true, ms2succ p)
          | Some t =>
            l ← byte_at pack (t + 1);
            if negb (l - 5 =? Z.of_nat MS2SUCCSIZE) then Done (false, ms2succ p)
            else s ← read pack (t + 2 + 3) MS2SUCCSIZE; Done (true, s)
          end;
        Done (ok, Proxy (chal p) (sendkey p) (sendlen p) (recvkey p) (recvlen p) (lmntkeys p) (lmntlen p) pol typ s).
(** Whether what the kind of login needs is there. *)
Definition authtype_ok (pack : bytes) (l : link) : result bool :=
  if (authtype l =? PAP_PASSWORD) || (authtype l =? CHAP_DIGEST_MD5) then Done true
  else if authtype l =? EAP_MESSAGE then Done (negb (bool_decide (chal (radproxy l) = [])))
  else if authtype l =? CHAP_MICROSOFT then
    k ← vendors pack RADIUS_VENDOR_MS RADIUS_ATTR_MS_CHAP_MPPE_KEYS;
    s ← vendors pack RADIUS_VENDOR_MS RADIUS_ATTR_MS_CHAP2_SUCCESS;
    Done (bool_decide (k <> None) && bool_decide (s <> None))
  else if authtype l =? CHAP_MICROSOFT_V2 then
    k ← vendors pack RADIUS_VENDOR_MS RADIUS_ATTR_MS_MPPE_SEND_KEY;
    r ← vendors pack RADIUS_VENDOR_MS RADIUS_ATTR_MS_MPPE_RECV_KEY;
    Done (bool_decide (k <> None) && bool_decide (r <> None))
  else Done false.

Definition reject (w : world) (a : nat) : result (world * list notice) := on_session w a (fun c => Done (dnprot_reject cfg c)).
Definition set_statebuf (v : bytes) (c : app_conn) : app_conn :=
  set_state (set_redir (fun r => Redir (username r) (userurl r) (classbuf r) (cuibuf r) v)) c.
Definition set_classbuf (v : bytes) (c : app_conn) : app_conn :=
  set_state (set_redir (fun r => Redir (username r) (userurl r) v (cuibuf r) (statebuf r))) c.
(** [challen], [sendlen], [recvlen] and [lmntlen] become 0. *)
Definition clear_lengths (l : link) : link :=
  set_radproxy (let p := radproxy l in Proxy [] (sendkey p) 0 (recvkey p) 0 (lmntkeys p) 0 (policy p) (types p) (ms2succ p)) l.

(** ACCESS-ACCEPT. *)
Definition access_accept (w : world) (a : nat) (pack : bytes) (hisip hismask : Z) : result (world * list notice) :=
  t ← plain pack RADIUS_ATTR_CLASS;
  class ← match t with Some t => attr_text pack t | None => Done [] end;
  w ← with_app w a (set_classbuf class);
  '(w, es) ← config_radius_session w a pack false;
  c ← deref (app w) a;
  if is_adminsession c then '(w, es') ← chilliauth_cb w pack; Done (w, es ++ es')
  else
    late ← (if negb (sessionterminatetime (s_params c) =? 0) then
              d ← mainclock_rtdiff mainclock_rt (sessionterminatetime (s_params c)); Done (0 <? d)
            else Done false);
    '(w, es') ← (if (late : bool) then reject w a
      else
        '(ok, w) ← eap_message w a pack;
        if negb ok then reject w a
        else
          l ← linkof w a;
          '(ok, p) ← proxy_keys pack (radproxy l);
          w ← with_link w a (set_radproxy p);
          if negb ok then reject w a
          else
            l ← linkof w a;
            ok ← authtype_ok pack l;
            if (ok : bool) then upprot_getip w a (Some hisip) hismask else reject w a);
    Done (w, es ++ es').
(** The reply to the request for the connection [a], or [None] when there was none. *)
Definition cb_radius_auth_conf (alloc : bool * bool) (w : world) (a : nat) (pack : option bytes) : result (world * list notice) :=
  w ← with_app w a (set_statebuf []);
  w ← with_link w a clear_lengths;
  match pack with
  | None =>
    if noradallow cfg then
      w ← update_params w a (fun p => Done (session_param_defaults o p));
      upprot_getip w a None 0
    else reject w a
  | Some pack =>
    l ← linkof w a;
    ip ← framed_ip pack (reqip l);
    match ip with
    | None => reject w a
    | Some (force, hisip, hismask) =>
      '(d, w, es) ← (if (force : bool) then force_ip alloc w a (downlink l) hisip else Done (downlink l, w, []));
      w ← match d with Some d => if dhcpradius cfg then dhcp_reply w a d pack else Done w | None => Done w end;
      code ← pk_code pack;
      '(w, es') ← (if code =? RADIUS_CODE_ACCESS_REJECT then
          '(w, es) ← config_radius_session w a pack false;
          '(w, es') ← reject w a;
          Done (w, es ++ es')
        else
          t ← plain pack RADIUS_ATTR_STATE;
          w ← match t with Some t => s ← attr_text pack t; with_app w a (set_statebuf s) | None => Done w end;
          if code =? RADIUS_CODE_ACCESS_CHALLENGE then
            '(ok, w) ← eap_message w a pack;
            l ← linkof w a;
            if negb ok || bool_decide (chal (radproxy l) = []) then reject w a
            else
              c ← deref (app w) a;
              Done (w, if dnprot c =? DNPROT_WPA then [Access_challenge (chal (radproxy l))] else [])
          else if negb (code =? RADIUS_CODE_ACCESS_ACCEPT) then reject w a
          else access_accept w a pack hisip hismask);
      Done (w, es ++ es')
    end
  end.
End Keys.

(** ** Requests of the server *)

Definition tolower (c : Z) : Z := if isupper c then c + 32 else c.
(** The sessions a request is about: with the name of the user and, if the request has
    one, the identifier of the session. *)
Definition coa_matches (user : bytes) (session : option bytes) (c : app_conn) : bool :=
  bool_decide (username (redir (s_state c)) = user) &&
  match session with
  | None => true
  | Some s => bool_decide (map tolower (sessionid (s_state c)) = map tolower s)
  end.
(** What is done with one of them; [authorize] is set for the first one that is to be
    logged in, and stays. *)
Definition coa_session (w : world) (a : nat) (pack : bytes) (iscoa authorize : bool) : result (world * list notice * bool) :=
  '(w, es, authorize) ← (if iscoa then
      t ← vendors pack RADIUS_VENDOR_CHILLISPOT RADIUS_ATTR_CHILLISPOT_SESSION_STATE;
      match t with
      | None => Done (w, [], authorize)
      | Some t =>
        v ← attr_i pack t;
        c ← deref (app w) a;
        if be_val v =? RADIUS_VALUE_CHILLISPOT_SESSION_AUTH then
          Done (w, [], if authenticated (s_state c) =? 0 then true else authorize)
        else if (be_val v =? RADIUS_VALUE_CHILLISPOT_SESSION_NOAUTH) && negb (authenticated (s_state c) =? 0) then
          '(w, es) ← on_session w a (fun c => terminate_appconn mainclock mainclock_rt c RADIUS_TERMINATE_CAUSE_USER_REQUEST);
          Done (w, map Of_session es, authorize)
        else Done (w, [], authorize)
      end
    else
      '(w, es) ← on_session w a (fun c => terminate_appconn mainclock mainclock_rt c RADIUS_TERMINATE_CAUSE_ADMIN_RESET);
      Done (w, map Of_session es, authorize));
  '(w, es') ← config_radius_session w a pack false;
  '(w, es'') ← (if (authorize : bool) then accept w a else Done (w, []));
  Done (w, es ++ es' ++ es'', authorize).
Fixpoint coa_loop (fuel : nat) (w : world) (p : option nat) (pack user : bytes) (session : option bytes) (iscoa authorize found : bool)
    : result (world * list notice * bool) :=
  match p with
  | None => Done (w, [], found)
  | Some a =>
    match fuel with
    | O => Fault
    | S fuel =>
      c ← deref (app w) a;
      '(w, es, authorize, found) ← (if coa_matches user session c then
          '(w, es, authorize) ← coa_session w a pack iscoa authorize; Done (w, es, authorize, true)
        else Done (w, [], authorize, found));
      c ← deref (app w) a;
      '(w, es', found) ← coa_loop fuel w (next c) pack user session iscoa authorize found;
      Done (w, es ++ es', found)
    end
  end.
(** Whether the return value is 0; the packet that is sent is only named. *)
Definition cb_radius_coa_ind (w : world) (pack : bytes) : result (bool * world * list notice) :=
  code ← pk_code pack;
  if negb (code =? RADIUS_CODE_DISCONNECT_REQUEST) && negb (code =? RADIUS_CODE_COA_REQUEST) then Done (false, w, [])
  else
    let iscoa := code =? RADIUS_CODE_COA_REQUEST in
    u ← plain pack RADIUS_ATTR_USER_NAME;
    match u with
    | None => Done (false, w, [])
    | Some u =>
      user ← attr_text pack u;
      s ← plain pack RADIUS_ATTR_ACCT_SESSION_ID;
      session ← match s with Some s => v ← attr_text pack s; Done (Some v) | None => Done None end;
      '(w, es, found) ← coa_loop (length (heap (app w))) w (firstusedconn (app w)) pack user session iscoa false false;
      id ← pk_id pack;
      let answer := if (found : bool) then (if iscoa then RADIUS_CODE_COA_ACK else RADIUS_CODE_DISCONNECT_ACK)
                    else (if iscoa then RADIUS_CODE_COA_NAK else RADIUS_CODE_DISCONNECT_NAK) in
      Done (true, w, es ++ [Coa_answer answer id])
    end.
End Reply.

(** ** What a packet grants *)

(** The value of the first attribute of a type, or of a vendor's type. *)
Definition pattr (l : list attr) (type : Z) : option bytes := head (values type 0 0 l).
Definition vattr (l : list attr) (vendor type : Z) : option bytes := head (values RADIUS_ATTR_VENDOR_SPECIFIC vendor type l).

Definition int_of (v : bytes) : Z := be_val (take 4 v).
Definition int_spec (reconfig : bool) (v : option bytes) (old : Z) : Z :=
  match v with Some v => int_of v | None => if reconfig then old else 0 end.
Definition giga_spec (v : option bytes) (old : Z) : Z :=
  match v with Some v => Z.lor old (u64 (Z.shiftl (int_of v) 32)) | None => old end.
Definition interim_spec (reconfig : bool) (v : option bytes) (old : Z) : Z :=
  match v with Some v => if u16 (int_of v) <? 60 then 0 else u16 (int_of v) | None => if reconfig then old else 0 end.
Definition kilo_spec (v : option bytes) (old : Z) : Z := match v with Some v => u32 (int_of v * 1000) | None => old end.

Definition value_spec (reconfig : bool) (l : list attr) (p : session_params) : session_params :=
  let chilli := vattr l RADIUS_VENDOR_CHILLISPOT in
  let wispr := vattr l RADIUS_VENDOR_WISPR in
  let int v old := int_spec reconfig v old in
  Params
    (match chilli RADIUS_ATTR_CHILLISPOT_REQUIRE_UAM with Some v => ctext v | None => url p end)
    (match pattr l RADIUS_ATTR_FILTER_ID with Some v => v | None => if reconfig then filterid p else [] end)
    (kilo_spec (chilli RADIUS_ATTR_CHILLISPOT_BANDWIDTH_MAX_UP) (int (wispr RADIUS_ATTR_WISPR_BANDWIDTH_MAX_UP) (bandwidthmaxup p)))
    (kilo_spec (chilli RADIUS_ATTR_CHILLISPOT_BANDWIDTH_MAX_DOWN) (int (wispr RADIUS_ATTR_WISPR_BANDWIDTH_MAX_DOWN) (bandwidthmaxdown p)))
    (giga_spec (chilli RADIUS_ATTR_CHILLISPOT_MAX_INPUT_GIGAWORDS) (int (chilli RADIUS_ATTR_CHILLISPOT_MAX_INPUT_OCTETS) (maxinputoctets p)))
    (giga_spec (chilli RADIUS_ATTR_CHILLISPOT_MAX_OUTPUT_GIGAWORDS) (int (chilli RADIUS_ATTR_CHILLISPOT_MAX_OUTPUT_OCTETS) (maxoutputoctets p)))
    (int (chilli RADIUS_ATTR_CHILLISPOT_START_POINT) (start_point p))
    (int (chilli RADIUS_ATTR_CHILLISPOT_DATA_INTERVAL) (data_interval p))
    (giga_spec (chilli RADIUS_ATTR_CHILLISPOT_MAX_TOTAL_GIGAWORDS) (int (chilli RADIUS_ATTR_CHILLISPOT_MAX_TOTAL_OCTETS) (maxtotaloctets p)))
    (int (pattr l RADIUS_ATTR_SESSION_TIMEOUT) (sessiontimeout p))
    (int (pattr l RADIUS_ATTR_IDLE_TIMEOUT) (idletimeout p))
    (interim_spec reconfig (pattr l RADIUS_ATTR_ACCT_INTERIM_INTERVAL) (interim_interval p))
    (sessionterminatetime p) (flags p).

(** The pieces of the address for redirections are put together, as long as there is
    room. *)
Fixpoint add_urls (seen : bool) (vs : list bytes) (p : session_params) : session_params :=
  match vs with
  | [] => p
  | v :: vs =>
    let u := if seen then url p else [] in
    let text := take (Z.to_nat (REDIR_USERURLSIZE - 1) - length u) v in
    add_urls true vs (if bool_decide (text = []) then set_url u p
                      else set_flags (u16 (Z.lor (flags p) UAM_CLEAR_URL)) (set_url (u ++ ctext text) p))
  end.

Definition begins_with (s v : bytes) : bool := bool_decide (take (length s) v = s).
Definition command_of (v : bytes) : command :=
  if bool_decide (v = str "require-uam-auth") then Require_auth
  else if bool_decide (v = str "splash") then Splash
  else if begins_with (str "logout") v then Logout
  else if begins_with (str "admin-reset") v then Admin_reset
  else Other.
Definition commands (l : list attr) : list command :=
  map command_of (values RADIUS_ATTR_VENDOR_SPECIFIC RADIUS_VENDOR_CHILLISPOT RADIUS_ATTR_CHILLISPOT_CONFIG l).

(** The attributes that are read as integers have four bytes, and vendors' attributes
    have the length they claim. *)
Definition plain_ints : list Z := [RADIUS_ATTR_SESSION_TIMEOUT; RADIUS_ATTR_IDLE_TIMEOUT; RADIUS_ATTR_ACCT_INTERIM_INTERVAL].
Definition wispr_ints : list Z := [RADIUS_ATTR_WISPR_BANDWIDTH_MAX_UP; RADIUS_ATTR_WISPR_BANDWIDTH_MAX_DOWN].
Definition chilli_ints : list Z :=
  [RADIUS_ATTR_CHILLISPOT_MAX_INPUT_OCTETS; RADIUS_ATTR_CHILLISPOT_MAX_OUTPUT_OCTETS; RADIUS_ATTR_CHILLISPOT_MAX_TOTAL_OCTETS;
   RADIUS_ATTR_CHILLISPOT_BANDWIDTH_MAX_UP; RADIUS_ATTR_CHILLISPOT_BANDWIDTH_MAX_DOWN; RADIUS_ATTR_CHILLISPOT_SESSION_STATE;
   RADIUS_ATTR_CHILLISPOT_MAX_INPUT_GIGAWORDS; RADIUS_ATTR_CHILLISPOT_MAX_OUTPUT_GIGAWORDS; RADIUS_ATTR_CHILLISPOT_MAX_TOTAL_GIGAWORDS;
   RADIUS_ATTR_CHILLISPOT_START_POINT; RADIUS_ATTR_CHILLISPOT_DATA_INTERVAL].
Record attrs_ok (l : list attr) : Prop := {
  ra_wispr_vsa : Forall (vsa_ok RADIUS_VENDOR_WISPR) l;
  ra_chilli_vsa : Forall (vsa_ok RADIUS_VENDOR_CHILLISPOT) l;
  ra_plain : Forall (fun type => from_option (fun v => (4 <= length v)%nat) True (pattr l type)) plain_ints;
  ra_wispr : Forall (fun type => from_option (fun v => (4 <= length v)%nat) True (vattr l RADIUS_VENDOR_WISPR type)) wispr_ints;
  ra_chilli : Forall (fun type => from_option (fun v => (4 <= length v)%nat) True (vattr l RADIUS_VENDOR_CHILLISPOT type)) chilli_ints;
}.

Section Grants.
Context (p : bytes) (code id : Z) (auth : bytes) (l : list attr) (Hp : packet p code id auth l) (Hl : attrs_ok l).

(** What a search for an attribute finds. *)
Definition finds (r : result (option nat)) (v : option bytes) : Prop :=
  match v with Some v => exists t, r = Done (Some t) /\ holds p t v | None => r = Done None end.
Lemma plain_finds type : finds (plain p type) (pattr l type).
Proof using Hp Hl. apply (attr_found p code id auth l type 0 0 Hp). lia. Qed.
Lemma vendors_finds vendor type : Forall (vsa_ok vendor) l -> finds (vendors p vendor type) (vattr l vendor type).
Proof using Hp. intros Hv. by apply (attr_found p code id auth l RADIUS_ATTR_VENDOR_SPECIFIC vendor type Hp). Qed.
Lemma wispr_finds type : finds (vendors p RADIUS_VENDOR_WISPR type) (vattr l RADIUS_VENDOR_WISPR type).
Proof using Hp Hl. apply vendors_finds, Hl. Qed.
Lemma chilli_finds type : finds (vendors p RADIUS_VENDOR_CHILLISPOT type) (vattr l RADIUS_VENDOR_CHILLISPOT type).
Proof using Hp Hl. apply vendors_finds, Hl. Qed.

Lemma attr_i_ok t v : holds p t v -> (4 <= length v)%nat -> attr_i p t = Done (take 4 v).
Proof using. intros [_ H] Hv. by apply H. Qed.
Lemma attr_text_ok t v : holds p t v -> attr_text p t = Done v.
Proof using.
  intros [H1 H2]. unfold attr_text. rewrite H1. obind. rewrite (proj2 (Z.ltb_ge _ _)) by lia.
  replace (Z.to_nat (Z.of_nat (length v) + 2 - 2)) with (length v) by lia. by rewrite H2, take_ge.
Qed.
Lemma int_attr_ok reconfig r v old : finds r v -> from_option (fun v => (4 <= length v)%nat) True v ->
  int_attr reconfig p r old = Done (int_spec reconfig v old).
Proof using. intros Hf Hv. unfold int_attr. destruct v as [v|]; cbn in *; [destruct Hf as (t & -> & Hh); obind; by rewrite (attr_i_ok t v)|by rewrite Hf]. Qed.
Lemma interim_attr_ok reconfig r v old : finds r v -> from_option (fun v => (4 <= length v)%nat) True v ->
  interim_attr reconfig p r old = Done (interim_spec reconfig v old).
Proof using. intros Hf Hv. unfold interim_attr. destruct v as [v|]; cbn in *; [destruct Hf as (t & -> & Hh); obind; by rewrite (attr_i_ok t v)|by rewrite Hf]. Qed.
Lemma gigawords_ok r v old : finds r v -> from_option (fun v => (4 <= length v)%nat) True v -> gigawords p r old = Done (giga_spec v old).
Proof using. intros Hf Hv. unfold gigawords. destruct v as [v|]; cbn in *; [destruct Hf as (t & -> & Hh); obind; by rewrite (attr_i_ok t v)|by rewrite Hf]. Qed.
Lemma kilobits_ok r v old : finds r v -> from_option (fun v => (4 <= length v)%nat) True v -> kilobits p r old = Done (kilo_spec v old).
Proof using. intros Hf Hv. unfold kilobits. destruct v as [v|]; cbn in *; [destruct Hf as (t & -> & Hh); obind; by rewrite (attr_i_ok t v)|by rewrite Hf]. Qed.
Lemma text_attr_ok r v f old : finds r v -> text_attr_of p r f old = Done (match v with Some v => f v | None => old end).
Proof using. intros Hf. unfold text_attr_of. destruct v as [v|]; cbn in *; [destruct Hf as (t & -> & Hh); obind; by rewrite (attr_text_ok t v)|by rewrite Hf]. Qed.

Lemma config_values_ok reconfig q : config_values reconfig p q = Done (value_spec reconfig l q).
Proof using Hp Hl.
  destruct Hl as [_ _ H1 H2 H3]. unfold plain_ints in H1. unfold wispr_ints in H2. unfold chilli_ints in H3.
  repeat match goal with H : Forall _ (_ :: _) |- _ => apply Forall_cons in H as [? H] end.
  unfold config_values. cbv zeta.
  repeat first
    [ rewrite (int_attr_ok _ _ _ _ (plain_finds _)) by done; obind
    | rewrite (int_attr_ok _ _ _ _ (wispr_finds _)) by done; obind
    | rewrite (int_attr_ok _ _ _ _ (chilli_finds _)) by done; obind
    | rewrite (kilobits_ok _ _ _ (wispr_finds _)) by done; obind
    | rewrite (kilobits_ok _ _ _ (chilli_finds _)) by done; obind
    | rewrite (gigawords_ok _ _ _ (wispr_finds _)) by done; obind
    | rewrite (gigawords_ok _ _ _ (chilli_finds _)) by done; obind
    | rewrite (text_attr_ok _ _ _ _ (plain_finds _)); obind
    | rewrite (text_attr_ok _ _ _ _ (chilli_finds _)); obind
    | rewrite (interim_attr_ok _ _ _ _ (plain_finds _)) by done; obind ].
  done.
Qed.

Lemma next_value l1 l2 vendor type : Forall (vsa_ok vendor) l -> l = l1 ++ l2 ->
  let r := radius_getnextattr p RADIUS_ATTR_VENDOR_SPECIFIC vendor type 0 (Z.of_nat (length (encode_all l1))) in
  match values RADIUS_ATTR_VENDOR_SPECIFIC vendor type l2 with
  | [] => r = Done None
  | v :: vs => exists t l1' l2', r = Done (Some (t, Z.of_nat (length (encode_all l1')))) /\ l = l1' ++ l2' /\ (length l2' < length l2)%nat /\
      holds p t v /\ values RADIUS_ATTR_VENDOR_SPECIFIC vendor type l2' = vs /\ (length v <= 253)%nat
  end.
Proof using Hp Hl.
  intros Hv E r. pose proof Hp as Hp'. rewrite E in Hp', Hv.
  pose proof (next_found p code id auth l1 l2 RADIUS_ATTR_VENDOR_SPECIFIC vendor type Hp' (fun _ => Hv)) as H. cbv zeta in H.
  assert (Hle : Forall (fun v => (length v <= 253)%nat) (values RADIUS_ATTR_VENDOR_SPECIFIC vendor type l2)).
  { unfold values. apply Forall_map, Forall_forall. intros a Ha. apply list_elem_of_In, filter_In in Ha as [Ha _].
    pose proof (pa_ok _ _ _ _ _ Hp') as Hok. rewrite Forall_app in Hok. destruct Hok as [_ Hok]. rewrite Forall_forall in Hok.
    apply list_elem_of_In, Hok in Ha. pose proof (ao_length _ Ha). unfold compose, carried. destruct (_ && _); rewrite ?length_drop; lia. }
  destruct (values _ _ _ l2) as [|v vs]; [done|]. destruct H as (t & l1' & l2' & Hr & E' & Hlt & Hh & Hvs). exists t, l1', l2'.
  apply Forall_cons in Hle as [Hle _]. rewrite E. split; [done|]. split; [done|]. split; [|done].
  pose proof (f_equal length E') as F. rewrite !length_app in F. lia.
Qed.

Lemma says_ok whole t v s : holds p t v -> says whole p t (Z.of_nat (length v)) s = Done (if whole then bool_decide (v = s) else begins_with s v).
Proof using.
  intros [_ Hr]. unfold says, begins_with. destruct whole.
  - destruct (Z.eqb_spec (Z.of_nat (length v)) (Z.of_nat (length s))) as [E|E].
    + rewrite Hr by lia. obind. by rewrite take_ge by lia.
    + rewrite bool_decide_false; [done|]. intros ->. lia.
  - destruct (Z.leb_spec (Z.of_nat (length s)) (Z.of_nat (length v))); [by rewrite Hr by lia|].
    rewrite bool_decide_false; [done|]. intros E. apply (f_equal length) in E. rewrite length_take in E. lia.
Qed.
Lemma command_at_ok t v : holds p t v -> (length v <= 253)%nat -> command_at p t = Done (command_of v).
Proof using.
  intros Hh Hle. pose proof Hh as [Hlen _]. unfold command_at. rewrite Hlen. obind. cbv zeta.
  replace (u32 (Z.of_nat (length v) + 2 - 2)) with (Z.of_nat (length v)) by (rewrite u32_small; [lia|unfold is_u32, in_w; lia]).
  rewrite !(says_ok _ t v _ Hh). obind. unfold command_of. destruct (bool_decide (v = str "require-uam-auth")); [done|].
  obind. destruct (bool_decide (v = str "splash")); [done|]. obind. destruct (begins_with (str "logout") v); [done|]. obind.
  by destruct (begins_with (str "admin-reset") v).
Qed.

Lemma length_ctext (s : bytes) : (length (ctext s) <= length s)%nat.
Proof using. unfold ctext. destruct (find_from _ s) as [[n x]|]; [rewrite length_take; lia|done]. Qed.
Lemma url_loop_ok fuel l1 l2 seen q : l = l1 ++ l2 -> (length l2 < fuel)%nat -> (seen = true -> Z.of_nat (length (url q)) <= REDIR_USERURLSIZE - 1) ->
  url_loop fuel p (Z.of_nat (length (encode_all l1))) seen q =
  Done (add_urls seen (values RADIUS_ATTR_VENDOR_SPECIFIC RADIUS_VENDOR_WISPR RADIUS_ATTR_WISPR_REDIRECTION_URL l2) q).
Proof using Hp Hl.
  revert l1 l2 seen q. induction fuel as [|fuel IH]; intros l1 l2 seen q E Hf Hu; [lia|]. cbn [url_loop].
  pose proof (next_value l1 l2 RADIUS_VENDOR_WISPR RADIUS_ATTR_WISPR_REDIRECTION_URL (ra_wispr_vsa l Hl) E) as H. cbv zeta in H.
  destruct (values _ _ _ l2) as [|v vs]; [by rewrite H|]. destruct H as (t & l1' & l2' & -> & E' & Hlt & [Hlen Hread] & <- & Hle). obind.
  rewrite Hlen. obind. cbn [add_urls]. set (u := if seen then url q else []).
  assert (Hclen : Z.of_nat (length u) <= REDIR_USERURLSIZE - 1) by (unfold u; destruct seen; [by apply Hu|cbn; unfold REDIR_USERURLSIZE; lia]).
  clearbody u. unfold REDIR_USERURLSIZE in *.
  rewrite (u32_small (Z.of_nat (length u) + (Z.of_nat (length v) + 2 - 2))) by (unfold is_u32, in_w; lia).
  set (nlen := if 2048 - 1 <? _ then _ else _). assert (Hn : nlen = Z.of_nat (Nat.min (length v) (Z.to_nat (2048 - 1) - length u)))
    by (unfold nlen; destruct (Z.ltb_spec (2048 - 1) (Z.of_nat (length u) + (Z.of_nat (length v) + 2 - 2))); lia).
  clearbody nlen. set (text := take (Z.to_nat (2048 - 1) - length u) v).
  assert (Htext : take (Z.to_nat nlen) v = text) by 
    (rewrite Hn, Nat2Z.id; unfold text; rewrite <- (firstn_all v) at 3; by rewrite take_take, Nat.min_comm).
  assert (Hltext : Z.of_nat (length text) = nlen) by (unfold text; rewrite length_take; lia).
  destruct (Z.ltb_spec 0 nlen) as [Hpos|Hpos].
  - rewrite Hread by lia. obind. rewrite Htext, bool_decide_false by (intros Et; rewrite Et in Hltext; cbn in Hltext; lia).
    apply IH; [done|lia|]. intros _. cbn. rewrite length_app. pose proof (length_ctext text). lia.
  - obind. rewrite bool_decide_true by (apply length_zero_iff_nil; lia). apply IH; [done|lia|done].
Qed.
End Grants.

Section Limits.
Context (o : options) (popen : bytes -> option (option bytes)) (e : endian)
  (inet_aton : bytes -> option Z) (nas_hwaddr : bytes) (sysinfo : option (Z * bytes * bytes)) (cfg : dhcp_options).
Context (mainclock mainclock_rt : Z) (mktime : bool -> tm -> Z).
Abbreviation obey := (obey o popen e inet_aton nas_hwaddr sysinfo cfg mainclock mainclock_rt).
Abbreviation config_loop := (config_loop o popen e inet_aton nas_hwaddr sysinfo cfg mainclock mainclock_rt).
Abbreviation config_radius_session := (config_radius_session o popen e inet_aton nas_hwaddr sysinfo cfg mainclock mainclock_rt mktime).

Fixpoint obey_all (w : world) (a : nat) (cmds : list command) : result (world * list notice) :=
  match cmds with
  | [] => Done (w, [])
  | cmd :: cmds => '(w, es) ← obey w a cmd; '(w, es') ← obey_all w a cmds; Done (w, es ++ es')
  end.
(** What comes behind the commands. *)
Definition finish (reconfig : bool) (l : list attr) (q : session_params) : result session_params :=
  let q := add_urls false (values RADIUS_ATTR_VENDOR_SPECIFIC RADIUS_VENDOR_WISPR RADIUS_ATTR_WISPR_REDIRECTION_URL l) q in
  time ← match vattr l RADIUS_VENDOR_WISPR RADIUS_ATTR_WISPR_SESSION_TERMINATE_TIME with
         | Some v => terminate_time mktime (ctext v)
         | None => Done (if reconfig then sessionterminatetime q else 0)
         end;
  Done (session_param_defaults o (set_terminatetime time q)).
(** The commands that only concern the parameters. *)
Definition flag_command (cmd : command) (q : session_params) : session_params :=
  match cmd with
  | Require_auth => set_flags (u16 (Z.lor (flags q) REQUIRE_UAM_AUTH)) q
  | Splash => set_flags (u16 (Z.lor (flags q) REQUIRE_UAM_SPLASH)) q
  | _ => q
  end.
(** The limits a packet with the attributes [l] sets. *)
Definition granted (reconfig : bool) (l : list attr) (q : session_params) : result session_params :=
  finish reconfig l (fold_left (fun q cmd => flag_command cmd q) (commands l) (value_spec reconfig l q)).

Section Packet.
Context (p : bytes) (code id : Z) (auth : bytes) (l : list attr) (Hp : packet p code id auth l) (Hl : attrs_ok l).

Lemma config_loop_ok fuel l1 l2 w a : l = l1 ++ l2 -> (length l2 < fuel)%nat ->
  config_loop fuel w a p (Z.of_nat (length (encode_all l1))) =
  obey_all w a (map command_of (values RADIUS_ATTR_VENDOR_SPECIFIC RADIUS_VENDOR_CHILLISPOT RADIUS_ATTR_CHILLISPOT_CONFIG l2)).
Proof using Hp Hl.
  revert l1 l2 w. induction fuel as [|fuel IH]; intros l1 l2 w E Hf; [lia|]. cbn [Reply.config_loop].
  pose proof (next_value p code id auth l Hp Hl l1 l2 RADIUS_VENDOR_CHILLISPOT RADIUS_ATTR_CHILLISPOT_CONFIG (ra_chilli_vsa l Hl) E) as H. cbv zeta in H.
  destruct (values _ _ _ l2) as [|v vs]; [by rewrite H|]. destruct H as (t & l1' & l2' & -> & E' & Hlt & Hh & <- & Hle). obind.
  rewrite (command_at_ok p t v Hh Hle). obind. cbn [map obey_all]. destruct (obey w a (command_of v)) as [[w1 es]| |]; [|done..]. obind.
  by rewrite (IH l1' l2') by (done || lia).
Qed.
Lemma attr_count : (length l < S (length p))%nat.
Proof using Hp.
  pose proof (length_attrs l (pa_ok _ _ _ _ _ Hp)). pose proof (pa_size _ _ _ _ _ Hp). pose proof (pa_length _ _ _ _ _ Hp). lia.
Qed.
Lemma finish_ok reconfig q :
  (q ← url_loop (S (length p)) p 0 false q; q ← config_time mktime reconfig p q; Done (session_param_defaults o q)) = finish reconfig l q.
Proof using Hp Hl.
  pose proof (url_loop_ok p code id auth l Hp Hl (S (length p)) [] l false q eq_refl attr_count) as E. change (Z.of_nat (length (encode_all []))) with 0 in E.
  rewrite E by done. obind. unfold finish, config_time. cbv zeta.
  pose proof (wispr_finds p code id auth l Hp Hl RADIUS_ATTR_WISPR_SESSION_TERMINATE_TIME) as Hf.
  destruct (vattr l _ _) as [v|]; [|by rewrite Hf]. destruct Hf as (t & -> & Hh). obind. rewrite (attr_text_ok p t v Hh). obind.
  by destruct (terminate_time mktime (ctext v)).
Qed.
(** [config_radius_session] on the attributes of the packet. *)
Lemma config_session_ok w a reconfig : config_radius_session w a p reconfig =
  (w ← update_params w a (fun q => Done (value_spec reconfig l q));
   '(w, es) ← obey_all w a (commands l);
   w ← update_params w a (finish reconfig l);
   Done (w, es)).
Proof using Hp Hl.
  unfold Reply.config_radius_session, update_params. destruct (deref (app w) a) as [c| |]; [|done..]. obind.
  rewrite (config_values_ok p code id auth l Hp Hl). obind. destruct (with_app w a _) as [w1| |]; [|done..]. obind.
  pose proof (config_loop_ok (S (length p)) [] l w1 a eq_refl attr_count) as E. change (Z.of_nat (length (encode_all []))) with 0 in E.
  rewrite E. fold (commands l). destruct (obey_all w1 a (commands l)) as [[w2 es]| |]; [|done..]. obind.
  destruct (deref (app w2) a) as [c2| |]; [|done..]. obind. by rewrite finish_ok.
Qed.

End Packet.

(** The world with another connection. *)
Definition put (w : world) (a : nat) (c : app_conn) : world := set_app (set_heap (<[a := c]> (heap (app w))) (app w)) w.
Lemma put_id w a c : heap (app w) !! a = Some c -> w = put w a c.
Proof. intros Hc. unfold put. rewrite list_insert_id by done. by destruct w as [[[]]]. Qed.
Lemma put_with_app w a c c' f : heap (app w) !! a = Some c -> with_app (put w a c') a f = Done (put w a (f c')).
Proof.
  intros Hc. assert (Hc' : heap (app (put w a c')) !! a = Some c') by (cbn; apply list_lookup_insert_eq; by eapply lookup_lt_Some).
  rewrite (with_app_ok _ a f c' Hc'). rewrite <- (alter_insert f a _ _ Hc'). unfold put. cbn. by rewrite list_insert_insert_eq.
Qed.
Lemma put_update w a c q f q' : heap (app w) !! a = Some c -> f q = Done q' ->
  update_params (put w a (set_params (fun _ => q) c)) a f = Done (put w a (set_params (fun _ => q') c)).
Proof.
  intros Hc Hf. unfold update_params. erewrite heap_deref by (cbn; apply list_lookup_insert_eq; by eapply lookup_lt_Some). obind.
  change (s_params (set_params (fun _ => q) c)) with q. rewrite Hf. obind. by rewrite (put_with_app w a c).
Qed.
Definition harmless (cmd : command) : Prop := cmd <> Logout /\ cmd <> Admin_reset.
Lemma obey_flags w a c cmds : heap (app w) !! a = Some c -> Forall harmless cmds -> forall q,
  obey_all (put w a (set_params (fun _ => q) c)) a cmds =
  Done (put w a (set_params (fun _ => fold_left (fun q cmd => flag_command cmd q) cmds q) c), []).
Proof.
  intros Hc Hq. induction Hq as [|cmd cmds [H1 H2] _ IH]; intros q; cbn [obey_all fold_left]; [done|].
  assert (Ho : obey (put w a (set_params (fun _ => q) c)) a cmd = Done (put w a (set_params (fun _ => flag_command cmd q) c), []))
    by (destruct cmd; cbn [Reply.obey flag_command]; try done; by rewrite (put_with_app w a c)).
  rewrite Ho. obind. by rewrite IH.
Qed.

(** C8: config_radius_session gives a session what the attributes of a packet grant it,
    whatever their order and whatever attributes of other kinds and vendors the packet
    holds: times, limits with their upper halves, bandwidths, flags of commands, the
    address for redirections put together of its pieces, with the defaults for what is
    not limited. The interval of updates is what 16 bits hold of the number, or none
    below a minute, and a bandwidth in kilobits is 1000 times the number modulo 2^32.
    The other sessions stay as they are. The attributes of the vendors WISPr and
    ChilliSpot hold one sub-attribute each whose length is that of the attribute,
    integers have at least four bytes, the time to end can be computed, and no command
    ends the session or its connection. *)
Theorem config_radius_session_grants w a c p code id auth l reconfig q :
  packet p code id auth l -> attrs_ok l -> Forall harmless (commands l) ->
  heap (app w) !! a = Some c -> granted reconfig l (s_params c) = Done q ->
  config_radius_session w a p reconfig = Done (put w a (set_params (fun _ => q) c), []).
Proof.
  intros Hp Hl Hq Hc Hg. rewrite (config_session_ok p code id auth l Hp Hl).
  assert (Hw : w = put w a (set_params (fun _ => s_params c) c)) by (rewrite <- put_id; [done|by destruct c]).
  rewrite Hw at 1. rewrite (put_update w a c _ _ (value_spec reconfig l (s_params c)) Hc) by done. obind.
  rewrite (obey_flags w a c _ Hc Hq). obind. by rewrite (put_update w a c _ (finish reconfig l) q Hc Hg).
Qed.
End Limits.

(** ** Concrete packets *)

Definition chilli_vsa (type : Z) (v : bytes) : attr := Attr 26 ([0; 0; 56; 223; type; Z.of_nat (length v) + 2] ++ v).
Definition wispr_vsa (type : Z) (v : bytes) : attr := Attr 26 ([0; 0; 55; 42; type; Z.of_nat (length v) + 2] ++ v).
Definition demo_reply (code id : Z) (l : list attr) : bytes :=
  [code; id] ++ be_bytes 2 (Z.of_nat (20 + length (encode_all l))) ++ demo_auth ++ encode_all l ++ replicate (1580 - length (encode_all l)) 0.
Lemma demo_reply_packet code id l : Forall attr_ok l -> (20 + length (encode_all l) <= 1600)%nat -> packet (demo_reply code id l) code id demo_auth l.
Proof.
  intros Hl Hs. constructor; [done|done|by eexists| |done]. unfold demo_reply. rewrite !length_app, length_be_bytes, length_replicate.
  change (length demo_auth) with 16%nat. cbn [length]. lia.
Qed.
(** Conditions on attributes that can be computed. *)
Definition attr_okb (a : attr) : bool :=
  (1 <=? a_type a) && (a_type a <? 256) && forallb (fun x => (0 <=? x) && (x <? 256)) (a_value a) && (length (a_value a) <=? 253)%nat &&
  (negb (a_type a =? RADIUS_ATTR_VENDOR_SPECIFIC) || (6 <=? length (a_value a))%nat).
Lemma attr_ok_check l : forallb attr_okb l = true -> Forall attr_ok l.
Proof.
  intros H. apply Forall_forall. intros a Ha. rewrite forallb_forall in H. apply list_elem_of_In, H in Ha. unfold attr_okb in Ha.
  apply andb_true_iff in Ha as [Ha H5]. apply andb_true_iff in Ha as [Ha H4]. apply andb_true_iff in Ha as [Ha H3].
  apply andb_true_iff in Ha as [H1 H2]. constructor; [lia|by apply is_bytes_check|by apply Nat.leb_le|].
  intros E. rewrite E in H5. by apply Nat.leb_le.
Qed.
Definition four (v : option bytes) : bool := match v with Some v => (4 <=? length v)%nat | None => true end.
Definition attrs_okb (l : list attr) : bool :=
  forallb (fun a => negb (a_type a =? RADIUS_ATTR_VENDOR_SPECIFIC) ||
    bool_decide (a_value a !! 5%nat = Some (Z.of_nat (length (a_value a)) - 4))) l &&
  forallb (fun t => four (pattr l t)) plain_ints && forallb (fun t => four (vattr l RADIUS_VENDOR_WISPR t)) wispr_ints &&
  forallb (fun t => four (vattr l RADIUS_VENDOR_CHILLISPOT t)) chilli_ints.
Lemma attrs_ok_check l : attrs_okb l = true -> attrs_ok l.
Proof.
  intros H. unfold attrs_okb in H. apply andb_true_iff in H as [H H4]. apply andb_true_iff in H as [H H3]. apply andb_true_iff in H as [H1 H2].
  rewrite forallb_forall in H1, H2, H3, H4.
  assert (Hf : forall v, four v = true -> from_option (fun v => (4 <= length v)%nat) True v) by (intros [v|]; [apply Nat.leb_le|done]).
  constructor; apply Forall_forall; intros a Ha; apply list_elem_of_In in Ha; [| |by apply Hf, H2|by apply Hf, H3|by apply Hf, H4].
  all: apply H1 in Ha; intros E _; rewrite E in Ha; cbn [negb orb] in Ha; by apply bool_decide_eq_true in Ha.
Qed.

(** An hour, 512 kbit/s, somewhat more than 4 GiB in all, a page after the login, and until 2030. *)
Definition demo_grants : list attr :=
  [Attr 18 (str "welcome"); Attr 27 [0; 0; 14; 16]; chilli_vsa 4 [0; 0; 2; 0]; chilli_vsa 3 [0; 1; 0; 0]; chilli_vsa 23 [0; 0; 0; 1];
   chilli_vsa 6 (str "splash"); wispr_vsa 4 (str "http://hotel.example/"); wispr_vsa 4 (str "welcome"); wispr_vsa 9 (str "2030-01-01T00:00:00 00:00")].
Definition demo_mktime (utc : bool) (t : tm) : Z := (tm_year t - 70) * 31556952 + tm_mon t * 2629746 + (tm_mday t - 1) * 86400.
Definition demo_client : app_conn := default zero_conn (heap (app demo_two) !! 0%nat).
Definition demo_granted : session_params :=
  match granted demo_options demo_mktime false demo_grants (s_params demo_client) with Done q => q | _ => s_params demo_client end.
Lemma config_radius_session_grants_witness :
  config_radius_session demo_options no_script BE no_aton demo_mac None demo_cfg 200 200 demo_mktime demo_two 0 (demo_reply 2 7 demo_grants) false =
    Done (put demo_two 0 (set_params (fun _ => demo_granted) demo_client), []) /\
  sessiontimeout demo_granted = 3600 /\ bandwidthmaxup demo_granted = 512000 /\ maxtotaloctets demo_granted = 2 ^ 32 + 65536 /\
  url demo_granted = str "http://hotel.example/welcome" /\ flags demo_granted = 258.
Proof.
  split; [|vm_compute; repeat split; reflexivity].
  refine (config_radius_session_grants demo_options no_script BE no_aton demo_mac None demo_cfg 200 200 demo_mktime demo_two 0 demo_client
    (demo_reply 2 7 demo_grants) 2 7 demo_auth demo_grants false demo_granted _ _ _ _ _).
  - apply demo_reply_packet; [apply attr_ok_check; vm_compute; reflexivity|vm_compute; lia].
  - apply attrs_ok_check. vm_compute. reflexivity.
  - repeat constructor; vm_compute; discriminate.
  - vm_compute. reflexivity.
  - vm_compute. reflexivity.
Defined.

(** ** Where the code falls short *)

Definition demo_config (l : list attr) : result session_params :=
  '(w, _) ← config_radius_session demo_options no_script BE no_aton demo_mac None demo_cfg 200 200 demo_mktime demo_two 0 (demo_reply 2 7 l) false;
  c ← deref (app w) 0;
  Done (s_params c).
(** A vendor's attribute that claims to be shorter than its head makes the daemon copy
    more than there is memory for. *)
Lemma short_vendor_attribute : demo_config [Attr 26 [0; 0; 56; 223; 11; 1]] = Fault.
Proof. vm_compute. reflexivity. Qed.
(** A bandwidth of 5 Gbit/s becomes one of 705 Mbit/s. *)
Lemma bandwidth_wraps : (q ← demo_config [chilli_vsa 4 (be_bytes 4 5000000)]; Done (bandwidthmaxup q)) = Done 705032704.
Proof. vm_compute. reflexivity. Qed.
(** An interval of 65536 seconds between reports is none. *)
Lemma interim_wraps : (q ← demo_config [Attr 85 (be_bytes 4 65536)]; Done (interim_interval q)) = Done 0.
Proof. vm_compute. reflexivity. Qed.
End Reply.
