(* ===== verification/Answers.v ===== *)
(** * What packets of the RADIUS server do to clients ([chilli.c])

    The functions of [Reply] on consistent states of the daemon ([Lease]): which clients
    a reply lets in, and which sessions a request of the server ends, changes or starts;
    all of them leave the other sessions alone and the state consistent. *)

From S2P Require Import Prelude CLib Mem Chains Dlist Md5 Radius RadiusQueue IpPool Session Conns Dhcp Lease Reply.

Module Answers.
Import Mem Dlist Radius Session Conns Dhcp Lease Reply.

(** ** What a packet of the server does to a client *)

Section Answers.
Context (o : options) (popen : bytes -> option (option bytes)) (e : endian)
  (inet_aton : bytes -> option Z) (nas_hwaddr : bytes) (sysinfo : option (Z * bytes * bytes)) (cfg : dhcp_options).
Context (mainclock mainclock_rt : Z) (mktime : bool -> tm -> Z).
Abbreviation good := (good e).
Abbreviation terminate_appconn := (terminate_appconn o popen e inet_aton nas_hwaddr sysinfo mainclock mainclock_rt).
Abbreviation obey := (obey o popen e inet_aton nas_hwaddr sysinfo cfg mainclock mainclock_rt).
Abbreviation obey_all := (obey_all o popen e inet_aton nas_hwaddr sysinfo cfg mainclock mainclock_rt).
Abbreviation config_radius_session := (config_radius_session o popen e inet_aton nas_hwaddr sysinfo cfg mainclock mainclock_rt mktime).
Abbreviation upprot_getip := (upprot_getip o popen e inet_aton nas_hwaddr sysinfo cfg mainclock mainclock_rt).
Abbreviation accept := (accept o popen e inet_aton nas_hwaddr sysinfo cfg mainclock).
Abbreviation reject := (reject cfg).
Abbreviation finish := (finish o mktime).
(** As in [Lease]; and sessions start at 0. *)
Hypothesis Huam : uamanyip cfg = false.
Hypothesis Hstats : forall c, start_point (s_params c) = 0 -> statistics_ok o popen c.
Hypothesis Hstart : defstartpoint o = 0.

(** *** Steps that only change one session *)

Definition elsewhere (a : nat) (w w' : world) : Prop := forall b, b <> a -> heap (app w') !! b = heap (app w) !! b.
Definition auth_at (w : world) (a : nat) : option Z := (fun c => authenticated (s_state c)) <$> heap (app w) !! a.
(** The session of [a] goes on as it is, or ends. *)
Record moved (a : nat) (w w' : world) : Prop := {
  mv_same : same w w';
  mv_else : elsewhere a w w';
  mv_auth : auth_at w' a = auth_at w a \/ auth_at w' a = Some 0;
  mv_type : authtype <$> links w' !! a = authtype <$> links w !! a;
}.
#[local] Instance elsewhere_preorder a : PreOrder (elsewhere a).
Proof. split; [by intros w b|]. intros w1 w2 w3 H1 H2 b Hb. by rewrite H2, H1. Qed.
#[local] Instance moved_preorder a : PreOrder (moved a).
Proof.
  split; [intros w; split; [done|done|by left|done]|]. intros w1 w2 w3 [A1 A2 A3 A4] [B1 B2 B3 B4].
  split; [by transitivity w2|by transitivity w2| |congruence]. destruct B3 as [->| ->]; [done|by right].
Qed.

(** A client whose parts belong together. *)
Definition known (w : world) (ds as_ : list nat) (d a : nat) : Prop := good w ds as_ /\ exists x c l, client w ds as_ d a x c l.
Lemma moved_known a w w' ds as_ d : moved a w w' -> known w ds as_ d a -> known w' ds as_ d a.
Proof.
  intros [Hs _ _ _] (Hg & x & c & l & Hc). split; [by eapply good_same|].
  destruct (client_kept _ _ _ _ _ _ _ _ _ (sm_kept Hs) Hc) as (x' & c' & l' & Hc' & _). by exists x', c', l'.
Qed.

Lemma with_app_inv w a f w' : with_app w a f = Done w' ->
  elsewhere a w w' /\ heap (app w') !! a = f <$> heap (app w) !! a /\ links w' = links w.
Proof.
  intros H. destruct (heap (app w) !! a) as [c|] eqn:Hc.
  - rewrite (with_app_ok _ _ _ c Hc) in H. injection H as <-. cbn. rewrite list_lookup_alter_eq, Hc. split; [|done].
    intros b Hb. cbn. by rewrite list_lookup_alter_ne.
  - exfalso. unfold with_app, modify, update, cell in H. change (cells (conns (app w))) with (heap (app w)) in H. by rewrite Hc in H.
Qed.
Lemma with_link_inv w a f w' : with_link w a f = Done w' -> app w' = app w /\ links w' !! a = f <$> links w !! a.
Proof.
  intros H. destruct (links w !! a) as [l|] eqn:Hl; [|exfalso; unfold with_link, linkof in H; by rewrite Hl in H].
  rewrite (with_link_ok _ _ _ l Hl) in H. injection H as <-. cbn. by rewrite list_lookup_alter_eq, Hl.
Qed.
Lemma with_dcell_inv w d f w' : with_dcell w d f = Done w' -> app w' = app w /\ links w' = links w.
Proof. intros H. unfold with_dcell in H. by apply bind_inv in H as (v & _ & [= <-]). Qed.
Lemma with_member_inv w m f w' : with_member w m f = Done w' -> app w' = app w.
Proof. intros H. unfold with_member in H. by apply bind_inv in H as (v & _ & [= <-]). Qed.
Lemma elsewhere_app a w w' : app w' = app w -> elsewhere a w w'.
Proof. intros E b _. by rewrite E. Qed.
Lemma on_session_inv {A} w a (f : app_conn -> result (app_conn * A)) w' r : on_session w a f = Done (w', r) ->
  elsewhere a w w' /\ links w' = links w /\
  exists c dn c1, heap (app w) !! a = Some c /\ f (set_dnlink dn c) = Done (c1, r) /\ heap (app w') !! a = Some (set_dnlink None c1).
Proof.
  intros H. unfold on_session in H. apply bind_inv in H as (c & Hc & H). apply bind_inv in H as (l & Hl & H). apply bind_inv in H as (dn & Hdn & H).
  apply bind_inv in H as ([c1 r'] & Hf & H). apply bind_inv in H as (w1 & H1 & H). apply bind_inv in H as (w2 & H2 & [= -> ->]).
  apply with_app_inv in H1 as (He & Ha & El). assert (E2 : app w' = app w1 /\ links w' = links w1).
  { destruct (downlink l); [|by injection H2 as <-]. destruct (dnlink c1); [|by injection H2 as <-]. by eapply with_dcell_inv. }
  destruct E2 as [E2 E3]. assert (Hc' : heap (app w) !! a = Some c).
  { unfold deref, cell in Hc. change (cells (conns (app w))) with (heap (app w)) in Hc. destruct (heap (app w) !! a); [by injection Hc as ->|done]. }
  split; [by transitivity w1; [done|by apply elsewhere_app]|]. split; [congruence|]. exists c, dn, c1. split; [done|]. split; [done|].
  by rewrite E2, Ha, Hc'.
Qed.

Lemma move_app w ds as_ d a f : known w ds as_ d a -> (forall c, acore (f c) = acore c) ->
  (forall c, authenticated (s_state (f c)) = authenticated (s_state c)) -> exists w', with_app w a f = Done w' /\ moved a w w'.
Proof.
  intros (Hg & x & c & l & Hc) Hf Ha. destruct (with_app_same w a f c (c_app Hc) (Hf c)) as (w' & Hw & Hs). exists w'. split; [done|].
  apply with_app_inv in Hw as (He & Hh & El). split; [done|done| |by rewrite El]. left. unfold auth_at. rewrite Hh, (c_app Hc). cbn. by rewrite Ha.
Qed.
Lemma move_link w ds as_ d a f : known w ds as_ d a -> (forall l, lcore (f l) = lcore l) -> (forall l, authtype (f l) = authtype l) ->
  exists w' l, with_link w a f = Done w' /\ moved a w w' /\ links w !! a = Some l /\ links w' !! a = Some (f l).
Proof.
  intros (Hg & x & c & l & Hc) Hf Ha. destruct (with_link_same w a f l (c_link Hc) (Hf l)) as (w' & Hw & Hs). exists w', l. split; [done|].
  apply with_link_inv in Hw as (Ea & Hl). rewrite (c_link Hc) in Hl. split; [|split; [apply Hc|done]].
  split; [done|by apply elsewhere_app| |rewrite Hl, (c_link Hc); cbn; by rewrite Ha]. left. unfold auth_at. by rewrite Ea.
Qed.
Lemma move_session {A} w ds as_ d a (f : app_conn -> result (app_conn * A)) : known w ds as_ d a ->
  (forall c, start_point (s_params c) = 0 -> exists c1 r, f c = Done (c1, r) /\ acore c1 = acore c /\
     (authenticated (s_state c1) = authenticated (s_state c) \/ authenticated (s_state c1) = 0)) ->
  exists w' r, on_session w a f = Done (w', r) /\ moved a w w'.
Proof.
  intros (Hg & x & c & l & Hc) Hf. destruct (Hf (set_dnlink (Some (authstate x)) c)) as (c1 & r & H1 & Hcore & Ha); [apply (g_start Hg a c (c_app Hc))|].
  destruct (on_session_same w a f c l d x c1 r) as (w' & Hw & Hs); [apply Hc..|done|done|]. exists w', r. split; [done|].
  apply on_session_inv in Hw as (He & El & c' & dn & c2 & Hc' & H2 & Hh). split; [done|done| |by rewrite El].
  destruct (Hf (set_dnlink dn c')) as (c3 & r3 & H3 & _ & Ha3); [apply (g_start Hg a c' Hc')|]. rewrite H2 in H3. injection H3 as -> ->.
  unfold auth_at. rewrite Hh, Hc'. cbn in *. destruct Ha3 as [->| ->]; [by left|by right].
Qed.
Lemma move_terminate w ds as_ d a cause : known w ds as_ d a -> exists w' es,
  on_session w a (fun c => terminate_appconn c cause) = Done (w', es) /\ moved a w w'.
Proof.
  intros Hk. apply (move_session w ds as_ d); [done|]. intros c Hsp.
  destruct (terminate_frame o popen e inet_aton nas_hwaddr sysinfo mainclock mainclock_rt c cause Hsp) as (c1 & es & H1 & Hcore). exists c1, es.
  split; [done|]. split; [done|]. destruct (decide (authenticated (s_state c) = 1)) as [Ha|Ha].
  - destruct (terminate_appconn_ok o popen e inet_aton nas_hwaddr sysinfo mainclock mainclock_rt c cause Ha) as (c2 & es2 & H2 & He).
    rewrite H1 in H2. injection H2 as -> ->. right. apply He.
  - unfold Session.terminate_appconn in H1. rewrite (proj2 (Z.eqb_neq _ 1)) in H1 by done. injection H1 as <- _. by left.
Qed.
Lemma move_reject w ds as_ d a : known w ds as_ d a -> exists w' es, reject w a = Done (w', es) /\ moved a w w'.
Proof.
  intros Hk. apply (move_session w ds as_ d); [done|]. intros c _. destruct (dnprot_reject cfg c) as [c1 es] eqn:E. exists c1, es. split; [done|].
  revert E. unfold dnprot_reject. destruct (is_adminsession c); [intros [= <- _]; by split; [|left]|].
  destruct (dnprot c =? DNPROT_WPA); [intros [= <- _]; by split; [|left]|].
  destruct (dnprot c =? DNPROT_MAC); [|intros [= <- _]; by split; [|left]].
  destruct (authenticated _ =? 0), (dnlink _), (macauthdeny cfg); intros [= <- _]; by split; [|left].
Qed.
Lemma move_update w ds as_ d a f : known w ds as_ d a -> (forall q, start_point q = 0 -> exists q', f q = Done q' /\ start_point q' = 0) ->
  exists w', update_params w a f = Done w' /\ moved a w w' /\
    exists c q', heap (app w) !! a = Some c /\ f (s_params c) = Done q' /\ heap (app w') !! a = Some (set_params (fun _ => q') c).
Proof.
  intros (Hg & x & c & l & Hc) Hf. unfold update_params. rewrite (heap_deref _ _ _ (c_app Hc)). obind.
  destruct (Hf (s_params c)) as (q & Hq & Hsp); [apply (g_start Hg a c (c_app Hc))|]. rewrite Hq. obind.
  destruct (with_app_same w a (set_params (fun _ => q)) c (c_app Hc)) as (w' & Hw & Hs).
  { unfold acore. f_equal. rewrite (g_start Hg a c (c_app Hc)). exact Hsp. }
  exists w'. split; [done|]. apply with_app_inv in Hw as (He & Hh & El). rewrite (c_app Hc) in Hh. split; [|exists c, q; split; [apply Hc|done]].
  split; [done|done| |by rewrite El]. left. unfold auth_at. by rewrite Hh, (c_app Hc).
Qed.

(** *** Limits *)

(** When a session has to end at the latest. *)
Definition ends (l : list attr) : result Z :=
  match vattr l RADIUS_VENDOR_WISPR RADIUS_ATTR_WISPR_SESSION_TERMINATE_TIME with
  | Some v => terminate_time mktime (ctext v)
  | None => Done 0
  end.
(** A packet that does not remove the connection it is about ([admin-reset]), nor grants
    octets used before; the time by which a session has to end is within 68 years. *)
Record limits_ok (l : list attr) : Prop := {
  lo_attrs : attrs_ok l;
  lo_reset : Forall (fun cmd => cmd <> Admin_reset) (commands l);
  lo_start : int_spec false (vattr l RADIUS_VENDOR_CHILLISPOT RADIUS_ATTR_CHILLISPOT_START_POINT) 0 = 0;
  lo_end : exists t, ends l = Done t /\ - 2 ^ 31 <= mainclock_rt - t < 2 ^ 31;
}.

Lemma move_obey w ds as_ d a cmd : known w ds as_ d a -> cmd <> Admin_reset ->
  exists w' es, obey w a cmd = Done (w', es) /\ moved a w w'.
Proof.
  intros Hk Hne. unfold Reply.obey. destruct cmd; [| | |done|by exists w, []].
  - destruct (move_app w ds as_ d a (or_flag REQUIRE_UAM_AUTH) Hk) as (w1 & -> & Hm); [done..|]. by exists w1, [].
  - destruct (move_app w ds as_ d a (or_flag REQUIRE_UAM_SPLASH) Hk) as (w1 & -> & Hm); [done..|]. by exists w1, [].
  - destruct (move_terminate w ds as_ d a RADIUS_TERMINATE_CAUSE_USER_REQUEST Hk) as (w1 & es & -> & Hm). obind. by eexists w1, _.
Qed.
Lemma move_obey_all w ds as_ d a cmds : known w ds as_ d a -> Forall (fun cmd => cmd <> Admin_reset) cmds ->
  exists w' es, obey_all w a cmds = Done (w', es) /\ moved a w w'.
Proof.
  intros Hk Hc. revert w Hk. induction Hc as [|cmd cmds H1 _ IH]; intros w Hk; cbn [Reply.obey_all]; [by exists w, []|].
  destruct (move_obey w ds as_ d a cmd Hk H1) as (w1 & es & -> & Hm). obind.
  destruct (IH w1) as (w2 & es2 & -> & Hm2); [by eapply moved_known|]. obind. eexists w2, _. split; [done|by transitivity w1].
Qed.
Lemma add_urls_start seen vs q : start_point (add_urls seen vs q) = start_point q /\ sessionterminatetime (add_urls seen vs q) = sessionterminatetime q.
Proof. revert seen q. induction vs as [|v vs IH]; intros seen q; cbn [add_urls]; [done|]. rewrite !(proj1 (IH _ _)), !(proj2 (IH _ _)). by case_bool_decide. Qed.
Lemma finish_start reconfig l q : limits_ok l -> start_point q = 0 ->
  exists q', finish reconfig l q = Done q' /\ start_point q' = 0 /\ (reconfig = false -> ends l = Done (sessionterminatetime q')).
Proof.
  intros [_ _ _ (t & Ht & _)] Hq. unfold Reply.finish. unfold ends in *. cbv zeta. set (q1 := add_urls _ _ q).
  destruct (add_urls_start false (values RADIUS_ATTR_VENDOR_SPECIFIC RADIUS_VENDOR_WISPR RADIUS_ATTR_WISPR_REDIRECTION_URL l) q) as [E1 E2]. fold q1 in E1, E2.
  assert (Hs : forall t, start_point (session_param_defaults o (set_terminatetime t q1)) = 0)
    by (intros t'; cbn; unfold default_to; rewrite E1, Hq, Hstart; done).
  destruct (vattr l _ _) as [v|].
  - rewrite Ht. obind. eexists. split; [done|]. split; [apply Hs|done].
  - obind. eexists. split; [done|]. split; [apply Hs|]. by intros ->.
Qed.

Lemma move_config w ds as_ d a p code id auth l reconfig : known w ds as_ d a -> packet p code id auth l -> limits_ok l ->
  exists w' es, config_radius_session w a p reconfig = Done (w', es) /\ moved a w w' /\
    (reconfig = false -> exists c, heap (app w') !! a = Some c /\ ends l = Done (sessionterminatetime (s_params c))).
Proof.
  intros Hk Hp Hl. pose proof Hl as [Ha Hr Hsp _]. rewrite (config_session_ok o popen e inet_aton nas_hwaddr sysinfo cfg mainclock mainclock_rt mktime p code id auth l Hp Ha).
  destruct (move_update w ds as_ d a (fun q => Done (value_spec reconfig l q)) Hk) as (w1 & -> & Hm1 & _).
  { intros q Hq. eexists. split; [done|]. cbn. rewrite Hq. revert Hsp. by destruct (vattr l _ _), reconfig. }
  obind. assert (Hk1 : known w1 ds as_ d a) by (by eapply moved_known).
  destruct (move_obey_all w1 ds as_ d a (commands l) Hk1 Hr) as (w2 & es & -> & Hm2). obind. assert (Hk2 : known w2 ds as_ d a) by (by eapply moved_known).
  destruct (move_update w2 ds as_ d a (finish reconfig l) Hk2) as (w3 & -> & Hm3 & c & q & Hc & Hq & Hc3).
  { intros q Hq. destruct (finish_start reconfig l q Hl Hq) as (q' & H1 & H2 & _). by exists q'. }
  obind. exists w3, es. split; [done|]. split; [transitivity w1; [done|by transitivity w2]|]. intros ->. eexists. split; [exact Hc3|].
  destruct Hk2 as [Hg2 _]. destruct (finish_start false l (s_params c) Hl (g_start Hg2 a c Hc)) as (q' & H1 & _ & H2). rewrite Hq in H1. injection H1 as ->.
  by apply H2.
Qed.

(** *** Requests of the server *)

Lemma terminate_out w a cause w' es : on_session w a (fun c => terminate_appconn c cause) = Done (w', es) -> auth_at w' a <> Some 1.
Proof.
  intros H. apply on_session_inv in H as (_ & _ & c & dn & c1 & _ & H1 & Hh). unfold auth_at. rewrite Hh. cbn. intros [= Ha].
  destruct (decide (authenticated (s_state (set_dnlink dn c)) = 1)) as [H2|H2].
  - destruct (terminate_appconn_ok o popen e inet_aton nas_hwaddr sysinfo mainclock mainclock_rt _ cause H2) as (c2 & es2 & H3 & He).
    rewrite H1 in H3. injection H3 as -> ->. pose proof (en_auth _ _ _ _ _ _ He). congruence.
  - unfold Session.terminate_appconn in H1. rewrite (proj2 (Z.eqb_neq _ 1)) in H1 by done. injection H1 as <- _. by cbn in *.
Qed.
Lemma set_addrs_app w d ip m i om n1 n2 w' es : dhcp_set_addrs cfg w d ip m i om n1 n2 = Done (w', es) -> app w' = app w.
Proof.
  intros H. unfold dhcp_set_addrs in H. apply bind_inv in H as (w1 & H1 & H). apply with_dcell_inv in H1 as [H1 _].
  rewrite Huam in H. cbn [andb] in H. by injection H as <- _.
Qed.
Lemma accept_elsewhere w a w' es : accept w a = Done (w', es) -> elsewhere a w w'.
Proof.
  intros H. unfold Lease.accept in H. apply bind_inv in H as ([w1 es1] & H1 & H). apply on_session_inv in H1 as (He & _).
  apply bind_inv in H as (l & _ & H). apply bind_inv in H as (c & _ & H). destruct (downlink l) as [d|]; [|by injection H as <- _].
  destruct (existsb _ _); [|by injection H as <- _]. apply bind_inv in H as ([w2 es2] & H2 & [= <- _]). apply set_addrs_app in H2.
  transitivity w1; [done|by apply elsewhere_app].
Qed.
Lemma accept_known w ds as_ d a : known w ds as_ d a -> exists w' es, accept w a = Done (w', es) /\ known w' ds as_ d a /\ elsewhere a w w'.
Proof.
  intros (Hg & x & c & l & Hc).
  destruct (accept_good o popen e inet_aton nas_hwaddr sysinfo cfg mainclock Huam Hstats w ds as_ d a x c l Hg Hc) as (w' & es & H & Hg' & Hk).
  exists w', es. split; [done|]. split; [|by eapply accept_elsewhere]. split; [done|].
  destruct (client_kept _ _ _ _ _ _ _ _ _ Hk Hc) as (x' & c' & l' & Hc' & _). by exists x', c', l'.
Qed.

(** *** Logins *)

(** Whether an accepted login is one to the network: not if the portal is to be asked first. *)
Definition logs_in (c : app_conn) : bool :=
  (dnprot c =? DNPROT_UAM) || (((dnprot c =? DNPROT_WPA) || (dnprot c =? DNPROT_MAC)) && negb (has_flag c REQUIRE_UAM_AUTH)).
Definition starts_in (es : list event) : Prop := exists attrs, Account RADIUS_STATUS_TYPE_START attrs ∈ es.

Lemma add_usage_dnprot c c' : add_usage o popen c = Done c' -> dnprot c' = dnprot c.
Proof using.
  unfold add_usage. destruct (earlier_usage o popen c) as [[[[dl ul] tm]|]| |]; [|by intros [= <-]|done..]. obind.
  destruct (negb (maxinputoctets (s_params c) =? 0)), (negb (maxoutputoctets _ =? 0)), (negb (sessiontimeout _ =? 0));
    try (by intros [= <-]); (destruct tm; [obind; by intros [= <-]|done]).
Qed.
Lemma flag_clear_reauth c : has_flag (clear_flag IS_UAM_REAUTH c) REQUIRE_UAM_AUTH = has_flag c REQUIRE_UAM_AUTH /\
  has_flag (clear_flag IS_UAM_REAUTH c) NO_ACCOUNTING = has_flag c NO_ACCOUNTING.
Proof using. split; [by apply (has_flag_clear c 0 3)|by apply (has_flag_clear c 4 3)]. Qed.
Lemma flag_cleared c : has_flag (clear_flag REQUIRE_UAM_AUTH c) REQUIRE_UAM_AUTH = false.
Proof using.
  unfold has_flag, clear_flag, REQUIRE_UAM_AUTH. cbn [set_params s_params set_flags flags]. apply negb_false_iff, Z.eqb_eq.
  unfold u16. rewrite <- Z.land_ones by lia. apply Z.bits_inj'. intros n Hn. rewrite !Z.land_spec, Z.lnot_spec, Z.bits_0 by lia.
  destruct (Z.testbit (2 ^ 0) n); cbn; by rewrite ?andb_false_r, ?andb_false_l.
Qed.

Definition after_login (c c' : app_conn) (es : list event) : Prop :=
  if has_flag c' REQUIRE_UAM_AUTH then authenticated (s_state c') = authenticated (s_state c)
  else authenticated (s_state c') = 1 /\ (has_flag c' NO_ACCOUNTING = false -> starts_in es).
Lemma accepted_in c c' es : start_point (s_params c) = 0 ->
  accepted o popen e inet_aton nas_hwaddr sysinfo mainclock true c = Done (c', es) ->
  dnprot c' = dnprot c /\ has_flag c' REQUIRE_UAM_AUTH = has_flag c REQUIRE_UAM_AUTH /\ after_login c c' es.
Proof using Hstats.
  intros Hsp H. unfold accepted in H. cbv zeta in H. set (c2 := if true && _ then _ else c) in H.
  assert (E2 : s_params c2 = s_params c /\ s_state c2 = s_state c /\ dnprot c2 = dnprot c) by (unfold c2; by destruct (true && _)). clearbody c2.
  destruct E2 as (Ep & Es & Ed). assert (Ef : forall f, has_flag c2 f = has_flag c f) by (intros f; unfold has_flag; by rewrite Ep).
  rewrite Ef in H. unfold after_login. destruct (has_flag c REQUIRE_UAM_AUTH) eqn:Hf; cbn [negb] in H.
  - cbn [mbind outcome_bind] in H. injection H as <- <-. destruct (flag_clear_reauth c2) as [F1 _]. rewrite F1, Ef, Hf. split; [done|]. split; [done|]. cbn. by rewrite Es.
  - unfold acct_req in H. change (_ || _) with true in H. cbv iota zeta in H. set (c3 := set_state (set_count _) _) in H.
    destruct (add_usage_ok o popen c3) as (c4 & H4 & Ha & Hfl & _); [apply Hstats; cbn; by rewrite Ep|]. rewrite H4 in H. cbn [mbind outcome_bind] in H. injection H as <- <-.
    pose proof (add_usage_dnprot _ _ H4) as Hd. destruct (flag_clear_reauth c4) as [F1 F2]. rewrite F1, F2.
    assert (Eg : forall f, has_flag c4 f = has_flag c f) by (intros f; unfold has_flag; rewrite Hfl; cbn; by rewrite Ep). rewrite !Eg, Hf.
    split; [transitivity (dnprot c3); [exact Hd|exact Ed]|]. split; [done|]. split; [exact Ha|]. intros Hno. eexists. rewrite Hno. apply elem_of_app. left. by apply list_elem_of_singleton.
Qed.
Definition login_done (c c' : app_conn) (es : list event) : Prop :=
  hisip c' = hisip c /\
  if logs_in c' && negb (hisip c' =? 0) then
    authenticated (s_state c') = 1 /\ (has_flag c' NO_ACCOUNTING = false -> starts_in es) /\ existsb is_set_addrs es = true
  else authenticated (s_state c') = authenticated (s_state c).
Lemma login_in c c' es : start_point (s_params c) = 0 -> is_adminsession c = false -> dnlink c <> None ->
  dnprot_accept o popen e inet_aton nas_hwaddr sysinfo mainclock c = Done (c', es) -> login_done c c' es.
Proof using Hstats.
  intros Hsp Hadm Hdn H. destruct (login_ok o popen e inet_aton nas_hwaddr sysinfo mainclock Hstats c Hsp) as (c0 & es0 & H0 & Hcore & _).
  rewrite H in H0. injection H0 as <- <-. assert (Hip : hisip c' = hisip c) by (unfold acore, Session.frame in Hcore; congruence).
  split; [done|]. rewrite Hip. revert H. unfold Session.dnprot_accept. rewrite Hadm. destruct (Z.eqb_spec (hisip c) 0) as [E|E].
  { intros [= <- _]. by rewrite andb_false_r. }
  rewrite andb_true_r. destruct (dnlink c) as [dn|] eqn:Edn; [|done]. cbv zeta.
  assert (Hgo : forall c1 pre, start_point (s_params c1) = 0 -> authenticated (s_state c1) = authenticated (s_state c) -> existsb is_set_addrs pre = true ->
    (has_flag c1 REQUIRE_UAM_AUTH = negb (logs_in c1)) ->
    ('(c, es) ← accepted o popen e inet_aton nas_hwaddr sysinfo mainclock true c1; Done (c, pre ++ es)) = Done (c', es) ->
    if logs_in c' then authenticated (s_state c') = 1 /\ (has_flag c' NO_ACCOUNTING = false -> starts_in es) /\ existsb is_set_addrs es = true
    else authenticated (s_state c') = authenticated (s_state c)).
  { intros c1 pre H1 H2 Hpre Hfl H. apply bind_inv in H as ([c2 es2] & Hacc & [= -> <-]). destruct (accepted_in c1 c' es2 H1 Hacc) as (Hd & Hf & Ha).
    assert (El : logs_in c' = logs_in c1) by (unfold logs_in; by rewrite Hd, Hf). unfold after_login in Ha. rewrite Hf, Hfl, <- El in Ha.
    destruct (logs_in c'); cbn [negb] in Ha; [|congruence]. destruct Ha as [Ha Hs]. split; [done|]. split; [|by rewrite existsb_app, Hpre].
    intros Hno. destruct (Hs Hno) as [at_ Hat]. exists at_. apply elem_of_app. by right. }
  destruct (Z.eqb_spec (dnprot c) DNPROT_UAM) as [Eu|Nu]; [|destruct (Z.eqb_spec (dnprot c) DNPROT_WPA) as [Ew|Nw]; [|destruct (Z.eqb_spec (dnprot c) DNPROT_MAC) as [Em|Nm]]].
  - apply Hgo; [done|done|done|]. rewrite flag_cleared. unfold logs_in. cbn. by rewrite Eu.
  - destruct (has_flag c REQUIRE_UAM_AUTH) eqn:Hf; (apply Hgo; [done|done|done|]); unfold logs_in; change (has_flag _ _) with (has_flag c REQUIRE_UAM_AUTH);
      rewrite Hf; cbn [dnprot set_authstate set_dnlink set_dnprot]; [done|by rewrite Ew].
  - apply Hgo; [done|done|done|]. unfold logs_in. change (has_flag _ _) with (has_flag c REQUIRE_UAM_AUTH). change (dnprot (set_authstate _ c)) with (dnprot c).
    rewrite Em. cbn. by destruct (has_flag c REQUIRE_UAM_AUTH).
  - intros [= <- _]. unfold logs_in. by rewrite (proj2 (Z.eqb_neq _ _) Nu), (proj2 (Z.eqb_neq _ _) Nw), (proj2 (Z.eqb_neq _ _) Nm).
Qed.

Definition started (es : list notice) : Prop := exists attrs, Of_session (Account RADIUS_STATUS_TYPE_START attrs) ∈ es.
(** The session of a client with an address, once a login is accepted. *)
Definition logged_in (d a : nat) (w w' : world) (c' : app_conn) (es : list notice) : Prop :=
  if logs_in c' && negb (hisip c' =? 0) then
    authenticated (s_state c') = 1 /\ (has_flag c' NO_ACCOUNTING = false -> started es) /\
    d_hisip <$> cells (d_conns (dhcp w')) !! d = Some (hisip c')
  else auth_at w' a = auth_at w a \/ auth_at w' a = Some 0.
Lemma set_addrs_knows w d x hisip hismask ourip ourmask dns1 dns2 w' es : cells (d_conns (dhcp w)) !! d = Some x ->
  dhcp_set_addrs cfg w d hisip hismask ourip ourmask dns1 dns2 = Done (w', es) ->
  es = [] /\ d_hisip <$> cells (d_conns (dhcp w')) !! d = Some hisip.
Proof using Huam.
  intros Hx H. unfold dhcp_set_addrs in H. apply bind_inv in H as (w1 & H1 & H). rewrite Huam in H. cbn [andb] in H. injection H as <- <-. split; [done|].
  rewrite (with_dcell_ok _ _ _ x Hx) in H1. injection H1 as <-. cbn. by rewrite list_lookup_alter_eq, Hx.
Qed.
Lemma starts_of es es' : starts_in es -> started (es' ++ map Of_session es).
Proof using. intros [attrs H]. exists attrs. apply elem_of_app. right. by apply list_elem_of_fmap_2. Qed.
Lemma on_session_client {A} w a (f : app_conn -> result (app_conn * A)) c l d x c1 r w' :
  heap (app w) !! a = Some c -> links w !! a = Some l -> downlink l = Some d -> cells (d_conns (dhcp w)) !! d = Some x ->
  f (set_dnlink (Some (authstate x)) c) = Done (c1, r) -> on_session w a f = Done (w', r) -> heap (app w') !! a = Some (set_dnlink None c1).
Proof using.
  intros Hc Hl Hd Hx Hf H. unfold on_session in H. rewrite (heap_deref _ _ _ Hc), (linkof_ok _ _ _ Hl) in H. cbn [mbind outcome_bind] in H.
  rewrite Hd, (dcell_ok _ _ _ Hx) in H. cbn [mbind outcome_bind] in H. rewrite Hf in H. cbn [mbind outcome_bind] in H.
  apply bind_inv in H as (w1 & H1 & H). apply bind_inv in H as (w2 & H2 & [= ->]). apply with_app_inv in H1 as (_ & H1 & _). rewrite Hc in H1.
  destruct (dnlink c1); [apply with_dcell_inv in H2 as [E _]; by rewrite E|by injection H2 as <-].
Qed.
Lemma accept_in w ds as_ d a x c l : good w ds as_ -> client w ds as_ d a x c l -> is_adminsession c = false ->
  exists w' es c', accept w a = Done (w', es) /\ good w' ds as_ /\ kept w w' /\ heap (app w') !! a = Some c' /\ logged_in d a w w' c' es.
Proof using Huam Hstats.
  intros Hg Hc Hadm. destruct (accept_good o popen e inet_aton nas_hwaddr sysinfo cfg mainclock Huam Hstats w ds as_ d a x c l Hg Hc) as (w' & es & H & Hg' & Hk).
  pose proof H as H0. unfold Lease.accept in H. set (c0 := set_dnlink (Some (authstate x)) c). pose proof (g_start Hg a c (c_app Hc)) as Hsp.
  destruct (login_ok o popen e inet_aton nas_hwaddr sysinfo mainclock Hstats c0 Hsp) as (c1 & es1 & Hr & Hcore & _).
  destruct (on_session_same w a (dnprot_accept o popen e inet_aton nas_hwaddr sysinfo mainclock) c l d x c1 es1) as (w1 & H1 & Hs); [apply Hc..|done|done|].
  rewrite H1 in H. cbn [mbind outcome_bind] in H. pose proof (on_session_client _ _ _ _ _ _ _ _ _ _ (c_app Hc) (c_link Hc) (c_down Hc) (c_dcell Hc) Hr H1) as Hh.
  destruct (login_in c0 c1 es1) as [Hip Hin]; [done..|]. destruct (client_kept _ _ _ _ _ _ _ _ _ (sm_kept Hs) Hc) as (x1 & c2 & l1 & Hc1 & _).
  rewrite (linkof_ok _ _ _ (c_link Hc1)), (heap_deref _ _ _ Hh) in H. cbn [mbind outcome_bind] in H. rewrite (c_down Hc1) in H.
  assert (E : heap (app w') !! a = Some (set_dnlink None c1) /\ (existsb is_set_addrs es1 = true -> d_hisip <$> cells (d_conns (dhcp w')) !! d = Some (hisip c1)) /\
    exists pre, es = pre ++ map Of_session es1).
  { destruct (existsb is_set_addrs es1); [|injection H as <- <-; split; [done|]; split; [done|]; by exists []].
    apply bind_inv in H as ([w2 es2] & H2 & [= -> <-]). pose proof (set_addrs_app _ _ _ _ _ _ _ _ _ _ H2) as Ea.
    destruct (set_addrs_knows _ _ _ _ _ _ _ _ _ _ _ (c_dcell Hc1) H2) as [_ Hd]. rewrite Ea. split; [done|]. split; [by intros _|]. by eexists. }
  destruct E as (Eh & Ed & pre & ->). exists w', (pre ++ map Of_session es1), (set_dnlink None c1). repeat (split; [done|]). unfold logged_in.
  change (logs_in (set_dnlink None c1)) with (logs_in c1). change (hisip (set_dnlink None c1)) with (hisip c1). destruct (logs_in c1 && _).
  - destruct Hin as (Ha & Hst & Hset). split; [exact Ha|]. split; [|by apply Ed]. intros Hno. by apply starts_of, Hst.
  - left. unfold auth_at. rewrite Eh, (c_app Hc). cbn. by rewrite Hin.
Qed.

Section Request.
Context (p : bytes) (code id : Z) (auth : bytes) (l : list attr) (user : bytes).
Hypothesis Hp : packet p code id auth l.
Hypothesis Hl : limits_ok l.
Let session := pattr l RADIUS_ATTR_ACCT_SESSION_ID.
Let iscoa := code =? RADIUS_CODE_COA_REQUEST.
Abbreviation coa_session := (coa_session o popen e inet_aton nas_hwaddr sysinfo cfg mainclock mainclock_rt mktime).
Abbreviation coa_loop := (coa_loop o popen e inet_aton nas_hwaddr sysinfo cfg mainclock mainclock_rt mktime).

(** The state that is asked for, and what that makes of the request. *)
Definition state_asked (l : list attr) : option Z := int_of <$> vattr l RADIUS_VENDOR_CHILLISPOT RADIUS_ATTR_CHILLISPOT_SESSION_STATE.
Definition admits (code : Z) (l : list attr) : bool :=
  (code =? RADIUS_CODE_COA_REQUEST) && bool_decide (state_asked l = Some RADIUS_VALUE_CHILLISPOT_SESSION_AUTH).
Definition dismisses (code : Z) (l : list attr) : bool :=
  negb (code =? RADIUS_CODE_COA_REQUEST) || bool_decide (state_asked l = Some RADIUS_VALUE_CHILLISPOT_SESSION_NOAUTH).
Definition matches_at (w : world) (user : bytes) (session : option bytes) (b : nat) : bool :=
  match heap (app w) !! b with Some c => coa_matches user session c | None => false end.
(** The session of [a] when it has been dealt with. *)
Definition dealt (authorize : bool) (a : nat) (w w' : world) (authorize' : bool) : Prop :=
  (dismisses code l = true -> authorize = false -> auth_at w' a <> Some 1) /\
  (admits code l = false -> authorize = false -> auth_at w' a = Some 1 -> auth_at w a = Some 1) /\
  (admits code l = false -> authorize' = authorize).

Lemma moved_auth a w w' : moved a w w' -> auth_at w' a = Some 1 -> auth_at w a = Some 1.
Proof using. intros Hm H. destruct (mv_auth _ _ _ Hm); congruence. Qed.
Lemma coa_session_ok w ds as_ d a authorize : known w ds as_ d a -> exists w' es authorize',
  coa_session w a p iscoa authorize = Done (w', es, authorize') /\ known w' ds as_ d a /\ elsewhere a w w' /\ dealt authorize a w w' authorize'.
Proof using All.
  intros Hk. unfold Reply.coa_session. set (q := if iscoa then _ else _).
  assert (Hq : exists w1 es authorize', q = Done (w1, es, authorize') /\ moved a w w1 /\
    (dismisses code l = true -> auth_at w1 a <> Some 1) /\ (admits code l = false -> authorize' = authorize) /\ (dismisses code l = true -> authorize' = authorize)).
  { unfold q, dismisses, admits, iscoa. destruct (Z.eqb_spec code RADIUS_CODE_COA_REQUEST) as [Hcode|Hcode]; cbn [negb orb andb].
    - pose proof (chilli_finds p code id auth l Hp (lo_attrs l Hl) RADIUS_ATTR_CHILLISPOT_SESSION_STATE) as Hf.
      unfold state_asked. destruct (vattr l _ _) as [v|] eqn:Hv; [|rewrite Hf; obind; eexists w, _, _; by rewrite bool_decide_false].
      destruct Hf as (t & -> & Hh). obind. assert (Hlen : (4 <= length v)%nat).
      { pose proof (ra_chilli l (lo_attrs l Hl)) as Hi. rewrite Forall_forall in Hi. specialize (Hi RADIUS_ATTR_CHILLISPOT_SESSION_STATE).
        rewrite Hv in Hi. apply Hi. by do 5 right; left. }
      rewrite (attr_i_ok p t v Hh Hlen). obind. fold (int_of v). pose proof Hk as (Hg & x & c & lk & Hc). rewrite (heap_deref _ _ _ (c_app Hc)). obind.
      change (be_val (take 4 v)) with (int_of v). cbn [fmap option_fmap option_map].
      destruct (Z.eqb_spec (int_of v) RADIUS_VALUE_CHILLISPOT_SESSION_AUTH) as [E|E].
      + rewrite E. by eexists w, _, _.
      + rewrite (bool_decide_false (Some (int_of v) = Some RADIUS_VALUE_CHILLISPOT_SESSION_AUTH)) by congruence.
        destruct (Z.eqb_spec (int_of v) RADIUS_VALUE_CHILLISPOT_SESSION_NOAUTH) as [E2|E2]; cbn [andb].
        * destruct (Z.eqb_spec (authenticated (s_state c)) 0) as [Ha|Ha]; cbn [negb].
          -- eexists w, _, _. split; [done|]. split; [done|]. split; [|done]. intros _. unfold auth_at. rewrite (c_app Hc). cbn. congruence.
          -- destruct (move_terminate w ds as_ d a RADIUS_TERMINATE_CAUSE_USER_REQUEST Hk) as (w1 & es & Ht & Hm). rewrite Ht. obind.
             eexists w1, _, _. split; [done|]. split; [done|]. split; [|done]. intros _. by eapply terminate_out.
        * rewrite bool_decide_false by congruence. by eexists w, _, _.
    - destruct (move_terminate w ds as_ d a RADIUS_TERMINATE_CAUSE_ADMIN_RESET Hk) as (w1 & es & Ht & Hm). rewrite Ht. obind.
      eexists w1, _, _. split; [done|]. split; [done|]. split; [|done]. intros _. by eapply terminate_out. }
  destruct Hq as (w1 & es1 & au & -> & Hm1 & Hout & Had & Hdis). obind. assert (Hk1 : known w1 ds as_ d a) by (by eapply moved_known).
  destruct (move_config w1 ds as_ d a p code id auth l false Hk1 Hp Hl) as (w2 & es2 & -> & Hm2 & _). obind.
  assert (Hk2 : known w2 ds as_ d a) by (by eapply moved_known). pose proof (moved_auth _ _ _ Hm1) as Hb1. pose proof (moved_auth _ _ _ Hm2) as Hb2.
  destruct au.
  - destruct (accept_known w2 ds as_ d a Hk2) as (w3 & es3 & -> & Hk3 & He3). obind. eexists w3, _, true. split; [done|]. split; [done|].
    split; [transitivity w1; [apply Hm1|transitivity w2; [apply Hm2|done]]|]. split; [|split; [|done]].
    + intros Hd ->. by specialize (Hdis Hd).
    + intros Ha ->. by specialize (Had Ha).
  - obind. eexists w2, _, false. split; [done|]. split; [done|]. split; [transitivity w1; [apply Hm1|apply Hm2]|]. split; [|split; [|done]].
    + intros Hd _ H. apply (Hout Hd). by apply Hb2.
    + intros _ _ H. by apply Hb1, Hb2.
Qed.
Lemma dismisses_admits : dismisses code l = true -> admits code l = false.
Proof using.
  unfold dismisses, admits. destruct (code =? _); [|done]. cbn [negb orb andb]. rewrite bool_decide_eq_true, bool_decide_eq_false. by intros ->.
Qed.
Lemma used_known w ds as_ a : good w ds as_ -> a ∈ as_ -> exists d, known w ds as_ d a.
Proof using.
  intros Hg Ha. destruct (t_down (g_ties Hg) a Ha) as (up & d & mac & ip & _ & Hd & H1). exists d. split; [done|].
  unfold seen_d in H1. destruct (cells (d_conns (dhcp w)) !! d) as [x|] eqn:Hx; [|done]. exists x. injection H1 as H1 _ _.
  by apply (good_client e w ds as_ d a x).
Qed.
Lemma used_next w ds as_ a c k : good w ds as_ -> as_ !! k = Some a -> heap (app w) !! a = Some c -> next c = as_ !! S k.
Proof using.
  intros Hg Hk Hc. destruct (g_rep Hg) as (free & Hr). pose proof (dchain_nx _ _ _ _ _ _ _ (dl_chain _ _ _ (re_used _ _ _ Hr)) Hk) as Hn.
  unfold nx in Hn. rewrite Hc in Hn. exact Hn.
Qed.
Lemma matches_same w w' b : heap (app w') !! b = heap (app w) !! b -> matches_at w' user session b = matches_at w user session b.
Proof using. unfold matches_at. by intros ->. Qed.
Lemma auth_same w w' b : heap (app w') !! b = heap (app w) !! b -> auth_at w' b = auth_at w b.
Proof using. unfold auth_at. by intros ->. Qed.

(** The walk over the rest [r] of the connections in use. *)
Lemma coa_loop_ok r pre w ds as_ fuel authorize fnd : as_ = pre ++ r -> good w ds as_ -> (length r <= fuel)%nat ->
  (admits code l = false -> authorize = false) ->
  exists w' es, coa_loop fuel w (head r) p user session iscoa authorize fnd = Done (w', es, fnd || existsb (matches_at w user session) r) /\
    good w' ds as_ /\ (forall b, b ∉ r \/ matches_at w user session b = false -> heap (app w') !! b = heap (app w) !! b) /\
    (dismisses code l = true -> forall b, b ∈ r -> matches_at w user session b = true -> auth_at w' b <> Some 1) /\
    (admits code l = false -> forall b, auth_at w' b = Some 1 -> auth_at w b = Some 1).
Proof using All.
  revert pre w fuel authorize fnd. induction r as [|a r IH]; intros pre w fuel authorize fnd Has Hg Hfuel Hau.
  { exists w, []. rewrite orb_false_r. split; [by destruct fuel|]. split; [done|]. split; [done|]. split; [|done]. by intros _ b Hb%elem_of_nil. }
  destruct fuel as [|fuel]; [cbn in Hfuel; lia|]. cbn [head Reply.coa_loop existsb].
  assert (Hka : as_ !! length pre = Some a) by (rewrite Has; by apply list_lookup_middle).
  destruct (used_known w ds as_ a Hg) as [d Hk]; [by eapply list_elem_of_lookup_2|]. pose proof Hk as (_ & x & c & lk & Hc).
  rewrite (heap_deref _ _ _ (c_app Hc)). obind. assert (Hm : coa_matches user session c = matches_at w user session a) by (unfold matches_at; by rewrite (c_app Hc)).
  rewrite Hm. set (q := if matches_at w user session a then _ else _).
  assert (Hq : exists w1 es1 au, q = Done (w1, es1, au, fnd || matches_at w user session a) /\ known w1 ds as_ d a /\ elsewhere a w w1 /\
    (admits code l = false -> au = false) /\ (matches_at w user session a = false -> w1 = w) /\
    (dismisses code l = true -> matches_at w user session a = true -> auth_at w1 a <> Some 1) /\
    (admits code l = false -> auth_at w1 a = Some 1 -> auth_at w a = Some 1)).
  { unfold q. destruct (matches_at w user session a).
    - destruct (coa_session_ok w ds as_ d a authorize Hk) as (w1 & es1 & au & -> & Hk1 & He & H1 & H2 & H3). obind. rewrite orb_true_r.
      eexists w1, es1, au. split; [done|]. split; [done|]. split; [done|]. split; [intros Ha; rewrite H3; auto|]. split; [done|]. split.
      + intros Hd _. apply H1; [done|]. by apply Hau, dismisses_admits.
      + intros Ha. apply H2; [done|]. by apply Hau.
    - rewrite orb_false_r. by eexists w, [], authorize. }
  destruct Hq as (w1 & es1 & au & -> & Hk1 & He1 & Hau1 & Hsame1 & Hdis1 & Had1). obind. pose proof Hk1 as (Hg1 & x1 & c1 & lk1 & Hc1).
  rewrite (heap_deref _ _ _ (c_app Hc1)). obind. assert (Hnext : next c1 = head r).
  { rewrite (used_next w1 ds as_ a c1 (length pre) Hg1 Hka (c_app Hc1)), Has, lookup_app_r by lia.
    replace (S (length pre) - length pre)%nat with 1%nat by lia. by destruct r. }
  rewrite Hnext. destruct (IH (pre ++ [a]) w1 fuel au (fnd || matches_at w user session a)) as (w2 & es2 & -> & Hg2 & Hs2 & Hdis2 & Had2);
    [by rewrite <- app_assoc|done|cbn in Hfuel; lia|done|]. obind. destruct (g_rep Hg) as (free & Hr).
  assert (Har : a ∉ r).
  { pose proof (dl_nodup _ _ _ (re_used _ _ _ Hr)) as Hnd. rewrite Has in Hnd. apply NoDup_app in Hnd as (_ & _ & Hnd). by apply NoDup_cons in Hnd as [? _]. }
  assert (Hmr : forall b, b ∈ r -> matches_at w1 user session b = matches_at w user session b)
    by (intros b Hb; apply matches_same, He1; by intros ->).
  assert (Ha2 : heap (app w2) !! a = heap (app w1) !! a) by (apply Hs2; by left).
  eexists w2, _. split.
  { rewrite <- orb_assoc. do 2 f_equal. f_equal. f_equal. clear -Hmr. induction r as [|b r IHr]; [done|]. cbn [existsb]. rewrite Hmr by (by left).
    rewrite IHr; [done|]. intros b' Hb'. apply Hmr. by right. }
  split; [done|]. split; [|split].
  - intros b Hb. destruct (decide (b = a)) as [->|Hne].
    + rewrite Ha2. destruct Hb as [Hb|Hb]; [by destruct Hb; left|]. by rewrite Hsame1.
    + rewrite Hs2; [by apply He1|]. destruct (decide (b ∈ r)) as [Hbr|Hbr]; [|by left]. right. rewrite Hmr by done.
      destruct Hb as [Hb|Hb]; [by destruct Hb; right|done].
  - intros Hd b [->|Hb]%elem_of_cons Hmb; [rewrite (auth_same _ _ _ Ha2); by apply Hdis1|]. apply Hdis2; [done..|]. by rewrite Hmr.
  - intros Ha b Hb. apply Had2 in Hb; [|done]. destruct (decide (b = a)) as [->|Hne]; [by apply Had1|]. by rewrite <- (auth_same w w1) by (by apply He1).
Qed.

Definition answer_code (code : Z) (found : bool) : Z :=
  if code =? RADIUS_CODE_COA_REQUEST then (if found then RADIUS_CODE_COA_ACK else RADIUS_CODE_COA_NAK)
  else if found then RADIUS_CODE_DISCONNECT_ACK else RADIUS_CODE_DISCONNECT_NAK.
(** C7: a disconnection or a change of authorization from the server, with the name of a
    user, is about the sessions in use of this user and, if it names one, with this
    session identifier: it is acknowledged when there is one, and all other sessions
    stay as they are. After a disconnection, or a change to a session without
    authorization, none of the sessions it is about is logged in; and no session is
    logged in that was not, unless the request is a change to an authorized session. The
    state stays consistent. This is for requests whose WISPr and ChilliSpot attributes
    hold one sub-attribute each, with integers of at least four bytes, without the
    command admin-reset, which makes the walk over the sessions miss some, without a
    start point, and with a time to end within 68 years; and for a daemon without
    uamanyip and default start point whose usage script, if any, can be run. *)
Theorem cb_radius_coa_ind_spec w ds as_ : good w ds as_ ->
  code = RADIUS_CODE_DISCONNECT_REQUEST \/ code = RADIUS_CODE_COA_REQUEST -> pattr l RADIUS_ATTR_USER_NAME = Some user ->
  let hit := matches_at w user (pattr l RADIUS_ATTR_ACCT_SESSION_ID) in
  exists w' es, cb_radius_coa_ind o popen e inet_aton nas_hwaddr sysinfo cfg mainclock mainclock_rt mktime w p =
      Done (true, w', es ++ [Coa_answer (answer_code code (existsb hit as_)) id]) /\ good w' ds as_ /\
    (forall b, b ∉ as_ \/ hit b = false -> heap (app w') !! b = heap (app w) !! b) /\
    (dismisses code l = true -> forall b, b ∈ as_ -> hit b = true -> auth_at w' b <> Some 1) /\
    (admits code l = false -> forall b, auth_at w' b = Some 1 -> auth_at w b = Some 1).
Proof using All.
  intros Hg Hcode Huser hit. unfold cb_radius_coa_ind. rewrite (RadiusQueue.packet_code _ _ _ _ _ Hp). obind.
  assert (Hc : negb (code =? RADIUS_CODE_DISCONNECT_REQUEST) && negb (code =? RADIUS_CODE_COA_REQUEST) = false) by (by destruct Hcode as [->| ->]).
  rewrite Hc. clear Hc. pose proof (plain_finds p code id auth l Hp (lo_attrs l Hl) RADIUS_ATTR_USER_NAME) as Hu. rewrite Huser in Hu.
  destruct Hu as (t & -> & Hh). obind. rewrite (attr_text_ok p t user Hh). obind.
  pose proof (plain_finds p code id auth l Hp (lo_attrs l Hl) RADIUS_ATTR_ACCT_SESSION_ID) as Hs. fold session in Hs.
  set (q := plain p RADIUS_ATTR_ACCT_SESSION_ID) in *.
  assert (Hq : (s ← q; match s with Some s => v ← attr_text p s; Done (Some v) | None => Done None end) = Done session).
  { destruct session as [s|]; [destruct Hs as (ts & -> & Hhs); obind; by rewrite (attr_text_ok p ts s Hhs)|by rewrite Hs]. }
  assert (Hq2 : exists s, q = Done s) by (destruct session; [destruct Hs as (ts & -> & _); by eexists|by exists None]).
  destruct Hq2 as (s & Es). rewrite Es in *. obind. cbn [mbind outcome_bind] in Hq. rewrite Hq. obind.
  destruct (g_rep Hg) as (free & Hr). replace (firstusedconn (app w)) with (head as_) by (symmetry; apply (dl_head _ _ _ (re_used _ _ _ Hr))).
  destruct (coa_loop_ok as_ [] w ds as_ (length (heap (app w))) false false eq_refl Hg) as (w' & es & H1 & Hg' & H2 & H3 & H4); [|done|].
  { pose proof (conn_rep_length _ _ _ Hr). lia. }
  unfold iscoa in H1. rewrite H1. obind. rewrite (RadiusQueue.packet_id _ _ _ _ _ Hp). obind. cbn [orb]. fold hit. exists w', es. split; [|done].
  unfold answer_code, hit, session. by destruct (existsb _ as_), (code =? RADIUS_CODE_COA_REQUEST).
Qed.
End Request.

(** *** Answers to requests *)

Lemma take_elsewhere w a m msk w' : take_member cfg w a m msk = Done w' -> elsewhere a w w'.
Proof.
  intros H. unfold take_member in H. apply bind_inv in H as (x & _ & H). apply bind_inv in H as (w1 & H1 & H). apply bind_inv in H as (w2 & H2 & H3).
  apply with_app_inv in H1 as (He & _). apply with_link_inv in H2 as [E2 _]. apply with_member_inv in H3.
  transitivity w1; [done|]. apply elsewhere_app. congruence.
Qed.
Lemma snat_same w a force r : chilli_assign_snat o popen e inet_aton nas_hwaddr sysinfo cfg mainclock mainclock_rt w a force = Done r -> r = (true, w, []).
Proof.
  intros H. unfold chilli_assign_snat in H. apply bind_inv in H as (l & _ & H). apply bind_inv in H as (c & _ & H). rewrite Huam in H. by injection H as <-.
Qed.
Lemma upprot_elsewhere w a hisip netmask w' es : upprot_getip w a hisip netmask = Done (w', es) -> elsewhere a w w'.
Proof.
  intros H. unfold Lease.upprot_getip in H. apply bind_inv in H as (l & _ & H). apply bind_inv in H as ([got w1] & Hgot & H).
  assert (He : elsewhere a w w1).
  { destruct (uplink l); [by injection Hgot as _ <-|]. apply bind_inv in Hgot as (mac & _ & Hgot). apply bind_inv in Hgot as ([r ip] & _ & Hgot).
    apply bind_inv in Hgot as (w2 & H2 & Hgot). assert (He2 : elsewhere a w w2).
    { destruct hisip; [by injection H2 as <-|]. apply with_link_inv in H2 as [E _]. by apply elsewhere_app. }
    destruct r as [[m p]|]; [|by injection Hgot as _ <-]. apply bind_inv in Hgot as (w3 & H3 & [= _ <-]). apply take_elsewhere in H3.
    transitivity w2; [done|]. transitivity (set_pool p w2); [by apply elsewhere_app|done]. }
  destruct got.
  - apply bind_inv in H as ([[ok w2] es2] & H2 & H). apply snat_same in H2. injection H2 as -> -> ->.
    apply bind_inv in H as ([w3 es3] & H3 & [= <- _]). transitivity w1; [done|by eapply accept_elsewhere].
  - apply on_session_inv in H as [H _]. by transitivity w1.
Qed.

(** *** Addresses for accepted clients *)

(** The address a client gets: the one it has, or one the pool has for it. *)
Definition member_for (w : world) (lk : link) (x : dhcp_conn) (want : Z) (m : option nat) : Prop :=
  match uplink lk with
  | Some m0 => m = Some m0
  | None => exists r ip, newip e cfg (pool w) want (Some (d_hismac x)) = Done (r, ip) /\ m = fst <$> r
  end.
(** An accepted client: it has an address, its own or a new one, and is logged in; or there was none for it. *)
Definition admitted (want : Z) (d a : nat) (w w' : world) (es : list notice) : Prop :=
  exists x lk c' lk', cells (d_conns (dhcp w)) !! d = Some x /\ links w !! a = Some lk /\ heap (app w') !! a = Some c' /\ links w' !! a = Some lk' /\
    member_for w lk x want (uplink lk') /\
    match uplink lk' with
    | Some m => IpPool.addr <$> IpPool.member (pool w') !! m = Some (hisip c') /\ logged_in d a w w' c' es
    | None => moved a w w'
    end.

Lemma take_session w a m msk w' : take_member cfg w a m msk = Done w' -> exists ip, heap (app w') !! a = set_hisip ip <$> heap (app w) !! a.
Proof using.
  intros H. unfold take_member in H. apply bind_inv in H as (x & _ & H). apply bind_inv in H as (w1 & H1 & H). apply bind_inv in H as (w2 & H2 & H3).
  apply with_app_inv in H1 as (_ & H1 & _). apply with_link_inv in H2 as [E2 _]. apply with_member_inv in H3. exists (IpPool.addr x). congruence.
Qed.
(** A client with an address. *)
Lemma admit_in w0 w want ds as_ d a x0 lk0 x c l m : cells (d_conns (dhcp w0)) !! d = Some x0 -> links w0 !! a = Some lk0 ->
  member_for w0 lk0 x0 want (Some m) -> auth_at w a = auth_at w0 a ->
  good w ds as_ -> client w ds as_ d a x c l -> uplink l = Some m -> is_adminsession c = false ->
  exists w' es, accept w a = Done (w', es) /\ good w' ds as_ /\ admitted want d a w0 w' es.
Proof using Huam Hstats.
  intros Hx0 Hl0 Hm Hauth Hg Hc Hu Hadm. destruct (accept_in w ds as_ d a x c l Hg Hc Hadm) as (w' & es & c' & H & Hg' & Hk & Hh & Hin).
  exists w', es. split; [done|]. split; [done|]. destruct (client_kept _ _ _ _ _ _ _ _ _ Hk Hc) as (x' & c2 & l' & Hc' & _ & _ & El).
  assert (c2 = c') as -> by (pose proof (c_app Hc'); congruence). assert (Hu' : uplink l' = Some m) by (unfold lcore in El; congruence).
  exists x0, lk0, c', l'. split; [done|]. split; [done|]. split; [done|]. split; [apply Hc'|]. rewrite Hu'. split; [done|].
  destruct (client_address _ _ _ _ _ _ _ _ _ _ Hg' Hc' Hu') as (y & -> & _ & _ & ->). split; [done|]. unfold logged_in in *. by rewrite <- Hauth.
Qed.
Lemma getip_in w ds as_ d a x c l hisip mask : good w ds as_ -> client w ds as_ d a x c l -> is_adminsession c = false ->
  exists w' es, upprot_getip w a hisip mask = Done (w', es) /\ good w' ds as_ /\ admitted (default (reqip l) hisip) d a w w' es.
Proof using Huam Hstats Hstart.
  intros Hg Hc Hadm. unfold Lease.upprot_getip. rewrite (linkof_ok _ _ _ (c_link Hc)). obind. set (want := default (reqip l) hisip).
  destruct (uplink l) as [m|] eqn:Hu.
  - obind. rewrite (snat_ok o popen e inet_aton nas_hwaddr sysinfo cfg mainclock mainclock_rt Huam w ds as_ d a x c l false Hc). obind.
    destruct (admit_in w w want ds as_ d a x l x c l m) as (w' & es & -> & Hr); [apply Hc..| |done|done|done|done|done|]; [unfold member_for; by rewrite Hu|].
    obind. by exists w', es.
  - rewrite (c_down Hc). obind. rewrite (dcell_ok _ _ _ (c_dcell Hc)). obind. set (mask' := if negb (mask =? 0) then _ else _).
    destruct (get_address e cfg Huam w ds as_ d a x c l mask' want hisip Hg Hc Hu) as (r & ip & Hn & w1 & H1 & Hg1 & _ & Hr). rewrite Hn. obind. rewrite H1. obind.
    assert (Hm1 : moved a w w1).
    { destruct hisip; [by injection H1 as <-|]. destruct (move_link w ds as_ d a (set_reqip ip)) as (w1' & l1 & H1' & Hm & _); [|done..|congruence]. split; [done|by exists x, c, l]. }
    destruct r as [[m p]|].
    + destruct Hr as (w2 & x2 & c2 & l2 & H2 & Hg2 & _ & Hc2 & Hu2). rewrite H2. obind. rewrite (snat_ok o popen e inet_aton nas_hwaddr sysinfo cfg mainclock mainclock_rt Huam w2 ds as_ d a x2 c2 l2 false Hc2). obind.
      apply take_session in H2 as (ip2 & Hh2). change (app (set_pool p w1)) with (app w1) in Hh2.
      assert (E1 : app w1 = app w) by (destruct hisip; [by injection H1 as <-|by apply with_link_inv in H1 as [? _]]). rewrite E1, (c_app Hc), (c_app Hc2) in Hh2. injection Hh2 as ->.
      destruct (admit_in w w2 want ds as_ d a x l x2 (set_hisip ip2 c) l2 m) as (w' & es & -> & Hr); [apply Hc..| | |done|done|done|done|obind; by exists w', es].
      * unfold member_for. rewrite Hu. by exists (Some (m, p)), ip.
      * unfold auth_at. by rewrite (c_app Hc), (c_app Hc2).
    + obind. destruct (move_reject w1 ds as_ d a) as (w2 & es & H2 & Hm2); [apply (moved_known a w w1); [done|]; split; [done|by exists x, c, l]|].
      unfold Reply.reject in H2. rewrite H2. exists w2, es. split; [done|]. assert (Hm : moved a w w2) by (by transitivity w1). split; [eapply good_same; [apply Hm|exact Hg]|].
      destruct (client_kept _ _ _ _ _ _ _ _ _ (sm_kept (mv_same _ _ _ Hm)) Hc) as (x' & c' & l' & Hc' & _ & _ & El).
      assert (Hu' : uplink l' = None) by (unfold lcore in El; congruence). exists x, l, c', l'. split; [apply Hc|]. split; [apply Hc|]. split; [apply Hc'|]. split; [apply Hc'|].
      rewrite Hu'. split; [|done]. unfold member_for. rewrite Hu. by exists None, ip.
Qed.

(** The address a packet assigns: whether there is one, with its mask; [None] when it is
    malformed. *)
Definition framed_of (l : list attr) (type vtype : Z) : option bytes :=
  match pattr l type with Some v => Some v | None => vattr l RADIUS_VENDOR_CHILLISPOT vtype end.
Definition address_given (l : list attr) (reqip : Z) : option (bool * Z * Z) :=
  match framed_of l RADIUS_ATTR_FRAMED_IP_ADDRESS RADIUS_ATTR_CHILLISPOT_DHCP_IP_ADDRESS with
  | None => Some (false, reqip, 0)
  | Some ip =>
    if negb (length ip =? 4)%nat then None
    else
      match framed_of l RADIUS_ATTR_FRAMED_IP_NETMASK RADIUS_ATTR_CHILLISPOT_DHCP_IP_NETMASK with
      | None => Some (true, word_val e ip, 0)
      | Some mask => if negb (length mask =? 4)%nat then None else Some (true, word_val e ip, word_val e mask)
      end
  end.
(** It is the one the client has, if it has one. *)
Definition no_move (lk : link) (c : app_conn) (l : list attr) : Prop :=
  match address_given l (reqip lk) with
  | Some (true, ip, _) => ip = 0 \/ uplink lk = None \/ hisip c = ip
  | _ => True
  end.
(** A reply without EAP and without the keys of access points; the names in it fit into
    the arrays they are copied to. *)
Record reply_ok (l : list attr) : Prop := {
  ro_limits : limits_ok l;
  ro_names : dhcpradius cfg = true ->
    (forall v, vattr l RADIUS_VENDOR_CHILLISPOT RADIUS_ATTR_CHILLISPOT_DHCP_SERVER_NAME = Some v -> (length v <= DHCP_SNAME_LEN)%nat) /\
    (forall v, vattr l RADIUS_VENDOR_CHILLISPOT RADIUS_ATTR_CHILLISPOT_DHCP_FILENAME = Some v -> (length v <= DHCP_FILE_LEN)%nat);
  ro_eap : pattr l RADIUS_ATTR_EAP_MESSAGE = None;
  ro_keys : forall type, vattr l RADIUS_VENDOR_MS type = None;
}.
(** The time for the session is over. *)
Definition late (l : list attr) : bool :=
  match ends l with Done t => negb (t =? 0) && (0 <? mainclock_rt - t) | _ => false end.
(** Whether a reply, [None] for none in time, accepts a client, and the address it is to get
    if it has none. *)
Definition accepted_at (lk : link) (reply : option (Z * list attr)) : option Z :=
  match reply with
  | None => if noradallow cfg then Some (reqip lk) else None
  | Some (code, l) =>
    match address_given l (reqip lk) with
    | Some (_, ip, _) =>
      if (code =? RADIUS_CODE_ACCESS_ACCEPT) && negb (late l) && ((authtype lk =? PAP_PASSWORD) || (authtype lk =? CHAP_DIGEST_MD5)) then Some ip else None
    | None => None
    end
  end.
Definition answers (pack : option bytes) (reply : option (Z * list attr)) : Prop :=
  match reply, pack with
  | None, None => True
  | Some (code, l), Some p => exists id auth, packet p code id auth l
  | _, _ => False
  end.

Section Decision.
Context `{Digest} (secret req_auth : bytes).
Abbreviation access_accept := (access_accept o popen e inet_aton nas_hwaddr sysinfo cfg mainclock mainclock_rt mktime secret req_auth).
Abbreviation cb_radius_auth_conf := (cb_radius_auth_conf o popen e inet_aton nas_hwaddr sysinfo cfg mainclock mainclock_rt mktime secret req_auth).

(** The client has been dealt with: accepted, for this address if it has none, or as it was. *)
Definition decided (yes : option Z) (ds as_ : list nat) (d a : nat) (w : world) (r : result (world * list notice)) : Prop :=
  exists w' es, r = Done (w', es) /\ good w' ds as_ /\ elsewhere a w w' /\
    match yes with Some want => admitted want d a w w' es | None => moved a w w' end.
Lemma admitted_moved want w ds as_ d a w1 w' es : known w ds as_ d a -> moved a w w1 -> admitted want d a w1 w' es -> admitted want d a w w' es.
Proof using.
  intros (Hg & x0 & c0 & l0 & Hc) Hm (x & lk & c' & lk' & Hx & Hlk & Hc' & Hlk' & Hmem & Hrest).
  destruct (client_kept _ _ _ _ _ _ _ _ _ (sm_kept (mv_same _ _ _ Hm)) Hc) as (x1 & c1 & l1 & Hc1 & Ex & _ & El).
  assert (x1 = x) as -> by (pose proof (c_dcell Hc1); congruence). assert (l1 = lk) as -> by (pose proof (c_link Hc1); congruence).
  exists x0, l0, c', lk'. split; [apply Hc|]. split; [apply Hc|]. split; [done|]. split; [done|]. split.
  - unfold member_for in *. rewrite (k_pool (sm_kept (mv_same _ _ _ Hm))) in Hmem. replace (uplink l0) with (uplink lk) by (unfold lcore in El; congruence).
    by replace (d_hismac x0) with (d_hismac x) by (unfold dcore in Ex; congruence).
  - destruct (uplink lk') as [m|]; [|by transitivity w1]. destruct Hrest as [Hip Hin]. split; [done|]. unfold logged_in in *.
    destruct (logs_in c' && _); [done|]. destruct Hin as [->| ->]; [apply Hm|by right].
Qed.
Lemma admitted_events want d a w w' es es' : admitted want d a w w' es' -> admitted want d a w w' (es ++ es').
Proof using.
  intros (x & lk & c' & lk' & Hx & Hlk & Hc' & Hlk' & Hmem & Hrest). exists x, lk, c', lk'. repeat (split; [done|]).
  destruct (uplink lk'); [|done]. destruct Hrest as [Hip Hin]. split; [done|]. unfold logged_in in *. destruct (logs_in c' && _); [|done].
  destruct Hin as (H1 & H2 & H3). split; [done|]. split; [|done]. intros Hno. destruct (H2 Hno) as [attrs Hat]. exists attrs. apply elem_of_app. by right.
Qed.
Lemma decided_moved yes ds as_ d a w w1 r : known w ds as_ d a -> moved a w w1 -> decided yes ds as_ d a w1 r -> decided yes ds as_ d a w r.
Proof using.
  intros Hk Hm (w' & es & -> & Hg & He & Hd). exists w', es. split; [done|]. split; [done|]. split; [transitivity w1; [apply Hm|done]|].
  destruct yes; [|by transitivity w1]. by eapply admitted_moved.
Qed.
Lemma decided_events yes ds as_ d a w r es : decided yes ds as_ d a w r -> decided yes ds as_ d a w ('(w, es') ← r; Done (w, es ++ es')).
Proof using.
  intros (w' & es' & -> & Hg & He & Hd). obind. eexists w', _. split; [done|]. split; [done|]. split; [done|]. destruct yes; [by apply admitted_events|done].
Qed.
Lemma decided_reject w ds as_ d a : known w ds as_ d a -> decided None ds as_ d a w (reject w a).
Proof using Huam Hstats Hstart.
  intros Hk. destruct (move_reject w ds as_ d a Hk) as (w' & es & H1 & Hm). exists w', es. split; [done|]. split; [|split; [apply Hm|done]].
  by destruct (moved_known _ _ _ _ _ _ Hm Hk).
Qed.
Definition ordinary (w : world) (a : nat) : Prop := forall c, heap (app w) !! a = Some c -> is_adminsession c = false.
Lemma decided_getip w ds as_ d a ip mask lk : known w ds as_ d a -> ordinary w a -> links w !! a = Some lk ->
  decided (Some (default (reqip lk) ip)) ds as_ d a w (upprot_getip w a ip mask).
Proof using Huam Hstats Hstart.
  intros (Hg & x & c & l & Hc) Ho Hlk. assert (l = lk) as -> by (pose proof (c_link Hc); congruence).
  destruct (getip_in w ds as_ d a x c lk ip mask Hg Hc (Ho c (c_app Hc))) as (w' & es & H1 & Hg' & Ha). exists w', es.
  split; [done|]. split; [done|]. split; [by eapply upprot_elsewhere|done].
Qed.

Section Reply.
Context (p : bytes) (code id : Z) (auth : bytes) (l : list attr) (Hp : packet p code id auth l) (Hl : reply_ok l).
Let Ha : attrs_ok l := lo_attrs l (ro_limits l Hl).

Lemma framed_finds type vtype : finds p (framed p type vtype) (framed_of l type vtype).
Proof using All.
  unfold framed, framed_of. pose proof (plain_finds p code id auth l Hp Ha type) as H1. destruct (pattr l type) as [v|].
  - destruct H1 as (t & -> & Hh). obind. by exists t.
  - rewrite H1. obind. by apply (chilli_finds p code id auth l).
Qed.
Lemma four_bytes t v : holds p t v -> byte_at p (t + 1) = Done (Z.of_nat (length v) + 2) /\
  negb (Z.of_nat (length v) + 2 =? 6) = negb (length v =? 4)%nat /\ (length v = 4%nat -> attr_i p t = Done v).
Proof using.
  intros Hh. split; [apply Hh|]. split.
  - f_equal. destruct (Nat.eqb_spec (length v) 4) as [->|]; [done|]. apply Z.eqb_neq. lia.
  - intros E. rewrite (attr_i_ok p t v Hh) by lia. by rewrite take_ge by lia.
Qed.
Lemma framed_ip_ok reqip : framed_ip e p reqip = Done (address_given l reqip).
Proof using All.
  unfold framed_ip, address_given. pose proof (framed_finds RADIUS_ATTR_FRAMED_IP_ADDRESS RADIUS_ATTR_CHILLISPOT_DHCP_IP_ADDRESS) as H1.
  destruct (framed_of l RADIUS_ATTR_FRAMED_IP_ADDRESS _) as [ip|]; [|by rewrite H1]. destruct H1 as (t & -> & Hh). obind.
  destruct (four_bytes t ip Hh) as (-> & E & Hi). obind. rewrite E. destruct (Nat.eqb_spec (length ip) 4) as [E4|]; cbn [negb]; [|done].
  rewrite (Hi E4). obind. pose proof (framed_finds RADIUS_ATTR_FRAMED_IP_NETMASK RADIUS_ATTR_CHILLISPOT_DHCP_IP_NETMASK) as H2.
  destruct (framed_of l RADIUS_ATTR_FRAMED_IP_NETMASK _) as [m|]; [|by rewrite H2]. destruct H2 as (t2 & -> & Hh2). obind.
  destruct (four_bytes t2 m Hh2) as (-> & E2 & Hi2). obind. rewrite E2. destruct (Nat.eqb_spec (length m) 4) as [E5|]; cbn [negb]; [|done].
  by rewrite (Hi2 E5).
Qed.
(** Without EAP there is no challenge. *)
Lemma eap_none w ds as_ d a : known w ds as_ d a -> exists w' lk, eap_message w a p = Done (true, w') /\ moved a w w' /\
  links w' !! a = Some lk /\ chal (radproxy lk) = [].
Proof using All.
  intros Hk. unfold eap_message. cbn [eap_loop]. pose proof (plain_finds p code id auth l Hp Ha RADIUS_ATTR_EAP_MESSAGE) as H1. rewrite (ro_eap l Hl) in H1.
  unfold plain in H1. cbn [finds] in H1. rewrite H1. obind.
  edestruct (move_link w ds as_ d a) as (w' & lk & -> & Hm & _ & Hlk); [exact Hk|..]; [| |obind; eexists w', _; split; [done|]; split; [done|]; split; [exact Hlk|done]]; done.
Qed.
Lemma no_keys type : vendors p RADIUS_VENDOR_MS type = Done None.
Proof using Hp Hl.
  assert (Hv : Forall (vsa_ok RADIUS_VENDOR_MS) l).
  { apply Forall_forall. intros x Hx Ht Hid. exfalso. pose proof (pa_ok _ _ _ _ _ Hp) as Hall. rewrite Forall_forall in Hall.
    pose proof (ao_vendor _ (Hall x Hx) Ht) as Hlen. destruct (lookup_lt_is_Some_2 (a_value x) 4) as [vt Hvt]; [lia|].
    pose proof (ro_keys l Hl vt) as Hno. unfold vattr, values in Hno. apply head_None, fmap_nil_inv in Hno.
    assert (Hin : In x (List.filter (matches RADIUS_ATTR_VENDOR_SPECIFIC RADIUS_VENDOR_MS vt) l)).
    { apply filter_In. split; [by apply list_elem_of_In|]. unfold matches. by rewrite Ht, Hid, Hvt, bool_decide_true. }
    by rewrite Hno in Hin. }
  pose proof (vendors_finds p code id auth l Hp RADIUS_VENDOR_MS type Hv) as H1. by rewrite (ro_keys l Hl) in H1.
Qed.
Lemma proxy_keys_none px : exists px', proxy_keys secret req_auth p px = Done (true, px') /\ chal px' = chal px.
Proof using All.
  unfold proxy_keys. assert (Hno : forall type, vendors p RADIUS_VENDOR_MS type = Done None).
  { apply no_keys. }
  rewrite !Hno. cbn [key_attr pw_attr number_attr mbind outcome_bind negb]. by eexists.
Qed.
Lemma authtype_none lk : chal (radproxy lk) = [] ->
  authtype_ok p lk = Done ((authtype lk =? PAP_PASSWORD) || (authtype lk =? CHAP_DIGEST_MD5)).
Proof using All.
  intros Hc. unfold authtype_ok. assert (Hno : forall type, vendors p RADIUS_VENDOR_MS type = Done None).
  { apply no_keys. }
  rewrite !Hno, Hc. obind. destruct (_ || _); [done|]. destruct (_ =? EAP_MESSAGE); [done|]. destruct (_ =? CHAP_MICROSOFT); [done|]. by destruct (_ =? CHAP_MICROSOFT_V2).
Qed.

(** What the reply tells the DHCP server does not concern sessions. *)
Lemma vattr_length type v : vattr l RADIUS_VENDOR_CHILLISPOT type = Some v -> (length v <= DHCP_OPTIONS_LEN)%nat.
Proof using Hp.
  intros Hv. apply head_Some_elem_of, list_elem_of_fmap in Hv as (x & -> & Hx). apply list_elem_of_In, filter_In in Hx as [Hx _].
  pose proof (pa_ok _ _ _ _ _ Hp) as Hall. rewrite Forall_forall in Hall. apply list_elem_of_In, Hall, ao_length in Hx.
  unfold carried, DHCP_OPTIONS_LEN. destruct (_ && _); rewrite ?length_drop; lia.
Qed.
Lemma move_text w ds as_ d a type f : known w ds as_ d a ->
  (forall v, vattr l RADIUS_VENDOR_CHILLISPOT type = Some v -> exists w', f w v = Done w' /\ moved a w w') ->
  exists w', on_text p type f w = Done w' /\ moved a w w'.
Proof using All.
  intros Hk Hf. unfold on_text. pose proof (chilli_finds p code id auth l Hp Ha type) as H1.
  destruct (vattr l _ type) as [v|]; [|rewrite H1; by exists w]. destruct H1 as (t & -> & Hh). obind. rewrite (attr_text_ok p t v Hh). obind. by apply Hf.
Qed.
Lemma move_word w ds as_ d a type f : known w ds as_ d a -> (forall i, exists w', f w i = Done w' /\ moved a w w') ->
  exists w', on_word e p type f w = Done w' /\ moved a w w'.
Proof using All.
  intros Hk Hf. unfold on_word. pose proof (chilli_finds p code id auth l Hp Ha type) as H1.
  destruct (vattr l _ type) as [v|]; [|rewrite H1; by exists w]. destruct H1 as (t & -> & Hh). obind. rewrite (proj1 Hh). obind.
  destruct (Z.eqb_spec (Z.of_nat (length v) + 2) 6); [|by exists w]. rewrite (attr_i_ok p t v Hh) by lia. obind. apply Hf.
Qed.
Lemma move_dcell w ds as_ d a f : known w ds as_ d a ->
  (forall x, (dcore (f x), d_hisip (f x), lasttime (f x)) = (dcore x, d_hisip x, lasttime x)) -> exists w', with_dcell w d f = Done w' /\ moved a w w'.
Proof using.
  intros (Hg & x & c & lk & Hc) Hf. assert (E : dcore (f x) = dcore x /\ d_hisip (f x) = d_hisip x /\ lasttime (f x) = lasttime x) by (pose proof (Hf x); split; [|split]; congruence).
  destruct E as (E1 & E2 & E3). destruct (with_dcell_same w d f x (c_dcell Hc) E1 E2 E3) as (w' & Hw & Hs). exists w'. split; [done|].
  apply with_dcell_inv in Hw as [Ea El]. split; [done|by apply elsewhere_app| |by rewrite El]. left. unfold auth_at. by rewrite Ea.
Qed.
Lemma move_opts w ds as_ d a f : known w ds as_ d a -> (forall q, exists q', f q = Done q') -> exists w', with_opts w d f = Done w' /\ moved a w w'.
Proof using.
  intros Hk Hf. pose proof Hk as (Hg & x & c & lk & Hc). unfold with_opts. rewrite (dcell_ok _ _ _ (c_dcell Hc)). obind. destruct (Hf (dhcp_opts x)) as (q & ->). obind.
  by apply (move_dcell w ds as_).
Qed.
Lemma move_told w ds as_ d a g f : known w ds as_ d a -> (forall k, lcore (g k) = lcore k) -> (forall k, authtype (g k) = authtype k) ->
  (forall x, (dcore (f x), d_hisip (f x), lasttime (f x)) = (dcore x, d_hisip x, lasttime x)) ->
  exists w', (w ← with_link w a g; with_dcell w d f) = Done w' /\ moved a w w'.
Proof using.
  intros Hk H1 H2 H3. destruct (move_link w ds as_ d a g Hk H1 H2) as (w1 & lk & -> & Hm & _). obind.
  destruct (move_dcell w1 ds as_ d a f) as (w2 & -> & Hm2); [by eapply moved_known|done|]. exists w2. split; [done|by transitivity w1].
Qed.
Lemma move_reply w ds as_ d a : known w ds as_ d a -> dhcpradius cfg = true -> exists w', dhcp_reply e w a d p = Done w' /\ moved a w w'.
Proof using All.
  intros Hk Hrad. destruct (ro_names l Hl Hrad) as [Hs Hf]. unfold dhcp_reply, copy_into.
  assert (Hstep : forall w0 (r : result world) k, known w0 ds as_ d a -> (exists w1, r = Done w1 /\ moved a w0 w1) ->
    (forall w1, known w1 ds as_ d a -> exists w', k w1 = Done w' /\ moved a w1 w') -> exists w', mbind k r = Done w' /\ moved a w0 w').
  { intros w0 r k Hk0 (w1 & -> & Hm) Hnext. obind. destruct (Hnext w1) as (w' & -> & Hm'); [by eapply moved_known|]. exists w'. split; [done|by transitivity w1]. }
  apply (Hstep w); [done| |clear w Hk; intros w Hk].
  { apply (move_text w ds as_ d); [done|]. intros v Hv. apply (move_opts w ds as_); [done|]. intros q. rewrite (proj2 (Nat.leb_le _ _) (Hs v Hv)). by eexists. }
  apply (Hstep w); [done| |clear w Hk; intros w Hk].
  { apply (move_text w ds as_ d); [done|]. intros v Hv. apply (move_opts w ds as_); [done|]. intros q. rewrite (proj2 (Nat.leb_le _ _) (Hf v Hv)). by eexists. }
  apply (Hstep w); [done| |clear w Hk; intros w Hk].
  { apply (move_text w ds as_ d); [done|]. intros v Hv. apply (move_opts w ds as_); [done|]. intros q. rewrite (proj2 (Nat.leb_le _ _) (vattr_length _ v Hv)). by eexists. }
  do 3 (apply (Hstep w); [done|by apply (move_word w ds as_ d); [done|]; intros i; apply (move_told w ds as_ d)|clear w Hk; intros w Hk]).
  apply (move_text w ds as_ d); [done|]. intros v _. destruct (_ <? _)%nat; [by apply (move_dcell w ds as_)|by exists w].
Qed.

Definition type_in (w : world) (a : nat) : Z := from_option authtype 0 (links w !! a).
Lemma moved_type a w w' : moved a w w' -> type_in w' a = type_in w a.
Proof using. intros [_ _ _ H1]. unfold type_in. destruct (links w' !! a), (links w !! a); try done. by injection H1. Qed.
Lemma known_admin w w' ds as_ d a c : known w ds as_ d a -> moved a w w' -> heap (app w') !! a = Some c ->
  (forall c0, heap (app w) !! a = Some c0 -> is_adminsession c0 = false) -> is_adminsession c = false.
Proof using.
  intros (Hg & x & c0 & lk & Hc) Hm Hh Hn. destruct (kept_app _ _ _ _ (sm_kept (mv_same _ _ _ Hm)) (c_app Hc)) as (c' & Hc' & E).
  rewrite <- (Hn c0 (c_app Hc)). assert (c' = c) as -> by congruence. unfold acore, Session.frame in E. congruence.
Qed.
Lemma moved_ordinary a w w' ds as_ d : known w ds as_ d a -> moved a w w' -> ordinary w a -> ordinary w' a.
Proof using. intros Hk Hm Ho c Hc. by eapply known_admin. Qed.

Lemma access_accept_ok w ds as_ d a ip mask : known w ds as_ d a -> ordinary w a ->
  decided (if negb (late l) && ((type_in w a =? PAP_PASSWORD) || (type_in w a =? CHAP_DIGEST_MD5)) then Some ip else None) ds as_ d a w (access_accept w a p ip mask).
Proof using All.
  intros Hk Ho. unfold Reply.access_accept. pose proof (plain_finds p code id auth l Hp Ha RADIUS_ATTR_CLASS) as H1. set (q := plain p RADIUS_ATTR_CLASS) in *.
  assert (Hq : exists t, q = Done t /\ exists v, match t with Some t => attr_text p t | None => Done [] end = Done v).
  { destruct (pattr l _) as [v|]; [destruct H1 as (t & -> & Hh); exists (Some t); split; [done|]; exists v; by apply attr_text_ok|by exists None; split; [|exists []]]. }
  destruct Hq as (t & -> & v & Ev). obind. rewrite Ev. obind.
  destruct (move_app w ds as_ d a (set_classbuf v) Hk) as (w1 & -> & Hm1); [done..|]. obind. assert (Hk1 : known w1 ds as_ d a) by (by eapply moved_known).
  destruct (move_config w1 ds as_ d a p code id auth l false Hk1 Hp (ro_limits l Hl)) as (w2 & es2 & -> & Hm2 & Hend). obind.
  destruct (Hend eq_refl) as (c & Hc & Hends). rewrite (heap_deref _ _ _ Hc). obind.
  assert (Hm : moved a w w2) by (by transitivity w1). assert (Hk2 : known w2 ds as_ d a) by (by eapply moved_known).
  rewrite (known_admin w w2 ds as_ d a c Hk Hm Hc Ho). apply (decided_moved _ ds as_ d a _ w2); [done|done|].
  assert (Hlate : (if negb (sessionterminatetime (s_params c) =? 0) then d ← mainclock_rtdiff mainclock_rt (sessionterminatetime (s_params c)); Done (0 <? d)
    else Done false : result bool) = Done (late l)).
  { unfold late. rewrite Hends. destruct (lo_end l (ro_limits l Hl)) as (t' & Ht' & Hr). rewrite Hends in Ht'. injection Ht' as ->.
    destruct (t' =? 0); cbn [negb andb]; [done|]. unfold mainclock_rtdiff. rewrite (proj2 (andb_true_iff _ _)) by lia. done. }
  rewrite Hlate. obind. apply decided_events. destruct (late l); cbn [negb andb]; [by eapply decided_reject|].
  destruct (eap_none w2 ds as_ d a Hk2) as (w3 & lk & -> & Hm3 & Hlk & Hch). obind. cbn [negb]. rewrite (linkof_ok _ _ _ Hlk). obind.
  destruct (proxy_keys_none (radproxy lk)) as (px & -> & Hpx). obind. assert (Hk3 : known w3 ds as_ d a) by (by eapply moved_known).
  destruct (move_link w3 ds as_ d a (set_radproxy px) Hk3) as (w4 & lk' & -> & Hm4 & Hlk' & Hlk4); [done..|]. obind. cbn [negb].
  rewrite (linkof_ok _ _ _ Hlk4). obind. assert (lk' = lk) as -> by congruence. rewrite (authtype_none (set_radproxy px lk)) by (cbn; congruence). obind.
  assert (Hmm : moved a w2 w4) by (by transitivity w3). apply (decided_moved _ ds as_ d a _ w4); [done|done|]. assert (Hk4 : known w4 ds as_ d a) by (by eapply moved_known).
  replace (type_in w a) with (authtype (set_radproxy px lk)); [destruct (_ || _); [|by eapply decided_reject]|].
  { eapply (decided_getip w4 ds as_ d a (Some ip) mask); [done| |exact Hlk4]. apply (moved_ordinary a w w4 ds as_ d); [done| |done]. by transitivity w2. }
  rewrite <- (moved_type a w w2 Hm), <- (moved_type a w2 w4 Hmm). unfold type_in. by rewrite Hlk4.
Qed.
Lemma force_none alloc w ds as_ d a x c lk ip : good w ds as_ -> client w ds as_ d a x c lk -> ip = 0 \/ uplink lk = None \/ hisip c = ip ->
  force_ip o popen e inet_aton nas_hwaddr sysinfo cfg mainclock mainclock_rt alloc w a (Some d) ip = Done (Some d, w, []).
Proof using.
  intros Hg Hc Hip. unfold force_ip. rewrite (linkof_ok _ _ _ (c_link Hc)). obind. destruct (uplink lk) as [m|] eqn:Hu; [|done].
  destruct (client_address _ _ _ _ _ _ _ _ _ _ Hg Hc Hu) as (y & Hy & _ & _ & Hh). rewrite Hy. obind.
  destruct Hip as [->|[E|E]]; [done|done|]. by rewrite <- E, Hh, Z.eqb_refl, andb_false_r.
Qed.
Lemma answer_ok alloc w ds as_ d a x c lk : good w ds as_ -> client w ds as_ d a x c lk -> ordinary w a -> no_move lk c l ->
  let r := lk' ← linkof w a; ip ← framed_ip e p (reqip lk'); match ip with
    | None => reject w a
    | Some (force, hisip, hismask) =>
      '(d, w, es) ← (if (force : bool) then force_ip o popen e inet_aton nas_hwaddr sysinfo cfg mainclock mainclock_rt alloc w a (downlink lk') hisip
        else Done (downlink lk', w, []));
      w ← match d with Some d => if dhcpradius cfg then dhcp_reply e w a d p else Done w | None => Done w end;
      code ← pk_code p;
      '(w, es') ← (if code =? RADIUS_CODE_ACCESS_REJECT then
          '(w, es) ← config_radius_session w a p false;
          '(w, es') ← reject w a;
          Done (w, es ++ es')
        else
          t ← plain p RADIUS_ATTR_STATE;
          w ← match t with Some t => s ← attr_text p t; with_app w a (set_statebuf s) | None => Done w end;
          if code =? RADIUS_CODE_ACCESS_CHALLENGE then
            '(ok, w) ← eap_message w a p;
            l ← linkof w a;
            if negb ok || bool_decide (chal (radproxy l) = []) then reject w a
            else
              c ← deref (app w) a;
              Done (w, if dnprot c =? DNPROT_WPA then [Access_challenge (chal (radproxy l))] else [])
          else if negb (code =? RADIUS_CODE_ACCESS_ACCEPT) then reject w a
          else access_accept w a p hisip hismask);
      Done (w, es ++ es')
    end in
  decided (accepted_at lk (Some (code, l))) ds as_ d a w r.
Proof using All.
  intros Hg Hc Ho Hno r. assert (Hk : known w ds as_ d a) by (split; [done|by exists x, c, lk]). unfold r. clear r. rewrite (linkof_ok _ _ _ (c_link Hc)). obind.
  rewrite framed_ip_ok. obind. unfold no_move in Hno. unfold accepted_at. destruct (address_given l (reqip lk)) as [[[force ip] mask]|]; [|by eapply decided_reject].
  rewrite (c_down Hc). set (q := if force then _ else _). assert (Hq : q = Done (Some d, w, [])) by (unfold q; destruct force; [by apply (force_none alloc w ds as_ d a x c lk)|done]).
  rewrite Hq. obind. assert (Hw0 : exists w0, (if dhcpradius cfg then dhcp_reply e w a d p else Done w) = Done w0 /\ moved a w w0)
    by (destruct (dhcpradius cfg) eqn:Hrad; [by apply (move_reply w ds as_)|by exists w]).
  destruct Hw0 as (w0 & -> & Hm0). obind. apply (decided_moved _ ds as_ d a _ w0); [done|done|]. assert (Hk0 : known w0 ds as_ d a) by (by eapply moved_known).
  assert (Ho0 : ordinary w0 a) by (by apply (moved_ordinary a w w0 ds as_ d)).
  replace (authtype lk) with (type_in w0 a) by (rewrite (moved_type a w w0 Hm0); unfold type_in; by rewrite (c_link Hc)).
  clear Hm0 Hno Hc Hg Ho Hk q Hq. rename w0 into w', Hk0 into Hk, Ho0 into Ho. clear w. rename w' into w. rewrite (RadiusQueue.packet_code _ _ _ _ _ Hp). obind. apply decided_events.
  destruct (Z.eqb_spec code RADIUS_CODE_ACCESS_REJECT) as [E|_].
  { rewrite E. destruct (move_config w ds as_ d a p code id auth l false Hk Hp (ro_limits l Hl)) as (w1 & es1 & -> & Hm1 & _). obind.
    apply (decided_moved _ ds as_ d a _ w1); [done|done|]. apply decided_events. eapply decided_reject. by eapply moved_known. }
  pose proof (plain_finds p code id auth l Hp Ha RADIUS_ATTR_STATE) as H1. set (q1 := plain p RADIUS_ATTR_STATE) in *.
  assert (Hq1 : exists t w1, q1 = Done t /\ match t with Some t => s ← attr_text p t; with_app w a (set_statebuf s) | None => Done w end = Done w1 /\ moved a w w1).
  { destruct (pattr l _) as [v|]; [|exists None, w; by rewrite H1]. destruct H1 as (t & -> & Hh).
    destruct (move_app w ds as_ d a (set_statebuf v) Hk) as (w1 & Hw1 & Hm1); [done..|]. exists (Some t), w1. by rewrite (attr_text_ok p t v Hh). }
  destruct Hq1 as (t & w1 & -> & Hw1 & Hm1). obind. rewrite Hw1. obind. assert (Hk1 : known w1 ds as_ d a) by (by eapply moved_known).
  apply (decided_moved _ ds as_ d a _ w1); [done|done|]. destruct (Z.eqb_spec code RADIUS_CODE_ACCESS_CHALLENGE) as [E|_].
  { rewrite E. destruct (eap_none w1 ds as_ d a Hk1) as (w2 & lk2 & -> & Hm2 & Hlk & Hch). obind. rewrite (linkof_ok _ _ _ Hlk). obind. rewrite Hch. cbn [negb orb].
    rewrite bool_decide_true by done. apply (decided_moved _ ds as_ d a _ w2); [done|done|]. eapply decided_reject. by eapply moved_known. }
  destruct (code =? RADIUS_CODE_ACCESS_ACCEPT); cbn [negb andb]; [|by eapply decided_reject].
  rewrite <- (moved_type a w w1 Hm1). eapply access_accept_ok; [done|]. by apply (moved_ordinary a w w1 ds as_ d).
Qed.
End Reply.

(** C6: what becomes of a client other than the administrative session when its request
    for access is answered, or no answer comes. It is accepted when the reply is an
    Access-Accept whose time is not over and whose address, if it assigns one, has four
    bytes, for a login with a password or a challenge, or without a reply if that is
    configured to let in; then it keeps its address, or gets the one the pool has for
    the address asked for, and is logged in on it: the session is authenticated, the
    DHCP connection has the address, and an accounting start is sent unless the session
    is without accounting. It is not logged in, but stays as it is or is logged out,
    when the portal is required first, when its protocol is none that logs in, when the
    address is 0.0.0.0, when the pool has none for it, and when it is not accepted. No
    other session changes, and the state stays consistent. This is for replies whose
    WISPr and ChilliSpot attributes hold one sub-attribute each, with integers of at
    least four bytes and names that fit into the arrays of the DHCP connection if those
    are copied, without the command admin-reset, a start point, EAP and Microsoft keys,
    with a time to end within 68 years, and that assign no other address to a client
    that has one; and for a daemon without uamanyip and default start point whose usage
    script, if any, can be run. *)
Theorem cb_radius_auth_conf_decides alloc w ds as_ d a x c lk pack reply :
  good w ds as_ -> client w ds as_ d a x c lk -> is_adminsession c = false -> answers pack reply ->
  (forall code l, reply = Some (code, l) -> reply_ok l /\ no_move lk c l) ->
  exists w' es, cb_radius_auth_conf alloc w a pack = Done (w', es) /\ good w' ds as_ /\ elsewhere a w w' /\
    match accepted_at lk reply with
    | Some want => admitted want d a w w' es
    | None => moved a w w'
    end.
Proof using All.
  intros Hg Hc Hadm Hans Hok. change (decided (accepted_at lk reply) ds as_ d a w (cb_radius_auth_conf alloc w a pack)). unfold Reply.cb_radius_auth_conf.
  assert (Hk : known w ds as_ d a) by (split; [done|by exists x, c, lk]).
  assert (Ho : ordinary w a) by (intros c' Hc'; pose proof (c_app Hc); congruence).
  destruct (with_app_same w a (set_statebuf []) c (c_app Hc)) as (w1 & Hw1 & _); [done|].
  destruct (move_app w ds as_ d a (set_statebuf []) Hk) as (w1' & Hw1' & Hm1); [done..|]. assert (w1' = w1) as -> by congruence. rewrite Hw1. obind.
  assert (Hk1 : known w1 ds as_ d a) by (by eapply moved_known).
  destruct (move_link w1 ds as_ d a clear_lengths Hk1) as (w2 & lk1 & -> & Hm2 & Hlk1 & Hlk2); [done..|]. obind.
  assert (Hm : moved a w w2) by (by transitivity w1). assert (Hk2 : known w2 ds as_ d a) by (by eapply moved_known).
  assert (lk1 = lk) as ->. { apply with_app_inv in Hw1 as (_ & _ & El). rewrite El in Hlk1. pose proof (c_link Hc). congruence. }
  apply (decided_moved _ ds as_ d a _ w2); [done|done|]. destruct reply as [[code l]|], pack as [p|]; try done.
  - destruct Hans as (id & auth & Hp). destruct (Hok code l eq_refl) as [Hl Hno]. destruct Hk2 as (Hg2 & x2 & c2 & lk2 & Hc2).
    assert (lk2 = clear_lengths lk) as -> by (pose proof (c_link Hc2); congruence).
    change (accepted_at lk _) with (accepted_at (clear_lengths lk) (Some (code, l))).
    apply (answer_ok p code id auth l Hp Hl alloc w2 ds as_ d a x2 c2 (clear_lengths lk) Hg2 Hc2); [by apply (moved_ordinary a w w2 ds as_ d)|].
    unfold no_move in *. change (reqip (clear_lengths lk)) with (reqip lk). change (uplink (clear_lengths lk)) with (uplink lk).
    destruct (kept_app _ _ _ _ (sm_kept (mv_same _ _ _ Hm)) (c_app Hc)) as (c' & Hc' & E). assert (c' = c2) as -> by (pose proof (c_app Hc2); congruence).
    replace (hisip c2) with (hisip c); [done|]. unfold acore, Session.frame in E. congruence.
  - unfold accepted_at. destruct (noradallow cfg); [|by eapply decided_reject].
    destruct (move_update w2 ds as_ d a (fun q => Done (session_param_defaults o q)) Hk2) as (w3 & Hw3 & Hm3 & _).
    { intros q Hq. eexists. split; [done|]. cbn. unfold default_to. by rewrite Hq, Hstart. }
    assert (Hl3 : links w3 !! a = Some (clear_lengths lk)).
    { unfold update_params in Hw3. apply bind_inv in Hw3 as (c3 & _ & Hw3). apply bind_inv in Hw3 as (q3 & _ & Hw3). apply with_app_inv in Hw3 as (_ & _ & ->). done. }
    rewrite Hw3. obind. apply (decided_moved _ ds as_ d a _ w3); [done|done|].
    apply (decided_getip w3 ds as_ d a None 0 (clear_lengths lk)); [by eapply moved_known| |done].
    apply (moved_ordinary a w w3 ds as_ d); [done|by transitivity w2|done].
Qed.
End Decision.
End Answers.

(** ** Two clients *)

Definition demo_asked : world :=
  match auth_radius demo_options BE no_aton demo_mac demo_cfg demo_two 0 (Some (str "bob")) (Some (str "secret")) with
  | Done (w, _) => w | _ => demo_two end.
(** The first of them has logged in. *)
Definition demo_in : world :=
  match Lease.accept demo_options no_script BE no_aton demo_mac None demo_cfg 200 demo_asked 0 with Done (w, _) => w | _ => demo_asked end.
Lemma demo_two_known : exists ds as_, known BE demo_two ds as_ 0 0.
Proof.
  destruct demo_two_consistent as (ds & as_ & Hg). exists ds, as_. split; [done|]. destruct (good_found BE demo_two ds as_ mac_a Hg) as (r & Hr & Hf).
  replace (dhcp_hashget (dhcp demo_two) mac_a) with (Done (Some 0%nat) : result (option nat)) in Hr by (vm_compute; reflexivity). injection Hr as <-.
  destruct Hf as (Hd & x & Hx & _). exists x. apply (good_client BE demo_two ds as_ 0 0 x Hg Hd Hx).
  assert (E : peer <$> cells (d_conns (dhcp demo_two)) !! 0%nat = Some (Some 0%nat)) by (vm_compute; reflexivity). rewrite Hx in E. by injection E.
Qed.
Lemma demo_asked_known : exists ds as_, known BE demo_asked ds as_ 0 0.
Proof.
  destruct demo_two_known as (ds & as_ & Hg & x & c & l & Hc). exists ds, as_.
  destruct (auth_radius_good demo_options BE no_aton demo_mac demo_cfg demo_two ds as_ 0 0 x c l (Some (str "bob")) (Some (str "secret")) Hg Hc)
    as (w & es & E & Hg' & Hs). unfold demo_asked. rewrite E. split; [done|].
  destruct (client_kept _ _ _ _ _ _ _ _ _ (sm_kept Hs) Hc) as (x' & c' & l' & Hc' & _). by exists x', c', l'.
Qed.
Lemma demo_in_known : exists ds as_, known BE demo_in ds as_ 0 0.
Proof.
  destruct demo_asked_known as (ds & as_ & Hk). exists ds, as_.
  destruct (accept_known demo_options no_script BE no_aton demo_mac None demo_cfg 200 eq_refl demo_stats demo_asked ds as_ 0 0 Hk)
    as (w & es & E & Hk' & _). unfold demo_in. by rewrite E.
Qed.

#[local] Existing Instance demo_md5.
Lemma demo_grants_ok : reply_ok demo_cfg 200 demo_mktime demo_grants.
Proof.
  constructor; [constructor| | |].
  - apply attrs_ok_check. vm_compute. reflexivity.
  - repeat constructor; vm_compute; discriminate.
  - vm_compute. reflexivity.
  - eexists. split; [vm_compute; reflexivity|lia].
  - discriminate.
  - vm_compute. reflexivity.
  - intros type. reflexivity.
Qed.

Lemma answer_holds (r : result (world * list notice)) (P : world -> list notice -> Prop) w' es :
  r = Done (w', es) -> match r with Done (w, es) => P w es | _ => False end -> P w' es.
Proof. by intros ->. Qed.

Lemma cb_radius_auth_conf_decides_witness : exists ds as_ lk want w' es,
  cb_radius_auth_conf demo_options no_script BE no_aton demo_mac None demo_cfg 200 200 demo_mktime demo_secret demo_auth (true, true) demo_asked 0
    (Some (demo_reply 2 7 demo_grants)) = Done (w', es) /\ good BE w' ds as_ /\ elsewhere 0 demo_asked w' /\
  links demo_asked !! 0%nat = Some lk /\ accepted_at BE demo_cfg 200 demo_mktime lk (Some (2, demo_grants)) = Some want /\
  admitted BE demo_cfg want 0 0 demo_asked w' es /\ auth_at demo_asked 0 = Some 0 /\ auth_at w' 0 = Some 1.
Proof.
  destruct demo_asked_known as (ds & as_ & Hg & x & c & lk & Hc).
  assert (E : exists want, accepted_at BE demo_cfg 200 demo_mktime lk (Some (2, demo_grants)) = Some want).
  { assert (E : (fun lk => accepted_at BE demo_cfg 200 demo_mktime lk (Some (2, demo_grants))) <$> links demo_asked !! 0%nat = Some (Some (IpPool.ip4 10 1 0 5))) by (vm_compute; reflexivity).
    rewrite (c_link Hc) in E. eexists. by injection E. }
  destruct E as [want E]. exists ds, as_, lk, want.
  destruct (cb_radius_auth_conf_decides demo_options no_script BE no_aton demo_mac None demo_cfg 200 200 demo_mktime eq_refl demo_stats eq_refl
    demo_secret demo_auth (true, true) demo_asked ds as_ 0 0 x c lk (Some (demo_reply 2 7 demo_grants)) (Some (2, demo_grants)) Hg Hc)
    as (w' & es & H1 & Hg' & He & Hd).
  - assert (E' : is_adminsession <$> heap (app demo_asked) !! 0%nat = Some false) by (vm_compute; reflexivity). rewrite (c_app Hc) in E'. by injection E'.
  - exists 7, demo_auth. apply demo_reply_packet; [apply attr_ok_check; vm_compute; reflexivity|vm_compute; lia].
  - intros code l [= <- <-]. split; [exact demo_grants_ok|exact I].
  - rewrite E in Hd. exists w', es. repeat (split; [first [exact H1|exact Hg'|exact He|exact (c_link Hc)|exact E|exact Hd|vm_compute; reflexivity]|]).
    refine (answer_holds _ (fun w _ => auth_at w 0 = Some 1) w' es H1 _). vm_compute. reflexivity.
Defined.
(** The server ends the session of one of the clients; the other stays. *)
Lemma cb_radius_coa_ind_spec_witness : exists w' es,
  cb_radius_coa_ind demo_options no_script BE no_aton demo_mac None demo_cfg 300 300 demo_mktime demo_in (demo_reply 40 9 [Attr 1 (str "bob")]) =
    Done (true, w', es ++ [Coa_answer RADIUS_CODE_DISCONNECT_ACK 9]) /\
  auth_at demo_in 0 = Some 1 /\ auth_at w' 0 <> Some 1 /\ heap (app w') !! 1%nat = heap (app demo_in) !! 1%nat.
Proof.
  destruct demo_in_known as (ds & as_ & Hg & x & c & lk & Hc).
  destruct (cb_radius_coa_ind_spec demo_options no_script BE no_aton demo_mac None demo_cfg 300 300 demo_mktime eq_refl demo_stats eq_refl
    (demo_reply 40 9 [Attr 1 (str "bob")]) 40 9 demo_auth [Attr 1 (str "bob")] (str "bob")) with (w := demo_in) (ds := ds) (as_ := as_)
    as (w' & es & H1 & _ & Ho & Hd & _); [| |exact Hg|by left|reflexivity|].
  - apply demo_reply_packet; [apply attr_ok_check; vm_compute; reflexivity|vm_compute; lia].
  - constructor; [apply attrs_ok_check; vm_compute; reflexivity|constructor|vm_compute; reflexivity|]. eexists. split; [vm_compute; reflexivity|lia].
  - assert (E : matches_at demo_in (str "bob") None 0 = true) by (vm_compute; reflexivity).
    assert (Hx : existsb (matches_at demo_in (str "bob") None) as_ = true).
    { apply existsb_exists. exists 0%nat. split; [apply list_elem_of_In, (c_a Hc)|exact E]. }
    change (pattr [Attr 1 (str "bob")] RADIUS_ATTR_ACCT_SESSION_ID) with (@None bytes) in H1, Ho, Hd. rewrite Hx in H1.
    exists w', es. split; [exact H1|]. split; [vm_compute; reflexivity|]. split; [apply Hd; [reflexivity|apply (c_a Hc)|exact E]|].
    apply Ho. right. vm_compute. reflexivity.
Defined.

(** ** Where the code falls short *)

Definition starts (es : list notice) : nat :=
  length (List.filter (fun n => match n with Of_session (Account s _) => s =? RADIUS_STATUS_TYPE_START | _ => false end) es).
(** Two sessions of one user, the one that comes later first. *)
Definition demo_bobs : world :=
  match auth_radius demo_options BE no_aton demo_mac demo_cfg demo_in 1 (Some (str "bob")) (Some (str "secret")) with
  | Done (w, _) => w | _ => demo_in end.
Definition demo_request (code : Z) (l : list attr) : result (bool * world * list notice) :=
  cb_radius_coa_ind demo_options no_script BE no_aton demo_mac None demo_cfg 300 300 demo_mktime demo_bobs (demo_reply code 9 (Attr 1 (str "bob") :: l)).
(** Once a session is to be authorized, so are all that come after it: that of the first
    client, which is logged in, starts again, without having stopped. *)
Lemma authorized_again :
  (auth_at demo_bobs 0, auth_at demo_bobs 1) = (Some 1, Some 0) /\
  ('(_, _, es) ← demo_request 43 [chilli_vsa 15 [0; 0; 0; 1]]; Done (starts es)) = Done 2%nat.
Proof. split; vm_compute; reflexivity. Qed.
(** The command [admin-reset] removes the connection the request is about; the walk over
    the connections in use goes on in the list of free ones, so that the other session
    of the user stays. *)
Lemma reset_while_walking :
  ('(_, w, _) ← demo_request 43 [chilli_vsa 6 (str "admin-reset")];
   x ← dhcp_hashget (dhcp w) mac_a; y ← dhcp_hashget (dhcp w) mac_b; Done (x, y)) = Done (Some 0%nat, None).
Proof. vm_compute. reflexivity. Qed.
(** A reply that assigns another address to a client with a reserved one gives its
    interface a second connection of [dhcp.c]. *)
Definition demo_reserved : world :=
  match dhcp_reserve_ip demo_options no_script BE no_aton demo_mac None demo_cfg 100 100 (true, true) demo_start mac_a (IpPool.ip4 10 1 0 5) with
  | Done (w, _) => w | _ => demo_start end.
Lemma second_connection :
  ('(w, _) ← cb_radius_auth_conf demo_options no_script BE no_aton demo_mac None demo_cfg 200 200 demo_mktime demo_secret demo_auth (true, true)
      demo_reserved 0 (Some (demo_reply 2 7 [Attr 8 [10; 1; 0; 6]]));
   Done (d_hismac <$> cells (d_conns (dhcp w)))) = Done [mac_a; mac_a].
Proof. vm_compute. reflexivity. Qed.
(** The reply to the request for a client that has left goes to the client that has its
    connection now: an accept for the first logs the second in, which has asked, and
    could have been refused. *)
Lemma stale_reply :
  ('(w, _) ← dhcp_release_mac demo_options no_script BE no_aton demo_mac None demo_cfg 210 210 demo_asked mac_a 1;
   '(_, w, _) ← dhcp_getconn demo_cfg 211 211 (true, true) w demo_mac true;
   '(_, w, _) ← cb_dhcp_request demo_options no_script BE no_aton demo_mac None demo_cfg 212 212 w 0 (Some 0);
   '(w, _) ← auth_radius demo_options BE no_aton demo_mac demo_cfg w 0 (Some (str "eve")) (Some (str "guess"));
   let before := auth_at w 0 in
   '(w, _) ← cb_radius_auth_conf demo_options no_script BE no_aton demo_mac None demo_cfg 213 213 demo_mktime demo_secret demo_auth (true, true) w 0
      (Some (demo_reply 2 7 []));
   c ← deref (app w) 0;
   Done (before, auth_at w 0, hismac c, username (redir (s_state c)))) = Done (Some 0, Some 1, demo_mac, str "eve").
Proof. vm_compute. reflexivity. Qed.
(** With [dhcpradius] a reply gives a client servers of its own; a name of its DHCP server
    of more than 64 bytes overwrites what is behind the array for it. *)
Definition rad_cfg : dhcp_options :=
  DOptions 4 600 60 1500 false true false true (IpPool.ip4 10 1 0 0) (IpPool.ip4 255 255 255 240) (IpPool.ip4 10 1 0 1) (IpPool.ip4 10 1 0 1)
    (IpPool.ip4 10 1 0 1) (IpPool.ip4 10 1 0 1) (Some (str "lan")) false false 0 0 0 0 0 [] false false false false
    None None None None false false None true.
Definition demo_told (l : list attr) : result (option (Z * Z * bytes * bytes)) :=
  '(w, _) ← cb_radius_auth_conf demo_options no_script BE no_aton demo_mac None rad_cfg 200 200 demo_mktime demo_secret demo_auth (true, true) demo_asked 0
    (Some (demo_reply 2 7 l));
  Done ((fun x => (d_dns1 x, d_dns2 x, domain x, take 5 (o_sname (dhcp_opts x)))) <$> cells (d_conns (dhcp w)) !! 0%nat).
Lemma server_name_overrun :
  demo_told [chilli_vsa 62 [10; 1; 0; 9]; chilli_vsa 65 (str "cafe"); chilli_vsa 55 (str "boot")] =
    Done (Some (IpPool.ip4 10 1 0 9, IpPool.ip4 10 1 0 1, str "cafe", str "boot" ++ [0])) /\
  demo_told [chilli_vsa 55 (replicate 65 65)] = Fault.
Proof. split; vm_compute; reflexivity. Qed.
End Answers.
