(* ===== verification/Dns.v ===== *)
(** * DNS through the hotspot ([package/coova-chilli/src/src/dns.c], [dhcp.c])

    Client requests are answered or redirected, and what a name server answers for a
    domain of the configuration opens the walled garden.  A packet is the buffer it lies
    in; pointers are offsets.  The build has neither multicast DNS, the domain file, the
    DNS log nor modules, and logs are left out. *)

From S2P Require Import Prelude CLib Mem Garden Pkt.

Module Dns.
Import Mem Pkt.
Import Garden(garden, Garden, ptlist, ptcnt, pass_through, PassThrough).

#[local] Existing Instance Garden.pass_through_eq_dec.

(** ** Names *)

Section Names.
Context (mem : bytes).

(** The loop at one level; [rec] is the call one level deeper on an offset of the packet.
    The name buffer is [data]; [d] is null or an offset into it.  Whether the name is
    good, the bytes consumed, the buffer, [d]. *)
Fixpoint fullname_loop (rec : bytes -> option nat -> Z -> nat -> Z -> result (Z * bytes)) (opkt : nat) (olen : Z)
    (fuel : nat) (res : nat) (reslen ret : Z) (data : bytes) (d : option nat) (dlen : Z) : result (bool * Z * bytes * option nat) :=
  match fuel with
  | O => Fault
  | S fuel =>
    if reslen =? 0 then Done (true, ret, data, d)
    else
      let reslen := reslen - 1 in
      let ret := ret + 1 in
      l ← byte_at mem res;
      let res := S res in
      if l =? 0 then Done (true, ret, data, d)
      else if l &ᵤ 0xC0 =? 0xC0 then
        if reslen =? 0 then Done (false, ret, data, d)
        else
          x ← byte_at mem res;
          let offset := u16 (((l &ᵤ 0x3F) <<ᵤ 8) + x) in
          let ret := ret + 1 in
          if olen <? offset then Done (false, ret, data, d)
          else '(r, data) ← rec data d dlen (opkt + Z.to_nat offset)%nat (olen - offset);
               Done (negb (r <? 0), ret, data, d)
      else if (dlen <=? l) || (olen <=? l) then Done (false, ret, data, d)
      else
        '(data, d, dlen) ← match d with
                           | Some o => s ← read mem res (Z.to_nat l); data ← memcpy data o s;
                                       Done (data, Some (o + Z.to_nat l)%nat, dlen - l)
                           | None => Done (data, None, dlen)
                           end;
        let res := (res + Z.to_nat l)%nat in
        let reslen := reslen -₃₂ l in
        let ret := ret + l in
        '(data, d, dlen) ← match d with
                           | Some o => data ← memcpy data o [46]; Done (data, Some (S o), dlen - 1)
                           | None => Done (data, d, dlen)
                           end;
        fullname_loop rec opkt olen fuel res reslen ret data d dlen
  end.

(** Only the first name of a query is captured. *)
Definition captured (data : bytes) (d : option nat) : result (option nat) :=
  match d with Some o => x ← byte_at data o; Done (if x =? 0 then Some o else None) | None => Done None end.

(** [levels] is [15 - lvl]. *)
Fixpoint fullname_at (levels : nat) (opkt : nat) (olen : Z) (data : bytes) (d : option nat) (dlen : Z) (res : nat) (reslen : Z) : result (Z * bytes) :=
  match levels with
  | O => Done (-1, data)
  | S levels =>
    d ← captured data d;
    '(ok, ret, data, _) ← fullname_loop (fullname_at levels opkt olen) opkt olen (S (length mem)) res reslen 0 data d dlen;
    Done ((if ok : bool then ret else -1), data)
  end.

(** The call at level 0: the last dot goes. *)
Definition dns_fullname (data : bytes) (dlen : Z) (res : nat) (reslen : Z) (opkt : nat) (olen : Z) : result (Z * bytes) :=
  d ← captured data (Some 0%nat);
  '(ok, ret, data, d) ← fullname_loop (fullname_at 14 opkt olen) opkt olen (S (length mem)) res reslen 0 data d dlen;
  if ok : bool then
    match d with
    | Some o =>
      s ← cstring data 0;
      let len := length s in
      data ← (if negb (len =? 0)%nat && (len =? o)%nat && bool_decide (last s = Some 46) then memcpy data (len - 1) [0] else Done data);
      Done (ret, data)
    | None => Done (ret, data)
    end
  else Done (-1, data).
End Names.

Definition PKT_IP_PLEN : nat := 1500.
Definition MAX_PASS_THROUGHS : Z := 128.
Definition DHCP_DNS_HLEN : nat := 12.
Definition DHCP_DNS : Z := 53.

(** The options the code looks at; addresses as 4 bytes. *)
Record options := Options {
  dnsparanoia : bool;
  uamdomains : list bytes;
  uamdomain_ttl : Z;
  ipv6 : bool;
  domain : option bytes;
  domaindnslocal : bool;
  uamhostname : option bytes;
  uamaliasname : option bytes;
  uamlogout : bytes;
  uamlisten : bytes;
  uamalias : bytes
}.

(** What the parser works on: the packet, how far it has come in it, [q] of the caller,
    [qmatch], [mod], and the dynamic pass-through entries of the instance. *)
Record dns_state := DnsState {
  pack : bytes;
  dptr : nat;
  left : Z;
  question : bytes;
  qmatch : Z;
  modified : Z;
  pass_throughs : garden
}.

Section Dns.
Context (e : endian) (_options : options).

(** One domain of the configuration against the question. *)
Definition uam_match (question dom : bytes) : bool :=
  let qst_len := length question in
  let dom_len := length dom in
  negb (qst_len =? 0)%nat && negb (dom_len =? 0)%nat &&
  (((qst_len =? dom_len)%nat && strcmp_eq dom question) ||
   ((dom_len <? qst_len)%nat &&
    (bool_decide (head dom = Some 46) || bool_decide (question !! (qst_len - dom_len - 1)%nat = Some 46)) &&
    strcmp_eq dom (drop (qst_len - dom_len) question))).

Definition add_A_to_garden (g : garden) (p : bytes) : result garden :=
  Garden.apply_entry MAX_PASS_THROUGHS true false g (PassThrough (word_val e p) 0xffffffff 0 0).
(** [for (offset=0; offset < rdlen; offset += 4)], [n] rounds. *)
Fixpoint addr_loop (n : nat) (b : bytes) (p : nat) (g : garden) : result garden :=
  match n with
  | O => Done g
  | S n => a ← read b p 4; g ← add_A_to_garden g a; addr_loop n b (p + 4) g
  end.

Definition with_pack (st : dns_state) (b : bytes) (m : Z) : dns_state :=
  DnsState b (dptr st) (left st) (question st) (qmatch st) m (pass_throughs st).

(** Whether a record of this type is known, and whether the paranoid mode lets it pass. *)
Definition record_type (type : Z) : option bool :=
  if existsb (Z.eqb type) [1; 2; 5; 15; 28] then Some true
  else if existsb (Z.eqb type) [6; 12; 16; 29; 33; 47] then Some false
  else None.

(** The part for a question, whose name ends at [p_pkt], with [len] bytes left there. *)
Definition copy_question (st : dns_state) (opkt : nat) (olen : Z) (isReq : bool) (p_pkt : nat) (len type : Z) : result (Z * dns_state) :=
  '(r, qn) ← dns_fullname (pack st) (question st) (Z.of_nat (length (question st))) (dptr st) (left st) opkt olen;
  if r <? 0 then Done (-1, DnsState (pack st) (dptr st) (left st) qn (qmatch st) (modified st) (pass_throughs st))
  else
    qmatch' ← (if negb isReq && (qmatch st =? -1) && negb (length (uamdomains _options) =? 0)%nat then
                 s ← cstring qn 0; Done (if existsb (uam_match s) (uamdomains _options) then 1 else qmatch st)
               else Done (qmatch st));
    '(b, m) ← (if ipv6 _options then
                 if isReq && (type =? 28) then b ← put16 (pack st) p_pkt 1; Done (b, 1)
                 else if negb isReq && (type =? 1) then b ← put16 (pack st) p_pkt 28; Done (b, 1)
                 else Done (pack st, modified st)
               else Done (pack st, modified st));
    Done (0, DnsState b (p_pkt + 4) (len - 4) qn qmatch' m (pass_throughs st)).

(** The part for a record. *)
Definition copy_record (st : dns_state) (p_pkt : nat) (len type : Z) : result (Z * dns_state) :=
  let p_pkt := (p_pkt + 4)%nat in
  let len := len - 4 in
  if len <? 6 then Done (-1, st)
  else
    ul ← read (pack st) p_pkt 4;
    rdlen ← get16 (pack st) (p_pkt + 4);
    st ← (if (qmatch st =? 1) && (u32 (uamdomain_ttl _options) <? be_val ul)
          then b ← memcpy (pack st) p_pkt (be_bytes 4 (uamdomain_ttl _options)); Done (with_pack st b 1)
          else Done st);
    let p_pkt := (p_pkt + 6)%nat in
    let len := len - 6 in
    if len <? rdlen then Done (-1, st)
    else
      match record_type type with
      | None => Done (-1, st)
      | Some required =>
        g ← (if (type =? 1) && (qmatch st =? 1)
             then addr_loop (Z.to_nat ((rdlen + 3) / 4)) (pack st) p_pkt (pass_throughs st)
             else Done (pass_throughs st));
        let st := DnsState (pack st) (dptr st) (left st) (question st) (qmatch st) (modified st) g in
        if dnsparanoia _options && negb required then Done (-1, st)
        else Done (0, DnsState (pack st) (p_pkt + Z.to_nat rdlen) (len - rdlen) (question st) (qmatch st) (modified st) g)
      end.

(** The return value (0 or -1) and what the parser has come to. *)
Definition dns_copy_res (q : bool) (opkt : nat) (olen : Z) (isReq : bool) (st : dns_state) : result (Z * dns_state) :=
  '(namelen, _) ← dns_fullname (pack st) (replicate PKT_IP_PLEN 0) (Z.of_nat PKT_IP_PLEN - 1) (dptr st) (left st) opkt olen;
  if (namelen <? 0) || (left st <? namelen) then Done (-1, st)
  else
    let p_pkt := (dptr st + Z.to_nat namelen)%nat in
    let len := left st - namelen in
    if dnsparanoia _options && (128 <? namelen) then Done (-1, st)
    else if len <? 4 then Done (-1, st)
    else
      type ← get16 (pack st) p_pkt;
      if q then copy_question st opkt olen isReq p_pkt len type
      else copy_record st p_pkt len type.

(** ** A DNS packet *)

(** The other way round: the ports, and the addresses of both layers. *)
Definition swap_ports (pack : bytes) (udp : nat) (answer : bytes) (audp : nat) : result bytes :=
  dst ← read pack (udp + 2) 2; answer ← memcpy answer audp dst;
  src ← read pack udp 2; memcpy answer (audp + 2) src.
Definition swap_addrs (pack : bytes) (eth : nat) (answer : bytes) (aeth : nat) : result bytes :=
  saddr ← read pack (eth + 12) 4; answer ← memcpy answer (aeth + 16) saddr;
  daddr ← read pack (eth + 16) 4; answer ← memcpy answer (aeth + 12) daddr;
  hsrc ← read pack 6 6; answer ← memcpy answer 0 hsrc;
  hdst ← read pack 0 6; memcpy answer 6 hdst.

Definition nak_writes (pack : bytes) (eth udp : nat) (answer : bytes) (aeth aip adns : nat) : result bytes :=
  answer ← put16 answer (adns + 2) 0x8583;
  answer ← swap_ports pack udp answer aip;
  answer ← memcpy answer (aeth + 10) [0; 0];
  swap_addrs pack eth answer aeth.
(** The packet is sent back as "no such host"; [stack] is what the local array holds.
    The packet that is sent. *)
Definition dhcp_nakDNS (stack pack : bytes) (len : nat) : result bytes :=
  eth ← sizeofeth pack; udp ← sizeofip pack;
  w ← read pack 0 len;
  answer ← memcpy stack 0 w;
  aeth ← sizeofeth answer; aip ← sizeofip answer; adns ← sizeofudp answer;
  answer ← nak_writes pack eth udp answer aeth aip adns;
  '(_, answer) ← chksum e answer aeth;
  read answer 0 len.

Definition dhcp_matchDNS (r name : bytes) : bool :=
  strcmp_eq r name ||
  match domain _options with
  | Some dom =>
    negb (length dom =? 0)%nat && (length r =? length name + length dom + 1)%nat &&
    strcmp_eq (take (length name) r) name && strcmp_eq (drop (length name + 1) r) dom && bool_decide (r !! length name = Some 46)
  | None => false
  end.

(** The address a local name gets. *)
Definition local_reply (q : bytes) : option bytes :=
  if dhcp_matchDNS q (str "logout") then Some (uamlogout _options)
  else if match uamhostname _options with Some h => dhcp_matchDNS q h | None => false end then Some (uamlisten _options)
  else if match uamaliasname _options with Some a => dhcp_matchDNS q a | None => false end then Some (uamalias _options)
  else match domain _options with
       | Some dom =>
         let off := (length q - length dom)%nat in
         if domaindnslocal _options && (length dom + 1 <? length q)%nat && strcmp_eq (drop off q) dom && bool_decide (q !! (off - 1)%nat = Some 46)
         then Some (uamalias _options)
         else None
       | None => None
       end.

(** [query[query_len++] = ...] into [query[256]]. *)
Definition put_query (query vs : bytes) : result bytes :=
  if (length query + length vs <=? 256)%nat then Done (query ++ vs) else Fault.
(** [do { if (query_len < 256) ...; else break; } while ( *p++ != 0);] and where [p] stops. *)
Fixpoint copy_name (fuel : nat) (b : bytes) (p : nat) (query : bytes) : result (nat * bytes) :=
  match fuel with
  | O => Fault
  | S fuel =>
    if (length query <? 256)%nat then
      x ← byte_at b p;
      if x =? 0 then Done (S p, query ++ [x]) else copy_name fuel b (S p) (query ++ [x])
    else Done (p, query)
  end.
(** [for (n=0; n<4; n++) if (query_len < 256) query[query_len++] = *p++;] *)
Fixpoint copy_class (n : nat) (b : bytes) (p : nat) (query : bytes) : result bytes :=
  match n with
  | O => Done query
  | S n => if (length query <? 256)%nat then x ← byte_at b p; copy_class n b (S p) (query ++ [x]) else copy_class n b p query
  end.

(** What the answer to a local name holds behind its DNS header: the question and a record. *)
Definition local_query (pack : bytes) (dns : nat) (reply : bytes) : result bytes :=
  '(p, query) ← copy_name 257 pack (dns + 12) [];
  query ← copy_class 4 pack p query;
  query ← put_query query [0xc0; 0x0c; 0x00; 0x01; 0x00; 0x01; 0x00; 0x00; 0x01; 0x2c; 0x00; 0x04];
  put_query query reply.
Definition answer_dns_header (pack : bytes) (dns : nat) (answer : bytes) (adns : nat) : result bytes :=
  id ← read pack dns 2; answer ← memcpy answer adns id;
  answer ← put16 answer (adns + 2) 0x8000;
  answer ← put16 answer (adns + 4) 1;
  answer ← put16 answer (adns + 6) 1;
  answer ← put16 answer (adns + 8) 0;
  put16 answer (adns + 10) 0.
Definition answer_headers (pack : bytes) (eth udp : nat) (answer : bytes) (aeth audp udp_len : nat) : result bytes :=
  answer ← put16 answer (audp + 4) (Z.of_nat udp_len);
  answer ← swap_ports pack udp answer audp;
  answer ← memcpy answer aeth [PKT_IP_VER_HLEN; 0];
  answer ← put16 answer (aeth + 2) (Z.of_nat udp_len + PKT_IP_HLEN);
  answer ← memcpy answer (aeth + 4) [0; 0; 0; 0; 0x10; 0x11; 0; 0];
  swap_addrs pack eth answer aeth.
(** The packet that is sent. *)
Definition dns_answer (stack pack : bytes) (plen : nat) (reply : bytes) : result bytes :=
  eth ← sizeofeth pack; udp ← sizeofip pack; dns ← sizeofudp pack;
  query ← local_query pack dns reply;
  w ← read pack 0 plen;
  answer ← memcpy stack 0 w;
  aeth ← sizeofeth answer; audp ← sizeofip answer; adns ← sizeofudp answer;
  answer ← answer_dns_header pack dns answer adns;
  answer ← memcpy answer (adns + 12) query;
  let udp_len := (length query + DHCP_DNS_HLEN + PKT_UDP_HLEN)%nat in
  answer ← answer_headers pack eth udp answer aeth audp udp_len;
  '(_, answer) ← chksum e answer aeth;
  n ← sizeofip answer;
  read answer 0 (udp_len + n).

(** [for (i=0; dlen && i < count; i++)]: whether all were good, and the state. *)
Fixpoint copyres (n : nat) (q : bool) (opkt : nat) (olen : Z) (isReq : bool) (st : dns_state) : result (bool * dns_state) :=
  match n with
  | O => Done (true, st)
  | S n =>
    if left st =? 0 then Done (true, st)
    else '(r, st) ← dns_copy_res q opkt olen isReq st;
         if r =? 0 then copyres n q opkt olen isReq st else Done (false, st)
  end.

(** [*bp++ = ...] into the local array [b]. *)
Definition put_b (b : bytes) (bp : nat) (vs : bytes) : result (bytes * nat) := b ← memcpy b bp vs; Done (b, (bp + length vs)%nat).
Definition ipv6_nat64_pack (p : bytes) : bytes := [0x11; 0x12] ++ replicate 10 0 ++ p.

(** The loop that repacks answers as AAAA records: the array, [bp], how many. *)
Fixpoint repack_loop (k : nat) (pack : bytes) (dns : nat) (olen : Z) (n : bytes) (p : nat) (len : Z) (b : bytes) (bp : nat) (new_ancount : Z) : result (bytes * nat * Z) :=
  match k with
  | O => Done (b, bp, new_ancount)
  | S k =>
    '(namelen, n) ← dns_fullname pack n (Z.of_nat PKT_IP_PLEN - 1) p (u32 len) dns olen;
    if (namelen <=? 0) || (1500 <? namelen) then Done (b, bp, new_ancount)
    else if len <? 10 then Done (b, bp, new_ancount)
    else
      let pkt_head := p in
      let p := (p + Z.to_nat namelen)%nat in
      type ← get16 pack p;
      ttl ← read pack (p + 4) 4;
      rdlen ← get16 pack (p + 8);
      let p := (p + 10)%nat in
      '(b, bp) ← (if type =? 1 then
                    h ← read pack pkt_head (Z.to_nat namelen);
                    '(b, bp) ← put_b b bp h;
                    '(b, bp) ← put_b b bp ([0x00; 0x1c; 0x00; 0x01] ++ ttl ++ [0x00; 0x10]);
                    a ← read pack p 4;
                    put_b b bp (ipv6_nat64_pack a)
                  else h ← read pack pkt_head (Z.to_nat (rdlen + namelen + 10)); put_b b bp h);
      repack_loop k pack dns olen n (p + Z.to_nat rdlen) (len - namelen - 10 - rdlen) b bp (new_ancount + 1)
  end.

(** The packet with its answers repacked, and its length. *)
Definition repack (n b : bytes) (pack : bytes) (plen dns : nat) (olen : Z) (an_mark : nat) (ancount : Z) : result (bytes * nat) :=
  let len := olen - (Z.of_nat an_mark - Z.of_nat (dns + 12)) in
  '(b, bp, new_ancount) ← repack_loop (Z.to_nat ancount) pack dns olen n an_mark len b 0 0;
  if 0 <? new_ancount then
    let bdiff := u16 (Z.of_nat bp) in
    let newlen := Z.of_nat an_mark + bdiff in
    if 1500 <? newlen then Done (pack, plen)
    else
      eth ← sizeofeth pack; udp ← sizeofip pack;
      let data_len := u16 (bdiff + u16 (Z.of_nat (an_mark - dns))) in
      let data_len := u16 (data_len + Z.of_nat PKT_UDP_HLEN) in
      pack ← put16 pack (udp + 4) data_len;
      let data_len := u16 (data_len + PKT_IP_HLEN) in
      pack ← put16 pack (eth + 2) data_len;
      pack ← put16 pack (dns + 6) new_ancount;
      w ← read b 0 (Z.to_nat bdiff);
      pack ← memcpy pack an_mark w;
      Done (pack, Z.to_nat newlen)
  else Done (pack, plen).

(** The local arrays, as they are before. *)
Record stacks := Stacks { st_answer : bytes; st_n : bytes; st_b : bytes }.
(** The return value (1: forward), the packet and its length, the pass-through entries,
    and the packet that is sent back. *)
Record dns_out := DnsOut { ret : Z; out_pack : bytes; out_len : nat; out_garden : garden; sent : option bytes }.

(** The records of the packet: whether all are good, where the answers begin, the state. *)
Definition dns_parse (qdcount ancount nscount arcount : Z) (dns : nat) (olen : Z) (isReq : bool) (st : dns_state) : result (bool * nat * dns_state) :=
  '(ok, st) ← copyres (Z.to_nat qdcount) true dns olen isReq st;
  let an_mark := dptr st in
  '(ok, st) ← (if ok : bool then copyres (Z.to_nat ancount) false dns olen isReq st else Done (ok, st));
  '(ok, st) ← (if ok : bool then copyres (Z.to_nat nscount) false dns olen isReq st else Done (ok, st));
  '(ok, st) ← (if ok : bool then copyres (Z.to_nat arcount) false dns olen isReq st else Done (ok, st));
  Done (ok, an_mark, st).
(** What is done with the packet. *)
Definition dns_conclude (s : stacks) (plen dns : nat) (olen : Z) (isReq : bool) (flags qdcount ancount nscount arcount : Z)
    (ok : bool) (an_mark : nat) (st : dns_state) : result dns_out :=
  if negb ok then
    if isReq then a ← dhcp_nakDNS (st_answer s) (pack st) plen; Done (DnsOut 0 (pack st) plen (pass_throughs st) (Some a))
    else Done (DnsOut 0 (pack st) plen (pass_throughs st) None)
  else if negb (left st =? 0) then Done (DnsOut 0 (pack st) plen (pass_throughs st) None)
  else
    reply ← (if isReq && (flags =? 0x0100) && (1 <=? qdcount) && (ancount =? 0) && (nscount =? 0) && (arcount =? 0)
             then q ← cstring (question st) 0; Done (local_reply q)
             else Done None);
    match reply with
    | Some reply => a ← dns_answer (st_answer s) (pack st) plen reply; Done (DnsOut 0 (pack st) plen (pass_throughs st) (Some a))
    | None =>
      '(b, plen) ← (if ipv6 _options && (0 <? modified st) && negb isReq && (0 <? ancount)
                    then repack (st_n s) (st_b s) (pack st) plen dns olen an_mark ancount
                    else Done (pack st, plen));
      b ← (if 0 <? modified st then eth ← sizeofeth b; '(_, b) ← chksum e b eth; Done b else Done b);
      Done (DnsOut 1 b plen (pass_throughs st) None)
    end.

Definition dhcp_dns (s : stacks) (g : garden) (pack : bytes) (plen : nat) (isReq : bool) : result dns_out :=
  dns ← sizeofudp pack;
  if (plen <? DHCP_DNS_HLEN + dns)%nat then Done (DnsOut 0 pack plen g None)
  else
    let dlen := Z.of_nat plen - Z.of_nat DHCP_DNS_HLEN - Z.of_nat dns in
    let olen := dlen in
    flags ← get16 pack (dns + 2);
    qdcount ← get16 pack (dns + 4);
    ancount ← get16 pack (dns + 6);
    nscount ← get16 pack (dns + 8);
    arcount ← get16 pack (dns + 10);
    if bool_decide (Z.testbit flags 15 = isReq) then Done (DnsOut 0 pack plen g None)
    else
      '(ok, an_mark, st) ← dns_parse qdcount ancount nscount arcount dns olen isReq
                             (DnsState pack (dns + 12) dlen (replicate 512 0) (-1) (-1) g);
      dns_conclude s plen dns olen isReq flags qdcount ancount nscount arcount ok an_mark st.

(** ** Name servers of the client's choice *)

(** [dns1], [dns2] and [dnatdns] of the connection, as 4 bytes. *)
Record dns_conn := DnsConn { dns1 : bytes; dns2 : bytes; dnatdns : bytes }.

(** The return value, the connection, [*do_checksum] if it is set, and what [dhcp_dns] did. *)
Definition dhcp_dnsDNAT (anydns : bool) (s : stacks) (conn : dns_conn) (g : garden) (pack : bytes) (plen : nat) : result (Z * dns_conn * bool * dns_out) :=
  eth ← sizeofeth pack; udp ← sizeofip pack;
  daddr ← read pack (eth + 16) 4;
  proto ← byte_at pack (eth + 9);
  dport ← get16 pack (udp + 2);
  let server a := bool_decide (a = dns1 conn) || bool_decide (a = dns2 conn) in
  if (anydns || server daddr) && (proto =? PKT_IP_PROTO_UDP) && (dport =? DHCP_DNS) then
    '(conn, pack, ck) ← (if anydns then
                           if negb (server daddr)
                           then b ← memcpy pack (eth + 16) (dns1 conn); Done (DnsConn (dns1 conn) (dns2 conn) daddr, b, true)
                           else Done (DnsConn (dns1 conn) (dns2 conn) (replicate 4 0), pack, false)
                         else Done (conn, pack, false));
    o ← dhcp_dns s g pack plen true;
    Done ((if ret o =? 0 then -1 else 1), conn, ck, o)
  else Done (0, conn, false, DnsOut 0 pack plen g None).
Definition dhcp_dnsunDNAT (anydns : bool) (s : stacks) (conn : dns_conn) (g : garden) (pack : bytes) (plen : nat) : result (Z * bool * dns_out) :=
  eth ← sizeofeth pack; udp ← sizeofip pack;
  saddr ← read pack (eth + 12) 4;
  proto ← byte_at pack (eth + 9);
  sport ← get16 pack udp;
  if (anydns || bool_decide (saddr = dns1 conn) || bool_decide (saddr = dns2 conn)) && (proto =? PKT_IP_PROTO_UDP) && (sport =? DHCP_DNS) then
    '(pack, ck) ← (if anydns && negb (bool_decide (dnatdns conn = replicate 4 0)) && negb (bool_decide (saddr = dnatdns conn))
                   then b ← memcpy pack (eth + 12) (dnatdns conn); Done (b, true)
                   else Done (pack, false));
    o ← dhcp_dns s g pack plen false;
    Done ((if ret o =? 0 then -1 else 1), ck, o)
  else Done (0, false, DnsOut 0 pack plen g None).
End Dns.


(** ** What a name is *)

(** Labels with a dot behind each. *)
Definition dotted (ls : list bytes) : bytes := concat (map (fun s => s ++ [46]) ls).
(** The text of a name of which [k] bytes were found before a pointer: the last dot is
    only left out when there was no pointer. *)
Definition name_text (ls : list bytes) (k : nat) : bytes :=
  if decide (k = length (dotted ls)) then removelast (dotted ls) else dotted ls.

(** The labels found at an offset of the memory, as RFC 1035 has it: how many levels of
    pointers may follow, how far the name may reach, the labels, how many bytes the name
    takes there, how many bytes of its text come before a pointer. *)
Inductive name_at (mem : bytes) (opkt : nat) (olen : Z) : nat -> nat -> Z -> list bytes -> Z -> nat -> Prop :=
| na_end n res reslen : 0 < reslen -> mem !! res = Some 0 -> name_at mem opkt olen n res reslen [] 1 0
| na_label n res reslen s ls u k :
  mem !! res = Some (Z.of_nat (length s)) -> read mem (S res) (length s) = Done s ->
  (0 < length s < 192)%nat -> Z.of_nat (length s) < olen -> Z.of_nat (length s) + 1 <= reslen < 2 ^ 32 ->
  name_at mem opkt olen n (S res + length s) (reslen - 1 - Z.of_nat (length s)) ls u k ->
  name_at mem opkt olen n res reslen (s :: ls) (u + 1 + Z.of_nat (length s)) (k + length s + 1)
| na_ptr n res reslen hi lo ls u k :
  mem !! res = Some hi -> 192 <= hi < 256 -> mem !! S res = Some lo -> 0 <= lo < 256 -> 2 <= reslen ->
  (hi - 192) * 256 + lo <= olen ->
  name_at mem opkt olen n (opkt + Z.to_nat ((hi - 192) * 256 + lo)) (olen - ((hi - 192) * 256 + lo)) ls u k ->
  name_at mem opkt olen (S n) res reslen ls 2 0.

Lemma name_at_k mem opkt olen n res reslen ls u k : name_at mem opkt olen n res reslen ls u k ->
  (k <= length (dotted ls))%nat /\ 0 < u.
Proof.
  induction 1; cbn; unfold dotted in *; cbn [map concat]; rewrite ?length_app; cbn; lia.
Qed.

Lemma ptr_bits hi : 192 <= hi < 256 -> hi &ᵤ 0xC0 = 0xC0 /\ hi &ᵤ 0x3F = hi - 192.
Proof.
  intros Hh. change 0x3F with (Z.ones 6). rewrite Z.land_ones by lia. change (2 ^ 6) with 64.
  assert (forallb (fun x => (x &ᵤ 0xC0 =? 0xC0) && (x mod 64 =? x - 192)) (map (fun k => 192 + Z.of_nat k) (seq 0 64)) = true) as H by done.
  rewrite forallb_forall in H. specialize (H hi). apply andb_prop in H as [H1 H2].
  - by apply Z.eqb_eq in H1, H2.
  - apply in_map_iff. exists (Z.to_nat (hi - 192)). split; [lia|]. apply in_seq. lia.
Qed.
Lemma label_bits l : 0 <= l < 192 -> (l &ᵤ 0xC0 =? 0xC0) = false.
Proof.
  intros Hh.
  assert (forallb (fun x => negb (x &ᵤ 0xC0 =? 0xC0)) (map Z.of_nat (seq 0 192)) = true) as H by done.
  rewrite forallb_forall in H. specialize (H l). apply negb_true_iff, H.
  apply in_map_iff. exists (Z.to_nat l). split; [lia|]. apply in_seq. lia.
Qed.
Lemma label_bits_inv l : is_u8 l -> (l &ᵤ 0xC0 =? 0xC0) = false -> l < 192.
Proof.
  intros Hl H. destruct (Z.lt_ge_cases l 192); [done|]. unfold is_u8, in_w in Hl. change (2 ^ 8) with 256 in Hl.
  rewrite (proj1 (ptr_bits l ltac:(lia))) in H. done.
Qed.

Lemma captured_ok pre k : (0 < k)%nat -> captured (pre ++ replicate k 0) (Some (length pre)) = Done (Some (length pre)).
Proof.
  intros Hk. unfold captured. rewrite (byte_at_ok _ _ 0); [done|].
  rewrite lookup_app_r, Nat.sub_diag by lia. destruct k; [lia|done].
Qed.

Lemma memcpy_zeros pre vs k : (length vs <= k)%nat ->
  memcpy (pre ++ replicate k 0) (length pre) vs = Done ((pre ++ vs) ++ replicate (k - length vs) 0).
Proof.
  intros Hk. rewrite memcpy_over by (rewrite ?length_replicate; done). by rewrite drop_replicate, app_assoc.
Qed.
Lemma fullname_at_S mem n opkt olen data d dlen res reslen :
  fullname_at mem (S n) opkt olen data d dlen res reslen =
    (d ← captured data d;
     '(ok, ret, data, _) ← fullname_loop mem (fullname_at mem n opkt olen) opkt olen (S (length mem)) res reslen 0 data d dlen;
     Done ((if ok : bool then ret else -1), data)).
Proof. reflexivity. Qed.

(** The loop on a name of the packet. *)
Lemma loop_name mem opkt olen n res reslen ls u k : name_at mem opkt olen n res reslen ls u k ->
  forall fuel ret pre m dlen, (length mem - res < fuel)%nat -> (length (dotted ls) < m)%nat -> Z.of_nat (length (dotted ls)) <= dlen ->
  fullname_loop mem (fullname_at mem n opkt olen) opkt olen fuel res reslen ret (pre ++ replicate m 0) (Some (length pre)) dlen
    = Done (true, ret + u, (pre ++ dotted ls) ++ replicate (m - length (dotted ls)) 0, Some (length pre + k)%nat).
Proof.
  induction 1 as [n res reslen Hr H0|n res reslen s ls u k Hl Hs Hlen Ho Hr Hn IH|n res reslen hi lo ls u k Hh Hhi Hlo Hlb Hr Ho Hn IH];
    intros fuel ret pre m dlen Hf Hm Hd; (destruct fuel as [|fuel]; [lia|]); cbn [fullname_loop].
  - rewrite (proj2 (Z.eqb_neq _ _)), (byte_at_ok _ _ _ H0) by lia. obind. cbn. by rewrite app_nil_r, Nat.add_0_r, Nat.sub_0_r.
  - assert (Hdot : dotted (s :: ls) = (s ++ [46]) ++ dotted ls) by done. rewrite Hdot in *. rewrite !length_app in Hm, Hd. cbn [length] in Hm, Hd.
    rewrite (proj2 (Z.eqb_neq _ _)), (byte_at_ok _ _ _ Hl) by lia. obind.
    rewrite (proj2 (Z.eqb_neq (Z.of_nat (length s)) 0)), label_bits by lia.
    rewrite (proj2 (Z.leb_gt dlen _)), (proj2 (Z.leb_gt olen _)) by lia. cbn [orb]. rewrite Nat2Z.id, Hs. obind.
    rewrite memcpy_zeros by lia. obind. rewrite <- length_app, memcpy_zeros by (cbn; lia). obind.
    rewrite (u32_small (_ - _)) by (unfold is_u32, in_w; lia).
    replace (S (length (pre ++ s))) with (length ((pre ++ s) ++ [46])) by (rewrite length_app; cbn; lia).
    assert (Hmem : (res < length mem)%nat) by (by apply lookup_lt_Some in Hl).
    rewrite IH by (cbn [length]; lia). f_equal. f_equal; [f_equal|].
    + f_equal; lia.
    + f_equal; [by rewrite <- !app_assoc|]. rewrite !length_app. cbn [length]. f_equal. lia.
    + rewrite !length_app. cbn [length]. f_equal. lia.
  - rewrite (proj2 (Z.eqb_neq _ _)), (byte_at_ok _ _ _ Hh) by lia. obind. destruct (ptr_bits hi Hhi) as [B1 B2].
    rewrite (proj2 (Z.eqb_neq hi 0)), B1, B2 by lia. change (0xC0 =? 0xC0) with true. cbv iota.
    rewrite (proj2 (Z.eqb_neq _ _)), (byte_at_ok _ _ _ Hlo) by lia. obind. rewrite Z.shiftl_mul_pow2 by lia. change (2 ^ 8) with 256.
    assert (u16 ((hi - 192) * 256 + lo) = (hi - 192) * 256 + lo) as -> by (apply Z.mod_small; change (2 ^ 16) with 65536; lia).
    rewrite (proj2 (Z.ltb_ge olen _)) by lia. rewrite fullname_at_S, captured_ok by lia. obind.
    rewrite IH by lia. obind. pose proof (proj2 (name_at_k _ _ _ _ _ _ _ _ _ Hn)).
    rewrite (proj2 (Z.ltb_ge _ 0)) by lia. cbn [negb]. rewrite Nat.add_0_r. do 4 f_equal. lia.
Qed.

Lemma dotted_last ls : ls <> [] -> exists t, dotted ls = t ++ [46].
Proof.
  intros Hl. destruct (exists_last Hl) as (ls' & s & ->). exists (dotted ls' ++ s).
  unfold dotted. rewrite map_app, concat_app. cbn. by rewrite app_nil_r, <- app_assoc.
Qed.
Lemma dotted_nz ls : Forall (fun s => 0 ∉ s) ls -> 0 ∉ dotted ls.
Proof.
  induction 1 as [|s ls Hs _ IH]; cbn; [apply not_elem_of_nil|]. unfold dotted in *. cbn [map concat].
  rewrite !not_elem_of_app. repeat split; try done. by rewrite list_elem_of_singleton.
Qed.

Lemma name_decoded mem opkt olen res reslen ls u k m dlen :
  name_at mem opkt olen 14 res reslen ls u k -> Forall (fun s => 0 ∉ s) ls ->
  (length (dotted ls) < m)%nat -> Z.of_nat (length (dotted ls)) <= dlen ->
  dns_fullname mem (replicate m 0) dlen res reslen opkt olen
    = Done (u, name_text ls k ++ replicate (m - length (name_text ls k)) 0).
Proof.
  intros Hn Hnz Hm Hd. unfold dns_fullname.
  pose proof (captured_ok [] m ltac:(lia)) as Hc. cbn [app length] in Hc. rewrite Hc. obind.
  pose proof (loop_name mem opkt olen 14 res reslen ls u k Hn (S (length mem)) 0 [] m dlen ltac:(lia) Hm Hd) as Hl.
  cbn [app length] in Hl. rewrite Hl. obind. rewrite Nat.add_0_l, Z.add_0_l.
  pose proof (dotted_nz ls Hnz) as Hz.
  assert (Hm' : replicate (m - length (dotted ls)) 0 = 0 :: replicate (m - length (dotted ls) - 1) 0).
  { destruct (m - length (dotted ls))%nat as [|j] eqn:E; [lia|]. cbn. by rewrite Nat.sub_0_r. }
  rewrite (cstring_app _ 0 (dotted ls) (replicate (m - length (dotted ls) - 1) 0)) by (rewrite ?drop_0, ?Hm'; done). obind.
  unfold name_text. destruct ls as [|s ls].
  { assert (k = 0%nat) as ->; [|reflexivity].
    destruct (name_at_k _ _ _ _ _ _ _ _ _ Hn) as [Hk _]. change (length (dotted [])) with 0%nat in Hk. clear -Hk. lia. }
  set (ls' := s :: ls) in *. destruct (dotted_last ls' ltac:(done)) as [t Ht].
  rewrite Ht, last_snoc, length_app, removelast_last in *. cbn [length] in *.
  rewrite (bool_decide_true (Some 46 = Some 46)), (proj2 (Nat.eqb_neq _ 0)), andb_true_r by (done || lia). cbn [negb andb].
  destruct (decide (k = (length t + 1)%nat)) as [->|Hk].
  - rewrite Nat.eqb_refl, Nat.add_sub. rewrite <- (app_assoc t).
    rewrite memcpy_app by done. obind. do 3 f_equal.
    replace (m - length t)%nat with (S (m - (length t + 1))) by lia. done.
  - by rewrite (proj2 (Nat.eqb_neq _ k)), length_app by done.
Qed.

(** ** Encoded names *)

Definition enc_name (ls : list bytes) : bytes := concat (map (fun s => Z.of_nat (length s) :: s) ls) ++ [0].
Definition label_ok (s : bytes) : Prop := (0 < length s < 64)%nat /\ 0 ∉ s.

Lemma length_enc_name ls : length (enc_name ls) = S (length (dotted ls)).
Proof.
  unfold enc_name, dotted. rewrite length_app. induction ls as [|s ls IH]; cbn [map concat length]; [done|].
  rewrite !length_app in *. cbn [length] in *. lia.
Qed.
Lemma enc_name_at p ls r opkt olen n res reslen :
  Forall label_ok ls -> res = length p -> Z.of_nat (length (enc_name ls)) <= reslen < 2 ^ 32 ->
  Z.of_nat (length (dotted ls)) < olen ->
  name_at (p ++ enc_name ls ++ r) opkt olen n res reslen ls (Z.of_nat (length (enc_name ls))) (length (dotted ls)).
Proof.
  intros Hls. revert p res reslen. induction Hls as [|s ls [Hs Hz] Hls IH]; intros p res reslen -> Hr Ho.
  - constructor; [cbn in Hr; lia|]. rewrite lookup_app_r, Nat.sub_diag by lia. done.
  - assert (He : enc_name (s :: ls) = (Z.of_nat (length s) :: s) ++ enc_name ls) by (unfold enc_name; cbn; by rewrite <- app_assoc).
    assert (Hd : length (dotted (s :: ls)) = (length (dotted ls) + length s + 1)%nat).
    { unfold dotted. cbn [map concat]. rewrite !length_app. cbn. lia. }
    rewrite He, Hd in *. rewrite length_app in *. cbn [length] in Hr.
    replace (Z.of_nat (length (Z.of_nat (length s) :: s) + length (enc_name ls)))
      with (Z.of_nat (length (enc_name ls)) + 1 + Z.of_nat (length s)) by (cbn [length]; lia).
    replace (p ++ ((Z.of_nat (length s) :: s) ++ enc_name ls) ++ r) with ((p ++ Z.of_nat (length s) :: s) ++ enc_name ls ++ r)
      by (by rewrite <- !app_assoc).
    constructor; try lia.
    + by rewrite <- app_assoc, lookup_app_r, Nat.sub_diag by lia.
    + replace ((p ++ Z.of_nat (length s) :: s) ++ enc_name ls ++ r) with ((p ++ [Z.of_nat (length s)]) ++ s ++ enc_name ls ++ r) by (by rewrite <- !app_assoc).
      apply read_app; [rewrite length_app; cbn; lia|done].
    + apply IH; [rewrite length_app; cbn; lia|lia|lia].
Qed.

(** ** Any packet at all *)

(** The name buffer ends in a NUL at [n] that is not reached. *)
Definition buf_ok (n : nat) (data : bytes) : Prop := length data = S n /\ data !! n = Some 0.
Definition room (n : nat) (d : option nat) (dlen : Z) : Prop :=
  0 <= dlen /\ match d with Some o => Z.of_nat o + dlen <= Z.of_nat n | None => True end.

Lemma byte_at_lt b i : (i < length b)%nat -> exists x, byte_at b i = Done x /\ b !! i = Some x.
Proof. intros Hi. destruct (lookup_lt_is_Some_2 b i Hi) as [x Hx]. exists x. split; [by apply byte_at_ok|done]. Qed.
Lemma memcpy_buf n data o vs : buf_ok n data -> (o + length vs <= n)%nat ->
  exists data', memcpy data o vs = Done data' /\ buf_ok n data'.
Proof.
  intros [Hl H0] Ho. unfold memcpy. rewrite splice_Some by lia. obind. eexists. split; [done|].
  split; [rewrite !length_app, length_take, length_drop; lia|].
  rewrite lookup_app_r, lookup_app_r by (rewrite ?length_take; lia).
  rewrite lookup_drop, length_take, <- H0. f_equal. lia.
Qed.
Lemma captured_total n data d dlen : buf_ok n data -> room n d dlen ->
  exists d', captured data d = Done d' /\ room n d' dlen.
Proof.
  intros [Hl H0] [Hr Hd]. destruct d as [o|]; [|by exists None].
  destruct (byte_at_lt data o ltac:(lia)) as (x & Hx & _). unfold captured. rewrite Hx. obind.
  exists (if x =? 0 then Some o else None). split; [done|]. split; [done|]. by destruct (x =? 0).
Qed.

Section Any.
Context (pkt : bytes) (opkt : nat) (olen : Z) (n : nat) (Hpkt : is_bytes pkt) (Hlen : Z.of_nat opkt + olen <= Z.of_nat (length pkt)).
Let mem := pkt ++ replicate 256 0.

Lemma loop_total rec :
  (forall data d dlen res reslen, buf_ok n data -> room n d dlen -> (res <= length pkt)%nat ->
     exists r data', rec data d dlen res reslen = Done (r, data') /\ buf_ok n data') ->
  forall fuel res reslen ret data d dlen,
  (length mem - res < fuel)%nat -> (res <= length pkt + 192)%nat -> buf_ok n data -> room n d dlen ->
  exists ok ret' data' d', fullname_loop mem rec opkt olen fuel res reslen ret data d dlen = Done (ok, ret', data', d') /\ buf_ok n data'.
Proof.
  intros Hrec. induction fuel as [|fuel IH]; intros res reslen ret data d dlen Hf Hres Hb Hr; [lia|]. cbn [fullname_loop].
  assert (Hmem : length mem = (length pkt + 256)%nat) by (unfold mem; by rewrite length_app, length_replicate).
  destruct (reslen =? 0); [eauto 6|]. destruct (byte_at_lt mem res ltac:(lia)) as (l & Hl & Hl'). rewrite Hl. obind.
  destruct (Z.eqb_spec l 0) as [->|Hl0]; [eauto 6|].
  assert (Hin : (res < length pkt)%nat).
  { destruct (Nat.lt_ge_cases res (length pkt)) as [?|Hge]; [done|]. unfold mem in Hl'. rewrite lookup_app_r in Hl' by done.
    by apply lookup_replicate in Hl' as [-> _]. }
  assert (Hu : is_u8 l).
  { unfold mem in Hl'. rewrite lookup_app_l in Hl' by done. exact (proj1 (Forall_lookup _ _) Hpkt _ _ Hl'). }
  destruct (l &ᵤ 0xC0 =? 0xC0) eqn:Hp.
  - destruct (reslen - 1 =? 0); [eauto 6|]. destruct (byte_at_lt mem (S res) ltac:(lia)) as (x & Hx & _). rewrite Hx. obind.
    destruct (Z.ltb_spec olen (u16 (((l &ᵤ 0x3F) <<ᵤ 8) + x))) as [Ho|Ho]; [eauto 6|].
    pose proof (u16_range (((l &ᵤ 0x3F) <<ᵤ 8) + x)) as Hu16. unfold is_u16, in_w in Hu16.
    destruct (Hrec data d dlen (opkt + Z.to_nat (u16 (((l &ᵤ 0x3F) <<ᵤ 8) + x)))%nat (olen - u16 (((l &ᵤ 0x3F) <<ᵤ 8) + x)) Hb Hr) as (r & data' & Hrr & Hb');
      [lia|]. rewrite Hrr. obind. eauto 6.
  - pose proof (label_bits_inv l Hu Hp) as Hl192. unfold is_u8, in_w in Hu.
    destruct (Z.leb_spec dlen l) as [Hd|Hd]; [cbn [orb]; eauto 6|]. destruct (olen <=? l); [cbn [orb]; eauto 6|]. cbn [orb].
    destruct d as [o|]; obind.
    + destruct Hr as [_ Hr]. rewrite read_ok by lia. obind.
      set (s := take (Z.to_nat l) (drop (S res) mem)). assert (Hs : length s = Z.to_nat l) by (unfold s; rewrite length_take, length_drop; lia).
      destruct (memcpy_buf n data o s Hb ltac:(lia)) as (d1 & -> & Hb1). obind.
      destruct (memcpy_buf n d1 (o + Z.to_nat l) [46] Hb1 ltac:(cbn; lia)) as (d2 & -> & Hb2). obind.
      apply IH; [lia|lia|done|split; [lia|lia]].
    + apply IH; [lia|lia|done|split; [lia|done]].
Qed.
Lemma fullname_at_total levels : forall data d dlen res reslen, buf_ok n data -> room n d dlen -> (res <= length pkt)%nat ->
  exists r data', fullname_at mem levels opkt olen data d dlen res reslen = Done (r, data') /\ buf_ok n data'.
Proof.
  induction levels as [|levels IH]; intros data d dlen res reslen Hb Hr Hres; [by exists (-1), data|].
  rewrite fullname_at_S. destruct (captured_total n data d dlen Hb Hr) as (d' & -> & Hr'). obind.
  destruct (loop_total _ IH (S (length mem)) res reslen 0 data d' dlen ltac:(lia) ltac:(lia) Hb Hr') as (ok & ret' & data' & d'' & -> & Hb'). obind. eauto.
Qed.
Lemma fullname_total dlen res reslen : 0 <= dlen <= Z.of_nat n -> (res <= length pkt)%nat ->
  exists r data', dns_fullname mem (replicate (S n) 0) dlen res reslen opkt olen = Done (r, data') /\ buf_ok n data'.
Proof.
  intros Hd Hres. unfold dns_fullname.
  assert (Hb : buf_ok n (replicate (S n) 0)) by (split; [apply length_replicate|apply lookup_replicate; lia]).
  destruct (captured_total n _ (Some 0%nat) dlen Hb ltac:(split; lia)) as (d' & -> & Hr'). obind.
  destruct (loop_total _ (fullname_at_total 14) (S (length mem)) res reslen 0 _ d' dlen ltac:(lia) ltac:(lia) Hb Hr')
    as (ok & ret' & data' & d'' & -> & Hb'). obind.
  destruct ok; [|eauto]. destruct d'' as [o|]; [|eauto].
  destruct (find_from (fun c => c =? 0) data') as [[i y]|] eqn:Hf.
  - unfold cstring. rewrite drop_0, Hf. obind. apply find_from_Some in Hf as (Hi & _ & _). apply lookup_lt_Some in Hi.
    rewrite length_take. destruct (negb _ && _ && _) eqn:Hc; [|obind; eauto].
    apply andb_prop in Hc as [Hc _]. apply andb_prop in Hc as [Hc _]. apply negb_true_iff, Nat.eqb_neq in Hc.
    destruct Hb' as [Hl H0].
    destruct (memcpy_buf n data' (i `min` length data' - 1) [0] (conj Hl H0) ltac:(cbn; lia)) as (d2 & -> & Hb2). obind. eauto.
  - exfalso. destruct Hb' as [_ H0]. apply find_from_None in Hf. by pose proof (proj1 (Forall_lookup _ _) Hf _ _ H0).
Qed.
End Any.

(** C32: [dns_fullname] on a name as RFC 1035 has it, with up to 14 compression pointers
    one behind the other, returns the number of bytes the name takes where it stands and
    leaves its labels with dots between them, and a NUL behind them, in a cleared buffer
    that has room.  A name with a pointer keeps a dot at its end. *)
Theorem dns_fullname_decodes mem opkt olen res reslen ls u k m dlen :
  name_at mem opkt olen 14 res reslen ls u k -> Forall (fun s => 0 ∉ s) ls ->
  (length (dotted ls) < m)%nat -> Z.of_nat (length (dotted ls)) <= dlen ->
  dns_fullname mem (replicate m 0) dlen res reslen opkt olen
    = Done (u, name_text ls k ++ replicate (m - length (name_text ls k)) 0).
Proof. apply name_decoded. Qed.

(** C37: whatever bytes the packet has, [dns_fullname] comes to an end, and writes only in
    its buffer and never on its last byte, when the buffer is longer than the length it is
    told; 256 zero bytes behind the packet are enough that it reads nothing else. *)
Theorem dns_fullname_total pkt opkt olen n dlen res reslen :
  is_bytes pkt -> Z.of_nat opkt + olen <= Z.of_nat (length pkt) -> 0 <= dlen <= Z.of_nat n -> (res <= length pkt)%nat ->
  exists r data, dns_fullname (pkt ++ replicate 256 0) (replicate (S n) 0) dlen res reslen opkt olen = Done (r, data) /\
    length data = S n /\ data !! n = Some 0.
Proof. intros H1 H2 H3 H4. by apply fullname_total. Qed.

(** ** Domains *)

Lemma strcmp_eq_spec a b : strcmp_eq a b = true <-> a = b.
Proof. apply bool_decide_eq_true. Qed.
(** A question matches a domain of the configuration if and only if it is the domain
    or ends in it, with something in front that ends in a dot unless the domain begins
    with one: [notexample.com] does not match [example.com]. *)
Theorem uam_match_spec question dom :
  uam_match question dom = true <->
  dom <> [] /\ (question = dom \/ exists p, question = p ++ dom /\ p <> [] /\ (head dom = Some 46 \/ last p = Some 46)).
Proof.
  unfold uam_match. rewrite !andb_true_iff, !negb_true_iff, !Nat.eqb_neq, orb_true_iff, !andb_true_iff, Nat.eqb_eq, Nat.ltb_lt,
    orb_true_iff, !bool_decide_eq_true, !strcmp_eq_spec.
  assert (Hlast : forall p, p <> [] -> (p ++ dom) !! (length (p ++ dom) - length dom - 1)%nat = last p).
  { intros p Hp. rewrite length_app, Nat.add_sub, last_lookup, lookup_app_l by (destruct p; cbn; [done|lia]). f_equal. lia. }
  split.
  - intros [[Hq Hd] [[_ ->]|[[Hlt Hdot] Heq]]]; [by split; [destruct question|left]|].
    split; [by destruct dom|]. right. set (p := take (length question - length dom) question).
    assert (Hp : question = p ++ dom) by (rewrite <- (take_drop (length question - length dom) question) at 1; by rewrite <- Heq).
    assert (Hne : p <> []) by (intros Hnil; rewrite Hp, Hnil in Hlt; cbn in Hlt; lia).
    exists p. split; [done|]. split; [done|]. rewrite <- Hlast by done. by rewrite <- Hp.
  - intros [Hd [->|(p & -> & Hp & Hdot)]]; [destruct dom; [done|]; split; [done|by left]|].
    rewrite Hlast, length_app, Nat.add_sub, drop_app_length by done.
    assert (length p <> 0%nat /\ length dom <> 0%nat) as [? ?] by (by destruct p, dom).
    split; [lia|]. right. split; [split; [lia|done]|done].
Qed.

(** ** Messages *)

(** The text of a name. *)
Definition join (ls : list bytes) : bytes := removelast (dotted ls).

(** A record whose name is a pointer to the question, as name servers write it. *)
Record rr := RR { rr_type : Z; rr_class : Z; rr_ttl : Z; rr_data : bytes }.
Definition rr_head (r : rr) : bytes := [0xC0; 0x0C] ++ be_bytes 2 (rr_type r) ++ be_bytes 2 (rr_class r).
Definition rr_tail (r : rr) : bytes := be_bytes 2 (Z.of_nat (length (rr_data r))) ++ rr_data r.
Definition enc_rr (r : rr) : bytes := rr_head r ++ be_bytes 4 (rr_ttl r) ++ rr_tail r.
Definition enc_rrs (rs : list rr) : bytes := concat (map enc_rr rs).
(** The addresses of an A record. *)
Fixpoint chunks4 (l : bytes) : list bytes :=
  match l with a :: b :: c :: d :: l => [a; b; c; d] :: chunks4 l | _ => [] end.
Definition rr_addrs (r : rr) : list bytes := if rr_type r =? 1 then chunks4 (rr_data r) else [].

(** What answers become when the question is in a domain of the configuration. *)
Definition cap_rr (ttl : Z) (r : rr) : rr := RR (rr_type r) (rr_class r) (Z.min ttl (rr_ttl r)) (rr_data r).
Definition allow (e : endian) (l : list pass_through) (a : bytes) : list pass_through :=
  Garden.change_spec MAX_PASS_THROUGHS l (Garden.Add true (PassThrough (word_val e a) 0xffffffff 0 0)).

Definition rr_ok (paranoid : bool) (r : rr) : Prop :=
  0 <= rr_type r < 65536 /\ 0 <= rr_ttl r < 2 ^ 32 /\ Z.of_nat (length (rr_data r)) < 65536 /\
  (rr_type r = 1 -> exists k, length (rr_data r) = (4 * k)%nat) /\
  exists required, record_type (rr_type r) = Some required /\ (paranoid = true -> required = true).

Lemma length_enc_rr r : length (enc_rr r) = (12 + length (rr_data r))%nat.
Proof. unfold enc_rr, rr_head, rr_tail. by rewrite !length_app, !length_be_bytes. Qed.
Lemma length_cap ttl r : length (enc_rr (cap_rr ttl r)) = length (enc_rr r).
Proof. by rewrite !length_enc_rr. Qed.

Lemma allow_ok e g a : Garden.wf MAX_PASS_THROUGHS g -> NoDup (Garden.active g) ->
  exists g', add_A_to_garden e g a = Done g' /\ Garden.wf MAX_PASS_THROUGHS g' /\ NoDup (Garden.active g') /\
    Garden.active g' = allow e (Garden.active g) a.
Proof.
  intros Hw Hn. unfold add_A_to_garden, allow, Garden.change_spec. set (pt := PassThrough _ _ _ _).
  destruct (Garden.apply_entry_ok MAX_PASS_THROUGHS true false g pt Hw Hn) as (g' & Ha & (Hw' & Hn' & _)).
  exists g'. split; [done|]. split; [done|]. split; [done|]. unfold Garden.apply_entry in Ha.
  pose proof (Garden.add_ok MAX_PASS_THROUGHS g pt true Hw Hn) as Hadd.
  destruct (Garden.add_spec MAX_PASS_THROUGHS true pt (Garden.active g)) as [l|] eqn:Hl.
  - destruct Hadd as (g2 & Hg2 & _ & Hact). rewrite Hg2 in Ha. injection Ha as <-. by rewrite Hact.
  - rewrite Hadd in Ha. injection Ha as <-. done.
Qed.

Lemma addr_loop_ok e l : forall A R g k, length l = (4 * k)%nat ->
  Garden.wf MAX_PASS_THROUGHS g -> NoDup (Garden.active g) ->
  exists g', addr_loop e k (A ++ l ++ R) (length A) g = Done g' /\ Garden.wf MAX_PASS_THROUGHS g' /\ NoDup (Garden.active g') /\
    Garden.active g' = foldl (allow e) (Garden.active g) (chunks4 l).
Proof.
  intros A R g k. revert l A g. induction k as [|k IH]; intros l A g Hl Hw Hn; cbn [addr_loop].
  - destruct l; [|done]. by exists g.
  - destruct l as [|a [|b [|c [|d l]]]]; cbn [length] in Hl; try lia. cbn [chunks4 foldl].
    rewrite (read_app A [a; b; c; d] (l ++ R)) by done. obind.
    destruct (allow_ok e g [a; b; c; d] Hw Hn) as (g1 & -> & Hw1 & Hn1 & H1). obind.
    destruct (IH l (A ++ [a; b; c; d]) g1 ltac:(lia) Hw1 Hn1) as (g2 & H2 & Hw2 & Hn2 & H3).
    exists g2. rewrite <- H1. split; [|done]. rewrite <- H2. rewrite length_app, <- (app_assoc A). done.
Qed.

Section Message.
Context (e : endian) (o : options) (Q : bytes) (opkt : nat) (olen : Z) (ls : list bytes).
Hypotheses (HQ : length Q = (opkt + 12)%nat) (Hls : Forall label_ok ls) (Hlen : (length (dotted ls) < 512)%nat)
  (Hipv6 : ipv6 o = false) (Holen : Z.of_nat (length (enc_name ls)) <= olen < 2 ^ 32).

Lemma labels_nz : Forall (fun s => 0 ∉ s) ls.
Proof. eapply Forall_impl; [exact Hls|]. by intros s [_ H]. Qed.
Lemma name_text_join : name_text ls (length (dotted ls)) = join ls.
Proof. unfold name_text. by rewrite decide_True. Qed.
Lemma length_join : (length (join ls) <= length (dotted ls))%nat.
Proof. unfold join. destruct ls as [|s ls']; [done|]. destruct (dotted_last (s :: ls') ltac:(done)) as [t ->]. rewrite removelast_last, length_app. lia. Qed.
Lemma join_nz : 0 ∉ join ls.
Proof.
  pose proof (dotted_nz ls labels_nz) as Hz. unfold join. destruct ls as [|s ls']; [done|].
  destruct (dotted_last (s :: ls') ltac:(done)) as [t Ht]. rewrite Ht in *. rewrite removelast_last. rewrite not_elem_of_app in Hz. apply Hz.
Qed.

Lemma join_cstring : cstring (join ls ++ replicate (512 - length (join ls)) 0) 0 = Done (join ls) :> result bytes.
Proof.
  pose proof length_join. apply (cstring_app _ 0 (join ls) (replicate (512 - length (join ls) - 1) 0)); [|apply join_nz].
  rewrite drop_0. f_equal. destruct (512 - length (join ls))%nat eqn:E; [lia|]. cbn. by rewrite Nat.sub_0_r.
Qed.
(** The question. *)
Lemma question_name R m dlen reslen :
  Z.of_nat (length (enc_name ls)) <= reslen < 2 ^ 32 -> (512 <= m)%nat -> 511 <= dlen ->
  dns_fullname (Q ++ enc_name ls ++ R) (replicate m 0) dlen (opkt + 12) reslen opkt olen
    = Done (Z.of_nat (length (enc_name ls)), join ls ++ replicate (m - length (join ls)) 0).
Proof.
  intros Hr Hm Hd. rewrite <- name_text_join.
  apply name_decoded; [|apply labels_nz|lia|lia]. rewrite <- HQ. apply enc_name_at; [done|done|done|].
  rewrite length_enc_name in Holen. lia.
Qed.

Definition matched (isReq : bool) : Z := if negb isReq && existsb (uam_match (join ls)) (uamdomains o) then 1 else -1.
Lemma copy_question_ok isReq (qt R post : bytes) len g :
  length qt = 4%nat -> len = Z.of_nat (length (enc_name ls)) + 4 + Z.of_nat (length R) -> len < 2 ^ 32 ->
  (dnsparanoia o = true -> (length (enc_name ls) <= 128)%nat) ->
  dns_copy_res e o true opkt olen isReq (DnsState (Q ++ enc_name ls ++ qt ++ R ++ post) (opkt + 12) len (replicate 512 0) (-1) (-1) g)
    = Done (0, DnsState (Q ++ enc_name ls ++ qt ++ R ++ post) (length (Q ++ enc_name ls ++ qt)) (Z.of_nat (length R))
                        (join ls ++ replicate (512 - length (join ls)) 0) (matched isReq) (-1) g).
Proof.
  intros Hqt -> Hl Hp. unfold dns_copy_res. cbn [pack dptr left]. pose proof length_join as Hj.
  rewrite question_name by (unfold PKT_IP_PLEN; lia). obind.
  rewrite (proj2 (Z.ltb_ge _ 0)), (proj2 (Z.ltb_ge _ (Z.of_nat (length (enc_name ls))))) by lia. cbn [orb].
  assert (dnsparanoia o && (128 <? Z.of_nat (length (enc_name ls))) = false) as ->.
  { destruct (dnsparanoia o); [|done]. cbn [andb]. apply Z.ltb_ge. specialize (Hp eq_refl). lia. }
  rewrite (proj2 (Z.ltb_ge _ 4)), Nat2Z.id by lia.
  assert (get16 (Q ++ enc_name ls ++ qt ++ R ++ post) (opkt + 12 + length (enc_name ls)) = Done (be_val (take 2 qt))) as ->.
  { rewrite <- HQ, <- length_app, (app_assoc Q). rewrite <- (Nat.add_0_r (length (Q ++ _))), get16_app by lia. by rewrite drop_0. }
  obind. unfold copy_question. cbn [pack dptr left question qmatch modified pass_throughs].
  rewrite length_replicate, question_name by lia. obind. rewrite (proj2 (Z.ltb_ge _ 0)), Hipv6 by lia.
  pose proof join_cstring as Hc.
  replace (opkt + 12 + length (enc_name ls) + 4)%nat with (length (Q ++ enc_name ls ++ qt)) by (rewrite !length_app; lia).
  replace (Z.of_nat (length (enc_name ls)) + 4 + Z.of_nat (length R) - Z.of_nat (length (enc_name ls)) - 4) with (Z.of_nat (length R)) by lia.
  unfold matched. change (-1 =? -1) with true. rewrite andb_true_r. destruct isReq; cbn [negb andb]; [done|].
  destruct (uamdomains o) as [|d ds]; [done|]. cbn [length Nat.eqb negb]. rewrite Hc. obind. by destruct (existsb _ (d :: ds)).
Qed.

Hypothesis Hol12 : 12 + Z.of_nat (length (enc_name ls)) <= olen.

Lemma be_bytes_u32 x : be_bytes 4 (u32 x) = be_bytes 4 x.
Proof.
  apply be_val_inj; [by rewrite !length_be_bytes|apply is_bytes_be_bytes|apply is_bytes_be_bytes|].
  by rewrite !be_val_bytes4, u32_u32.
Qed.
(** One record: what it becomes, and what it adds to the garden. *)
Definition after_rr (qm : Z) (r : rr) : rr := if qm =? 1 then cap_rr (u32 (uamdomain_ttl o)) r else r.
Definition after_mod (qm : Z) (r : rr) (md : Z) : Z := if (qm =? 1) && (u32 (uamdomain_ttl o) <? rr_ttl r) then 1 else md.
Definition after_addrs (qm : Z) (r : rr) : list bytes := if qm =? 1 then rr_addrs r else [].

Lemma record_name M R reslen : 2 <= reslen ->
  dns_fullname (Q ++ enc_name ls ++ M ++ [0xC0; 0x0C] ++ R) (replicate PKT_IP_PLEN 0) (Z.of_nat PKT_IP_PLEN - 1)
    (length (Q ++ enc_name ls ++ M)) reslen opkt olen
    = Done (2, name_text ls 0 ++ replicate (PKT_IP_PLEN - length (name_text ls 0)) 0).
Proof.
  intros Hr. pose proof (length_enc_name ls).
  apply name_decoded; [|apply labels_nz|unfold PKT_IP_PLEN; lia|unfold PKT_IP_PLEN; lia].
  assert (Hat : forall i x, [0xC0; 0x0C] !! i = Some x ->
    (Q ++ enc_name ls ++ M ++ [0xC0; 0x0C] ++ R) !! (length (Q ++ enc_name ls ++ M) + i)%nat = Some x).
  { intros i x Hx. replace (Q ++ enc_name ls ++ M ++ [0xC0; 0x0C] ++ R) with ((Q ++ enc_name ls ++ M) ++ [0xC0; 0x0C] ++ R) by (by rewrite <- !app_assoc).
    rewrite lookup_app_r by lia. rewrite Nat.add_comm, Nat.add_sub, lookup_app_l by (by apply lookup_lt_Some in Hx). done. }
  apply (na_ptr _ _ _ 13 _ _ 0xC0 0x0C _ (Z.of_nat (length (enc_name ls))) (length (dotted ls))); try lia.
  - rewrite <- (Nat.add_0_r (length _)). by apply Hat.
  - rewrite <- Nat.add_1_r. by apply Hat.
  - change (Z.to_nat ((0xC0 - 192) * 256 + 0x0C)) with 12%nat. apply enc_name_at; [done|by rewrite HQ|lia|lia].
Qed.

Lemma copy_record_ok isReq M R r q qm md g left0 :
  rr_ok (dnsparanoia o) r -> left0 = Z.of_nat (length (enc_rr r)) + R ->  0 <= R ->
  Garden.wf MAX_PASS_THROUGHS g -> NoDup (Garden.active g) ->
  forall rest, exists g',
  dns_copy_res e o false opkt olen isReq
      (DnsState (Q ++ enc_name ls ++ M ++ enc_rr r ++ rest) (length (Q ++ enc_name ls ++ M)) left0 q qm md g)
    = Done (0, DnsState (Q ++ enc_name ls ++ M ++ enc_rr (after_rr qm r) ++ rest) (length (Q ++ enc_name ls ++ M ++ enc_rr r)) R
                        q qm (after_mod qm r md) g') /\
  Garden.wf MAX_PASS_THROUGHS g' /\ NoDup (Garden.active g') /\
  Garden.active g' = foldl (allow e) (Garden.active g) (after_addrs qm r).
Proof.
  intros (Ht & Httl & Hdl & H4 & required & Hreq & Hpar) -> HR Hw Hn rest. pose proof (length_enc_rr r) as Hlr.
  set (A := Q ++ enc_name ls ++ M). assert (HA : forall X, Q ++ enc_name ls ++ M ++ X = A ++ X) by (intros X; unfold A; by rewrite <- !app_assoc).
  unfold dns_copy_res. cbn [pack dptr left].
  assert (dns_fullname (Q ++ enc_name ls ++ M ++ enc_rr r ++ rest) (replicate PKT_IP_PLEN 0) (Z.of_nat PKT_IP_PLEN - 1)
    (length A) (Z.of_nat (length (enc_rr r)) + R) opkt olen = Done (2, name_text ls 0 ++ replicate (PKT_IP_PLEN - length (name_text ls 0)) 0)) as ->.
  { apply (record_name M (be_bytes 2 (rr_type r) ++ be_bytes 2 (rr_class r) ++ be_bytes 4 (rr_ttl r) ++ rr_tail r ++ rest)). lia. }
  obind. change (2 <? 0) with false. rewrite (proj2 (Z.ltb_ge _ 2)) by lia. cbn [orb].
  change (128 <? 2) with false. rewrite andb_false_r, (proj2 (Z.ltb_ge _ 4)) by lia. change (Z.to_nat 2) with 2%nat. rewrite !HA.
  rewrite get16_app by lia. obind. assert (be_val (take 2 (drop 2 (enc_rr r))) = rr_type r) as -> by (by apply be_val2).
  unfold copy_record. cbn [pack dptr left question qmatch modified pass_throughs].
  rewrite (proj2 (Z.ltb_ge _ 6)) by lia. set (B := A ++ rr_head r).
  assert (HB : length B = (length A + 2 + 4)%nat) by (unfold B, rr_head; rewrite !length_app, !length_be_bytes; cbn [length]; lia).
  assert (Hpk : forall r', rr_head r' = rr_head r -> rr_tail r' = rr_tail r ->
    A ++ enc_rr r' ++ rest = B ++ be_bytes 4 (rr_ttl r') ++ rr_tail r ++ rest).
  { intros r' Hh Htl. unfold B, enc_rr. rewrite Hh, Htl. by rewrite <- !app_assoc. }
  rewrite (Hpk r) by done. rewrite read_app by (rewrite ?length_be_bytes; done). obind.
  assert (get16 (B ++ be_bytes 4 (rr_ttl r) ++ rr_tail r ++ rest) (length A + 2 + 4 + 4) = Done (Z.of_nat (length (rr_data r)))) as ->.
  { rewrite <- HB, app_assoc. replace (length B + 4)%nat with (length (B ++ be_bytes 4 (rr_ttl r)) + 0)%nat by (rewrite length_app, length_be_bytes; lia).
    rewrite get16_app by (unfold rr_tail; rewrite length_app, length_be_bytes; lia). f_equal. apply be_val2. lia. }
  obind. rewrite be_val_bytes4, (u32_small (rr_ttl r)) by done.
  (* the time to live *)
  set (st1 := DnsState (A ++ enc_rr (after_rr qm r) ++ rest) (length A) (Z.of_nat (length (enc_rr r)) + R) q qm (after_mod qm r md) g).
  assert (Hst1 : (if (qm =? 1) && (u32 (uamdomain_ttl o) <? rr_ttl r)
    then b ← memcpy (B ++ be_bytes 4 (rr_ttl r) ++ rr_tail r ++ rest) (length A + 2 + 4) (be_bytes 4 (uamdomain_ttl o));
         Done (with_pack (DnsState (B ++ be_bytes 4 (rr_ttl r) ++ rr_tail r ++ rest) (length A) (Z.of_nat (length (enc_rr r)) + R) q qm md g) b 1)
    else Done (DnsState (B ++ be_bytes 4 (rr_ttl r) ++ rr_tail r ++ rest) (length A) (Z.of_nat (length (enc_rr r)) + R) q qm md g))
    = (Done st1 : result dns_state)).
  { unfold st1, after_mod, after_rr. rewrite Hpk by (by destruct (qm =? 1)).
    destruct (qm =? 1); cbn [andb]; [|done]. cbn [cap_rr rr_ttl].
    destruct (Z.ltb_spec (u32 (uamdomain_ttl o)) (rr_ttl r)) as [Hlt|Hge]; [|by rewrite Z.min_r by lia].
    rewrite memcpy_app by (rewrite ?length_be_bytes; done). obind. unfold with_pack. cbn [dptr left question qmatch pass_throughs]. rewrite Z.min_l by lia.
    by rewrite be_bytes_u32. }
  rewrite Hst1. obind. unfold st1. cbn [pack dptr left question qmatch modified pass_throughs].
  rewrite (proj2 (Z.ltb_ge _ (Z.of_nat (length (rr_data r))))), Hreq by lia.
  (* the addresses *)
  assert (Hg : exists g', (if (rr_type r =? 1) && (qm =? 1)
      then addr_loop e (Z.to_nat ((Z.of_nat (length (rr_data r)) + 3) / 4)) (A ++ enc_rr (after_rr qm r) ++ rest) (length A + 2 + 4 + 6) g
      else Done g) = Done g' /\
    Garden.wf MAX_PASS_THROUGHS g' /\ NoDup (Garden.active g') /\ Garden.active g' = foldl (allow e) (Garden.active g) (after_addrs qm r)).
  { unfold after_addrs, rr_addrs. destruct (qm =? 1) eqn:Hqm; rewrite ?andb_false_r; [|by exists g].
    rewrite andb_true_r. destruct (Z.eqb_spec (rr_type r) 1) as [H1|]; [|by exists g].
    destruct (H4 H1) as [k Hk]. unfold after_rr. rewrite Hqm, Hpk by done.
    set (ttl := rr_ttl _). replace (B ++ be_bytes 4 ttl ++ rr_tail r ++ rest)
      with ((B ++ be_bytes 4 ttl ++ be_bytes 2 (Z.of_nat (length (rr_data r)))) ++ rr_data r ++ rest) by (unfold rr_tail; by rewrite <- !app_assoc).
    replace (length A + 2 + 4 + 6)%nat with (length (B ++ be_bytes 4 ttl ++ be_bytes 2 (Z.of_nat (length (rr_data r)))))
      by (rewrite !length_app, !length_be_bytes, HB; lia).
    replace (Z.to_nat ((Z.of_nat (length (rr_data r)) + 3) / 4)) with k by (rewrite Hk; zdm). by apply addr_loop_ok. }
  destruct Hg as (g' & -> & Hw' & Hn' & Ha). obind. exists g'. split; [|done].
  assert (dnsparanoia o && negb required = false) as -> by (destruct (dnsparanoia o); [by rewrite Hpar|done]).
  do 3 f_equal; [rewrite length_app, Hlr; lia|lia].
Qed.

Lemma copyres_rrs isReq rest q qm rrs : Forall (rr_ok (dnsparanoia o)) rrs -> forall M md g,
  Garden.wf MAX_PASS_THROUGHS g -> NoDup (Garden.active g) ->
  exists g',
  copyres e o (length rrs) false opkt olen isReq
      (DnsState (Q ++ enc_name ls ++ M ++ enc_rrs rrs ++ rest) (length (Q ++ enc_name ls ++ M)) (Z.of_nat (length (enc_rrs rrs))) q qm md g)
    = Done (true, DnsState (Q ++ enc_name ls ++ M ++ enc_rrs (map (after_rr qm) rrs) ++ rest)
                           (length (Q ++ enc_name ls ++ M ++ enc_rrs rrs)) 0 q qm (foldl (fun md r => after_mod qm r md) md rrs) g') /\
  Garden.wf MAX_PASS_THROUGHS g' /\ NoDup (Garden.active g') /\
  Garden.active g' = foldl (allow e) (Garden.active g) (concat (map (after_addrs qm) rrs)).
Proof.
  induction 1 as [|r rrs Hr _ IH]; intros M md g Hw Hn; cbn [length copyres].
  - exists g. unfold enc_rrs. cbn [map concat foldl length app]. rewrite app_nil_r. done.
  - unfold enc_rrs. cbn [map concat foldl]. fold (enc_rrs rrs). fold (enc_rrs (map (after_rr qm) rrs)). rewrite <- !(app_assoc _ _ rest).
    cbn [left]. rewrite length_app, (proj2 (Z.eqb_neq _ 0)) by (rewrite length_enc_rr; lia).
    destruct (copy_record_ok isReq M (Z.of_nat (length (enc_rrs rrs))) r q qm md g _ Hr eq_refl ltac:(lia) Hw Hn (enc_rrs rrs ++ rest))
      as (g1 & H1 & Hw1 & Hn1 & Ha1).
    rewrite Nat2Z.inj_add, H1. obind. cbn [Z.eqb].
    destruct (IH (M ++ enc_rr (after_rr qm r)) (after_mod qm r md) g1 Hw1 Hn1) as (g2 & H2 & Hw2 & Hn2 & Ha2).
    exists g2. assert (Hl : length (enc_rr (after_rr qm r)) = length (enc_rr r)) by (by rewrite !length_enc_rr; unfold after_rr; destruct (qm =? 1)).
    split; [|split; [done|split; [done|by rewrite Ha2, foldl_app, <- Ha1]]].
    replace (length (Q ++ enc_name ls ++ M ++ enc_rr r)) with (length (Q ++ enc_name ls ++ M ++ enc_rr (after_rr qm r))) by (rewrite !length_app; lia).
    replace (length (Q ++ enc_name ls ++ M ++ enc_rr r ++ enc_rrs rrs)) with (length (Q ++ enc_name ls ++ (M ++ enc_rr (after_rr qm r)) ++ enc_rrs rrs))
      by (rewrite !length_app; lia).
    repeat rewrite <- app_assoc in H2. repeat rewrite <- app_assoc. exact H2.
Qed.
End Message.

(** ** Responses *)

Definition dns_head (id flags : bytes) (qd an : Z) : bytes := id ++ flags ++ be_bytes 2 qd ++ be_bytes 2 an ++ [0; 0; 0; 0].
Lemma dns_head_fields P id flags qd an r :
  length id = 2%nat -> length flags = 2%nat -> 0 <= qd < 65536 -> 0 <= an < 65536 ->
  let b := P ++ dns_head id flags qd an ++ r in
  get16 b (length P + 2) = Done (be_val flags) /\ get16 b (length P + 4) = Done qd /\ get16 b (length P + 6) = Done an /\
  get16 b (length P + 8) = Done 0 /\ get16 b (length P + 10) = Done 0.
Proof.
  intros Hid Hfl Hq Ha. destruct id as [|i0 [|i1 [|? ?]]], flags as [|f0 [|f1 [|? ?]]]; try done. cbv zeta.
  assert (Hl : length (dns_head [i0; i1] [f0; f1] qd an) = 12%nat) by (unfold dns_head; by rewrite !length_app, !length_be_bytes).
  rewrite !get16_app by (rewrite Hl; lia). split; [done|]. split; [f_equal; exact (be_val2 qd Hq)|]. split; [f_equal; exact (be_val2 an Ha)|]. done.
Qed.

Lemma is_bytes_rrs ttl rrs : is_bytes (enc_rrs rrs) -> is_bytes (enc_rrs (map (cap_rr ttl) rrs)).
Proof.
  induction rrs as [|r rrs IH]; [done|]. unfold enc_rrs in *. cbn [map concat]. intros H. apply Forall_app in H as [H1 H2].
  apply Forall_app. split; [|by apply IH]. unfold enc_rr in *. apply Forall_app in H1 as [H1 H3]. apply Forall_app in H3 as [_ H3].
  apply Forall_app; split; [done|]. apply Forall_app; split; [apply is_bytes_be_bytes|done].
Qed.
Lemma length_cap_rrs ttl rrs : length (enc_rrs (map (cap_rr ttl) rrs)) = length (enc_rrs rrs).
Proof. induction rrs as [|r rrs IH]; [done|]. unfold enc_rrs in *. cbn [map concat]. by rewrite !length_app, IH, length_cap. Qed.

(** The packet up to the end of its DNS header. *)
Definition upto (eth : bytes) (d : datagram) (hdr : bytes) : bytes := eth ++ dg_ip d ++ dg_s1 d ++ dg_sc d ++ hdr.
Lemma length_upto eth d hdr : dg_ok PKT_IP_PROTO_UDP d -> length (upto eth d hdr) = (length eth + 28 + length hdr)%nat.
Proof.
  intros Hd. pose proof (ok_field _ _ Hd) as Hs1. injection Hs1 as Hs1. unfold upto, dg_ip.
  rewrite !length_app, (ok_hd _ _ Hd), (ok_hc _ _ Hd), (ok_addrs _ _ Hd), (ok_sc _ _ Hd), <- Hs1. lia.
Qed.
Lemma length_dns_head id flags qd an : length id = 2%nat -> length flags = 2%nat -> length (dns_head id flags qd an) = 12%nat.
Proof. intros Hi Hf. unfold dns_head. by rewrite !length_app, !length_be_bytes, Hi, Hf. Qed.
(** The handler on a packet whose lengths are right. *)
Lemma dhcp_dns_eq e o s g eth d post id flags qd an body isReq :
  eth_ok eth -> dg_ok PKT_IP_PROTO_UDP d -> dg_s2 d = dns_head id flags qd an ++ body ->
  length id = 2%nat -> length flags = 2%nat -> 0 <= qd < 65536 -> 0 <= an < 65536 -> Z.testbit (be_val flags) 15 = negb isReq ->
  let Q := upto eth d (dns_head id flags qd an) in
  let dns := (length eth + 28)%nat in
  let plen := length (eth ++ dg_bytes d) in
  let olen := Z.of_nat (length body) in
  eth ++ dg_bytes d ++ post = Q ++ body ++ post /\ length Q = (dns + 12)%nat /\ plen = (dns + 12 + length body)%nat /\
  dhcp_dns e o s g (eth ++ dg_bytes d ++ post) plen isReq =
    ('(ok, an_mark, st) ← dns_parse e o qd an 0 0 dns olen isReq (DnsState (Q ++ body ++ post) (dns + 12) olen (replicate 512 0) (-1) (-1) g);
     dns_conclude e o s plen dns olen isReq (be_val flags) qd an 0 0 ok an_mark st).
Proof.
  intros He Hd Hpl Hid Hfl Hqd Han Hbit Q dns plen olen. pose proof (length_dns_head id flags qd an Hid Hfl) as Hh.
  assert (HQ : length Q = (dns + 12)%nat) by (unfold Q; rewrite length_upto, Hh by done; done).
  assert (Hb : eth ++ dg_bytes d ++ post = Q ++ body ++ post).
  { rewrite (dg_split eth d post _ _ Hpl). unfold Q, upto. by repeat rewrite <- app_assoc. }
  pose proof (ok_field _ _ Hd) as Hs1. injection Hs1 as Hs1.
  assert (Hplen : plen = (dns + 12 + length body)%nat).
  { unfold plen. rewrite length_app, (dg_length _ _ Hd). unfold dg_seg.
    rewrite !length_app, <- Hs1, (ok_sc _ _ Hd), Hpl, length_app, Hh. unfold dns. lia. }
  split; [done|]. split; [done|]. split; [done|]. unfold dhcp_dns. rewrite sizeofudp_ok by done. obind. fold dns.
  rewrite (proj2 (Nat.ltb_ge plen _)) by (unfold DHCP_DNS_HLEN; lia).
  replace (Z.of_nat plen - Z.of_nat DHCP_DNS_HLEN - Z.of_nat dns) with olen by (unfold DHCP_DNS_HLEN, olen; lia).
  set (P := eth ++ dg_ip d ++ dg_s1 d ++ dg_sc d).
  assert (HP : length P = dns) by (pose proof (length_upto eth d [] Hd) as Hl; unfold upto in Hl; rewrite !app_nil_r in Hl; cbn [length] in Hl; unfold P, dns; lia).
  assert (HbP : Q ++ body ++ post = P ++ dns_head id flags qd an ++ body ++ post) by (unfold Q, P, upto; by repeat rewrite <- app_assoc).
  destruct (dns_head_fields P id flags qd an (body ++ post) Hid Hfl Hqd Han) as (F1 & F2 & F3 & F4 & F5).
  rewrite <- HbP, HP in F1, F2, F3, F4, F5. rewrite Hb, F1, F2, F3, F4, F5. obind.
  rewrite Hbit, bool_decide_false by (by destruct isReq). done.
Qed.

(** A response with one question and answers that point to it. *)
Record response := Response { r_eth : bytes; r_dg : datagram; r_post : bytes; r_id : bytes; r_flags : bytes; r_name : list bytes; r_qt : bytes; r_rrs : list rr }.
Record response_ok (o : options) (r : response) : Prop := {
  ro_eth : eth_ok (r_eth r);
  ro_dg : dg_ok PKT_IP_PROTO_UDP (r_dg r);
  ro_payload : dg_s2 (r_dg r) = dns_head (r_id r) (r_flags r) 1 (Z.of_nat (length (r_rrs r))) ++ enc_name (r_name r) ++ r_qt r ++ enc_rrs (r_rrs r);
  ro_id : length (r_id r) = 2%nat; ro_flags : length (r_flags r) = 2%nat; ro_qt : length (r_qt r) = 4%nat;
  ro_answer : Z.testbit (be_val (r_flags r)) 15 = true;
  ro_name : Forall label_ok (r_name r) /\ (length (dotted (r_name r)) < 512)%nat;
  ro_paranoid : dnsparanoia o = true -> (length (enc_name (r_name r)) <= 128)%nat;
  ro_rrs : Forall (rr_ok (dnsparanoia o)) (r_rrs r) /\ r_rrs r <> []
}.
(** Whether the question is in a domain of the configuration, and what that makes of the answers. *)
Definition opened (o : options) (r : response) : bool := existsb (uam_match (join (r_name r))) (uamdomains o).
Definition answers (o : options) (r : response) : list rr :=
  if opened o r then map (cap_rr (u32 (uamdomain_ttl o))) (r_rrs r) else r_rrs r.
Definition addresses (o : options) (r : response) : list bytes := if opened o r then concat (map rr_addrs (r_rrs r)) else [].

Lemma foldl_mod o qm rrs md : foldl (fun md r => after_mod o qm r md) md rrs =
  if (qm =? 1) && existsb (fun r => u32 (uamdomain_ttl o) <? rr_ttl r) rrs then 1 else md.
Proof.
  revert md. induction rrs as [|r rrs IH]; intros md; cbn [foldl existsb]; [by rewrite andb_false_r|].
  rewrite IH. unfold after_mod. destruct (qm =? 1); cbn [andb]; [|done].
  destruct (u32 _ <? _), (existsb _ rrs); done.
Qed.
Lemma after_answers o r qm : qm = (if opened o r then 1 else -1) ->
  map (after_rr o qm) (r_rrs r) = answers o r /\ concat (map (after_addrs qm) (r_rrs r)) = addresses o r.
Proof.
  intros ->. unfold answers, addresses. destruct (opened o r); cbn [Z.eqb].
  - split; [by apply map_ext|f_equal; by apply map_ext].
  - split; [apply map_id|]. unfold after_addrs. cbn. by induction (r_rrs r).
Qed.
Lemma answers_same o r : existsb (fun r => u32 (uamdomain_ttl o) <? rr_ttl r) (r_rrs r) = false -> answers o r = r_rrs r.
Proof.
  intros H. unfold answers. destruct (opened o r); [|done]. induction (r_rrs r) as [|x l IH]; [done|]. cbn [existsb map] in *.
  apply orb_false_iff in H as [H1 H2]. apply Z.ltb_ge in H1. rewrite (IH H2). f_equal. destruct x as [t c tt dd]. unfold cap_rr. cbn in *. by rewrite Z.min_r.
Qed.

Lemma enc_rrs_count rrs : (12 * length rrs <= length (enc_rrs rrs))%nat.
Proof. induction rrs as [|x l IH]; [done|]. unfold enc_rrs in *. cbn [map concat length]. rewrite length_app, length_enc_rr. lia. Qed.
Lemma answers_dg_ok o r : dg_ok PKT_IP_PROTO_UDP (r_dg r) ->
  dg_s2 (r_dg r) = dns_head (r_id r) (r_flags r) 1 (Z.of_nat (length (r_rrs r))) ++ enc_name (r_name r) ++ r_qt r ++ enc_rrs (r_rrs r) ->
  dg_ok PKT_IP_PROTO_UDP
    (with_s2 (r_dg r) (dns_head (r_id r) (r_flags r) 1 (Z.of_nat (length (r_rrs r))) ++ enc_name (r_name r) ++ r_qt r ++ enc_rrs (answers o r))).
Proof.
  intros Hd Hpl. apply dg_ok_s2; [done| |].
  - rewrite Hpl, !length_app. unfold answers. destruct (opened o r); [|done]. by rewrite length_cap_rrs.
  - pose proof (ok_bytes _ _ Hd) as (_ & _ & _ & B2). rewrite Hpl in B2. unfold is_bytes in *. rewrite !Forall_app in B2. rewrite !Forall_app.
    destruct B2 as (G1 & G2 & G3 & G4). repeat split; try done. unfold answers. destruct (opened o r); [|done]. by apply is_bytes_rrs.
Qed.

Lemma response_run e o s g r :
  response_ok o r -> ipv6 o = false -> Garden.wf MAX_PASS_THROUGHS g -> NoDup (Garden.active g) ->
  let plen := length (r_eth r ++ dg_bytes (r_dg r)) in
  exists g' d', Garden.wf MAX_PASS_THROUGHS g' /\ NoDup (Garden.active g') /\
    Garden.active g' = foldl (allow e) (Garden.active g) (addresses o r) /\
    dhcp_dns e o s g (r_eth r ++ dg_bytes (r_dg r) ++ r_post r) plen false
      = Done (DnsOut 1 (r_eth r ++ dg_bytes d' ++ r_post r) plen g' None) /\
    (exists hc sc, length hc = 2%nat /\ length sc = 2%nat /\
       d' = set_checks (with_s2 (r_dg r) (dns_head (r_id r) (r_flags r) 1 (Z.of_nat (length (r_rrs r))) ++ enc_name (r_name r) ++ r_qt r ++ enc_rrs (answers o r))) hc sc) /\
    (dg_valid PKT_IP_PROTO_UDP d' \/ d' = r_dg r).
Proof.
  intros [He Hd Hpl Hid Hfl Hqt Hans (Hls & Hlen) Hpar (Hrr & Hne)] Hip Hw Hn plen. destruct r as [eth d post id flags ls qt rrs].
  cbn [r_eth r_dg r_post r_id r_flags r_name r_qt r_rrs] in *. pose proof (enc_rrs_count rrs) as Hcount.
  pose proof (ok_max _ _ Hd) as Hmax. unfold PKT_BUFFER, dg_len, dg_seg in Hmax. rewrite Hpl, !length_app in Hmax.
  assert (Hrl : (12 <= length (enc_rrs rrs))%nat) by (destruct rrs; [done|cbn [length] in Hcount; lia]).
  set (an := Z.of_nat (length rrs)) in *. set (hdr := dns_head id flags 1 an) in *. set (body := enc_name ls ++ qt ++ enc_rrs rrs).
  destruct (dhcp_dns_eq e o s g eth d post id flags 1 an body false) as (Hb & HQ & _ & Hrun); [done..|lia|unfold an; lia|done|].
  fold plen in Hrun. rewrite Hrun. clear Hrun. set (dns := (length eth + 28)%nat) in *. fold hdr in Hb, HQ |- *. set (Q := upto eth d hdr) in *. set (olen := Z.of_nat (length body)).
  assert (Holen : olen = Z.of_nat (length (enc_name ls)) + 4 + Z.of_nat (length (enc_rrs rrs))) by (unfold olen, body; rewrite !length_app, Hqt; lia).
  assert (Hol : 12 + Z.of_nat (length (enc_name ls)) <= olen < 2 ^ 32) by (change (2 ^ 32) with 4294967296; lia).
  unfold dns_parse. change (Z.to_nat 1) with 1%nat. change (Z.to_nat 0) with 0%nat. unfold an. rewrite Nat2Z.id. fold an.
  cbn [copyres left]. rewrite (proj2 (Z.eqb_neq olen 0)) by lia.
  replace (Q ++ body ++ post) with (Q ++ enc_name ls ++ qt ++ enc_rrs rrs ++ post) by (unfold body; by repeat rewrite <- app_assoc).
  rewrite (copy_question_ok e o Q dns olen ls HQ Hls Hlen Hip ltac:(lia) false qt (enc_rrs rrs) post olen g Hqt Holen ltac:(lia) Hpar).
  obind. cbn [Z.eqb dptr]. obind. cbn [dptr]. set (qm := matched o ls false). set (text := join ls ++ _).
  destruct (copyres_rrs e o Q dns olen ls HQ Hls Hlen ltac:(lia) ltac:(lia) false post text qm rrs Hrr qt (-1) g Hw Hn)
    as (g' & -> & Hw' & Hn' & Ha'). obind. cbv beta iota. unfold dns_conclude. cbn [negb left Z.eqb pack modified pass_throughs andb].
  rewrite Hip. cbn [andb]. obind. set (r := Response eth d post id flags ls qt rrs).
  assert (Hqm : qm = if opened o r then 1 else -1) by done.
  destruct (after_answers o r qm Hqm) as [E1 E2]. cbn [r r_rrs] in E1, E2. rewrite E2 in Ha'. rewrite E1, foldl_mod. clear E1 E2.
  set (d1 := with_s2 d (hdr ++ enc_name ls ++ qt ++ enc_rrs (answers o r))).
  assert (Hb1 : Q ++ enc_name ls ++ qt ++ enc_rrs (answers o r) ++ post = eth ++ dg_bytes d1 ++ post).
  { unfold d1. rewrite (dg_put eth d post hdr). unfold Q, upto. by repeat rewrite <- app_assoc. }
  rewrite Hb1. destruct ((qm =? 1) && _) eqn:Hc.
  - change (0 <? 1) with true. cbv iota. rewrite sizeofeth_ok by done. obind.
    destruct (chksum_dg e _ eth d1 post (answers_dg_ok o r Hd Hpl)) as (hc & sc & H1 & H2 & H3 & H4). rewrite H4. obind.
    exists g', (set_checks d1 hc sc). do 4 (split; [done|]). split; [by exists hc, sc|by left].
  - change (0 <? -1) with false. cbv iota. obind. exists g', d.
    assert (Hsame : answers o r = rrs).
    { apply andb_false_iff in Hc as [Hc|Hc]; [|by apply (answers_same o r)]. unfold answers. destruct (opened o r); [|done]. by rewrite Hqm in Hc. }
    assert (Hd0 : d1 = d) by (unfold d1; rewrite Hsame, <- Hpl; by destruct d).
    rewrite Hd0. do 4 (split; [done|]). split; [|by right].
    exists (dg_hc d), (dg_sc d). split; [apply (ok_hc _ _ Hd)|]. split; [apply (ok_sc _ _ Hd)|]. by destruct d.
Qed.


(** ** What becomes reachable *)

Definition allowed (e : endian) (a : bytes) : pass_through := PassThrough (word_val e a) 0xffffffff 0 0.
Lemma allow_keeps e l a l1 sfx : l = l1 ++ sfx -> Z.of_nat (length sfx) < MAX_PASS_THROUGHS ->
  exists l1' sfx', allow e l a = l1' ++ sfx' /\ (length sfx' <= S (length sfx))%nat /\ allowed e a ∈ sfx' /\ forall x, x ∈ sfx -> x ∈ sfx'.
Proof.
  intros -> Hs. unfold allow, Garden.change_spec, Garden.add_spec. fold (allowed e a).
  assert (Hin : forall sf, allowed e a ∈ sf ++ [allowed e a]) by (intros sf; apply elem_of_app; right; by apply list_elem_of_singleton).
  destruct (decide (allowed e a ∈ l1 ++ sfx)) as [Ha|Ha]; cbn [default].
  - exists (filter (fun x => x <> allowed e a) l1), (filter (fun x => x <> allowed e a) sfx ++ [allowed e a]).
    split; [by rewrite filter_app, <- app_assoc|]. split; [rewrite length_app; pose proof (length_filter (fun x => x <> allowed e a) sfx); cbn; lia|].
    split; [done|]. intros x Hx. apply elem_of_app. destruct (decide (x = allowed e a)) as [->|Hne]; [right; by apply list_elem_of_singleton|left].
    by apply list_elem_of_filter.
  - assert (Hk : forall x, x ∈ sfx -> x ∈ sfx ++ [allowed e a]) by (intros x Hx; apply elem_of_app; by left).
    destruct (Z.eqb_spec (Z.of_nat (length (l1 ++ sfx))) MAX_PASS_THROUGHS) as [Hf|Hf]; cbn [default].
    + destruct l1 as [|y l1]; [cbn in Hf; lia|]. exists l1, (sfx ++ [allowed e a]). cbn [tail app].
      split; [by rewrite <- app_assoc|]. split; [rewrite length_app; cbn; lia|done].
    + exists l1, (sfx ++ [allowed e a]). split; [by rewrite <- app_assoc|]. split; [rewrite length_app; cbn; lia|done].
Qed.
Lemma allow_all e l as_ : forall l1 sfx, l = l1 ++ sfx -> Z.of_nat (length sfx + length as_) <= MAX_PASS_THROUGHS ->
  (forall a, a ∈ as_ -> allowed e a ∈ foldl (allow e) l as_) /\ (forall x, x ∈ sfx -> x ∈ foldl (allow e) l as_).
Proof.
  revert l. induction as_ as [|a as_ IH]; intros l l1 sfx Hl Hn; cbn [foldl].
  - split; [intros a Ha; by apply elem_of_nil in Ha|]. intros x Hx. rewrite Hl. apply elem_of_app. by right.
  - cbn [length] in Hn. destruct (allow_keeps e l a l1 sfx Hl ltac:(lia)) as (l1' & sfx' & H1 & H2 & H3 & H4).
    destruct (IH _ l1' sfx' H1 ltac:(lia)) as [G1 G2]. split; [|auto].
    intros b Hb. apply elem_of_cons in Hb as [->|Hb]; auto.
Qed.

Lemma u32_ones x : is_u32 x -> x &ᵤ 0xffffffff = x.
Proof. intros Hx. change 0xffffffff with (Z.ones 32). rewrite Z.land_ones by lia. by apply u32_small. Qed.
Lemma word_val_u32 e a : is_bytes a -> length a = 4%nat -> is_u32 (word_val e a).
Proof.
  intros Ha Hl. assert (forall l, is_bytes l -> length l = 4%nat -> is_u32 (be_val l)) as H.
  { intros l Hb Hl'. pose proof (be_val_range l Hb) as Hr. rewrite Hl' in Hr. apply Hr. }
  destruct e; unfold word_val; [apply H; [by apply Forall_reverse|by rewrite length_reverse]|by apply H].
Qed.
Lemma allowed_matches e a ipph : is_bytes a -> length a = 4%nat -> Garden.daddr ipph = word_val e a ->
  Garden.pt_matches e (allowed e a) ipph true = true.
Proof.
  intros Ha Hl Hd. unfold Garden.pt_matches, allowed. cbn [Garden.proto Garden.host Garden.mask Garden.port].
  rewrite Hd, u32_ones by (by apply word_val_u32). change (0 =? 0) with true. by rewrite Z.eqb_refl, orb_true_r.
Qed.
Lemma chunks4_ok l : is_bytes l -> Forall (fun a => is_bytes a /\ length a = 4%nat) (chunks4 l).
Proof.
  remember (length l) as n eqn:Hn. revert l Hn. induction (lt_wf n) as [n _ IH]; intros l -> Hl.
  destruct l as [|a [|b [|c [|d l]]]]; cbn [chunks4]; try constructor.
  - do 4 (inversion_clear Hl as [|? ? ? Hl']; rename Hl' into Hl). split; [repeat (constructor; [done|]); constructor|done].
  - eapply IH; [|reflexivity|by do 4 apply Forall_inv_tail in Hl]. cbn. lia.
Qed.

(** C23: without IPv6: take a response as name servers send it to a plain question, that
    is with one question (of up to 128 bytes in paranoid mode), one or more answers that
    point to its name, each of a type the code knows (in paranoid mode, requires; a
    record of another type makes it drop the response: see [edns_dropped]), and nothing
    behind them. When the question is in a domain of the configuration and the A records
    have up to 128 addresses in all, then afterwards the hotspot lets packets to every
    one of them through. *)
Theorem dns_response_opens e o s g r static n ipph a :
  response_ok o r -> ipv6 o = false -> Garden.wf MAX_PASS_THROUGHS g -> NoDup (Garden.active g) -> Garden.wf n static ->
  existsb (uam_match (join (r_name r))) (uamdomains o) = true ->
  (length (concat (map rr_addrs (r_rrs r))) <= 128)%nat -> a ∈ concat (map rr_addrs (r_rrs r)) -> Garden.daddr ipph = word_val e a ->
  exists out, dhcp_dns e o s g (r_eth r ++ dg_bytes (r_dg r) ++ r_post r) (length (r_eth r ++ dg_bytes (r_dg r))) false = Done out /\
    ret out = 1 /\ Garden.dhcp_garden_check e static (out_garden out) ipph true = Done true.
Proof.
  intros Hr Hip Hw Hn Hst Hop Hlen Ha Hda.
  destruct (response_run e o s g r Hr Hip Hw Hn) as (g' & d' & Hw' & Hn' & Hact & Hrun & _ & _).
  eexists. split; [exact Hrun|]. split; [done|]. cbn [out_garden].
  rewrite (Garden.garden_check_active e n MAX_PASS_THROUGHS) by done. f_equal. rewrite existsb_app. apply orb_true_iff. right.
  apply existsb_exists. exists (allowed e a).
  assert (Hb : is_bytes a /\ length a = 4%nat).
  { apply list_elem_of_In, in_concat in Ha as (l & Hl & Hal). apply in_map_iff in Hl as (x & <- & Hx).
    unfold rr_addrs in Hal. destruct (rr_type x =? 1); [|done].
    assert (Hxb : is_bytes (rr_data x)).
    { pose proof (ok_bytes _ _ (ro_dg _ _ Hr)) as (_ & _ & _ & B2). rewrite (ro_payload _ _ Hr) in B2. unfold is_bytes in *.
      rewrite !Forall_app in B2. destruct B2 as (_ & _ & _ & B2). apply in_split in Hx as (l1 & l2 & Hx). rewrite Hx in B2.
      unfold enc_rrs in B2. rewrite map_app, concat_app in B2. cbn [map concat] in B2. unfold enc_rr, rr_tail in B2.
      rewrite !Forall_app in B2. tauto. }
    pose proof (chunks4_ok _ Hxb) as Hc. rewrite Forall_forall in Hc. apply Hc. by apply list_elem_of_In. }
  split; [|by apply allowed_matches; tauto].
  apply list_elem_of_In. rewrite Hact. unfold addresses, opened. rewrite Hop.
  refine (proj1 (allow_all e (Garden.active g) (concat (map rr_addrs (r_rrs r))) (Garden.active g) [] _ _) a Ha).
  - by rewrite app_nil_r.
  - cbn [length]. unfold MAX_PASS_THROUGHS. lia.
Qed.

(** An A record 0.0.0.0 becomes an entry that every packet matches. *)
Lemma zero_address_opens_all e ipph dst : Garden.pt_matches e (allowed e [0; 0; 0; 0]) ipph dst = true.
Proof.
  unfold allowed. assert (word_val e [0; 0; 0; 0] = 0) as -> by (destruct e; reflexivity). reflexivity.
Qed.

(** ** Answers to local names *)

Ltac explode l := repeat (destruct l as [|? l]; [discriminate|]); destruct l; [|discriminate].

Definition swap_eth (eth : bytes) : bytes := take 6 (drop 6 eth) ++ take 6 eth ++ drop 12 eth.
(** The datagram the other way round, with other contents. *)
Definition local_dg (d : datagram) (payload : bytes) : datagram :=
  let udp_len := Z.of_nat (length payload + 8) in
  mk_dg ([0x45; 0] ++ be_bytes 2 (udp_len + 20) ++ [0; 0; 0; 0; 0x10; 0x11]) [0; 0]
        (drop 4 (dg_addrs d) ++ take 4 (dg_addrs d))
        (take 2 (drop 2 (dg_s1 d)) ++ take 2 (dg_s1 d) ++ be_bytes 2 udp_len) (dg_sc d) payload.

Lemma answer_headers_ok eth d post T st n :
  eth_ok eth -> length (dg_hd d) = 10%nat -> length (dg_hc d) = 2%nat -> length (dg_addrs d) = 8%nat ->
  length (dg_s1 d) = 6%nat -> length (dg_sc d) = 2%nat -> n = (length T + 8)%nat ->
  answer_headers (eth ++ dg_bytes d ++ post) (length eth) (length eth + 20)
    (eth ++ dg_ip d ++ dg_s1 d ++ dg_sc d ++ T ++ st) (length eth) (length eth + 20) n
    = Done (swap_eth eth ++ dg_bytes (local_dg d T) ++ st).
Proof.
  intros He Lhd Lhc La L1 Lsc ->. destruct d as [hd hc addrs s1 sc s2]. unfold dg_bytes, dg_ip, dg_seg, local_dg.
  cbn [dg_hd dg_hc dg_addrs dg_s1 dg_sc dg_s2] in *.
  assert (Hl : length eth = 14%nat \/ length eth = 18%nat) by (destruct He as [[? _]|[? _]]; [by left|by right]). clear He.
  explode hd. explode hc. explode addrs. explode s1. explode sc.
  set (u1 := be_bytes 2 (Z.of_nat (length T + 8))). set (u2 := be_bytes 2 (Z.of_nat (length T + 8) + 20)).
  unfold answer_headers, put16. change PKT_IP_HLEN with 20. fold u1 u2.
  assert (H1 : exists a b, u1 = [a; b]) by (by do 2 eexists). assert (H2 : exists a b, u2 = [a; b]) by (by do 2 eexists).
  clearbody u1 u2. destruct H1 as (a1 & b1 & ->), H2 as (a2 & b2 & ->).
  destruct Hl as [Hl|Hl]; explode eth; clear; vm_compute; reflexivity.
Qed.

Definition local_head (id : bytes) : bytes := id ++ [0x80; 0; 0; 1; 0; 1; 0; 0; 0; 0].
Lemma answer_dns_header_ok P id h R S :
  length P = 42%nat \/ length P = 46%nat -> length id = 2%nat -> length h = 10%nat ->
  answer_dns_header (P ++ (id ++ h) ++ R) (length P) (P ++ (id ++ h) ++ S) (length P) = Done (P ++ local_head id ++ S).
Proof.
  intros HP Hid Hh. explode h. explode id. destruct HP as [HP|HP]; explode P; clear; vm_compute; reflexivity.
Qed.

Lemma copy_name_ok A s R fuel query :
  0 ∉ s -> (length query + length s < 256)%nat -> (length s < fuel)%nat ->
  copy_name fuel (A ++ s ++ 0 :: R) (length A) query = Done ((length (A ++ s) + 1)%nat, query ++ s ++ [0]).
Proof.
  revert A fuel query. induction s as [|x s IH]; intros A fuel query Hs Hq Hf; (destruct fuel as [|fuel]; [cbn in Hf; lia|]); cbn [copy_name length] in *.
  - rewrite (proj2 (Nat.ltb_lt _ 256)) by lia. rewrite (byte_at_ok _ _ 0) by (rewrite lookup_app_r, Nat.sub_diag by lia; done). obind.
    change (0 =? 0) with true. cbv iota. rewrite app_nil_r. do 2 f_equal. lia.
  - apply not_elem_of_cons in Hs as [Hx Hs]. rewrite (proj2 (Nat.ltb_lt _ 256)) by lia.
    rewrite (byte_at_ok _ _ x) by (rewrite lookup_app_r, Nat.sub_diag by lia; done). obind.
    rewrite (proj2 (Z.eqb_neq x 0)) by done.
    replace (A ++ (x :: s) ++ 0 :: R) with ((A ++ [x]) ++ s ++ 0 :: R) by (by rewrite <- app_assoc).
    replace (S (length A)) with (length (A ++ [x])) by (rewrite length_app; cbn; lia).
    rewrite IH by (rewrite ?length_app; cbn; done || lia). by rewrite <- !app_assoc.
Qed.
Lemma copy_class_ok b p query c : (length query + length c <= 256)%nat -> forall A R, b = A ++ c ++ R -> p = length A ->
  copy_class (length c) b p query = Done (query ++ c).
Proof.
  revert p query. induction c as [|x c IH]; intros p query Hq A R -> ->; cbn [copy_class length] in *; [by rewrite app_nil_r|].
  rewrite (proj2 (Nat.ltb_lt _ 256)) by lia. rewrite (byte_at_ok _ _ x) by (rewrite lookup_app_r, Nat.sub_diag by lia; done). obind.
  rewrite (IH (S (length A)) (query ++ [x])) with (A := A ++ [x]) (R := R);
    [by rewrite <- app_assoc|rewrite length_app; cbn; lia|by rewrite <- app_assoc|rewrite length_app; cbn; lia].
Qed.

(** The labels of an encoded name hold no NUL. *)
Lemma enc_name_body ls : Forall label_ok ls -> exists s, enc_name ls = s ++ [0] /\ 0 ∉ s.
Proof.
  intros Hls. exists (concat (map (fun s => Z.of_nat (length s) :: s) ls)). split; [done|].
  induction Hls as [|s ls [Hs Hz] _ IH]; cbn; [apply not_elem_of_nil|].
  apply not_elem_of_cons. split; [lia|]. by rewrite not_elem_of_app.
Qed.
Definition local_rr (reply : bytes) : bytes := [0xc0; 0x0c; 0x00; 0x01; 0x00; 0x01; 0x00; 0x00; 0x01; 0x2c; 0x00; 0x04] ++ reply.
Lemma local_query_ok Q dns ls qt R reply :
  length Q = (dns + 12)%nat -> Forall label_ok ls -> (length (enc_name ls) <= 236)%nat -> length qt = 4%nat -> length reply = 4%nat ->
  local_query (Q ++ enc_name ls ++ qt ++ R) dns reply = Done (enc_name ls ++ qt ++ local_rr reply).
Proof.
  intros HQ Hls Hlen Hqt Hr. destruct (enc_name_body ls Hls) as (s & He & Hs). rewrite He in *. rewrite length_app in Hlen. cbn in Hlen.
  unfold local_query. rewrite <- HQ.
  replace (Q ++ (s ++ [0]) ++ qt ++ R) with (Q ++ s ++ 0 :: qt ++ R) by (by rewrite <- app_assoc).
  rewrite copy_name_ok by (cbn [length]; done || lia). obind. cbn [app].
  rewrite <- Hqt at 1. rewrite (copy_class_ok _ _ _ qt) with (A := Q ++ s ++ [0]) (R := R);
    [|rewrite length_app; cbn; lia|by rewrite <- !app_assoc|rewrite !length_app; cbn; lia].
  obind. unfold put_query. rewrite !length_app, Hqt. cbn [length]. rewrite (proj2 (Nat.leb_le _ 256)) by lia. obind.
  rewrite !length_app, Hqt, Hr. cbn [length]. rewrite (proj2 (Nat.leb_le _ 256)) by lia. unfold local_rr. by rewrite <- !app_assoc.
Qed.

(** A request for one name, as resolvers send it. *)
Record request := Request { q_eth : bytes; q_dg : datagram; q_post : bytes; q_id : bytes; q_name : list bytes; q_qt : bytes }.
Record request_ok (o : options) (r : request) : Prop := {
  qo_eth : eth_ok (q_eth r);
  qo_dg : dg_ok PKT_IP_PROTO_UDP (q_dg r);
  qo_payload : dg_s2 (q_dg r) = dns_head (q_id r) [1; 0] 1 0 ++ enc_name (q_name r) ++ q_qt r;
  qo_id : length (q_id r) = 2%nat; qo_qt : length (q_qt r) = 4%nat;
  qo_name : Forall label_ok (q_name r) /\ (length (enc_name (q_name r)) <= 236)%nat;
  qo_paranoid : dnsparanoia o = true -> (length (enc_name (q_name r)) <= 128)%nat
}.

Lemma swap_eth_ok eth : eth_ok eth -> eth_ok (swap_eth eth) /\ length (swap_eth eth) = length eth.
Proof.
  unfold eth_ok, swap_eth. intros He. assert (14 <= length eth)%nat by (unfold PKT_ETH_HLEN in He; lia).
  assert (Hl : length (take 6 (drop 6 eth) ++ take 6 eth ++ drop 12 eth) = length eth) by (rewrite !length_app, !length_take, !length_drop; lia).
  split; [|done]. rewrite Hl. rewrite app_assoc, drop_app_length' by (rewrite length_app, !length_take, length_drop; lia). done.
Qed.
Lemma local_dg_ok d payload :
  dg_ok PKT_IP_PROTO_UDP d -> is_bytes payload -> Z.of_nat (length payload) <= 4000 -> dg_ok PKT_IP_PROTO_UDP (local_dg d payload).
Proof.
  intros Hd Hb Hl. pose proof (ok_bytes _ _ Hd) as (_ & B2 & B3 & _). pose proof (ok_field _ _ Hd) as Hs1. injection Hs1 as Hs1.
  pose proof (ok_addrs _ _ Hd) as La. pose proof (ok_sc _ _ Hd) as Lsc. destruct d as [hd hc addrs s1 sc s2]. cbn [dg_addrs dg_s1 dg_sc] in *.
  assert (Hseg : dg_len (local_dg (mk_dg hd hc addrs s1 sc s2) payload) = Z.of_nat (length payload + 8)).
  { unfold dg_len, dg_seg, local_dg. cbn [dg_s1 dg_sc dg_s2]. rewrite !length_app, !length_take, length_drop, length_be_bytes, <- Hs1. cbn. lia. }
  split; rewrite ?Hseg; unfold local_dg; cbn [dg_hd dg_hc dg_addrs dg_s1 dg_sc dg_s2]; try done.
  - change (be_val (be_bytes 2 (Z.of_nat (length payload + 8) + 20)) = 20 + Z.of_nat (length payload + 8)). rewrite be_val2; lia.
  - unfold PKT_BUFFER. lia.
  - rewrite !length_app, length_take, length_drop. lia.
  - rewrite !length_app, !length_take, length_drop, length_be_bytes, <- Hs1. done.
  - intros _. explode s1. change (be_val (be_bytes 2 (Z.of_nat (length payload + 8))) = Z.of_nat (length payload + 8)). rewrite be_val2; lia.
  - unfold is_bytes in *. split; [|split; [|split; [|done]]].
    + apply Forall_app; split; [by repeat constructor|]. apply Forall_app; split; [apply is_bytes_be_bytes|by repeat constructor].
    + apply Forall_app; split; [by apply Forall_drop|by apply Forall_take].
    + apply Forall_app; split; [by apply Forall_take, Forall_drop|]. apply Forall_app; split; [by apply Forall_take|apply is_bytes_be_bytes].
Qed.

Definition local_payload (r : request) (reply : bytes) : bytes :=
  local_head (q_id r) ++ enc_name (q_name r) ++ q_qt r ++ local_rr reply.

Lemma dns_answer_ok e o r reply stack :
  request_ok o r -> length reply = 4%nat -> is_bytes reply -> (1500 <= length stack)%nat ->
  exists hc sc, length hc = 2%nat /\ length sc = 2%nat /\
    let d' := set_checks (local_dg (q_dg r) (local_payload r reply)) hc sc in dg_valid PKT_IP_PROTO_UDP d' /\
    dns_answer e stack (q_eth r ++ dg_bytes (q_dg r) ++ q_post r) (length (q_eth r ++ dg_bytes (q_dg r))) reply
      = Done (swap_eth (q_eth r) ++ dg_bytes d').
Proof.
  intros [He Hd Hpl Hid Hqt (Hls & Hlen) _] Hr Hbr Hst. unfold local_payload. destruct r as [eth d post id ls qt].
  cbn [q_eth q_dg q_post q_id q_name q_qt] in *.
  pose proof (ok_field _ _ Hd) as Hs1. injection Hs1 as Hs1.
  set (hdr := dns_head id [1; 0] 1 0) in *. assert (Hhdr : hdr = id ++ [1; 0; 0; 1; 0; 0; 0; 0; 0; 0]) by done.
  assert (Hh : length hdr = 12%nat) by (rewrite Hhdr, length_app, Hid; done).
  set (P := eth ++ dg_ip d ++ dg_s1 d ++ dg_sc d).
  assert (HP : length P = (length eth + 28)%nat).
  { unfold P, dg_ip. rewrite !length_app, (ok_hd _ _ Hd), (ok_hc _ _ Hd), (ok_addrs _ _ Hd), (ok_sc _ _ Hd), <- Hs1. lia. }
  assert (HP2 : length P = 42%nat \/ length P = 46%nat) by (rewrite HP; destruct He as [[-> _]|[-> _]]; [by left|by right]).
  assert (Hseg : length (dg_seg d) = (20 + length (enc_name ls) + 4)%nat).
  { unfold dg_seg. rewrite !length_app, <- Hs1, (ok_sc _ _ Hd), Hpl, !length_app, Hh, Hqt. lia. }
  set (plen := length (eth ++ dg_bytes d)). assert (Hplen : plen = (length eth + 20 + length (dg_seg d))%nat).
  { unfold plen. rewrite length_app, (dg_length _ _ Hd). lia. }
  set (query := enc_name ls ++ qt ++ local_rr reply). set (T := local_head id ++ query).
  assert (Hql : length query = (length (enc_name ls) + 20)%nat) by (unfold query, local_rr; rewrite !length_app, Hqt, Hr; cbn; lia).
  assert (HTl : length T = (length query + 12)%nat) by (unfold T, local_head; rewrite !length_app, Hid; cbn; lia).
  assert (Hbuf : forall R, eth ++ dg_bytes d ++ R = P ++ (id ++ [1; 0; 0; 1; 0; 0; 0; 0; 0; 0]) ++ enc_name ls ++ qt ++ R).
  { intros R. unfold P, dg_bytes, dg_seg. rewrite Hpl, Hhdr. by repeat rewrite <- app_assoc. }
  assert (HbT : is_bytes T).
  { pose proof (ok_bytes _ _ Hd) as (_ & _ & _ & B). rewrite Hpl, Hhdr in B. unfold T, local_head, query, local_rr, is_bytes in *.
    rewrite !Forall_app in B. rewrite !Forall_app. destruct B as ((B1 & _) & B3 & B4). repeat split; try done; by repeat constructor. }
  destruct (swap_eth_ok eth He) as [He' Hl'].
  pose proof (local_dg_ok d T Hd HbT ltac:(lia)) as Hd'.
  set (st := drop plen stack). set (st2 := drop (length query) (enc_name ls ++ qt ++ st)).
  destruct (chksum_dg e _ (swap_eth eth) _ st2 Hd') as (hc & sc & H1 & H2 & H3 & H4).
  exists hc, sc. split; [done|]. split; [done|]. split; [done|].
  unfold dns_answer, sizeofudp, sizeofip. rewrite sizeofeth_ok by done. obind.
  assert (local_query (eth ++ dg_bytes d ++ post) (length eth + 20 + PKT_UDP_HLEN) reply = Done query) as ->.
  { rewrite Hbuf, app_assoc. apply local_query_ok; try done. rewrite length_app, HP, length_app, Hid. unfold PKT_UDP_HLEN. cbn [length]. lia. }
  obind. rewrite (app_assoc eth), read_head by done. obind.
  assert (Hfit : (plen <= length stack)%nat) by lia.
  pose proof (memcpy_over [] stack _ 0 eq_refl Hfit) as Hm. cbn [app] in Hm. rewrite Hm. obind. fold plen st. clear Hm.
  replace ((eth ++ dg_bytes d) ++ st) with (eth ++ dg_bytes d ++ st) by (by rewrite <- (app_assoc eth)).
  replace ((eth ++ dg_bytes d) ++ post) with (eth ++ dg_bytes d ++ post) by (by rewrite <- (app_assoc eth)).
  rewrite sizeofeth_ok by done. obind.
  replace (length eth + 20 + PKT_UDP_HLEN)%nat with (length P) by (rewrite HP; unfold PKT_UDP_HLEN; lia).
  rewrite (Hbuf post) at 1. rewrite (Hbuf st), answer_dns_header_ok by done. obind.
  assert (Hstl : length st = (length stack - plen)%nat) by (unfold st; by rewrite length_drop).
  rewrite (app_assoc P), memcpy_over by (rewrite ?length_app; unfold local_head; rewrite ?length_app, ?Hid, ?Hqt, ?Hql, ?Hstl; cbn [length]; lia).
  obind. fold st2.
  replace ((P ++ local_head id) ++ query ++ st2) with (eth ++ dg_ip d ++ dg_s1 d ++ dg_sc d ++ T ++ st2)
    by (unfold P, T; by repeat rewrite <- app_assoc).
  rewrite (answer_headers_ok eth d post T st2) by
    (try done; try apply (ok_hd _ _ Hd); try apply (ok_hc _ _ Hd); try apply (ok_addrs _ _ Hd); try apply (ok_sc _ _ Hd);
     unfold DHCP_DNS_HLEN, PKT_UDP_HLEN; lia). obind.
  rewrite <- Hl', H4. obind. rewrite sizeofeth_ok by done. obind. set (d' := set_checks _ hc sc).
  rewrite (app_assoc (swap_eth eth)). apply read_head. rewrite length_app.
  assert (Hok' : dg_ok PKT_IP_PROTO_UDP d') by (by apply dg_ok_checks). rewrite (dg_length _ _ Hok').
  unfold d', dg_seg, local_dg. cbn [set_checks dg_s1 dg_sc dg_s2]. rewrite !length_app, !length_take, length_drop, length_be_bytes, H2, <- Hs1.
  unfold DHCP_DNS_HLEN, PKT_UDP_HLEN. cbn. lia.
Qed.

Lemma request_run e o s g r reply :
  request_ok o r -> ipv6 o = false -> local_reply o (join (q_name r)) = Some reply -> length reply = 4%nat -> is_bytes reply ->
  (1500 <= length (st_answer s))%nat ->
  let plen := length (q_eth r ++ dg_bytes (q_dg r)) in
  let pk := q_eth r ++ dg_bytes (q_dg r) ++ q_post r in
  exists hc sc, length hc = 2%nat /\ length sc = 2%nat /\
    let d' := set_checks (local_dg (q_dg r) (local_payload r reply)) hc sc in dg_valid PKT_IP_PROTO_UDP d' /\
    dhcp_dns e o s g pk plen true = Done (DnsOut 0 pk plen g (Some (swap_eth (q_eth r) ++ dg_bytes d'))).
Proof.
  intros Hok Hip Hrep Hr Hbr Hst plen pk.
  destruct (dns_answer_ok e o r reply (st_answer s) Hok Hr Hbr Hst) as (hc & sc & H1 & H2 & H3 & H4).
  exists hc, sc. split; [done|]. split; [done|]. split; [done|]. fold pk plen in H4.
  destruct Hok as [He Hd Hpl Hid Hqt (Hls & Hlen) Hpar]. destruct r as [eth d post id ls qt].
  cbn [q_eth q_dg q_post q_id q_name q_qt] in *. set (hdr := dns_head id [1; 0] 1 0) in *. set (body := enc_name ls ++ qt).
  destruct (dhcp_dns_eq e o s g eth d post id [1; 0] 1 0 body true) as (Hb & HQ & _ & Hrun); [done..|].
  fold pk plen in Hrun, Hb. rewrite Hrun. clear Hrun. set (dns := (length eth + 28)%nat) in *. fold hdr in Hb, HQ |- *.
  set (Q := upto eth d hdr) in *. set (olen := Z.of_nat (length body)). pose proof (length_enc_name ls) as Hel.
  assert (Holen : olen = Z.of_nat (length (enc_name ls)) + 4) by (unfold olen, body; rewrite length_app, Hqt; lia).
  assert (Hol : Z.of_nat (length (enc_name ls)) <= olen < 2 ^ 32) by (change (2 ^ 32) with 4294967296; lia).
  unfold dns_parse. change (Z.to_nat 1) with 1%nat. change (Z.to_nat 0) with 0%nat. cbn [copyres left]. rewrite (proj2 (Z.eqb_neq olen 0)) by lia.
  assert (HbQ : Q ++ body ++ post = Q ++ enc_name ls ++ qt ++ [] ++ post) by (unfold body; by repeat rewrite <- app_assoc).
  rewrite HbQ, (copy_question_ok e o Q dns olen ls HQ Hls ltac:(lia) Hip Hol true qt [] post olen g Hqt ltac:(cbn; lia) ltac:(lia) Hpar).
  obind. cbn [Z.eqb]. obind. unfold dns_conclude. cbn [negb left Z.eqb pack question pass_throughs]. rewrite <- HbQ, <- Hb.
  cbn [length]. change (Z.of_nat 0 =? 0) with true. cbn [negb]. change (be_val [1; 0] =? 0x0100) with true.
  change (1 <=? 1) with true. change (0 =? 0) with true. cbn [andb].
  rewrite (join_cstring Q dns olen ls HQ Hls ltac:(lia) Hol). obind. rewrite Hrep. obind. cbn [pack]. rewrite H4. obind. done.
Qed.

(** C25: without IPv6, a plain request for a local name: one question and no other
    record, the flags just those of a recursive query (0x0100; with any other flag the
    request is forwarded), a name of up to 236 bytes (with a longer one the query buffer
    would overflow; 128 in paranoid mode). It is not forwarded: what goes back to the
    client is a response with the question as it was asked and one A record with the
    address of the configuration and a time to live of 300, between the same stations
    and ports the other way round, with right lengths and checksums. *)
Theorem dhcp_dns_answers_local e o s g r reply :
  request_ok o r -> ipv6 o = false -> local_reply o (join (q_name r)) = Some reply -> length reply = 4%nat -> is_bytes reply ->
  (1500 <= length (st_answer s))%nat ->
  let plen := length (q_eth r ++ dg_bytes (q_dg r)) in
  let pk := q_eth r ++ dg_bytes (q_dg r) ++ q_post r in
  exists hc sc, length hc = 2%nat /\ length sc = 2%nat /\
    let d' := set_checks (local_dg (q_dg r) (local_payload r reply)) hc sc in dg_valid PKT_IP_PROTO_UDP d' /\
    dhcp_dns e o s g pk plen true = Done (DnsOut 0 pk plen g (Some (swap_eth (q_eth r) ++ dg_bytes d'))).
Proof. apply request_run. Qed.

(** ** Refused requests *)

(** The datagram sent back: the other way round, with the flags of "no such host". *)
Definition nak_dg (d : datagram) : datagram :=
  mk_dg (dg_hd d) [0; 0] (drop 4 (dg_addrs d) ++ take 4 (dg_addrs d))
        (take 2 (drop 2 (dg_s1 d)) ++ take 2 (dg_s1 d) ++ drop 4 (dg_s1 d)) (dg_sc d)
        (take 2 (dg_s2 d) ++ [0x85; 0x83] ++ drop 4 (dg_s2 d)).
Lemma nak_dg_ok d : dg_ok PKT_IP_PROTO_UDP d -> (4 <= length (dg_s2 d))%nat -> dg_ok PKT_IP_PROTO_UDP (nak_dg d).
Proof.
  intros [Hv Hp Ht Hm Lhd Lhc La Lsc Hf Hu (B1 & B2 & B3 & B4)] L2. injection Hf as Hs1. symmetry in Hs1.
  assert (Hl : dg_len (nak_dg d) = dg_len d).
  { unfold dg_len, dg_seg, nak_dg. cbn [dg_s1 dg_sc dg_s2]. rewrite !length_app, !length_take, !length_drop. cbn [length]. lia. }
  split; rewrite ?Hl; unfold nak_dg; cbn [dg_hd dg_hc dg_addrs dg_s1 dg_sc dg_s2]; try done.
  - rewrite !length_app, length_take, length_drop. lia.
  - rewrite !length_app, !length_take, !length_drop, Hs1. done.
  - intros _. rewrite <- (Hu eq_refl). destruct d as [hd hc addrs s1 sc s2]. cbn [dg_s1] in *. by explode s1.
  - unfold is_bytes in *. rewrite !Forall_app. repeat split; auto using Forall_take, Forall_drop. by repeat constructor.
Qed.

Lemma nak_writes_ok eth d post st : eth_ok eth -> dg_ok PKT_IP_PROTO_UDP d -> (4 <= length (dg_s2 d))%nat ->
  nak_writes (eth ++ dg_bytes d ++ post) (length eth) (length eth + 20) (eth ++ dg_bytes d ++ st) (length eth) (length eth + 20) (length eth + 20 + PKT_UDP_HLEN)
    = Done (swap_eth eth ++ dg_bytes (nak_dg d) ++ st).
Proof.
  intros He Hd L2. pose proof (ok_field _ _ Hd) as Hs1. injection Hs1 as Hs1. symmetry in Hs1.
  pose proof (ok_hd _ _ Hd) as Lhd. pose proof (ok_hc _ _ Hd) as Lhc. pose proof (ok_addrs _ _ Hd) as La. pose proof (ok_sc _ _ Hd) as Lsc.
  assert (Hl : length eth = 14%nat \/ length eth = 18%nat) by (destruct He as [[? _]|[? _]]; [by left|by right]). clear He Hd.
  destruct d as [hd hc addrs s1 sc s2]. unfold nak_dg, dg_bytes, dg_ip, dg_seg. cbn [dg_hd dg_hc dg_addrs dg_s1 dg_sc dg_s2] in *.
  explode hd. explode hc. explode addrs. explode s1. explode sc. do 4 (destruct s2 as [|? s2]; [cbn in L2; lia|]).
  destruct Hl as [Hl|Hl]; explode eth; clear; vm_compute; reflexivity.
Qed.
Lemma dhcp_nakDNS_ok e stack eth d post :
  eth_ok eth -> dg_ok PKT_IP_PROTO_UDP d -> (4 <= length (dg_s2 d))%nat -> (length (eth ++ dg_bytes d) <= length stack)%nat ->
  exists hc sc, length hc = 2%nat /\ length sc = 2%nat /\
    let d' := set_checks (nak_dg d) hc sc in dg_valid PKT_IP_PROTO_UDP d' /\
    dhcp_nakDNS e stack (eth ++ dg_bytes d ++ post) (length (eth ++ dg_bytes d)) = Done (swap_eth eth ++ dg_bytes d').
Proof.
  intros He Hd L2 Hst. destruct (swap_eth_ok eth He) as [He' Hl']. pose proof (nak_dg_ok d Hd L2) as Hok.
  set (st := drop (length (eth ++ dg_bytes d)) stack).
  destruct (chksum_dg e _ (swap_eth eth) _ st Hok) as (hc & sc & H1 & H2 & H3 & H4).
  exists hc, sc. split; [done|]. split; [done|]. split; [done|]. unfold dhcp_nakDNS, sizeofudp, sizeofip. rewrite sizeofeth_ok by done. obind.
  assert (read (eth ++ dg_bytes d ++ post) 0 (length (eth ++ dg_bytes d)) = Done (eth ++ dg_bytes d)) as ->.
  { rewrite app_assoc. by apply read_head. }
  obind. pose proof (memcpy_over [] stack _ 0 eq_refl Hst) as Hm. cbn [app] in Hm. rewrite Hm. obind. fold st. clear Hm.
  rewrite <- (app_assoc eth), sizeofeth_ok by done. obind.
  rewrite nak_writes_ok by done. obind. rewrite <- Hl', H4. obind. set (d' := set_checks _ hc sc).
  rewrite (app_assoc (swap_eth eth)). apply read_head.
  assert (Hok' : dg_ok PKT_IP_PROTO_UDP d') by (by apply dg_ok_checks). rewrite !length_app, (dg_length _ _ Hok'), (dg_length _ _ Hd), Hl'.
  pose proof (ok_field _ _ Hd) as Hs1. injection Hs1 as Hs1.
  unfold d', dg_seg, nak_dg. cbn [set_checks dg_s1 dg_sc dg_s2]. rewrite !length_app, !length_take, !length_drop, H2, (ok_sc _ _ Hd), <- Hs1. cbn [length]. lia.
Qed.

(** In paranoid mode a request for a name of more than 128 bytes is not
    forwarded: the client gets it back as a response that says there is no such host, from
    the server it asked, with right checksums, and the walled garden stays as it is. *)
Theorem dhcp_dns_paranoid e o s g r :
  request_ok (Options false (uamdomains o) (uamdomain_ttl o) (ipv6 o) (domain o) (domaindnslocal o) (uamhostname o) (uamaliasname o) (uamlogout o) (uamlisten o) (uamalias o)) r ->
  dnsparanoia o = true -> (128 < length (enc_name (q_name r)))%nat ->
  (1500 <= length (st_answer s))%nat ->
  let plen := length (q_eth r ++ dg_bytes (q_dg r)) in
  let pk := q_eth r ++ dg_bytes (q_dg r) ++ q_post r in
  exists hc sc, length hc = 2%nat /\ length sc = 2%nat /\
    let d' := set_checks (nak_dg (q_dg r)) hc sc in dg_valid PKT_IP_PROTO_UDP d' /\
    dhcp_dns e o s g pk plen true = Done (DnsOut 0 pk plen g (Some (swap_eth (q_eth r) ++ dg_bytes d'))).
Proof.
  intros [He Hd Hpl Hid Hqt (Hls & Hlen) _] Hpar Hlong Hst plen pk. destruct r as [eth d post id ls qt].
  cbn [q_eth q_dg q_post q_id q_name q_qt] in *. set (hdr := dns_head id [1; 0] 1 0) in *. set (body := enc_name ls ++ qt).
  destruct (dhcp_dns_eq e o s g eth d post id [1; 0] 1 0 body true) as (Hb & HQ & Hplen & Hrun); [done..|].
  fold pk plen in Hrun, Hb, Hplen. rewrite Hrun. clear Hrun. set (dns := (length eth + 28)%nat) in *. fold hdr in Hb, HQ |- *.
  set (Q := upto eth d hdr) in *. set (olen := Z.of_nat (length body)). pose proof (length_enc_name ls) as Hel.
  assert (Hbl : length body = (length (enc_name ls) + 4)%nat) by (unfold body; rewrite length_app, Hqt; done).
  assert (Heth : (length eth <= 18)%nat) by (destruct He as [[-> _]|[-> _]]; unfold PKT_ETH_HLEN; lia).
  assert (Hs2 : (4 <= length (dg_s2 d))%nat) by (rewrite Hpl, length_app; unfold hdr; rewrite length_dns_head by done; lia).
  destruct (dhcp_nakDNS_ok e (st_answer s) eth d post He Hd Hs2 ltac:(fold plen; lia)) as (hc & sc & H1 & H2 & H3 & H4).
  exists hc, sc. split; [done|]. split; [done|]. split; [done|]. fold pk plen in H4.
  assert (Hcopy : dns_copy_res e o true dns olen true (DnsState (Q ++ body ++ post) (dns + 12) olen (replicate 512 0) (-1) (-1) g)
    = Done (-1, DnsState (Q ++ body ++ post) (dns + 12) olen (replicate 512 0) (-1) (-1) g)).
  { unfold dns_copy_res. cbn [pack dptr left].
    replace (Q ++ body ++ post) with (Q ++ enc_name ls ++ qt ++ post) by (unfold body; by repeat rewrite <- app_assoc).
    rewrite (question_name Q dns olen ls HQ Hls ltac:(lia) ltac:(change (2 ^ 32) with 4294967296; lia) (qt ++ post) PKT_IP_PLEN)
      by (unfold PKT_IP_PLEN; try change (2 ^ 32) with 4294967296; lia).
    obind. rewrite (proj2 (Z.ltb_ge _ 0)), (proj2 (Z.ltb_ge olen _)), Hpar, (proj2 (Z.ltb_lt 128 _)) by lia. done. }
  unfold dns_parse. change (Z.to_nat 1) with 1%nat. cbn [copyres left]. rewrite (proj2 (Z.eqb_neq olen 0)) by lia. rewrite Hcopy.
  obind. cbn [Z.eqb]. obind. unfold dns_conclude. cbn [negb pack pass_throughs]. rewrite <- Hb, H4. obind. done.
Qed.

(** ** Name servers of the client's choice *)

Definition saddr (d : datagram) : bytes := take 4 (dg_addrs d).
Definition daddr (d : datagram) : bytes := drop 4 (dg_addrs d).
Definition with_addrs (d : datagram) (s a : bytes) : datagram :=
  mk_dg (dg_hd d) (dg_hc d) (s ++ a) (dg_s1 d) (dg_sc d) (dg_s2 d).
Definition sport (d : datagram) : Z := be_val (take 2 (dg_s1 d)).
Definition dport (d : datagram) : Z := be_val (take 2 (drop 2 (dg_s1 d))).

Lemma addrs_fields eth d post : eth_ok eth -> dg_ok PKT_IP_PROTO_UDP d ->
  let b := eth ++ dg_bytes d ++ post in
  read b (length eth + 12) 4 = Done (saddr d) /\ read b (length eth + 16) 4 = Done (daddr d) /\
  byte_at b (length eth + 9) = Done PKT_IP_PROTO_UDP /\
  get16 b (length eth + 20) = Done (sport d) /\ get16 b (length eth + 20 + 2) = Done (dport d) /\
  (forall x, length x = 4%nat -> memcpy b (length eth + 12) x = Done (eth ++ dg_bytes (with_addrs d x (daddr d)) ++ post)) /\
  (forall x, length x = 4%nat -> memcpy b (length eth + 16) x = Done (eth ++ dg_bytes (with_addrs d (saddr d) x) ++ post)).
Proof.
  intros He Hd b. pose proof (ok_field _ _ Hd) as Hs1. injection Hs1 as Hs1.
  pose proof (ok_hd _ _ Hd) as Lhd. pose proof (ok_hc _ _ Hd) as Lhc. pose proof (ok_addrs _ _ Hd) as La.
  pose proof (dg_proto_at _ eth d post Hd) as Hp. fold b in Hp.
  assert (Hl : length eth = 14%nat \/ length eth = 18%nat) by (destruct He as [[? _]|[? _]]; [by left|by right]).
  rewrite Hp. clear Hp He Hd. destruct d as [hd hc addrs s1 sc s2]. unfold saddr, daddr, sport, dport, with_addrs, b, dg_bytes, dg_ip, dg_seg.
  cbn [dg_hd dg_hc dg_addrs dg_s1 dg_sc dg_s2] in *. symmetry in Hs1. clear b. explode hd. explode hc. explode addrs. explode s1.
  repeat match goal with |- _ /\ _ => split | |- forall x, _ => let H := fresh in intros x H; explode x end;
    destruct Hl as [Hl|Hl]; explode eth; clear; vm_compute; reflexivity.
Qed.

(** When any name server may be asked, a request to one that is not of the
    configuration goes on as a request to the first name server of the configuration, with
    the asked one remembered and the checksum to be set; a response from that name server
    then goes on as one from the server that was asked. *)
Theorem dhcp_dnsDNAT_roundtrip e o s conn g eth d post plen :
  eth_ok eth -> dg_ok PKT_IP_PROTO_UDP d -> dport d = DHCP_DNS -> length (dns1 conn) = 4%nat ->
  daddr d <> dns1 conn -> daddr d <> dns2 conn -> daddr d <> replicate 4 0 ->
  let conn' := DnsConn (dns1 conn) (dns2 conn) (daddr d) in
  dhcp_dnsDNAT e o true s conn g (eth ++ dg_bytes d ++ post) plen =
    (out ← dhcp_dns e o s g (eth ++ dg_bytes (with_addrs d (saddr d) (dns1 conn)) ++ post) plen true;
     Done ((if ret out =? 0 then -1 else 1), conn', true, out)) /\
  forall eth' d' post' plen' g', eth_ok eth' -> dg_ok PKT_IP_PROTO_UDP d' -> sport d' = DHCP_DNS -> saddr d' = dns1 conn ->
    dhcp_dnsunDNAT e o true s conn' g' (eth' ++ dg_bytes d' ++ post') plen' =
      (out ← dhcp_dns e o s g' (eth' ++ dg_bytes (with_addrs d' (daddr d) (daddr d')) ++ post') plen' false;
       Done ((if ret out =? 0 then -1 else 1), true, out)).
Proof.
  intros He Hd Hport L1 N1 N2 N0 conn'. split.
  - destruct (addrs_fields eth d post He Hd) as (_ & F2 & F3 & _ & F5 & _ & F7).
    unfold dhcp_dnsDNAT, sizeofip. rewrite sizeofeth_ok by done. obind. rewrite F2, F3, F5. obind. rewrite Hport.
    rewrite (bool_decide_false (daddr d = dns1 conn)), (bool_decide_false (daddr d = dns2 conn)) by done. cbn [orb negb].
    change (PKT_IP_PROTO_UDP =? PKT_IP_PROTO_UDP) with true. change (DHCP_DNS =? DHCP_DNS) with true. cbn [andb].
    rewrite F7 by done. obind. done.
  - intros eth' d' post' plen' g' He' Hd' Hport' Hsa.
    destruct (addrs_fields eth' d' post' He' Hd') as (F1 & _ & F3 & F4 & _ & F6 & _).
    unfold dhcp_dnsunDNAT, sizeofip. rewrite sizeofeth_ok by done. obind. rewrite F1, F3, F4. obind. rewrite Hport', Hsa.
    change (PKT_IP_PROTO_UDP =? PKT_IP_PROTO_UDP) with true. change (DHCP_DNS =? DHCP_DNS) with true. cbn [orb andb conn' dnatdns].
    rewrite !bool_decide_false by done. cbn [negb andb]. rewrite F6; [obind; done|].
    unfold daddr. rewrite length_drop, (ok_addrs _ _ Hd). done.
Qed.

(** The answer to a local name comes from the name server of the configuration even when
    the client asked another one. *)
Lemma request_ok_addrs o eth d post id ls qt a :
  request_ok o (Request eth d post id ls qt) -> length a = 4%nat -> is_bytes a -> request_ok o (Request eth (with_addrs d (saddr d) a) post id ls qt).
Proof.
  intros [He Hd Hpl Hid Hqt Hn Hp] La Ba. split; try done. destruct Hd as [Hv Hpr Ht Hm Lhd Lhc L Lsc Hf Hu (B1 & B2 & B3 & B4)].
  split; try done; cbn [with_addrs q_dg dg_hd dg_addrs dg_s1 dg_s2] in *.
  - unfold saddr. rewrite length_app, length_take, L, La. done.
  - repeat split; try done. apply Forall_app. split; [by apply Forall_take|done].
Qed.
Lemma local_answer_from_dns1 e o s conn g r reply :
  request_ok o r -> ipv6 o = false -> local_reply o (join (q_name r)) = Some reply -> length reply = 4%nat -> is_bytes reply ->
  (1500 <= length (st_answer s))%nat -> dport (q_dg r) = DHCP_DNS -> length (dns1 conn) = 4%nat -> is_bytes (dns1 conn) ->
  daddr (q_dg r) <> dns1 conn -> daddr (q_dg r) <> dns2 conn -> daddr (q_dg r) <> replicate 4 0 ->
  exists out answer, dhcp_dnsDNAT e o true s conn g (q_eth r ++ dg_bytes (q_dg r) ++ q_post r) (length (q_eth r ++ dg_bytes (q_dg r)))
    = Done (-1, DnsConn (dns1 conn) (dns2 conn) (daddr (q_dg r)), true, out) /\
    sent out = Some (swap_eth (q_eth r) ++ dg_bytes answer) /\ saddr answer = dns1 conn.
Proof.
  intros Hok Hip Hrep Hr Hbr Hst Hport L1 B1 N1 N2 N0. destruct r as [eth d post id ls qt]. cbn [q_eth q_dg q_post q_name] in *.
  pose proof (qo_eth _ _ Hok) as He. pose proof (qo_dg _ _ Hok) as Hd. cbn [q_eth q_dg] in He, Hd.
  destruct (addrs_fields eth d post He Hd) as (_ & F2 & F3 & _ & F5 & _ & F7).
  pose proof (request_ok_addrs o eth d post id ls qt (dns1 conn) Hok L1 B1) as Hok'.
  destruct (request_run e o s g _ reply Hok' Hip Hrep Hr Hbr Hst) as (hc & sc & H1 & H2 & H3 & H4). cbn [q_eth q_dg q_post] in *.
  assert (Hlen : length (eth ++ dg_bytes (with_addrs d (saddr d) (dns1 conn))) = length (eth ++ dg_bytes d)).
  { unfold with_addrs, dg_bytes, dg_ip, dg_seg, saddr. cbn [dg_hd dg_hc dg_addrs dg_s1 dg_sc dg_s2].
    rewrite !length_app, length_take, L1, (ok_addrs _ _ Hd). lia. }
  rewrite Hlen in H4. eexists _, (set_checks (local_dg (with_addrs d (saddr d) (dns1 conn)) _) hc sc). split.
  - unfold dhcp_dnsDNAT, sizeofip. rewrite sizeofeth_ok by done. obind. rewrite F2, F3, F5. obind. rewrite Hport.
    rewrite (bool_decide_false (daddr d = dns1 conn)), (bool_decide_false (daddr d = dns2 conn)) by done. cbn [orb negb].
    change (PKT_IP_PROTO_UDP =? PKT_IP_PROTO_UDP) with true. change (DHCP_DNS =? DHCP_DNS) with true. cbn [andb].
    rewrite F7 by done. obind. rewrite H4. obind. reflexivity.
  - split; [reflexivity|]. unfold saddr. cbn [set_checks local_dg with_addrs dg_addrs].
    rewrite drop_app_length', take_app_length' by (try done; rewrite length_take, (ok_addrs _ _ Hd); done). done.
Qed.

(** *** What the buffers do not hold *)

(** Eight labels of 63 bytes fill the 512 bytes of the question, without a NUL. *)
Lemma question_unterminated :
  let name := enc_name (replicate 8 (replicate 63 97)) in
  dns_fullname name (replicate 512 0) 512 0 600 0 600 = Fault.
Proof. vm_compute. reflexivity. Qed.
(** A label that ends behind the packet, which has 8 bytes here: what lies there becomes a
    part of the name. *)
Lemma label_behind_packet :
  dns_fullname ([192; 6; 0; 0; 0; 0; 5; 97] ++ str "SECR" ++ [0]) (replicate 16 0) 15 0 8 0 8
    = Done (2, str "aSECR." ++ replicate 10 0).
Proof. vm_compute. reflexivity. Qed.
(** A name of 241 bytes overflows the 256 bytes of the query; DNS allows 255. *)
Lemma local_query_overflow :
  let name := enc_name (replicate 3 (replicate 63 97) ++ [replicate 47 97]) in
  length name = 241%nat /\ local_query (replicate 12 0 ++ name ++ [0; 1; 0; 1]) 0 [10; 1; 0; 1] = Fault.
Proof. vm_compute. done. Qed.
(** 54 A records that fit in a packet overflow the 1500 bytes they are repacked in. *)
Lemma repack_overflow :
  let records := enc_rrs (replicate 54 (RR 1 1 60 [10; 1; 0; 1])) in
  let msg := dns_head [0; 1] [128; 0] 1 54 ++ [1; 97; 0; 0; 28; 0; 1] ++ records in
  length msg = 883%nat /\
  repack_loop 54 msg 0 871 (replicate 1500 0) 19 (Z.of_nat (length records)) (replicate 1500 0) 0 0 = Fault.
Proof. vm_compute. done. Qed.

Lemma labels_check ls :
  forallb (fun s => (0 <? length s)%nat && (length s <? 64)%nat && forallb (fun c => negb (c =? 0)) s) ls = true -> Forall label_ok ls.
Proof.
  rewrite forallb_forall. intros H. apply Forall_forall. intros s Hs. apply list_elem_of_In, H in Hs.
  apply andb_prop in Hs as [Hs Hz]. apply andb_prop in Hs as [H1 H2]. apply Nat.ltb_lt in H1, H2. split; [done|].
  intros Hin. rewrite forallb_forall in Hz. apply list_elem_of_In, Hz in Hin. done.
Qed.

(** *** The name [www.example.com], its end at offset 12 *)
Definition example_names : bytes := replicate 12 0 ++ enc_name [str "example"; str "com"] ++ [3; 119; 119; 119; 192; 12].
Lemma dns_fullname_decodes_witness :
  dns_fullname example_names (replicate 100 0) 99 25 6 0 31
    = Done (6, name_text [str "www"; str "example"; str "com"] 4 ++ replicate (100 - 16) 0).
Proof.
  apply (dns_fullname_decodes example_names 0 31 25 6 [str "www"; str "example"; str "com"] 6 4 100 99); [|eapply Forall_impl; [by apply labels_check|by intros ? []]|cbn; lia|done].
  apply (na_label _ _ _ 14 25 6 (str "www") [str "example"; str "com"] 2 0); [done|done|cbn; lia|done|done|].
  apply (na_ptr _ _ _ 13 29 2 192 12 [str "example"; str "com"] 13 12); try done.
  apply (enc_name_at (replicate 12 0) [str "example"; str "com"] [3; 119; 119; 119; 192; 12] 0 31 13 12 19); [|done|done|done].
  by apply labels_check.
Defined.

Lemma dns_fullname_total_witness : exists r data,
  dns_fullname ([192; 0] ++ replicate 256 0) (replicate 100 0) 99 0 2 0 2 = Done (r, data) /\ length data = 100%nat /\ data !! 99%nat = Some 0.
Proof. apply (dns_fullname_total [192; 0] 0 2 99 99 0 2); [by repeat constructor|done|done|cbn; lia]. Defined.

(** *** A configuration, and the answer to a question for [login.example.com] *)
Definition example_options : options :=
  Options false [str "example.com"] 60 false (Some (str "lan")) false (Some (str "hotspot")) None [1; 1; 1; 1] [10; 1; 0; 1] [1; 0; 0; 1].
Definition example_udp (payload : bytes) : datagram :=
  mk_dg ([0x45; 0] ++ be_bytes 2 (Z.of_nat (length payload) + 28) ++ [0; 1; 0; 0; 64; 17]) [9; 9] [10; 1; 0; 1; 10; 1; 0; 2]
        ([0; 53; 192; 0] ++ be_bytes 2 (Z.of_nat (length payload) + 8)) [7; 7] payload.
Definition example_response : response :=
  let name := [str "login"; str "example"; str "com"] in
  let rs := [RR 1 1 3600 [192; 0; 2; 7]] in
  Response eth_example (example_udp (dns_head [0; 1] [128; 0] 1 1 ++ enc_name name ++ [0; 1; 0; 1] ++ enc_rrs rs)) []
    [0; 1] [128; 0] name [0; 1; 0; 1] rs.
Lemma example_response_ok : response_ok example_options example_response.
Proof.
  split; try done.
  - by left.
  - split; try done. repeat split; apply is_bytes_check; vm_compute; reflexivity.
  - split; [by apply labels_check|by vm_compute; lia].
  - split; [|done]. repeat constructor; try done; [by exists 1%nat|by exists true].
Qed.
Definition example_garden : garden := Garden.empty_garden 128.
(** What becomes of a message with the record OPT (type 41) of RFC 6891 in its additional
    part, as resolvers and servers with EDNS send it: the response is dropped, addresses and
    all, and the request is refused. *)
Definition edns_message (isReq : bool) : bytes :=
  let flags := if isReq then [1; 0] else [128; 0] in
  let answers := if isReq then [] else enc_rr (RR 1 1 60 [192; 0; 2; 7]) in
  let payload := [0; 1] ++ flags ++ [0; 1; 0; (if isReq then 0 else 1); 0; 0; 0; 1] ++ enc_name [str "example"; str "com"] ++ [0; 1; 0; 1]
                 ++ answers ++ [0; 0; 41; 16; 0; 0; 0; 0; 0; 0; 0] in
  eth_example ++ dg_bytes (example_udp payload).
Lemma edns_dropped :
  (out ← dhcp_dns LE example_options (Stacks [] [] []) example_garden (edns_message false) (length (edns_message false)) false;
   Done (ret out)) = Done 0 /\
  (out ← dhcp_dns LE example_options (Stacks (replicate 1500 0) (replicate 1500 0) (replicate 1500 0)) example_garden
     (edns_message true) (length (edns_message true)) true;
   Done (ret out, drop 44 <$> (take 46 <$> sent out))) = Done (0, Some [0x85; 0x83]).
Proof. split; vm_compute; reflexivity. Qed.
(** A request for a local name with another flag, as the AD of RFC 6840, is forwarded. *)
Lemma flagged_request_forwarded :
  let pk := eth_example ++ dg_bytes (example_udp (dns_head [0; 1] [1; 0x20] 1 0 ++ enc_name [str "hotspot"] ++ [0; 1; 0; 1])) in
  (out ← dhcp_dns LE example_options (Stacks (replicate 1500 0) (replicate 1500 0) (replicate 1500 0)) example_garden pk (length pk) true;
   Done (ret out, sent out)) = Done (1, None).
Proof. vm_compute. reflexivity. Qed.

Lemma dns_response_opens_witness : exists out,
  dhcp_dns LE example_options (Stacks [] [] []) example_garden (r_eth example_response ++ dg_bytes (r_dg example_response) ++ []) 93 false = Done out /\
  ret out = 1 /\
  Garden.dhcp_garden_check LE example_garden (out_garden out) (Garden.Ipph 6 0 (word_val LE [192; 0; 2; 7]) 0 0) true = Done true.
Proof.
  apply (dns_response_opens LE example_options (Stacks [] [] []) example_garden example_response example_garden 128
    (Garden.Ipph 6 0 (word_val LE [192; 0; 2; 7]) 0 0) [192; 0; 2; 7] example_response_ok eq_refl).
  - by apply (Garden.wf_empty 128).
  - apply Garden.NoDup_empty.
  - by apply (Garden.wf_empty 128).
  - reflexivity.
  - cbn. lia.
  - by apply list_elem_of_singleton.
  - reflexivity.
Defined.

(** *** A request for [hotspot.lan] *)
Definition example_request : request :=
  let name := [str "hotspot"; str "lan"] in
  Request eth_example (example_udp (dns_head [0; 1] [1; 0] 1 0 ++ enc_name name ++ [0; 1; 0; 1])) [] [0; 1] name [0; 1; 0; 1].
Lemma example_request_ok : request_ok example_options example_request.
Proof.
  split; try done.
  - by left.
  - split; try done. repeat split; apply is_bytes_check; vm_compute; reflexivity.
  - split; [by apply labels_check|by vm_compute; lia].
Qed.
Lemma dhcp_dns_answers_local_witness : exists hc sc, length hc = 2%nat /\ length sc = 2%nat /\
  let pk := q_eth example_request ++ dg_bytes (q_dg example_request) ++ [] in
  let d' := set_checks (local_dg (q_dg example_request) (local_payload example_request [10; 1; 0; 1])) hc sc in
  dg_valid PKT_IP_PROTO_UDP d' /\
  dhcp_dns LE example_options (Stacks (replicate 1500 0) [] []) example_garden pk 71 true
    = Done (DnsOut 0 pk 71 example_garden (Some (swap_eth (q_eth example_request) ++ dg_bytes d'))).
Proof.
  apply (dhcp_dns_answers_local LE example_options (Stacks (replicate 1500 0) [] []) example_garden example_request [10; 1; 0; 1] example_request_ok);
    try reflexivity; try (by repeat constructor); cbn [st_answer]; rewrite length_replicate; lia.
Defined.
Definition long_request : request :=
  let name := replicate 4 (replicate 40 97) in
  Request eth_example (example_udp (dns_head [0; 1] [1; 0] 1 0 ++ enc_name name ++ [0; 1; 0; 1])) [] [0; 1] name [0; 1; 0; 1].
Lemma dhcp_dns_paranoid_witness :
  let o := Options true [] 60 false None false None None [1; 1; 1; 1] [10; 1; 0; 1] [1; 0; 0; 1] in
  let pk := q_eth long_request ++ dg_bytes (q_dg long_request) ++ [] in
  exists hc sc, length hc = 2%nat /\ length sc = 2%nat /\
    let d' := set_checks (nak_dg (q_dg long_request)) hc sc in dg_valid PKT_IP_PROTO_UDP d' /\
    dhcp_dns LE o (Stacks (replicate 1500 0) [] []) example_garden pk 223 true
      = Done (DnsOut 0 pk 223 example_garden (Some (swap_eth (q_eth long_request) ++ dg_bytes d'))).
Proof.
  apply (dhcp_dns_paranoid LE (Options true [] 60 false None false None None [1; 1; 1; 1] [10; 1; 0; 1] [1; 0; 0; 1])
    (Stacks (replicate 1500 0) [] []) example_garden long_request).
  - split; try done; [by left| |by split; [apply labels_check|vm_compute; lia]].
    split; try done. repeat split; apply is_bytes_check; vm_compute; reflexivity.
  - reflexivity.
  - apply Nat.ltb_lt. reflexivity.
  - cbn [st_answer]. rewrite length_replicate. lia.
Defined.
Definition example_conn : dns_conn := DnsConn [10; 1; 0; 1] [9; 9; 9; 9] [0; 0; 0; 0].
Definition foreign_request : datagram :=
  mk_dg [0x45; 0; 0; 33; 0; 1; 0; 0; 64; 17] [9; 9] [10; 1; 0; 2; 8; 8; 8; 8] [192; 0; 0; 53; 0; 13] [7; 7] [104; 101; 108; 108; 111].
Lemma foreign_request_ok : dg_ok PKT_IP_PROTO_UDP foreign_request.
Proof. split; try done. repeat split; apply is_bytes_check; vm_compute; reflexivity. Qed.
Lemma dhcp_dnsDNAT_roundtrip_witness :
  let conn' := DnsConn [10; 1; 0; 1] [9; 9; 9; 9] [8; 8; 8; 8] in
  dhcp_dnsDNAT LE example_options true (Stacks [] [] []) example_conn example_garden (eth_example ++ dg_bytes foreign_request ++ []) 47 =
    (out ← dhcp_dns LE example_options (Stacks [] [] []) example_garden (eth_example ++ dg_bytes (with_addrs foreign_request [10; 1; 0; 2] [10; 1; 0; 1]) ++ []) 47 true;
     Done ((if ret out =? 0 then -1 else 1), conn', true, out)) /\
  forall eth' d' post' plen' g', eth_ok eth' -> dg_ok PKT_IP_PROTO_UDP d' -> sport d' = DHCP_DNS -> saddr d' = [10; 1; 0; 1] ->
    dhcp_dnsunDNAT LE example_options true (Stacks [] [] []) conn' g' (eth' ++ dg_bytes d' ++ post') plen' =
      (out ← dhcp_dns LE example_options (Stacks [] [] []) g' (eth' ++ dg_bytes (with_addrs d' [8; 8; 8; 8] (daddr d')) ++ post') plen' false;
       Done ((if ret out =? 0 then -1 else 1), true, out)).
Proof.
  apply (dhcp_dnsDNAT_roundtrip LE example_options (Stacks [] [] []) example_conn example_garden eth_example foreign_request [] 47);
    [by left|apply foreign_request_ok|done..].
Defined.
End Dns.
