(* ===== verification/LogScan.v ===== *)
(** * Matching log messages ([package/tlt-logtrigger/src/scan.c])

    A rule's pattern is compared with a message; the conversions of the pattern
    collect values.  The source walks both with pointers and does not stop at their
    terminators everywhere, so a pointer is the memory from it on: the characters,
    the NUL, and whatever lies behind it.  Reading behind the end of that memory is
    a [Fault], [exit] is [Fail]. *)

From S2P Require Import Prelude CLib.

Module LogScan.

Notation "'result' A" := (outcome Z A) (at level 10, A at level 9).

(** [match_t]; the list nodes of labels and values are only appended and read in
    order. *)
Record match_t := Match {
  find : Z;
  labels : list bytes;
  values : list bytes;
  pattern_ : bytes;
  string_ : option bytes;
}.

(** ** Pointers *)

Definition peek (p : bytes) : result Z := access (head p).
Definition adv (p : bytes) : bytes := tail p.

(** The C string a pointer points to. *)
Fixpoint cstr (p : bytes) : result bytes :=
  match p with
  | [] => Fault
  | c :: r => if c =? 0 then Done [] else s ← cstr r; Done (c :: s)
  end.

Definition isoctdigit (c : Z) : bool := (48 <=? c) && (c <=? 55).
(** d, i, u, f, o, x, X, c, s, b *)
Definition conversion (c : Z) : bool := existsb (Z.eqb c) (str "diufoxXcsb").
(** [strchr("difuoxX", c)]: also finds the terminator. *)
Definition numeric (c : Z) : bool := (c =? 0) || existsb (Z.eqb c) (str "difuoxX").

Fixpoint skip_digits (p : bytes) : bytes :=
  match p with c :: r => if isdigit c then skip_digits r else p | [] => p end.

(** ** Counting conversions *)

Fixpoint count_loop (fuel : nat) (fmt : bytes) (count : Z) : result Z :=
  match fuel with
  | O => Fault
  | S n =>
    c ← peek fmt;
    if c =? 0 then Done count
    else if c =? 37 then
      let fmt := adv fmt in
      c ← peek fmt;
      if c =? 42 then count_loop n fmt count
      else
        let fmt := skip_digits fmt in
        c ← peek fmt;
        if conversion c then count_loop n (adv fmt) (count + 1) else Fail 1
    else count_loop n (adv fmt) count
  end.
Definition scan_count (fmt : bytes) : result Z := count_loop (S (length fmt)) fmt 0.

(** ** Rebuilding the matched text *)

(** The loop of [matchString]; [newstr] is what has been stored in it. *)
Fixpoint build_loop (fuel : nat) (fmt : bytes) (vs : list bytes) (newstr : bytes) : result bytes :=
  match fuel with
  | O => Fault
  | S n =>
    c ← peek fmt;
    if c =? 0 then Done newstr
    else match vs with
    | [] => Done newstr
    | v :: vs' =>
      if c =? 37 then
        let fmt := adv fmt in
        c ← peek fmt;
        if c =? 42 then build_loop n fmt vs newstr
        else
          let fmt := skip_digits fmt in
          c ← peek fmt;
          if conversion c then build_loop n (adv fmt) vs' (newstr ++ v) else Fail 1
      else build_loop n (adv fmt) vs (newstr ++ [c])
    end
  end.

(** When nothing has been stored the fresh buffer is read uninitialised. *)
Definition matchString (m : match_t) : result match_t :=
  if Z.of_nat (length (values m)) =? find m then
    s ← build_loop (S (length (pattern_ m))) (pattern_ m) (values m) [];
    match s with
    | [] => Fault
    | _ :: _ => Done (Match (find m) (labels m) (values m) (pattern_ m) (Some s))
    end
  else Done m.

(** ** The labels *)

(** [strtok (flds, " ")] *)
Fixpoint words_of (s : bytes) (word : bytes) : list bytes :=
  match s with
  | [] => match word with [] => [] | _ => [word] end
  | c :: r => if c =? 32 then match word with [] => words_of r [] | _ => word :: words_of r [] end
              else words_of r (word ++ [c])
  end.
(** [char tmp[65]; sprintf (tmp, "LT_%s", varname)] *)
Definition make_label (w : bytes) : result bytes :=
  if Z.of_nat (length w) <=? 61 then Done (str "LT_" ++ w) else Fault.
Fixpoint make_labels (ws : list bytes) : result (list bytes) :=
  match ws with
  | [] => Done []
  | w :: ws' => l ← make_label w; ls ← make_labels ws'; Done (l :: ls)
  end.
Definition initMatch (fields : option bytes) (pattern : bytes) : result match_t :=
  n ← scan_count pattern;
  ls ← match fields with Some f => make_labels (words_of f []) | None => Done [] end;
  s ← cstr pattern;
  Done (Match n ls [] (s ++ [0]) None).

(** ** The match *)

(** [while (f ( *buf) && length) buf++, length--;] *)
Fixpoint eat (f : Z -> bool) (length : Z) (buf : bytes) : result (bytes * Z) :=
  match buf with
  | [] => Fault
  | c :: r => if f c && negb (length =? 0) then eat f (length - 1) r else Done (buf, length)
  end.
(** The same, accumulating [value <<= sh, value += digit], a 32-bit long. *)
Fixpoint eat_value (f : Z -> bool) (sh length value : Z) (buf : bytes) : result (bytes * Z) :=
  match buf with
  | [] => Fault
  | c :: r =>
    if f c && negb (length =? 0)
    then eat_value f sh (length - 1) (s32 (s32 (value <<ᵤ sh) + default 0 (digit_value c))) r
    else Done (buf, value)
  end.
(** [case 'c'] *)
Fixpoint eat_chars (length : Z) (buf : bytes) : result (bytes * Z) :=
  match buf with
  | [] => Fault
  | c :: r => if negb (c =? 0) && (0 <? length) then eat_chars (length - 1) r else Done (buf, length)
  end.

(** [None] is the early return; otherwise the pointer moved on, and the value to
    add. *)
Definition convert (c : Z) (after : Z) (ignore : bool) (length : Z) (start : bytes)
    : result (option (bytes * option bytes)) :=
  let add (buf : bytes) (v : result bytes) : result (option (bytes * option bytes)) :=
    if ignore then Done (Some (buf, None)) else v ← v; Done (Some (buf, Some v)) in
  if existsb (Z.eqb c) (str "difu") then
    b ← peek start;
    let '(buf, length) :=
      if negb (c =? 117) && (b =? 45) && negb (length =? 0) then (adv start, length - 1) else (start, length) in
    '(buf, length) ← eat isdigit length buf;
    b ← peek buf;
    '(buf, length) ← (if (c =? 102) && (b =? 46) && negb (length =? 0)
                      then eat isdigit (length - 1) (adv buf) else Done (buf, length));
    if bool_decide (buf = start) || (atoi start =? 45) then Done (Some (buf, None))
    else add buf (cstr start)
  else if c =? 111 then
    '(buf, value) ← eat_value isoctdigit 3 length 0 start;
    if bool_decide (buf = start) then Done (Some (buf, None)) else add buf (Done (print_dec value))
  else if (c =? 120) || (c =? 88) then
    '(buf, value) ← eat_value isxdigit 4 length 0 start;
    if bool_decide (buf = start) then Done (Some (buf, None)) else add buf (Done (print_dec value))
  else if c =? 115 then
    '(buf, _) ← eat (fun b => negb (isspace b) && negb (b =? after)) length start;
    add buf (cstr start)
  else if c =? 98 then
    '(buf, _) ← eat (fun b => negb (b =? after)) (-1) start;
    add buf (cstr start)
  else if c =? 99 then
    '(buf, length) ← eat_chars (if length <? 0 then 1 else length) start;
    if 0 <? length then Done None else add buf (cstr start)
  else Fail 1.

(** [while ( *buf != *fmt && *buf && *fmt) buf++;] *)
Fixpoint seek (c : Z) (buf : bytes) : result bytes :=
  match buf with
  | [] => Fault
  | b :: r => if negb (b =? c) && negb (b =? 0) then seek c r else Done buf
  end.

Definition match_bits : Z := 3.

(** The conversion at [fmt], just behind its percent sign: where the two pointers
    are afterwards, and the value. *)
Definition directive (fmt buf : bytes) : result (option (bytes * bytes * option bytes)) :=
  c ← peek fmt;
  if c =? 37 then
    b ← peek buf;
    if negb (b =? 37) then Done None else Done (Some (adv fmt, adv buf, None))
  else
    let '(ignore, fmt) := if c =? 42 then (true, adv fmt) else (false, fmt) in
    c ← peek fmt;
    let '(length, fmt) := if isdigit c then (atoi fmt, skip_digits fmt) else (-1, fmt) in
    c ← peek fmt;
    '(buf, _) ← (if numeric c then eat isspace (-1) buf else Done (buf, 0));
    after ← (if c =? 0 then Done 0 else peek (adv fmt));
    r ← convert c after ignore length buf;
    match r with
    | None => Done None
    | Some (buf, v) => Done (Some (adv fmt, buf, v))
    end.

(** The main loop: the values, and whether the end of the function is reached. *)
Fixpoint match_loop (fuel : nat) (init : bool) (equal_counter : Z) (fmt buf : bytes) (vs : list bytes)
    : result (list bytes * bool) :=
  match fuel with
  | O => Fault
  | S n =>
    c ← peek fmt;
    if c =? 0 then Done (vs, true)
    else
      b ← peek buf;
      if b =? 0 then Done (vs, true)
      else
        let next (init : bool) (equal_counter : Z) (fmt buf : bytes) (vs : list bytes) :=
          b ← peek buf;
          c ← peek fmt;
          if negb (b =? c) then Done (vs, true)
          else match_loop n init equal_counter (adv fmt) (adv buf) vs in
        if c =? 37 then
          r ← directive (adv fmt) buf;
          match r with
          | None => Done (vs, false)
          | Some (fmt, buf, v) => next false equal_counter fmt buf (vs ++ option_list v)
          end
        else if init then
          if match_bits <=? equal_counter then next init equal_counter fmt buf vs
          else buf ← seek c buf; next init (equal_counter + 1) fmt buf vs
        else next init equal_counter fmt buf vs
  end.

Definition match_ (buf : bytes) (fields : option bytes) (pattern : bytes) : result match_t :=
  m ← initMatch fields pattern;
  '(vs, complete) ← match_loop (S (length pattern)) true 0 pattern buf [];
  let m := Match (find m) (labels m) vs (pattern_ m) None in
  if complete : bool then matchString m else Done m.

(** ** Literal text and string fields *)

Lemma peek_cons c r : peek (c :: r) = Done c.
Proof. done. Qed.
Lemma adv_cons c r : adv (c :: r) = r.
Proof. done. Qed.
Ltac step := rewrite ?peek_cons, ?adv_cons; obind.

Lemma cstr_app s r : Forall (fun c => c <> 0) s -> cstr (s ++ 0 :: r) = Done s.
Proof.
  induction 1 as [|c s Hc _ IH]; cbn [app cstr]; [done|].
  destruct (Z.eqb_spec c 0); [done|]. by rewrite IH.
Qed.

(** Characters of a pattern that stand for themselves. *)
Definition literal (c : Z) : Prop := c <> 0 /\ c <> 37.
Lemma literal_nonzero l : Forall literal l -> Forall (fun c => c <> 0) l.
Proof. intros H. eapply Forall_impl; [exact H|]. by intros c [? _]. Qed.

Lemma count_literal l n fmt k :
  Forall literal l -> count_loop (length l + n) (l ++ fmt) k = count_loop n fmt k.
Proof.
  intros Hl. revert k. induction Hl as [|c l [H0 H1] _ IH]; intros k; cbn [app length Nat.add count_loop]; [done|].
  step. destruct (Z.eqb_spec c 0), (Z.eqb_spec c 37); first [done|apply IH].
Qed.
Lemma build_literal l n fmt v vs s :
  Forall literal l -> build_loop (length l + n) (l ++ fmt) (v :: vs) s = build_loop n fmt (v :: vs) (s ++ l).
Proof.
  intros Hl. revert s. induction Hl as [|c l [H0 H1] _ IH]; intros s; cbn [app length Nat.add build_loop].
  { by rewrite app_nil_r. }
  step. destruct (Z.eqb_spec c 0), (Z.eqb_spec c 37); try done. rewrite ?adv_cons, IH.
  by rewrite <- (app_assoc s [c] l).
Qed.

Lemma seek_here c buf : seek c (c :: buf) = Done (c :: buf).
Proof. cbn [seek]. by rewrite Z.eqb_refl. Qed.
Lemma seek_past c pre buf : Forall (fun x => x <> 0 /\ x <> c) pre -> seek c (pre ++ c :: buf) = Done (c :: buf).
Proof.
  induction 1 as [|x pre [H0 Hc] _ IH]; cbn [app]; [apply seek_here|]. cbn [seek].
  destruct (Z.eqb_spec x c), (Z.eqb_spec x 0); done.
Qed.

(** Literal text against the same text: the pointers move over it. *)
Lemma match_literal_char n init k c fmt buf vs :
  literal c ->
  match_loop (S n) init k (c :: fmt) (c :: buf) vs =
  match_loop n init (if init && negb (match_bits <=? k) then k + 1 else k) fmt buf vs.
Proof.
  intros [H0 H1]. cbn [match_loop]. step.
  destruct (Z.eqb_spec c 0), (Z.eqb_spec c 37); try done.
  destruct init; [destruct (match_bits <=? k)|]; cbn [andb negb]; rewrite ?seek_here; obind; step;
    by rewrite Z.eqb_refl.
Qed.
Lemma match_literal l n init k fmt buf vs :
  Forall literal l ->
  exists k', match_loop (length l + n) init k (l ++ fmt) (l ++ buf) vs = match_loop n init k' fmt buf vs.
Proof.
  intros Hl. revert k. induction Hl as [|c l Hc _ IH]; intros k; cbn [app length Nat.add]; [by exists k|].
  rewrite match_literal_char by done. apply IH.
Qed.
(** The first character of the pattern is looked for in the message. *)
Lemma match_first c n pre fmt buf vs :
  literal c -> Forall (fun x => x <> 0 /\ x <> c) pre ->
  match_loop (S n) true 0 (c :: fmt) (pre ++ c :: buf) vs = match_loop n true 1 fmt buf vs.
Proof.
  intros [H0 H1] Hp. cbn [match_loop]. step.
  destruct (Z.eqb_spec c 0), (Z.eqb_spec c 37); try done.
  assert (exists b, peek (pre ++ c :: buf) = Done b /\ b <> 0) as (b & -> & Hb0).
  { destruct Hp as [|x pre [Hx _] _]; eexists; (split; [reflexivity|done]). }
  obind. destruct (Z.eqb_spec b 0); [done|]. change (match_bits <=? 0) with false. cbn [negb].
  rewrite seek_past by done. obind. step. by rewrite Z.eqb_refl.
Qed.

(** A string field: text without white space up to the character that follows the
    field in the pattern. *)
Definition field (stop : Z) (v : bytes) : Prop :=
  Forall (fun c => c <> 0 /\ isspace c = false /\ c <> stop) v.

Lemma eat_field stop v buf k :
  k < 0 -> field stop v ->
  eat (fun b => negb (isspace b) && negb (b =? stop)) k (v ++ stop :: buf) = Done (stop :: buf, k - Z.of_nat (length v)).
Proof.
  intros Hk Hv. revert k Hk. induction Hv as [|c v (H0 & Hs & Hc) _ IH]; intros k Hk; cbn [app eat].
  - rewrite Z.eqb_refl, andb_false_r. cbn. do 2 f_equal. lia.
  - rewrite Hs. destruct (Z.eqb_spec c stop), (Z.eqb_spec k 0); try done; [lia|]. cbn [negb andb].
    rewrite IH by lia. do 2 f_equal. cbn [length]. lia.
Qed.
Lemma directive_string stop fmt v buf s :
  field stop v -> cstr (v ++ stop :: buf) = Done s ->
  directive (115 :: stop :: fmt) (v ++ stop :: buf) = Done (Some (stop :: fmt, stop :: buf, Some s)).
Proof.
  intros Hv Hs. unfold directive. step. change (115 =? 37) with false. change (115 =? 42) with false.
  cbn match. step. change (isdigit 115) with false. cbn match. step. change (numeric 115) with false.
  change (115 =? 0) with false. cbn match. step.
  unfold convert. change (existsb (Z.eqb 115) (str "difu")) with false.
  change (115 =? 111) with false. change (115 =? 120) with false. change (115 =? 88) with false.
  change (115 =? 115) with true. cbn [orb]. rewrite eat_field by (done || lia). obind.
  by rewrite Hs.
Qed.
Lemma match_string_field n init k stop fmt v buf s vs :
  stop <> 0 -> field stop v -> cstr (v ++ stop :: buf) = Done s ->
  match_loop (S n) init k (str "%s" ++ stop :: fmt) (v ++ stop :: buf) vs =
  match_loop n false k fmt buf (vs ++ [s]).
Proof.
  intros Hstop Hv Hs. change (str "%s" ++ stop :: fmt) with (37 :: 115 :: stop :: fmt).
  cbn [match_loop]. step. cbn [Z.eqb Pos.eqb].
  assert (exists b, peek (v ++ stop :: buf) = Done b /\ b <> 0) as (b & Hb & Hb0).
  { destruct Hv as [|c v (H0 & _) _]; cbn; eauto. }
  rewrite Hb. obind. destruct (Z.eqb_spec b 0); [done|].
  rewrite (directive_string _ _ _ _ s) by done. obind. step. by rewrite Z.eqb_refl.
Qed.

Lemma count_string n fmt k : count_loop (S n) (37 :: 115 :: fmt) k = count_loop n fmt (k + 1).
Proof. done. Qed.
Lemma build_string n fmt v vs s : build_loop (S n) (37 :: 115 :: fmt) (v :: vs) s = build_loop n fmt vs (s ++ v).
Proof. done. Qed.

(** A pattern of literal text and string fields, and a message that has its text in
    it.  A part is the text of a field and the literal text behind it, of which the first
    character ends the field. *)
Record part := Part { of_field : bytes; stop : Z; literals : bytes }.
Definition part_ok (q : part) : Prop := field (stop q) (of_field q) /\ literal (stop q) /\ Forall literal (literals q).

(** What stands in the pattern and in the message for the parts. *)
Fixpoint parts_pattern (qs : list part) : bytes :=
  match qs with [] => [] | q :: qs => str "%s" ++ stop q :: literals q ++ parts_pattern qs end.
Fixpoint parts_text (qs : list part) (rest : bytes) : bytes :=
  match qs with [] => rest | q :: qs => of_field q ++ stop q :: literals q ++ parts_text qs rest end.
(** What is stored for the fields, and the text that is put together from it. *)
Fixpoint parts_values (qs : list part) (rest : bytes) : list bytes :=
  match qs with [] => [] | q :: qs' => parts_text qs rest :: parts_values qs' rest end.
Fixpoint parts_built (qs : list part) (rest : bytes) : bytes :=
  match qs with
  | [] => []
  | q :: qs' => parts_text qs rest ++ match qs' with [] => [] | _ => stop q :: literals q ++ parts_built qs' rest end
  end.

Lemma parts_literals q : part_ok q -> Forall literal (stop q :: literals q).
Proof. intros (_ & ? & ?). by constructor. Qed.
Lemma parts_text_nonzero qs rest : Forall part_ok qs -> Forall (fun x => x <> 0) rest -> Forall (fun x => x <> 0) (parts_text qs rest).
Proof.
  intros Hqs Hr. induction Hqs as [|q qs Hq _ IH]; [done|]. cbn [parts_text]. apply Forall_app. split.
  - eapply Forall_impl; [exact (proj1 Hq)|by intros x [? _]].
  - constructor; [by destruct Hq as (_ & [? _] & _)|]. apply Forall_app. split; [by apply literal_nonzero, Hq|done].
Qed.
Lemma parts_pattern_nonzero qs : Forall part_ok qs -> Forall (fun x => x <> 0) (parts_pattern qs).
Proof.
  induction 1 as [|q qs Hq _ IH]; [done|]. cbn [parts_pattern]. apply Forall_app. split; [by repeat constructor|].
  constructor; [by destruct Hq as (_ & [? _] & _)|]. apply Forall_app. split; [by apply literal_nonzero, Hq|done].
Qed.

Lemma parts_values_length qs rest : length (parts_values qs rest) = length qs.
Proof. induction qs as [|q qs IH]; [done|]. cbn [parts_values length]. by rewrite IH. Qed.
Lemma parts_count qs junk n k : Forall part_ok qs -> (length (parts_pattern qs) < n)%nat ->
  count_loop n (parts_pattern qs ++ 0 :: junk) k = Done (k + Z.of_nat (length qs)).
Proof.
  intros Hqs. revert n k. induction Hqs as [|q qs Hq _ IH]; intros n k Hn.
  - destruct n; [cbn in Hn; lia|]. cbn. do 2 f_equal. lia.
  - cbn [parts_pattern] in Hn |- *. rewrite length_app in Hn. cbn [length str app] in Hn. rewrite length_app in Hn.
    destruct n as [|n]; [lia|]. rewrite <- app_assoc. cbn [app str]. change (chr "%") with 37. change (chr "s") with 115.
    rewrite count_string, <- app_assoc. change (stop q :: literals q ++ ?x) with ((stop q :: literals q) ++ x).
    replace n with (length (stop q :: literals q) + (n - length (stop q :: literals q)))%nat by (cbn in Hn |- *; lia).
    rewrite count_literal by (by apply parts_literals). rewrite IH by (cbn in Hn |- *; lia). cbn [length]. f_equal. lia.
Qed.
Lemma parts_build qs rest n s : Forall part_ok qs -> (length (parts_pattern qs) < n)%nat ->
  build_loop n (parts_pattern qs ++ [0]) (parts_values qs rest) s = Done (s ++ parts_built qs rest).
Proof.
  intros Hqs. revert n s. induction Hqs as [|q qs Hq _ IH]; intros n s Hn.
  - destruct n; [cbn in Hn; lia|]. cbn. by rewrite app_nil_r.
  - cbn [parts_pattern parts_values parts_built] in Hn |- *. rewrite length_app in Hn. cbn [length str app] in Hn. rewrite length_app in Hn.
    destruct n as [|n]; [lia|]. rewrite <- app_assoc. cbn [app str]. change (chr "%") with 37. change (chr "s") with 115.
    rewrite build_string, <- app_assoc. destruct qs as [|q' qs].
    + cbn [parts_values]. rewrite app_nil_r. destruct n as [|n]; [lia|]. cbn [build_loop app]. step.
      destruct (Z.eqb_spec (stop q) 0) as [E|]; [by destruct Hq as (_ & [? _] & _)|done].
    + change (stop q :: literals q ++ ?x) with ((stop q :: literals q) ++ x).
      replace n with (length (stop q :: literals q) + (n - length (stop q :: literals q)))%nat by (cbn in Hn |- *; lia).
      cbn [parts_values]. rewrite build_literal by (by apply parts_literals). cbn [parts_values] in IH.
      rewrite IH by (cbn in Hn |- *; lia). by repeat rewrite <- app_assoc.
Qed.
Lemma parts_loop qs rest behind junk n init k vs : Forall part_ok qs -> Forall (fun x => x <> 0) rest ->
  (length (parts_pattern qs) < n)%nat ->
  match_loop n init k (parts_pattern qs ++ 0 :: junk) (parts_text qs rest ++ 0 :: behind) vs = Done (vs ++ parts_values qs rest, true).
Proof.
  intros Hqs Hrest. revert n init k vs. induction Hqs as [|q qs Hq Hqs IH]; intros n init k vs Hn.
  - destruct n; [cbn in Hn; lia|]. cbn. by rewrite app_nil_r.
  - pose proof (parts_text_nonzero (q :: qs) rest (Forall_cons_2 _ _ _ Hq Hqs) Hrest) as Hnz.
    cbn [parts_pattern parts_text parts_values] in Hn, Hnz |- *. rewrite length_app in Hn. cbn [length str app] in Hn. rewrite length_app in Hn.
    destruct n as [|n]; [lia|]. repeat rewrite <- app_assoc. cbn [app]. repeat rewrite <- app_assoc.
    change (str "%s" ++ stop q :: ?x) with (str "%s" ++ stop q :: x).
    rewrite (match_string_field _ _ _ _ _ _ _ (of_field q ++ stop q :: literals q ++ parts_text qs rest));
      [|apply Hq|apply Hq|].
    2: { replace (of_field q ++ stop q :: literals q ++ parts_text qs rest ++ 0 :: behind)
           with ((of_field q ++ stop q :: literals q ++ parts_text qs rest) ++ 0 :: behind)
           by (rewrite <- app_assoc; cbn [app]; by rewrite <- app_assoc). by apply cstr_app. }
    replace n with (length (literals q) + (n - length (literals q)))%nat by lia.
    destruct (match_literal (literals q) (n - length (literals q)) false k (parts_pattern qs ++ 0 :: junk) (parts_text qs rest ++ 0 :: behind)
      (vs ++ [of_field q ++ stop q :: literals q ++ parts_text qs rest])) as [k' ->]; [apply Hq|].
    rewrite IH by lia. by rewrite <- app_assoc.
Qed.

Section Fields.
(** The pattern begins with [c :: l]; the message has [pre] before the text of the
    pattern and [rest] behind it; behind the two strings lies other memory. *)
Context (c : Z) (l : bytes) (qs : list part) (pre rest junk behind : bytes).
Context (Hc : literal c) (Hl : Forall literal l) (Hqs : Forall part_ok qs)
  (Hpre : Forall (fun x => x <> 0 /\ x <> c) pre) (Hrest : Forall (fun x => x <> 0) rest).

Definition pattern_text : bytes := (c :: l) ++ parts_pattern qs.
Definition message_text : bytes := pre ++ (c :: l) ++ parts_text qs rest.

Lemma pattern_text_nonzero : Forall (fun x => x <> 0) pattern_text.
Proof. apply Forall_app. split; [apply literal_nonzero; by constructor|by apply parts_pattern_nonzero]. Qed.
Lemma pattern_count : scan_count (pattern_text ++ 0 :: junk) = Done (Z.of_nat (length qs)).
Proof.
  unfold scan_count, pattern_text. rewrite <- app_assoc.
  replace (S (length _)) with (length (c :: l) + S (length (parts_pattern qs) + S (length junk)))%nat by (rewrite !length_app; cbn; lia).
  rewrite count_literal by (by constructor). by rewrite parts_count by (done || lia).
Qed.
Lemma message_loop :
  match_loop (S (length (pattern_text ++ 0 :: junk))) true 0 (pattern_text ++ 0 :: junk) (message_text ++ 0 :: behind) [] =
  Done (parts_values qs rest, true).
Proof.
  unfold pattern_text, message_text. repeat rewrite <- app_assoc. cbn [app]. rewrite match_first by done.
  cbn [length]. rewrite length_app. set (n := S (length l + _)).
  replace n with (length l + S (length (parts_pattern qs ++ 0%Z :: junk)))%nat by (unfold n; lia).
  destruct (match_literal l (S (length (parts_pattern qs ++ 0 :: junk))) true 1 (parts_pattern qs ++ 0 :: junk)
    (parts_text qs rest ++ 0 :: behind) [] Hl) as [k ->].
  by rewrite parts_loop by (done || rewrite length_app; lia).
Qed.

(** C36: a pattern of literal text and any number of string fields, each followed by
    literal text, on a message that has the text of the pattern in it, with fields free
    of white space and of the character behind them, and before it only text in which
    the first character of the pattern does not occur (with other text in front of it
    the match can fail: see [first_characters]). The message matches; but what is stored
    for a field is not its text: it is the whole rest of the message from the beginning
    of the field on, and the matched text is put together from these. *)
Theorem match_string_fields fields ls : qs <> [] ->
  make_labels (words_of fields []) = Done ls ->
  match_ (message_text ++ 0 :: behind) (Some fields) (pattern_text ++ 0 :: junk) =
  Done (Match (Z.of_nat (length qs)) ls (parts_values qs rest) (pattern_text ++ [0]) (Some ((c :: l) ++ parts_built qs rest))).
Proof.
  intros Hne Hls. unfold match_, initMatch. rewrite pattern_count. obind. rewrite Hls. obind.
  rewrite cstr_app by apply pattern_text_nonzero. obind. rewrite message_loop. obind. cbn [find labels pattern_ values].
  unfold matchString. cbn [find labels values pattern_].
  rewrite parts_values_length, Z.eqb_refl.
  unfold pattern_text. rewrite <- (app_assoc (c :: l)).
  replace (S (length _)) with (length (c :: l) + S (length (parts_pattern qs) + 1))%nat by (rewrite !length_app; cbn; lia).
  destruct qs as [|q qs']; [done|]. cbn [parts_values]. rewrite build_literal by (by constructor).
  change (parts_text (q :: qs') rest :: parts_values qs' rest) with (parts_values (q :: qs') rest).
  rewrite parts_build by (done || lia). done.
Qed.
End Fields.

(** ** Concrete patterns and messages *)

(** A C string with nothing but its terminator behind it. *)
Definition mem (s : string) : bytes := str s ++ [0].
Definition values_of (r : result match_t) : result (list bytes * bool) :=
  m ← r; Done (values m, bool_decide (is_Some (string_ m))).

(** The message ends before the character that ends the field: the loop reads on
    behind the message. *)
Example string_field_overrun :
  match_ (mem "Login attempt from 10.0.0.5") None (mem "attempt from %s:") = Fault.
Proof. vm_compute. reflexivity. Qed.

(** A field at the end of the pattern: the comparison of the two terminators moves
    both pointers behind them. *)
Example string_field_at_end :
  match_ (mem "attempt from 10.0.0.5") None (mem "attempt from %s") = Fault /\
  values_of (match_ (mem "attempt from 10.0.0.5" ++ [0]) None (mem "attempt from %s" ++ [0])) =
    Done ([str "10.0.0.5"], true).
Proof. split; vm_compute; reflexivity. Qed.

(** The number 45 is taken for a lone minus sign and dropped. *)
Example number_45 :
  values_of (match_ (mem "code 44;") None (mem "code %d;")) = Done ([str "44;"], true) /\
  values_of (match_ (mem "code 45;") None (mem "code %d;")) = Done ([], false).
Proof. split; vm_compute; reflexivity. Qed.

(** A pattern without conversions matches every message, and its string is read
    from an uninitialised buffer. *)
Example literal_pattern : match_ (mem "anything") None (mem "reboot") = Fault.
Proof. vm_compute. reflexivity. Qed.

(** "%%" is rejected by the count of conversions and ends the program. *)
Example percent_sign : match_ (mem "load 90%") None (mem "load %d%%") = Fail 1.
Proof. vm_compute. reflexivity. Qed.

(** The first three characters of a pattern are looked for one by one: an earlier
    character of the log line can lead the match astray. *)
Example first_characters :
  values_of (match_ (mem "dropbear: Bad try by 'eve'.") None (mem "Bad try by '%s'.")) = Done ([str "eve'."], true) /\
  values_of (match_ (mem "Bald-1 dropbear: Bad try by 'eve'.") None (mem "Bad try by '%s'.")) = Done ([], false).
Proof. split; vm_compute; reflexivity. Qed.

Lemma match_string_fields_witness :
  match_ (str "dropbear[1]: Bad password for 'root' from 10.0.0.5:4001" ++ [0]) (Some (str "user ip"))
    (str "Bad password for '%s' from %s:" ++ [0]) =
  Done (Match 2 [str "LT_user"; str "LT_ip"] [str "root' from 10.0.0.5:4001"; str "10.0.0.5:4001"]
    (str "Bad password for '%s' from %s:" ++ [0])
    (Some (str "Bad password for 'root' from 10.0.0.5:4001' from 10.0.0.5:4001"))).
Proof.
  refine (match_string_fields 66 (str "ad password for '") [Part (str "root") 39 (str " from "); Part (str "10.0.0.5") 58 []]
    (str "dropbear[1]: ") (str "4001") [] [] _ _ _ _ _ (str "user ip") [str "LT_user"; str "LT_ip"] _ eq_refl);
    [..|discriminate]; repeat constructor; vm_compute; discriminate.
Defined.

End LogScan.
