(* ===== verification/LogTrigger.v ===== *)
(** * Fail counters and triggers ([package/tlt-logtrigger/src/list.c], [scan.c], [trigger.c])

    Each rule keeps a list of the values it has seen failing, with a counter, in
    elements that are allocated and freed one by one.  The heap of a list is a map
    from addresses to elements; [malloc] is an argument.  Running the rule's script
    is the event [Script]. *)

From S2P Require Import Prelude CLib Chains LogScan.

Module LogTrigger.
Import LogScan.

(** ** The list of elements ([list.c]) *)

Record ban_element := Ban { data : bytes; fail : Z; next : option nat; prev : option nat }.
Record ban_list := BanList {
  heap : gmap nat ban_element;
  first : option nat;
  last : option nat;
  count : Z;
}.
Definition set_next (v : option nat) (b : ban_element) : ban_element := Ban (data b) (fail b) v (prev b).
Definition set_prev (v : option nat) (b : ban_element) : ban_element := Ban (data b) (fail b) (next b) v.
Definition set_fail (v : Z) (b : ban_element) : ban_element := Ban (data b) v (next b) (prev b).
Definition set_heap (l : ban_list) (h : gmap nat ban_element) : ban_list := BanList h (first l) (last l) (count l).

Definition deref (l : ban_list) (i : nat) : result ban_element := access (heap l !! i).
Definition modify (l : ban_list) (i : nat) (f : ban_element -> ban_element) : result ban_list :=
  b ← deref l i; Done (set_heap l (<[i := f b]> (heap l))).
Definition nx (l : ban_list) (i : nat) : option nat := heap l !! i ≫= next.
Definition pv (l : ban_list) (i : nat) : option nat := heap l !! i ≫= prev.
(** A walk visits an element at most once. *)
Definition fuel (l : ban_list) : nat := size (heap l).

Definition list_init : ban_list := BanList ∅ None None 0.

Section Malloc.
Context (malloc : gmap nat ban_element -> option nat).

Definition list_add_elem (l : ban_list) (d : bytes) : result (option nat * ban_list) :=
  match malloc (heap l) with
  | None => Done (None, l)
  | Some n =>
    let l := set_heap l (<[n := Ban d 0 None None]> (heap l)) in
    l ← match last l with
        | Some k => l ← modify l k (set_next (Some n)); modify l n (set_prev (Some k))
        | None => Done l
        end;
    Done (Some n, BanList (heap l) (match first l with None => Some n | Some k => Some k end) (Some n) (count l + 1))
  end.

(** The element taken out of the links; it is still in the heap. *)
Definition list_unlink (l : ban_list) (i : nat) : result ban_list :=
  b ← deref l i;
  if decide (Some i = first l) then
    let l := BanList (heap l) (next b) (last l) (count l) in
    match next b with Some k => modify l k (set_prev None) | None => Done l end
  else if decide (Some i = last l) then
    let l := BanList (heap l) (first l) (prev b) (count l) in
    match prev b with Some k => modify l k (set_next None) | None => Done l end
  else
    k ← access (next b);
    l ← modify l k (set_prev (prev b));
    b ← deref l i;
    j ← access (prev b);
    modify l j (set_next (next b)).

Definition list_delete (l : ban_list) (elem : option nat) : result (Z * ban_list) :=
  match elem with
  | None => Done (-1, l)
  | Some i =>
    r ← walk (fuel l) (nx l) (fun j => bool_decide (j = i)) (first l);
    match r with
    | None => Done (-1, l)
    | Some _ =>
      l ← list_unlink l i;
      let n := count l - 1 in
      Done (0, BanList (delete i (heap l)) (first l) (if n =? 0 then None else last l) n)
    end
  end.

Definition has_data (l : ban_list) (d : bytes) (i : nat) : bool :=
  match heap l !! i with Some b => strcmp_eq (data b) d | None => false end.
Definition list_get_elem_by_data (l : ban_list) (d : bytes) : result (option nat) :=
  walk (fuel l) (nx l) (has_data l d) (first l).

(** ** The element of a match ([scan.c]) *)

(** [while (labels && values)] *)
Fixpoint get_loop (l : ban_list) (name : bytes) (lvs : list (bytes * bytes)) : result (option nat) :=
  match lvs with
  | [] => Done None
  | (lb, v) :: r =>
    if strcmp_eq lb name then
      e ← list_get_elem_by_data l v;
      match e with Some i => Done (Some i) | None => get_loop l name r end
    else get_loop l name r
  end.
Definition ban_get_elem (l : ban_list) (m : match_t) (name : bytes) : result (option nat) :=
  get_loop l name (zip (labels m) (values m)).

(** [strdup_ok] says whether the copy of the value can be allocated. *)
Context (strdup_ok : bytes -> bool).

Fixpoint add_loop (l : ban_list) (name : bytes) (lvs : list (bytes * bytes)) : result (Z * ban_list) :=
  match lvs with
  | [] => Done (-1, l)
  | (lb, v) :: r =>
    if strcmp_eq lb name then
      if negb (strdup_ok v) then Done (-1, l)
      else
        '(e, l) ← list_add_elem l v;
        match e with
        | None => Done (-1, l)
        | Some i => l ← modify l i (set_fail 1); Done (0, l)
        end
    else add_loop l name r
  end.
Definition ban_add_elem (l : ban_list) (m : match_t) (name : bytes) : result (Z * ban_list) :=
  add_loop l name (zip (labels m) (values m)).

(** ** Messages ([trigger.c]) *)

Record uci_logcheck := Logcheck {
  r_name : bytes;
  r_pattern : bytes;
  r_pattern_ok : option bytes;
  r_fields : option bytes;
  maxfail : Z;
  elsewhere : bool;   (* a log file or an id is set *)
  bans : ban_list;
}.
Definition set_bans (r : uci_logcheck) (l : ban_list) : uci_logcheck :=
  Logcheck (r_name r) (r_pattern r) (r_pattern_ok r) (r_fields r) (maxfail r) (elsewhere r) l.

(** A call of [prepare_runscript]. *)
Inductive event := Script (rule : bytes) (matched : match_t) (message : bytes) (fail : Z).

Definition LT_ip : bytes := str "LT_ip".

(** What a match does to the counters of its rule. *)
Definition on_match (r : uci_logcheck) (success : bool) (m : match_t) (message : bytes)
    : result (uci_logcheck * list event) :=
  elem ← ban_get_elem (bans r) m LT_ip;
  if success then
    match elem with
    | Some i => '(_, l) ← list_delete (bans r) (Some i); Done (set_bans r l, [])
    | None => Done (r, [])
    end
  else
    match elem with
    | Some i =>
      l ← modify (bans r) i (fun b => set_fail (fail b + 1) b);
      b ← deref l i;
      if maxfail r <=? fail b then
        '(_, l) ← list_delete l (Some i);
        Done (set_bans r l, [Script (r_name r) m message (fail b)])
      else Done (set_bans r l, [])
    | None =>
      if maxfail r <=? 1 then Done (r, [Script (r_name r) m message 1])
      else '(_, l) ← ban_add_elem (bans r) m LT_ip; Done (set_bans r l, [])
    end.

(** One rule on one message; [behind] is the memory behind the message. *)
Definition check_rule (r : uci_logcheck) (message behind : bytes) : result (uci_logcheck * list event) :=
  if elsewhere r then Done (r, [])
  else
    m ← match_ (message ++ 0 :: behind) (r_fields r) (r_pattern r);
    '(m, success) ← match string_ m, r_pattern_ok r with
                    | None, Some p => m ← match_ (message ++ 0 :: behind) (r_fields r) p; Done (m, true)
                    | _, _ => Done (m, false)
                    end;
    match string_ m with
    | Some _ => on_match r success m message
    | None => Done (r, [])
    end.

Fixpoint check_rules (rs : list uci_logcheck) (message behind : bytes)
    : result (list uci_logcheck * list event) :=
  match rs with
  | [] => Done ([], [])
  | r :: rs' =>
    '(r, es) ← check_rule r message behind;
    '(rs', es') ← check_rules rs' message behind;
    Done (r :: rs', es ++ es')
  end.

(** [strtok_r (msglog, "\n")] on the text of the log: each message, with what lies
    behind it in memory. *)
Fixpoint process (fuel : nat) (rs : list uci_logcheck) (text behind : bytes)
    : result (list uci_logcheck * list event) :=
  match fuel with
  | O => Fault
  | S n =>
    match text with
    | [] => Done (rs, [])
    | c :: text' =>
      if c =? 10 then process n rs text' behind
      else
        match strchr text 10 with
        | None => check_rules rs text behind
        | Some i =>
          let rest := drop (S i) text in
          '(rs, es) ← check_rules rs (take i text) (rest ++ 0 :: behind);
          '(rs, es') ← process n rs rest behind;
          Done (rs, es ++ es')
        end
    end
  end.
Definition processMsg (rs : list uci_logcheck) (msglog behind : bytes) : result (list uci_logcheck * list event) :=
  process (S (length msglog)) rs msglog behind.
End Malloc.

(** ** The list of elements as a list of values and counters *)

Definition cell (l : ban_list) (i : nat) (e : bytes * Z) : Prop :=
  exists b, heap l !! i = Some b /\ e = (data b, fail b).
Record rep (l : ban_list) (xs : list nat) (es : list (bytes * Z)) : Prop := {
  rep_chain : dchain (nx l) (pv l) (first l) (last l) xs;
  rep_nodup : NoDup xs;
  rep_dom : forall i, i ∈ xs <-> is_Some (heap l !! i);
  rep_cells : Forall2 (cell l) xs es;
  rep_count : count l = Z.of_nat (length xs);
}.

Lemma rep_init : rep list_init [] [].
Proof.
  constructor; [constructor; [done|done|]|constructor|..|constructor|done].
  - intros k i H. by rewrite lookup_nil in H.
  - intros i. cbn. rewrite lookup_empty. split; [by intros ?%not_elem_of_nil|by intros [? ?]].
Qed.
Lemma rep_fuel l xs es : rep l xs es -> length xs = fuel l.
Proof.
  intros H. unfold fuel. rewrite <- size_dom, <- (size_list_to_set (C := gset nat) xs) by apply H.
  apply set_size_proper. intros i. rewrite elem_of_list_to_set, elem_of_dom. apply H.
Qed.
Lemma rep_cell l xs es k i : rep l xs es -> xs !! k = Some i ->
  exists b, heap l !! i = Some b /\ es !! k = Some (data b, fail b).
Proof.
  intros H Hk. destruct (Forall2_lookup_l _ _ _ _ _ (rep_cells _ _ _ H) Hk) as (e & He & b & Hb & ->). by exists b.
Qed.

(** The search, by position. *)
Definition find_data (d : bytes) (es : list (bytes * Z)) : option (nat * (bytes * Z)) :=
  find_from (fun e => strcmp_eq e.1 d) es.
Lemma get_ok l xs es d :
  rep l xs es ->
  list_get_elem_by_data l d = Done (find_data d es ≫= fun p => xs !! p.1).
Proof.
  intros H. unfold list_get_elem_by_data.
  rewrite (walk_chain _ _ _ _ xs) by (apply H || by rewrite (rep_fuel _ _ _ H)). f_equal.
  pose proof (rep_cells _ _ _ H) as Hc. clear H. unfold find_data.
  induction Hc as [|i e xs es (b & Hb & ->) Hc IH]; [done|]. cbn [find_from fst].
  assert (has_data l d i = strcmp_eq (data b) d) as -> by (unfold has_data; by rewrite Hb).
  destruct (strcmp_eq (data b) d); [done|]. destruct (find_from (has_data l d) xs) as [[k j]|], (find_from _ es) as [[k' e']|]; done.
Qed.

Lemma heap_set_heap l h : heap (set_heap l h) = h.
Proof. done. Qed.

(** A change of one element's counter. *)
Lemma set_fail_ok l xs es k i d c v :
  rep l xs es -> xs !! k = Some i -> es !! k = Some (d, c) ->
  exists l' b, heap l !! i = Some b /\ fail b = c /\ heap l' !! i = Some (set_fail v b) /\
    modify l i (set_fail v) = Done l' /\ rep l' xs (<[k := (d, v)]> es).
Proof.
  intros H Hk He. destruct (rep_cell l xs es k i H Hk) as (b & Hb & He').
  rewrite He in He'. injection He' as -> ->. unfold modify, deref. rewrite Hb. obind.
  eexists _, b. split; [done|]. split; [done|]. split; [|split; [reflexivity|]].
  { cbn. by rewrite lookup_insert_eq. }
  assert (Hnx : forall j, nx (set_heap l (<[i:=set_fail v b]> (heap l))) j = nx l j /\
                          pv (set_heap l (<[i:=set_fail v b]> (heap l))) j = pv l j).
  { intros j. unfold nx, pv. cbn [heap set_heap]. destruct (decide (i = j)) as [<-|].
    - by rewrite lookup_insert_eq, Hb.
    - by rewrite lookup_insert_ne. }
  destruct H as [Hc Hn Hd Hf Hl]. constructor; [|done| | |done].
  - eapply dchain_ext; [|exact Hc]. intros j _. apply Hnx.
  - intros j. rewrite Hd. cbn [heap set_heap]. destruct (decide (i = j)) as [<-|].
    + rewrite lookup_insert_eq, Hb. by split; intros _; eexists.
    + by rewrite lookup_insert_ne.
  - apply Forall2_same_length_lookup_2; [rewrite length_insert; by eapply Forall2_length|].
    intros k' j e Hj He'. unfold cell. cbn [heap set_heap].
    destruct (decide (k = k')) as [<-|Hne].
    + assert (j = i) as -> by congruence. rewrite lookup_insert_eq. exists (set_fail v b). split; [done|].
      rewrite list_lookup_insert_eq in He' by (by eapply lookup_lt_Some). by injection He' as <-.
    + rewrite list_lookup_insert_ne in He' by done.
      destruct (Forall2_lookup_lr _ _ _ _ _ _ Hf Hj He') as (b' & Hb' & ->). exists b'. split; [|done].
      rewrite lookup_insert_ne; [done|]. intros <-. apply Hne. by eapply NoDup_lookup.
Qed.

(** A new element behind the others. *)
Lemma list_add_ok malloc l xs es d n :
  rep l xs es -> malloc (heap l) = Some n -> heap l !! n = None ->
  exists l', list_add_elem malloc l d = Done (Some n, l') /\ rep l' (xs ++ [n]) (es ++ [(d, 0)]).
Proof.
  intros H Hm Hn. unfold list_add_elem. rewrite Hm. cbv zeta.
  assert (Hnx : n ∉ xs) by (rewrite (rep_dom _ _ _ H), Hn; by intros [? ?]).
  assert (Hnd : NoDup (xs ++ [n])).
  { apply NoDup_app. split; [apply H|]. split; [|apply NoDup_singleton]. by intros x Hx ->%list_elem_of_singleton. }
  set (l1 := set_heap l (<[n:=Ban d 0 None None]> (heap l))).
  change (last l1) with (last l).
  assert (Hlink : exists l2, match last l with
      | Some k => l ← modify l1 k (set_next (Some n)); modify l n (set_prev (Some k))
      | None => Done l1 end = Done l2 /\ first l2 = first l /\ count l2 = count l /\
      heap l2 !! n = Some (Ban d 0 None (last l)) /\
      forall i, i <> n -> heap l2 !! i =
        (if decide (last l = Some i) then set_next (Some n) <$> heap l !! i else heap l !! i)).
  { destruct (last l) as [k|] eqn:Hk.
    - assert (Hkx : k ∈ xs).
      { pose proof (dc_last _ _ _ _ _ (rep_chain _ _ _ H)) as Hl. rewrite Hk, last_lookup in Hl.
        by eapply list_elem_of_lookup_2. }
      assert (Hkn : k <> n) by (by intros ->).
      apply (rep_dom _ _ _ H) in Hkx as [b Hb]. unfold modify, deref. cbn [l1 heap set_heap].
      rewrite lookup_insert_ne, Hb by done. obind. cbn [heap set_heap].
      rewrite lookup_insert_ne, lookup_insert_eq by done. obind.
      eexists. split; [reflexivity|]. cbn [heap set_heap first count]. split; [done|]. split; [done|].
      split; [by rewrite lookup_insert_eq|]. intros i Hi. rewrite lookup_insert_ne by done.
      destruct (decide (Some k = Some i)) as [[= <-]|Hki].
      + by rewrite lookup_insert_eq, Hb.
      + rewrite !lookup_insert_ne by congruence. done.
    - exists l1. split; [done|]. split; [done|]. split; [done|]. cbn [l1 heap set_heap].
      split; [by rewrite lookup_insert_eq|]. intros i Hi. rewrite lookup_insert_ne by done. by rewrite decide_False. }
  destruct Hlink as (l2 & -> & Hf & Hc & Hhn & Hho). obind. eexists. split; [reflexivity|].
  destruct H as [Hch Hxs Hd Hcells Hcount].
  assert (Hne : forall i, i ∈ xs -> i <> n) by (by intros i Hi ->).
  set (l3 := BanList _ _ _ _).
  constructor.
  - replace (first l3) with (if decide (last l = None) then Some n else first l).
    2: { unfold l3. cbn [first]. rewrite Hf.
         pose proof (dchain_head _ _ _ _ _ Hch) as Hh. pose proof (dc_last _ _ _ _ _ Hch) as Hl.
         rewrite Hh, Hl. destruct xs as [|x xs']; [done|]. rewrite decide_False; [done|]. rewrite last_cons. by case_match. }
    unfold l3. cbn [last]. apply dchain_snoc with (nx := nx l) (pv := pv l); [done|done|..].
    + unfold nx. cbn [heap]. by rewrite Hhn.
    + unfold pv. cbn [heap]. by rewrite Hhn.
    + intros j Hj. unfold nx. cbn [heap]. rewrite Hho by auto. apply Hd in Hj as [b Hb]. rewrite Hb.
      by destruct (decide _).
    + intros j Hj. unfold pv. cbn [heap]. rewrite Hho by auto. apply Hd in Hj as [b Hb]. rewrite Hb.
      by destruct (decide _).
  - done.
  - intros i. cbn [l3 heap]. rewrite elem_of_app, list_elem_of_singleton.
    destruct (decide (i = n)) as [->|Hi]; [rewrite Hhn; split; [intros _; by eexists|by right]|].
    rewrite Hho, Hd by done. split.
    + intros [[b Hb]|]; [|done]. rewrite Hb. by destruct (decide _); eexists.
    + intros Hs. left. destruct (heap l !! i); [by eexists|]. by destruct (decide _), Hs.
  - apply Forall2_app; [|constructor; [by exists (Ban d 0 None (last l))|constructor]].
    apply Forall2_same_length_lookup_2; [by eapply Forall2_length|]. intros k i e Hi He.
    destruct (Forall2_lookup_lr _ _ _ _ _ _ Hcells Hi He) as (b & Hb & ->).
    apply list_elem_of_lookup_2 in Hi. unfold cell. cbn [l3 heap]. rewrite Hho, Hb by auto.
    destruct (decide _); eexists; by split.
  - cbn [l3 count]. rewrite Hc, Hcount, length_app. cbn. lia.
Qed.

(** The cells after a relinking. *)
Definition relinked (pi ni : option nat) (j : nat) (c : ban_element) : ban_element :=
  Ban (data c) (fail c) (if decide (pi = Some j) then ni else next c) (if decide (ni = Some j) then pi else prev c).
Lemma relinked_id pi ni j c : pi <> Some j -> ni <> Some j -> relinked pi ni j c = c.
Proof. intros Hp Hn. unfold relinked. rewrite !decide_False by done. by destruct c. Qed.
Lemma relink_none (h : gmap nat ban_element) j : h !! j = relinked None None j <$> h !! j.
Proof. destruct (h !! j); [|done]. cbn. by rewrite relinked_id. Qed.
Lemma relink_next (h : gmap nat ban_element) q c j :
  h !! q = Some c -> <[q := set_prev None c]> h !! j = relinked None (Some q) j <$> h !! j.
Proof.
  intros Hq. destruct (decide (q = j)) as [<-|Hne].
  - rewrite lookup_insert_eq, Hq; cbn; unfold relinked; repeat case_decide; congruence || done.
  - rewrite lookup_insert_ne by done. destruct (h !! j); [|done]. cbn. by rewrite relinked_id by congruence.
Qed.
Lemma relink_prev (h : gmap nat ban_element) p c j :
  h !! p = Some c -> <[p := set_next None c]> h !! j = relinked (Some p) None j <$> h !! j.
Proof.
  intros Hp. destruct (decide (p = j)) as [<-|Hne].
  - rewrite lookup_insert_eq, Hp; cbn; unfold relinked; repeat case_decide; congruence || done.
  - rewrite lookup_insert_ne by done. destruct (h !! j); [|done]. cbn. by rewrite relinked_id by congruence.
Qed.
Lemma relink_both (h : gmap nat ban_element) p q cp cq j :
  p <> q -> h !! p = Some cp -> h !! q = Some cq ->
  <[p := set_next (Some q) cp]> (<[q := set_prev (Some p) cq]> h) !! j = relinked (Some p) (Some q) j <$> h !! j.
Proof.
  intros Hne Hp Hq. destruct (decide (p = j)) as [<-|Hpj].
  - rewrite lookup_insert_eq, Hp; cbn; unfold relinked; repeat case_decide; congruence || done.
  - rewrite lookup_insert_ne by done. destruct (decide (q = j)) as [<-|Hqj].
    + rewrite lookup_insert_eq, Hq; cbn; unfold relinked; repeat case_decide; congruence || done.
    + rewrite lookup_insert_ne by done. destruct (h !! j); [|done]. cbn. by rewrite relinked_id by congruence.
Qed.

(** Unlinking the element number [k]: the links of the others, and nothing else. *)
Lemma list_unlink_ok l xs es k i b :
  rep l xs es -> xs !! k = Some i -> heap l !! i = Some b ->
  exists l', list_unlink l i = Done l' /\ count l' = count l /\
    first l' = (if decide (pv l i = None) then nx l i else first l) /\
    last l' = (if decide (pv l i = None) then last l else if decide (nx l i = None) then pv l i else last l) /\
    forall j, heap l' !! j = relinked (pv l i) (nx l i) j <$> heap l !! j.
Proof.
  intros H Hk Hb. pose proof (rep_chain _ _ _ H) as Hc.
  assert (Hix : i ∈ xs) by (by eapply list_elem_of_lookup_2).
  assert (Hnxi : nx l i = next b) by (unfold nx; by rewrite Hb).
  assert (Hpvi : pv l i = prev b) by (unfold pv; by rewrite Hb).
  assert (Hnk : nx l i = xs !! S k) by (by eapply dchain_nx).
  assert (Hpk : pv l i = match k with O => None | S k' => xs !! k' end) by (by apply (dc_prev _ _ _ _ _ Hc)).
  assert (Hnd := rep_nodup _ _ _ H).
  assert (Hnn : forall j, nx l i = Some j -> exists c, heap l !! j = Some c /\ j <> i).
  { intros j Hj. rewrite Hnk in Hj. assert (j ∈ xs) as [c Hcj]%(rep_dom _ _ _ H) by (by eapply list_elem_of_lookup_2).
    exists c. split; [done|]. intros ->. assert (S k = k) by (by eapply NoDup_lookup). lia. }
  assert (Hpp : forall j, pv l i = Some j -> exists c, heap l !! j = Some c /\ j <> i).
  { intros j Hj. rewrite Hpk in Hj. destruct k as [|k']; [done|].
    assert (j ∈ xs) as [c Hcj]%(rep_dom _ _ _ H) by (by eapply list_elem_of_lookup_2).
    exists c. split; [done|]. intros ->. assert (k' = S k') by (by eapply NoDup_lookup). lia. }
  unfold list_unlink, deref. rewrite Hb. obind. rewrite <- Hnxi, <- Hpvi.
  destruct (decide (Some i = first l)) as [Hfi|Hfi].
  - assert (pv l i = None) as Hp0.
    { rewrite (dchain_head _ _ _ _ _ Hc) in Hfi. destruct k; [done|]. exfalso.
      destruct xs as [|x xs']; [done|]. injection Hfi as ->. assert (S k = 0)%nat by (by eapply NoDup_lookup). lia. }
    rewrite Hp0, !(decide_True (P := None = None)) by done. destruct (nx l i) as [q|] eqn:Hq.
    + destruct (Hnn q eq_refl) as (cq & Hcq & Hqi). unfold modify, deref. cbn [heap]. rewrite Hcq. obind.
      eexists. split; [reflexivity|]. do 3 (split; [done|]). intros j. cbn [set_heap heap]. by apply relink_next.
    + eexists. split; [reflexivity|]. do 3 (split; [done|]). intros j. by apply relink_none.
  - assert (exists p, pv l i = Some p) as [p Hp].
    { destruct (pv l i) as [p|] eqn:Hp; [by exists p|]. exfalso. apply Hfi. symmetry. by eapply dchain_prev_None. }
    destruct (Hpp p Hp) as (cp & Hcp & Hpi). rewrite Hp, !(decide_False (P := Some p = None)) by done.
    destruct (decide (Some i = last l)) as [Hla|Hla].
    + assert (nx l i = None) as Hn0.
      { rewrite Hnk. rewrite (dc_last _ _ _ _ _ Hc), last_lookup in Hla. apply lookup_ge_None.
        assert (k = pred (length xs)) by (by eapply NoDup_lookup). lia. }
      rewrite Hn0, !(decide_True (P := None = None)) by done.
      unfold modify, deref. cbn [heap]. rewrite Hcp. obind.
      eexists. split; [reflexivity|]. do 3 (split; [done|]). intros j. cbn [set_heap heap]. by apply relink_prev.
    + assert (exists q, nx l i = Some q) as [q Hq].
      { destruct (nx l i) as [q|] eqn:Hq; [by exists q|]. exfalso. apply Hla. symmetry. by eapply dchain_next_None. }
      destruct (Hnn q Hq) as (cq & Hcq & Hqi). rewrite Hq, !(decide_False (P := Some q = None)) by done.
      assert (Hpq : p <> q).
      { intros ->. rewrite Hpk in Hp. rewrite Hnk in Hq. destruct k as [|k']; [done|].
        assert (k' = S (S k')) by (by eapply NoDup_lookup). lia. }
      obind. unfold modify, deref. rewrite Hcq. obind. cbn [heap set_heap].
      rewrite lookup_insert_ne, Hb by done. obind. rewrite <- Hnxi, <- Hpvi, Hp, Hq. obind. cbn [heap set_heap].
      rewrite lookup_insert_ne, Hcp by done. obind.
      eexists. split; [reflexivity|]. do 3 (split; [done|]). intros j. cbn [set_heap heap]. by apply relink_both.
Qed.

Lemma list_delete_ok l xs es k i :
  rep l xs es -> xs !! k = Some i ->
  exists l', list_delete l (Some i) = Done (0, l') /\ rep l' (delete k xs) (delete k es).
Proof.
  intros H Hk. destruct (rep_cell l xs es k i H Hk) as (b & Hb & He).
  destruct (list_unlink_ok l xs es k i b H Hk Hb) as (l1 & Hu & Hc1 & Hf1 & Hl1 & Hh1).
  unfold list_delete. rewrite (walk_chain _ _ _ _ xs) by (apply H || by rewrite (rep_fuel _ _ _ H)). obind.
  assert (find_from (fun j => bool_decide (j = i)) xs = Some (k, i)) as ->.
  { apply find_from_Some. split; [done|]. split; [by apply bool_decide_eq_true|]. intros j y Hj Hy.
    apply bool_decide_eq_false. intros ->. assert (j = k) by (eapply NoDup_lookup; [apply H|done|done]). lia. }
  cbn [fmap option_fmap option_map snd]. rewrite Hu. obind. eexists. split; [reflexivity|].
  pose proof H as [Hch Hnd Hd Hcells Hcount].
  assert (Hix : i ∈ xs) by (by eapply list_elem_of_lookup_2).
  assert (Hlen : (k < length xs)%nat) by (by eapply lookup_lt_Some).
  assert (Hother : forall j, j ∈ xs -> j <> i -> exists c, heap l !! j = Some c /\
            delete i (heap l1) !! j = Some (relinked (pv l i) (nx l i) j c)).
  { intros j Hj Hne. apply Hd in Hj as [c Hc]. exists c. split; [done|].
    by rewrite lookup_delete_ne, Hh1, Hc by congruence. }
  constructor.
  - replace (first (BanList _ _ _ _)) with (if decide (pv l i = None) then nx l i else first l) by (by rewrite <- Hf1).
    replace (last (BanList _ _ _ _)) with (if decide (nx l i = None) then pv l i else last l).
    + apply dchain_delete with (nx := nx l) (pv := pv l); [done|done|done|..];
        intros j Hj Hne; destruct (Hother j Hj Hne) as (c & Hc & Hc').
      * assert (nx l j = next c) as -> by (unfold nx; by rewrite Hc). unfold nx at 1. cbn [heap]. by rewrite Hc'.
      * assert (pv l j = prev c) as -> by (unfold pv; by rewrite Hc). unfold pv at 1. cbn [heap]. by rewrite Hc'.
    + cbn [last]. rewrite Hc1, Hcount, Hl1. rewrite (dchain_nx _ _ _ _ _ _ _ Hch Hk).
      rewrite (dc_prev _ _ _ _ _ Hch k i Hk).
      destruct (Z.eqb_spec (Z.of_nat (length xs) - 1) 0) as [H1|H1].
      * assert (k = 0%nat) as -> by lia. rewrite decide_True; [done|]. apply lookup_ge_None. lia.
      * destruct k as [|k].
        -- rewrite (decide_True (P := None = None)) by done. rewrite decide_False; [done|].
           rewrite lookup_ge_None. lia.
        -- rewrite (decide_False (P := xs !! k = None)); [done|]. rewrite lookup_ge_None. lia.
  - by apply NoDup_delete.
  - intros j. rewrite (elem_of_delete_NoDup xs k i j) by done. cbn [heap].
    destruct (decide (j = i)) as [->|Hne]; [rewrite lookup_delete_eq; split; [by intros [_ ?]|by intros [? ?]]|].
    rewrite lookup_delete_ne, Hh1, fmap_is_Some, Hd by done. tauto.
  - apply Forall2_same_length_lookup_2.
    { apply Forall2_length with (P := cell l). by apply Forall2_delete. }
    intros m j e Hj He'. destruct (Forall2_lookup_lr _ _ _ _ _ _ (Forall2_delete _ _ _ k Hcells) Hj He') as (c & Hc & ->).
    apply list_elem_of_lookup_2, (elem_of_delete_NoDup xs k i) in Hj as [Hj Hne]; [|done|done].
    destruct (Hother j Hj Hne) as (c' & Hc2 & Hc3). rewrite Hc in Hc2. injection Hc2 as <-.
    eexists. split; [exact Hc3|done].
  - cbn [count]. rewrite Hc1, Hcount, length_delete by done. lia.
Qed.

(** ** The counters *)

(** What the elements stand for: a counter for each value. *)
Definition abs (es : list (bytes * Z)) (m : gmap bytes Z) : Prop :=
  NoDup es.*1 /\ forall d c, m !! d = Some c <-> (d, c) ∈ es.
Definition counters (l : ban_list) (m : gmap bytes Z) : Prop := exists xs es, rep l xs es /\ abs es m.

(** The values a match has for the label. *)
Fixpoint keys_of (name : bytes) (lvs : list (bytes * bytes)) : list bytes :=
  match lvs with
  | [] => []
  | (lb, v) :: r => if strcmp_eq lb name then v :: keys_of name r else keys_of name r
  end.
Definition keys (m : match_t) : list bytes := keys_of LT_ip (zip (labels m) (values m)).

(** The first value that has a counter. *)
Fixpoint known (m : gmap bytes Z) (ks : list bytes) : option (bytes * Z) :=
  match ks with
  | [] => None
  | k :: ks' => match m !! k with Some c => Some (k, c) | None => known m ks' end
  end.

(** The specification of a match: the new counters, and the count with which the
    script runs. *)
Definition spec_match (max : Z) (m : gmap bytes Z) (success : bool) (ks : list bytes)
    : gmap bytes Z * option Z :=
  match known m ks with
  | Some (k, c) =>
    if success then (delete k m, None)
    else if max <=? c + 1 then (delete k m, Some (c + 1)) else (<[k := c + 1]> m, None)
  | None =>
    if success then (m, None)
    else if max <=? 1 then (m, Some 1)
    else match ks with k :: _ => (<[k := 1]> m, None) | [] => (m, None) end
  end.

Lemma counters_init : counters list_init ∅.
Proof.
  exists [], []. split; [apply rep_init|]. split; [constructor|]. intros d c. rewrite lookup_empty.
  split; [done|]. by intros ?%not_elem_of_nil.
Qed.

Lemma abs_find es m d :
  abs es m ->
  match find_data d es with
  | Some (k, e) => es !! k = Some e /\ e.1 = d /\ m !! d = Some e.2
  | None => m !! d = None
  end.
Proof.
  intros [Hn Hm]. unfold find_data. destruct (find_from _ es) as [[k [d' c]]|] eqn:Hf.
  - apply find_from_Some in Hf as (Hk & Hd & _). apply bool_decide_eq_true in Hd. cbn in Hd. subst d'.
    split; [done|]. split; [done|]. apply Hm. by eapply list_elem_of_lookup_2.
  - apply find_from_None in Hf. destruct (m !! d) as [c|] eqn:Hc; [|done]. exfalso.
    apply Hm in Hc. rewrite Forall_forall in Hf. specialize (Hf _ Hc). by apply bool_decide_eq_false in Hf.
Qed.

(** The element of the first known value. *)
Lemma ban_get_ok l xs es m mt :
  rep l xs es -> abs es m ->
  match known m (keys mt) with
  | Some (k, c) => exists p i, ban_get_elem l mt LT_ip = Done (Some i) /\ xs !! p = Some i /\ es !! p = Some (k, c)
  | None => ban_get_elem l mt LT_ip = Done None
  end.
Proof.
  intros Hr Ha. unfold ban_get_elem, keys. generalize (zip (labels mt) (values mt)). intros lvs.
  induction lvs as [|[lb v] lvs IH]; cbn [keys_of known get_loop]; [done|].
  destruct (strcmp_eq lb LT_ip); [|done]. cbn [known]. rewrite (get_ok l xs es) by done. obind.
  pose proof (abs_find es m v Ha) as Hf. destruct (find_data v es) as [[k [d c]]|].
  - destruct Hf as (Hk & Hd & ->). cbn in Hd |- *. subst d.
    assert (is_Some (xs !! k)) as [i Hi].
    { destruct (Forall2_lookup_r _ _ _ _ _ (rep_cells _ _ _ Hr) Hk) as (i & Hi & _). by exists i. }
    exists k, i. rewrite Hi. done.
  - rewrite Hf. cbn. apply IH.
Qed.

(** Changes of the elements as changes of the counters. *)
Lemma abs_delete es m k d c : abs es m -> es !! k = Some (d, c) -> abs (delete k es) (delete d m).
Proof.
  intros [Hn Hm] Hk. pose proof (delete_Permutation es k _ Hk) as Hp. clear Hk.
  revert Hp. generalize (delete k es). intros es' Hp.
  assert (Hn' : NoDup ((d, c) :: es').*1) by (by rewrite <- Hp).
  cbn in Hn'. apply NoDup_cons in Hn' as [Hd Hn']. split; [done|]. intros d' c'.
  assert (Hin : forall x, x ∈ es <-> x = (d, c) \/ x ∈ es') by (intros x; by rewrite Hp, elem_of_cons).
  destruct (decide (d = d')) as [<-|Hne].
  - rewrite lookup_delete_eq. split; [done|]. intros H. exfalso. apply Hd. apply list_elem_of_fmap.
    by exists (d, c').
  - rewrite lookup_delete_ne by done. rewrite Hm, Hin. split; [|by right]. by intros [[= -> ->]|].
Qed.
Lemma abs_set es m k d c v : abs es m -> es !! k = Some (d, c) -> abs (<[k := (d, v)]> es) (<[d := v]> m).
Proof.
  intros [Hn Hm] Hk. assert (Hlt := lookup_lt_Some _ _ _ Hk).
  assert (Hkeys : (<[k := (d, v)]> es).*1 = es.*1).
  { rewrite list_fmap_insert. apply list_insert_id. by rewrite list_lookup_fmap, Hk. }
  split; [by rewrite Hkeys|]. intros d' c'. rewrite list_elem_of_lookup. split.
  - intros Hc. destruct (decide (d = d')) as [<-|Hne].
    + rewrite lookup_insert_eq in Hc. injection Hc as <-. exists k. by apply list_lookup_insert_eq.
    + rewrite lookup_insert_ne in Hc by done. apply Hm, list_elem_of_lookup in Hc as [j Hj].
      exists j. rewrite list_lookup_insert_ne; [done|]. intros <-. congruence.
  - intros [j Hj]. destruct (decide (k = j)) as [<-|Hne].
    + rewrite list_lookup_insert_eq in Hj by done. injection Hj as <- <-. by rewrite lookup_insert_eq.
    + rewrite list_lookup_insert_ne in Hj by done. rewrite lookup_insert_ne.
      * apply Hm. by eapply list_elem_of_lookup_2.
      * intros <-. apply Hne. apply (NoDup_lookup es.*1 k j d Hn); by rewrite list_lookup_fmap, ?Hk, ?Hj.
Qed.
Lemma abs_add es m d v : abs es m -> m !! d = None -> abs (es ++ [(d, v)]) (<[d := v]> m).
Proof.
  intros [Hn Hm] Hd. split.
  - rewrite fmap_app. apply NoDup_app. split; [done|]. split; [|apply NoDup_singleton].
    intros x Hx ->%list_elem_of_singleton. apply list_elem_of_fmap in Hx as ([d' c] & [= ->] & Hx).
    apply Hm in Hx. congruence.
  - intros d' c'. rewrite elem_of_app, list_elem_of_singleton. destruct (decide (d = d')) as [<-|Hne].
    + rewrite lookup_insert_eq. split; [intros [= ->]; by right|]. intros [H%Hm|[= ->]]; [congruence|done].
    + rewrite lookup_insert_ne, Hm by done. split; [by left|]. intros [?|[= ? ?]]; [done|congruence].
Qed.

Lemma delete_insert_same {A} (l : list A) k x : delete k (<[k := x]> l) = delete k l.
Proof. by rewrite !delete_take_drop, take_insert_ge, drop_insert_lt by lia. Qed.

Section Run.
Context (malloc : gmap nat ban_element -> option nat) (strdup_ok : bytes -> bool).
(** Allocations succeed, and a new element is not one in use. *)
Context (malloc_ok : forall h, exists n, malloc h = Some n /\ h !! n = None) (strdup_always : forall v, strdup_ok v = true).

Lemma ban_add_ok l m mt :
  counters l m -> known m (keys mt) = None ->
  exists z l', ban_add_elem malloc strdup_ok l mt LT_ip = Done (z, l') /\
    counters l' (match keys mt with k :: _ => <[k := 1]> m | [] => m end).
Proof.
  intros (xs & es & Hr & Ha). unfold ban_add_elem, keys. generalize (zip (labels mt) (values mt)). intros lvs.
  induction lvs as [|[lb v] lvs IH]; cbn [keys_of known add_loop].
  { intros _. exists (-1), l. split; [done|]. by exists xs, es. }
  destruct (strcmp_eq lb LT_ip); [|done]. cbn [known]. destruct (m !! v) eqn:Hv; [done|]. intros _.
  rewrite strdup_always. cbn [negb]. destruct (malloc_ok (heap l)) as (n & Hn & Hfresh).
  destruct (list_add_ok malloc l xs es v n Hr Hn Hfresh) as (l1 & Hadd & Hr1). rewrite Hadd. obind.
  assert (Hx : (xs ++ [n]) !! length es = Some n).
  { rewrite <- (Forall2_length _ _ _ (rep_cells _ _ _ Hr)), lookup_app_r, Nat.sub_diag by lia. done. }
  assert (He : (es ++ [(v, 0)]) !! length es = Some (v, 0)) by (rewrite lookup_app_r, Nat.sub_diag by lia; done).
  destruct (set_fail_ok l1 _ _ _ n v 0 1 Hr1 Hx He) as (l2 & b & _ & _ & _ & Hmod & Hr2). rewrite Hmod. obind.
  exists 0, l2. split; [done|]. eexists _, _. split; [exact Hr2|].
  rewrite insert_app_r_alt, Nat.sub_diag by lia. by apply abs_add.
Qed.

(** The calls of the script that a match leads to. *)
Definition script (r : uci_logcheck) (mt : match_t) (message : bytes) (run : option Z) : list event :=
  match run with Some n => [Script (r_name r) mt message n] | None => [] end.

Lemma on_match_ok r m success mt message :
  counters (bans r) m ->
  let '(m', run) := spec_match (maxfail r) m success (keys mt) in
  exists l', on_match malloc strdup_ok r success mt message = Done (set_bans r l', script r mt message run) /\
    counters l' m'.
Proof.
  intros Hcnt. pose proof Hcnt as (xs & es & Hr & Ha). unfold on_match, spec_match.
  pose proof (ban_get_ok (bans r) xs es m mt Hr Ha) as Hget.
  assert (Hsame : r = set_bans r (bans r)) by (by destruct r).
  destruct (known m (keys mt)) as [[k c]|] eqn:Hk.
  - destruct Hget as (p & i & -> & Hi & He). obind. destruct success.
    + destruct (list_delete_ok _ _ _ _ _ Hr Hi) as (l' & -> & Hr'). obind. exists l'. split; [done|].
      exists (delete p xs), (delete p es). split; [done|]. by eapply abs_delete.
    + destruct (rep_cell _ _ _ _ _ Hr Hi) as (b & Hb & He'). rewrite He in He'. injection He' as -> ->.
      destruct (set_fail_ok _ _ _ _ i _ _ (fail b + 1) Hr Hi He) as (l1 & b' & Hb' & _ & Hb1 & Hm1 & Hr1).
      rewrite Hb in Hb'. injection Hb' as <-.
      assert (modify (bans r) i (fun b => set_fail (fail b + 1) b) = Done l1) as ->.
      { rewrite <- Hm1. unfold modify, deref. by rewrite Hb. }
      obind. unfold deref. rewrite Hb1. obind. cbn [set_fail LogTrigger.fail].
      destruct (maxfail r <=? fail b + 1).
      * destruct (list_delete_ok _ _ _ _ _ Hr1 Hi) as (l' & -> & Hr'). obind. exists l'. split; [done|].
        exists (delete p xs), (delete p es). split; [|by eapply abs_delete].
        by rewrite <- (delete_insert_same es p (data b, fail b + 1)).
      * exists l1. split; [done|]. eexists _, _. split; [exact Hr1|]. by eapply abs_set.
  - rewrite Hget. obind. destruct success; [exists (bans r); by rewrite <- Hsame|].
    destruct (maxfail r <=? 1); [exists (bans r); by rewrite <- Hsame|].
    destruct (ban_add_ok (bans r) m mt Hcnt Hk) as (z & l' & -> & Hl'). obind.
    destruct (keys mt); by exists l'.
Qed.

(** C35: handling a match implements the specification on the counters: a
    success forgets the counter of the host, a failure counts up, and at the limit
    runs the script and forgets the counter; the elements are linked, unlinked,
    allocated and freed without touching memory that is not theirs. *)
Theorem on_match_refines r m success mt message :
  counters (bans r) m ->
  let '(m', run) := spec_match (maxfail r) m success (keys mt) in
  exists l', on_match malloc strdup_ok r success mt message = Done (set_bans r l', script r mt message run) /\
    counters l' m'.
Proof.
  exact (on_match_ok r m success mt message).
Qed.

(** ** Histories of matches *)

Record item := Item { ok : bool; matched : match_t; message : bytes }.

Fixpoint history (r : uci_logcheck) (its : list item) : result (uci_logcheck * list event) :=
  match its with
  | [] => Done (r, [])
  | it :: its' =>
    '(r, es) ← on_match malloc strdup_ok r (ok it) (matched it) (message it);
    '(r, es') ← history r its';
    Done (r, es ++ es')
  end.

(** Failures of a host since its last success; the most recent match comes first. *)
Fixpoint failures (k : bytes) (past : list (bool * bytes)) : Z :=
  match past with
  | [] => 0
  | (success, k') :: p =>
    if decide (k' = k) then if success : bool then 0 else failures k p + 1 else failures k p
  end.

(** The script runs at every [limit]-th failure in a row. *)
Fixpoint runs (r : uci_logcheck) (limit : Z) (past : list (bool * bytes)) (its : list item) : list event :=
  match its with
  | [] => []
  | it :: its' =>
    match keys (matched it) with
    | k :: _ =>
      let past := (ok it, k) :: past in
      script r (matched it) (message it)
        (if negb (ok it) && (failures k past mod limit =? 0) then Some limit else None) ++ runs r limit past its'
    | [] => runs r limit past its'
    end
  end.

Definition tracks (limit : Z) (past : list (bool * bytes)) (m : gmap bytes Z) : Prop :=
  forall k, m !! k = (if failures k past mod limit =? 0 then None else Some (failures k past mod limit)).

Lemma failures_other k k' b past : k' <> k -> failures k ((b, k') :: past) = failures k past.
Proof. intros Hne. cbn [failures]. by rewrite decide_False. Qed.
Lemma failures_self k b past : failures k ((b, k) :: past) = if b : bool then 0 else failures k past + 1.
Proof. cbn [failures]. by rewrite decide_True. Qed.
Lemma failures_nonneg k past : 0 <= failures k past.
Proof. induction past as [|[b k'] past IH]; cbn [failures]; [lia|]. destruct (decide _), b; lia. Qed.

(** Counting up by one, modulo the limit. *)
Lemma mod_step limit f :
  1 <= limit -> 0 <= f ->
  (f + 1) mod limit = if f mod limit + 1 =? limit then 0 else f mod limit + 1.
Proof.
  intros Hl Hf. pose proof (Z.mod_pos_bound f limit ltac:(lia)). pose proof (Z.div_mod f limit ltac:(lia)).
  destruct (Z.eqb_spec (f mod limit + 1) limit) as [He|He]; symmetry.
  - apply Z.mod_unique_pos with (q := f / limit + 1); lia.
  - apply Z.mod_unique_pos with (q := f / limit); lia.
Qed.

Lemma tracks_step max past m b k :
  tracks (Z.max 1 max) past m ->
  let '(m', run) := spec_match max m b [k] in
  tracks (Z.max 1 max) ((b, k) :: past) m' /\
  run = (if negb b && (failures k ((b, k) :: past) mod Z.max 1 max =? 0) then Some (Z.max 1 max) else None).
Proof.
  set (limit := Z.max 1 max). intros Ht. pose proof (Ht k) as Hk. pose proof (failures_nonneg k past) as Hf.
  set (f := failures k past) in *. pose proof (Z.mod_pos_bound f limit ltac:(lia)) as Hb.
  assert (Hkeep : forall m' v, m' !! k = v -> (forall j, j <> k -> m' !! j = m !! j) ->
            v = (let g := failures k ((b, k) :: past) in if g mod limit =? 0 then None else Some (g mod limit)) ->
            tracks limit ((b, k) :: past) m').
  { intros m' v Hv Ho -> j. destruct (decide (j = k)) as [->|Hne]; [done|].
    rewrite Ho, failures_other by done. apply Ht. }
  rewrite failures_self in *. fold f in Hkeep |- *. unfold spec_match. cbn [known]. rewrite Hk.
  assert (Hstep := mod_step limit f ltac:(lia) Hf).
  destruct b; cbn [negb andb].
  - destruct (f mod limit =? 0) eqn:E; (split; [|done]).
    + apply (Hkeep m None); [done|done|done].
    + apply (Hkeep _ None); [apply lookup_delete_eq|intros j Hj; by apply lookup_delete_ne|done].
  - destruct (Z.eqb_spec (f mod limit) 0) as [E|E].
    + rewrite E in Hstep. rewrite Hstep. destruct (Z.leb_spec max 1).
      * assert (limit = 1) as Hl1 by lia. rewrite Hl1 in *. change (0 + 1 =? 1) with true in *. cbn match in *.
        change (0 =? 0) with true in *. split; [|done]. apply (Hkeep m None); [done|done|]. cbv zeta. by rewrite Hstep.
      * destruct (Z.eqb_spec (0 + 1) limit); [lia|]. change (0 + 1 =? 0) with false. split; [|done].
        apply (Hkeep _ (Some 1)); [apply lookup_insert_eq|intros j Hj; by apply lookup_insert_ne|].
        cbv zeta. rewrite Hstep. by destruct (Z.eqb_spec (0 + 1) limit); [lia|].
    + assert (limit = max) as Hlm by lia. rewrite Hstep.
      destruct (Z.leb_spec max (f mod limit + 1)), (Z.eqb_spec (f mod limit + 1) limit); try lia.
      * change (0 =? 0) with true. split; [|f_equal; lia].
        apply (Hkeep _ None); [apply lookup_delete_eq|intros j Hj; by apply lookup_delete_ne|].
        cbv zeta. by rewrite Hstep.
      * destruct (Z.eqb_spec (f mod limit + 1) 0); [lia|]. split; [|done].
        apply (Hkeep _ (Some (f mod limit + 1))); [apply lookup_insert_eq|intros j Hj; by apply lookup_insert_ne|].
        cbv zeta. rewrite Hstep. by destruct (Z.eqb_spec (f mod limit + 1) 0).
Qed.

Lemma script_set_bans r l mt msg o : script (set_bans r l) mt msg o = script r mt msg o.
Proof. done. Qed.
Lemma runs_set_bans r l limit past its : runs (set_bans r l) limit past its = runs r limit past its.
Proof. revert past. induction its as [|it its IH]; intros past; cbn [runs]; [done|]. by destruct (keys _); rewrite IH. Qed.

Lemma history_ok r m past its :
  counters (bans r) m -> tracks (Z.max 1 (maxfail r)) past m ->
  Forall (fun it => exists k, keys (matched it) = [k]) its ->
  exists r', history r its = Done (r', runs r (Z.max 1 (maxfail r)) past its).
Proof.
  intros Hc Ht Hits. revert r m past Hc Ht.
  induction Hits as [|[b mt msg] its [k Hk] _ IH]; intros r m past Hc Ht; cbn [history runs].
  { by exists r. }
  cbn [ok matched message] in *. rewrite Hk.
  pose proof (on_match_ok r m b mt msg Hc) as Hon. pose proof (tracks_step (maxfail r) past m b k Ht) as Hst.
  rewrite Hk in Hon. destruct (spec_match _ _ _ _) as [m' run]. destruct Hst as [Ht' <-].
  destruct Hon as (l' & -> & Hl'). obind.
  destruct (IH (set_bans r l') m' ((b, k) :: past) Hl' Ht') as [r' Hr']. rewrite Hr'. obind.
  exists r'. cbn [maxfail set_bans]. by rewrite runs_set_bans.
Qed.

(** Over any sequence of matches that each name one host, started on an
    empty list, the script runs exactly at every [maxfail]-th failure in a row of a
    host (at every failure, if [maxfail] is less than one), a success of the host
    resetting its count and the other hosts not interfering. *)
Theorem history_runs r its :
  bans r = list_init ->
  Forall (fun it => exists k, keys (matched it) = [k]) its ->
  exists r', history r its = Done (r', runs r (Z.max 1 (maxfail r)) [] its).
Proof.
  intros Hr. apply (history_ok r ∅).
  - rewrite Hr. apply counters_init.
  - intros k. rewrite lookup_empty. by rewrite Z.mod_0_l by lia.
Qed.
End Run.

(** ** Concrete histories *)

(** The next address is one above those in use. *)
Definition bump (h : gmap nat ban_element) : option nat :=
  Some (fold_right (fun p n => Nat.max (S p.1) n) 0%nat (map_to_list h)).

(** The first rule of [files/logtrigger.conf]. *)
Definition ssh_rule : uci_logcheck :=
  Logcheck (str "SSH_WrongPass") (str "Bad password attempt for '%s' from %s:" ++ [0])
    (Some (str "Password auth succeeded for '%s' from %s:" ++ [0])) (Some (str "user ip")) 5 false list_init.
Definition bad (peer : string) : string := "Apr  7 dropbear[1]: Bad password attempt for 'root' from " ++ peer.
Definition good (peer : string) : string := "Apr  7 dropbear[1]: Password auth succeeded for 'root' from " ++ peer.

(** The count with which the script ran, for each run. *)
Definition run_counts (r : result (list uci_logcheck * list event)) : result (list Z) :=
  '(_, es) ← r; Done (map (fun e => let 'Script _ _ _ n := e in n) es).
Definition log_of (ls : list string) : bytes := concat (map (fun s => str s ++ [10]) ls).
Definition runs_on (ls : list string) : result (list Z) :=
  run_counts (processMsg bump (fun _ => true) [ssh_rule] (log_of ls) []).

(** Five failures over one connection run the script. *)
Example same_connection : runs_on (replicate 5 (bad "10.0.0.5:4001")) = Done [5].
Proof. vm_compute. reflexivity. Qed.

(** Each connection has a source port of its own, and the value that is counted is
    the rest of the message: failures of one host over five connections are five
    hosts for the rule. *)
Example new_connections :
  runs_on [bad "10.0.0.5:4001"; bad "10.0.0.5:4002"; bad "10.0.0.5:4003"; bad "10.0.0.5:4004"; bad "10.0.0.5:4005";
    bad "10.0.0.5:4006"] = Done [].
Proof. vm_compute. reflexivity. Qed.

(** A success in between starts the count again. *)
Example success_between :
  runs_on (replicate 4 (bad "10.0.0.5:4001") ++ [good "10.0.0.5:4001"] ++ replicate 4 (bad "10.0.0.5:4001")) = Done [] /\
  runs_on (replicate 4 (bad "10.0.0.5:4001") ++ [good "10.0.0.6:4001"] ++ [bad "10.0.0.5:4001"]) = Done [5].
Proof. split; vm_compute; reflexivity. Qed.

Lemma bump_ok h : exists n, bump h = Some n /\ h !! n = None.
Proof.
  eexists. split; [reflexivity|]. destruct (h !! _) as [b|] eqn:Hb; [|done]. exfalso.
  apply elem_of_map_to_list in Hb. revert Hb. generalize (map_to_list h).
  assert (Hmax : forall (l : list (nat * ban_element)) n b, (n, b) ∈ l -> (n < fold_right (fun p k => Nat.max (S p.1) k) 0 l)%nat).
  { intros l. induction l as [|[k c] l IH]; intros n b'; [by intros ?%not_elem_of_nil|].
    cbn [fold_right fst]. intros [[= -> ->]|H%IH]%elem_of_cons; lia. }
  intros l Hb. apply Hmax in Hb. lia.
Qed.

(** The counters of a rule that has seen one failure. *)
Definition one_match : match_t := Match 2 [str "LT_user"; LT_ip] [str "root"; str "10.0.0.5"] [] (Some (str "text")).
Definition other_match : match_t := Match 2 [str "LT_user"; LT_ip] [str "root"; str "10.0.0.6"] [] (Some (str "text")).

Lemma on_match_refines_witness :
  counters (bans ssh_rule) ∅ /\
  exists l', on_match bump (fun _ => true) ssh_rule false one_match (str "m") = Done (set_bans ssh_rule l', []) /\
    counters l' (<[str "10.0.0.5" := 1]> ∅).
Proof.
  split; [apply counters_init|].
  exact (on_match_refines bump (fun _ => true) bump_ok (fun _ => eq_refl) ssh_rule ∅ false one_match (str "m") counters_init).
Defined.

Lemma history_runs_witness :
  exists r', history bump (fun _ => true) ssh_rule
      (replicate 4 (Item false one_match (str "m")) ++ [Item true other_match (str "ok"); Item false one_match (str "m5")]) =
    Done (r', [Script (str "SSH_WrongPass") one_match (str "m5") 5]).
Proof.
  refine (history_runs bump (fun _ => true) bump_ok (fun _ => eq_refl) ssh_rule
    (replicate 4 (Item false one_match (str "m")) ++ [Item true other_match (str "ok"); Item false one_match (str "m5")])
    eq_refl _).
  repeat constructor; eexists; vm_compute; reflexivity.
Defined.

End LogTrigger.
